(* ===== verification/_CoqProject ===== *)
-Q . S2P
Prelude.v
Format.v
Volume.v
Cache.v
Journal.v
Wal.v
Alloc.v
Mkfs.v
Mount.v
Items.v
Btree.v
Cnode.v
Reads.v
File.v
Xattr.v
Dirent.v
Dir.v
Dleaf.v
Gpt.v
Ring.v
ExecList.v
Sched.v
Sem.v
HandleTable.v
MsgPort.v
Fdt.v
PageAlloc.v
PhysMap.v
PageTable.v
Heap.v
