(* ===== verification/Prelude.v ===== *)
(** A verification of the core of CaraOS.

    * The program

    CaraOS is an Amiga-like operating system in C23. This library models its filesystem CaraFS
    ([src/logaic/carafs]), the GPT code that finds CaraFS volumes ([src/logaic/gpt]), and parts of
    the kernel Croi ([src/croi], [include/cara]): the message ring, the exec lists, the cooperative
    scheduler with its signals, semaphores and message ports, the handle tables, the device tree
    parser, the physical memory map and page allocator, the page tables and the heap.

    CaraFS is a stack. A block device carries a volume whose layout [carafs_geometry] computes. All
    metadata goes through one block cache. An operation runs in a bracket ([carafs_op_begin],
    [carafs_op_commit], [carafs_op_abort]): the blocks it dirties form a transaction that
    the journal appends to a circular log before they may go home; mounting a volume that was not
    detached cleanly replays the log. The allocator grants runs of blocks from bitmaps held in
    cached blocks. On top come the objects: cnodes with packed items, B+trees of extents and
    directory entries, file contents, directories, attributes.

    * Conventions

    Integers are [Z]; [u8], [u16], [u32], [u64] are written wherever the C code reduces. Blocks are
    lists of bytes; a struct field is [rd]/[wr] at its offset. C functions that return an error code
    are in the monad [ST S A := S -> result A * S], in which the state changes made before an error
    return are kept, as in the code. A pointer into a cached block is the index of its cache entry, so
    aliasing and stores through pointers are those of the code. The block device is the class
    [BlockDev] with the laws [BlockDevLaws] (a failed write may leave the target block with any
    contents of its size; [dev_reliable] excludes failures); the memory-backed device of [bdev.c]
    is its instance, and the GPT disk is the class [GptDev] alike. The clock is an argument.
    Loops that are not structural carry a fuel that the definition itself computes from the bound the
    loop has (table sizes, log length, 32 doublings, [BT_MAX_DEPTH]); the theorems show that this is
    enough. Only the walk of [tree_free_all] takes its fuel from the caller, because a corrupt
    tree can be as large as the volume.

    * Files

    - [Prelude]: integers, errors, the monad, byte buffers, tactics and hint databases.
    - [Format] ([format.c]): CRC-32C and its bit-serial specification, block seals, name folding,
      hashing and comparison.
    - [Volume] ([carafs.h], [bdev.c]): superblock codec, geometry, device class and instance.
    - [Cache] ([cache.c]): entries, LRU list, bucket index, eviction and write-back. The invariant
      [cache_inv] ties the three structures together; [view m b] is the block [b] as the cache
      shows it, the abstraction every later file uses.
    - [Journal], [Wal] ([journal.c], transactions of [cache.c]): log records, append, checkpoint,
      replay; recovery after a crash at any write of an append or of a replay.
    - [Alloc] ([alloc.c]): group bitmaps, extent allocation and release. [shows v m m'] is the
      frame: [m'] is consistent, shows [v] and holds no pin more than [m].
    - [Mkfs] ([mkfs.c]), [Mount] ([mount.c]): formatting, the cache arena, mount with recovery,
      sync, unmount, the operation bracket.
    - [Items], [Cnode] ([cnode.c]), [Btree] ([btree.c]: shared nodes and the extent flavour),
      [Xattr] ([xattr.c]): objects. Items and attributes refine finite maps, the extent tree
      refines a sorted list of records. [Reads] is the frame of read-only walks: every block and every
      pinned entry stays as it is.
    - [File] ([file.c]): inline data, inline extents and the extent tree as one block map; reads and
      writes against the abstract file, a function from offsets to bytes.
    - [Dirent] ([btree.c]: the directory flavour), [Dir] ([dir.c]): entries packed in the cnode,
      their escalation to the tree, and the calls. A directory refines a map from folded names.
      [Dleaf]: a leaf of the tree refines a sorted list of entries.
    - [Gpt] ([gpt.c]): finding, searching by UUID, formatting.
    - [Ring] ([ring.h]), [ExecList] ([list.h], [list_ops.c]), [Sched] ([sched.c]),
      [Sem] ([sem.c]), [HandleTable] ([kobj.c], [handle_table.c]), [MsgPort] ([msgport.c], [exec_lib/ipc.c]),
      [Fdt] ([fdt.c], [fdt_props.c], [fdt_path.c]),
      [PageAlloc] ([page_alloc.c], arithmetic of [physmap.c]), [PhysMap] ([physmap.c] on the device tree),
      [PageTable] ([pt.c], RISC-V encoding), [Heap] ([heap.c]): kernel.

    * What the theorems show

    - Integrity: the table-driven CRC is the shift register; a sealed block detects every burst of
      up to four bytes; superblocks survive their image.
    - Cache: the invariant holds after every sequence of calls; a store is what later reads see,
      whatever is evicted; sync makes the device hold the view.
    - Recovery: a crash at any write of a journal append recovers all or nothing of the transaction;
      replay terminates, applies exactly the complete transactions, and may itself be interrupted;
      mounting composes these. The case of a log filled to its last block is a theorem of its
      own, since the code then takes the log for empty.
    - Allocation: a grant is a run of blocks that were free, the counters stay exact, double frees are
      refused, freeing a grant restores the state.
    - Life cycle: a volume made by mkfs mounts; unmount and mount show the same blocks; the first
      write makes the DIRTY state durable before anything else.
    - Objects: items and attributes are maps with exact overflow conditions; the floor search of the
      extent tree is the floor of the sorted records; creation, generations and stat of cnodes.
    - Files: a read returns the bytes of the abstract file, holes as zeros; a write that stays inline
      is read back; placing a run in the inline extents maps exactly its blocks.
    - Directories: lookup, probe, insert and remove of inline entries implement a map from folded
      names; lookups on a mounted volume have the documented results and errors; iteration ends and
      lists every entry once. The leaves of the tree form implement insertion, splitting, removal
      and promotion of a sorted list; its interior walks are modelled and run on examples.
    - Partition tables: format then find is the identity on the requested partitions, and no disk
      contents make a found partition leave the disk or the UUID search run on.
    - Kernel: the ring under every interleaving refines a bounded queue; list functions implement
      sequence operations with no other memory touched; each task is in exactly the queue of its
      state and no wanted signal is lost; a semaphore has one holder and no hand-over is lost; a message
      port delivers what it takes in order, and its owner does not sleep on messages; a handle table is a map with exact reference counts and
      closed handles stay invalid for 65,535 closings of the slot; no device tree makes the parser leave the blob or
      run on, and it reads back any encoded tree; the memory map made from it is exactly the banks less
      the reservations, and page allocation is exact; mapping a page changes the translation the Sv39 MMU
      makes of that page and no other, a new address space is the direct map, and destroying one frees its
      tables once; the heap is a store of disjoint zeroed blocks and touches nothing else.

    Every theorem with hypotheses comes with a concrete instance in an [Example] module of its file.

    * Not modelled

    [fsck.c] and the dos.library handler; statistics counters, the debug console and other pure output;
    register-level code (context switch, traps, TLB fences, the AArch64 encoding), device drivers, the display server and
    Intuition, userland programs, ports and build tools. Memory order of the ring is sequential
    consistency. *)

From stdpp Require Export base list numbers gmap.
From Stdlib Require Export ZArith Lia.

#[global] Open Scope Z_scope.

(** * Machine integers *)

(** The fixed-width unsigned types of [include/cara/types.h]: a value is a [Z],
    every arithmetic result is reduced where the C code stores it. *)
Definition u8 (x : Z) : Z := x mod 2 ^ 8.
Definition u16 (x : Z) : Z := x mod 2 ^ 16.
Definition u32 (x : Z) : Z := x mod 2 ^ 32.
Definition u64 (x : Z) : Z := x mod 2 ^ 64.
Definition in_u8 (x : Z) : Prop := 0 <= x < 2 ^ 8.
Definition in_u16 (x : Z) : Prop := 0 <= x < 2 ^ 16.
Definition in_u32 (x : Z) : Prop := 0 <= x < 2 ^ 32.
Definition in_u64 (x : Z) : Prop := 0 <= x < 2 ^ 64.

(** [~x] on a [u32] and a [u8]. *)
Definition not32 (x : Z) : Z := u32 (Z.lnot x).
Definition not8 (x : Z) : Z := u8 (Z.lnot x).

(** Error codes of [include/cara/types.h]. *)
Definition CARA_EOK : Z := 0.
Definition CARA_EINVAL : Z := -1.
Definition CARA_ENOENT : Z := -2.
Definition CARA_ERANGE : Z := -3.
Definition CARA_EBADF : Z := -4.
Definition CARA_EAGAIN : Z := -5.
Definition CARA_ENOMEM : Z := -6.
Definition CARA_EBADMAGIC : Z := -7.
Definition CARA_EBADVERSION : Z := -8.
Definition CARA_EOVERFLOW : Z := -9.
Definition CARA_ENOTFOUND : Z := -10.
Definition CARA_EIO : Z := -11.
Definition CARA_EEXIST : Z := -12.
Definition CARA_ENOTEMPTY : Z := -13.

(** * Results, and the state-and-error monad *)

(** A C function that returns [int] and fills out-parameters on success. *)
Inductive result (A : Type) : Type :=
| Ok (a : A)
| Err (rc : Z).
Arguments Ok {A} a.
Arguments Err {A} rc.

Definition is_ok {A} (r : result A) : bool := match r with Ok _ => true | Err _ => false end.

(** State changes made before an error return are kept, as in the C code. *)
Definition ST (S A : Type) : Type := S -> result A * S.

#[export] Instance st_ret {S} : MRet (ST S) := fun A a s => (Ok a, s).
#[export] Instance st_bind {S} : MBind (ST S) := fun A B f m s =>
  match m s with
  | (Ok a, s') => f a s'
  | (Err e, s') => (Err e, s')
  end.

Definition st_err {S A} (e : Z) : ST S A := fun s => (Err e, s).
Definition st_get {S} : ST S S := fun s => (Ok s, s).
Definition st_gets {S A} (f : S -> A) : ST S A := fun s => (Ok (f s), s).
Definition st_mod {S} (f : S -> S) : ST S unit := fun s => (Ok tt, f s).
(** Run [c] and hand its return code on as a value instead of returning early. *)
Definition st_try {S A} (c : ST S A) : ST S (result A) := fun s => let '(r, s') := c s in (Ok r, s').
(** [return rc;] *)
Definition st_lift {S A} (r : result A) : ST S A := fun s => (r, s).

Declare Scope cara_scope.
Delimit Scope cara_scope with cara.
Notation "'assert!' b 'else' e ; k" := (if b then k else st_err e)
  (at level 100, b at level 99, e at level 99, k at level 200, right associativity) : cara_scope.
#[global] Open Scope cara_scope.

(** * Tactics *)

Create HintDb cara discriminated.
Create Rewrite HintDb cara_rw.

(** Split every conjunction and existential of the context. *)
Ltac deex :=
  repeat match goal with
  | H : exists _, _ |- _ => destruct H
  | H : _ /\ _ |- _ => destruct H
  end.

(** Linear arithmetic in the presence of division and remainder by constants. *)
Ltac dmlia := Z.div_mod_to_equations; lia.

(** Case analysis on the boolean comparisons of [Z] in the goal and context. *)
Ltac zbool :=
  repeat match goal with
  | H : (_ && _)%bool = true |- _ => apply andb_prop in H; destruct H
  | H : (_ || _)%bool = false |- _ => apply orb_false_elim in H; destruct H
  | H : negb _ = true |- _ => apply negb_true_iff in H
  | H : negb _ = false |- _ => apply negb_false_iff in H
  | H : (_ =? _) = true |- _ => apply Z.eqb_eq in H
  | H : (_ =? _) = false |- _ => apply Z.eqb_neq in H
  | H : (_ <? _) = true |- _ => apply Z.ltb_lt in H
  | H : (_ <? _) = false |- _ => apply Z.ltb_ge in H
  | H : (_ <=? _) = true |- _ => apply Z.leb_le in H
  | H : (_ <=? _) = false |- _ => apply Z.leb_gt in H
  | H : (_ >=? _) = _ |- _ => rewrite Z.geb_leb in H
  | H : (_ >? _) = _ |- _ => rewrite Z.gtb_ltb in H
  end.

(** Equations of the monad. *)
Create Rewrite HintDb cara_st.
Lemma st_bind_eq {S A B} (c : ST S A) (f : A -> ST S B) s :
  (c ≫= f) s = match c s with (Ok a, s') => f a s' | (Err e, s') => (Err e, s') end.
Proof. done. Qed.
Lemma st_bind_gets {S A B} (g : S -> A) (f : A -> ST S B) s : (st_gets g ≫= f) s = f (g s) s.
Proof. done. Qed.
Lemma st_bind_get {S B} (f : S -> ST S B) s : (st_get ≫= f) s = f s s.
Proof. done. Qed.
Lemma st_bind_mod {S B} (g : S -> S) (f : unit -> ST S B) s : (st_mod g ≫= f) s = f tt (g s).
Proof. done. Qed.
Lemma st_bind_ret {S A B} (a : A) (f : A -> ST S B) s : ((mret a : ST S A) ≫= f) s = f a s.
Proof. done. Qed.
Lemma st_bind_err {S A B} e (f : A -> ST S B) s : ((st_err e : ST S A) ≫= f) s = (Err e, s).
Proof. done. Qed.
Lemma st_bind_try {S A B} (c : ST S A) (f : result A -> ST S B) s :
  (st_try c ≫= f) s = let '(r, s') := c s in f r s'.
Proof. unfold st_try. rewrite st_bind_eq. by destruct (c s). Qed.
Lemma st_bind_assoc {S A B C} (c : ST S A) (f : A -> ST S B) (g : B -> ST S C) s :
  ((c ≫= f) ≫= g) s = (c ≫= fun a => f a ≫= g) s.
Proof. rewrite !st_bind_eq. by destruct (c s) as [[a|e] s']. Qed.
Lemma st_ret_eq {S A} (a : A) (s : S) : (mret a : ST S A) s = (Ok a, s).
Proof. done. Qed.
#[export] Hint Rewrite @st_bind_gets @st_bind_get @st_bind_mod @st_bind_ret @st_bind_err @st_bind_try
  @st_bind_assoc @st_ret_eq : cara_st.
(** Run the administrative steps of a monadic program. *)
Ltac st_simp := autorewrite with cara_st; cbn beta iota.
Ltac st_simp_in E := autorewrite with cara_st in E; cbn beta iota in E.

(** * Integer lemmas *)

Lemma u8_small x : in_u8 x -> u8 x = x.
Proof. apply Z.mod_small. Qed.
Lemma u16_small x : in_u16 x -> u16 x = x.
Proof. apply Z.mod_small. Qed.
Lemma u32_small x : in_u32 x -> u32 x = x.
Proof. apply Z.mod_small. Qed.
Lemma u64_small x : in_u64 x -> u64 x = x.
Proof. apply Z.mod_small. Qed.
Lemma u8_range x : in_u8 (u8 x).
Proof. apply Z.mod_pos_bound. lia. Qed.
Lemma u16_range x : in_u16 (u16 x).
Proof. apply Z.mod_pos_bound. lia. Qed.
Lemma u32_range x : in_u32 (u32 x).
Proof. apply Z.mod_pos_bound. lia. Qed.
Lemma u64_range x : in_u64 (u64 x).
Proof. apply Z.mod_pos_bound. lia. Qed.
#[export] Hint Resolve u8_range u16_range u32_range u64_range : cara.
#[export] Hint Rewrite u8_small u16_small u32_small u64_small
  using (unfold in_u8, in_u16, in_u32, in_u64 in *; lia) : cara_rw.

Lemma not32_eq x : in_u32 x -> not32 x = 2 ^ 32 - 1 - x.
Proof.
  unfold not32, u32, in_u32. intros H.
  replace (Z.lnot x) with (2 ^ 32 - 1 - x + (-1) * 2 ^ 32) by (pose proof (Z.add_lnot_diag x); lia).
  rewrite Z.mod_add by lia. apply Z.mod_small. lia.
Qed.
Lemma not32_spec x i : 0 <= i -> Z.testbit (not32 x) i = (i <? 32) && negb (Z.testbit x i).
Proof. intros Hi. unfold not32, u32. rewrite Z.testbit_mod_pow2 by lia. by rewrite Z.lnot_spec. Qed.
Lemma not32_range x : in_u32 (not32 x).
Proof. apply u32_range. Qed.
Lemma not32_not32 x : in_u32 x -> not32 (not32 x) = x.
Proof. intros H. rewrite (not32_eq x) by done. rewrite not32_eq; unfold in_u32 in *; lia. Qed.
Lemma not32_inj x y : in_u32 x -> in_u32 y -> not32 x = not32 y -> x = y.
Proof. intros Hx Hy E. rewrite <- (not32_not32 x), <- (not32_not32 y) by done. by rewrite E. Qed.

(** A value below [2^n] has no bit from [n] on, and conversely. *)
Lemma bits_above n x i : 0 <= n -> 0 <= x < 2 ^ n -> n <= i -> Z.testbit x i = false.
Proof.
  intros Hn Hx Hi. rewrite <- (Z.mod_small x (2 ^ n)) by done.
  by apply Z.mod_pow2_bits_high.
Qed.
Lemma bounded_of_bits n x :
  0 <= n -> 0 <= x -> (forall i, n <= i -> Z.testbit x i = false) -> x < 2 ^ n.
Proof.
  intros Hn Hx Hb. destruct (Z.lt_ge_cases x (2 ^ n)) as [|Hge]; [done|exfalso].
  assert (0 < 2 ^ n) by (apply Z.pow_pos_nonneg; lia).
  assert (n <= Z.log2 x) by (apply Z.log2_le_pow2; lia).
  specialize (Hb (Z.log2 x) H0). rewrite Z.bit_log2 in Hb; [done|lia].
Qed.
Lemma lxor_range n x y : 0 <= n -> 0 <= x < 2 ^ n -> 0 <= y < 2 ^ n -> 0 <= Z.lxor x y < 2 ^ n.
Proof.
  intros Hn Hx Hy. assert (0 <= Z.lxor x y) by (apply Z.lxor_nonneg; lia).
  split; [done|]. apply bounded_of_bits; [done|done|]. intros i Hi.
  rewrite Z.lxor_spec, !(bits_above n) by done. done.
Qed.
Lemma lor_range n x y : 0 <= n -> 0 <= x < 2 ^ n -> 0 <= y < 2 ^ n -> 0 <= Z.lor x y < 2 ^ n.
Proof.
  intros Hn Hx Hy. assert (0 <= Z.lor x y) by (apply Z.lor_nonneg; lia).
  split; [done|]. apply bounded_of_bits; [done|done|]. intros i Hi.
  rewrite Z.lor_spec, !(bits_above n) by done. done.
Qed.
Lemma land_range n x y : 0 <= n -> 0 <= x < 2 ^ n -> 0 <= Z.land x y < 2 ^ n.
Proof.
  intros Hn Hx. assert (0 <= Z.land x y) by (apply Z.land_nonneg; lia).
  split; [done|]. apply bounded_of_bits; [done|done|]. intros i Hi.
  rewrite Z.land_spec, (bits_above n x) by done. done.
Qed.

(** * Byte buffers *)

(** [a[i]] with a machine index: the recursion is on the array, so that an index out of
    range (a [NONE] marker, say) costs nothing to evaluate. *)
Fixpoint nth_z {A} (l : list A) (i : Z) (d : A) : A :=
  match l with [] => d | x :: l => if i <=? 0 then x else nth_z l (i - 1) d end.
Lemma nth_z_nth {A} (l : list A) i d : nth_z l i d = nth (Z.to_nat i) l d.
Proof.
  revert i. induction l as [|x l IH]; intros i; simpl; [by destruct (Z.to_nat i)|].
  destruct (Z.leb_spec i 0); [by replace (Z.to_nat i) with 0%nat by lia|].
  rewrite IH. by replace (Z.to_nat i) with (S (Z.to_nat (i - 1))) by lia.
Qed.

(** A C buffer is the list of its bytes. *)
Definition bytes_ok (l : list Z) : Prop := Forall in_u8 l.

(** [memcpy(dst + off, src, len src)] inside [dst]: the length of [dst] is kept. *)
Definition splice (dst : list Z) (off : nat) (src : list Z) : list Z :=
  take off dst ++ take (length dst - off) src ++ drop (off + length src) dst.

(** The [n] bytes of [l] from [off]. *)
Definition sub (off n : nat) (l : list Z) : list Z := take n (drop off l).

(** Little-endian integers. *)
Fixpoint le_put (n : nat) (v : Z) : list Z :=
  match n with
  | O => []
  | S n => u8 v :: le_put n (v / 2 ^ 8)
  end.
Fixpoint le_get (bs : list Z) : Z :=
  match bs with
  | [] => 0
  | b :: bs => b + 2 ^ 8 * le_get bs
  end.

(** A field of [n] bytes at byte offset [off] of a block, through a struct pointer. *)
Definition rd (n : nat) (blk : list Z) (off : nat) : Z := le_get (sub off n blk).
Definition wr (n : nat) (blk : list Z) (off : nat) (v : Z) : list Z := splice blk off (le_put n v).

Definition zeros (n : nat) : list Z := replicate n 0.

Lemma length_le_put n v : length (le_put n v) = n.
Proof. revert v. induction n as [|n IH]; intros v; simpl; [done|by rewrite IH]. Qed.

Lemma le_get_put n v : le_get (le_put n v) = v mod 2 ^ (8 * Z.of_nat n).
Proof.
  revert v. induction n as [|n IH]; intros v; cbn [le_put le_get].
  - by rewrite Z.mod_1_r.
  - rewrite IH. unfold u8.
    replace (8 * Z.of_nat (S n)) with (8 + 8 * Z.of_nat n) by lia.
    rewrite Z.pow_add_r, Z.rem_mul_r by (try apply Z.pow_nonzero; lia || apply Z.pow_pos_nonneg; lia).
    lia.
Qed.

Lemma le_get_range bs : bytes_ok bs -> 0 <= le_get bs < 2 ^ (8 * Z.of_nat (length bs)).
Proof.
  induction 1 as [|b bs Hb Hbs IH]; cbn [le_get length]; [lia|].
  unfold in_u8 in Hb. replace (8 * Z.of_nat (S (length bs))) with (8 + 8 * Z.of_nat (length bs)) by lia.
  rewrite Z.pow_add_r by lia. lia.
Qed.

Lemma le_put_get bs : bytes_ok bs -> le_put (length bs) (le_get bs) = bs.
Proof.
  induction 1 as [|b bs Hb Hbs IH]; cbn [le_get le_put length]; [done|].
  unfold in_u8, u8 in *. f_equal.
  - rewrite Z.mul_comm, Z.mod_add by lia. by apply Z.mod_small.
  - rewrite Z.mul_comm, Z.div_add, (Z.div_small b) by lia. done.
Qed.

Lemma le_put_ok n v : bytes_ok (le_put n v).
Proof. revert v. induction n; intros v; simpl; constructor; auto using u8_range. apply IHn. Qed.

Lemma length_splice dst off src : length (splice dst off src) = length dst.
Proof. unfold splice. rewrite !length_app, !length_take, length_drop. lia. Qed.

Lemma lookup_splice_in dst off src i :
  (off <= i < off + length src)%nat -> (i < length dst)%nat ->
  splice dst off src !! i = src !! (i - off)%nat.
Proof.
  intros Hi Hd. unfold splice.
  rewrite lookup_app_r by (rewrite length_take; lia). rewrite length_take.
  replace (i - off `min` length dst)%nat with (i - off)%nat by lia.
  rewrite lookup_app_l by (rewrite length_take; lia).
  rewrite lookup_take_lt by lia. done.
Qed.

Lemma lookup_splice_out dst off src i :
  ~ (off <= i < off + length src)%nat -> splice dst off src !! i = dst !! i.
Proof.
  intros Hi. destruct (decide (i < length dst)%nat) as [Hd|Hd].
  2:{ rewrite !lookup_ge_None_2; [done|lia|rewrite length_splice; lia]. }
  unfold splice. destruct (decide (i < off)%nat).
  - rewrite lookup_app_l by (rewrite length_take; lia). by rewrite lookup_take_lt by lia.
  - rewrite !lookup_app_r by (rewrite ?length_app, !length_take; lia).
    rewrite !length_take, lookup_drop. f_equal. lia.
Qed.

Lemma length_sub off n l : (off + n <= length l)%nat -> length (sub off n l) = n.
Proof. intros. unfold sub. rewrite length_take, length_drop. lia. Qed.

Lemma lookup_sub off n l i : (i < n)%nat -> sub off n l !! i = l !! (off + i)%nat.
Proof. intros. unfold sub. by rewrite lookup_take_lt, lookup_drop by lia. Qed.

Lemma sub_ext off n l l' :
  (forall i, (off <= i < off + n)%nat -> l !! i = l' !! i) -> sub off n l = sub off n l'.
Proof.
  intros H. apply list_eq. intros i. destruct (decide (i < n)%nat).
  - rewrite !lookup_sub by lia. apply H. lia.
  - unfold sub. rewrite !lookup_ge_None_2; [done| |]; rewrite length_take; lia.
Qed.

Lemma sub_splice_same dst off src n :
  n = length src -> (off + n <= length dst)%nat -> sub off n (splice dst off src) = src.
Proof.
  intros -> H. apply list_eq. intros i. destruct (decide (i < length src)%nat).
  - rewrite lookup_sub, lookup_splice_in by lia. f_equal. lia.
  - rewrite !lookup_ge_None_2; [done|lia|unfold sub; rewrite length_take; lia].
Qed.

Lemma sub_splice_other dst off src off' n :
  (off' + n <= off \/ off + length src <= off')%nat ->
  sub off' n (splice dst off src) = sub off' n dst.
Proof. intros H. apply sub_ext. intros i Hi. apply lookup_splice_out. lia. Qed.

Lemma length_wr n blk off v : length (wr n blk off v) = length blk.
Proof. apply length_splice. Qed.

Lemma rd_wr_same n blk off v :
  (off + n <= length blk)%nat -> 0 <= v < 2 ^ (8 * Z.of_nat n) -> rd n (wr n blk off v) off = v.
Proof.
  intros H Hv. unfold rd, wr. rewrite sub_splice_same by (rewrite ?length_le_put; done).
  rewrite le_get_put. by apply Z.mod_small.
Qed.

Lemma rd_wr_other n n' blk off off' v :
  (off' + n' <= off \/ off + n <= off')%nat -> rd n' (wr n blk off v) off' = rd n' blk off'.
Proof. intros H. unfold rd, wr. by rewrite sub_splice_other by (rewrite length_le_put; lia). Qed.

Lemma sub_bytes_ok off n l : bytes_ok l -> bytes_ok (sub off n l).
Proof. intros H. unfold sub. by apply Forall_take, Forall_drop. Qed.
Lemma splice_bytes_ok dst off src : bytes_ok dst -> bytes_ok src -> bytes_ok (splice dst off src).
Proof.
  intros Hd Hs. unfold splice. apply Forall_app; split; [by apply Forall_take|].
  apply Forall_app; split; [by apply Forall_take|by apply Forall_drop].
Qed.
Lemma wr_bytes_ok n blk off v : bytes_ok blk -> bytes_ok (wr n blk off v).
Proof. intros. apply splice_bytes_ok; auto using le_put_ok. Qed.
Lemma length_zeros n : length (zeros n) = n.
Proof. apply length_replicate. Qed.
Lemma zeros_bytes_ok n : bytes_ok (zeros n).
Proof. apply Forall_replicate. unfold in_u8. lia. Qed.
Lemma rd_range n blk off :
  bytes_ok blk -> (off + n <= length blk)%nat -> 0 <= rd n blk off < 2 ^ (8 * Z.of_nat n).
Proof.
  intros Hb Hl. unfold rd. pose proof (le_get_range (sub off n blk) (sub_bytes_ok _ _ _ Hb)) as H.
  by rewrite length_sub in H by lia.
Qed.
#[export] Hint Resolve le_put_ok sub_bytes_ok splice_bytes_ok wr_bytes_ok zeros_bytes_ok : cara.
#[export] Hint Rewrite length_zeros length_splice length_wr length_le_put @length_replicate @length_app
  @length_take @length_drop : cara_rw.

(** * Counting *)

Lemma filter_len_ext {A} (p q : A -> bool) l :
  (forall x, x ∈ l -> p x = q x) -> length (List.filter p l) = length (List.filter q l).
Proof.
  intros H. f_equal. apply List.filter_ext_in. intros x Hx. apply H. by apply list_elem_of_In.
Qed.
Lemma filter_len_all {A} (p : A -> bool) l b :
  (forall x, x ∈ l -> p x = b) -> length (List.filter p l) = if b then length l else 0%nat.
Proof.
  intros H. rewrite (filter_len_ext p (fun _ => b) l H). clear H.
  destruct b; induction l as [|x l IH]; simpl; auto.
Qed.

(** How many of [f 0], ..., [f (n - 1)] are false. *)
Definition clear_count (f : Z -> bool) (n : Z) : Z := Z.of_nat (length (List.filter (fun i => negb (f i)) (seqZ 0 n))).
(** A run of equal bits that is flipped moves the count by its length. *)
Lemma clear_count_run (f f' : Z -> bool) n rel k (b : bool) :
  0 <= rel -> 0 <= k -> rel + k <= n ->
  (forall j, rel <= j < rel + k -> f j = b /\ f' j = negb b) ->
  (forall j, 0 <= j < n -> ~ (rel <= j < rel + k) -> f' j = f j) ->
  clear_count f' n = if b then clear_count f n + k else clear_count f n - k.
Proof.
  intros Hr Hk Hn Hin Hout. unfold clear_count.
  replace n with (rel + (k + (n - rel - k))) by lia. rewrite !seqZ_app by lia. rewrite !List.filter_app, !length_app.
  rewrite Z.add_0_l.
  rewrite (filter_len_ext (fun i => negb (f' i)) (fun i => negb (f i)) (seqZ 0 rel)).
  2:{ intros x Hx%elem_of_seqZ. rewrite Hout by lia. done. }
  rewrite (filter_len_ext (fun i => negb (f' i)) (fun i => negb (f i)) (seqZ (rel + k) _)).
  2:{ intros x Hx%elem_of_seqZ. rewrite Hout by lia. done. }
  rewrite (filter_len_all (fun i => negb (f' i)) (seqZ rel k) b).
  2:{ intros x Hx%elem_of_seqZ. rewrite (proj2 (Hin x ltac:(lia))). by destruct b. }
  rewrite (filter_len_all (fun i => negb (f i)) (seqZ rel k) (negb b)).
  2:{ intros x Hx%elem_of_seqZ. by rewrite (proj1 (Hin x ltac:(lia))). }
  rewrite length_seqZ. destruct b; simpl; lia.
Qed.

Lemma clear_count_zero (f : Z -> bool) n : (forall j, 0 <= j < n -> f j = true) <-> clear_count f n = 0.
Proof.
  unfold clear_count. split.
  - intros H. rewrite (filter_len_all _ _ false); [done|]. intros x Hx%elem_of_seqZ. rewrite H by lia. done.
  - intros H j Hj. destruct (f j) eqn:E; [done|].
    assert (j ∈ List.filter (fun i => negb (f i)) (seqZ 0 n)) as Hin.
    { apply list_elem_of_In, List.filter_In. rewrite E. split; [|done]. apply list_elem_of_In, elem_of_seqZ. lia. }
    destruct (List.filter _ _); [by apply elem_of_nil in Hin|simpl in H; lia].
Qed.
Lemma clear_count_range (f : Z -> bool) n : 0 <= n -> 0 <= clear_count f n <= n.
Proof.
  intros Hn. unfold clear_count. pose proof (List.filter_length_le (fun i => negb (f i)) (seqZ 0 n)) as H.
  rewrite length_seqZ in H. lia.
Qed.
Lemma clear_count_ext (f f' : Z -> bool) n : (forall j, 0 <= j < n -> f' j = f j) -> clear_count f' n = clear_count f n.
Proof. intros H. unfold clear_count. f_equal. apply filter_len_ext. intros x Hx%elem_of_seqZ. by rewrite H by lia. Qed.
