(* ===== verification/Format.v ===== *)
(** CaraFS format helpers ([src/logaic/carafs/format.c], [internal.h]): CRC-32C,
    the checksum of a metadata block, and the name fold / hash / compare trio. *)

From S2P Require Import Prelude.

(** * CRC-32C *)

(** One shift of the reflected Castagnoli register. *)
Definition crc_step (c : Z) : Z :=
  if Z.land c 1 =? 0 then Z.shiftr c 1 else Z.lxor 0x82F63B78 (Z.shiftr c 1).

(** [crc_build_table]: entry [i] is [i] after eight shifts. *)
Definition crc_build_table : list Z := map (fun i => Nat.iter 8 crc_step i) (seqZ 0 256).

(** The static table after its lazy initialisation. *)
Definition crc_table : list Z := Eval vm_compute in crc_build_table.

Definition crc_byte (c b : Z) : Z :=
  Z.lxor (nth (Z.to_nat (Z.land (Z.lxor c b) 0xFF)) crc_table 0) (Z.shiftr c 8).

Definition Carafs_Crc32c (seed : Z) (data : list Z) : Z :=
  not32 (foldl crc_byte (not32 seed) data).

(** CRC over the block with four zero bytes in place of the crc field. *)
Definition Carafs_BlockCrc (block : list Z) (block_size crc_off : nat) : Z :=
  let c := Carafs_Crc32c 0 (take crc_off block) in
  let c := Carafs_Crc32c c [0; 0; 0; 0] in
  Carafs_Crc32c c (take (block_size - crc_off - 4) (drop (crc_off + 4) block)).

(** [carafs_put_crc]: recompute and store a metadata block's crc. *)
Definition carafs_put_crc (block : list Z) (bs crc_off : nat) : list Z :=
  wr 4 block crc_off (Carafs_BlockCrc block bs crc_off).

(** [block_crc_ok] of journal.c: the test every reader makes. *)
Definition block_crc_ok (blk : list Z) (bs crc_off : nat) : bool :=
  rd 4 blk crc_off =? Carafs_BlockCrc blk bs crc_off.

(** [Carafs_Align8]. *)
Definition Carafs_Align8 (n : Z) : Z := Z.land (u32 (n + 7)) (not32 7).

(** * Names *)

Definition Carafs_FoldByte (c : Z) : Z :=
  if (0x41 <=? c) && (c <=? 0x5A) then u8 (c + (0x61 - 0x41)) else c.

Definition Carafs_NameHash (name : list Z) : Z :=
  foldl (fun h b => u64 (Z.lxor h (Carafs_FoldByte b) * 1099511628211)) 14695981039346656037 name.

Fixpoint name_eq_loop (a b : list Z) : bool :=
  match a, b with
  | x :: a, y :: b =>
      if negb (Carafs_FoldByte x =? Carafs_FoldByte y) then false else name_eq_loop a b
  | _, _ => true
  end.
Definition Carafs_NameEq (a b : list Z) : bool :=
  if negb (length a =? length b)%nat then false else name_eq_loop a b.

Definition CARAFS_NAME_MAX : Z := 255.
Definition Carafs_NameValid (name : list Z) : bool :=
  let len := Z.of_nat (length name) in
  if (len <? 1) || (CARAFS_NAME_MAX <? len) then false
  else negb (existsb (fun c => (c =? 0x2F) || (c =? 0x3A) || (c =? 0)) name).

(** * The CRC as a shift register *)

(** Reference: feed each byte into the low bits of the register and shift eight times. *)
Definition crc_bitwise_byte (c b : Z) : Z := Nat.iter 8 crc_step (Z.lxor c b).
Definition crc_bitwise (seed : Z) (data : list Z) : Z :=
  not32 (foldl crc_bitwise_byte (not32 seed) data).

Lemma crc_table_eq : crc_table = crc_build_table.
Proof. vm_compute. reflexivity. Qed.

Lemma crc_table_nth i : 0 <= i < 256 -> nth (Z.to_nat i) crc_table 0 = Nat.iter 8 crc_step i.
Proof.
  intros Hi. rewrite crc_table_eq. unfold crc_build_table.
  rewrite nth_lookup. change (map (fun i => Nat.iter 8 crc_step i) (seqZ 0 256))
    with ((fun i => Nat.iter 8 crc_step i) <$> seqZ 0 256).
  rewrite list_lookup_fmap, lookup_seqZ_lt, Z2Nat.id by lia. done.
Qed.

Lemma crc_step_alt c :
  crc_step c = Z.lxor (Z.shiftr c 1) (if Z.testbit c 0 then 0x82F63B78 else 0).
Proof.
  unfold crc_step. replace (Z.land c 1) with (Z.b2z (Z.testbit c 0)).
  - destruct (Z.testbit c 0); simpl (Z.b2z _ =? 0); cbn iota.
    + apply Z.lxor_comm.
    + by rewrite Z.lxor_0_r.
  - rewrite Z.bit0_mod. symmetry. apply (Z.land_ones c 1). lia.
Qed.

Lemma crc_step_lxor a b : crc_step (Z.lxor a b) = Z.lxor (crc_step a) (crc_step b).
Proof.
  rewrite !crc_step_alt, Z.shiftr_lxor, Z.lxor_spec.
  apply Z.bits_inj'. intros i Hi.
  rewrite !Z.lxor_spec.
  destruct (Z.testbit a 0), (Z.testbit b 0); simpl xorb; rewrite ?Z.bits_0;
    destruct (Z.testbit (Z.shiftr a 1) i), (Z.testbit (Z.shiftr b 1) i),
      (Z.testbit 0x82F63B78 i); reflexivity.
Qed.

Lemma crc_steps_lxor n a b :
  Nat.iter n crc_step (Z.lxor a b) = Z.lxor (Nat.iter n crc_step a) (Nat.iter n crc_step b).
Proof. induction n as [|n IH]; [done|]. by rewrite !Nat.iter_succ, IH, crc_step_lxor. Qed.

Lemma crc_step_range c : in_u32 c -> in_u32 (crc_step c).
Proof.
  unfold in_u32. intros Hc. rewrite crc_step_alt. apply lxor_range; [lia| |].
  - rewrite Z.shiftr_div_pow2 by lia. dmlia.
  - destruct (Z.testbit c 0); lia.
Qed.

Lemma crc_steps_range n c : in_u32 c -> in_u32 (Nat.iter n crc_step c).
Proof. intros Hc. induction n as [|n IH]; [done|]. rewrite Nat.iter_succ. by apply crc_step_range. Qed.

(** Eight shifts of a multiple of 256 only move it down. *)
Lemma crc_step_double x : crc_step (2 * x) = x.
Proof.
  rewrite crc_step_alt, Z.testbit_even_0, Z.lxor_0_r, Z.shiftr_div_pow2 by lia.
  rewrite Z.mul_comm. by apply Z.div_mul.
Qed.
Lemma crc_steps_shift n x : Nat.iter n crc_step (2 ^ Z.of_nat n * x) = x.
Proof.
  revert x. induction n as [|n IH]; intros x; [cbn; lia|].
  rewrite Nat2Z.inj_succ, Z.pow_succ_r by lia.
  rewrite <- Z.mul_assoc, Nat.iter_succ_r, crc_step_double. apply IH.
Qed.

(** The register after [data] is the register xored with the little-endian value of
    [data], shifted once per message bit. *)
Lemma crc_bitwise_word data c :
  bytes_ok data ->
  foldl crc_bitwise_byte c data = Nat.iter (8 * length data) crc_step (Z.lxor c (le_get data)).
Proof.
  intros Hd. revert c. induction Hd as [|b data Hb Hd IH]; intros c.
  { cbn. by rewrite Z.lxor_0_r. }
  cbn [foldl length le_get]. rewrite IH.
  replace (8 * S (length data))%nat with (8 * length data + 8)%nat by lia.
  rewrite Nat.iter_add. f_equal. unfold crc_bitwise_byte.
  assert (b + 2 ^ 8 * le_get data = Z.lxor b (2 ^ 8 * le_get data)) as ->.
  { rewrite Z.mul_comm, <- Z.shiftl_mul_pow2 by lia. rewrite Z.add_nocarry_lxor; [done|].
    apply Z.bits_inj'. intros i Hi. rewrite Z.land_spec, Z.bits_0.
    destruct (Z.lt_ge_cases i 8).
    - by rewrite Z.shiftl_spec_low, andb_false_r by lia.
    - rewrite (bits_above 8 b) by (unfold in_u8 in Hb; lia). done. }
  rewrite <- Z.lxor_assoc, (crc_steps_lxor 8 (Z.lxor c b)).
  change (2 ^ 8 * le_get data) with (2 ^ Z.of_nat 8 * le_get data).
  by rewrite (crc_steps_shift 8).
Qed.

(** One table look-up is eight shifts of the register. *)
Lemma crc_byte_bitwise c b : 0 <= c -> in_u8 b -> crc_byte c b = crc_bitwise_byte c b.
Proof.
  intros Hc Hb. unfold crc_byte, crc_bitwise_byte. set (x := Z.lxor c b).
  assert (0 <= x) by (apply Z.lxor_nonneg; unfold in_u8 in Hb; lia).
  change 0xFF with (Z.ones 8). rewrite Z.land_ones by lia.
  rewrite crc_table_nth by (apply Z.mod_pos_bound; lia).
  assert (x = Z.lxor (x mod 2 ^ 8) (2 ^ Z.of_nat 8 * Z.shiftr c 8)) as Ex.
  { change (2 ^ Z.of_nat 8) with (2 ^ 8). rewrite Z.mul_comm, <- Z.shiftl_mul_pow2 by lia.
    apply Z.bits_inj'. intros i Hi. rewrite Z.lxor_spec. destruct (Z.lt_ge_cases i 8).
    - rewrite Z.mod_pow2_bits_low, Z.shiftl_spec_low, xorb_false_r by lia. done.
    - rewrite Z.mod_pow2_bits_high, Z.shiftl_spec, Z.shiftr_spec, xorb_false_l by lia.
      subst x. rewrite Z.lxor_spec, (bits_above 8 b), xorb_false_r by (unfold in_u8 in Hb; lia).
      f_equal. lia. }
  rewrite Ex at 2. by rewrite crc_steps_lxor, (crc_steps_shift 8).
Qed.

Lemma crc_bitwise_byte_range c b : in_u32 c -> in_u8 b -> in_u32 (crc_bitwise_byte c b).
Proof.
  intros Hc Hb. apply crc_steps_range. apply lxor_range; unfold in_u8, in_u32 in *; lia.
Qed.

Lemma foldl_crc_bitwise c data :
  in_u32 c -> bytes_ok data ->
  foldl crc_byte c data = foldl crc_bitwise_byte c data /\ in_u32 (foldl crc_byte c data).
Proof.
  intros Hc Hd. revert c Hc. induction Hd as [|b data Hb Hd IH]; intros c Hc; [done|].
  cbn [foldl]. rewrite crc_byte_bitwise by (unfold in_u32 in Hc; lia || done).
  by apply IH, crc_bitwise_byte_range.
Qed.

Lemma crc32c_range seed data : in_u32 (Carafs_Crc32c seed data).
Proof. apply not32_range. Qed.

(** Staged calls compose: the seed of a stage is the result of the previous one. *)
Lemma crc32c_app seed a b :
  bytes_ok a -> Carafs_Crc32c (Carafs_Crc32c seed a) b = Carafs_Crc32c seed (a ++ b).
Proof.
  intros Ha. unfold Carafs_Crc32c. rewrite foldl_app, not32_not32; [done|].
  by apply foldl_crc_bitwise; [apply not32_range|].
Qed.

(** * Detection *)

Lemma crc_step_inj a b : in_u32 a -> in_u32 b -> crc_step a = crc_step b -> a = b.
Proof.
  intros Ha Hb E. assert (Z.testbit a 0 = Z.testbit b 0) as E0.
  { apply (f_equal (fun x => Z.testbit x 31)) in E. rewrite !crc_step_alt, !Z.lxor_spec in E.
    rewrite !Z.shiftr_spec, (bits_above 32 a), (bits_above 32 b) in E by (unfold in_u32 in *; lia).
    by destruct (Z.testbit a 0), (Z.testbit b 0). }
  rewrite !crc_step_alt, E0 in E. apply Z.bits_inj'. intros i Hi.
  destruct (Z.eq_dec i 0) as [->|]; [done|].
  apply (f_equal (fun x => Z.testbit x (i - 1))) in E. rewrite !Z.lxor_spec, !Z.shiftr_spec in E by lia.
  replace (i - 1 + 1) with i in E by lia.
  destruct (Z.testbit a i), (Z.testbit b i), (Z.testbit (if Z.testbit b 0 then _ else _) (i - 1)); done.
Qed.

Lemma crc_steps_inj n a b :
  in_u32 a -> in_u32 b -> Nat.iter n crc_step a = Nat.iter n crc_step b -> a = b.
Proof.
  intros Ha Hb. induction n as [|n IH]; [done|]. rewrite !Nat.iter_succ. intros E.
  apply IH, crc_step_inj; auto using crc_steps_range.
Qed.

Lemma lxor_cancel_l a b c : Z.lxor a b = Z.lxor a c -> b = c.
Proof.
  intros E. apply (f_equal (Z.lxor a)) in E.
  by rewrite <- !Z.lxor_assoc, Z.lxor_nilpotent, !Z.lxor_0_l in E.
Qed.
Lemma lxor_cancel_r a b c : Z.lxor b a = Z.lxor c a -> b = c.
Proof. rewrite !(Z.lxor_comm _ a). apply lxor_cancel_l. Qed.

Lemma crc_fold_inj_state data c c' :
  bytes_ok data -> in_u32 c -> in_u32 c' ->
  foldl crc_byte c data = foldl crc_byte c' data -> c = c'.
Proof.
  intros Hd. revert c c'. induction Hd as [|b data Hb Hd IH]; intros c c' Hc Hc' E; [done|].
  cbn [foldl] in E. rewrite !crc_byte_bitwise in E by (unfold in_u32 in *; lia || done).
  apply IH in E; [|by apply crc_bitwise_byte_range..].
  apply crc_steps_inj in E; [by apply lxor_cancel_r in E|..];
    apply lxor_range; unfold in_u8, in_u32 in *; lia.
Qed.

Lemma crc_fold_inj_word d d' c :
  bytes_ok d -> bytes_ok d' -> length d = length d' -> (length d <= 4)%nat -> in_u32 c ->
  foldl crc_byte c d = foldl crc_byte c d' -> d = d'.
Proof.
  intros Hd Hd' El Hl Hc E.
  rewrite (proj1 (foldl_crc_bitwise _ _ Hc Hd)), (proj1 (foldl_crc_bitwise _ _ Hc Hd')) in E.
  rewrite !crc_bitwise_word, El in E by done.
  assert (forall x, bytes_ok x -> (length x <= 4)%nat -> 0 <= le_get x < 2 ^ 32) as Hw.
  { intros x Hx Hlx. pose proof (le_get_range x Hx).
    assert (2 ^ (8 * Z.of_nat (length x)) <= 2 ^ 32) by (apply Z.pow_le_mono_r; lia). lia. }
  apply crc_steps_inj in E; [|apply lxor_range; auto; try lia; apply Hw; auto; lia..].
  apply lxor_cancel_l in E. rewrite <- (le_put_get d), <- (le_put_get d') by done. by rewrite E, El.
Qed.

(** Two messages that differ only inside a window of at most four bytes have
    different checksums. *)
Lemma crc32c_burst seed pre d d' post :
  in_u32 seed -> bytes_ok pre -> bytes_ok d -> bytes_ok d' -> bytes_ok post ->
  length d = length d' -> (length d <= 4)%nat -> d <> d' ->
  Carafs_Crc32c seed (pre ++ d ++ post) <> Carafs_Crc32c seed (pre ++ d' ++ post).
Proof.
  intros Hs Hpre Hd Hd' Hpost El Hl Hne E. apply Hne.
  assert (forall x, bytes_ok x -> in_u32 (foldl crc_byte (not32 seed) x)) as Hr
    by (intros; apply foldl_crc_bitwise; auto using not32_range).
  unfold Carafs_Crc32c in E.
  apply not32_inj in E; [|apply Hr; by repeat (apply Forall_app; split)..].
  rewrite !foldl_app in E. apply crc_fold_inj_state in E; [|done|..].
  - apply crc_fold_inj_word in E; auto.
  - rewrite <- foldl_app. apply Hr. by apply Forall_app.
  - rewrite <- foldl_app. apply Hr. by apply Forall_app.
Qed.

(** * Sealed metadata blocks *)

Lemma splice_eq (blk src : list Z) off :
  (off + length src <= length blk)%nat ->
  splice blk off src = take off blk ++ src ++ drop (off + length src) blk.
Proof. intros H. unfold splice. rewrite (take_ge src) by lia. done. Qed.

(** The block checksum is the checksum of the block with its crc field zeroed. *)
Lemma block_crc_zeroed blk crc_off :
  bytes_ok blk -> (crc_off + 4 <= length blk)%nat ->
  Carafs_BlockCrc blk (length blk) crc_off = Carafs_Crc32c 0 (splice blk crc_off [0; 0; 0; 0]).
Proof.
  intros Hb Hl. unfold Carafs_BlockCrc.
  assert (bytes_ok [0; 0; 0; 0]) by (apply (zeros_bytes_ok 4)).
  rewrite splice_eq by (simpl; lia). rewrite (take_ge (drop _ _)) by (rewrite length_drop; lia).
  by rewrite !crc32c_app by (done || by apply Forall_take).
Qed.

Lemma splice_splice_same (blk a b : list Z) off :
  length a = length b -> splice (splice blk off a) off b = splice blk off b.
Proof.
  intros E. apply list_eq. intros i. destruct (decide (off <= i < off + length b)%nat).
  - destruct (decide (i < length blk)%nat).
    + rewrite !lookup_splice_in by (rewrite ?length_splice; lia). done.
    + rewrite !lookup_ge_None_2; [done| |]; rewrite ?length_splice; lia.
  - rewrite !lookup_splice_out by lia. done.
Qed.

(** Storing the checksum does not change it. *)
Lemma block_crc_put_crc blk crc_off :
  bytes_ok blk -> (crc_off + 4 <= length blk)%nat ->
  Carafs_BlockCrc (carafs_put_crc blk (length blk) crc_off) (length blk) crc_off
  = Carafs_BlockCrc blk (length blk) crc_off.
Proof.
  intros Hb Hl. set (blk' := carafs_put_crc _ _ _).
  assert (length blk' = length blk) as El by apply length_wr.
  rewrite <- El at 1. rewrite !block_crc_zeroed; unfold blk', carafs_put_crc;
    rewrite ?length_wr; auto with cara.
  unfold wr. by rewrite splice_splice_same by (rewrite length_le_put; done).
Qed.

Lemma block_crc_ok_put_crc blk bs crc_off :
  bytes_ok blk -> bs = length blk -> (crc_off + 4 <= bs)%nat ->
  block_crc_ok (carafs_put_crc blk bs crc_off) bs crc_off = true.
Proof.
  intros Hb -> Hl. unfold block_crc_ok. rewrite block_crc_put_crc by done.
  unfold carafs_put_crc. rewrite rd_wr_same; [apply Z.eqb_refl|done|].
  apply crc32c_range.
Qed.
#[export] Hint Resolve block_crc_ok_put_crc : cara.

(** [l] and [l'] agree outside the [n] bytes from [w]. *)
Definition differ_within (w n : nat) (l l' : list Z) : Prop :=
  forall i, ~ (w <= i < w + n)%nat -> l !! i = l' !! i.

Lemma sub_split w n (l : list Z) : l = take w l ++ sub w n l ++ drop (w + n) l.
Proof. unfold sub. rewrite <- drop_drop, take_drop. by rewrite take_drop. Qed.

Lemma take_ext w (l l' : list Z) : (forall i, (i < w)%nat -> l !! i = l' !! i) -> take w l = take w l'.
Proof. intros H. change (sub 0 w l = sub 0 w l'). apply sub_ext. intros i Hi. apply H. lia. Qed.
Lemma drop_ext w (l l' : list Z) : (forall i, (w <= i)%nat -> l !! i = l' !! i) -> drop w l = drop w l'.
Proof. intros H. apply list_eq. intros i. rewrite !lookup_drop. apply H. lia. Qed.

Lemma differ_within_eq w n l l' : differ_within w n l l' -> sub w n l = sub w n l' -> l = l'.
Proof.
  intros H E. rewrite (sub_split w n l), (sub_split w n l'), E. f_equal; [|f_equal].
  - apply take_ext. intros i Hi. apply H. lia.
  - apply drop_ext. intros i Hi. apply H. lia.
Qed.

Lemma sub_le_get_inj off n l l' :
  bytes_ok l -> bytes_ok l' -> (off + n <= length l)%nat -> length l' = length l ->
  rd n l off = rd n l' off -> sub off n l = sub off n l'.
Proof.
  intros Hl Hl' Hn El E. unfold rd in E.
  rewrite <- (le_put_get (sub off n l)), <- (le_put_get (sub off n l')) by auto with cara.
  rewrite E, !length_sub by lia. done.
Qed.

Lemma differ_within_crc32c seed w n l l' :
  in_u32 seed -> bytes_ok l -> bytes_ok l' -> length l = length l' -> (n <= 4)%nat ->
  differ_within w n l l' -> l <> l' -> Carafs_Crc32c seed l <> Carafs_Crc32c seed l'.
Proof.
  intros Hs Hl Hl' El Hn Hw Hne.
  rewrite (sub_split w n l), (sub_split w n l').
  rewrite (take_ext w l l'), (drop_ext (w + n) l l') by (intros; apply Hw; lia).
  apply crc32c_burst; auto with cara; [by apply Forall_take|by apply Forall_drop|..];
    unfold sub; rewrite ?length_take, ?length_drop; [lia..|].
  intros E. apply Hne. by apply (differ_within_eq w n).
Qed.

Lemma block_crc_ok_burst_outside blk blk' w crc_off :
  bytes_ok blk -> bytes_ok blk' -> length blk' = length blk -> (crc_off + 4 <= length blk)%nat ->
  (w + 4 <= crc_off \/ crc_off + 4 <= w)%nat -> differ_within w 4 blk blk' -> blk <> blk' ->
  block_crc_ok blk (length blk) crc_off = true -> block_crc_ok blk' (length blk) crc_off = false.
Proof.
  intros Hb Hb' El Hl Hw Hd Hne Hok. unfold block_crc_ok in *. zbool. apply Z.eqb_neq.
  assert (rd 4 blk' crc_off = rd 4 blk crc_off) as ->.
  { unfold rd. f_equal. apply sub_ext. intros i Hi. symmetry. apply Hd. lia. }
  rewrite Hok. rewrite <- El at 2. rewrite !block_crc_zeroed by (auto; lia).
  assert (bytes_ok [0; 0; 0; 0]) by (apply (zeros_bytes_ok 4)).
  apply (differ_within_crc32c _ w 4); rewrite ?length_splice; auto with cara; try (unfold in_u32; lia).
  - intros i Hi. destruct (decide (crc_off <= i < crc_off + 4)%nat).
    + destruct (decide (i < length blk)%nat).
      * rewrite !lookup_splice_in by (simpl; lia). done.
      * rewrite !lookup_ge_None_2; [done| |]; rewrite length_splice; lia.
    + rewrite !lookup_splice_out by (simpl; lia). by apply Hd.
  - intros E. apply Hne. apply list_eq. intros i. destruct (decide (w <= i < w + 4)%nat); [|by apply Hd].
    apply (f_equal (fun l => l !! i)) in E. by rewrite !lookup_splice_out in E by (simpl; lia).
Qed.

Lemma block_crc_ok_burst_field blk blk' crc_off :
  bytes_ok blk -> bytes_ok blk' -> length blk' = length blk -> (crc_off + 4 <= length blk)%nat ->
  differ_within crc_off 4 blk blk' -> blk <> blk' ->
  block_crc_ok blk (length blk) crc_off = true -> block_crc_ok blk' (length blk) crc_off = false.
Proof.
  intros Hb Hb' El Hl Hd Hne Hok. unfold block_crc_ok in *. zbool. apply Z.eqb_neq. intros E.
  apply Hne. apply (differ_within_eq crc_off 4); [done|].
  apply sub_le_get_inj; try done. rewrite E, Hok. rewrite <- El at 2.
  rewrite !block_crc_zeroed by (auto; lia). f_equal.
  apply list_eq. intros i. destruct (decide (crc_off <= i < crc_off + 4)%nat).
  - destruct (decide (i < length blk)%nat).
    + rewrite !lookup_splice_in by (simpl; lia). done.
    + rewrite !lookup_ge_None_2; [done| |]; rewrite length_splice; lia.
  - rewrite !lookup_splice_out by (simpl; lia). by apply Hd.
Qed.

(** * Properties *)

(** C9: the table-driven CRC-32C computes the bit-serial CRC-32C of the Castagnoli
    polynomial, for every seed and every message. *)
Theorem crc32c_is_shift_register seed data :
  bytes_ok data -> Carafs_Crc32c seed data = crc_bitwise seed data.
Proof.
  intros Hd. unfold Carafs_Crc32c, crc_bitwise. f_equal.
  by apply foldl_crc_bitwise; [apply not32_range|].
Qed.

(** The reference check vector: CRC-32C("123456789") = 0xE3069283. *)
Lemma crc32c_is_shift_register_witness :
  Carafs_Crc32c 0 [0x31; 0x32; 0x33; 0x34; 0x35; 0x36; 0x37; 0x38; 0x39] = 0xE3069283
  /\ crc_bitwise 0 [0x31; 0x32; 0x33; 0x34; 0x35; 0x36; 0x37; 0x38; 0x39] = 0xE3069283.
Proof.
  split; [reflexivity|]. rewrite <- crc32c_is_shift_register; [reflexivity|].
  repeat constructor; discriminate.
Defined.



Lemma name_eq_loop_spec a b :
  length a = length b -> name_eq_loop a b = true <-> Carafs_FoldByte <$> a = Carafs_FoldByte <$> b.
Proof.
  revert b. induction a as [|x a IH]; intros [|y b] El; simplify_eq/=; [done|].
  destruct (Z.eqb_spec (Carafs_FoldByte x) (Carafs_FoldByte y)) as [->|Hne]; simpl.
  - rewrite IH by done. split; congruence.
  - split; [done|congruence].
Qed.

Lemma name_eq_fold a b :
  Carafs_NameEq a b = true <-> Carafs_FoldByte <$> a = Carafs_FoldByte <$> b.
Proof.
  unfold Carafs_NameEq. destruct (Nat.eqb_spec (length a) (length b)); simpl.
  - by apply name_eq_loop_spec.
  - split; [done|]. intros E%(f_equal length). by rewrite !length_fmap in E.
Qed.

Lemma name_hash_fold a : Carafs_NameHash a =
  foldl (fun h b => u64 (Z.lxor h b * 1099511628211)) 14695981039346656037 (Carafs_FoldByte <$> a).
Proof.
  unfold Carafs_NameHash. generalize 14695981039346656037.
  induction a as [|x a IH]; intros h; [done|apply IH].
Qed.

Lemma fold_byte_special c :
  (Carafs_FoldByte c =? 0x2F) || (Carafs_FoldByte c =? 0x3A) || (Carafs_FoldByte c =? 0)
  = (c =? 0x2F) || (c =? 0x3A) || (c =? 0).
Proof.
  unfold Carafs_FoldByte. destruct ((0x41 <=? c) && (c <=? 0x5A)) eqn:E; [|done]. zbool.
  assert (u8 (c + (0x61 - 0x41)) = c + 0x20) as -> by (rewrite u8_small; unfold in_u8; lia).
  apply eq_true_iff_eq. rewrite !orb_true_iff, !Z.eqb_eq. lia.
Qed.

Lemma fold_byte_idem c : Carafs_FoldByte (Carafs_FoldByte c) = Carafs_FoldByte c.
Proof.
  unfold Carafs_FoldByte at 2 3. destruct ((0x41 <=? c) && (c <=? 0x5A)) eqn:E.
  - zbool. rewrite u8_small by (unfold in_u8; lia). unfold Carafs_FoldByte.
    replace (c + (0x61 - 0x41) <=? 0x5A) with false by lia. by rewrite andb_false_r.
  - unfold Carafs_FoldByte. by rewrite E.
Qed.

Lemma name_valid_fold a : Carafs_NameValid (Carafs_FoldByte <$> a) = Carafs_NameValid a.
Proof.
  unfold Carafs_NameValid. rewrite length_fmap. destruct (_ || _); [done|]. f_equal.
  induction a as [|x a IH]; [done|]. cbn. by rewrite fold_byte_special, IH.
Qed.

(** [Carafs_NameEq] is exactly equality of the folded names (so it is an equivalence),
    and names it identifies have the same directory hash and the same validity; the fold
    is idempotent, so a name and its folded form are one directory key. *)
Theorem name_eq_is_folded_equality a b :
  (Carafs_NameEq a b = true <-> Carafs_FoldByte <$> a = Carafs_FoldByte <$> b) /\
  (Carafs_NameEq a b = true ->
     Carafs_NameHash a = Carafs_NameHash b /\ Carafs_NameValid a = Carafs_NameValid b) /\
  Carafs_NameEq a (Carafs_FoldByte <$> a) = true.
Proof.
  split; [apply name_eq_fold|split].
  - intros E%name_eq_fold. split; [by rewrite !name_hash_fold, E|].
    by rewrite <- (name_valid_fold a), E, name_valid_fold.
  - apply name_eq_fold. rewrite <- list_fmap_compose. apply list_fmap_ext. intros i c _.
    symmetry. apply fold_byte_idem.
Qed.
