(* ===== verification/Volume.v ===== *)
(** CaraFS volume layout ([include/cara/carafs.h], [src/logaic/carafs/bdev.c]): the
    on-disk structures as bytes, the superblock codec, the block-device seam with the
    memory-backed device, and the geometry computation. *)

From S2P Require Import Prelude Format.

(** * Constants *)

Definition CARAFS_FORMAT_VERSION : Z := 1.
Definition CARAFS_MIN_BLOCK_LOG2 : Z := 9.
Definition CARAFS_MAX_BLOCK_LOG2 : Z := 16.
Definition CARAFS_DEF_BLOCK_LOG2 : Z := 12.
(** Object types. *)
Definition CARAFS_T_FILE : Z := 1.
Definition CARAFS_T_DIR : Z := 2.
Definition CARAFS_T_SYMLINK : Z := 3.
Definition CARAFS_MAGIC_CNODE : Z := 0x444F4E43.
Definition CARAFS_MAGIC_BITMAP : Z := 0x4D424143.
Definition CARAFS_MAGIC_BTREE : Z := 0x54424143.
Definition CARAFS_MAGIC_JSB : Z := 0x534A4143.
Definition CARAFS_MAGIC_JDESC : Z := 0x444A4143.
Definition CARAFS_MAGIC_JCOMMIT : Z := 0x434A4143.
Definition CARAFS_SB_MAGIC : list Z := [0x43; 0x61; 0x72; 0x61; 0x46; 0x53; 0x21; 0x0A].
Definition CARAFS_STATE_CLEAN : Z := 1.
Definition CARAFS_STATE_DIRTY : Z := 2.
Definition CARAFS_TXN_MAX_BLOCKS : Z := 60.
Definition CARAFS_AG_BITS_OFF : nat := 64.
Definition CARAFS_JDESC_TARGETS_OFF : nat := 24.

(** * The superblock *)

(** [struct CarafsSuperblock], in memory. *)
Record superblock := mkSb {
  sb_magic : list Z; sb_crc32c : Z; sb_version : Z; sb_compat : Z; sb_ro_compat : Z;
  sb_incompat : Z; sb_block_size_log2 : Z; sb_state : Z; sb_ag_size_blocks : Z;
  sb_total_blocks : Z; sb_journal_start : Z; sb_journal_blocks : Z; sb_ag_count : Z;
  sb_ag_first_block : Z; sb_root_cnode : Z; sb_free_blocks : Z; sb_backup_sb : Z;
  sb_uuid : list Z; sb_name_len : Z; sb_name : list Z; sb_created_ns : Z; sb_modified_ns : Z
}.

Definition sb_set_state (s : superblock) (st : Z) : superblock :=
  mkSb (sb_magic s) (sb_crc32c s) (sb_version s) (sb_compat s) (sb_ro_compat s) (sb_incompat s)
    (sb_block_size_log2 s) st (sb_ag_size_blocks s) (sb_total_blocks s) (sb_journal_start s)
    (sb_journal_blocks s) (sb_ag_count s) (sb_ag_first_block s) (sb_root_cnode s)
    (sb_free_blocks s) (sb_backup_sb s) (sb_uuid s) (sb_name_len s) (sb_name s)
    (sb_created_ns s) (sb_modified_ns s).
Definition sb_set_free_blocks (s : superblock) (n : Z) : superblock :=
  mkSb (sb_magic s) (sb_crc32c s) (sb_version s) (sb_compat s) (sb_ro_compat s) (sb_incompat s)
    (sb_block_size_log2 s) (sb_state s) (sb_ag_size_blocks s) (sb_total_blocks s)
    (sb_journal_start s) (sb_journal_blocks s) (sb_ag_count s) (sb_ag_first_block s)
    (sb_root_cnode s) n (sb_backup_sb s) (sb_uuid s) (sb_name_len s) (sb_name s)
    (sb_created_ns s) (sb_modified_ns s).
Definition sb_set_modified_ns (s : superblock) (t : Z) : superblock :=
  mkSb (sb_magic s) (sb_crc32c s) (sb_version s) (sb_compat s) (sb_ro_compat s) (sb_incompat s)
    (sb_block_size_log2 s) (sb_state s) (sb_ag_size_blocks s) (sb_total_blocks s)
    (sb_journal_start s) (sb_journal_blocks s) (sb_ag_count s) (sb_ag_first_block s)
    (sb_root_cnode s) (sb_free_blocks s) (sb_backup_sb s) (sb_uuid s) (sb_name_len s) (sb_name s)
    (sb_created_ns s) t.

(** The 192-byte disk image: each field at the offset the static_asserts pin. *)
Definition sb_to_bytes (s : superblock) : list Z :=
  sb_magic s ++ le_put 4 (sb_crc32c s) ++ le_put 4 (sb_version s) ++ le_put 4 (sb_compat s) ++
  le_put 4 (sb_ro_compat s) ++ le_put 4 (sb_incompat s) ++ le_put 4 (sb_block_size_log2 s) ++
  le_put 4 (sb_state s) ++ le_put 4 (sb_ag_size_blocks s) ++ le_put 8 (sb_total_blocks s) ++
  le_put 8 (sb_journal_start s) ++ le_put 4 (sb_journal_blocks s) ++ le_put 4 (sb_ag_count s) ++
  le_put 8 (sb_ag_first_block s) ++ le_put 8 (sb_root_cnode s) ++ le_put 8 (sb_free_blocks s) ++
  le_put 8 (sb_backup_sb s) ++ sb_uuid s ++ le_put 1 (sb_name_len s) ++ sb_name s ++
  le_put 8 (sb_created_ns s) ++ le_put 8 (sb_modified_ns s).

Definition sb_of_bytes (b : list Z) : superblock :=
  mkSb (sub 0 8 b) (rd 4 b 8) (rd 4 b 12) (rd 4 b 16) (rd 4 b 20) (rd 4 b 24) (rd 4 b 28)
    (rd 4 b 32) (rd 4 b 36) (rd 8 b 40) (rd 8 b 48) (rd 4 b 56) (rd 4 b 60) (rd 8 b 64)
    (rd 8 b 72) (rd 8 b 80) (rd 8 b 88) (sub 96 16 b) (rd 1 b 112) (sub 113 63 b)
    (rd 8 b 176) (rd 8 b 184).

(** * The block device seam *)

(** [struct CarafsBdev]: the callbacks the core does its I/O through, one block per call
    as every call site of the core makes them. [D] is the device state behind [ctx]. *)
Class BlockDev (D : Type) := {
  bdev_block_size : D -> nat;
  bdev_n_blocks : D -> Z;
  bdev_read : D -> Z -> result (list Z) * D;
  bdev_write : D -> Z -> list Z -> result unit * D;
  bdev_flush : D -> result unit * D;
  (** What a read of a block that succeeds returns. *)
  bdev_content : D -> Z -> list Z
}.

(** The device is as before: same contents, same size. *)
Record same_dev {D} `{BlockDev D} (wf : D -> Prop) (d d' : D) : Prop := {
  sd_wf : wf d';
  sd_content b : bdev_content d' b = bdev_content d b;
  sd_n : bdev_n_blocks d' = bdev_n_blocks d;
  sd_bs : bdev_block_size d' = bdev_block_size d
}.

(** Block [b] was the target of a write; no other block changed. *)
Record dev_written {D} `{BlockDev D} (wf : D -> Prop) (d : D) (b : Z) (d' : D) : Prop := {
  dw_wf : wf d';
  dw_content b' : b' <> b -> bdev_content d' b' = bdev_content d b';
  dw_n : bdev_n_blocks d' = bdev_n_blocks d;
  dw_bs : bdev_block_size d' = bdev_block_size d
}.

(** What the core may rely on for in-range calls. A failed write may leave anything in
    its own block. *)
Class BlockDevLaws (D : Type) `{BlockDev D} := {
  bdev_wf : D -> Prop;
  bdev_wf_content d b :
    bdev_wf d -> 0 <= b < bdev_n_blocks d ->
    length (bdev_content d b) = bdev_block_size d /\ bytes_ok (bdev_content d b);
  bdev_read_spec d b r d' :
    bdev_wf d -> 0 <= b < bdev_n_blocks d -> bdev_read d b = (r, d') ->
    same_dev bdev_wf d d' /\ (forall data, r = Ok data -> data = bdev_content d b);
  bdev_write_spec d b data r d' :
    bdev_wf d -> 0 <= b < bdev_n_blocks d -> length data = bdev_block_size d -> bytes_ok data ->
    bdev_write d b data = (r, d') ->
    dev_written bdev_wf d b d' /\ (r = Ok tt -> bdev_content d' b = data);
  bdev_flush_spec d r d' :
    bdev_wf d -> bdev_flush d = (r, d') -> same_dev bdev_wf d d'
}.

(** ** The memory-backed device *)

(** [struct CarafsMemBdev]: [mem] is the byte array. *)
Record CarafsMemBdev := { mb_mem : list Z; mb_block_size : nat; mb_n_blocks : Z }.

Definition mem_off (s : CarafsMemBdev) (block : Z) : nat := (Z.to_nat block * mb_block_size s)%nat.

Definition mem_read (s : CarafsMemBdev) (block : Z) : result (list Z) * CarafsMemBdev :=
  if mb_n_blocks s <? u64 (block + 1) then (Err CARA_ERANGE, s)
  else (Ok (sub (mem_off s block) (mb_block_size s) (mb_mem s)), s).

Definition mem_write (s : CarafsMemBdev) (block : Z) (buf : list Z) : result unit * CarafsMemBdev :=
  if mb_n_blocks s <? u64 (block + 1) then (Err CARA_ERANGE, s)
  else (Ok tt, {| mb_mem := splice (mb_mem s) (mem_off s block) buf;
                  mb_block_size := mb_block_size s; mb_n_blocks := mb_n_blocks s |}).

Definition mem_flush (s : CarafsMemBdev) : result unit * CarafsMemBdev := (Ok tt, s).

Definition mem_content (s : CarafsMemBdev) (block : Z) : list Z :=
  if block <? 0 then [] else sub (mem_off s block) (mb_block_size s) (mb_mem s).

(** The callbacks [Carafs_MemBdev_Init] installs. *)
#[export] Instance Carafs_MemBdev : BlockDev CarafsMemBdev := {
  bdev_block_size := mb_block_size;
  bdev_n_blocks := mb_n_blocks;
  bdev_read := mem_read;
  bdev_write := mem_write;
  bdev_flush := mem_flush;
  bdev_content := mem_content
}.

(** [mem] holds [n_blocks * block_size] bytes, an addressable size. *)
Record mem_wf (s : CarafsMemBdev) : Prop := {
  mw_len : length (mb_mem s) = (Z.to_nat (mb_n_blocks s) * mb_block_size s)%nat;
  mw_bytes : bytes_ok (mb_mem s);
  mw_n : 0 <= mb_n_blocks s < 2 ^ 63;
  mw_bs : (0 < mb_block_size s)%nat
}.

Lemma mem_in_range s b : mem_wf s -> 0 <= b < mb_n_blocks s ->
  (mb_n_blocks s <? u64 (b + 1)) = false /\ (mem_off s b + mb_block_size s <= length (mb_mem s))%nat.
Proof.
  intros [Hl _ Hn _] Hb. split.
  - apply Z.ltb_ge. rewrite u64_small by (unfold in_u64; lia). lia.
  - rewrite Hl. unfold mem_off. nia.
Qed.

Lemma mem_content_frame s b b' buf :
  length buf = mb_block_size s -> 0 <= b -> b' <> b ->
  mem_content {| mb_mem := splice (mb_mem s) (mem_off s b) buf;
                 mb_block_size := mb_block_size s; mb_n_blocks := mb_n_blocks s |} b'
  = mem_content s b'.
Proof.
  intros Hl Hb Hne. unfold mem_content. simpl. destruct (b' <? 0) eqn:E; [done|]. zbool.
  apply sub_splice_other. rewrite Hl. unfold mem_off. simpl.
  destruct (Z.lt_trichotomy b b') as [|[|]]; [right|done|left]; nia.
Qed.

#[export] Instance Carafs_MemBdev_laws : BlockDevLaws CarafsMemBdev.
Proof.
  refine {| bdev_wf := mem_wf |}; simpl.
  - intros d b Hw Hb. destruct (mem_in_range d b Hw Hb) as [_ Hl]. unfold mem_content.
    destruct (b <? 0) eqn:E; [zbool; lia|].
    split; [by apply length_sub|apply sub_bytes_ok, Hw].
  - intros d b r d' Hw Hb E. unfold mem_read in E. rewrite (proj1 (mem_in_range d b Hw Hb)) in E.
    simplify_eq. split; [by constructor|]. intros data [= <-]. unfold mem_content.
    by destruct (b <? 0) eqn:E; [zbool; lia|].
  - intros d b data r d' Hw Hb Hl Hok E. destruct (mem_in_range d b Hw Hb) as [Hr Hl'].
    unfold mem_write in E. rewrite Hr in E. simplify_eq. split; [constructor|]; simpl.
    + destruct Hw as [H1 H2 H3 H4]. constructor; simpl; rewrite ?length_splice; auto with cara.
    + intros b' Hne. by apply mem_content_frame; [|lia|].
    + done.
    + done.
    + intros _. unfold mem_content. simpl. destruct (b <? 0) eqn:E; [zbool; lia|].
      by apply sub_splice_same.
  - intros d r d' Hw E. unfold mem_flush in E. simplify_eq. by constructor.
Defined.

(** * Geometry *)

Record CarafsGeometry := mkGeom {
  g_block_size : Z; g_total_blocks : Z; g_journal_start : Z; g_journal_blocks : Z;
  g_ag_first : Z; g_ag_size : Z; g_ag_count : Z; g_backup_sb : Z; g_root_cnode : Z
}.

Definition carafs_ag_size (block_size : Z) : Z :=
  u32 (8 * u32 (block_size - Z.of_nat CARAFS_AG_BITS_OFF)).

Definition carafs_geometry (block_size total_blocks : Z) : result CarafsGeometry :=
  let jlog := total_blocks / 64 in
  let jmin := 2 ^ 20 / block_size in
  let jmin := if jmin <? CARAFS_TXN_MAX_BLOCKS + 4 then CARAFS_TXN_MAX_BLOCKS + 4 else jmin in
  let jmax := 64 * 2 ^ 20 / block_size in
  let jmax := if jmax <? jmin then jmin else jmax in
  let jlog := if jlog <? jmin then jmin else jlog in
  let jlog := if jmax <? jlog then jmax else jlog in
  let journal_blocks := u32 (jlog + 1) in
  let ag_first := u32 (1 + journal_blocks) in
  let ag_size := carafs_ag_size block_size in
  let backup_sb := u64 (total_blocks - 1) in
  if total_blocks <? u64 (ag_first + 8 + 1) then Err CARA_ERANGE
  else
    let data_blocks := u64 (backup_sb - ag_first) in
    let ag_count := u32 (u64 (u64 (data_blocks + ag_size) - 1) / ag_size) in
    Ok (mkGeom block_size total_blocks 1 journal_blocks ag_first ag_size ag_count backup_sb
          (u64 (ag_first + 1))).

(** * The superblock codec *)

(** Every field holds a value of its C type. *)
Record sb_wf (s : superblock) : Prop := {
  sw_magic : length (sb_magic s) = 8%nat; sw_uuid : length (sb_uuid s) = 16%nat;
  sw_name : length (sb_name s) = 63%nat; sw_name_len : in_u8 (sb_name_len s);
  sw_u32 : Forall in_u32 [sb_crc32c s; sb_version s; sb_compat s; sb_ro_compat s; sb_incompat s;
    sb_block_size_log2 s; sb_state s; sb_ag_size_blocks s; sb_journal_blocks s; sb_ag_count s];
  sw_u64 : Forall in_u64 [sb_total_blocks s; sb_journal_start s; sb_ag_first_block s; sb_root_cnode s;
    sb_free_blocks s; sb_backup_sb s; sb_created_ns s; sb_modified_ns s]
}.

Lemma sub_app_skip a b off n : (length a <= off)%nat -> sub off n (a ++ b) = sub (off - length a) n b.
Proof. intros H. unfold sub. by rewrite drop_app_ge. Qed.
Lemma sub_app_here (a b : list Z) n : n = length a -> sub 0 n (a ++ b) = a.
Proof. intros ->. unfold sub. rewrite drop_0. by apply take_app_length. Qed.
Lemma rd_app_skip a b off n : (length a <= off)%nat -> rd n (a ++ b) off = rd n b (off - length a).
Proof. intros H. unfold rd. by rewrite sub_app_skip. Qed.
Lemma rd_app_here n v b : 0 <= v < 2 ^ (8 * Z.of_nat n) -> rd n (le_put n v ++ b) 0 = v.
Proof.
  intros H. unfold rd. rewrite sub_app_here by (by rewrite length_le_put).
  rewrite le_get_put. by apply Z.mod_small.
Qed.
Lemma rd_here n v : 0 <= v < 2 ^ (8 * Z.of_nat n) -> rd n (le_put n v) 0 = v.
Proof. intros H. rewrite <- (app_nil_r (le_put n v)). by apply rd_app_here. Qed.

(** Walk to the field at the head of a concatenation. *)
Ltac field_walk :=
  repeat first [rewrite rd_app_skip by (rewrite ?length_le_put; lia)
               |rewrite sub_app_skip by (rewrite ?length_le_put; lia)];
  rewrite ?length_le_put.

Lemma sb_roundtrip s : sb_wf s ->
  sb_of_bytes (sb_to_bytes s) = s /\ length (sb_to_bytes s) = 192%nat.
Proof.
  intros [Hm Hu Hn Hl H32 H64]. rewrite !Forall_cons in H32. rewrite !Forall_cons in H64.
  unfold in_u8, in_u32, in_u64 in *. deex. split.
  - destruct s; simpl in *. unfold sb_of_bytes, sb_to_bytes.
    cbn [sb_magic sb_crc32c sb_version sb_compat sb_ro_compat sb_incompat sb_block_size_log2 sb_state
      sb_ag_size_blocks sb_total_blocks sb_journal_start sb_journal_blocks sb_ag_count
      sb_ag_first_block sb_root_cnode sb_free_blocks sb_backup_sb sb_uuid sb_name_len sb_name
      sb_created_ns sb_modified_ns].
    f_equal; field_walk; rewrite ?Hm, ?Hu, ?Hn; cbn [Nat.sub].
    all: first [apply rd_app_here; simpl; lia|apply rd_here; simpl; lia|by apply sub_app_here].
  - unfold sb_to_bytes. rewrite !length_app, !length_le_put. lia.
Qed.

(** the superblock survives its 192-byte disk image: reading the fields back at the
    offsets of [struct CarafsSuperblock] returns every field unchanged. *)
Theorem superblock_roundtrip s : sb_wf s ->
  sb_of_bytes (sb_to_bytes s) = s /\ length (sb_to_bytes s) = 192%nat.
Proof. apply sb_roundtrip. Qed.

(** [sb_serialize] of mount.c: the structure over the start of the block, then the checksum. *)
Definition SB_CRC : nat := 8.
Definition sb_serialize (bs : nat) (s : superblock) (blk : list Z) : list Z :=
  carafs_put_crc (splice blk 0 (sb_to_bytes s)) bs SB_CRC.
Definition sb_set_crc (s : superblock) (c : Z) : superblock :=
  mkSb (sb_magic s) c (sb_version s) (sb_compat s) (sb_ro_compat s) (sb_incompat s)
    (sb_block_size_log2 s) (sb_state s) (sb_ag_size_blocks s) (sb_total_blocks s) (sb_journal_start s)
    (sb_journal_blocks s) (sb_ag_count s) (sb_ag_first_block s) (sb_root_cnode s)
    (sb_free_blocks s) (sb_backup_sb s) (sb_uuid s) (sb_name_len s) (sb_name s)
    (sb_created_ns s) (sb_modified_ns s).

Lemma sub_splice_prefix (blk src : list Z) off n :
  (off + n <= length src)%nat -> (length src <= length blk)%nat -> sub off n (splice blk 0 src) = sub off n src.
Proof.
  intros H1 H2. apply sub_ext. intros i Hi. rewrite lookup_splice_in by lia. f_equal. lia.
Qed.

(** A serialised superblock reads back as itself, with its checksum filled in. *)
Lemma sb_serialize_spec bs s blk :
  sb_wf s -> bytes_ok (sb_to_bytes s) -> length blk = bs -> (192 <= bs)%nat -> bytes_ok blk ->
  let img := sb_serialize bs s blk in
  length img = bs /\ bytes_ok img /\ block_crc_ok img bs SB_CRC = true /\
  exists c, in_u32 c /\ sb_of_bytes img = sb_set_crc s c.
Proof.
  intros Hs Hsb Hl Hbs Hb img. destruct (sb_roundtrip s Hs) as [E Hl2].
  assert (length (splice blk 0 (sb_to_bytes s)) = bs) as Hl3 by (by rewrite length_splice).
  split_and!.
  - unfold img, sb_serialize, carafs_put_crc. by rewrite length_wr.
  - apply wr_bytes_ok. auto with cara.
  - apply block_crc_ok_put_crc; [auto with cara|done|unfold SB_CRC; lia].
  - exists (Carafs_BlockCrc (splice blk 0 (sb_to_bytes s)) bs SB_CRC). split; [apply crc32c_range|].
    unfold img, sb_serialize, carafs_put_crc, sb_of_bytes, SB_CRC.
    rewrite rd_wr_same by (first [lia|apply crc32c_range]).
    rewrite !rd_wr_other by lia. unfold rd, wr. 
    rewrite (sub_splice_other _ 8 _ 0), (sub_splice_other _ 8 _ 96), (sub_splice_other _ 8 _ 113)
      by (rewrite length_le_put; lia).
    repeat rewrite sub_splice_prefix by lia.
    transitivity (sb_set_crc (sb_of_bytes (sb_to_bytes s)) (Carafs_BlockCrc (splice blk 0 (sb_to_bytes s)) bs 8)); [done|].
    by rewrite E.
Qed.

Definition sb_example : superblock :=
  mkSb CARAFS_SB_MAGIC 0xDEADBEEF 1 0 0 0 12 1 32256 100000 1 1563 4 1564 1565 98430 99999
    (zeros 16) 4 (zeros 63) 77 (2 ^ 64 - 1).

Lemma superblock_roundtrip_witness : sb_of_bytes (sb_to_bytes sb_example) = sb_example.
Proof.
  apply superblock_roundtrip. constructor; try reflexivity; [split; reflexivity || discriminate|..].
  all: repeat apply Forall_cons_2; try apply Forall_nil_2; split; reflexivity || discriminate.
Defined.

(** * The layout the geometry computes *)

Lemma pow2_block_size k : CARAFS_MIN_BLOCK_LOG2 <= k <= CARAFS_MAX_BLOCK_LOG2 ->
  In (2 ^ k) [512; 1024; 2048; 4096; 8192; 16384; 32768; 65536].
Proof.
  unfold CARAFS_MIN_BLOCK_LOG2, CARAFS_MAX_BLOCK_LOG2. intros H.
  assert (k = 9 \/ k = 10 \/ k = 11 \/ k = 12 \/ k = 13 \/ k = 14 \/ k = 15 \/ k = 16) as Hk by lia.
  repeat destruct Hk as [-> | Hk]; subst; simpl; tauto.
Qed.

Lemma geometry_facts k total g :
  CARAFS_MIN_BLOCK_LOG2 <= k <= CARAFS_MAX_BLOCK_LOG2 -> 0 <= total <= 2 ^ 40 ->
  carafs_geometry (2 ^ k) total = Ok g ->
  g_journal_start g = 1 /\
  g_ag_first g = g_journal_start g + g_journal_blocks g /\
  CARAFS_TXN_MAX_BLOCKS + 2 <= g_journal_blocks g - 1 < 2 ^ 20 /\
  g_ag_size g = 8 * (2 ^ k - 64) /\ 0 < g_ag_count g < 2 ^ 32 /\
  g_ag_first g + (g_ag_count g - 1) * g_ag_size g < g_backup_sb g
    <= g_ag_first g + g_ag_count g * g_ag_size g /\
  g_root_cnode g = g_ag_first g + 1 /\ g_root_cnode g < g_backup_sb g /\
  g_backup_sb g = total - 1.
Proof.
  intros Hk Ht. apply pow2_block_size in Hk. revert Hk. generalize (2 ^ k). intros bs Hbs.
  unfold carafs_geometry, CARAFS_TXN_MAX_BLOCKS.
  set (jmin := if 2 ^ 20 / bs <? 60 + 4 then 60 + 4 else 2 ^ 20 / bs).
  set (jmax := if 64 * 2 ^ 20 / bs <? jmin then jmin else 64 * 2 ^ 20 / bs).
  assert ((64 <= jmin <= jmax /\ jmax < 2 ^ 20 - 1) /\
      carafs_ag_size bs = 8 * (bs - 64) /\ 3584 <= 8 * (bs - 64) < 2 ^ 20) as (Hj & Ha & Hr).
  { subst jmin jmax. repeat destruct Hbs as [<- | Hbs]; try done; vm_compute; repeat split; discriminate. }
  clearbody jmin jmax.
  set (jlog := if jmax <? _ then _ else _).
  assert (64 <= jlog < 2 ^ 20 - 1) as Hjl
    by (unfold jlog; destruct (total / 64 <? jmin) eqn:?; case_match; zbool; lia).
  rewrite Ha. rewrite (u32_small (jlog + 1)), (u32_small (1 + _)), (u64_small (_ + 8 + 1))
    by (unfold in_u32, in_u64; lia).
  destruct (total <? _) eqn:E; [done|]. zbool. intros [= <-]. simpl.
  set (sz := 8 * (bs - 64)) in *.
  rewrite (u64_small (total - 1)), (u64_small (1 + (jlog + 1) + 1)) by (unfold in_u64; lia).
  rewrite (u64_small (total - 1 - _)) by (unfold in_u64; lia).
  rewrite (u64_small (_ + sz)), (u64_small (_ + sz - 1)) by (unfold in_u64; lia).
  set (db := total - 1 - (1 + (jlog + 1))) in *.
  assert (8 <= db) by lia.
  assert (0 < (db + sz - 1) / sz < 2 ^ 32) as Hc.
  { split; [apply Z.div_str_pos; lia|]. apply Z.div_lt_upper_bound; lia. }
  rewrite (u32_small ((db + sz - 1) / sz)) by (unfold in_u32; lia).
  pose proof (Z.div_mod (db + sz - 1) sz ltac:(lia)).
  pose proof (Z.mod_pos_bound (db + sz - 1) sz ltac:(lia)).
  repeat split; try lia; nia.
Qed.

(** for every supported block size and every device of at most 2^40 blocks, the geometry
    either rejects the device or lays out superblock, journal, allocation groups and backup
    superblock disjointly and in order; the groups tile the data region exactly, the root
    cnode lies in the first group behind its bitmap block, and the log is long enough for a
    maximal transaction (60 images, DESC and COMMIT) after a checkpoint. *)
Theorem geometry_layout k total g :
  CARAFS_MIN_BLOCK_LOG2 <= k <= CARAFS_MAX_BLOCK_LOG2 -> 0 <= total <= 2 ^ 40 ->
  carafs_geometry (2 ^ k) total = Ok g ->
  g_journal_start g = 1 /\
  g_ag_first g = g_journal_start g + g_journal_blocks g /\
  CARAFS_TXN_MAX_BLOCKS + 2 <= g_journal_blocks g - 1 < 2 ^ 20 /\
  g_ag_size g = 8 * (2 ^ k - 64) /\ 0 < g_ag_count g < 2 ^ 32 /\
  g_ag_first g + (g_ag_count g - 1) * g_ag_size g < g_backup_sb g
    <= g_ag_first g + g_ag_count g * g_ag_size g /\
  g_root_cnode g = g_ag_first g + 1 /\ g_root_cnode g < g_backup_sb g /\
  g_backup_sb g = total - 1.
Proof. apply geometry_facts. Qed.

Lemma geometry_layout_witness :
  carafs_geometry 4096 4096 = Ok (mkGeom 4096 4096 1 257 258 32256 1 4095 259) /\
  258 + (1 - 1) * 32256 < 4095 <= 258 + 1 * 32256.
Proof.
  split; [reflexivity|].
  destruct (geometry_layout 12 4096 (mkGeom 4096 4096 1 257 258 32256 1 4095 259))
    as (_ & _ & _ & _ & _ & H & _).
  - unfold CARAFS_MIN_BLOCK_LOG2, CARAFS_MAX_BLOCK_LOG2. lia.
  - lia.
  - reflexivity.
  - exact H.
Defined.
