(* ===== verification/Cache.v ===== *)
(** The CaraFS block cache ([src/logaic/carafs/cache.c], the entry lifecycle; the cache
    initialisation of mount.c): a fixed table of entries threaded on an index-linked LRU
    list and on hash-bucket chains, with write-back eviction.

    A data pointer handed out by [carafs_cache_get] is the index of its entry: frames are
    assigned to entries once, at mount. The counters [stat_*] are not modelled. *)

From S2P Require Import Prelude Format Volume.

Definition CARAFS_ENT_NONE : Z := 0xFFFFFFFF.
Definition CARAFS_BLOCK_NONE : Z := 2 ^ 64 - 1.

Inductive get_mode := CARAFS_GET_READ | CARAFS_GET_ZERO.

(** [struct CarafsCacheEnt]; the two bits of [flags] are [e_dirty] and [e_txn]. *)
Record cache_ent := mkEnt {
  e_block : Z; e_dirty : bool; e_txn : bool; e_pins : Z;
  e_lru_prev : Z; e_lru_next : Z; e_hash_next : Z; e_data : list Z
}.

Definition ent_set_block (b : Z) (e : cache_ent) : cache_ent :=
  mkEnt b (e_dirty e) (e_txn e) (e_pins e) (e_lru_prev e) (e_lru_next e) (e_hash_next e) (e_data e).
Definition ent_set_flags (d t : bool) (e : cache_ent) : cache_ent :=
  mkEnt (e_block e) d t (e_pins e) (e_lru_prev e) (e_lru_next e) (e_hash_next e) (e_data e).
Definition ent_set_dirty (d : bool) (e : cache_ent) : cache_ent := ent_set_flags d (e_txn e) e.
Definition ent_set_txn (t : bool) (e : cache_ent) : cache_ent := ent_set_flags (e_dirty e) t e.
Definition ent_set_pins (p : Z) (e : cache_ent) : cache_ent :=
  mkEnt (e_block e) (e_dirty e) (e_txn e) p (e_lru_prev e) (e_lru_next e) (e_hash_next e) (e_data e).
Definition ent_set_lru_prev (p : Z) (e : cache_ent) : cache_ent :=
  mkEnt (e_block e) (e_dirty e) (e_txn e) (e_pins e) p (e_lru_next e) (e_hash_next e) (e_data e).
Definition ent_set_lru_next (n : Z) (e : cache_ent) : cache_ent :=
  mkEnt (e_block e) (e_dirty e) (e_txn e) (e_pins e) (e_lru_prev e) n (e_hash_next e) (e_data e).
Definition ent_set_hash_next (n : Z) (e : cache_ent) : cache_ent :=
  mkEnt (e_block e) (e_dirty e) (e_txn e) (e_pins e) (e_lru_prev e) (e_lru_next e) n (e_data e).
Definition ent_set_data (d : list Z) (e : cache_ent) : cache_ent :=
  mkEnt (e_block e) (e_dirty e) (e_txn e) (e_pins e) (e_lru_prev e) (e_lru_next e) (e_hash_next e) d.

(** The journal cursor of [struct CarafsMount]. *)
Record jstate := mkJ {
  j_log_blocks : Z; j_head : Z; j_head_seq : Z; j_tail : Z; j_next_seq : Z
}.

(** [struct CarafsMount]. [m_txn_blocks] holds the first [txn_n] elements of the array. *)
Record CarafsMount (D : Type) := mkMount {
  m_bdev : D; m_block_size : nat; m_readonly : bool; m_mounted : bool; m_sb : superblock;
  m_ents : list cache_ent; m_buckets : list Z; m_lru_head : Z; m_lru_tail : Z;
  m_in_txn : bool; m_txn_blocks : list Z; m_sb_at_txn : superblock; m_j : jstate
}.
Arguments mkMount {D}.
Arguments m_bdev {D}. Arguments m_block_size {D}. Arguments m_readonly {D}. Arguments m_mounted {D}.
Arguments m_sb {D}. Arguments m_ents {D}. Arguments m_buckets {D}. Arguments m_lru_head {D}.
Arguments m_lru_tail {D}. Arguments m_in_txn {D}. Arguments m_txn_blocks {D}.
Arguments m_sb_at_txn {D}. Arguments m_j {D}.

Section Cache.
Context {D : Type} `{!BlockDev D}.
Abbreviation mount := (CarafsMount D).

Definition set_bdev (d : D) (m : mount) : mount :=
  mkMount d (m_block_size m) (m_readonly m) (m_mounted m) (m_sb m) (m_ents m) (m_buckets m)
    (m_lru_head m) (m_lru_tail m) (m_in_txn m) (m_txn_blocks m) (m_sb_at_txn m) (m_j m).
Definition set_ents (es : list cache_ent) (m : mount) : mount :=
  mkMount (m_bdev m) (m_block_size m) (m_readonly m) (m_mounted m) (m_sb m) es (m_buckets m)
    (m_lru_head m) (m_lru_tail m) (m_in_txn m) (m_txn_blocks m) (m_sb_at_txn m) (m_j m).
Definition set_buckets (bs : list Z) (m : mount) : mount :=
  mkMount (m_bdev m) (m_block_size m) (m_readonly m) (m_mounted m) (m_sb m) (m_ents m) bs
    (m_lru_head m) (m_lru_tail m) (m_in_txn m) (m_txn_blocks m) (m_sb_at_txn m) (m_j m).
Definition set_lru_head (h : Z) (m : mount) : mount :=
  mkMount (m_bdev m) (m_block_size m) (m_readonly m) (m_mounted m) (m_sb m) (m_ents m) (m_buckets m)
    h (m_lru_tail m) (m_in_txn m) (m_txn_blocks m) (m_sb_at_txn m) (m_j m).
Definition set_lru_tail (t : Z) (m : mount) : mount :=
  mkMount (m_bdev m) (m_block_size m) (m_readonly m) (m_mounted m) (m_sb m) (m_ents m) (m_buckets m)
    (m_lru_head m) t (m_in_txn m) (m_txn_blocks m) (m_sb_at_txn m) (m_j m).
Definition set_txn (on : bool) (bs : list Z) (m : mount) : mount :=
  mkMount (m_bdev m) (m_block_size m) (m_readonly m) (m_mounted m) (m_sb m) (m_ents m) (m_buckets m)
    (m_lru_head m) (m_lru_tail m) on bs (m_sb_at_txn m) (m_j m).
Definition set_sb (s : superblock) (m : mount) : mount :=
  mkMount (m_bdev m) (m_block_size m) (m_readonly m) (m_mounted m) s (m_ents m) (m_buckets m)
    (m_lru_head m) (m_lru_tail m) (m_in_txn m) (m_txn_blocks m) (m_sb_at_txn m) (m_j m).
Definition set_sb_at_txn (s : superblock) (m : mount) : mount :=
  mkMount (m_bdev m) (m_block_size m) (m_readonly m) (m_mounted m) (m_sb m) (m_ents m) (m_buckets m)
    (m_lru_head m) (m_lru_tail m) (m_in_txn m) (m_txn_blocks m) s (m_j m).
Definition set_j (j : jstate) (m : mount) : mount :=
  mkMount (m_bdev m) (m_block_size m) (m_readonly m) (m_mounted m) (m_sb m) (m_ents m) (m_buckets m)
    (m_lru_head m) (m_lru_tail m) (m_in_txn m) (m_txn_blocks m) (m_sb_at_txn m) j.
Definition set_readonly (r : bool) (m : mount) : mount :=
  mkMount (m_bdev m) (m_block_size m) r (m_mounted m) (m_sb m) (m_ents m) (m_buckets m)
    (m_lru_head m) (m_lru_tail m) (m_in_txn m) (m_txn_blocks m) (m_sb_at_txn m) (m_j m).
Definition set_mounted (b : bool) (m : mount) : mount :=
  mkMount (m_bdev m) (m_block_size m) (m_readonly m) b (m_sb m) (m_ents m) (m_buckets m)
    (m_lru_head m) (m_lru_tail m) (m_in_txn m) (m_txn_blocks m) (m_sb_at_txn m) (m_j m).

Definition no_ent : cache_ent :=
  mkEnt CARAFS_BLOCK_NONE false false 0 CARAFS_ENT_NONE CARAFS_ENT_NONE CARAFS_ENT_NONE [].

#[local] Arguments u32 : simpl never.
#[local] Arguments u64 : simpl never.
#[local] Arguments Z.to_nat : simpl never.

(** [m->ents[idx]], and an assignment to its fields. *)
Definition ent (m : mount) (idx : Z) : cache_ent := nth_z (m_ents m) idx no_ent.
Definition upd_ent (idx : Z) (f : cache_ent -> cache_ent) (m : mount) : mount :=
  set_ents (alter f (Z.to_nat idx) (m_ents m)) m.
Definition n_ents (m : mount) : Z := Z.of_nat (length (m_ents m)).
Definition n_buckets (m : mount) : Z := Z.of_nat (length (m_buckets m)).

(** ** LRU list *)

Definition lru_unlink (idx : Z) (m : mount) : mount :=
  let e := ent m idx in
  let m := if negb (e_lru_prev e =? CARAFS_ENT_NONE)
           then upd_ent (e_lru_prev e) (ent_set_lru_next (e_lru_next e)) m
           else set_lru_head (e_lru_next e) m in
  let m := if negb (e_lru_next e =? CARAFS_ENT_NONE)
           then upd_ent (e_lru_next e) (ent_set_lru_prev (e_lru_prev e)) m
           else set_lru_tail (e_lru_prev e) m in
  upd_ent idx (fun e => ent_set_lru_prev CARAFS_ENT_NONE (ent_set_lru_next CARAFS_ENT_NONE e)) m.

Definition lru_push_mru (idx : Z) (m : mount) : mount :=
  let m := upd_ent idx (fun e => ent_set_lru_prev CARAFS_ENT_NONE
                                   (ent_set_lru_next (m_lru_head m) e)) m in
  let m := if negb (m_lru_head m =? CARAFS_ENT_NONE)
           then upd_ent (m_lru_head m) (ent_set_lru_prev idx) m else m in
  let m := set_lru_head idx m in
  if m_lru_tail m =? CARAFS_ENT_NONE then set_lru_tail idx m else m.

(** ** Bucket index *)

Definition bucket_of (m : mount) (block : Z) : Z :=
  Z.land (u32 (Z.shiftr (u64 (block * 0x9E3779B97F4A7C15)) 32)) (u32 (n_buckets m - 1)).

Definition bucket (m : mount) (b : Z) : Z := nth (Z.to_nat b) (m_buckets m) CARAFS_ENT_NONE.

(** The chain walk; a chain has at most one entry per slot of the table. *)
Fixpoint index_walk (fuel : nat) (m : mount) (block idx : Z) : Z :=
  match fuel with
  | O => CARAFS_ENT_NONE
  | S fuel =>
      if negb (idx =? CARAFS_ENT_NONE) && negb (e_block (ent m idx) =? block)
      then index_walk fuel m block (e_hash_next (ent m idx)) else idx
  end.
Definition index_find (m : mount) (block : Z) : Z :=
  index_walk (S (length (m_ents m))) m block (bucket m (bucket_of m block)).

Definition index_insert (idx : Z) (m : mount) : mount :=
  let b := bucket_of m (e_block (ent m idx)) in
  let m := upd_ent idx (ent_set_hash_next (bucket m b)) m in
  set_buckets (<[Z.to_nat b := idx]> (m_buckets m)) m.

(** The cell [link] points to: a bucket head or the [hash_next] of an entry. *)
Inductive link := LBucket (b : Z) | LEnt (idx : Z).
Definition link_get (m : mount) (l : link) : Z :=
  match l with LBucket b => bucket m b | LEnt i => e_hash_next (ent m i) end.
Definition link_set (l : link) (v : Z) (m : mount) : mount :=
  match l with
  | LBucket b => set_buckets (<[Z.to_nat b := v]> (m_buckets m)) m
  | LEnt i => upd_ent i (ent_set_hash_next v) m
  end.
Fixpoint link_walk (fuel : nat) (m : mount) (idx : Z) (l : link) : link :=
  match fuel with
  | O => l
  | S fuel => if negb (link_get m l =? idx) then link_walk fuel m idx (LEnt (link_get m l)) else l
  end.
Definition index_remove (idx : Z) (m : mount) : mount :=
  let b := bucket_of m (e_block (ent m idx)) in
  let l := link_walk (S (length (m_ents m))) m idx (LBucket b) in
  let m := link_set l (e_hash_next (ent m idx)) m in
  upd_ent idx (ent_set_hash_next CARAFS_ENT_NONE) m.

(** ** Entry lifecycle *)

(** A call through [m->bdev]. *)
Definition dev_write (block : Z) (data : list Z) : ST mount unit := fun m =>
  let '(r, d) := bdev_write (m_bdev m) block data in (r, set_bdev d m).
Definition dev_read (block : Z) : ST mount (list Z) := fun m =>
  let '(r, d) := bdev_read (m_bdev m) block in (r, set_bdev d m).
Definition dev_flush : ST mount unit := fun m =>
  let '(r, d) := bdev_flush (m_bdev m) in (r, set_bdev d m).

Definition ent_writeback (idx : Z) : ST mount unit :=
  e ← st_gets (fun m => ent m idx);
  dev_write (e_block e) (e_data e);;
  st_mod (upd_ent idx (ent_set_dirty false)).

(** The scan from the cold end; the LRU list has one node per slot of the table. *)
Fixpoint ent_obtain_from (fuel : nat) (idx : Z) : ST mount Z :=
  match fuel with
  | O => st_err CARA_ENOMEM
  | S fuel =>
      if idx =? CARAFS_ENT_NONE then st_err CARA_ENOMEM else
      e ← st_gets (fun m => ent m idx);
      if e_block e =? CARAFS_BLOCK_NONE then mret idx
      else if (e_pins e =? 0) && negb (e_txn e) then
        (if e_dirty e then ent_writeback idx else mret tt);;
        st_mod (index_remove idx);;
        st_mod (upd_ent idx (ent_set_block CARAFS_BLOCK_NONE));;
        mret idx
      else ent_obtain_from fuel (e_lru_prev e)
  end.
Definition ent_obtain : ST mount Z := fun m =>
  ent_obtain_from (S (length (m_ents m))) (m_lru_tail m) m.

(** The miss path of [carafs_cache_get]. *)
Definition cache_fill (block : Z) (mode : get_mode) : ST mount Z :=
  idx ← ent_obtain;
  (match mode with
   | CARAFS_GET_ZERO => st_mod (fun m => upd_ent idx (ent_set_data (zeros (m_block_size m))) m)
   | CARAFS_GET_READ => data ← dev_read block; st_mod (upd_ent idx (ent_set_data data))
   end);;
  st_mod (upd_ent idx (fun e => ent_set_flags
    (match mode with CARAFS_GET_ZERO => true | CARAFS_GET_READ => false end) false
    (ent_set_block block e)));;
  st_mod (index_insert idx);;
  mret idx.

(** Returns the data pointer (the entry's index) and [fresh]. *)
Definition carafs_cache_get (block : Z) (mode : get_mode) : ST mount (Z * bool) :=
  m ← st_get;
  if bdev_n_blocks (m_bdev m) <=? block then st_err CARA_ERANGE else
  let hit := index_find m block in
  '(idx, fresh) ← (if negb (hit =? CARAFS_ENT_NONE) then mret (hit, false)
                   else idx ← cache_fill block mode; mret (idx, true));
  st_mod (upd_ent idx (fun e => ent_set_pins (u32 (e_pins e + 1)) e));;
  st_mod (lru_unlink idx);;
  st_mod (lru_push_mru idx);;
  mret (idx, fresh).

Definition carafs_cache_put (block : Z) (m : mount) : mount :=
  let idx := index_find m block in
  if negb (idx =? CARAFS_ENT_NONE) && (0 <? e_pins (ent m idx))
  then upd_ent idx (fun e => ent_set_pins (e_pins e - 1) e) m else m.

Definition carafs_cache_dirty (block : Z) (m : mount) : mount :=
  let idx := index_find m block in
  if negb (idx =? CARAFS_ENT_NONE) then upd_ent idx (ent_set_dirty true) m else m.

Definition carafs_cache_invalidate (block : Z) (m : mount) : mount :=
  let idx := index_find m block in
  if idx =? CARAFS_ENT_NONE then m
  else if (0 <? e_pins (ent m idx)) || e_txn (ent m idx) then m
  else
    let m := index_remove idx m in
    upd_ent idx (fun e => ent_set_flags false false (ent_set_block CARAFS_BLOCK_NONE e)) m.

(** The loop of [carafs_cache_sync] over the entry table. *)
Fixpoint sync_ents (n : nat) (i : Z) : ST mount unit :=
  match n with
  | O => mret tt
  | S n =>
      e ← st_gets (fun m => ent m i);
      (if negb (e_block e =? CARAFS_BLOCK_NONE) && e_dirty e then ent_writeback i else mret tt);;
      sync_ents n (i + 1)
  end.
Definition carafs_cache_sync : ST mount unit :=
  n ← st_gets (fun m => length (m_ents m));
  sync_ents n 0;;
  dev_flush.

(** [cache_init] of mount.c: [n] empty entries chained on the LRU list, empty buckets. *)
Definition cache_init_ents (n : nat) (bs : nat) : list cache_ent :=
  map (fun i => mkEnt CARAFS_BLOCK_NONE false false 0
         (if (i =? 0)%nat then CARAFS_ENT_NONE else Z.of_nat i - 1)
         (if (i =? n - 1)%nat then CARAFS_ENT_NONE else Z.of_nat i + 1)
         CARAFS_ENT_NONE (zeros bs)) (seq 0 n).
Definition cache_init (n : nat) (nb : nat) (m : mount) : mount :=
  set_lru_tail (Z.of_nat n - 1) (set_lru_head 0
    (set_ents (cache_init_ents n (m_block_size m)) (set_buckets (replicate nb CARAFS_ENT_NONE) m))).

(** * Entry table *)

Definition valid_idx (m : mount) (i : Z) : Prop := 0 <= i < n_ents m.

Lemma ent_upd m i f j :
  valid_idx m i -> 0 <= j -> ent (upd_ent i f m) j = if j =? i then f (ent m j) else ent m j.
Proof.
  unfold valid_idx, n_ents. intros Hi Hj. unfold ent, upd_ent. simpl. rewrite !nth_z_nth, !nth_lookup.
  destruct (Z.eqb_spec j i) as [->|Hne].
  - rewrite list_lookup_alter_eq.
    destruct (lookup_lt_is_Some_2 (m_ents m) (Z.to_nat i)) as [e ->]; [lia|done].
  - rewrite list_lookup_alter_ne by lia. done.
Qed.
Lemma ent_upd_same m i f : valid_idx m i -> ent (upd_ent i f m) i = f (ent m i).
Proof. intros Hi. rewrite ent_upd, Z.eqb_refl; [done|done|apply Hi]. Qed.
Lemma ent_upd_ne m i f j : valid_idx m i -> 0 <= j -> j <> i -> ent (upd_ent i f m) j = ent m j.
Proof. intros Hi Hj Hne. rewrite ent_upd by done. by rewrite (proj2 (Z.eqb_neq _ _)). Qed.
Lemma n_ents_upd m i f : n_ents (upd_ent i f m) = n_ents m.
Proof. unfold n_ents, upd_ent. simpl. by rewrite length_alter. Qed.
Lemma valid_upd m i f j : valid_idx (upd_ent i f m) j <-> valid_idx m j.
Proof. unfold valid_idx. by rewrite n_ents_upd. Qed.
Lemma length_ents_upd m i f : length (m_ents (upd_ent i f m)) = length (m_ents m).
Proof. apply length_alter. Qed.

(** A write to one field leaves the others of every entry alone. *)
Lemma ent_upd_field {A} (g : cache_ent -> A) m i f j :
  valid_idx m i -> 0 <= j -> (forall e, g (f e) = g e) -> g (ent (upd_ent i f m) j) = g (ent m j).
Proof. intros Hi Hj Hg. rewrite ent_upd by done. by destruct (j =? i); rewrite ?Hg. Qed.

(** * The LRU list *)

Definition headZ (L : list Z) (d : Z) : Z := match L with [] => d | i :: _ => i end.
Fixpoint lastZ (L : list Z) (d : Z) : Z := match L with [] => d | i :: L => lastZ L i end.

(** [L] is linked both ways, from predecessor [p] to successor [n]. *)
Fixpoint lru_seg (m : mount) (p : Z) (L : list Z) (n : Z) : Prop :=
  match L with
  | [] => True
  | i :: L' => e_lru_prev (ent m i) = p /\ e_lru_next (ent m i) = headZ L' n /\ lru_seg m i L' n
  end.

Record lru_links (m : mount) (L : list Z) : Prop := {
  ll_nodup : NoDup L;
  ll_valid i : i ∈ L -> valid_idx m i;
  ll_head : m_lru_head m = headZ L CARAFS_ENT_NONE;
  ll_tail : m_lru_tail m = lastZ L CARAFS_ENT_NONE;
  ll_seg : lru_seg m CARAFS_ENT_NONE L CARAFS_ENT_NONE
}.

Lemma headZ_app A B n : headZ (A ++ B) n = headZ A (headZ B n).
Proof. by destruct A. Qed.
Lemma lastZ_app A B d : lastZ (A ++ B) d = lastZ B (lastZ A d).
Proof. revert d. induction A as [|a A IH]; intros d; [done|apply IH]. Qed.

Lemma lru_seg_app m p A B n :
  lru_seg m p (A ++ B) n <-> lru_seg m p A (headZ B n) /\ lru_seg m (lastZ A p) B n.
Proof.
  revert p. induction A as [|a A IH]; intros p; simpl; [tauto|].
  rewrite IH, headZ_app. tauto.
Qed.

Lemma lru_seg_frame m m' p L n :
  (forall i, i ∈ L -> e_lru_prev (ent m' i) = e_lru_prev (ent m i) /\
                      e_lru_next (ent m' i) = e_lru_next (ent m i)) ->
  lru_seg m p L n -> lru_seg m' p L n.
Proof.
  revert p. induction L as [|i L IH]; intros p Hf Hs; [done|]. simpl in *. destruct Hs as (H1 & H2 & H3).
  destruct (Hf i) as [-> ->]; [set_solver|]. split; [done|split; [done|]].
  apply IH; [|done]. intros j Hj. apply Hf. set_solver.
Qed.

(** Redirect the successor of the last node, or the predecessor of the first. *)
Lemma lru_seg_set_next m m' p L n n' :
  NoDup L -> lru_seg m p L n ->
  (forall i, i ∈ L -> e_lru_prev (ent m' i) = e_lru_prev (ent m i) /\
     e_lru_next (ent m' i) = if i =? lastZ L p then n' else e_lru_next (ent m i)) ->
  lru_seg m' p L n'.
Proof.
  revert p. induction L as [|i L IH]; intros p Hnd Hs Hf; [done|]. simpl in *.
  destruct Hs as (H1 & H2 & H3). apply NoDup_cons in Hnd as [Hni Hnd].
  destruct (Hf i) as [Hp Hn]; [set_solver|]. rewrite Hp. split; [done|]. split.
  - rewrite Hn. destruct L as [|j L]; simpl in *; [by rewrite Z.eqb_refl|].
    destruct (Z.eqb_spec i (lastZ L j)) as [E|]; [|done]. exfalso. apply Hni. rewrite E.
    clear. revert j. induction L as [|k L IH]; intros j; simpl; [set_solver|].
    specialize (IH k). set_solver.
  - apply IH; [done|done|]. intros j Hj. apply Hf. set_solver.
Qed.

Lemma lru_seg_set_prev m m' p p' L n :
  NoDup L -> lru_seg m p L n ->
  (forall i, i ∈ L -> e_lru_next (ent m' i) = e_lru_next (ent m i) /\
     e_lru_prev (ent m' i) = if i =? headZ L n then p' else e_lru_prev (ent m i)) ->
  lru_seg m' p' L n.
Proof.
  destruct L as [|i L]; [done|]. simpl. intros Hnd (H1 & H2 & H3) Hf.
  apply NoDup_cons in Hnd as [Hni Hnd].
  destruct (Hf i) as [Hn Hp]; [set_solver|]. rewrite Hp, Hn, Z.eqb_refl. split; [done|]. split; [done|].
  apply (lru_seg_frame m); [|done]. intros j Hj. destruct (Hf j) as [Hn' Hp']; [set_solver|].
  rewrite Hn', Hp'. destruct (Z.eqb_spec j i); [set_solver|done].
Qed.

Lemma lastZ_in A d : lastZ A d = d \/ lastZ A d ∈ A.
Proof.
  revert d. induction A as [|a A IH]; intros d; simpl; [by left|].
  destruct (IH a) as [->|]; right; set_solver.
Qed.
Lemma lastZ_cons_in a A : lastZ A a ∈ a :: A.
Proof. destruct (lastZ_in A a) as [->|]; set_solver. Qed.
Lemma headZ_in A d : headZ A d = d \/ headZ A d ∈ A.
Proof. destruct A; simpl; [by left|right; set_solver]. Qed.


(** An index field holds a valid index or the end marker. *)
Definition idx_or_none (m : mount) (i : Z) : Prop := i = CARAFS_ENT_NONE \/ valid_idx m i.
Definition small_table (m : mount) : Prop := n_ents m <= CARAFS_ENT_NONE.

Lemma valid_not_none m i : small_table m -> valid_idx m i -> i <> CARAFS_ENT_NONE.
Proof. unfold small_table, valid_idx. lia. Qed.

(** The state fields a step leaves alone. *)
Record same_frame (m m' : mount) : Prop := {
  sf_bdev : m_bdev m' = m_bdev m; sf_bs : m_block_size m' = m_block_size m;
  sf_sb : m_sb m' = m_sb m; sf_len : length (m_ents m') = length (m_ents m);
  sf_buckets : m_buckets m' = m_buckets m; sf_in_txn : m_in_txn m' = m_in_txn m;
  sf_txn : m_txn_blocks m' = m_txn_blocks m; sf_sbt : m_sb_at_txn m' = m_sb_at_txn m;
  sf_j : m_j m' = m_j m; sf_ro : m_readonly m' = m_readonly m; sf_mnt : m_mounted m' = m_mounted m
}.

(** Everything of an entry but its LRU links. *)
Definition ent_core (e : cache_ent) : Z * bool * bool * Z * Z * list Z :=
  (e_block e, e_dirty e, e_txn e, e_pins e, e_hash_next e, e_data e).

Lemma ent_set_lru_head h m j : ent (set_lru_head h m) j = ent m j.
Proof. done. Qed.
Lemma ent_set_lru_tail h m j : ent (set_lru_tail h m) j = ent m j.
Proof. done. Qed.
Lemma valid_set_lru_head h m j : valid_idx (set_lru_head h m) j <-> valid_idx m j.
Proof. done. Qed.
Lemma valid_set_lru_tail h m j : valid_idx (set_lru_tail h m) j <-> valid_idx m j.
Proof. done. Qed.

(** Read an entry through the updates of a step. *)
Ltac ent_simp :=
  repeat first
    [ rewrite ent_set_lru_head | rewrite ent_set_lru_tail
    | rewrite ent_upd by (rewrite ?valid_upd, ?valid_set_lru_head, ?valid_set_lru_tail, ?valid_upd;
                          done || tauto || lia) ].
Ltac frame_simp := constructor; simpl; rewrite ?length_alter; done.

Lemma lru_unlink_spec m i j :
  small_table m -> valid_idx m i -> valid_idx m j ->
  idx_or_none m (e_lru_prev (ent m i)) -> idx_or_none m (e_lru_next (ent m i)) ->
  let m' := lru_unlink i m in
  e_lru_prev (ent m' j) = (if j =? i then CARAFS_ENT_NONE
    else if j =? e_lru_next (ent m i) then e_lru_prev (ent m i) else e_lru_prev (ent m j)) /\
  e_lru_next (ent m' j) = (if j =? i then CARAFS_ENT_NONE
    else if j =? e_lru_prev (ent m i) then e_lru_next (ent m i) else e_lru_next (ent m j)) /\
  ent_core (ent m' j) = ent_core (ent m j) /\
  m_lru_head m' = (if e_lru_prev (ent m i) =? CARAFS_ENT_NONE then e_lru_next (ent m i) else m_lru_head m) /\
  m_lru_tail m' = (if e_lru_next (ent m i) =? CARAFS_ENT_NONE then e_lru_prev (ent m i) else m_lru_tail m) /\
  same_frame m m'.
Proof.
  intros Hs Hi Hj Hp Hn m'. assert (0 <= j) by apply Hj.
  pose proof (valid_not_none m j Hs Hj). unfold m', lru_unlink. clear m'.
  set (p := e_lru_prev (ent m i)) in *. set (n := e_lru_next (ent m i)) in *.
  destruct (Z.eqb_spec p CARAFS_ENT_NONE) as [Ep|Ep], (Z.eqb_spec n CARAFS_ENT_NONE) as [En|En];
    cbn [negb]; unfold idx_or_none in *.
  all: ent_simp.
  all: split_and!; try done; try frame_simp.
  all: destruct (Z.eqb_spec j i); repeat case_match; zbool; simpl; congruence || done.
Qed.

Lemma lru_push_spec m i j :
  small_table m -> valid_idx m i -> valid_idx m j -> idx_or_none m (m_lru_head m) ->
  i <> m_lru_head m ->
  let m' := lru_push_mru i m in
  e_lru_prev (ent m' j) = (if j =? i then CARAFS_ENT_NONE
    else if j =? m_lru_head m then i else e_lru_prev (ent m j)) /\
  e_lru_next (ent m' j) = (if j =? i then m_lru_head m else e_lru_next (ent m j)) /\
  ent_core (ent m' j) = ent_core (ent m j) /\
  m_lru_head m' = i /\
  m_lru_tail m' = (if m_lru_tail m =? CARAFS_ENT_NONE then i else m_lru_tail m) /\
  same_frame m m'.
Proof.
  intros Hs Hi Hj Hh Hne m'. assert (0 <= j) by apply Hj.
  pose proof (valid_not_none m j Hs Hj). unfold m', lru_push_mru. clear m'. simpl.
  set (h := m_lru_head m) in *. unfold idx_or_none in Hh.
  destruct (Z.eqb_spec h CARAFS_ENT_NONE) as [Eh|Eh]; cbn [negb]; simpl.
  all: destruct (m_lru_tail m =? CARAFS_ENT_NONE); simpl; ent_simp.
  all: split_and!; try done; try frame_simp.
  all: destruct (Z.eqb_spec j i); repeat case_match; zbool; simpl; congruence || done.
Qed.


Lemma lru_links_split m A i B :
  lru_links m (A ++ i :: B) ->
  valid_idx m i /\ e_lru_prev (ent m i) = lastZ A CARAFS_ENT_NONE /\
  e_lru_next (ent m i) = headZ B CARAFS_ENT_NONE /\
  lru_seg m CARAFS_ENT_NONE A i /\ lru_seg m i B CARAFS_ENT_NONE.
Proof.
  intros [Hnd Hv _ _ Hs]. apply lru_seg_app in Hs as [HA (H1 & H2 & HB)].
  split; [apply Hv; set_solver|]. done.
Qed.

Lemma lru_unlink_links m A i B :
  small_table m -> lru_links m (A ++ i :: B) -> lru_links (lru_unlink i m) (A ++ B).
Proof.
  intros Hs Hl. destruct (lru_links_split _ _ _ _ Hl) as (Hi & Hp & Hn & HA & HB).
  destruct Hl as [Hnd Hv Hh Ht _]. apply NoDup_app in Hnd as (HndA & Hdis & HndB).
  apply NoDup_cons in HndB as [HniB HndB].
  assert (i ∉ A) as HniA by (intros Hin; apply (Hdis i Hin); set_solver).
  assert (idx_or_none m (e_lru_prev (ent m i))) as Hpn.
  { rewrite Hp. destruct (lastZ_in A CARAFS_ENT_NONE); [by left|right; apply Hv; set_solver]. }
  assert (idx_or_none m (e_lru_next (ent m i))) as Hnn.
  { rewrite Hn. destruct (headZ_in B CARAFS_ENT_NONE); [by left|right; apply Hv; set_solver]. }
  assert (forall j, valid_idx m j -> _) as Hspec by (intros j Hj; exact (lru_unlink_spec m i j Hs Hi Hj Hpn Hnn)).
  cbv zeta in Hspec. rewrite Hp, Hn in Hspec. destruct (Hspec i Hi) as (_ & _ & _ & Eh & Et & Hf).
  assert (forall j, valid_idx m j -> j <> CARAFS_ENT_NONE) as Hne by (intros; by eapply valid_not_none).
  split.
  - apply NoDup_app. split; [done|split; [|done]]. intros x HxA HxB. apply (Hdis x); set_solver.
  - intros j Hj. unfold valid_idx, n_ents. rewrite (sf_len _ _ Hf). apply Hv. set_solver.
  - rewrite Eh, Hh, !headZ_app. destruct A as [|a A]; simpl; [done|].
    rewrite (proj2 (Z.eqb_neq _ _)); [done|]. apply Hne, Hv. pose proof (lastZ_cons_in a A). set_solver.
  - rewrite Et, Ht, !lastZ_app. destruct B as [|b B]; simpl; [done|].
    destruct (Z.eqb_spec b CARAFS_ENT_NONE) as [Eb|]; [|done].
    exfalso; apply (Hne b); [apply Hv; set_solver|done].
  - apply lru_seg_app. split.
    + apply (lru_seg_set_next m _ _ _ i); [done|done|]. intros j Hj.
      destruct (Hspec j) as (Epj & Enj & _); [apply Hv; set_solver|]. rewrite Epj, Enj.
      rewrite (proj2 (Z.eqb_neq j i)) by set_solver. split; [|done].
      destruct (Z.eqb_spec j (headZ B CARAFS_ENT_NONE)) as [E|]; [|done]. exfalso.
      destruct (headZ_in B CARAFS_ENT_NONE) as [EB|EB]; rewrite <- E in EB.
      * apply (Hne j); [apply Hv; set_solver|done].
      * apply (Hdis j Hj). set_solver.
    + apply (lru_seg_set_prev m _ i); [done|done|]. intros j Hj.
      destruct (Hspec j) as (Epj & Enj & _); [apply Hv; set_solver|]. rewrite Epj, Enj.
      rewrite (proj2 (Z.eqb_neq j i)) by set_solver. split; [|done].
      destruct (Z.eqb_spec j (lastZ A CARAFS_ENT_NONE)) as [E|]; [|done]. exfalso.
      destruct (lastZ_in A CARAFS_ENT_NONE) as [EA|EA]; rewrite <- E in EA.
      * apply (Hne j); [apply Hv; set_solver|done].
      * apply (Hdis j EA). set_solver.
Qed.

Lemma lru_push_links m i L :
  small_table m -> valid_idx m i -> i ∉ L -> lru_links m L -> lru_links (lru_push_mru i m) (i :: L).
Proof.
  intros Hs Hi Hni [Hnd Hv Hh Ht Hseg].
  assert (forall j, valid_idx m j -> j <> CARAFS_ENT_NONE) as Hne by (intros; by eapply valid_not_none).
  assert (idx_or_none m (m_lru_head m)) as Hhn.
  { rewrite Hh. destruct (headZ_in L CARAFS_ENT_NONE); [by left|right; by apply Hv]. }
  assert (i <> m_lru_head m) as Hih.
  { rewrite Hh. destruct (headZ_in L CARAFS_ENT_NONE) as [->|]; [by apply Hne|set_solver]. }
  assert (forall j, valid_idx m j -> _) as Hspec by (intros j Hj; exact (lru_push_spec m i j Hs Hi Hj Hhn Hih)).
  cbv zeta in Hspec. destruct (Hspec i Hi) as (Epi & Eni & _ & Eh & Et & Hf).
  split.
  - by apply NoDup_cons.
  - intros j Hj. unfold valid_idx, n_ents. rewrite (sf_len _ _ Hf). apply elem_of_cons in Hj as [->|]; [apply Hi|by apply Hv].
  - done.
  - rewrite Et, Ht. simpl. destruct L as [|a L]; simpl; [done|].
    rewrite (proj2 (Z.eqb_neq _ _)); [done|]. apply Hne, Hv, lastZ_cons_in.
  - simpl. rewrite Epi, Eni, Z.eqb_refl. split; [done|]. split; [done|].
    apply (lru_seg_set_prev m _ CARAFS_ENT_NONE); [done|done|]. intros j Hj.
    destruct (Hspec j (Hv j Hj)) as (Epj & Enj & _). rewrite Epj, Enj.
    rewrite (proj2 (Z.eqb_neq j i)) by set_solver. by rewrite Hh.
Qed.

(** Moving a listed entry to the MRU end: the list stays linked, with the same nodes. *)
Lemma lru_touch m L i :
  small_table m -> lru_links m L -> i ∈ L ->
  exists L', Permutation L L' /\ lru_links (lru_push_mru i (lru_unlink i m)) L'.
Proof.
  intros Hs Hl Hin. apply list_elem_of_split in Hin as (A & B & ->).
  destruct (lru_links_split _ _ _ _ Hl) as (Hi & _).
  pose proof (ll_nodup _ _ Hl) as Hnd.
  exists (i :: A ++ B). split; [symmetry; apply Permutation_middle|].
  apply lru_push_links.
  - unfold small_table, n_ents, lru_unlink. repeat case_match; simpl; rewrite ?length_alter; apply Hs.
  - unfold valid_idx, n_ents, lru_unlink. repeat case_match; simpl; rewrite ?length_alter; apply Hi.
  - apply NoDup_app in Hnd as (_ & Hd & Hb). apply NoDup_cons in Hb as [Hb _].
    intros [H|H]%elem_of_app; [apply (Hd i H); set_solver|done].
  - by apply lru_unlink_links.
Qed.


(** * The bucket index *)

(** [L] is the chain that starts at [start]. *)
Fixpoint hchain (m : mount) (start : Z) (L : list Z) : Prop :=
  match L with
  | [] => start = CARAFS_ENT_NONE
  | i :: L => start = i /\ valid_idx m i /\ hchain m (e_hash_next (ent m i)) L
  end.

(** The chains hold exactly the entries that satisfy [P], each in the bucket of its block,
    and no two of them cache the same block. *)
Record index_rel (m : mount) (P : Z -> Prop) : Prop := {
  ix_nb : 0 < n_buckets m <= 2 ^ 32;
  ix_chain b : 0 <= b < n_buckets m ->
    exists C, hchain m (bucket m b) C /\ NoDup C /\
      forall i, i ∈ C <-> valid_idx m i /\ P i /\ bucket_of m (e_block (ent m i)) = b;
  ix_uniq i j : valid_idx m i -> valid_idx m j -> P i -> P j ->
    e_block (ent m i) = e_block (ent m j) -> i = j
}.

Lemma land_le_r x y : 0 <= x -> 0 <= y -> 0 <= Z.land x y <= y.
Proof.
  intros Hx Hy. split; [apply Z.land_nonneg; lia|].
  assert (Z.land x y = y - Z.ldiff y x) as ->; [|pose proof (Z.ldiff_nonneg y x); lia].
  rewrite Z.sub_nocarry_ldiff.
  - apply Z.bits_inj'. intros i Hi. rewrite Z.land_spec, !Z.ldiff_spec.
    by destruct (Z.testbit x i), (Z.testbit y i).
  - apply Z.bits_inj'. intros i Hi. rewrite !Z.ldiff_spec, Z.bits_0.
    by destruct (Z.testbit x i), (Z.testbit y i).
Qed.

Lemma bucket_of_range m block : 0 < n_buckets m <= 2 ^ 32 -> 0 <= bucket_of m block < n_buckets m.
Proof.
  intros H. unfold bucket_of. rewrite (u32_small (n_buckets m - 1)) by (unfold in_u32; lia).
  pose proof (u32_range (Z.shiftr (u64 (block * 0x9E3779B97F4A7C15)) 32)) as Hr. unfold in_u32 in Hr.
  pose proof (land_le_r (u32 (Z.shiftr (u64 (block * 0x9E3779B97F4A7C15)) 32)) (n_buckets m - 1)). lia.
Qed.

Lemma hchain_valid m s C i : hchain m s C -> i ∈ C -> valid_idx m i.
Proof.
  revert s. induction C as [|j C IH]; intros s; [set_solver|]. intros (_ & Hv & Hc) Hin.
  apply elem_of_cons in Hin as [->|]; [done|by eapply IH].
Qed.

Lemma valid_length m C : NoDup C -> (forall i, i ∈ C -> valid_idx m i) -> (length C <= length (m_ents m))%nat.
Proof.
  intros Hnd Hv. transitivity (length (seqZ 0 (n_ents m))).
  - apply NoDup_incl_length; [by apply NoDup_ListNoDup|]. intros i Hi.
    apply list_elem_of_In, elem_of_seqZ. apply list_elem_of_In in Hi. specialize (Hv i Hi).
    unfold valid_idx in Hv. lia.
  - rewrite length_seqZ. unfold n_ents. lia.
Qed.

Lemma hchain_frame m m' s C :
  (forall i, i ∈ C -> e_hash_next (ent m' i) = e_hash_next (ent m i)) -> n_ents m' = n_ents m ->
  hchain m s C -> hchain m' s C.
Proof.
  intros Hf Hn. revert s. induction C as [|i C IH]; intros s; [done|]. intros (-> & Hv & Hc). split; [done|].
  split; [unfold valid_idx in *; by rewrite Hn|]. rewrite Hf by set_solver. apply IH; [set_solver|done].
Qed.

Lemma index_walk_spec m block C s fuel :
  small_table m -> hchain m s C -> (length C < fuel)%nat ->
  let r := index_walk fuel m block s in
  (r = CARAFS_ENT_NONE /\ forall i, i ∈ C -> e_block (ent m i) <> block) \/
  (r ∈ C /\ e_block (ent m r) = block).
Proof.
  intros Hs. revert s fuel. induction C as [|i C IH]; intros s fuel Hc Hl; (destruct fuel as [|fuel]; [simpl in Hl; lia|]); simpl.
  - simpl in Hc. subst. rewrite Z.eqb_refl. simpl. left. set_solver.
  - destruct Hc as (-> & Hv & Hc).
    rewrite (proj2 (Z.eqb_neq i CARAFS_ENT_NONE)) by (by eapply valid_not_none). simpl.
    destruct (Z.eqb_spec (e_block (ent m i)) block) as [E|E]; simpl.
    + right. set_solver.
    + destruct (IH (e_hash_next (ent m i)) fuel Hc) as [[Hr Hn]|[Hr Hb]]; [simpl in Hl; lia| |].
      * left. split; [done|]. intros j [->|]%elem_of_cons; auto.
      * right. set_solver.
Qed.

Lemma index_find_spec m P block :
  small_table m -> index_rel m P ->
  let r := index_find m block in
  (r = CARAFS_ENT_NONE /\ forall i, valid_idx m i -> P i -> e_block (ent m i) <> block) \/
  (valid_idx m r /\ P r /\ e_block (ent m r) = block).
Proof.
  intros Hs [Hnb Hch _]. destruct (Hch (bucket_of m block) (bucket_of_range m block Hnb)) as (C & Hc & Hnd & HC).
  assert (length C < S (length (m_ents m)))%nat as Hl.
  { assert (length C <= length (m_ents m))%nat; [|lia]. apply valid_length; [done|].
    intros i Hi. by eapply hchain_valid. }
  destruct (index_walk_spec m block C _ _ Hs Hc Hl) as [[Hr Hn]|[Hr Hb]]; [left|right].
  - split; [done|]. intros i Hv HP E. apply (Hn i); [|done]. apply HC. by rewrite E.
  - apply HC in Hr as (Hv & HP & _). done.
Qed.

(** An entry is found exactly when it is indexed. *)
Lemma index_find_hit m P i block :
  small_table m -> index_rel m P -> valid_idx m i -> P i -> e_block (ent m i) = block ->
  index_find m block = i.
Proof.
  intros Hs Hx Hv HP E. destruct (index_find_spec m P block Hs Hx) as [[_ Hn]|(Hv' & HP' & E')].
  - by destruct (Hn i).
  - apply (ix_uniq m P Hx); auto. by rewrite E.
Qed.

Lemma index_rel_frame m m' P :
  n_ents m' = n_ents m -> m_buckets m' = m_buckets m ->
  (forall i, valid_idx m i -> P i -> e_block (ent m' i) = e_block (ent m i) /\
     e_hash_next (ent m' i) = e_hash_next (ent m i)) ->
  index_rel m P -> index_rel m' P.
Proof.
  intros Hn Hb Hf [Hnb Hch Hu].
  assert (n_buckets m' = n_buckets m) as En by (unfold n_buckets; by rewrite Hb).
  assert (forall x, bucket_of m' x = bucket_of m x) as Eb by (intros; unfold bucket_of; by rewrite En).
  assert (forall i, valid_idx m' i <-> valid_idx m i) as Ev by (intros; unfold valid_idx; by rewrite Hn).
  split; rewrite ?En; [done| |].
  - intros b Hr. destruct (Hch b Hr) as (C & Hc & Hnd & HC). exists C. unfold bucket in *. rewrite Hb.
    split; [|split; [done|]].
    + apply (hchain_frame m); [|done|done]. intros i Hi. apply Hf; by apply HC.
    + intros i. rewrite Ev, Eb, HC. split; intros (Hv & HP & E); destruct (Hf i Hv HP) as [Hbk _];
        [by rewrite Hbk|by rewrite Hbk in E].
  - intros i j Hi Hj HPi HPj E. rewrite Ev in Hi, Hj.
    destruct (Hf i Hi HPi) as [Ei _], (Hf j Hj HPj) as [Ej _]. rewrite Ei, Ej in E. by apply Hu.
Qed.

Lemma index_rel_ext m P Q : (forall i, valid_idx m i -> P i <-> Q i) -> index_rel m P -> index_rel m Q.
Proof.
  intros HPQ [Hnb Hch Hu]. split; [done| |].
  - intros b Hb. destruct (Hch b Hb) as (C & Hc & Hnd & HC). exists C. split; [done|split; [done|]].
    intros i. rewrite HC. split; intros (Hv & HP & E); (split; [done|split; [by apply HPQ|done]]).
  - intros i j Hi Hj HPi HPj. apply Hu; auto; by apply HPQ.
Qed.


Lemma bucket_set m b v b' :
  0 <= b < n_buckets m -> 0 <= b' ->
  bucket (set_buckets (<[Z.to_nat b := v]> (m_buckets m)) m) b' = if b' =? b then v else bucket m b'.
Proof.
  unfold n_buckets. intros Hb Hb'. unfold bucket. simpl. rewrite !nth_lookup.
  destruct (Z.eqb_spec b' b) as [->|Hne].
  - by rewrite list_lookup_insert_eq by lia.
  - by rewrite list_lookup_insert_ne by lia.
Qed.

Lemma n_buckets_set m i v : n_buckets (set_buckets (<[i := v]> (m_buckets m)) m) = n_buckets m.
Proof. unfold n_buckets. simpl. by rewrite length_insert. Qed.

Lemma index_insert_rel m P i :
  small_table m -> index_rel m P -> valid_idx m i -> ~ P i ->
  (forall j, valid_idx m j -> P j -> e_block (ent m j) <> e_block (ent m i)) ->
  index_rel (index_insert i m) (fun j => P j \/ j = i).
Proof.
  intros Hs [Hnb Hch Hu] Hi HPi Hfresh. unfold index_insert.
  set (bi := bucket_of m (e_block (ent m i))). set (m1 := upd_ent i _ m). set (m2 := set_buckets _ m1).
  assert (0 <= bi < n_buckets m) as Hbi by (by apply bucket_of_range).
  assert (n_buckets m2 = n_buckets m) as En by exact (n_buckets_set m1 _ _).
  assert (forall x, bucket_of m2 x = bucket_of m x) as Eb by (intros; unfold bucket_of; by rewrite En).
  assert (forall j, valid_idx m2 j <-> valid_idx m j) as Ev by (intros j; change (valid_idx m1 j <-> valid_idx m j); apply valid_upd).
  assert (forall j, ent m2 j = ent m1 j) as Ee by done.
  assert (forall j, valid_idx m j -> e_block (ent m2 j) = e_block (ent m j)) as Ebl.
  { intros j Hj. rewrite Ee. unfold m1. apply (ent_upd_field e_block); [done|apply Hj|done]. }
  split; rewrite ?En; [done| |].
  - intros b Hb. destruct (Hch b Hb) as (C & Hc & Hnd & HC).
    assert (i ∉ C) as HiC by (intros Hin; by apply HC in Hin as (_ & HP & _)).
    assert (hchain m2 (bucket m b) C) as Hc2.
    { apply (hchain_frame m); [|exact (n_ents_upd m i _)|done]. intros j Hj. rewrite Ee. unfold m1.
      rewrite ent_upd_ne; [done|done|exact (proj1 (hchain_valid _ _ _ _ Hc Hj))|by intros ->]. }
    assert (bucket m2 b = if b =? bi then i else bucket m b) as Ebk
      by exact (bucket_set m1 bi i b Hbi (proj1 Hb)).
    rewrite Ebk. destruct (Z.eqb_spec b bi) as [->|Hne].
    + exists (i :: C). split; [|split; [by apply NoDup_cons|]].
      * simpl. split; [done|]. split; [by apply Ev|]. rewrite Ee. unfold m1.
        by rewrite ent_upd_same.
      * intros j. rewrite elem_of_cons, HC, Ev, Eb. split.
        -- intros [->|(Hv & HP & E)]; [|by rewrite Ebl; auto]. split; [done|split; [by right|]].
           by rewrite Ebl.
        -- intros (Hv & [HP| ->] & E); [right|by left]. rewrite Ebl in E; auto.
    + exists C. split; [done|split; [done|]]. intros j. rewrite HC, Ev, Eb. split.
      * intros (Hv & HP & E). rewrite Ebl; auto.
      * intros (Hv & [HP| ->] & E); rewrite Ebl in E by done; [done|]. by destruct Hne.
  - intros x y Hx Hy HPx HPy E. rewrite Ev in Hx, Hy. rewrite !Ebl in E by done.
    destruct HPx as [HPx| ->], HPy as [HPy| ->]; [by apply Hu| | |done].
    + by destruct (Hfresh x).
    + by destruct (Hfresh y).
Qed.

(** [link_walk] stops at the cell that points to [i]. *)
Definition link_before (C : list Z) (l : link) : link :=
  match C with [] => l | j :: C => LEnt (lastZ C j) end.

Lemma link_walk_spec m i C1 C2 l fuel :
  hchain m (link_get m l) (C1 ++ i :: C2) -> NoDup (C1 ++ i :: C2) -> (length C1 < fuel)%nat ->
  link_walk fuel m i l = link_before C1 l.
Proof.
  revert l fuel. induction C1 as [|j C1 IH]; intros l fuel Hc Hnd Hl;
    (destruct fuel as [|fuel]; [simpl in Hl; lia|]); simpl in *.
  - destruct Hc as (-> & _). by rewrite Z.eqb_refl.
  - destruct Hc as (E & Hv & Hc). apply NoDup_cons in Hnd as [Hnj Hnd].
    rewrite E, (proj2 (Z.eqb_neq j i)) by set_solver. simpl.
    rewrite IH by (done || lia). by destruct C1.
Qed.

(** Unlinking an inner node of a chain. *)
Lemma hchain_unlink m m' s C1 i C2 :
  NoDup (C1 ++ i :: C2) -> hchain m s (C1 ++ i :: C2) -> n_ents m' = n_ents m ->
  (forall j, j ∈ C1 ++ C2 -> e_hash_next (ent m' j) =
     if j =? lastZ C1 CARAFS_ENT_NONE then e_hash_next (ent m i) else e_hash_next (ent m j)) ->
  small_table m ->
  hchain m' (match C1 with [] => e_hash_next (ent m i) | _ => s end) (C1 ++ C2).
Proof.
  intros Hnd Hc Hn Hf Hs. revert s Hc. induction C1 as [|j C1 IH]; intros s Hc; simpl in *.
  - destruct Hc as (-> & Hv & Hc). apply (hchain_frame m); [|done|done]. intros x Hx.
    rewrite Hf by done. rewrite (proj2 (Z.eqb_neq _ _)); [done|].
    apply (valid_not_none m); [done|]. by apply (hchain_valid _ _ _ _ Hc).
  - destruct Hc as (-> & Hv & Hc). split; [done|]. split; [unfold valid_idx in *; by rewrite Hn|].
    apply NoDup_cons in Hnd as [Hnj Hnd]. rewrite Hf by set_solver.
    assert (forall x, x ∈ C1 ++ C2 -> x <> j) as Hxj by set_solver.
    destruct C1 as [|k C1]; simpl in *.
    + rewrite Z.eqb_refl. refine (IH Hnd _ _ Hc). intros x Hx. rewrite Hf by set_solver.
      rewrite !(proj2 (Z.eqb_neq x _)); [done| |by apply Hxj].
      apply (valid_not_none m); [done|]. destruct Hc as (_ & _ & Hc). by apply (hchain_valid _ _ _ _ Hc).
    + rewrite (proj2 (Z.eqb_neq j _)).
      2:{ intros E. apply Hnj. rewrite E. pose proof (lastZ_cons_in k C1). set_solver. }
      refine (IH Hnd _ _ Hc). intros x Hx. rewrite Hf by set_solver. done.
Qed.


(** Everything of an entry but its chain link. *)
Definition ent_nohash (e : cache_ent) : Z * bool * bool * Z * Z * Z * list Z :=
  (e_block e, e_dirty e, e_txn e, e_pins e, e_lru_prev e, e_lru_next e, e_data e).

Lemma ent_nohash_inv e e' : ent_nohash e = ent_nohash e' ->
  e_block e = e_block e' /\ e_dirty e = e_dirty e' /\ e_txn e = e_txn e' /\ e_pins e = e_pins e' /\
  e_lru_prev e = e_lru_prev e' /\ e_lru_next e = e_lru_next e' /\ e_data e = e_data e'.
Proof. unfold ent_nohash. intros E. injection E. intros. split_and!; done. Qed.

Lemma index_remove_frame m i :
  let m' := index_remove i m in
  m_lru_head m' = m_lru_head m /\ m_lru_tail m' = m_lru_tail m /\ m_bdev m' = m_bdev m /\
  m_block_size m' = m_block_size m /\ length (m_ents m') = length (m_ents m) /\
  m_sb m' = m_sb m /\ m_in_txn m' = m_in_txn m /\ m_txn_blocks m' = m_txn_blocks m /\
  m_sb_at_txn m' = m_sb_at_txn m /\ m_j m' = m_j m.
Proof.
  unfold index_remove. destruct (link_walk _ _ _ _); simpl; rewrite ?length_alter; done.
Qed.

(** What [index_remove] does to the chain [C1 ++ i :: C2] of the entry's bucket. *)
Lemma index_remove_cells m i C1 C2 :
  let bi := bucket_of m (e_block (ent m i)) in
  small_table m -> 0 < n_buckets m <= 2 ^ 32 -> valid_idx m i ->
  hchain m (bucket m bi) (C1 ++ i :: C2) -> NoDup (C1 ++ i :: C2) ->
  let m' := index_remove i m in
  n_ents m' = n_ents m /\ n_buckets m' = n_buckets m /\
  (forall j, valid_idx m j -> ent_nohash (ent m' j) = ent_nohash (ent m j) /\
     e_hash_next (ent m' j) = if j =? i then CARAFS_ENT_NONE
       else if j =? lastZ C1 CARAFS_ENT_NONE then e_hash_next (ent m i) else e_hash_next (ent m j)) /\
  (forall b, 0 <= b < n_buckets m -> bucket m' b =
     if b =? bi then match C1 with [] => e_hash_next (ent m i) | _ => bucket m b end else bucket m b).
Proof.
  intros bi Hs Hnb Hi Hc Hnd m'. unfold m', index_remove. fold bi.
  assert (0 <= bi < n_buckets m) as Hbi by (by apply bucket_of_range).
  assert (length C1 < S (length (m_ents m)))%nat as Hl.
  { assert (length (C1 ++ i :: C2) <= length (m_ents m))%nat as HL.
    { apply valid_length; [done|]. intros j Hj. by eapply hchain_valid. }
    rewrite length_app in HL. simpl in HL. lia. }
  rewrite (link_walk_spec m i C1 C2) by done. destruct C1 as [|c C1]; simpl link_before; cbn [link_set].
  - set (m1 := set_buckets _ m). assert (valid_idx m1 i) as Hi1 by exact Hi.
    split; [exact (n_ents_upd m1 i _)|]. split; [exact (n_buckets_set m _ _)|]. split.
    + intros j Hj. rewrite ent_upd by (done || apply Hj). change (ent m1 j) with (ent m j).
      destruct (Z.eqb_spec j i) as [->|]; [done|]. cbn [lastZ].
      by rewrite (proj2 (Z.eqb_neq j CARAFS_ENT_NONE)) by (by eapply valid_not_none).
    + intros b Hb. exact (bucket_set m bi _ b Hbi (proj1 Hb)).
  - set (p := lastZ C1 c). assert (valid_idx m p) as Hp.
    { apply (hchain_valid _ _ _ _ Hc). pose proof (lastZ_cons_in c C1). apply elem_of_app. by left. }
    split; [by rewrite !n_ents_upd|]. split; [done|]. split.
    + intros j Hj. rewrite !ent_upd by (rewrite ?valid_upd; done || apply Hj). cbn [lastZ]. fold p.
      destruct (j =? i), (j =? p); done.
    + intros b Hb. change (bucket m b = if b =? bi then bucket m b else bucket m b).
      by destruct (b =? bi).
Qed.

Lemma index_remove_rel m P i :
  small_table m -> index_rel m P -> valid_idx m i -> P i ->
  let m' := index_remove i m in
  index_rel m' (fun j => P j /\ j <> i) /\ n_ents m' = n_ents m /\
  (forall j, valid_idx m j -> ent_nohash (ent m' j) = ent_nohash (ent m j)).
Proof.
  intros Hs Hx Hi HPi m'. set (bi := bucket_of m (e_block (ent m i))).
  assert (0 <= bi < n_buckets m) as Hbi by (apply bucket_of_range, Hx).
  destruct (ix_chain m P Hx bi Hbi) as (C & Hc & Hnd & HC).
  assert (i ∈ C) as [C1 [C2 ->]]%list_elem_of_split by (by apply HC).
  destruct (index_remove_cells m i C1 C2 Hs (ix_nb m P Hx) Hi Hc Hnd) as (En & Enb & Hent & Hbk).
  fold m' in En, Enb, Hent, Hbk. fold bi in Hbk.
  assert (forall x, bucket_of m' x = bucket_of m x) as Eb by (intros; unfold bucket_of; by rewrite Enb).
  assert (forall j, valid_idx m' j <-> valid_idx m j) as Ev by (intros; unfold valid_idx; by rewrite En).
  assert (forall j, valid_idx m j -> e_block (ent m' j) = e_block (ent m j)) as Ebl.
  { intros j Hj. destruct (Hent j Hj) as [E _]. by injection E. }
  split; [|split; [done|]]; [|intros j Hj; apply Hent, Hj].
  pose proof Hx as [Hnb Hch Hu]. split; rewrite ?Enb; [done| |].
  - intros b Hb. rewrite (Hbk b Hb). destruct (Z.eqb_spec b bi) as [->|Hne].
    + exists (C1 ++ C2). pose proof Hnd as (HndA & Hdis & HndB)%NoDup_app.
      apply NoDup_cons in HndB as [HniB HndB].
      assert (i ∉ C1) as HniA by (intros Hin; apply (Hdis i Hin); set_solver).
      split; [|split].
      * apply (hchain_unlink m m' _ _ i); auto. intros j Hj.
        destruct (Hent j) as [_ ->]; [apply (hchain_valid _ _ _ _ Hc); set_solver|].
        rewrite (proj2 (Z.eqb_neq j i)); [done|]. set_solver.
      * apply NoDup_app. split; [done|split; [|done]]. intros x H1 H2. apply (Hdis x H1). set_solver.
      * intros j. rewrite Ev, Eb. split.
        -- intros Hj. assert (j ∈ C1 ++ i :: C2) as (Hv & HP & E)%HC by set_solver.
           split; [done|]. rewrite Ebl by done. split; [|done]. split; [done|]. set_solver.
        -- intros (Hv & [HP Hji] & E). rewrite Ebl in E by done.
           assert (j ∈ C1 ++ i :: C2) by (by apply HC). set_solver.
    + destruct (Hch b Hb) as (C & Hcb & Hndb & HCb). exists C. split; [|split; [done|]].
      * apply (hchain_frame m); [|done|done]. intros j Hj. apply HCb in Hj as (Hv & HP & E).
        destruct (Hent j Hv) as [_ ->].
        rewrite (proj2 (Z.eqb_neq j i)) by (intros ->; by destruct Hne).
        rewrite (proj2 (Z.eqb_neq j _)); [done|]. intros Ej.
        destruct (lastZ_in C1 CARAFS_ENT_NONE) as [E'|E']; rewrite <- Ej in E'.
        -- by apply (valid_not_none m j).
        -- apply Hne. rewrite <- E. apply HC. set_solver.
      * intros j. rewrite Ev, Eb, HCb. split.
        -- intros (Hv & HP & E). rewrite Ebl by done. split; [done|split; [split; [done|]|done]].
           intros ->. by destruct Hne.
        -- intros (Hv & [HP _] & E). by rewrite Ebl in E.
  - intros x y Hx' Hy' [HPx _] [HPy _] E. rewrite Ev in Hx', Hy'. rewrite !Ebl in E by done. by apply Hu.
Qed.


(** * The cache invariant and the logical view *)

Context `{!BlockDevLaws D}.

Definition indexed (m : mount) (i : Z) : Prop := e_block (ent m i) <> CARAFS_BLOCK_NONE.
Definition dev_n (m : mount) : Z := bdev_n_blocks (m_bdev m).
Definition in_dev (m : mount) (b : Z) : Prop := 0 <= b < dev_n m.

(** An entry caches a block of the device; a clean one agrees with it; an empty one is idle. *)
Record ent_fit (bs : nat) (d : D) (e : cache_ent) : Prop := {
  eo_len : length (e_data e) = bs;
  eo_bytes : bytes_ok (e_data e);
  eo_pins : 0 <= e_pins e;
  eo_range : e_block e <> CARAFS_BLOCK_NONE -> 0 <= e_block e < bdev_n_blocks d;
  eo_clean : e_block e <> CARAFS_BLOCK_NONE -> e_dirty e = false ->
    e_data e = bdev_content d (e_block e);
  eo_idle : e_block e = CARAFS_BLOCK_NONE -> e_pins e = 0 /\ e_txn e = false
}.

Abbreviation ent_ok m := (ent_fit (m_block_size m) (m_bdev m)).

Record cache_inv (m : mount) : Prop := {
  ci_small : small_table m;
  ci_lru : exists L, lru_links m L /\ forall i, valid_idx m i -> i ∈ L;
  ci_index : index_rel m (indexed m);
  ci_dev : bdev_wf (m_bdev m);
  ci_bs : m_block_size m = bdev_block_size (m_bdev m);
  ci_n : dev_n m < CARAFS_BLOCK_NONE;
  ci_ent i : valid_idx m i -> ent_ok m (ent m i)
}.

(** What the filesystem sees in block [b]: the cached image, else the device's. *)
Definition view (m : mount) (b : Z) : list Z :=
  let i := index_find m b in
  if i =? CARAFS_ENT_NONE then bdev_content (m_bdev m) b else e_data (ent m i).

(** The part of an entry the clients of the cache see. *)
Definition ent_user (e : cache_ent) : Z * bool * bool * Z * list Z :=
  (e_block e, e_dirty e, e_txn e, e_pins e, e_data e).

Lemma ent_user_inv e e' : ent_user e = ent_user e' ->
  e_block e = e_block e' /\ e_dirty e = e_dirty e' /\ e_txn e = e_txn e' /\ e_pins e = e_pins e' /\
  e_data e = e_data e'.
Proof. unfold ent_user. intros E. injection E. intros. split_and!; done. Qed.

Lemma in_dev_not_none m b : cache_inv m -> in_dev m b -> b <> CARAFS_BLOCK_NONE.
Proof. intros Hi [_ Hb] ->. pose proof (ci_n m Hi). lia. Qed.

Lemma view_cached m i b :
  cache_inv m -> valid_idx m i -> e_block (ent m i) = b -> b <> CARAFS_BLOCK_NONE ->
  view m b = e_data (ent m i).
Proof.
  intros Hc Hi E Hb. unfold view.
  rewrite (index_find_hit m (indexed m) i b (ci_small m Hc) (ci_index m Hc) Hi); [|by unfold indexed; rewrite E|done].
  by rewrite (proj2 (Z.eqb_neq _ _) (valid_not_none m i (ci_small m Hc) Hi)).
Qed.

Lemma view_uncached m b :
  cache_inv m -> b <> CARAFS_BLOCK_NONE -> (forall i, valid_idx m i -> e_block (ent m i) <> b) ->
  view m b = bdev_content (m_bdev m) b.
Proof.
  intros Hc Hb Hn. unfold view.
  destruct (index_find_spec m (indexed m) b (ci_small m Hc) (ci_index m Hc)) as [[-> _]|(Hv & _ & E)];
    [by rewrite Z.eqb_refl|by destruct (Hn _ Hv)].
Qed.

(** A block is cached or it is not. *)
Lemma cached_dec m b :
  cache_inv m -> b <> CARAFS_BLOCK_NONE ->
  (index_find m b <> CARAFS_ENT_NONE /\ valid_idx m (index_find m b) /\ e_block (ent m (index_find m b)) = b) \/
  (index_find m b = CARAFS_ENT_NONE /\ forall i, valid_idx m i -> e_block (ent m i) <> b).
Proof.
  intros Hc Hb.
  destruct (index_find_spec m (indexed m) b (ci_small m Hc) (ci_index m Hc)) as [[E Hn]|(Hv & _ & E)].
  - right. split; [done|]. intros i Hi Ei. apply (Hn i Hi); [unfold indexed; congruence|done].
  - left. split; [by apply (valid_not_none m _ (ci_small m Hc))|done].
Qed.

Lemma view_ok m b : cache_inv m -> in_dev m b -> length (view m b) = m_block_size m /\ bytes_ok (view m b).
Proof.
  intros Hc Hb. pose proof (in_dev_not_none m b Hc Hb) as Hne.
  destruct (cached_dec m b Hc Hne) as [(_ & Hv & E)|[_ Hn]].
  - rewrite (view_cached m _ b Hc Hv E Hne). split; apply (ci_ent m Hc _ Hv).
  - rewrite (view_uncached m b Hc Hne Hn), (ci_bs m Hc). by apply bdev_wf_content; [apply Hc|].
Qed.

(** Two states with the same entries for the clients and, where a block is not cached or
    cached clean, the same device contents, show the same view. *)
Lemma view_same m m' b :
  cache_inv m -> cache_inv m' -> b <> CARAFS_BLOCK_NONE -> n_ents m' = n_ents m ->
  (forall i, valid_idx m i -> e_block (ent m i) = b \/ e_block (ent m' i) = b ->
     e_block (ent m' i) = e_block (ent m i) /\ e_data (ent m' i) = e_data (ent m i)) ->
  ((forall i, valid_idx m i -> e_block (ent m i) <> b) ->
     bdev_content (m_bdev m') b = bdev_content (m_bdev m) b) ->
  view m' b = view m b.
Proof.
  intros Hc Hc' Hb Hn He Hd.
  assert (forall i, valid_idx m' i <-> valid_idx m i) as Ev by (intros; unfold valid_idx; by rewrite Hn).
  destruct (cached_dec m b Hc Hb) as [(_ & Hv & E)|[_ Hu]].
  - destruct (He _ Hv (or_introl E)) as [E1 E2].
    rewrite (view_cached m _ b Hc Hv E Hb), <- E2. apply view_cached; auto; [by apply Ev|congruence].
  - rewrite (view_uncached m b Hc Hb Hu), <- (Hd Hu). apply view_uncached; auto.
    intros i Hi Ei. rewrite Ev in Hi. destruct (He i Hi (or_intror Ei)) as [E1 _].
    apply (Hu i Hi). congruence.
Qed.


Lemma cache_inv_transfer m m' :
  cache_inv m -> n_ents m' = n_ents m -> m_lru_head m' = m_lru_head m -> m_lru_tail m' = m_lru_tail m ->
  m_buckets m' = m_buckets m ->
  (forall i, valid_idx m i ->
     e_lru_prev (ent m' i) = e_lru_prev (ent m i) /\ e_lru_next (ent m' i) = e_lru_next (ent m i) /\
     e_hash_next (ent m' i) = e_hash_next (ent m i) /\ e_block (ent m' i) = e_block (ent m i)) ->
  bdev_wf (m_bdev m') -> m_block_size m' = bdev_block_size (m_bdev m') -> dev_n m' = dev_n m ->
  (forall i, valid_idx m i -> ent_ok m' (ent m' i)) -> cache_inv m'.
Proof.
  intros [Hs (L & [Hnd Hv Hh Ht Hseg] & HL) Hx Hd Hbs Hn He] En Eh Et Eb Hf Hd' Hbs' Hn' He'.
  assert (forall i, valid_idx m' i <-> valid_idx m i) as Ev by (intros; unfold valid_idx; by rewrite En).
  split; auto.
  - unfold small_table. by rewrite En.
  - exists L. split; [split|]; auto.
    + intros i Hi. by apply Ev, Hv.
    + congruence.
    + congruence.
    + apply (lru_seg_frame m); [|done]. intros i Hi. destruct (Hf i (Hv i Hi)) as (-> & -> & _). done.
    + intros i Hi. by apply HL, Ev.
  - apply (index_rel_ext _ (indexed m)).
    + intros i Hi. unfold indexed. by destruct (Hf i) as (_ & _ & _ & ->); [apply Ev|].
    + apply (index_rel_frame m); auto. intros i Hi _. by destruct (Hf i Hi) as (_ & _ & -> & ->).
  - by rewrite Hn'.
  - intros i Hi. by apply He', Ev.
Qed.

(** A store to the client fields of one entry. *)
Lemma cache_inv_upd m i f :
  cache_inv m -> valid_idx m i ->
  (forall e, e_lru_prev (f e) = e_lru_prev e /\ e_lru_next (f e) = e_lru_next e /\
             e_hash_next (f e) = e_hash_next e /\ e_block (f e) = e_block e) ->
  ent_ok m (f (ent m i)) -> cache_inv (upd_ent i f m).
Proof.
  intros Hc Hi Hf He.
  apply (cache_inv_transfer m); try done; [apply n_ents_upd| |apply (ci_dev m Hc)|apply (ci_bs m Hc)|].
  - intros j Hj. rewrite ent_upd by (done || apply Hj). destruct (j =? i); [apply Hf|done].
  - intros j Hj. rewrite ent_upd by (done || apply Hj).
    destruct (Z.eqb_spec j i) as [->|]; [done|]. by apply (ci_ent m Hc).
Qed.

(** What an operation that may evict leaves alone, and what it preserves: the whole view. *)
Record view_kept (m m' : mount) : Prop := {
  vk_inv : cache_inv m';
  vk_len : n_ents m' = n_ents m;
  vk_dev : dev_n m' = dev_n m;
  vk_bs : m_block_size m' = m_block_size m;
  vk_view b : in_dev m b -> view m' b = view m b;
  vk_in_txn : m_in_txn m' = m_in_txn m;
  vk_txn : m_txn_blocks m' = m_txn_blocks m;
  vk_sb : m_sb m' = m_sb m;
  vk_sbt : m_sb_at_txn m' = m_sb_at_txn m;
  vk_j : m_j m' = m_j m
}.

Lemma view_kept_refl m : cache_inv m -> view_kept m m.
Proof. by split. Qed.
Lemma view_kept_trans m1 m2 m3 : view_kept m1 m2 -> view_kept m2 m3 -> view_kept m1 m3.
Proof.
  intros [] []. split; try done; try congruence.
  intros b Hb. rewrite vk_view1; [by apply vk_view0|]. unfold in_dev in *. congruence.
Qed.

Lemma ent_writeback_spec m i r m' :
  cache_inv m -> valid_idx m i -> indexed m i -> e_dirty (ent m i) = true ->
  ent_writeback i m = (r, m') ->
  view_kept m m' /\
  (forall j, valid_idx m j -> ent m' j = if (j =? i) && is_ok r then ent_set_dirty false (ent m j) else ent m j) /\
  (r = Ok tt -> bdev_content (m_bdev m') (e_block (ent m i)) = e_data (ent m i)) /\
  (forall b, b <> e_block (ent m i) -> bdev_content (m_bdev m') b = bdev_content (m_bdev m) b).
Proof.
  intros Hc Hi Hix Hdirty. unfold ent_writeback, st_gets, dev_write, st_mod, mbind, st_bind.
  destruct (bdev_write _ _ _) as [rw d] eqn:Ew.
  pose proof (ci_ent m Hc i Hi) as Hei.
  assert (length (e_data (ent m i)) = bdev_block_size (m_bdev m)) as Hlen
    by (rewrite <- (ci_bs m Hc); apply Hei).
  destruct (bdev_write_spec _ _ _ _ _ (ci_dev m Hc) (eo_range _ _ _ Hei Hix) Hlen (eo_bytes _ _ _ Hei) Ew)
    as [[Hwf Hcont Hn Hb] Hok].
  assert (cache_inv (set_bdev d m) /\ forall b, in_dev m b -> view (set_bdev d m) b = view m b) as [Hc1 Hv1].
  { assert (cache_inv (set_bdev d m)) as Hc1.
    { apply (cache_inv_transfer m); try done; simpl.
      - by rewrite Hb; apply (ci_bs m Hc).
      - intros j Hj. destruct (ci_ent m Hc j Hj) as [H1 H2 H3 H4 H5 H6]. split; auto.
        + intros Hne. rewrite Hn. by apply H4.
        + intros Hne Hcl. change (ent (set_bdev d m) j) with (ent m j) in *. simpl. rewrite Hcont; auto.
          intros E. assert (j = i) as ->; [|congruence].
          apply (ix_uniq m _ (ci_index m Hc)); auto. }
    split; [done|]. intros b Hbd. apply view_same; auto; [by apply (in_dev_not_none m)|].
    intros Hu. simpl. apply Hcont. intros ->. by apply (Hu i Hi). }
  destruct rw as [[]|e]; intros E; simplify_eq.
  - assert (valid_idx (set_bdev d m) i) as Hi1 by done.
    assert (forall j, valid_idx m j -> ent (upd_ent i (ent_set_dirty false) (set_bdev d m)) j =
      if (j =? i) && true then ent_set_dirty false (ent m j) else ent m j) as Hent.
    { intros j Hj. rewrite ent_upd by (done || apply Hj). by rewrite andb_true_r. }
    assert (cache_inv (upd_ent i (ent_set_dirty false) (set_bdev d m))) as Hc2.
    { apply cache_inv_upd; auto. destruct (ci_ent _ Hc1 i Hi1) as [H1 H2 H3 H4 H5 H6]. split; auto.
      intros _ _. change (ent (set_bdev d m) i) with (ent m i). simpl. by rewrite Hok. }
    split; [|split; [done|split; [by intros _; apply Hok|done]]]. split; auto.
    + exact (n_ents_upd (set_bdev d m) i _).
    + intros b Hbd. rewrite <- Hv1 by done. apply view_same; auto.
      * by apply (in_dev_not_none m).
      * apply n_ents_upd.
      * intros j Hj _. rewrite ent_upd by (done || apply Hj). by destruct (j =? i).
  - split; [by split; auto|]. split; [intros j Hj; by rewrite andb_false_r|]. split; [done|]. done.
Qed.


(** ** Dropping an entry: the block shows the device's contents again *)
Section Drop.
Variables (m : mount) (i : Z) (f : cache_ent -> cache_ent).
Hypothesis Hc : cache_inv m.
Hypothesis Hi : valid_idx m i.
Hypothesis Hix : indexed m i.
Hypothesis Hf : forall e, e_lru_prev (f e) = e_lru_prev e /\ e_lru_next (f e) = e_lru_next e /\
  e_hash_next (f e) = e_hash_next e /\ e_data (f e) = e_data e /\ e_block (f e) = CARAFS_BLOCK_NONE.
Hypothesis Hidle : forall e, ent_nohash e = ent_nohash (ent m i) -> e_pins (f e) = 0 /\ e_txn (f e) = false.
Let m1 := index_remove i m.
Let m' := upd_ent i f m1.

Lemma drop_frame : n_ents m' = n_ents m /\ m_bdev m' = m_bdev m /\ m_block_size m' = m_block_size m /\
  m_lru_head m' = m_lru_head m /\ m_lru_tail m' = m_lru_tail m /\ m_buckets m' = m_buckets m1 /\
  m_sb m' = m_sb m /\ m_in_txn m' = m_in_txn m /\ m_txn_blocks m' = m_txn_blocks m /\
  m_sb_at_txn m' = m_sb_at_txn m /\ m_j m' = m_j m.
Proof.
  destruct (index_remove_frame m i) as (Eh & Et & Ed & Ebs & El & E1 & E2 & E3 & E4 & E5).
  split; [unfold m', m1; rewrite n_ents_upd; unfold n_ents; by rewrite El|]. done.
Qed.

Lemma drop_valid j : valid_idx m' j <-> valid_idx m j.
Proof. unfold valid_idx. by rewrite (proj1 drop_frame). Qed.

Lemma drop_ent j : valid_idx m j ->
  ent_nohash (ent m1 j) = ent_nohash (ent m j) /\ ent m' j = if j =? i then f (ent m1 j) else ent m1 j.
Proof.
  intros Hj.
  destruct (index_remove_rel m (indexed m) i (ci_small m Hc) (ci_index m Hc) Hi Hix) as (_ & En & Hent).
  split; [by apply Hent|]. apply ent_upd; [|apply Hj]. unfold valid_idx, m1. by rewrite En.
Qed.

Lemma drop_other j : valid_idx m j -> j <> i ->
  ent_nohash (ent m' j) = ent_nohash (ent m j) /\ ent_user (ent m' j) = ent_user (ent m j).
Proof.
  intros Hj Hne. destruct (drop_ent j Hj) as [E ->]. rewrite (proj2 (Z.eqb_neq _ _) Hne).
  split; [done|]. apply ent_nohash_inv in E as (E1 & E2 & E3 & E4 & _ & _ & E7).
  unfold ent_user. by rewrite E1, E2, E3, E4, E7.
Qed.

Lemma drop_self : e_block (ent m' i) = CARAFS_BLOCK_NONE /\ e_pins (ent m' i) = 0 /\
  e_txn (ent m' i) = false /\ e_data (ent m' i) = e_data (ent m i) /\
  e_lru_prev (ent m' i) = e_lru_prev (ent m i) /\ e_lru_next (ent m' i) = e_lru_next (ent m i).
Proof.
  destruct (drop_ent i Hi) as [E ->]. rewrite Z.eqb_refl.
  destruct (Hf (ent m1 i)) as (F1 & F2 & _ & F4 & F5), (Hidle _ E) as [P1 P2].
  rewrite F1, F2, F4, F5, P1, P2. apply ent_nohash_inv in E. by deex.
Qed.

Lemma drop_inv : cache_inv m'.
Proof.
  destruct drop_frame as (En & Ed & Ebs & Eh & Et & Ebk & _), drop_self as (S1 & S2 & S3 & S4 & S5 & S6).
  destruct (index_remove_rel m (indexed m) i (ci_small m Hc) (ci_index m Hc) Hi Hix) as (Hx & En1 & _).
  fold m1 in Hx, En1.
  pose proof Hc as [Hs (L & [Hnd Hv Hh Ht Hseg] & HL) Hx0 Hd Hbs Hn He]. split.
  - unfold small_table. by rewrite En.
  - exists L. split; [split|]; rewrite ?Eh, ?Et; auto.
    + intros j Hj. by apply drop_valid, Hv.
    + apply (lru_seg_frame m); [|done]. intros j Hj. destruct (decide (j = i)) as [->|Hne]; [done|].
      destruct (drop_other j (Hv j Hj) Hne) as [E%ent_nohash_inv _]. by deex.
    + intros j Hj. by apply HL, drop_valid.
  - apply (index_rel_ext _ (fun j => indexed m j /\ j <> i)).
    + intros j Hj%drop_valid. unfold indexed. destruct (decide (j = i)) as [->|Hne]; [rewrite S1; tauto|].
      destruct (drop_other j Hj Hne) as [(-> & _)%ent_nohash_inv _]. tauto.
    + apply (index_rel_frame m1); [by rewrite En, En1|done| |done].
      intros j Hj [_ Hne]. assert (valid_idx m j) as Hjm by (unfold valid_idx in *; by rewrite En1 in Hj).
      destruct (drop_ent j Hjm) as [_ ->]. by rewrite (proj2 (Z.eqb_neq _ _) Hne).
  - by rewrite Ed.
  - by rewrite Ed, Ebs.
  - unfold dev_n. by rewrite Ed.
  - intros j Hj%drop_valid. rewrite Ed, Ebs. destruct (He j Hj) as [H1 H2 H3 H4 H5 H6].
    destruct (decide (j = i)) as [->|Hne].
    + split; rewrite ?S1, ?S2, ?S3, ?S4; try done; lia.
    + destruct (drop_other j Hj Hne) as [(E1 & E2 & E3 & E4 & _ & _ & E7)%ent_nohash_inv _].
      split; rewrite ?E1, ?E2, ?E3, ?E4, ?E7; done.
Qed.

Lemma drop_view b : in_dev m b ->
  view m' b = if b =? e_block (ent m i) then bdev_content (m_bdev m) b else view m b.
Proof.
  intros Hb. assert (b <> CARAFS_BLOCK_NONE) as Hbn by (by apply (in_dev_not_none m)).
  destruct drop_frame as (En & Ed & _), drop_self as (S1 & _).
  destruct (Z.eqb_spec b (e_block (ent m i))) as [->|Hbi].
  - rewrite view_uncached; [by rewrite <- Ed|apply drop_inv|done|]. intros j Hj%drop_valid.
    destruct (decide (j = i)) as [->|Hne]; [by rewrite S1|].
    destruct (drop_other j Hj Hne) as [(-> & _)%ent_nohash_inv _].
    intros E. apply Hne, (ix_uniq m _ (ci_index m Hc)); auto. unfold indexed. by rewrite E.
  - apply view_same; auto using drop_inv; [|by rewrite <- Ed]. intros j Hj Hor.
    destruct (decide (j = i)) as [->|Hne]; [exfalso; destruct Hor; congruence|].
    destruct (drop_other j Hj Hne) as [E%ent_nohash_inv _]. by deex.
Qed.
End Drop.


(** ** Finding a slot *)

Definition evictable (e : cache_ent) : Prop :=
  e_block e = CARAFS_BLOCK_NONE \/ (e_pins e = 0 /\ e_txn e = false).

Lemma lru_prev_ok m i : cache_inv m -> valid_idx m i -> idx_or_none m (e_lru_prev (ent m i)).
Proof.
  intros Hc Hi. destruct (ci_lru m Hc) as (L & Hl & HL).
  destruct (list_elem_of_split L i (HL i Hi)) as (A & B & ->).
  destruct (lru_links_split _ _ _ _ Hl) as (_ & -> & _).
  destruct (lastZ_in A CARAFS_ENT_NONE) as [->|Hin]; [by left|right].
  apply (ll_valid _ _ Hl). set_solver.
Qed.

(** The result of [ent_obtain]: a free slot, taken from an evictable entry. *)
Record slot_obtained (m : mount) (i : Z) (m' : mount) : Prop := {
  so_valid : valid_idx m i;
  so_evict : evictable (ent m i);
  so_kept : view_kept m m';
  so_free : e_block (ent m' i) = CARAFS_BLOCK_NONE;
  so_others j : valid_idx m j -> j <> i -> ent_user (ent m' j) = ent_user (ent m j)
}.

Lemma view_kept_drop m i m1 :
  cache_inv m -> valid_idx m i -> indexed m i -> e_pins (ent m i) = 0 -> e_txn (ent m i) = false ->
  e_dirty (ent m i) = false ->
  m1 = upd_ent i (ent_set_block CARAFS_BLOCK_NONE) (index_remove i m) -> slot_obtained m i m1.
Proof.
  intros Hc Hi Hix Hp Ht Hd ->. set (f := ent_set_block CARAFS_BLOCK_NONE).
  assert (forall e, e_lru_prev (f e) = e_lru_prev e /\ e_lru_next (f e) = e_lru_next e /\
    e_hash_next (f e) = e_hash_next e /\ e_data (f e) = e_data e /\ e_block (f e) = CARAFS_BLOCK_NONE) as Hf by done.
  assert (forall e, ent_nohash e = ent_nohash (ent m i) -> e_pins (f e) = 0 /\ e_txn (f e) = false) as Hidle.
  { intros e E%ent_nohash_inv. deex. simpl. split; congruence. }
  destruct (drop_frame m i f) as (En & Ed & Ebs & _ & _ & _ & E1 & E2 & E3 & E4 & E5).
  pose proof (drop_inv m i f Hc Hi Hix Hf Hidle) as Hc'.
  destruct (drop_self m i f Hc Hi Hix Hf Hidle) as (S1 & _).
  split; auto; [by right| |intros j Hj Hne; by apply drop_other].
  split; auto; [unfold dev_n; by rewrite Ed|]. intros b Hb.
  rewrite (drop_view m i f Hc Hi Hix Hf Hidle b Hb).
  destruct (Z.eqb_spec b (e_block (ent m i))) as [->|]; [|done].
  rewrite (view_cached m i) by done. symmetry. by apply (ci_ent m Hc i Hi).
Qed.

Lemma ent_obtain_from_spec fuel idx m r m' :
  cache_inv m -> idx_or_none m idx -> ent_obtain_from fuel idx m = (r, m') ->
  match r with
  | Ok i => slot_obtained m i m'
  | Err _ => view_kept m m' /\ forall j, valid_idx m j -> ent_user (ent m' j) = ent_user (ent m j)
  end.
Proof.
  intros Hc. revert idx. induction fuel as [|fuel IH]; intros idx Hidx E; simpl in E.
  { unfold st_err in E. simplify_eq. by split; [apply view_kept_refl|]. }
  destruct (Z.eqb_spec idx CARAFS_ENT_NONE) as [|Hne].
  { unfold st_err in E. simplify_eq. by split; [apply view_kept_refl|]. }
  destruct Hidx as [|Hv]; [done|]. st_simp_in E.
  destruct (Z.eqb_spec (e_block (ent m idx)) CARAFS_BLOCK_NONE) as [Eb|Eb].
  { st_simp_in E. simplify_eq. split; auto; [by left|by apply view_kept_refl]. }
  destruct ((e_pins (ent m idx) =? 0) && negb (e_txn (ent m idx))) eqn:Ep;
    [|apply (IH _ (lru_prev_ok m idx Hc Hv) E)].
  zbool. destruct (e_dirty (ent m idx)) eqn:Ed.
  - destruct (ent_writeback idx m) as [rw mw] eqn:Ew.
    rewrite st_bind_eq, Ew in E.
    destruct (ent_writeback_spec m idx rw mw Hc Hv Eb Ed Ew) as (Hk & Hent & _ & _).
    destruct rw as [[]|e]; st_simp_in E; simplify_eq.
    2:{ split; [done|]. intros j Hj. rewrite Hent by done. by rewrite andb_false_r. }
    pose proof (Hent idx Hv) as Hi. rewrite Z.eqb_refl in Hi. simpl in Hi.
    assert (valid_idx mw idx) as Hvw by (unfold valid_idx; by rewrite (vk_len _ _ Hk)).
    assert (slot_obtained mw idx (upd_ent idx (ent_set_block CARAFS_BLOCK_NONE) (index_remove idx mw))) as Hso.
    { apply view_kept_drop; auto; unfold indexed; rewrite ?Hi; simpl; auto; apply Hk. }
    destruct Hso as [_ _ Hk2 Hfree Hoth]. split; auto; [by right|by eapply view_kept_trans|].
    intros j Hj Hji. rewrite Hoth; [|unfold valid_idx; by rewrite (vk_len _ _ Hk)|done].
    rewrite Hent by done. by rewrite (proj2 (Z.eqb_neq _ _) Hji).
  - st_simp_in E. simplify_eq. by apply view_kept_drop.
Qed.


(** ** Filling a free slot *)
Section Fill.
Variables (m : mount) (i b : Z) (dirty : bool) (data : list Z).
Hypothesis Hc : cache_inv m.
Hypothesis Hi : valid_idx m i.
Hypothesis Hfree : e_block (ent m i) = CARAFS_BLOCK_NONE.
Hypothesis Hb : in_dev m b.
Hypothesis Hun : forall j, valid_idx m j -> e_block (ent m j) <> b.
Hypothesis Hlen : length data = m_block_size m.
Hypothesis Hbytes : bytes_ok data.
Hypothesis Hclean : dirty = false -> data = bdev_content (m_bdev m) b.
Let f (e : cache_ent) := ent_set_flags dirty false (ent_set_block b e).
Let m2 := upd_ent i f (upd_ent i (ent_set_data data) m).
Let m' := index_insert i m2.

Lemma fill_pre j : valid_idx m j -> ent m2 j = if j =? i then f (ent_set_data data (ent m j)) else ent m j.
Proof.
  intros Hj. unfold m2. rewrite !ent_upd by (rewrite ?valid_upd; done || apply Hj). by destruct (j =? i).
Qed.

Lemma fill_frame : n_ents m' = n_ents m /\ m_bdev m' = m_bdev m /\ m_block_size m' = m_block_size m /\
  m_lru_head m' = m_lru_head m /\ m_lru_tail m' = m_lru_tail m.
Proof.
  unfold m', index_insert, n_ents. simpl. unfold m2, upd_ent. simpl. by rewrite !length_alter.
Qed.

Lemma fill_valid2 j : valid_idx m2 j <-> valid_idx m j.
Proof. unfold m2. by rewrite !valid_upd. Qed.
Lemma fill_valid j : valid_idx m' j <-> valid_idx m j.
Proof. unfold valid_idx. by rewrite (proj1 fill_frame). Qed.

Lemma fill_ent j : valid_idx m j -> ent_nohash (ent m' j) =
  if j =? i then ent_nohash (f (ent_set_data data (ent m j))) else ent_nohash (ent m j).
Proof.
  intros Hj. unfold m', index_insert.
  change (ent_nohash (ent (upd_ent i (ent_set_hash_next (bucket m2 (bucket_of m2 (e_block (ent m2 i))))) m2) j)
    = if j =? i then ent_nohash (f (ent_set_data data (ent m j))) else ent_nohash (ent m j)).
  rewrite (ent_upd_field ent_nohash) by (rewrite ?fill_valid2; done || apply Hj).
  rewrite fill_pre by done. by destruct (j =? i).
Qed.

Lemma fill_inv : cache_inv m'.
Proof.
  destruct fill_frame as (En & Ed & Ebs & Eh & Et).
  pose proof Hc as [Hs (L & [Hnd Hv Hh Ht Hseg] & HL) Hx Hd Hbs Hn He].
  assert (b <> CARAFS_BLOCK_NONE) as Hbn by (by apply (in_dev_not_none m)). split.
  - unfold small_table. by rewrite En.
  - exists L. split; [split|]; rewrite ?Eh, ?Et; auto.
    + intros j Hj. by apply fill_valid, Hv.
    + apply (lru_seg_frame m); [|done]. intros j Hj. pose proof (fill_ent j (Hv j Hj)) as E.
      destruct (j =? i); apply ent_nohash_inv in E; by deex.
    + intros j Hj. by apply HL, fill_valid.
  - apply (index_rel_ext _ (fun j => indexed m j \/ j = i)).
    + intros j Hj%fill_valid. unfold indexed. pose proof (fill_ent j Hj) as E.
      destruct (Z.eqb_spec j i) as [->|]; apply ent_nohash_inv in E as (-> & _); simpl; tauto.
    + apply index_insert_rel.
      * unfold small_table, m2. by rewrite !n_ents_upd.
      * apply (index_rel_frame m); [unfold m2; by rewrite !n_ents_upd|done| |done].
        intros j Hj Hix. rewrite fill_pre by done.
        destruct (Z.eqb_spec j i) as [->|]; [by destruct Hix|done].
      * by apply fill_valid2.
      * intros H. by apply H.
      * intros j Hj%fill_valid2 Hix. rewrite !fill_pre, Z.eqb_refl by done. simpl.
        destruct (Z.eqb_spec j i) as [->|]; [by destruct Hix|by apply Hun].
  - by rewrite Ed.
  - by rewrite Ed, Ebs.
  - unfold dev_n. by rewrite Ed.
  - intros j Hj%fill_valid. rewrite Ed, Ebs. destruct (He j Hj) as [H1 H2 H3 H4 H5 H6].
    pose proof (fill_ent j Hj) as E.
    destruct (Z.eqb_spec j i) as [->|]; apply ent_nohash_inv in E as (E1 & E2 & E3 & E4 & _ & _ & E7);
      split; rewrite ?E1, ?E2, ?E3, ?E4, ?E7; simpl; auto; tauto || done.
Qed.

Lemma fill_user j : valid_idx m j -> ent_user (ent m' j) =
  if j =? i then (b, dirty, false, 0, data) else ent_user (ent m j).
Proof.
  intros Hj. pose proof (fill_ent j Hj) as E. destruct (eo_idle _ _ _ (ci_ent m Hc i Hi) Hfree) as [Hp _].
  destruct (Z.eqb_spec j i) as [->|]; apply ent_nohash_inv in E as (E1 & E2 & E3 & E4 & _ & _ & E7);
    unfold ent_user; rewrite E1, E2, E3, E4, E7; simpl; by rewrite ?Hp.
Qed.

Lemma fill_view b' : in_dev m b' -> view m' b' = if b' =? b then data else view m b'.
Proof.
  intros Hb'. destruct fill_frame as (En & Ed & _).
  assert (b' <> CARAFS_BLOCK_NONE) as Hbn by (by apply (in_dev_not_none m)).
  destruct (Z.eqb_spec b' b) as [->|Hne].
  - pose proof (fill_user i Hi) as E. rewrite Z.eqb_refl in E. injection E as E1 _ _ _ E5.
    rewrite (view_cached m' i b); auto using fill_inv. by apply fill_valid.
  - apply view_same; auto using fill_inv. intros j Hj Hor.
    pose proof (fill_user j Hj) as E. destruct (Z.eqb_spec j i) as [->|].
    + injection E as E1 _ _ _ _. exfalso. destruct Hor; congruence.
    + by injection E.
Qed.
End Fill.

(** ** Touching an entry: one more pin, moved to the MRU end *)

Lemma ent_core_inv e e' : ent_core e = ent_core e' ->
  e_block e = e_block e' /\ e_dirty e = e_dirty e' /\ e_txn e = e_txn e' /\ e_pins e = e_pins e' /\
  e_hash_next e = e_hash_next e' /\ e_data e = e_data e'.
Proof. unfold ent_core. intros E. injection E. intros. split_and!; done. Qed.

(** The move itself changes nothing but LRU links. *)
Lemma lru_move_frame m i :
  cache_inv m -> valid_idx m i ->
  let m' := lru_push_mru i (lru_unlink i m) in
  same_frame m m' /\ (forall j, valid_idx m j -> ent_core (ent m' j) = ent_core (ent m j)) /\
  exists L, lru_links m' L /\ forall j, valid_idx m j -> j ∈ L.
Proof.
  intros Hc Hi m'. pose proof (ci_small m Hc) as Hs. destruct (ci_lru m Hc) as (L & Hl & HL).
  destruct (lru_touch m L i Hs Hl (HL i Hi)) as (L' & Hperm & Hl').
  destruct (list_elem_of_split L i (HL i Hi)) as (A & B & ->).
  destruct (lru_links_split _ _ _ _ Hl) as (_ & Hp & Hn & _ & _).
  pose proof (lru_prev_ok m i Hc Hi) as Hpo.
  assert (idx_or_none m (e_lru_next (ent m i))) as Hno.
  { rewrite Hn. destruct (headZ_in B CARAFS_ENT_NONE) as [->|]; [by left|right].
    apply (ll_valid _ _ Hl). set_solver. }
  pose proof (lru_unlink_links m A i B Hs Hl) as Hl1. set (m1 := lru_unlink i m) in *.
  assert (forall j, valid_idx m j -> ent_core (ent m1 j) = ent_core (ent m j) /\ same_frame m m1) as H1
    by (intros j Hj; destruct (lru_unlink_spec m i j Hs Hi Hj Hpo Hno) as (_ & _ & ? & _ & _ & ?); done).
  destruct (H1 i Hi) as [_ Hf1].
  assert (n_ents m1 = n_ents m) as En by (unfold n_ents; by rewrite (sf_len _ _ Hf1)).
  assert (forall j, valid_idx m1 j <-> valid_idx m j) as Ev by (intros; unfold valid_idx; by rewrite En).
  assert (small_table m1) as Hs1 by (unfold small_table; by rewrite En).
  assert (idx_or_none m1 (m_lru_head m1)) as Hh.
  { rewrite (ll_head _ _ Hl1). destruct (headZ_in (A ++ B) CARAFS_ENT_NONE) as [->|]; [by left|right].
    by apply (ll_valid _ _ Hl1). }
  assert (i <> m_lru_head m1) as Hih.
  { rewrite (ll_head _ _ Hl1). pose proof (ll_nodup _ _ Hl) as (_ & Hd & [Hb _]%NoDup_cons)%NoDup_app.
    destruct (headZ_in (A ++ B) CARAFS_ENT_NONE) as [->|Hin]; [by apply (valid_not_none m)|].
    intros E. rewrite <- E in Hin. apply elem_of_app in Hin as [Hin|Hin]; [apply (Hd i Hin); set_solver|done]. }
  assert (forall j, valid_idx m j -> ent_core (ent m' j) = ent_core (ent m1 j) /\ same_frame m1 m') as H2.
  { intros j Hj. destruct (lru_push_spec m1 i j Hs1) as (_ & _ & ? & _ & _ & ?); try done; by apply Ev. }
  destruct (H2 i Hi) as [_ Hf2]. split; [|split].
  - destruct Hf1, Hf2. split; congruence.
  - intros j Hj. destruct (H1 j Hj) as [<- _], (H2 j Hj) as [-> _]. done.
  - exists L'. split; [done|]. intros j Hj. rewrite <- Hperm. by apply HL.
Qed.

Lemma lru_move_kept m i :
  cache_inv m -> valid_idx m i ->
  let m' := lru_push_mru i (lru_unlink i m) in
  view_kept m m' /\ forall j, valid_idx m j -> ent_user (ent m' j) = ent_user (ent m j).
Proof.
  intros Hc Hi m'. destruct (lru_move_frame m i Hc Hi) as (Hf & Hcore & L & Hl & HL). fold m' in Hf, Hcore, Hl.
  assert (n_ents m' = n_ents m) as En by (unfold n_ents; by rewrite (sf_len _ _ Hf)).
  assert (forall j, valid_idx m' j <-> valid_idx m j) as Ev by (intros; unfold valid_idx; by rewrite En).
  assert (cache_inv m') as Hc'.
  { destruct Hc as [Hs _ Hx Hd Hbs Hn He]. split.
    - unfold small_table. by rewrite En.
    - exists L. split; [done|]. intros j Hj. by apply HL, Ev.
    - apply (index_rel_ext _ (indexed m)).
      + intros j Hj%Ev. unfold indexed. by destruct (ent_core_inv _ _ (Hcore j Hj)) as (-> & _).
      + apply (index_rel_frame m); [done|apply Hf| |done]. intros j Hj _.
        destruct (ent_core_inv _ _ (Hcore j Hj)) as (-> & _ & _ & _ & -> & _). done.
    - by rewrite (sf_bdev _ _ Hf).
    - by rewrite (sf_bdev _ _ Hf), (sf_bs _ _ Hf).
    - unfold dev_n. by rewrite (sf_bdev _ _ Hf).
    - intros j Hj%Ev. rewrite (sf_bdev _ _ Hf), (sf_bs _ _ Hf). destruct (He j Hj) as [H1 H2 H3 H4 H5 H6].
      destruct (ent_core_inv _ _ (Hcore j Hj)) as (E1 & E2 & E3 & E4 & _ & E6).
      split; rewrite ?E1, ?E2, ?E3, ?E4, ?E6; done. }
  assert (forall j, valid_idx m j -> ent_user (ent m' j) = ent_user (ent m j)) as Hu.
  { intros j Hj. destruct (ent_core_inv _ _ (Hcore j Hj)) as (E1 & E2 & E3 & E4 & _ & E6).
    unfold ent_user. by rewrite E1, E2, E3, E4, E6. }
  split; [|done]. destruct Hf. split; auto; [unfold dev_n; congruence|].
  intros b Hb. apply view_same; auto; [by apply (in_dev_not_none m)| |congruence].
  intros j Hj _. by destruct (ent_user_inv _ _ (Hu j Hj)) as (-> & _ & _ & _ & ->).
Qed.


(** ** [carafs_cache_get] *)

Definition pins_ok (m : mount) : Prop := forall i, valid_idx m i -> e_pins (ent m i) < 2 ^ 32 - 1.
Definition is_zero (mode : get_mode) : bool :=
  match mode with CARAFS_GET_ZERO => true | CARAFS_GET_READ => false end.

(** The state after a successful [carafs_cache_get b mode]: entry [i] holds [b], pinned once
    more; no other client-visible entry changed but, on a miss, the one evicted for [b]; and
    the view is as before, or all zero in [b] after a fresh [CARAFS_GET_ZERO]. *)
Record got (m : mount) (b : Z) (mode : get_mode) (i : Z) (fresh : bool) (m' : mount) : Prop := {
  got_inv : cache_inv m';
  got_valid : valid_idx m i;
  got_len : n_ents m' = n_ents m;
  got_dev : dev_n m' = dev_n m;
  got_bs : m_block_size m' = m_block_size m;
  got_block : e_block (ent m' i) = b;
  got_pinned : 0 < e_pins (ent m' i);
  got_fresh : fresh = true <-> forall j, valid_idx m j -> e_block (ent m j) <> b;
  got_self : ent_user (ent m' i) =
    if fresh then (b, is_zero mode, false, 1, view m' b)
    else ent_user (ent_set_pins (e_pins (ent m i) + 1) (ent m i));
  got_victim : fresh = true -> evictable (ent m i);
  got_others j : valid_idx m j -> j <> i -> ent_user (ent m' j) = ent_user (ent m j);
  got_view b' : in_dev m b' ->
    view m' b' = if (b' =? b) && is_zero mode && fresh then zeros (m_block_size m) else view m b';
  got_frame : m_in_txn m' = m_in_txn m /\ m_txn_blocks m' = m_txn_blocks m /\ m_sb m' = m_sb m /\
    m_sb_at_txn m' = m_sb_at_txn m /\ m_j m' = m_j m
}.

Lemma got_data m b mode i fresh m' : in_dev m b -> got m b mode i fresh m' -> e_data (ent m' i) = view m' b.
Proof.
  intros Hb [Hc Hv Hl Hd _ Hbk _ _ _ _ _ _ _]. symmetry. apply view_cached; try done.
  - unfold valid_idx. by rewrite Hl.
  - apply (in_dev_not_none m'); [done|]. unfold in_dev. by rewrite Hd.
Qed.

Lemma lru_move_bdev m i : m_bdev (lru_push_mru i (lru_unlink i m)) = m_bdev m.
Proof. unfold lru_push_mru, lru_unlink. by repeat case_match. Qed.

Lemma touch_spec m i :
  cache_inv m -> pins_ok m -> valid_idx m i -> indexed m i ->
  let m' := lru_push_mru i (lru_unlink i (upd_ent i (fun e => ent_set_pins (u32 (e_pins e + 1)) e) m)) in
  view_kept m m' /\
  forall j, valid_idx m j -> ent_user (ent m' j) =
    if j =? i then ent_user (ent_set_pins (e_pins (ent m i) + 1) (ent m i)) else ent_user (ent m j).
Proof.
  intros Hc Hpo Hi Hix m'. pose proof (ci_ent m Hc i Hi) as Hei.
  assert (u32 (e_pins (ent m i) + 1) = e_pins (ent m i) + 1) as Hp
    by (apply u32_small; unfold in_u32; pose proof (eo_pins _ _ _ Hei); pose proof (Hpo i Hi); lia).
  set (f := fun e => ent_set_pins (u32 (e_pins e + 1)) e) in *. set (m1 := upd_ent i f m) in *.
  assert (cache_inv m1) as Hc1.
  { apply cache_inv_upd; auto. destruct Hei as [H1 H2 H3 H4 H5 H6]. split; auto.
    - simpl. rewrite Hp. lia.
    - intros E. by destruct Hix. }
  assert (forall j, valid_idx m j -> ent m1 j = if j =? i then f (ent m j) else ent m j) as He1
    by (intros j Hj; apply ent_upd; [done|apply Hj]).
  assert (view_kept m m1) as Hk1.
  { split; auto; [apply n_ents_upd|]. intros b Hb. apply view_same; auto.
    - by apply (in_dev_not_none m).
    - apply n_ents_upd.
    - intros j Hj _. rewrite He1 by done. by destruct (j =? i). }
  assert (valid_idx m1 i) as Hi1 by (by apply valid_upd).
  destruct (lru_move_kept m1 i Hc1 Hi1) as [Hk2 Hu].
  split; [by eapply view_kept_trans|]. intros j Hj. unfold m'. rewrite Hu by (by apply valid_upd).
  rewrite He1 by done. destruct (Z.eqb_spec j i) as [->|]; [|done]. unfold ent_user, f. simpl. by rewrite Hp.
Qed.

Lemma cache_get_hit_spec m b mode :
  cache_inv m -> pins_ok m -> in_dev m b -> index_find m b <> CARAFS_ENT_NONE ->
  exists m', carafs_cache_get b mode m = (Ok (index_find m b, false), m') /\
             got m b mode (index_find m b) false m' /\ m_bdev m' = m_bdev m.
Proof.
  intros Hc Hpo Hb Hhit. pose proof (in_dev_not_none m b Hc Hb) as Hbn.
  destruct (cached_dec m b Hc Hbn) as [(_ & Hv & E)|[E _]]; [|done].
  set (i := index_find m b) in *. assert (indexed m i) as Hix by (unfold indexed; by rewrite E).
  unfold carafs_cache_get. st_simp. unfold in_dev, dev_n in Hb. fold i.
  rewrite (proj2 (Z.leb_gt _ _)) by lia. rewrite (proj2 (Z.eqb_neq _ _) Hhit). cbn [negb]. st_simp.
  eexists. split; [done|]. split; [|by rewrite lru_move_bdev].
  destruct (touch_spec m i Hc Hpo Hv Hix) as [Hk Hu]. set (m' := lru_push_mru _ _) in *.
  pose proof (Hu i Hv) as Hui. rewrite Z.eqb_refl in Hui. destruct (ent_user_inv _ _ Hui) as (E1 & _ & _ & E4 & _).
  cbn [ent_set_pins e_block e_pins] in E1, E4. destruct Hk as [K1 K2 K3 K4 K5 K6 K7 K8 K9 K10].
  split; try done.
  - congruence.
  - rewrite E4. pose proof (eo_pins _ _ _ (ci_ent m Hc i Hv)). lia.
  - split; [done|]. intros Hn. by destruct (Hn i Hv).
  - intros j Hj Hne. rewrite Hu by done. by rewrite (proj2 (Z.eqb_neq _ _) Hne).
  - intros b' Hb'. rewrite andb_false_r. by apply K5.
Qed.


(** A device that shows the same contents shows the same view. *)
Lemma same_dev_kept m d :
  cache_inv m -> same_dev bdev_wf (m_bdev m) d -> view_kept m (set_bdev d m).
Proof.
  intros Hc [Hwf Hcont Hn Hb]. assert (cache_inv (set_bdev d m)) as Hc'.
  { apply (cache_inv_transfer m); try done; simpl; try (by rewrite Hb; apply (ci_bs m Hc)).
    intros i Hi. destruct (ci_ent m Hc i Hi) as [H1 H2 H3 H4 H5 H6].
    split; rewrite ?Hn, ?Hcont; done. }
  split; try done. intros b Hbd. apply view_same; try done. by apply (in_dev_not_none m).
Qed.

Lemma dev_read_spec m b r m' :
  cache_inv m -> in_dev m b -> dev_read b m = (r, m') ->
  view_kept m m' /\ (exists d, m' = set_bdev d m) /\
  (forall data, r = Ok data -> data = bdev_content (m_bdev m') b).
Proof.
  intros Hc Hb E. unfold dev_read in E. destruct (bdev_read _ b) as [rr d] eqn:Er. simplify_eq.
  destruct (bdev_read_spec _ _ _ _ (ci_dev m Hc) Hb Er) as [Hs Hok].
  split; [by apply same_dev_kept|]. split; [by eexists|]. intros data E. simpl.
  rewrite (sd_content _ _ _ Hs). by apply Hok.
Qed.

(** The slot holds block [b] with [data], not yet pinned. *)
Record slot_filled (m : mount) (i b : Z) (mode : get_mode) (data : list Z) (m2 : mount) : Prop := {
  sl_inv : cache_inv m2;
  sl_len : n_ents m2 = n_ents m;
  sl_dev : dev_n m2 = dev_n m;
  sl_bs : m_block_size m2 = m_block_size m;
  sl_self : ent_user (ent m2 i) = (b, is_zero mode, false, 0, data);
  sl_others j : valid_idx m j -> j <> i -> ent_user (ent m2 j) = ent_user (ent m j);
  sl_view b' : in_dev m b' -> view m2 b' = if b' =? b then data else view m b';
  sl_frame : m_in_txn m2 = m_in_txn m /\ m_txn_blocks m2 = m_txn_blocks m /\ m_sb m2 = m_sb m /\
    m_sb_at_txn m2 = m_sb_at_txn m /\ m_j m2 = m_j m
}.

Lemma slot_fill m m1 i b mode data :
  cache_inv m -> in_dev m b -> (forall j, valid_idx m j -> e_block (ent m j) <> b) ->
  slot_obtained m i m1 -> length data = m_block_size m1 -> bytes_ok data ->
  (is_zero mode = false -> data = bdev_content (m_bdev m1) b) ->
  slot_filled m i b mode data
    (index_insert i (upd_ent i (fun e => ent_set_flags (is_zero mode) false (ent_set_block b e))
       (upd_ent i (ent_set_data data) m1))).
Proof.
  intros Hc Hb Hun [Hv Hev Hk Hfree Hoth] Hlen Hbytes Hcl.
  pose proof (vk_inv _ _ Hk) as Hc1. pose proof (vk_len _ _ Hk) as En.
  assert (forall j, valid_idx m1 j <-> valid_idx m j) as Ev by (intros; unfold valid_idx; by rewrite En).
  assert (valid_idx m1 i) as Hv1 by (by apply Ev).
  assert (in_dev m1 b) as Hb1 by (unfold in_dev; by rewrite (vk_dev _ _ Hk)).
  assert (b <> CARAFS_BLOCK_NONE) as Hbn by (by apply (in_dev_not_none m)).
  assert (forall j, valid_idx m1 j -> e_block (ent m1 j) <> b) as Hun1.
  { intros j Hj. destruct (decide (j = i)) as [->|Hne]; [congruence|].
    destruct (ent_user_inv _ _ (Hoth j (proj1 (Ev j) Hj) Hne)) as (-> & _). by apply Hun, Ev. }
  pose proof (fill_inv m1 i b (is_zero mode) data Hc1 Hv1 Hfree Hb1 Hun1 Hlen Hbytes Hcl) as Hc2.
  pose proof (fill_frame m1 i b (is_zero mode) data) as (En2 & Ed2 & Ebs2 & _).
  pose proof (fill_user m1 i b (is_zero mode) data Hc1 Hv1 Hfree) as Hu2.
  pose proof (fill_view m1 i b (is_zero mode) data Hc1 Hv1 Hfree Hb1 Hun1 Hlen Hbytes Hcl) as Hview2.
  destruct Hk as [_ _ K3 K4 K5 K6 K7 K8 K9 K10].
  split; [done|by rewrite En2|exact K3|by rewrite Ebs2| | | |done].
  - rewrite Hu2, Z.eqb_refl by done. done.
  - intros j Hj Hne. rewrite Hu2, (proj2 (Z.eqb_neq _ _) Hne) by (by apply Ev). by apply Hoth.
  - intros b' Hb'. rewrite Hview2 by (unfold in_dev in *; congruence). destruct (b' =? b); [done|by apply K5].
Qed.

Lemma slot_filled_got m i b mode data m2 :
  cache_inv m -> pins_ok m -> in_dev m b -> valid_idx m i -> evictable (ent m i) ->
  (forall j, valid_idx m j -> e_block (ent m j) <> b) -> slot_filled m i b mode data m2 ->
  data = (if is_zero mode then zeros (m_block_size m) else view m b) ->
  got m b mode i true
    (lru_push_mru i (lru_unlink i (upd_ent i (fun e => ent_set_pins (u32 (e_pins e + 1)) e) m2))).
Proof.
  intros Hc Hpo Hb Hv Hev Hun [Hc2 En Edn Ebs Hself Hoth Hview (F1 & F2 & F3 & F4 & F5)] Hdata.
  assert (forall j, valid_idx m2 j <-> valid_idx m j) as Ev by (intros; unfold valid_idx; by rewrite En).
  assert (e_block (ent m2 i) = b /\ e_pins (ent m2 i) = 0 /\ ent_user (ent_set_pins (e_pins (ent m2 i) + 1) (ent m2 i))
    = (b, is_zero mode, false, 1, data)) as (Eb & Ep & Eu).
  { clear -Hself. unfold ent_user in *. destruct (ent m2 i). simpl in *. by simplify_eq. }
  assert (pins_ok m2) as Hpo2.
  { intros j Hj%Ev. destruct (decide (j = i)) as [->|Hne]; [lia|].
    destruct (ent_user_inv _ _ (Hoth j Hj Hne)) as (_ & _ & _ & -> & _). by apply Hpo. }
  assert (indexed m2 i) as Hix by (unfold indexed; rewrite Eb; by apply (in_dev_not_none m)).
  destruct (touch_spec m2 i Hc2 Hpo2 (proj2 (Ev i) Hv) Hix) as [[K1 K2 K3 K4 K5 K6 K7 K8 K9 K10] Hu].
  assert (forall b', in_dev m b' -> in_dev m2 b') as Hin by (intros b'; unfold in_dev; by rewrite Edn).
  pose proof (Hu i (proj2 (Ev i) Hv)) as Hui. rewrite Z.eqb_refl, Eu in Hui.
  match goal with |- got _ _ _ _ _ ?x => generalize dependent x end. intros m3 K1 K2 K3 K4 K5 K6 K7 K8 K9 K10 Hu Hui.
  assert (view m3 b = data) as Evb by (rewrite K5, Hview, Z.eqb_refl; auto).
  split; try congruence; try done.
  - clear -Hui. unfold ent_user in Hui. by simplify_eq.
  - clear -Hui. unfold ent_user in Hui. injection Hui as _ _ _ -> _. lia.
  - intros j Hj Hne. rewrite Hu by (by apply Ev). rewrite (proj2 (Z.eqb_neq _ _) Hne). by apply Hoth.
  - intros b' Hb'. rewrite K5, Hview by auto. destruct (Z.eqb_spec b' b) as [->|]; [|done].
    rewrite Hdata. by destruct mode.
  - split_and!; congruence.
Qed.


(** Every entry is untouched, or it was evictable and is now empty. *)
Definition held_same (m m' : mount) : Prop := forall j, valid_idx m j ->
  ent_user (ent m' j) = ent_user (ent m j) \/ (evictable (ent m j) /\ e_block (ent m' j) = CARAFS_BLOCK_NONE).

Lemma cache_fill_spec m b mode r m' :
  cache_inv m -> in_dev m b -> (forall j, valid_idx m j -> e_block (ent m j) <> b) ->
  cache_fill b mode m = (r, m') ->
  match r with
  | Ok i => valid_idx m i /\ evictable (ent m i) /\
      exists data, slot_filled m i b mode data m' /\
        data = if is_zero mode then zeros (m_block_size m) else view m b
  | Err _ => view_kept m m' /\ held_same m m'
  end.
Proof.
  intros Hc Hb Hun E. pose proof (in_dev_not_none m b Hc Hb) as Hbn.
  unfold cache_fill in E. rewrite st_bind_eq in E.
  destruct (ent_obtain m) as [ro m1] eqn:Eo. unfold ent_obtain in Eo.
  assert (idx_or_none m (m_lru_tail m)) as Htail.
  { destruct (ci_lru m Hc) as (L & Hl & HL). rewrite (ll_tail _ _ Hl).
    destruct (lastZ_in L CARAFS_ENT_NONE) as [->|Hin]; [by left|right; by apply (ll_valid _ _ Hl)]. }
  pose proof (ent_obtain_from_spec _ _ _ _ _ Hc Htail Eo) as Ho.
  destruct ro as [i|e]; [|simplify_eq; destruct Ho as [Hk Hu]; split; [done|]; intros j Hj; left; by apply Hu].
  pose proof Ho as [Hv Hev Hk Hfree Hoth]. destruct mode.
  - rewrite st_bind_assoc, st_bind_eq in E. destruct (dev_read b m1) as [rr m2] eqn:Er.
    assert (in_dev m1 b) as Hb1 by (unfold in_dev; by rewrite (vk_dev _ _ Hk)).
    destruct (dev_read_spec m1 b rr m2 (vk_inv _ _ Hk) Hb1 Er) as (Hk2 & [d ->] & Hok).
    assert (slot_obtained m i (set_bdev d m1)) as Ho2 by (split; auto; by eapply view_kept_trans).
    destruct rr as [data|e].
    + specialize (Hok data eq_refl). st_simp_in E. simplify_eq. split; [done|split; [done|]].
      assert (in_dev (set_bdev d m1) b) as Hb2 by (unfold in_dev; rewrite (vk_dev _ _ Hk2); exact Hb1).
      destruct (bdev_wf_content _ b (ci_dev _ (vk_inv _ _ Hk2)) Hb2) as [H1 H2].
      eexists. split; [apply (slot_fill m (set_bdev d m1)); auto|].
      * rewrite H1. symmetry. apply (ci_bs _ (vk_inv _ _ Hk2)).
      * simpl. rewrite <- (vk_view _ _ Hk b Hb), <- (vk_view _ _ Hk2 b Hb1).
        symmetry. apply view_uncached; [apply Hk2|done|]. intros j Hj Ej.
        change (ent (set_bdev d m1) j) with (ent m1 j) in Ej.
        destruct (decide (j = i)) as [->|Hne]; [congruence|].
        assert (valid_idx m j) as Hjm by (unfold valid_idx in *; rewrite <- (vk_len _ _ Hk); exact Hj).
        destruct (ent_user_inv _ _ (Hoth j Hjm Hne)) as (Eb & _). apply (Hun j Hjm). congruence.
    + simplify_eq. split; [by eapply view_kept_trans|]. intros j Hj.
      destruct (decide (j = i)) as [->|Hji]; [by right|left; by apply (Hoth j Hj)].
  - st_simp_in E. simplify_eq. split; [done|split; [done|]]. eexists.
    split; [apply (slot_fill m m1); auto with cara; [apply length_replicate|done]|].
    simpl. by rewrite (vk_bs _ _ Hk).
Qed.

Lemma cache_get_spec m b mode r m' :
  cache_inv m -> pins_ok m -> 0 <= b -> carafs_cache_get b mode m = (r, m') ->
  match r with
  | Ok (i, fresh) => in_dev m b /\ got m b mode i fresh m'
  | Err _ => view_kept m m' /\ held_same m m'
  end.
Proof.
  intros Hc Hpo Hb0 E. destruct (Z.leb_spec (bdev_n_blocks (m_bdev m)) b) as [Hge|Hlt].
  { unfold carafs_cache_get in E. st_simp_in E. rewrite (proj2 (Z.leb_le _ _) Hge) in E.
    unfold st_err in E. simplify_eq.
    split; [by apply view_kept_refl|by left]. }
  assert (in_dev m b) as Hb by (split; done). pose proof (in_dev_not_none m b Hc Hb) as Hbn.
  destruct (cached_dec m b Hc Hbn) as [(Hhit & _)|[Hmiss Hun]].
  { destruct (cache_get_hit_spec m b mode Hc Hpo Hb Hhit) as (m2 & E2 & Hg & _).
    rewrite E2 in E. simplify_eq. done. }
  unfold carafs_cache_get in E. st_simp_in E. rewrite (proj2 (Z.leb_gt _ _) Hlt), Hmiss in E.
  cbn [negb] in E. rewrite Z.eqb_refl in E. cbn [negb] in E. rewrite st_bind_assoc, st_bind_eq in E.
  destruct (cache_fill b mode m) as [rf m1] eqn:Ef.
  pose proof (cache_fill_spec m b mode rf m1 Hc Hb Hun Ef) as Hf.
  destruct rf as [i|e]; [|simplify_eq; done]. destruct Hf as (Hv & Hev & data & Hsl & Hdata).
  st_simp_in E. simplify_eq. split; [done|].
  by eapply (slot_filled_got m i b mode).
Qed.


(** * The other operations *)

(** [view_kept] for a change to the flags or pins of one entry. *)
Lemma upd_kept m i f :
  cache_inv m -> valid_idx m i ->
  (forall e, e_lru_prev (f e) = e_lru_prev e /\ e_lru_next (f e) = e_lru_next e /\
             e_hash_next (f e) = e_hash_next e /\ e_block (f e) = e_block e /\ e_data (f e) = e_data e) ->
  ent_ok m (f (ent m i)) -> view_kept m (upd_ent i f m).
Proof.
  intros Hc Hi Hf He. assert (cache_inv (upd_ent i f m)) as Hc'.
  { apply cache_inv_upd; auto. intros e. destruct (Hf e) as (-> & -> & -> & -> & _). done. }
  split; try done; [apply n_ents_upd|]. intros b Hb. apply view_same; try done.
  - by apply (in_dev_not_none m).
  - apply n_ents_upd.
  - intros j Hj _. rewrite ent_upd by (done || apply Hj). destruct (j =? i); [|done].
    by destruct (Hf (ent m j)) as (_ & _ & _ & -> & ->).
Qed.

Lemma cache_put_kept m b : cache_inv m -> 0 <= b -> view_kept m (carafs_cache_put b m).
Proof.
  intros Hc Hb. unfold carafs_cache_put.
  destruct (negb (index_find m b =? CARAFS_ENT_NONE) && (0 <? e_pins (ent m (index_find m b)))) eqn:E;
    [|by apply view_kept_refl]. zbool.
  destruct (index_find_spec m (indexed m) b (ci_small m Hc) (ci_index m Hc)) as [[Hn _]|(Hv & Hix & _)]; [done|].
  apply upd_kept; try done. destruct (ci_ent m Hc _ Hv) as [H1 H2 H3 H4 H5 H6].
  split; try done; simpl; first [lia|intros En; by destruct Hix].
Qed.

Lemma cache_dirty_kept m b : cache_inv m -> view_kept m (carafs_cache_dirty b m).
Proof.
  intros Hc. unfold carafs_cache_dirty.
  destruct (negb (index_find m b =? CARAFS_ENT_NONE)) eqn:E; [|by apply view_kept_refl]. zbool.
  destruct (index_find_spec m (indexed m) b (ci_small m Hc) (ci_index m Hc)) as [[Hn _]|(Hv & Hix & _)]; [done|].
  apply upd_kept; try done. destruct (ci_ent m Hc _ Hv) as [H1 H2 H3 H4 H5 H6]. by split.
Qed.

(** Invalidation exposes the device's copy, and only of an idle block. *)
Lemma cache_invalidate_spec m b :
  cache_inv m -> in_dev m b ->
  let m' := carafs_cache_invalidate b m in
  cache_inv m' /\ n_ents m' = n_ents m /\ m_bdev m' = m_bdev m /\ held_same m m' /\
  (forall b', in_dev m b' -> b' <> b -> view m' b' = view m b') /\
  (view m' b = view m b \/ view m' b = bdev_content (m_bdev m) b) /\
  (index_find m b = CARAFS_ENT_NONE \/ evictable (ent m (index_find m b)) ->
     forall j, valid_idx m' j -> e_block (ent m' j) <> b).
Proof.
  intros Hc Hb m'. pose proof (in_dev_not_none m b Hc Hb) as Hbn. unfold m', carafs_cache_invalidate.
  destruct (cached_dec m b Hc Hbn) as [(Hne & Hv & E)|[-> Hun]].
  2:{ rewrite Z.eqb_refl. split_and!; auto. by left. }
  rewrite (proj2 (Z.eqb_neq _ _) Hne). set (i := index_find m b) in *.
  assert (indexed m i) as Hix by (unfold indexed; by rewrite E).
  destruct ((0 <? e_pins (ent m i)) || e_txn (ent m i)) eqn:Eh.
  { split_and!; auto; [by left|]. intros [?|[Hev|[Hp Ht]]]; [done| |]; exfalso.
    - congruence.
    - rewrite Hp, Ht in Eh. done. }
  zbool. assert (e_pins (ent m i) = 0) as Hp by (pose proof (eo_pins _ _ _ (ci_ent m Hc i Hv)); lia).
  set (f := fun e => ent_set_flags false false (ent_set_block CARAFS_BLOCK_NONE e)).
  assert (forall e, e_lru_prev (f e) = e_lru_prev e /\ e_lru_next (f e) = e_lru_next e /\
    e_hash_next (f e) = e_hash_next e /\ e_data (f e) = e_data e /\ e_block (f e) = CARAFS_BLOCK_NONE) as Hf by done.
  assert (forall e, ent_nohash e = ent_nohash (ent m i) -> e_pins (f e) = 0 /\ e_txn (f e) = false) as Hidle.
  { intros e Ee%ent_nohash_inv. deex. split; [simpl; congruence|done]. }
  destruct (drop_frame m i f) as (En & Ed & _). pose proof (drop_inv m i f Hc Hv Hix Hf Hidle) as Hc'.
  pose proof (drop_view m i f Hc Hv Hix Hf Hidle) as Hview.
  destruct (drop_self m i f Hc Hv Hix Hf Hidle) as (Hs & _).
  split_and!; auto.
  - intros j Hj. destruct (decide (j = i)) as [->|Hji]; [right; split; [by right|done]|].
    left. by apply (drop_other m i f Hc Hv Hix).
  - intros b' Hb' Hne'. rewrite Hview by done. rewrite (proj2 (Z.eqb_neq _ _)); [done|congruence].
  - right. rewrite Hview by done. by rewrite E, Z.eqb_refl.
  - intros _ j Hj. apply (drop_valid m i f) in Hj. destruct (decide (j = i)) as [->|Hji]; [congruence|].
    destruct (drop_other m i f Hc Hv Hix j Hj Hji) as [(-> & _)%ent_nohash_inv _].
    intros Ej. apply Hji, (ix_uniq m _ (ci_index m Hc)); auto; [unfold indexed; by rewrite Ej|congruence].
Qed.

(** ** [carafs_cache_sync] *)

Lemma sync_ents_spec n i m r m' :
  cache_inv m -> 0 <= i -> i + Z.of_nat n <= n_ents m -> sync_ents n i m = (r, m') ->
  view_kept m m' /\
  (forall j, valid_idx m j -> ent m' j = ent m j \/ ent m' j = ent_set_dirty false (ent m j)) /\
  (r = Ok tt -> forall j, i <= j < i + Z.of_nat n -> indexed m j -> e_dirty (ent m' j) = false).
Proof.
  revert i m r m'. induction n as [|n IH]; intros i m r m' Hc Hi Hn E; simpl in E.
  { st_simp_in E. simplify_eq. split; [by apply view_kept_refl|]. split; [by left|]. lia. }
  st_simp_in E. rewrite st_bind_eq in E.
  assert (valid_idx m i) as Hvi by (unfold valid_idx; lia).
  destruct (negb (e_block (ent m i) =? CARAFS_BLOCK_NONE) && e_dirty (ent m i)) eqn:Ed.
  - zbool. destruct (ent_writeback i m) as [rw m1] eqn:Ew.
    destruct (ent_writeback_spec m i rw m1) as (Hk & Hent & _); auto.
    destruct rw as [[]|e]; simplify_eq.
    2:{ split; [done|]. split; [|done]. intros j Hj. left. rewrite Hent by done. by rewrite andb_false_r. }
    pose proof (vk_len _ _ Hk) as En1.
    destruct (IH (i + 1) m1 r m') as (Hk2 & Hent2 & Hok); [apply (vk_inv _ _ Hk)|lia|lia|done|].
    assert (forall j, valid_idx m j -> valid_idx m1 j) as Ev by (intros j; unfold valid_idx; by rewrite (vk_len _ _ Hk)).
    split; [by eapply view_kept_trans|]. split.
    + intros j Hj. specialize (Hent j Hj). destruct (Hent2 j (Ev j Hj)) as [->| ->]; rewrite Hent;
        destruct (_ && _); auto.
    + intros -> j Hj Hix. assert (valid_idx m j) as Hvj by (unfold valid_idx in *; lia).
      specialize (Hent j Hvj). destruct (decide (j = i)) as [->|Hne].
      * rewrite Z.eqb_refl in Hent. simpl in Hent.
        by destruct (Hent2 i (Ev i Hvi)) as [->| ->]; rewrite Hent.
      * apply Hok; [done|lia|]. unfold indexed. rewrite Hent. by rewrite (proj2 (Z.eqb_neq _ _) Hne).
  - st_simp_in E. destruct (IH (i + 1) m r m') as (Hk & Hent & Hok); [done|lia|lia|done|].
    split; [done|]. split; [done|]. intros -> j Hj Hix. destruct (decide (j = i)) as [->|Hne].
    + apply andb_false_iff in Ed as [Ed|Ed]; zbool; [by destruct Hix|].
      destruct (Hent i Hvi) as [->| ->]; done.
    + apply Hok; [done|lia|done].
Qed.

Lemma cache_sync_spec m r m' :
  cache_inv m -> carafs_cache_sync m = (r, m') ->
  view_kept m m' /\
  (forall j, valid_idx m j -> ent m' j = ent m j \/ ent m' j = ent_set_dirty false (ent m j)) /\
  (r = Ok tt -> forall b, in_dev m b -> bdev_content (m_bdev m') b = view m b).
Proof.
  intros Hc E. unfold carafs_cache_sync in E. st_simp_in E. rewrite st_bind_eq in E.
  destruct (sync_ents _ 0 m) as [rs m1] eqn:Es.
  destruct (sync_ents_spec (length (m_ents m)) 0 m rs m1 Hc (Z.le_refl 0) ltac:(unfold n_ents; lia) Es) as (Hk & Hent & Hok).
  destruct rs as [[]|e]; [|by simplify_eq]. unfold dev_flush in E.
  destruct (bdev_flush (m_bdev m1)) as [rf d] eqn:Ef. simplify_eq.
  pose proof (bdev_flush_spec _ _ _ (ci_dev _ (vk_inv _ _ Hk)) Ef) as Hs.
  pose proof (same_dev_kept m1 d (vk_inv _ _ Hk) Hs) as Hk2. pose proof (view_kept_trans _ _ _ Hk Hk2) as Hk3.
  split; [done|]. split; [done|]. intros _ b Hb. pose proof (in_dev_not_none m b Hc Hb) as Hbn.
  rewrite <- (vk_view _ _ Hk3 b Hb). pose proof (vk_inv _ _ Hk3) as Hc3.
  destruct (cached_dec _ b Hc3 Hbn) as [(_ & Hv & Eb)|[_ Hun]]; [|symmetry; by apply view_uncached].
  rewrite (view_cached _ _ b Hc3 Hv Eb Hbn). set (i := index_find _ b) in *. rewrite <- Eb.
  assert (valid_idx m i) as Hvm by (unfold valid_idx in *; by rewrite (vk_len _ _ Hk3) in Hv).
  symmetry. apply (ci_ent _ Hc3 i Hv); [by rewrite Eb|]. apply (Hok eq_refl i).
  - unfold valid_idx, n_ents in Hvm. lia.
  - unfold indexed. change (ent (set_bdev d m1) i) with (ent m1 i) in Eb.
    destruct (Hent i Hvm) as [E1|E1]; rewrite E1 in Eb; simpl in Eb; congruence.
Qed.

(** ** A client's store through the data pointer of a pinned block *)

(** The bytes are replaced, then [carafs_cache_dirty] is called for the block. *)
Definition cache_store (b : Z) (data : list Z) (m : mount) : mount :=
  carafs_cache_dirty b (upd_ent (index_find m b) (ent_set_data data) m).

Lemma index_find_upd m i f b :
  (forall e, e_block (f e) = e_block e /\ e_hash_next (f e) = e_hash_next e) ->
  index_find (upd_ent i f m) b = index_find m b.
Proof.
  intros Hf.
  assert (forall k, e_block (ent (upd_ent i f m) k) = e_block (ent m k) /\
                    e_hash_next (ent (upd_ent i f m) k) = e_hash_next (ent m k)) as H.
  { intros k. unfold ent, upd_ent. simpl. rewrite !nth_z_nth, !nth_lookup.
    destruct (decide (Z.to_nat i = Z.to_nat k)) as [->|Hne];
      [rewrite list_lookup_alter_eq|by rewrite list_lookup_alter_ne].
    destruct (m_ents m !! Z.to_nat k); simpl; [apply Hf|done]. }
  unfold index_find. rewrite length_ents_upd.
  change (bucket (upd_ent i f m) (bucket_of (upd_ent i f m) b)) with (bucket m (bucket_of m b)).
  generalize (bucket m (bucket_of m b)). induction (S (length (m_ents m))) as [|fuel IH]; intros j; [done|]. simpl.
  destruct (H j) as [-> ->]. by rewrite IH.
Qed.
Lemma index_find_upd_data m i d b : index_find (upd_ent i (ent_set_data d) m) b = index_find m b.
Proof. by apply index_find_upd. Qed.
Lemma upd_ent_idem m i f : (forall e, f (f e) = f e) -> upd_ent i f (upd_ent i f m) = upd_ent i f m.
Proof.
  intros Hf. unfold upd_ent, set_ents. simpl. f_equal. apply list_eq. intros k.
  destruct (decide (Z.to_nat i = k)) as [->|Hne].
  - rewrite !list_lookup_alter_eq. destruct (m_ents m !! k); simpl; [by rewrite Hf|done].
  - by rewrite !list_lookup_alter_ne.
Qed.

Lemma cache_store_spec m b data :
  cache_inv m -> in_dev m b -> index_find m b <> CARAFS_ENT_NONE ->
  length data = m_block_size m -> bytes_ok data ->
  let m' := cache_store b data m in
  cache_inv m' /\ n_ents m' = n_ents m /\ m_bdev m' = m_bdev m /\
  (forall j, valid_idx m j -> ent m' j = if j =? index_find m b
     then ent_set_dirty true (ent_set_data data (ent m j)) else ent m j) /\
  (forall b', in_dev m b' -> view m' b' = if b' =? b then data else view m b').
Proof.
  intros Hc Hb Hne Hl Hby m'. pose proof (in_dev_not_none m b Hc Hb) as Hbn.
  destruct (cached_dec m b Hc Hbn) as [(_ & Hv & E)|[? _]]; [|done].
  unfold m', cache_store, carafs_cache_dirty. rewrite index_find_upd_data. set (i := index_find m b) in *.
  rewrite (proj2 (Z.eqb_neq _ _) Hne). cbn [negb].
  set (m1 := upd_ent i (ent_set_data data) m).
  assert (forall j, valid_idx m j -> ent (upd_ent i (ent_set_dirty true) m1) j =
    if j =? i then ent_set_dirty true (ent_set_data data (ent m j)) else ent m j) as Hent.
  { intros j Hj. rewrite ent_upd by (by apply valid_upd || apply Hj). unfold m1.
    rewrite ent_upd by (done || apply Hj). by destruct (j =? i). }
  assert (n_ents (upd_ent i (ent_set_dirty true) m1) = n_ents m) as En by (unfold m1; by rewrite !n_ents_upd).
  assert (cache_inv (upd_ent i (ent_set_dirty true) m1)) as Hc'.
  { apply (cache_inv_transfer m); try done; try apply Hc.
    - intros j Hj. rewrite Hent by done. by destruct (j =? i).
    - intros j Hj. rewrite Hent by done. destruct (Z.eqb_spec j i) as [->|]; [|by apply (ci_ent m Hc)].
      destruct (ci_ent m Hc i Hv) as [H1 H2 H3 H4 H5 H6]. by split. }
  split_and!; try done. intros b' Hb'. pose proof (in_dev_not_none m b' Hc Hb') as Hbn'.
  destruct (Z.eqb_spec b' b) as [->|Hd].
  - rewrite (view_cached _ i); auto; try (unfold valid_idx; by rewrite En);
      rewrite Hent, Z.eqb_refl by done; done.
  - apply view_same; auto. intros j Hj. rewrite Hent by done.
    destruct (Z.eqb_spec j i) as [->|]; [|done]. simpl. rewrite E. intros [?|?]; congruence.
Qed.

(** The index is a function of the entries and the buckets. *)
Lemma index_find_frame m m' b :
  m_ents m' = m_ents m -> m_buckets m' = m_buckets m -> index_find m' b = index_find m b.
Proof.
  intros E1 E2. assert (forall i, ent m' i = ent m i) as Ee by (intros i; unfold ent; by rewrite E1).
  unfold index_find, bucket, bucket_of, n_buckets. rewrite E1, E2. generalize (nth (Z.to_nat (Z.land
    (u32 (Z.shiftr (u64 (b * 0x9E3779B97F4A7C15)) 32)) (u32 (Z.of_nat (length (m_buckets m)) - 1)))) (m_buckets m) CARAFS_ENT_NONE).
  induction (S (length (m_ents m))) as [|fuel IH]; intros j; [done|]. simpl. rewrite Ee. by rewrite IH.
Qed.

(** The parts of the mount the cache does not look at. *)
Definition cache_frame (m m' : mount) : Prop :=
  m_ents m' = m_ents m /\ m_buckets m' = m_buckets m /\ m_lru_head m' = m_lru_head m /\
  m_lru_tail m' = m_lru_tail m /\ m_bdev m' = m_bdev m /\ m_block_size m' = m_block_size m.
Lemma cache_inv_frame m m' : cache_frame m m' -> cache_inv m -> cache_inv m'.
Proof.
  intros (E1 & E2 & E3 & E4 & E5 & E6) Hc. assert (forall i, ent m' i = ent m i) as Ee by (intros; unfold ent; by rewrite E1).
  apply (cache_inv_transfer m); try done; unfold n_ents, dev_n; rewrite ?E1, ?E5, ?E6; try done; try apply Hc.
  - intros i _. by rewrite Ee.
  - intros i Hi. rewrite Ee. by apply Hc.
Qed.
Lemma view_frame m m' b : cache_frame m m' -> view m' b = view m b.
Proof.
  intros (E1 & E2 & E3 & E4 & E5 & E6). unfold view. rewrite (index_find_frame m m' b E1 E2).
  unfold ent. by rewrite E1, E5.
Qed.

Lemma cache_frame_txn m on bs : cache_frame m (set_txn on bs m).
Proof. by split_and!. Qed.
Lemma cache_frame_sb m s : cache_frame m (set_sb s m).
Proof. by split_and!. Qed.

(** ** [cache_init] *)

Lemma lru_seg_iota m n k p :
  (forall i, valid_idx m i -> e_lru_prev (ent m i) = (if i =? 0 then CARAFS_ENT_NONE else i - 1) /\
     e_lru_next (ent m i) = if i =? n_ents m - 1 then CARAFS_ENT_NONE else i + 1) ->
  0 <= k -> k + Z.of_nat n = n_ents m -> p = (if k =? 0 then CARAFS_ENT_NONE else k - 1) ->
  lru_seg m p (seqZ k (Z.of_nat n)) CARAFS_ENT_NONE.
Proof.
  intros He. revert k p. induction n as [|n IH]; intros k p Hk Hn Hp; [done|].
  rewrite Nat2Z.inj_succ, seqZ_cons by lia. simpl.
  destruct (He k) as [-> ->]; [unfold valid_idx; lia|]. split_and!; [done| |].
  - destruct n as [|n]; [simpl; by rewrite (proj2 (Z.eqb_eq _ _)) by lia|].
    rewrite (proj2 (Z.eqb_neq _ _)) by lia. rewrite Z.pred_succ, Nat2Z.inj_succ, seqZ_cons by lia. simpl. lia.
  - rewrite Z.pred_succ. replace (Z.succ k) with (k + 1) by lia. apply IH; try lia.
    rewrite (proj2 (Z.eqb_neq _ _)) by lia. lia.
Qed.

Lemma lastZ_seqZ n k d : lastZ (seqZ k (Z.of_nat (S n))) d = k + Z.of_nat n.
Proof.
  revert k d. induction n as [|n IH]; intros k d.
  - simpl. lia.
  - rewrite (Nat2Z.inj_succ (S n)), seqZ_cons by lia. cbn [lastZ]. rewrite Z.pred_succ.
    rewrite IH. lia.
Qed.

Lemma ent_cache_init n nb m i : 0 <= i < Z.of_nat n ->
  ent (cache_init n nb m) i = mkEnt CARAFS_BLOCK_NONE false false 0
    (if i =? 0 then CARAFS_ENT_NONE else i - 1) (if i =? Z.of_nat n - 1 then CARAFS_ENT_NONE else i + 1)
    CARAFS_ENT_NONE (zeros (m_block_size m)).
Proof.
  intros Hi. unfold ent, cache_init, cache_init_ents. simpl. rewrite nth_z_nth, nth_lookup, list_lookup_fmap.
  rewrite lookup_seq_lt by lia. simpl.
  assert ((Z.to_nat i =? 0)%nat = (i =? 0)) as -> by (destruct (Nat.eqb_spec (Z.to_nat i) 0), (Z.eqb_spec i 0); lia).
  assert ((Z.to_nat i =? n - 1)%nat = (i =? Z.of_nat n - 1)) as ->
    by (destruct (Nat.eqb_spec (Z.to_nat i) (n - 1)), (Z.eqb_spec i (Z.of_nat n - 1)); lia).
  by rewrite Z2Nat.id by lia.
Qed.

Lemma cache_init_inv n nb m :
  (0 < n)%nat -> Z.of_nat n <= CARAFS_ENT_NONE -> 0 < Z.of_nat nb <= 2 ^ 32 ->
  bdev_wf (m_bdev m) -> m_block_size m = bdev_block_size (m_bdev m) -> dev_n m < CARAFS_BLOCK_NONE ->
  cache_inv (cache_init n nb m) /\ forall b, in_dev m b -> view (cache_init n nb m) b = bdev_content (m_bdev m) b.
Proof.
  intros Hn0 Hn Hnb Hd Hbs Hdn. set (m' := cache_init n nb m).
  assert (n_ents m' = Z.of_nat n) as En.
  { unfold n_ents, m', cache_init, cache_init_ents. simpl. by rewrite length_map, length_seq. }
  assert (n_buckets m' = Z.of_nat nb) as Enb.
  { unfold n_buckets, m', cache_init. simpl. by rewrite length_replicate. }
  assert (forall i, valid_idx m' i -> e_block (ent m' i) = CARAFS_BLOCK_NONE) as Hnone.
  { intros i [Hi1 Hi2]. unfold m'. rewrite ent_cache_init; [done|lia]. }
  assert (cache_inv m') as Hc.
  { split; try done.
    - unfold small_table. lia.
    - exists (seqZ 0 (Z.of_nat n)). split; [split|].
      + apply NoDup_seqZ.
      + intros i Hi%elem_of_seqZ. unfold valid_idx. lia.
      + rewrite seqZ_cons by lia. done.
      + destruct n; [lia|]. rewrite lastZ_seqZ. unfold m', cache_init. simpl. lia.
      + apply lru_seg_iota; try done; try lia. intros i [Hi1 Hi2]. unfold m' at 1 2.
        rewrite ent_cache_init by lia. by rewrite En.
      + intros i [Hi1 Hi2]. apply elem_of_seqZ. lia.
    - split; [lia| |].
      + intros b Hb. exists []. split_and!; [|constructor|].
        * simpl. unfold bucket, m', cache_init. simpl. rewrite nth_lookup, lookup_replicate_2 by lia. done.
        * intros i. split; [set_solver|]. intros (Hi & Hix & _). destruct Hix. by apply Hnone.
      + intros i j Hi _ Hix _ _. destruct Hix. by apply Hnone.
    - intros i [Hi1 Hi2]. unfold m'. rewrite ent_cache_init by lia. split; try done; simpl;
        try lia; auto with cara. apply length_replicate. }
  split; [done|]. intros b Hb. apply (view_uncached m'); auto; [by apply (in_dev_not_none m')|].
  intros i Hi Eb. rewrite Hnone in Eb by done. by apply (in_dev_not_none m' b).
Qed.

(** ** Progress on a device that does not fail *)

Definition dev_reliable : Prop := forall d, bdev_wf d ->
  (forall b, 0 <= b < bdev_n_blocks d -> is_ok (fst (bdev_read d b)) = true) /\
  (forall b data, 0 <= b < bdev_n_blocks d -> length data = bdev_block_size d ->
     fst (bdev_write d b data) = Ok tt) /\
  fst (bdev_flush d) = Ok tt.

Lemma ent_obtain_from_ok m A B fuel :
  dev_reliable -> cache_inv m -> lru_links m (A ++ B) -> (exists i, i ∈ A /\ evictable (ent m i)) ->
  (length A < fuel)%nat -> is_ok (fst (ent_obtain_from fuel (lastZ A CARAFS_ENT_NONE) m)) = true.
Proof.
  intros Hrel Hc. revert B fuel. induction A as [|j A IH] using rev_ind; intros B fuel Hl (i & Hi & Hev) Hf.
  { set_solver. }
  destruct fuel as [|fuel]; [lia|]. rewrite lastZ_app. simpl. rewrite <- app_assoc in Hl. simpl in Hl.
  destruct (lru_links_split _ _ _ _ Hl) as (Hv & Hprev & _).
  rewrite (proj2 (Z.eqb_neq _ _) (valid_not_none m j (ci_small m Hc) Hv)). st_simp.
  destruct (Z.eqb_spec (e_block (ent m j)) CARAFS_BLOCK_NONE) as [Eb|Eb]; [done|].
  destruct ((e_pins (ent m j) =? 0) && negb (e_txn (ent m j))) eqn:Ep.
  - destruct (e_dirty (ent m j)) eqn:Ed; [|done]. rewrite st_bind_eq. unfold ent_writeback. st_simp.
    rewrite st_bind_eq. unfold dev_write.
    destruct (Hrel (m_bdev m) (ci_dev m Hc)) as (_ & Hw & _).
    pose proof (Hw (e_block (ent m j)) (e_data (ent m j)) (eo_range _ _ _ (ci_ent m Hc j Hv) Eb)) as Hw'.
    destruct (bdev_write _ _ _) as [rw d]. simpl in Hw'. rewrite Hw'; [done|].
    rewrite <- (ci_bs m Hc). apply (ci_ent m Hc j Hv).
  - rewrite length_app in Hf. simpl in Hf. rewrite Hprev. apply (IH (j :: B)); [done| |lia].
    exists i. split; [|done]. apply elem_of_app in Hi as [?|Hi]; [done|].
    apply list_elem_of_singleton in Hi as ->. exfalso. destruct Hev as [?|[Hp Ht]]; [done|].
    by rewrite Hp, Ht in Ep.
Qed.

Lemma cache_get_ok m b mode :
  dev_reliable -> cache_inv m -> in_dev m b ->
  (index_find m b <> CARAFS_ENT_NONE \/ exists i, valid_idx m i /\ evictable (ent m i)) ->
  is_ok (fst (carafs_cache_get b mode m)) = true.
Proof.
  intros Hrel Hc Hb Hor. unfold carafs_cache_get. st_simp.
  rewrite (proj2 (Z.leb_gt _ _)) by apply Hb.
  destruct (Z.eqb_spec (index_find m b) CARAFS_ENT_NONE) as [Em|Em]; [|done]. cbn [negb].
  destruct Hor as [?|(i & Hi & Hev)]; [done|]. rewrite st_bind_assoc, st_bind_eq.
  destruct (cache_fill b mode m) as [rf m1] eqn:Ef.
  enough (is_ok rf = true) by (by destruct rf). unfold cache_fill in Ef. rewrite st_bind_eq in Ef.
  destruct (ci_lru m Hc) as (L & Hl & HL).
  assert (is_ok (fst (ent_obtain m)) = true) as Ho.
  { unfold ent_obtain. rewrite (ll_tail _ _ Hl). apply (ent_obtain_from_ok m L []); auto.
    - by rewrite app_nil_r.
    - exists i. by split; [apply HL|].
    - pose proof (valid_length m L (ll_nodup _ _ Hl) (ll_valid _ _ Hl)). lia. }
  destruct (ent_obtain m) as [ro m2] eqn:Eo. destruct ro as [k|e]; [|done].
  destruct mode; [|st_simp_in Ef; by simplify_eq].
  unfold ent_obtain in Eo.
  assert (idx_or_none m (m_lru_tail m)) as Htail.
  { rewrite (ll_tail _ _ Hl). destruct (lastZ_in L CARAFS_ENT_NONE) as [->|Hin]; [by left|right; by apply (ll_valid _ _ Hl)]. }
  destruct (ent_obtain_from_spec _ _ _ _ _ Hc Htail Eo) as [_ _ Hk _ _].
  rewrite st_bind_assoc, st_bind_eq in Ef. unfold dev_read in Ef.
  destruct (Hrel (m_bdev m2) (ci_dev _ (vk_inv _ _ Hk))) as (Hr & _).
  assert (is_ok (fst (bdev_read (m_bdev m2) b)) = true) as Hok.
  { apply Hr. pose proof (vk_dev _ _ Hk) as Hdv. unfold dev_n in Hdv. rewrite Hdv. exact Hb. }
  destruct (bdev_read (m_bdev m2) b) as [[data|e] d]; [|done]. st_simp_in Ef. by simplify_eq.
Qed.

(** * Client traffic *)

(** The calls the rest of the filesystem makes on the cache. *)
Inductive cache_call :=
  | CGet (b : Z) (mode : get_mode)
  | CPut (b : Z)
  | CStore (b : Z) (data : list Z)
  | CInvalidate (b : Z)
  | CSync.

Definition run_call (c : cache_call) (m : mount) : mount :=
  match c with
  | CGet b mode => snd (carafs_cache_get b mode m)
  | CPut b => carafs_cache_put b m
  | CStore b data => cache_store b data m
  | CInvalidate b => carafs_cache_invalidate b m
  | CSync => snd (carafs_cache_sync m)
  end.

(** What a client must respect: a store goes to a cached block, a pin counter does not wrap. *)
Definition call_ok (c : cache_call) (m : mount) : Prop :=
  match c with
  | CGet b _ => 0 <= b /\ pins_ok m
  | CPut b => 0 <= b
  | CStore b data => in_dev m b /\ index_find m b <> CARAFS_ENT_NONE /\
      length data = m_block_size m /\ bytes_ok data
  | CInvalidate b => in_dev m b
  | CSync => True
  end.

Inductive cache_run : list cache_call -> mount -> mount -> Prop :=
  | cache_run_nil m : cache_run [] m m
  | cache_run_cons c cs m m' : call_ok c m -> cache_run cs (run_call c m) m' -> cache_run (c :: cs) m m'.

(** The blocks whose contents a call may change. *)
Definition call_writes (c : cache_call) (b : Z) : bool :=
  match c with
  | CGet b' CARAFS_GET_ZERO | CStore b' _ | CInvalidate b' => b' =? b
  | _ => false
  end.

Lemma run_call_spec c m :
  cache_inv m -> call_ok c m ->
  cache_inv (run_call c m) /\ dev_n (run_call c m) = dev_n m /\
  forall b, in_dev m b -> call_writes c b = false -> view (run_call c m) b = view m b.
Proof.
  intros Hc Hok. destruct c as [b mode|b|b data|b|]; simpl in Hok |- *.
  - destruct Hok as [Hb Hp]. destruct (carafs_cache_get b mode m) as [r m'] eqn:E.
    pose proof (cache_get_spec m b mode r m' Hc Hp Hb E) as Hs. simpl.
    destruct r as [[i fresh]|e]; [destruct Hs as [_ Hg]|destruct Hs as [Hk _]].
    + split_and!; [apply (got_inv _ _ _ _ _ _ Hg)|apply (got_dev _ _ _ _ _ _ Hg)|]. intros b' Hb' Hw. rewrite (got_view _ _ _ _ _ _ Hg b' Hb').
      destruct mode; simpl; [by rewrite andb_false_r|]. by rewrite Z.eqb_sym, Hw.
    + split_and!; [apply (vk_inv _ _ Hk)|apply (vk_dev _ _ Hk)|]. intros b' Hb' _. by apply (vk_view _ _ Hk).
  - pose proof (cache_put_kept m b Hc Hok) as Hk. split_and!; [apply (vk_inv _ _ Hk)|apply (vk_dev _ _ Hk)|].
    intros b' Hb' _. by apply (vk_view _ _ Hk).
  - destruct Hok as (Hb & Hne & Hl & Hby).
    destruct (cache_store_spec m b data Hc Hb Hne Hl Hby) as (H1 & _ & Hd & _ & Hv).
    split_and!; [done|unfold dev_n; by rewrite Hd|]. intros b' Hb' Hw. rewrite Hv by done.
    by rewrite Z.eqb_sym, Hw.
  - destruct (cache_invalidate_spec m b Hc Hok) as (H1 & _ & Hd & _ & Hv & _).
    split_and!; [done|unfold dev_n; by rewrite Hd|]. intros b' Hb' Hw. apply Hv; [done|]. intros ->. zbool. done.
  - destruct (carafs_cache_sync m) as [r m'] eqn:E.
    destruct (cache_sync_spec m r m' Hc E) as (Hk & _). split_and!; [apply (vk_inv _ _ Hk)|apply (vk_dev _ _ Hk)|].
    intros b' Hb' _. by apply (vk_view _ _ Hk).
Qed.

Lemma cache_run_spec cs m m' :
  cache_run cs m m' -> cache_inv m ->
  cache_inv m' /\ dev_n m' = dev_n m /\
  forall b, in_dev m b -> forallb (fun c => negb (call_writes c b)) cs = true -> view m' b = view m b.
Proof.
  induction 1 as [m|c cs m m' Hok Hrun IH]; intros Hc; [by split_and!|].
  destruct (run_call_spec c m Hc Hok) as (Hc1 & Hd1 & Hv1). destruct (IH Hc1) as (Hc2 & Hd2 & Hv2).
  split_and!; [done|congruence|]. intros b Hb Hall. simpl in Hall. zbool.
  rewrite Hv2; [by apply Hv1| |done]. unfold in_dev in *. congruence.
Qed.

(** The same runs, evaluated. *)
Definition pins_okb (m : mount) : bool := forallb (fun e => e_pins e <? 2 ^ 32 - 1) (m_ents m).
Definition call_okb (c : cache_call) (m : mount) : bool :=
  let in_devb b := (0 <=? b) && (b <? dev_n m) in
  match c with
  | CGet b _ => (0 <=? b) && pins_okb m
  | CPut b => 0 <=? b
  | CStore b data => in_devb b && negb (index_find m b =? CARAFS_ENT_NONE) &&
      ((length data =? m_block_size m)%nat && forallb (fun x => (0 <=? x) && (x <? 256)) data)
  | CInvalidate b => in_devb b
  | CSync => true
  end.
Definition run_calls (cs : list cache_call) (m : mount) : mount := fold_left (fun m c => run_call c m) cs m.
Fixpoint calls_okb (cs : list cache_call) (m : mount) : bool :=
  match cs with [] => true | c :: cs => call_okb c m && calls_okb cs (run_call c m) end.

Lemma pins_okb_ok m : pins_okb m = true -> pins_ok m.
Proof.
  intros H i [Hi1 Hi2]. unfold pins_okb in H. rewrite forallb_forall in H. unfold n_ents in Hi2.
  specialize (H (ent m i)). apply Z.ltb_lt, H. unfold ent. rewrite nth_z_nth. apply nth_In. lia.
Qed.
Lemma call_okb_ok c m : call_okb c m = true -> call_ok c m.
Proof.
  destruct c as [b mode|b|b data|b|]; simpl; intros H; zbool; unfold in_dev; auto using pins_okb_ok.
  split_and!; auto; [by apply Nat.eqb_eq|]. apply Forall_forall. intros x Hx%list_elem_of_In.
  match goal with H : forallb _ _ = true |- _ => rewrite forallb_forall in H; specialize (H x Hx) end.
  zbool. unfold in_u8. lia.
Qed.
Lemma calls_okb_run cs m : calls_okb cs m = true -> cache_run cs m (run_calls cs m).
Proof.
  revert m. induction cs as [|c cs IH]; intros m H; simpl in *; [constructor|]. zbool.
  constructor; [by apply call_okb_ok|]. by apply IH.
Qed.

(** C4: From a fresh cache on a well-formed device, every sequence of calls keeps the cache
    invariant: the LRU list and the hash chains are well linked and agree with the entry
    table, no block is cached twice, and a clean entry equals its device block. *)
Theorem cache_invariant_reachable n nb m cs m' :
  (0 < n)%nat -> Z.of_nat n <= CARAFS_ENT_NONE -> 0 < Z.of_nat nb <= 2 ^ 32 ->
  bdev_wf (m_bdev m) -> m_block_size m = bdev_block_size (m_bdev m) -> dev_n m < CARAFS_BLOCK_NONE ->
  cache_run cs (cache_init n nb m) m' -> cache_inv m'.
Proof.
  intros H1 H2 H3 H4 H5 H6 Hrun. destruct (cache_init_inv n nb m H1 H2 H3 H4 H5 H6) as [Hc _].
  by destruct (cache_run_spec _ _ _ Hrun Hc).
Qed.

(** C5: Read your writes. After a store to block [b], any traffic that does not itself write,
    zero or invalidate [b] (so any amount of eviction, write-back and re-reading), a
    successful [carafs_cache_get] of [b] yields the stored bytes. *)
Theorem cache_read_your_writes m b data cs m1 i fresh m' :
  cache_inv m -> call_ok (CStore b data) m ->
  cache_run cs (cache_store b data m) m1 -> forallb (fun c => negb (call_writes c b)) cs = true ->
  pins_ok m1 -> carafs_cache_get b CARAFS_GET_READ m1 = (Ok (i, fresh), m') ->
  e_data (ent m' i) = data /\ e_block (ent m' i) = b.
Proof.
  intros Hc (Hb & Hne & Hl & Hby) Hrun Hall Hp E.
  destruct (cache_store_spec m b data Hc Hb Hne Hl Hby) as (Hc1 & _ & Hd & _ & Hv).
  destruct (cache_run_spec _ _ _ Hrun Hc1) as (Hc2 & Hd2 & Hv2).
  assert (in_dev (cache_store b data m) b) as Hb1 by (unfold in_dev, dev_n; by rewrite Hd).
  assert (in_dev m1 b) as Hb2 by (unfold in_dev; by rewrite Hd2).
  destruct (cache_get_spec m1 b _ _ _ Hc2 Hp (proj1 Hb) E) as [_ Hg].
  split; [|apply (got_block _ _ _ _ _ _ Hg)]. rewrite (got_data m1 b _ _ _ _ Hb2 Hg), (got_view _ _ _ _ _ _ Hg b Hb2).
  rewrite andb_false_r. simpl. rewrite Hv2 by done. by rewrite Hv, Z.eqb_refl.
Qed.

(** C6: [carafs_cache_sync] is durable: when it returns 0 every block of the device holds
    what the filesystem saw in it before the call, and what it sees is unchanged. When the
    device fails, what the filesystem sees is still unchanged. *)
Theorem cache_sync_durable m r m' :
  cache_inv m -> carafs_cache_sync m = (r, m') ->
  cache_inv m' /\ (forall b, in_dev m b -> view m' b = view m b) /\
  (r = Ok tt -> forall b, in_dev m b -> bdev_content (m_bdev m') b = view m b).
Proof.
  intros Hc E. destruct (cache_sync_spec m r m' Hc E) as (Hk & _ & Hok).
  split_and!; [apply (vk_inv _ _ Hk)|intros b Hb; by apply (vk_view _ _ Hk)|done].
Qed.

(** [carafs_cache_get] succeeds exactly when it should on a device that does not fail: the
    block is in range, and it is cached or some entry is empty or neither pinned nor part of
    the open transaction. With no such entry it fails with [CARA_ENOMEM]. *)
Theorem cache_get_progress m b mode :
  dev_reliable -> cache_inv m -> 0 <= b ->
  is_ok (fst (carafs_cache_get b mode m)) = true <->
  in_dev m b /\ (index_find m b <> CARAFS_ENT_NONE \/ exists i, valid_idx m i /\ evictable (ent m i)).
Proof.
  intros Hrel Hc Hb. split; [|intros [H1 H2]; by apply cache_get_ok].
  intros Hok. destruct (Z.leb_spec (bdev_n_blocks (m_bdev m)) b) as [Hge|Hlt].
  { unfold carafs_cache_get in Hok. revert Hok. st_simp. by rewrite (proj2 (Z.leb_le _ _) Hge). }
  split; [done|]. destruct (Z.eqb_spec (index_find m b) CARAFS_ENT_NONE) as [Em|Em]; [right|by left].
  unfold carafs_cache_get in Hok. revert Hok. st_simp. rewrite (proj2 (Z.leb_gt _ _) Hlt), Em.
  rewrite Z.eqb_refl. cbn [negb]. rewrite st_bind_assoc, st_bind_eq.
  destruct (cache_fill b mode m) as [rf m1] eqn:Ef. destruct rf as [k|e]; [intros _|done].
  destruct (cached_dec m b Hc (in_dev_not_none m b Hc (conj Hb Hlt))) as [(? & _)|[_ Hun]]; [done|].
  pose proof (cache_fill_spec m b mode _ _ Hc (conj Hb Hlt) Hun Ef) as (Hv & Hev & _). by exists k.
Qed.

End Cache.

(** ** A concrete cache: two entries over a four-block memory device *)

Module CacheExample.
Definition dev : CarafsMemBdev :=
  {| mb_mem := map Z.of_nat (seq 0 32); mb_block_size := 8; mb_n_blocks := 4 |}.
Definition sb0 : superblock := sb_of_bytes (zeros 512).
Definition m0 : CarafsMount CarafsMemBdev :=
  mkMount dev 8 false true sb0 [] [] 0 0 false [] sb0 (mkJ 0 0 0 0 0).
Definition data : list Z := [9; 9; 9; 9; 9; 9; 9; 9].
Definition start : CarafsMount CarafsMemBdev := cache_init 2 2 m0.
Definition held : CarafsMount CarafsMemBdev := run_call (CGet 1 CARAFS_GET_READ) start.
(** Block 1 is stored to, released, and evicted by reads of blocks 2 and 3. *)
Definition traffic : list cache_call :=
  [CPut 1; CGet 2 CARAFS_GET_READ; CPut 2; CGet 3 CARAFS_GET_READ; CPut 3].
Definition evicted : CarafsMount CarafsMemBdev :=
  run_calls traffic (cache_store 1 data held).

Lemma dev_wf : bdev_wf dev.
Proof. change (mem_wf dev). split; [done|vm_compute; repeat constructor; done|done|simpl; lia]. Qed.
Lemma start_inv : cache_inv start.
Proof. apply cache_init_inv; try done; try lia. apply dev_wf. Qed.
Lemma held_inv : cache_inv held.
Proof. apply run_call_spec; [apply start_inv|]. apply call_okb_ok. by vm_compute. Qed.
Lemma store_ok : call_ok (CStore 1 data) held.
Proof. apply call_okb_ok. by vm_compute. Qed.
Lemma traffic_run : cache_run traffic (cache_store 1 data held) evicted.
Proof. apply calls_okb_run. by vm_compute. Qed.

Lemma traffic0_run : cache_run (CGet 1 CARAFS_GET_READ :: traffic) (cache_init 2 2 m0)
  (run_calls (CGet 1 CARAFS_GET_READ :: traffic) (cache_init 2 2 m0)).
Proof. apply calls_okb_run. by vm_compute. Qed.
Lemma cache_invariant_reachable_witness :
  cache_inv (run_calls (CGet 1 CARAFS_GET_READ :: traffic) (cache_init 2 2 m0)).
Proof.
  refine (cache_invariant_reachable 2 2 m0 _ _ _ _ _ dev_wf eq_refl eq_refl traffic0_run); [lia|done|done].
Defined.

Lemma cache_read_your_writes_witness :
  index_find evicted 1 = CARAFS_ENT_NONE /\
  match carafs_cache_get 1 CARAFS_GET_READ evicted with
  | (Ok (i, fresh), m') => e_data (ent m' i) = data
  | _ => False
  end.
Proof.
  split; [by vm_compute|].
  destruct (carafs_cache_get 1 CARAFS_GET_READ evicted) as [r m'] eqn:E.
  assert (is_ok r = true) as Hok by (change r with (fst (r, m')); rewrite <- E; by vm_compute).
  destruct r as [[i fresh]|e]; [|done].
  apply (cache_read_your_writes held 1 data traffic evicted i fresh m' held_inv store_ok traffic_run eq_refl);
    [apply pins_okb_ok; by vm_compute|done].
Defined.

Lemma cache_sync_durable_witness :
  bdev_content (m_bdev (snd (carafs_cache_sync (cache_store 1 data held)))) 1 = data.
Proof.
  destruct store_ok as (H1 & H2 & H3 & H4).
  destruct (cache_store_spec held 1 data held_inv H1 H2 H3 H4) as (Hc & _ & Hd & _ & Hv).
  destruct (carafs_cache_sync (cache_store 1 data held)) as [r m'] eqn:E.
  assert (r = Ok tt) as Hr by (change r with (fst (r, m')); rewrite <- E; by vm_compute).
  destruct (cache_sync_durable (cache_store 1 data held) r m' Hc E) as (_ & _ & H).
  transitivity (view (cache_store 1 data held) 1); [exact (H Hr 1 H1)|]. exact (Hv 1 H1).
Defined.

Lemma mem_reliable : dev_reliable (D := CarafsMemBdev).
Proof.
  intros d Hw. pose proof (fun b Hb => proj1 (mem_in_range d b Hw Hb)) as H.
  split_and!; [| |done].
  - intros b Hb. simpl. unfold mem_read. by rewrite H.
  - intros b x Hb Hx. simpl. unfold mem_write. by rewrite H.
Qed.

Lemma cache_get_progress_witness : is_ok (fst (carafs_cache_get 3 CARAFS_GET_ZERO start)) = true.
Proof.
  apply (cache_get_progress start 3 CARAFS_GET_ZERO mem_reliable start_inv); [done|].
  split; [done|]. right. exists 0. split; [done|]. by left.
Defined.
End CacheExample.
