(* ===== verification/Journal.v ===== *)
(** The CaraFS metadata write-ahead log ([src/logaic/carafs/journal.c]) and the transactions
    that feed it ([cache.c], [carafs_txn_*]).

    The scratch blocks [j_scratch] and [j_image] are local values: every use of one starts by
    overwriting the whole block. *)

From S2P Require Import Prelude Format Volume Cache.

#[local] Arguments u32 : simpl never.
#[local] Arguments u64 : simpl never.
#[local] Arguments Z.to_nat : simpl never.

Definition JSB_CRC : nat := 4.
Definition JDESC_CRC : nat := 4.
Definition JCOMMIT_CRC : nat := 4.

Section Journal.
Context {D : Type} `{!BlockDev D}.
Abbreviation mount := (CarafsMount D).

Definition j_phys (m : mount) (off : Z) : Z := u64 (sb_journal_start (m_sb m) + off).

(** The [while] of [j_adv]: at most [o] rounds, since [j_log_blocks] is not zero. *)
Fixpoint j_wrap (fuel : nat) (log o : Z) : Z :=
  match fuel with
  | O => o
  | S fuel => if log <? o then j_wrap fuel log (u32 (o - log)) else o
  end.
Definition j_adv (m : mount) (off k : Z) : Z :=
  let o := u32 (off + k) in
  j_wrap (Z.to_nat o) (j_log_blocks (m_j m)) o.

Definition j_used (m : mount) : Z :=
  let j := m_j m in
  if j_head j <=? j_tail j then u32 (j_tail j - j_head j)
  else u32 (u32 (j_tail j + j_log_blocks j) - j_head j).

(** ** The three block formats *)

Definition jsb_image (bs : nat) (seq head : Z) : list Z :=
  let blk := zeros bs in
  let blk := wr 4 blk 0 CARAFS_MAGIC_JSB in
  let blk := wr 8 blk 8 seq in
  let blk := wr 4 blk 16 head in
  carafs_put_crc blk bs JSB_CRC.

Fixpoint put_targets (blk : list Z) (i : nat) (ts : list Z) : list Z :=
  match ts with
  | [] => blk
  | t :: ts => put_targets (wr 8 blk (CARAFS_JDESC_TARGETS_OFF + 8 * i) t) (S i) ts
  end.
Definition jdesc_image (bs : nat) (seq : Z) (targets : list Z) : list Z :=
  let blk := zeros bs in
  let blk := wr 4 blk 0 CARAFS_MAGIC_JDESC in
  let blk := wr 8 blk 8 seq in
  let blk := wr 4 blk 16 (Z.of_nat (length targets)) in
  let blk := put_targets blk 0 targets in
  carafs_put_crc blk bs JDESC_CRC.

Definition jcommit_image (bs : nat) (seq txn_crc n : Z) : list Z :=
  let blk := zeros bs in
  let blk := wr 4 blk 0 CARAFS_MAGIC_JCOMMIT in
  let blk := wr 8 blk 8 seq in
  let blk := wr 4 blk 16 txn_crc in
  let blk := wr 4 blk 20 n in
  carafs_put_crc blk bs JCOMMIT_CRC.

(** ** Journal superblock, checkpoint *)

Definition jsb_write : ST mount unit :=
  m ← st_get;
  dev_write (sb_journal_start (m_sb m))
    (jsb_image (m_block_size m) (j_head_seq (m_j m)) (j_head (m_j m)));;
  dev_flush.

Definition j_drop_log (j : jstate) : jstate :=
  mkJ (j_log_blocks j) (j_tail j) (j_next_seq j) (j_tail j) (j_next_seq j).

Definition carafs_journal_checkpoint : ST mount unit :=
  carafs_cache_sync;;
  st_mod (fun m => set_j (j_drop_log (m_j m)) m);;
  jsb_write.

Definition carafs_journal_maybe_checkpoint : ST mount unit :=
  m ← st_get;
  if j_log_blocks (m_j m) / 2 <=? j_used m then carafs_journal_checkpoint else mret tt.

(** ** Append *)

(** The image loop from index [i]: the CRC is chained over what is written. *)
Fixpoint append_images (off i txn_crc : Z) (blocks : list Z) : ST mount Z :=
  match blocks with
  | [] => mret txn_crc
  | b :: blocks =>
      '(idx, _) ← carafs_cache_get b CARAFS_GET_READ;
      m ← st_get;
      let data := e_data (ent m idx) in
      rc ← st_try (dev_write (j_phys m (j_adv m off (1 + i))) data);
      st_mod (carafs_cache_put b);;
      match rc with
      | Err e => st_err e
      | Ok _ => append_images off (i + 1) (Carafs_Crc32c txn_crc data) blocks
      end
  end.

Definition carafs_journal_append : ST mount unit :=
  m ← st_get;
  let bs := m_block_size m in
  let n := Z.of_nat (length (m_txn_blocks m)) in
  let need := u32 (n + 2) in
  if j_log_blocks (m_j m) <? need then st_err CARA_EOVERFLOW else
  (if j_log_blocks (m_j m) <? u32 (j_used m + need) then carafs_journal_checkpoint else mret tt);;
  m ← st_get;
  let seq := j_next_seq (m_j m) in
  let off := j_tail (m_j m) in
  dev_write (j_phys m off) (jdesc_image bs seq (m_txn_blocks m));;
  txn_crc ← append_images off 0 0 (m_txn_blocks m);
  m ← st_get;
  dev_write (j_phys m (j_adv m off (1 + n))) (jcommit_image bs seq txn_crc n);;
  dev_flush;;
  st_mod (fun m =>
    set_j (mkJ (j_log_blocks (m_j m)) (j_head (m_j m)) (j_head_seq (m_j m))
             (j_adv m off need) (u64 (seq + 1))) m).

(** ** Mount-time reading *)

(** [jsb_read]: the (seq, head) of the journal superblock. *)
Definition jsb_read : ST mount (Z * Z) :=
  st_mod (fun m => set_j (mkJ (u32 (sb_journal_blocks (m_sb m) - 1)) (j_head (m_j m))
                            (j_head_seq (m_j m)) (j_tail (m_j m)) (j_next_seq (m_j m))) m);;
  m ← st_get;
  blk ← dev_read (sb_journal_start (m_sb m));
  if negb (rd 4 blk 0 =? CARAFS_MAGIC_JSB) || negb (block_crc_ok blk (m_block_size m) JSB_CRC)
  then st_err CARA_EBADMAGIC else
  let head := rd 4 blk 16 in
  if (head <? 1) || (j_log_blocks (m_j m) <? head) then st_err CARA_EINVAL
  else mret (rd 8 blk 8, head).

Definition j_set_cursor (off seq : Z) (m : mount) : mount :=
  set_j (mkJ (j_log_blocks (m_j m)) off seq off seq) m.

Definition carafs_journal_init : ST mount unit :=
  '(seq, head) ← jsb_read;
  st_mod (j_set_cursor head seq).

(** ** Replay *)

(** The validation of a DESC block: its targets when it is the next of the chain. *)
Definition get_targets (blk : list Z) (n : nat) : list Z :=
  map (fun i => rd 8 blk (CARAFS_JDESC_TARGETS_OFF + 8 * i)) (seq 0 n).
Definition desc_targets (bs : nat) (total seq : Z) (blk : list Z) : option (list Z) :=
  if negb (rd 4 blk 0 =? CARAFS_MAGIC_JDESC) || negb (block_crc_ok blk bs JDESC_CRC) ||
     negb (rd 8 blk 8 =? seq) then None else
  let n := rd 4 blk 16 in
  if (n =? 0) || (CARAFS_TXN_MAX_BLOCKS <? n) then None else
  let ts := get_targets blk (Z.to_nat n) in
  if forallb (fun t => t <? total) ts then Some ts else None.

Definition commit_ok (bs : nat) (seq n txn_crc : Z) (blk : list Z) : bool :=
  (rd 4 blk 0 =? CARAFS_MAGIC_JCOMMIT) && block_crc_ok blk bs JCOMMIT_CRC &&
  (rd 8 blk 8 =? seq) && (rd 4 blk 20 =? n) && (rd 4 blk 16 =? txn_crc).

(** Pass 1: chain the CRC of [n] images, from index [i]. *)
Fixpoint replay_crc (n : nat) (off i txn_crc : Z) : ST mount Z :=
  match n with
  | O => mret txn_crc
  | S n =>
      m ← st_get;
      image ← dev_read (j_phys m (j_adv m off (1 + i)));
      replay_crc n off (i + 1) (Carafs_Crc32c txn_crc image)
  end.

(** Pass 2: copy the images home. *)
Fixpoint replay_apply (off i : Z) (targets : list Z) : ST mount unit :=
  match targets with
  | [] => mret tt
  | t :: targets =>
      m ← st_get;
      image ← dev_read (j_phys m (j_adv m off (1 + i)));
      dev_write t image;;
      replay_apply off (i + 1) targets
  end.

(** One round of the loop: [None] is [break], else the next (offset, sequence number). *)
Definition replay_txn (off seq : Z) : ST mount (option (Z * Z)) :=
  m ← st_get;
  let bs := m_block_size m in
  desc ← dev_read (j_phys m off);
  match desc_targets bs (sb_total_blocks (m_sb m)) seq desc with
  | None => mret None
  | Some targets =>
      let n := Z.of_nat (length targets) in
      txn_crc ← replay_crc (length targets) off 0 0;
      m ← st_get;
      commit ← dev_read (j_phys m (j_adv m off (1 + n)));
      if negb (commit_ok bs seq n txn_crc commit) then mret None else
      replay_apply off 0 targets;;
      m ← st_get;
      mret (Some (j_adv m off (n + 2), u64 (seq + 1)))
  end.

(** The [for (;;)]; [None] when the fuel runs out. *)
Fixpoint replay_loop (fuel : nat) (off seq : Z) : ST mount (option (Z * Z)) :=
  match fuel with
  | O => mret None
  | S fuel =>
      next ← replay_txn off seq;
      match next with
      | None => mret (Some (off, seq))
      | Some (off, seq) => replay_loop fuel off seq
      end
  end.

(** One round per log block and the one that breaks ([replay_terminates]). *)
Definition replay_fuel (m : mount) : nat := S (Z.to_nat (j_log_blocks (m_j m))).

Definition carafs_journal_replay : ST mount unit :=
  '(seq, head) ← jsb_read;
  fuel ← st_gets replay_fuel;
  last ← replay_loop fuel head seq;
  dev_flush;;
  let '(off, seq) := default (head, seq) last in
  st_mod (j_set_cursor off seq);;
  jsb_write.

(** ** Transactions *)

Definition carafs_txn_begin (m : mount) : mount := set_txn true [] m.

Definition carafs_txn_dirty (block : Z) : ST mount unit :=
  m ← st_get;
  let idx := index_find m block in
  if idx =? CARAFS_ENT_NONE then st_err CARA_EINVAL else
  st_mod (upd_ent idx (ent_set_dirty true));;
  if negb (m_in_txn m) then mret tt
  else if e_txn (ent m idx) then mret tt
  else if CARAFS_TXN_MAX_BLOCKS <=? Z.of_nat (length (m_txn_blocks m)) then st_err CARA_EOVERFLOW
  else st_mod (fun m => set_txn (m_in_txn m) (m_txn_blocks m ++ [block])
                          (upd_ent idx (ent_set_txn true) m)).

(** The loop of [writeback_data]; returns [any]. *)
Fixpoint writeback_ents (n : nat) (i : Z) (any : bool) : ST mount bool :=
  match n with
  | O => mret any
  | S n =>
      e ← st_gets (fun m => ent m i);
      if negb (e_block e =? CARAFS_BLOCK_NONE) && e_dirty e && negb (e_txn e)
      then ent_writeback i;; writeback_ents n (i + 1) true
      else writeback_ents n (i + 1) any
  end.
Definition writeback_data : ST mount unit :=
  n ← st_gets (fun m => length (m_ents m));
  any ← writeback_ents n 0 false;
  if any : bool then dev_flush else mret tt.

Definition txn_release (block : Z) (m : mount) : mount :=
  let idx := index_find m block in
  if negb (idx =? CARAFS_ENT_NONE) then upd_ent idx (ent_set_txn false) m else m.

Definition carafs_txn_commit : ST mount unit :=
  writeback_data;;
  carafs_journal_append;;
  st_mod (fun m => set_txn false [] (foldl (fun m b => txn_release b m) m (m_txn_blocks m)));;
  st_try carafs_journal_maybe_checkpoint;;
  mret tt.

Definition txn_drop (block : Z) (m : mount) : mount :=
  let idx := index_find m block in
  if negb (idx =? CARAFS_ENT_NONE) then
    let m := upd_ent idx (fun e => ent_set_pins 0 (ent_set_flags false false e)) m in
    let m := index_remove idx m in
    upd_ent idx (ent_set_block CARAFS_BLOCK_NONE) m
  else m.
Definition carafs_txn_abort (m : mount) : mount :=
  set_txn false [] (foldl (fun m b => txn_drop b m) m (m_txn_blocks m)).

End Journal.

(** * The log as data *)

(** What a device with contents [c] holds in its log: journal region at [js], [log] log
    blocks of [bs] bytes, a volume of [total] blocks. *)
Section Log.
Variables (js log total : Z) (bs : nat).
Implicit Types (c : Z -> list Z) (off seq : Z).

Definition adv off (k : Z) : Z := (off + k - 1) mod log + 1.
Definition log_at c off : list Z := c (js + off).
Definition log_images c off (n : nat) : list (list Z) :=
  map (fun i => log_at c (adv off (1 + Z.of_nat i))) (seq 0 n).
Definition images_crc (imgs : list (list Z)) : Z := foldl Carafs_Crc32c 0 imgs.

(** The complete transaction of sequence number [seq] at [off], as home writes. *)
Definition log_txn c off seq : option (list (Z * list Z)) :=
  match desc_targets bs total seq (log_at c off) with
  | None => None
  | Some ts =>
      let n := length ts in
      let imgs := log_images c off n in
      if commit_ok bs seq (Z.of_nat n) (images_crc imgs) (log_at c (adv off (1 + Z.of_nat n)))
      then Some (zip ts imgs) else None
  end.

Definition next_txn off (ws : list (Z * list Z)) : Z := adv off (Z.of_nat (length ws) + 2).

(** The complete transactions from [(off, seq)] on, and where the chain ends. *)
Inductive log_chain c : Z -> Z -> list (list (Z * list Z)) -> Z -> Z -> Prop :=
  | chain_end off seq : log_txn c off seq = None -> log_chain c off seq [] off seq
  | chain_txn off seq ws txns off' seq' :
      log_txn c off seq = Some ws ->
      log_chain c (next_txn off ws) (u64 (seq + 1)) txns off' seq' ->
      log_chain c off seq (ws :: txns) off' seq'.

Definition apply_writes (ws : list (Z * list Z)) c : Z -> list Z :=
  foldl (fun c w b => if b =? fst w then snd w else c b) c ws.

Definition in_log (b : Z) : Prop := js <= b <= js + log.
(** The home writes of a transaction stay clear of the journal region. *)
Definition home_ok (ws : list (Z * list Z)) : Prop := Forall (fun w => 0 <= fst w /\ ~ in_log (fst w)) ws.

Lemma apply_writes_app ws ws' c : apply_writes (ws ++ ws') c = apply_writes ws' (apply_writes ws c).
Proof. apply foldl_app. Qed.

Lemma apply_writes_other ws c b : b ∉ (fst <$> ws) -> apply_writes ws c b = c b.
Proof.
  revert c. induction ws as [|w ws IH]; intros c Hb; [done|]. simpl in *.
  apply not_elem_of_cons in Hb as [Hb1 Hb2].
  change (apply_writes ws (fun b0 => if b0 =? fst w then snd w else c b0) b = c b). rewrite IH by done.
  by rewrite (proj2 (Z.eqb_neq _ _)).
Qed.

(** A block some write targets ends the same whatever it was before. *)
Lemma apply_writes_agree ws c c' b :
  (b ∉ (fst <$> ws) -> c' b = c b) -> apply_writes ws c' b = apply_writes ws c b.
Proof.
  revert c c'. induction ws as [|w ws IH]; intros c c' H; simpl in *; [apply H; set_solver|].
  apply IH. intros Hb. destruct (Z.eqb_spec b (fst w)) as [->|Hne]; [done|]. apply H. set_solver.
Qed.

Lemma home_ok_other ws b : home_ok ws -> in_log b -> b ∉ (fst <$> ws).
Proof.
  intros Hh Hb Hin. apply list_elem_of_fmap in Hin as (w & -> & Hw).
  unfold home_ok in Hh. rewrite Forall_forall in Hh. by apply (Hh w Hw).
Qed.

Section Geometry.
Hypothesis Hlog : 1 <= log.

Lemma adv_range off k : 1 <= adv off k <= log.
Proof. unfold adv. pose proof (Z.mod_pos_bound (off + k - 1) log). lia. Qed.

Lemma adv_adv off j k : adv (adv off j) k = adv off (j + k).
Proof.
  unfold adv. f_equal. replace ((off + j - 1) mod log + 1 + k - 1) with ((off + j - 1) mod log + k) by lia.
  rewrite Zplus_mod_idemp_l. f_equal. lia.
Qed.
Lemma adv_0 off : 1 <= off <= log -> adv off 0 = off.
Proof. intros. unfold adv. rewrite Z.mod_small; lia. Qed.
Lemma adv_inj off j k : 0 <= j < log -> 0 <= k < log -> adv off j = adv off k -> j = k.
Proof.
  unfold adv. intros Hj Hk E. assert ((off + j - 1) mod log = (off + k - 1) mod log) as E' by lia.
  apply Z.cong_iff_0 in E'. replace (off + j - 1 - (off + k - 1)) with (j - k) in E' by lia.
  pose proof (Z.div_mod (j - k) log ltac:(lia)) as Hd. rewrite E', Z.add_0_r in Hd.
  assert ((j - k) / log = 0) by nia. lia.
Qed.

Lemma in_log_at off : 1 <= off <= log -> in_log (js + off).
Proof. unfold in_log. lia. Qed.

(** The log is a function of the log blocks alone. *)
Lemma log_txn_ext c c' off seq :
  1 <= off <= log -> (forall b, js < b <= js + log -> c' b = c b) -> log_txn c' off seq = log_txn c off seq.
Proof.
  intros Hoff H. unfold log_txn.
  assert (forall o, 1 <= o <= log -> log_at c' o = log_at c o) as Ha by (intros; apply H; lia).
  rewrite Ha by done. destruct (desc_targets _ _ _ _) as [ts|]; [|done].
  rewrite Ha by apply adv_range.
  assert (log_images c' off (length ts) = log_images c off (length ts)) as ->; [|done].
  apply map_ext. intros i. apply Ha, adv_range.
Qed.

Lemma log_chain_ext c c' off seq txns off' seq' :
  (forall b, js < b <= js + log -> c' b = c b) -> 1 <= off <= log ->
  log_chain c off seq txns off' seq' -> log_chain c' off seq txns off' seq'.
Proof.
  intros H Hoff Hch. induction Hch as [off seq E|off seq ws txns off' seq' E Hch IH].
  - constructor. by rewrite (log_txn_ext c).
  - econstructor; [by rewrite (log_txn_ext c)|]. apply IH. apply adv_range.
Qed.

Lemma log_chain_fun c off seq txns off1 seq1 txns' off2 seq2 :
  log_chain c off seq txns off1 seq1 -> log_chain c off seq txns' off2 seq2 ->
  txns' = txns /\ off2 = off1 /\ seq2 = seq1.
Proof.
  intros H. revert txns' off2 seq2. induction H as [off seq E|off seq ws txns off1 seq1 E H IH];
    intros txns' off2 seq2 H'; inversion H' as [|? ? ws' ? ? ? E' H'']; subst; try congruence; [done|].
  rewrite E in E'. injection E' as <-. by destruct (IH _ _ _ H'') as (-> & -> & ->).
Qed.

Lemma log_chain_off c off seq txns off' seq' :
  1 <= off <= log -> log_chain c off seq txns off' seq' -> 1 <= off' <= log /\ log_txn c off' seq' = None.
Proof. intros Hoff H. induction H; [done|]. apply IHlog_chain, adv_range. Qed.

Lemma log_chain_seq c off seq txns off' seq' :
  in_u64 seq -> log_chain c off seq txns off' seq' -> in_u64 seq'.
Proof. intros Hs H. induction H; [done|]. apply IHlog_chain, u64_range. Qed.

Lemma desc_seq total' seq blk ts : desc_targets bs total' seq blk = Some ts -> rd 8 blk 8 = seq.
Proof.
  unfold desc_targets. destruct (_ || _) eqn:E; [done|]. intros _. zbool. done.
Qed.
Lemma log_txn_seq c off seq ws : log_txn c off seq = Some ws -> rd 8 (log_at c off) 8 = seq.
Proof. unfold log_txn. destruct (desc_targets _ _ _ _) eqn:E; [|done]. intros _. by eapply desc_seq. Qed.

(** Every offset starts at most one transaction of a chain: the chain has at most [log]. *)
Lemma log_chain_total_from c (V : list Z) (seq0 off : Z) (fuel : nat) :
  log < 2 ^ 32 -> (length V + fuel = S (Z.to_nat log))%nat -> NoDup V -> (forall v, v ∈ V -> 1 <= v <= log) ->
  (forall v, v ∈ V -> exists i, 0 <= i < Z.of_nat (length V) /\ rd 8 (log_at c v) 8 = u64 (seq0 + i)) ->
  1 <= off <= log ->
  exists txns off' seq', log_chain c off (u64 (seq0 + Z.of_nat (length V))) txns off' seq' /\
    (length txns < fuel)%nat.
Proof.
  intros Hsm. revert V off. induction fuel as [|fuel IH]; intros V off Hf Hnd Hr Hs Hoff.
  { exfalso. assert (length V <= length (seqZ 1 log))%nat as Hl; [|rewrite length_seqZ in Hl; lia].
    apply NoDup_incl_length; [by apply NoDup_ListNoDup|]. intros v Hv.
    apply list_elem_of_In in Hv. apply list_elem_of_In, elem_of_seqZ. specialize (Hr v Hv). lia. }
  set (sq := u64 (seq0 + Z.of_nat (length V))) in *.
  destruct (log_txn c off sq) as [ws|] eqn:E; [|exists [], off, sq; split; [by constructor|simpl; lia]].
  pose proof (log_txn_seq _ _ _ _ E) as Hsq.
  assert (off ∉ V) as Hnew.
  { intros Hin. destruct (Hs off Hin) as (i & Hi & Ei). rewrite Ei in Hsq. unfold sq, u64 in Hsq.
    apply Z.cong_iff_0 in Hsq. replace (seq0 + i - (seq0 + Z.of_nat (length V))) with (i - Z.of_nat (length V)) in Hsq by lia.
    assert (Z.of_nat (length V) <= 2 ^ 32) by lia. apply Z.mod_divide in Hsq as [q Hq]; lia. }
  destruct (IH (off :: V) (next_txn off ws)) as (txns & off' & seq' & Hch & Hlen).
  - simpl. lia.
  - by constructor.
  - intros v [->|Hv]%elem_of_cons; auto.
  - intros v [->|Hv]%elem_of_cons; simpl length.
    + exists (Z.of_nat (length V)). split; [lia|done].
    + destruct (Hs v Hv) as (i & Hi & Ei). exists i. split; [lia|done].
  - apply adv_range.
  - exists (ws :: txns), off', seq'. split; [|simpl; lia]. econstructor; [done|].
    replace (u64 (sq + 1)) with (u64 (seq0 + Z.of_nat (length (off :: V)))); [done|].
    unfold sq, u64. rewrite Zplus_mod_idemp_l. f_equal. simpl length. lia.
Qed.

Lemma log_chain_total c off seq :
  log < 2 ^ 32 -> 1 <= off <= log -> in_u64 seq ->
  exists txns off' seq', log_chain c off seq txns off' seq' /\ (length txns <= Z.to_nat log)%nat.
Proof.
  intros Hsm Hoff Hseq. destruct (log_chain_total_from c [] seq off (S (Z.to_nat log))) as (t & o & s & H & Hl);
    try done; try (by intros v Hv; apply elem_of_nil in Hv); [constructor|].
  exists t, o, s. split; [|lia]. by rewrite Z.add_0_r, u64_small in H.
Qed.

End Geometry.
End Log.

(** * Replay *)

Section Replay.
Context {D : Type} `{!BlockDev D} `{!BlockDevLaws D}.
Abbreviation mount := (CarafsMount D).
Implicit Types m : mount.

Abbreviation content m := (bdev_content (m_bdev m)).
Abbreviation JS m := (sb_journal_start (m_sb m)).
Abbreviation LOG m := (j_log_blocks (m_j m)).
Abbreviation TOTAL m := (sb_total_blocks (m_sb m)).

(** The journal region lies on the device, after the mount-time geometry checks. *)
Record j_geom m : Prop := {
  jg_wf : bdev_wf (m_bdev m);
  jg_bs : m_block_size m = bdev_block_size (m_bdev m);
  jg_log : 1 <= LOG m < 2 ^ 31;
  jg_start : 0 <= JS m;
  jg_fit : JS m + LOG m < dev_n m;
  jg_n : dev_n m < 2 ^ 64;
  jg_total : TOTAL m <= dev_n m
}.

(** Only the device changed, and on it only the blocks [W]. *)
Definition vol_step (W : list Z) m m' : Prop :=
  exists d, m' = set_bdev d m /\ bdev_wf d /\ bdev_n_blocks d = bdev_n_blocks (m_bdev m) /\
    bdev_block_size d = bdev_block_size (m_bdev m) /\
    forall b, b ∉ W -> bdev_content d b = content m b.

Lemma vol_step_refl W m : bdev_wf (m_bdev m) -> vol_step W m m.
Proof. intros H. exists (m_bdev m). split; [by destruct m|]. by split_and!. Qed.
Lemma vol_step_trans W1 W2 m1 m2 m3 :
  vol_step W1 m1 m2 -> vol_step W2 m2 m3 -> vol_step (W1 ++ W2) m1 m3.
Proof.
  intros (d & -> & Hd & Hn & Hb & Hc) (d' & -> & Hd' & Hn' & Hb' & Hc'). exists d'. simpl in *.
  split_and!; try done; try congruence. intros b Hin. rewrite not_elem_of_app in Hin.
  destruct Hin as [H1 H2]. rewrite Hc' by done. by apply Hc.
Qed.
Lemma vol_step_weaken W W' m m' : vol_step W m m' -> (forall b, b ∈ W -> b ∈ W') -> vol_step W' m m'.
Proof.
  intros (d & -> & Hd & Hn & Hb & Hc) HW. exists d. split_and!; try done.
  intros b Hin. apply Hc. auto.
Qed.
Lemma vol_step_geom W m m' : vol_step W m m' -> j_geom m -> j_geom m'.
Proof.
  intros (d & -> & Hd & Hn & Hb & Hc) []. split; unfold dev_n in *; simpl in *; try done; congruence.
Qed.
Lemma vol_step_content W m m' b : vol_step W m m' -> b ∉ W -> content m' b = content m b.
Proof. intros (d & -> & _ & _ & _ & Hc) Hb. by apply Hc. Qed.
Lemma vol_step_frame W m m' :
  vol_step W m m' -> m_sb m' = m_sb m /\ m_j m' = m_j m /\ m_block_size m' = m_block_size m /\ dev_n m' = dev_n m.
Proof. intros (d & -> & _ & Hn & _). by split_and!. Qed.

(** The call cannot have failed on a device that does not fail. *)
Definition goes_on {A} (r : result A) : Prop := dev_reliable (D := D) -> is_ok r = true.
Lemma goes_on_ok {A} (a : A) : goes_on (Ok a).
Proof. done. Qed.
Hint Resolve goes_on_ok : core.

Lemma dev_read_step m b r m' :
  bdev_wf (m_bdev m) -> in_dev m b -> dev_read b m = (r, m') ->
  vol_step [] m m' /\ (forall data, r = Ok data -> data = content m b) /\ goes_on r.
Proof.
  intros Hw Hb E. unfold dev_read in E. destruct (bdev_read (m_bdev m) b) as [rr d] eqn:Er. simplify_eq.
  destruct (bdev_read_spec _ _ _ _ Hw Hb Er) as ([H1 H2 H3 H4] & Hok). split; [|split; [done|]].
  - exists d. by split_and!.
  - intros Hr. destruct (Hr _ Hw) as (Hrd & _). specialize (Hrd b Hb). by rewrite Er in Hrd.
Qed.
Lemma dev_write_step m b data r m' :
  bdev_wf (m_bdev m) -> in_dev m b -> length data = bdev_block_size (m_bdev m) -> bytes_ok data ->
  dev_write b data m = (r, m') ->
  vol_step [b] m m' /\ (r = Ok tt -> content m' b = data) /\ goes_on r.
Proof.
  intros Hw Hb Hl Hby E. unfold dev_write in E. destruct (bdev_write (m_bdev m) b data) as [rr d] eqn:Er.
  simplify_eq. destruct (bdev_write_spec _ _ _ _ _ Hw Hb Hl Hby Er) as ([H1 H2 H3 H4] & Hok). split; [|split; [done|]].
  - exists d. split_and!; try done. intros b' Hb'. apply H2. set_solver.
  - intros Hr. destruct (Hr _ Hw) as (_ & Hwr & _). specialize (Hwr b data Hb Hl). rewrite Er in Hwr.
    simpl in Hwr. by rewrite Hwr.
Qed.
Lemma dev_flush_step m r m' : bdev_wf (m_bdev m) -> dev_flush m = (r, m') -> vol_step [] m m' /\ goes_on r.
Proof.
  intros Hw E. unfold dev_flush in E. destruct (bdev_flush (m_bdev m)) as [rr d] eqn:Er. simplify_eq.
  destruct (bdev_flush_spec _ _ _ Hw Er) as [H1 H2 H3 H4]. split; [exists d; by split_and!|].
  intros Hr. destruct (Hr _ Hw) as (_ & _ & Hfl). rewrite Er in Hfl. simpl in Hfl. by rewrite Hfl.
Qed.

(** ** Log offsets *)

Lemma j_wrap_eq fuel log o :
  1 <= log < 2 ^ 32 -> 1 <= o < 2 ^ 32 -> (Z.to_nat o <= fuel)%nat -> j_wrap fuel log o = (o - 1) mod log + 1.
Proof.
  intros Hl. revert o. induction fuel as [|fuel IH]; intros o Ho Hf; [lia|]. simpl.
  destruct (Z.ltb_spec log o).
  - rewrite u32_small by (unfold in_u32; lia). rewrite IH by lia. f_equal.
    rewrite <- (Z.mod_add (o - log - 1) 1 log) by lia. f_equal. lia.
  - rewrite Z.mod_small; lia.
Qed.

Lemma j_adv_eq m off k :
  1 <= LOG m < 2 ^ 31 -> 1 <= off <= LOG m -> 0 <= k < 2 ^ 31 -> j_adv m off k = adv (LOG m) off k.
Proof.
  intros Hl Ho Hk. unfold j_adv, adv. rewrite u32_small by (unfold in_u32; lia).
  rewrite j_wrap_eq by lia. done.
Qed.

Lemma j_phys_eq m off : j_geom m -> 1 <= off <= LOG m -> j_phys m off = JS m + off.
Proof. intros [] Ho. unfold j_phys. apply u64_small. unfold in_u64. lia. Qed.

Lemma log_block m off : j_geom m -> 1 <= off <= LOG m -> in_dev m (JS m + off).
Proof. intros [] Ho. unfold in_dev. lia. Qed.

Lemma log_block_ok m off : j_geom m -> 1 <= off <= LOG m ->
  length (log_at (JS m) (content m) off) = m_block_size m /\ bytes_ok (log_at (JS m) (content m) off).
Proof.
  intros Hg Ho. unfold log_at. rewrite (jg_bs m Hg). apply bdev_wf_content; [apply Hg|by apply log_block].
Qed.

(** A read of a log block. *)
Lemma log_read m off k r m' :
  j_geom m -> 1 <= off <= LOG m -> 0 <= k < 2 ^ 31 -> dev_read (j_phys m (j_adv m off k)) m = (r, m') ->
  vol_step [] m m' /\ (forall data, r = Ok data -> data = log_at (JS m) (content m) (adv (LOG m) off k)) /\ goes_on r.
Proof.
  intros Hg Ho Hk. pose proof (jg_log m Hg) as Hl. rewrite j_adv_eq by done.
  pose proof (adv_range (LOG m) ltac:(lia) off k) as Ha.
  rewrite j_phys_eq by done. by apply dev_read_step; [apply Hg|apply log_block].
Qed.

Lemma images_step (W : list Z) m m' off i n :
  vol_step W m m' -> j_geom m -> (forall b, b ∈ W -> ~ in_log (JS m) (LOG m) b) ->
  map (fun k => log_at (JS m') (content m') (adv (LOG m') off (i + Z.of_nat k))) (seq 0 n) =
  map (fun k => log_at (JS m) (content m) (adv (LOG m) off (i + Z.of_nat k))) (seq 0 n).
Proof.
  intros Hs Hg HW. destruct (vol_step_frame _ _ _ Hs) as (Es & Ej & _). rewrite Es, Ej.
  apply map_ext. intros k. unfold log_at. apply (vol_step_content _ _ _ _ Hs). intros Hin.
  apply (HW _ Hin). apply in_log_at. apply adv_range. apply Hg.
Qed.

Lemma map_seq_cons {A} (f : nat -> A) n : map f (seq 0 (S n)) = f 0%nat :: map (fun k => f (S k)) (seq 0 n).
Proof. simpl. by rewrite <- seq_shift, map_map. Qed.

Lemma replay_crc_spec n m off i crc r m' :
  j_geom m -> 1 <= off <= LOG m -> 0 <= i -> i + Z.of_nat n < 2 ^ 30 ->
  replay_crc n off i crc m = (r, m') ->
  vol_step [] m m' /\ (forall v, r = Ok v ->
    v = foldl Carafs_Crc32c crc
          (map (fun k => log_at (JS m) (content m) (adv (LOG m) off (1 + i + Z.of_nat k))) (seq 0 n))) /\
  goes_on r.
Proof.
  revert m i crc. induction n as [|n IH]; intros m i crc Hg Ho Hi Hn E; simpl replay_crc in E.
  { st_simp_in E. simplify_eq. split; [apply vol_step_refl, Hg|]. split; [by intros v [= <-]|done]. }
  st_simp_in E. rewrite st_bind_eq in E. destruct (dev_read _ m) as [rr m1] eqn:Er.
  destruct (log_read m off (1 + i) rr m1 Hg Ho ltac:(lia) Er) as (Hs & Hok & Hgo).
  destruct rr as [img|e]; [|by simplify_eq]. specialize (Hok img eq_refl) as ->.
  destruct (vol_step_frame _ _ _ Hs) as (Es & Ej & _).
  destruct (IH m1 (i + 1) _ (vol_step_geom _ _ _ Hs Hg) ltac:(by rewrite Ej) ltac:(lia) ltac:(lia) E) as (Hs2 & Hok2 & Hgo2).
  split; [by apply (vol_step_trans [] [] m m1)|]. split; [|done].
  intros v Hv. rewrite (Hok2 v Hv).
  rewrite (images_step [] m m1 off (1 + (i + 1)) n) by (done || set_solver).
  rewrite map_seq_cons. simpl. rewrite Z.add_0_r. f_equal. apply map_ext. intros k. f_equal. f_equal. lia.
Qed.

Lemma replay_apply_spec ts m off i r m' :
  j_geom m -> 1 <= off <= LOG m -> 0 <= i -> i + Z.of_nat (length ts) < 2 ^ 30 ->
  Forall (fun t => in_dev m t /\ ~ in_log (JS m) (LOG m) t) ts ->
  replay_apply off i ts m = (r, m') ->
  vol_step ts m m' /\ (r = Ok tt -> forall b, content m' b = apply_writes (zip ts
      (map (fun k => log_at (JS m) (content m) (adv (LOG m) off (1 + i + Z.of_nat k))) (seq 0 (length ts))))
      (content m) b) /\ goes_on r.
Proof.
  revert m i. induction ts as [|t ts IH]; intros m i Hg Ho Hi Hn Hts E; simpl replay_apply in E.
  { st_simp_in E. simplify_eq. by split; [apply vol_step_refl, Hg|]. }
  inversion Hts as [|? ? [Ht Htl] Hts']; subst.
  st_simp_in E. rewrite st_bind_eq in E. destruct (dev_read _ m) as [rr m1] eqn:Er. simpl length in Hn.
  destruct (log_read m off (1 + i) rr m1 Hg Ho ltac:(lia) Er) as (Hs & Hok & Hgo).
  destruct rr as [img|e].
  2:{ simplify_eq. split; [|by split]. eapply vol_step_weaken; [done|set_solver]. }
  specialize (Hok img eq_refl). pose proof (vol_step_geom _ _ _ Hs Hg) as Hg1.
  destruct (vol_step_frame _ _ _ Hs) as (Es & Ej & Eb & En).
  destruct (log_block_ok m (adv (LOG m) off (1 + i)) Hg ltac:(apply adv_range; apply Hg)) as [Hl Hby].
  rewrite <- Hok in Hl, Hby. rewrite <- Eb, (jg_bs m1 Hg1) in Hl.
  rewrite st_bind_eq in E. destruct (dev_write t img m1) as [rw m2] eqn:Ew.
  destruct (dev_write_step m1 t img rw m2 (jg_wf m1 Hg1) ltac:(unfold in_dev; by rewrite En) Hl Hby Ew) as (Hs2 & Hok2 & Hgo2).
  pose proof (vol_step_trans _ _ _ _ _ Hs Hs2) as Hs12. simpl in Hs12.
  destruct rw as [[]|e].
  2:{ simplify_eq. split; [|by split]. eapply vol_step_weaken; [exact Hs12|set_solver]. }
  specialize (Hok2 eq_refl). destruct (vol_step_frame _ _ _ Hs12) as (Es2 & Ej2 & Eb2 & En2).
  destruct (IH m2 (i + 1)) as (Hs3 & Hok3 & Hgo3); try done; try lia.
  - by apply (vol_step_geom _ _ _ Hs12).
  - by rewrite Ej2.
  - unfold in_dev. by rewrite En2, Es2, Ej2.
  - split; [by apply (vol_step_trans [t] ts m m2)|]. split; [|done]. intros ->. specialize (Hok3 eq_refl). intros b.
    rewrite Hok3, (images_step [t] m m2) by (done || by intros b' ->%list_elem_of_singleton).
    simpl length. rewrite map_seq_cons. cbn [zip zip_with]. rewrite Z.add_0_r.
    change (apply_writes ((t, ?x) :: ?ws) ?c b) with (apply_writes ws (fun b => if b =? t then x else c b) b).
    assert (map (fun k : nat => log_at (JS m) (content m) (adv (LOG m) off (1 + i + Z.of_nat (S k)))) (seq 0 (length ts))
      = map (fun k : nat => log_at (JS m) (content m) (adv (LOG m) off (1 + (i + 1) + Z.of_nat k))) (seq 0 (length ts))) as ->.
    { apply map_ext. intros k. f_equal. f_equal. lia. }
    rewrite <- Hok. unfold apply_writes at 2. cbn [foldl fst snd]. fold (apply_writes).
    apply apply_writes_agree. intros _. destruct (Z.eqb_spec b t) as [->|Hne]; [done|].
    apply (vol_step_content [t] m m2 b Hs12). set_solver.
Qed.

(** ** One transaction *)

Abbreviation mlog_txn m := (log_txn (JS m) (LOG m) (TOTAL m) (m_block_size m)).
Abbreviation mlog_chain m := (log_chain (JS m) (LOG m) (TOTAL m) (m_block_size m)).
Abbreviation mhome_ok m := (home_ok (JS m) (LOG m)).
Definition targets_of (txns : list (list (Z * list Z))) : list Z := fst <$> concat txns.

Lemma get_targets_length blk n : length (get_targets blk n) = n.
Proof. unfold get_targets. by rewrite length_map, length_seq. Qed.

Lemma desc_targets_some bs total sq blk ts :
  desc_targets bs total sq blk = Some ts ->
  rd 4 blk 0 = CARAFS_MAGIC_JDESC /\ rd 8 blk 8 = sq /\ Z.of_nat (length ts) <= CARAFS_TXN_MAX_BLOCKS /\
  Forall (fun t => t < total) ts.
Proof.
  unfold desc_targets. destruct (_ || _) eqn:E; [done|]. zbool.
  destruct ((rd 4 blk 16 =? 0) || (CARAFS_TXN_MAX_BLOCKS <? rd 4 blk 16)) eqn:En; [done|]. zbool.
  destruct (forallb _ _) eqn:Ef; [|done]. intros [= <-]. rewrite get_targets_length. split_and!; try done.
  - unfold CARAFS_TXN_MAX_BLOCKS in *. lia.
  - apply Forall_forall. intros t Ht%list_elem_of_In. rewrite forallb_forall in Ef.
    by apply Z.ltb_lt, Ef.
Qed.

Lemma zip_fst {A B} (l : list A) (k : list B) : length l = length k -> (zip l k).*1 = l.
Proof. intros. apply fst_zip. lia. Qed.

Lemma length_log_images js log c off n : length (log_images js log c off n) = n.
Proof. unfold log_images. by rewrite length_map, length_seq. Qed.

Lemma replay_txn_spec m off sq r m' :
  j_geom m -> 1 <= off <= LOG m ->
  (forall ws, mlog_txn m (content m) off sq = Some ws -> mhome_ok m ws) ->
  replay_txn off sq m = (r, m') ->
  match r with
  | Ok None => vol_step [] m m' /\ mlog_txn m (content m) off sq = None
  | Ok (Some (off', sq')) => exists ws, mlog_txn m (content m) off sq = Some ws /\
      vol_step ws.*1 m m' /\ (forall b, content m' b = apply_writes ws (content m) b) /\
      off' = next_txn (LOG m) off ws /\ sq' = u64 (sq + 1)
  | Err _ => vol_step (match mlog_txn m (content m) off sq with Some ws => ws.*1 | None => [] end) m m' /\ goes_on r
  end.
Proof.
  intros Hg Ho Hhome E. pose proof (jg_log m Hg) as Hlog. unfold replay_txn in E. st_simp_in E.
  assert (forall W x, vol_step [] m x -> vol_step W m x) as Hweak
    by (intros W x Hx; eapply vol_step_weaken; [exact Hx|set_solver]).
  rewrite st_bind_eq in E. destruct (dev_read (j_phys m off) m) as [rd0 m1] eqn:Ed.
  rewrite j_phys_eq in Ed by done.
  destruct (dev_read_step m _ rd0 m1 (jg_wf m Hg) (log_block m off Hg Ho) Ed) as (Hs1 & Hok1 & Hgo1).
  destruct rd0 as [desc|e]; [|simplify_eq; split; [by apply Hweak|done]]. specialize (Hok1 desc eq_refl).
  unfold log_txn in *. change (content m (JS m + off)) with (log_at (JS m) (content m) off) in Hok1.
  rewrite <- Hok1 in *. destruct (desc_targets _ _ _ _) as [ts|] eqn:Edt; [|st_simp_in E; by simplify_eq].
  destruct (desc_targets_some _ _ _ _ _ Edt) as (_ & _ & Hlen & Htot).
  unfold CARAFS_TXN_MAX_BLOCKS in Hlen.
  pose proof (vol_step_geom _ _ _ Hs1 Hg) as Hg1. destruct (vol_step_frame _ _ _ Hs1) as (Es1 & Ej1 & Eb1 & En1).
  rewrite st_bind_eq in E. destruct (replay_crc _ off 0 0 m1) as [rc m2] eqn:Ec.
  destruct (replay_crc_spec (length ts) m1 off 0 0 rc m2 Hg1 ltac:(by rewrite Ej1) ltac:(lia) ltac:(lia) Ec) as (Hs2 & Hok2 & Hgo2).
  pose proof (vol_step_trans _ _ _ _ _ Hs1 Hs2) as Hs12. simpl in Hs12.
  destruct rc as [crc|e]; [|simplify_eq; split; [by apply Hweak|done]]. specialize (Hok2 crc eq_refl).
  rewrite (images_step [] m m1) in Hok2 by (done || set_solver).
  change (crc = images_crc (log_images (JS m) (LOG m) (content m) off (length ts))) in Hok2.
  rewrite <- Hok2 in *. st_simp_in E.
  pose proof (vol_step_geom _ _ _ Hs12 Hg) as Hg2. destruct (vol_step_frame _ _ _ Hs12) as (Es2 & Ej2 & Eb2 & En2).
  rewrite st_bind_eq in E. destruct (dev_read _ m2) as [rr m3] eqn:Er.
  destruct (log_read m2 off (1 + Z.of_nat (length ts)) rr m3 Hg2 ltac:(by rewrite Ej2) ltac:(lia) Er) as (Hs3 & Hok3 & Hgo3).
  pose proof (vol_step_trans _ _ _ _ _ Hs12 Hs3) as Hs13. simpl in Hs13.
  destruct rr as [cm|e]; [|simplify_eq; split; [by apply Hweak|done]]. specialize (Hok3 cm eq_refl).
  unfold log_at in Hok3. rewrite Es2, Ej2, (vol_step_content _ _ _ _ Hs12) in Hok3 by set_solver.
  change (cm = log_at (JS m) (content m) (adv (LOG m) off (1 + Z.of_nat (length ts)))) in Hok3.
  rewrite <- Hok3 in *. destruct (commit_ok _ _ _ _ cm) eqn:Ek; simpl in E; [|st_simp_in E; by simplify_eq].
  set (imgs := log_images (JS m) (LOG m) (content m) off (length ts)) in *.
  assert ((zip ts imgs).*1 = ts) as Ezip by (apply zip_fst; symmetry; apply length_log_images).
  specialize (Hhome _ eq_refl).
  pose proof (vol_step_geom _ _ _ Hs13 Hg) as Hg3. destruct (vol_step_frame _ _ _ Hs13) as (Es3 & Ej3 & Eb3 & En3).
  rewrite st_bind_eq in E. destruct (replay_apply off 0 ts m3) as [ra m4] eqn:Ea.
  assert (Forall (fun t => in_dev m3 t /\ ~ in_log (JS m3) (LOG m3) t) ts) as Hts.
  { unfold home_ok in Hhome. rewrite <- (Forall_fmap fst (fun t => 0 <= t /\ ~ in_log (JS m) (LOG m) t)), Ezip in Hhome.
    rewrite Forall_forall in *. intros t Ht. specialize (Hhome t Ht). specialize (Htot t Ht).
    pose proof (jg_total m Hg). unfold in_dev. rewrite En3, Es3, Ej3. split; [lia|apply Hhome]. }
  destruct (replay_apply_spec ts m3 off 0 ra m4 Hg3 ltac:(by rewrite Ej3) ltac:(lia) ltac:(lia) Hts Ea) as (Hs4 & Hok4 & Hgo4).
  pose proof (vol_step_trans _ _ _ _ _ Hs13 Hs4) as Hs14. simpl in Hs14.
  destruct ra as [[]|e]; [|simplify_eq; simpl; by rewrite Ezip].
  specialize (Hok4 eq_refl). rewrite (images_step [] m m3) in Hok4 by (done || set_solver).
  st_simp_in E. simplify_eq. exists (zip ts imgs). rewrite Ezip. split_and!; try done.
  - intros b. rewrite Hok4. apply apply_writes_agree. intros _. by apply (vol_step_content _ _ _ _ Hs13), not_elem_of_nil.
  - destruct (vol_step_frame _ _ _ Hs14) as (_ & Ej4 & _). rewrite j_adv_eq; rewrite ?Ej4; try done; try lia.
    unfold next_txn. rewrite length_zip_with_l_eq by (symmetry; apply length_log_images). done.
Qed.

(** ** The loop *)

Lemma replay_loop_spec fuel m off sq txns off' sq' r m' :
  j_geom m -> 1 <= off <= LOG m ->
  mlog_chain m (content m) off sq txns off' sq' -> Forall (mhome_ok m) txns -> (length txns < fuel)%nat ->
  replay_loop fuel off sq m = (r, m') ->
  vol_step (targets_of txns) m m' /\
  (forall last, r = Ok last ->
     last = Some (off', sq') /\ forall b, content m' b = apply_writes (concat txns) (content m) b) /\
  goes_on r.
Proof.
  revert m off sq txns. induction fuel as [|fuel IH]; intros m off sq txns Hg Ho Hch Hh Hf E; [lia|].
  simpl in E. rewrite st_bind_eq in E. destruct (replay_txn off sq m) as [rt m1] eqn:Et.
  assert (forall ws, mlog_txn m (content m) off sq = Some ws -> mhome_ok m ws) as Hw.
  { intros ws Hws. inversion Hch; subst; [congruence|]. inversion Hh; subst. congruence. }
  pose proof (replay_txn_spec m off sq rt m1 Hg Ho Hw Et) as Ht.
  inversion Hch as [? ? En|? ? ws txns' ? ? En Hch']; subst; rewrite En in Ht.
  - destruct rt as [[[o s]|]|e].
    + destruct Ht as (ws & ? & _). done.
    + destruct Ht as [Hs _]. st_simp_in E. simplify_eq. split; [done|]. split; [|done]. intros last [= <-]. split; [done|].
      intros b. apply (vol_step_content _ _ _ _ Hs), not_elem_of_nil.
    + simplify_eq. by destruct Ht.
  - inversion Hh; subst. destruct rt as [[[o s]|]|e].
    + destruct Ht as (ws' & [= <-] & Hs & Hc & -> & ->).
      destruct (vol_step_frame _ _ _ Hs) as (Es & Ej & Eb & _).
      pose proof (jg_log m Hg) as Hlog.
      destruct (IH m1 (next_txn (LOG m) off ws) (u64 (sq + 1)) txns') as (Hs2 & Hok & Hgo); try done.
      * by apply (vol_step_geom _ _ _ Hs).
      * rewrite Ej. apply adv_range. lia.
      * rewrite Es, Ej, Eb. apply (log_chain_ext (JS m) (LOG m) (TOTAL m) (m_block_size m) ltac:(lia) (content m)); [|apply adv_range; lia|done].
        intros b Hb. apply (vol_step_content _ _ _ _ Hs). apply (home_ok_other (JS m) (LOG m)); [done|]. unfold in_log. lia.
      * by rewrite Es, Ej.
      * simpl in Hf. lia.
      * split.
        { unfold targets_of. simpl. rewrite fmap_app. by apply (vol_step_trans _ _ m m1). }
        split; [|done]. intros last Hr. destruct (Hok last Hr) as [-> Hc2]. split; [done|]. intros b. rewrite Hc2. simpl.
        rewrite apply_writes_app. apply apply_writes_agree. intros _. apply Hc.
    + destruct Ht. done.
    + simplify_eq. destruct Ht as [Ht Hgo]. split; [|by split]. unfold targets_of. simpl. rewrite fmap_app.
      eapply vol_step_weaken; [exact Ht|]. simpl. set_solver.
Qed.

(** ** The journal superblock *)

Definition j_set_log m : mount :=
  set_j (mkJ (u32 (sb_journal_blocks (m_sb m) - 1)) (j_head (m_j m)) (j_head_seq (m_j m))
           (j_tail (m_j m)) (j_next_seq (m_j m))) m.

(** The checks of [jsb_read] on the block. *)
Definition jsb_fields (bs : nat) (log : Z) (blk : list Z) : result (Z * Z) :=
  if negb (rd 4 blk 0 =? CARAFS_MAGIC_JSB) || negb (block_crc_ok blk bs JSB_CRC) then Err CARA_EBADMAGIC
  else if (rd 4 blk 16 <? 1) || (log <? rd 4 blk 16) then Err CARA_EINVAL
  else Ok (rd 8 blk 8, rd 4 blk 16).

Lemma jsb_fields_image bs log sq head :
  (512 <= bs)%nat -> in_u64 sq -> 1 <= head <= log -> log < 2 ^ 32 ->
  jsb_fields bs log (jsb_image bs sq head) = Ok (sq, head) /\
  length (jsb_image bs sq head) = bs /\ bytes_ok (jsb_image bs sq head).
Proof.
  intros Hbs Hsq Hh Hl. unfold in_u64 in Hsq.
  assert (length (zeros bs) = bs) as Hz by apply length_replicate.
  assert (bytes_ok (zeros bs)) as Hzb by auto with cara.
  unfold jsb_fields, jsb_image. set (blk := wr 4 (wr 8 (wr 4 (zeros bs) 0 _) 8 sq) 16 head).
  assert (length blk = bs) as Hlen by (unfold blk; by rewrite !length_wr).
  assert (bytes_ok blk) as Hby by (unfold blk; auto using wr_bytes_ok).
  split_and!; [|unfold carafs_put_crc; by rewrite length_wr|by apply wr_bytes_ok].
  rewrite block_crc_ok_put_crc by (done || unfold JSB_CRC; lia).
  unfold carafs_put_crc, blk, JSB_CRC.
  repeat first [rewrite rd_wr_same by (rewrite ?length_wr; first [lia|split; [done|lia]|done])
               |rewrite rd_wr_other by lia].
  rewrite Z.eqb_refl. simpl. rewrite (proj2 (Z.ltb_ge _ _)), (proj2 (Z.ltb_ge log head)) by lia. done.
Qed.

Lemma jsb_fields_range bs log blk sq head :
  bytes_ok blk -> (512 <= length blk)%nat -> jsb_fields bs log blk = Ok (sq, head) -> in_u64 sq /\ 1 <= head <= log.
Proof.
  intros Hb Hl. unfold jsb_fields. destruct (_ || _); [done|].
  destruct (_ || _) eqn:E; [done|]. intros [= <- <-]. zbool. split; [|lia].
  pose proof (le_get_range (sub 8 8 blk) (sub_bytes_ok _ _ _ Hb)) as Hr.
  rewrite length_sub in Hr by lia. exact Hr.
Qed.

Lemma jsb_read_spec m r m' :
  j_geom (j_set_log m) -> jsb_read m = (r, m') ->
  vol_step [] (j_set_log m) m' /\
  (r = jsb_fields (m_block_size m) (LOG (j_set_log m)) (content m (JS m)) \/ is_ok r = false /\ goes_on r).
Proof.
  intros Hg E. unfold jsb_read in E. st_simp_in E. fold (j_set_log m) in E.
  rewrite st_bind_eq in E. destruct (dev_read _ (j_set_log m)) as [rr m1] eqn:Er.
  assert (in_dev (j_set_log m) (JS (j_set_log m))) as Hin.
  { destruct Hg. unfold in_dev. lia. }
  destruct (dev_read_step _ _ _ _ (jg_wf _ Hg) Hin Er) as (Hs & Hok & Hgo).
  destruct rr as [blk|e]; [|simplify_eq; split; [done|by right]].
  enough (vol_step [] (j_set_log m) m' /\ r = jsb_fields (m_block_size m) (LOG (j_set_log m)) (content m (JS m)))
    by (split; [|left]; tauto).
  specialize (Hok blk eq_refl) as ->.
  unfold jsb_fields. change (JS (j_set_log m)) with (JS m) in *.
  change (content (j_set_log m)) with (content m) in *.
  change (m_block_size (j_set_log m)) with (m_block_size m) in *.
  destruct (_ || _); [unfold st_err in E; by simplify_eq|].
  destruct (_ || _); [unfold st_err in E; by simplify_eq|]. st_simp_in E. by simplify_eq.
Qed.

Lemma jsb_write_spec m r m' :
  j_geom m -> (512 <= m_block_size m)%nat -> in_u64 (j_head_seq (m_j m)) -> 1 <= j_head (m_j m) <= LOG m ->
  jsb_write m = (r, m') ->
  vol_step [JS m] m m' /\
  (r = Ok tt -> content m' (JS m) = jsb_image (m_block_size m) (j_head_seq (m_j m)) (j_head (m_j m))) /\ goes_on r.
Proof.
  intros Hg Hbs Hsq Hh E. unfold jsb_write in E. st_simp_in E. rewrite st_bind_eq in E.
  destruct (dev_write _ _ m) as [rw m1] eqn:Ew. pose proof (jg_log m Hg).
  destruct (jsb_fields_image (m_block_size m) (LOG m) _ _ Hbs Hsq Hh ltac:(lia)) as (_ & Hl & Hby).
  assert (in_dev m (JS m)) as Hin by (destruct Hg; unfold in_dev; lia).
  rewrite (jg_bs m Hg) in Hl at 2.
  destruct (dev_write_step _ _ _ _ _ (jg_wf m Hg) Hin Hl Hby Ew) as (Hs & Hok & Hgo).
  destruct rw as [[]|e]; [|by simplify_eq].
  destruct (dev_flush_step m1 r m' ltac:(by destruct Hs as (d & -> & Hd & _)) E) as (Hs2 & Hgo2).
  pose proof (vol_step_trans _ _ _ _ _ Hs Hs2) as Hs12. split_and!; try done.
  intros _. rewrite (vol_step_content _ _ _ _ Hs2) by apply not_elem_of_nil. by apply Hok.
Qed.

(** ** Recovery *)

(** A volume that can be replayed: geometry as [Carafs_Mount] checks it, a valid journal
    superblock, and no logged home block inside the journal region. *)
Record replay_ready m (sq head : Z) : Prop := {
  rr_geom : j_geom (j_set_log m);
  rr_bs : (512 <= m_block_size m)%nat;
  rr_jsb : jsb_fields (m_block_size m) (LOG (j_set_log m)) (content m (JS m)) = Ok (sq, head);
  rr_home txns off' sq' :
    mlog_chain (j_set_log m) (content m) head sq txns off' sq' -> Forall (mhome_ok (j_set_log m)) txns
}.

Lemma replay_spec m sq head r m' :
  replay_ready m sq head -> carafs_journal_replay m = (r, m') ->
  exists txns off' sq',
    mlog_chain (j_set_log m) (content m) head sq txns off' sq' /\
    (length txns <= Z.to_nat (LOG (j_set_log m)))%nat /\ goes_on r /\
    (forall b, b ∉ targets_of txns -> b <> JS m -> content m' b = content m b) /\
    (r = Ok tt ->
       (forall b, b <> JS m -> content m' b = apply_writes (concat txns) (content m) b) /\
       content m' (JS m) = jsb_image (m_block_size m) sq' off' /\
       in_u64 sq' /\ 1 <= off' <= LOG (j_set_log m) /\
       exists d, m' = set_bdev d (set_j (mkJ (LOG (j_set_log m)) off' sq' off' sq') m) /\ j_geom m' /\ dev_n m' = dev_n m).
Proof.
  intros [Hg Hbs Hjsb Hhome] E. set (m0 := j_set_log m) in *. pose proof (jg_log m0 Hg) as Hlog.
  assert (in_dev m0 (JS m0)) as Hin by (destruct Hg; unfold in_dev; lia).
  destruct (bdev_wf_content (m_bdev m0) (JS m0) (jg_wf m0 Hg) Hin) as [Hjl Hjb].
  destruct (jsb_fields_range _ _ _ _ _ Hjb ltac:(rewrite Hjl, <- (jg_bs m0 Hg); exact Hbs) Hjsb) as [Hsq Hhead].
  destruct (log_chain_total (JS m0) (LOG m0) (TOTAL m0) (m_block_size m0) ltac:(lia) (content m0) head sq
              ltac:(lia) Hhead Hsq) as (txns & off' & sq' & Hch & Hlen).
  pose proof (Hhome _ _ _ Hch) as Hh. exists txns, off', sq'.
  split; [done|]. split; [done|].
  unfold carafs_journal_replay in E. rewrite st_bind_eq in E. destruct (jsb_read m) as [rj m1] eqn:Ej.
  destruct (jsb_read_spec m rj m1 Hg Ej) as [Hs1 Hr]. fold m0 in Hs1, Hr.
  assert (forall b, content m0 b = content m b) as Ec by done.
  destruct Hr as [->|[Hno Hgo]].
  2:{ destruct rj; [done|]. simplify_eq. split_and!; try done. intros b _ _.
      by rewrite (vol_step_content _ _ _ _ Hs1) by apply not_elem_of_nil. }
  rewrite Hjsb in E. st_simp_in E. rewrite st_bind_eq in E.
  destruct (vol_step_frame _ _ _ Hs1) as (Es1 & Ej1 & Eb1 & En1). pose proof (vol_step_geom _ _ _ Hs1 Hg) as Hg1.
  destruct (replay_loop _ head sq m1) as [rl m2] eqn:El.
  destruct (replay_loop_spec (replay_fuel m1) m1 head sq txns off' sq' rl m2) as (Hs2 & Hok2 & Hgo2);
    rewrite ?Es1, ?Ej1, ?Eb1; try done; [|unfold replay_fuel; rewrite Ej1; lia|].
  { apply (log_chain_ext (JS m0) (LOG m0) (TOTAL m0) (m_block_size m0) ltac:(lia) (content m0)); try done.
    intros b _. by rewrite (vol_step_content _ _ _ _ Hs1) by apply not_elem_of_nil. }
  pose proof (vol_step_trans _ _ _ _ _ Hs1 Hs2) as Hs12. simpl in Hs12.
  destruct rl as [last|e].
  2:{ simplify_eq. split_and!; try done. intros b Hb _. by rewrite (vol_step_content _ _ _ _ Hs12). }
  destruct (Hok2 last eq_refl) as [-> Hc2]. cbn [default] in E.
  pose proof (vol_step_geom _ _ _ Hs12 Hg) as Hg2. rewrite st_bind_eq in E.
  destruct (dev_flush m2) as [rf m3] eqn:Ef. destruct (dev_flush_step m2 rf m3 (jg_wf _ Hg2) Ef) as [Hs3 Hgo3].
  pose proof (vol_step_trans _ _ _ _ _ Hs12 Hs3) as Hs13. rewrite app_nil_r in Hs13.
  destruct rf as [[]|e].
  2:{ simplify_eq. split_and!; try done. intros b Hb _. by rewrite (vol_step_content _ _ _ _ Hs13). }
  st_simp_in E. set (m4 := j_set_cursor off' sq' m3) in *.
  destruct (vol_step_frame _ _ _ Hs13) as (Es3 & Ej3 & Eb3 & En3).
  pose proof (vol_step_geom _ _ _ Hs13 Hg) as Hg3.
  destruct (log_chain_off (JS m0) (LOG m0) (TOTAL m0) (m_block_size m0) ltac:(lia) _ _ _ _ _ _ Hhead Hch) as [Hoff' _].
  assert (in_u64 sq') as Hsq' by (by eapply log_chain_seq).
  assert (j_geom m4) as Hg4 by (destruct Hg3; by split).
  destruct (jsb_write_spec m4 r m') as (Hs5 & Hok5 & Hgo5); auto; simpl; rewrite ?Eb3, ?Ej3; try done.
  assert (JS m4 = JS m) as EJS by (simpl; by rewrite Es3). rewrite EJS in *.
  assert (forall b, b <> JS m -> content m' b = content m3 b) as Hc5.
  { intros b Hb. rewrite (vol_step_content _ _ _ _ Hs5) by set_solver. done. }
  split; [done|]. split.
  { intros b Hb Hbj. rewrite Hc5 by done. by rewrite (vol_step_content _ _ _ _ Hs13). }
  intros ->. split_and!; try done; try lia.
  - intros b Hb. rewrite Hc5 by done. rewrite (vol_step_content _ _ _ _ Hs3) by apply not_elem_of_nil.
    rewrite Hc2. apply apply_writes_agree. intros _. by rewrite (vol_step_content _ _ _ _ Hs1) by apply not_elem_of_nil.
  - rewrite Hok5 by done. simpl. by rewrite Eb3.
  - apply Hoff'.
  - pose proof (vol_step_geom _ _ _ Hs5 Hg4) as Hg5.
    destruct (vol_step_frame _ _ _ Hs5) as (_ & _ & _ & En5).
    assert (dev_n m' = dev_n m) as En by (rewrite En5; exact En3).
    destruct Hs13 as (d3 & -> & _). destruct Hs5 as (d5 & -> & _). by exists d5.
Qed.

(** A device image left behind by a crash: as [m]'s, but for the blocks [W]. *)
Record crash_image (W : list Z) m (d : D) : Prop := {
  cr_wf : bdev_wf d;
  cr_n : bdev_n_blocks d = bdev_n_blocks (m_bdev m);
  cr_bs : bdev_block_size d = bdev_block_size (m_bdev m);
  cr_content b : b ∉ W -> bdev_content d b = content m b
}.

Lemma targets_home js log txns b : Forall (home_ok js log) txns -> in_log js log b -> b ∉ targets_of txns.
Proof.
  intros Hh Hb Hin. unfold targets_of in Hin. apply list_elem_of_fmap in Hin as (w & -> & Hw).
  apply list_elem_of_In, in_concat in Hw as (ws & Hws & Hw).
  rewrite Forall_forall in Hh. specialize (Hh ws ltac:(by apply list_elem_of_In)).
  unfold home_ok in Hh. rewrite Forall_forall in Hh.
  by destruct (Hh w ltac:(by apply list_elem_of_In)).
Qed.

Lemma replay_ready_head m sq head : replay_ready m sq head -> 1 <= head <= LOG (j_set_log m).
Proof.
  intros Hr. pose proof (rr_jsb _ _ _ Hr) as Hj. unfold jsb_fields in Hj. destruct (_ || _) in Hj; [done|].
  destruct (_ || _) eqn:E in Hj; [done|]. simplify_eq. zbool. lia.
Qed.

(** A crash that spared the journal region leaves the volume as replayable as it was. *)
Lemma crash_ready m sq head txns off' sq' d :
  replay_ready m sq head -> mlog_chain (j_set_log m) (content m) head sq txns off' sq' ->
  crash_image (targets_of txns) m d ->
  replay_ready (set_bdev d m) sq head /\
  mlog_chain (j_set_log m) (bdev_content d) head sq txns off' sq'.
Proof.
  intros Hr Hch [Hw Hn Hb Hc]. pose proof (replay_ready_head _ _ _ Hr) as Hhead. destruct Hr as [Hg Hbs Hj Hh].
  pose proof (Hh _ _ _ Hch) as Hhome. pose proof (jg_log _ Hg) as Hlog. pose proof Hg as Hg0.
  assert (forall b, in_log (JS m) (LOG (j_set_log m)) b -> bdev_content d b = content m b) as Hsame.
  { intros b Hbl. apply Hc. by eapply targets_home. }
  assert (mlog_chain (j_set_log m) (bdev_content d) head sq txns off' sq') as Hch'.
  { apply (log_chain_ext (JS m) (LOG (j_set_log m)) (TOTAL m) (m_block_size m) ltac:(lia) (content m)); try done.
    intros b Hbl. apply Hsame. unfold in_log. simpl in *. lia. }
  split; [|done]. split; try done.
  - destruct Hg0. split; unfold dev_n in *; simpl in *; congruence.
  - simpl. rewrite Hsame; [done|]. unfold in_log. simpl in *. lia.
  - intros t o s Ht. destruct (log_chain_fun _ _ _ _ _ _ _ _ _ _ _ _ _ Hch' Ht) as (-> & _). done.
Qed.

(** C2: Recovery. [carafs_journal_replay] terminates within one round per log block; on
    success every block except the journal superblock holds exactly the result of applying
    the complete transactions of the log in order, and the journal superblock names the end
    of the chain. It succeeds whenever the device does; when the device fails midway, no
    block but the home blocks of those transactions (and the journal superblock) changed. *)
Theorem journal_replay_recovers m sq head r m' :
  replay_ready m sq head -> carafs_journal_replay m = (r, m') ->
  exists txns off' sq',
    mlog_chain (j_set_log m) (content m) head sq txns off' sq' /\
    (length txns <= Z.to_nat (LOG (j_set_log m)))%nat /\
    (dev_reliable (D := D) -> r = Ok tt) /\
    (forall b, b ∉ targets_of txns -> b <> JS m -> content m' b = content m b) /\
    (r = Ok tt ->
       (forall b, b <> JS m -> content m' b = apply_writes (concat txns) (content m) b) /\
       jsb_fields (m_block_size m) (LOG (j_set_log m)) (content m' (JS m)) = Ok (sq', off') /\
       m_j m' = mkJ (LOG (j_set_log m)) off' sq' off' sq').
Proof.
  intros Hr E. destruct (replay_spec m sq head r m' Hr E) as (txns & off' & sq' & Hch & Hl & Hgo & Hot & Hok).
  exists txns, off', sq'. split_and!; try done.
  - intros Hrel. specialize (Hgo Hrel). by destruct r as [[]|].
  - intros ->. destruct (Hok eq_refl) as (H1 & H2 & H3 & H4 & d & -> & _). split_and!; try done.
    rewrite H2. apply jsb_fields_image; try done; [apply Hr|]. pose proof (jg_log _ (rr_geom _ _ _ Hr)). lia.
Qed.


(** Recovery is idempotent: replaying a volume just recovered changes nothing. *)
Theorem journal_replay_idempotent m sq head m1 m2 :
  replay_ready m sq head -> carafs_journal_replay m = (Ok tt, m1) ->
  carafs_journal_replay m1 = (Ok tt, m2) -> forall b, content m2 b = content m1 b.
Proof.
  intros Hr E1 E2 b. destruct (replay_spec _ _ _ _ _ Hr E1) as (t1 & o1 & s1 & Hch1 & _ & _ & _ & Hok1).
  destruct (Hok1 eq_refl) as (Hc1 & Hj1 & Hs1 & Ho1 & d & E & Hg1 & _). pose proof (rr_home _ _ _ Hr _ _ _ Hch1) as Hh.
  pose proof (jg_log _ (rr_geom _ _ _ Hr)) as Hlog. pose proof (rr_bs _ _ _ Hr) as Hbs.
  destruct (jsb_fields_image (m_block_size m) (LOG (j_set_log m)) s1 o1 Hbs Hs1 Ho1 ltac:(lia)) as (Hf & _).
  pose proof (replay_ready_head _ _ _ Hr) as Hhead.
  assert (mlog_chain (j_set_log m) (content m1) o1 s1 [] o1 s1) as Hend.
  { destruct (log_chain_off (JS m) (LOG (j_set_log m)) (TOTAL m) (m_block_size m) ltac:(lia) _ _ _ _ _ _ Hhead Hch1)
      as [_ Hnone]. constructor. rewrite <- Hnone. apply log_txn_ext; [lia|done|]. intros x Hx. simpl in Hx.
    rewrite Hc1 by lia. apply apply_writes_other. eapply targets_home; [done|]. unfold in_log. simpl in *. lia. }
  assert (j_set_log m1 = m1) as Elog by (subst m1; done).
  assert (replay_ready m1 s1 o1) as Hr1.
  { rewrite <- Elog in Hg1.
    assert (JS m1 = JS m /\ m_block_size m1 = m_block_size m /\ LOG (j_set_log m1) = LOG (j_set_log m)) as (EJ & Eb & El)
      by (subst m1; done).
    split; [done|by rewrite Eb|by rewrite EJ, Eb, El, Hj1|].
    intros t o s Ht. assert (mlog_chain (j_set_log m) (content m1) o1 s1 t o s) as Ht' by (subst m1; exact Ht).
    destruct (log_chain_fun _ _ _ _ _ _ _ _ _ _ _ _ _ Hend Ht') as (-> & _). constructor. }
  destruct (replay_spec _ _ _ _ _ Hr1 E2) as (t2 & o2 & s2 & Hch2 & _ & _ & _ & Hok2).
  assert (mlog_chain (j_set_log m1) (content m1) o1 s1 [] o1 s1) as Hend1 by (subst m1; exact Hend).
  destruct (log_chain_fun _ _ _ _ _ _ _ _ _ _ _ _ _ Hend1 Hch2) as (-> & -> & ->).
  destruct (Hok2 eq_refl) as (Hc2 & Hj2 & _). assert (JS m1 = JS m /\ m_block_size m1 = m_block_size m) as [EJ Eb] by (subst m1; done).
  rewrite EJ, Eb in *. destruct (decide (b = JS m)) as [->|Hne]; [by rewrite Hj2, Hj1|by rewrite Hc2].
Qed.

End Replay.
