(* ===== verification/Wal.v ===== *)
(** Crash atomicity of the CaraFS write-ahead log: what [carafs_journal_append] puts in the log
    is what [carafs_journal_replay] recovers, and a crash during the append recovers either
    all of the transaction or none of it. *)

From S2P Require Import Prelude Format Volume Cache Journal.

#[local] Arguments u32 : simpl never.
#[local] Arguments u64 : simpl never.
#[local] Arguments Z.to_nat : simpl never.

(** * The block formats read back *)

Ltac rdwr := repeat first
  [ rewrite rd_wr_same by (rewrite ?length_wr; first [lia | split; [done|lia] | done])
  | rewrite rd_wr_other by lia ].

Lemma length_put_targets blk i ts : length (put_targets blk i ts) = length blk.
Proof. revert blk i. induction ts as [|t ts IH]; intros blk i; simpl; [done|]. by rewrite IH, length_wr. Qed.
Lemma put_targets_bytes blk i ts : bytes_ok blk -> bytes_ok (put_targets blk i ts).
Proof. revert blk i. induction ts as [|t ts IH]; intros blk i H; simpl; [done|]. by apply IH, wr_bytes_ok. Qed.
Lemma rd_put_targets_before n blk i ts off :
  (off + n <= CARAFS_JDESC_TARGETS_OFF + 8 * i)%nat -> rd n (put_targets blk i ts) off = rd n blk off.
Proof.
  revert blk i. induction ts as [|t ts IH]; intros blk i H; cbn [put_targets]; [done|].
  rewrite IH by lia. apply rd_wr_other. lia.
Qed.
Lemma rd_put_targets blk i ts j t :
  (CARAFS_JDESC_TARGETS_OFF + 8 * (i + length ts) <= length blk)%nat -> Forall in_u64 ts -> ts !! j = Some t ->
  rd 8 (put_targets blk i ts) (CARAFS_JDESC_TARGETS_OFF + 8 * (i + j)) = t.
Proof.
  revert blk i j. induction ts as [|t' ts IH]; intros blk i j Hl Hu Hj; [done|].
  inversion Hu; subst. cbn [put_targets length] in *. destruct j as [|j]; simpl in Hj.
  - simplify_eq. rewrite rd_put_targets_before by lia.
    rewrite Nat.add_0_r. apply rd_wr_same; [lia|done].
  - rewrite <- (IH (wr 8 blk (CARAFS_JDESC_TARGETS_OFF + 8 * i) t') (S i) j); try done; [f_equal; lia|rewrite length_wr; lia].
Qed.
Lemma get_put_targets blk ts :
  (CARAFS_JDESC_TARGETS_OFF + 8 * length ts <= length blk)%nat -> Forall in_u64 ts ->
  get_targets (put_targets blk 0 ts) (length ts) = ts.
Proof.
  intros Hl Hu. apply list_eq. intros j. unfold get_targets. rewrite list_lookup_fmap.
  destruct (ts !! j) as [t|] eqn:E.
  - pose proof (lookup_lt_Some _ _ _ E). rewrite lookup_seq_lt by done. simpl. f_equal.
    by apply (rd_put_targets blk 0 ts j).
  - apply lookup_ge_None in E. by rewrite lookup_seq_ge.
Qed.

Definition txn_size_ok (ts : list Z) : Prop := 0 < Z.of_nat (length ts) <= CARAFS_TXN_MAX_BLOCKS.

Section Images.
Variables (bs : nat) (sq : Z).
Hypothesis Hbs : (512 <= bs)%nat.
Hypothesis Hsq : in_u64 sq.

Lemma zeros_ok n : length (zeros n) = n /\ bytes_ok (zeros n).
Proof. split; [apply length_replicate|auto with cara]. Qed.

Lemma jdesc_image_spec ts total :
  txn_size_ok ts -> Forall in_u64 ts -> Forall (fun t => t < total) ts ->
  let blk := jdesc_image bs sq ts in
  length blk = bs /\ bytes_ok blk /\ rd 8 blk 8 = sq /\ desc_targets bs total sq blk = Some ts.
Proof.
  intros Hn Hu Ht. unfold txn_size_ok, CARAFS_TXN_MAX_BLOCKS, in_u64 in *. simpl.
  unfold jdesc_image. destruct (zeros_ok bs) as [Hz Hzb].
  set (b0 := wr 4 (wr 8 (wr 4 (zeros bs) 0 _) 8 sq) 16 _). set (blk := put_targets b0 0 ts).
  assert (length b0 = bs) as Hb0 by (unfold b0; by rewrite !length_wr).
  assert (length blk = bs) as Hlen by (unfold blk; by rewrite length_put_targets).
  assert (bytes_ok blk) as Hby by (apply put_targets_bytes; unfold b0; auto using wr_bytes_ok).
  assert (forall n off, (off + n <= 4 \/ 8 <= off)%nat -> rd n (carafs_put_crc blk bs JDESC_CRC) off = rd n blk off) as Hcrc.
  { intros n off Ho. unfold carafs_put_crc, JDESC_CRC. apply rd_wr_other. lia. }
  assert (forall n off, (off + n <= 24)%nat -> rd n blk off = rd n b0 off) as Hpre.
  { intros n off Ho. apply rd_put_targets_before. unfold CARAFS_JDESC_TARGETS_OFF. lia. }
  assert (rd 8 (carafs_put_crc blk bs JDESC_CRC) 8 = sq) as Hs.
  { rewrite Hcrc, Hpre by lia. unfold b0. rdwr. done. }
  split_and!; [unfold carafs_put_crc; by rewrite length_wr|by apply wr_bytes_ok|done|].
  unfold desc_targets. rewrite Hs, Z.eqb_refl, block_crc_ok_put_crc by (done || unfold JDESC_CRC; lia).
  rewrite Hcrc, Hpre by lia. replace (rd 4 b0 0) with CARAFS_MAGIC_JDESC by (unfold b0; rdwr; done).
  rewrite Z.eqb_refl. cbn [negb orb].
  rewrite Hcrc, Hpre by lia. replace (rd 4 b0 16) with (Z.of_nat (length ts)) by (unfold b0; rdwr; done).
  rewrite (proj2 (Z.eqb_neq _ _)), (proj2 (Z.ltb_ge _ _)) by (unfold CARAFS_TXN_MAX_BLOCKS; lia). simpl.
  rewrite Nat2Z.id.
  assert (get_targets (carafs_put_crc blk bs JDESC_CRC) (length ts) = ts) as ->.
  { rewrite <- (get_put_targets b0 ts) at 2; [|unfold CARAFS_JDESC_TARGETS_OFF; lia|done].
    apply map_ext. intros i. apply Hcrc. unfold CARAFS_JDESC_TARGETS_OFF. lia. }
  assert (forallb (fun t => t <? total) ts = true) as ->; [|done].
  apply forallb_forall. intros t Hin%list_elem_of_In. rewrite Forall_forall in Ht. by apply Z.ltb_lt, Ht.
Qed.

Lemma jcommit_image_spec crc n :
  in_u32 crc -> in_u32 n ->
  let blk := jcommit_image bs sq crc n in
  length blk = bs /\ bytes_ok blk /\ rd 4 blk 0 = CARAFS_MAGIC_JCOMMIT /\ commit_ok bs sq n crc blk = true.
Proof.
  unfold in_u32, in_u64 in *. intros Hc Hn. simpl. unfold jcommit_image. destruct (zeros_ok bs) as [Hz Hzb].
  set (blk := wr 4 (wr 4 (wr 8 (wr 4 (zeros bs) 0 _) 8 sq) 16 crc) 20 n).
  assert (length blk = bs) as Hlen by (unfold blk; by rewrite !length_wr).
  assert (bytes_ok blk) as Hby by (unfold blk; auto using wr_bytes_ok).
  assert (rd 4 (carafs_put_crc blk bs JCOMMIT_CRC) 0 = CARAFS_MAGIC_JCOMMIT) as Hm.
  { unfold carafs_put_crc, JCOMMIT_CRC, blk. rdwr. done. }
  split_and!; [unfold carafs_put_crc; by rewrite length_wr|by apply wr_bytes_ok|done|].
  unfold commit_ok. rewrite Hm, block_crc_ok_put_crc by (done || unfold JCOMMIT_CRC; lia).
  unfold carafs_put_crc, JCOMMIT_CRC, blk. rdwr. by rewrite !Z.eqb_refl.
Qed.
End Images.

Lemma images_crc_range imgs : in_u32 (images_crc imgs).
Proof.
  unfold images_crc. destruct imgs as [|img imgs _] using rev_ind; [done|].
  rewrite foldl_app. apply crc32c_range.
Qed.

(** * A transaction appended to a log *)

Section Append.
Variables (js log total : Z) (bs : nat).
Hypothesis Hlog : 1 <= log.
Implicit Types (c : Z -> list Z) (off sq : Z).

Abbreviation at_ := (log_at js).
Abbreviation adv_ := (adv log).
Abbreviation txn_at := (log_txn js log total bs).
Abbreviation chain := (log_chain js log total bs).

Definition chain_len (txns : list (list (Z * list Z))) : Z :=
  foldr (fun ws n => Z.of_nat (length ws) + 2 + n) 0 txns.

Lemma chain_len_nonneg txns : 0 <= chain_len txns.
Proof. induction txns as [|ws txns IH]; simpl; lia. Qed.

Lemma chain_tail c off sq txns off' sq' :
  1 <= off <= log -> chain c off sq txns off' sq' -> off' = adv_ off (chain_len txns).
Proof.
  intros Ho H. induction H as [off sq E|off sq ws txns off' sq' E H IH]; simpl; [by rewrite adv_0|].
  rewrite IH by (apply adv_range; lia). unfold next_txn. rewrite adv_adv by done. f_equal. 
Qed.

(** A transaction is read from its own blocks. *)
Lemma log_txn_span c c' off sq ws :
  1 <= off <= log -> txn_at c off sq = Some ws ->
  (forall k, 0 <= k < Z.of_nat (length ws) + 2 -> at_ c' (adv_ off k) = at_ c (adv_ off k)) ->
  txn_at c' off sq = Some ws.
Proof.
  intros Ho E H. unfold log_txn in *. destruct (desc_targets _ _ _ (at_ c off)) as [ts|] eqn:Ed; [|done].
  destruct (commit_ok _ _ _ _ _) eqn:Ec; [|done]. simplify_eq.
  rewrite length_zip_with_l_eq in H by (symmetry; apply length_log_images).
  pose proof (H 0 ltac:(lia)) as H0. rewrite adv_0 in H0 by done. rewrite H0, Ed.
  rewrite (H (1 + Z.of_nat (length ts))) by lia.
  assert (log_images js log c' off (length ts) = log_images js log c off (length ts)) as ->; [|by rewrite Ec].
  apply map_ext_in. intros i Hi%in_seq. apply H. lia.
Qed.

(** A chain stays when its blocks stay, and goes on with what follows its end. *)
Lemma chain_extend c c' off sq txns off' sq' txns2 off2 sq2 :
  1 <= off <= log -> chain c off sq txns off' sq' ->
  (forall k, 0 <= k < chain_len txns -> at_ c' (adv_ off k) = at_ c (adv_ off k)) ->
  chain c' off' sq' txns2 off2 sq2 -> chain c' off sq (txns ++ txns2) off2 sq2.
Proof.
  intros Ho H Hk H2. induction H as [off sq E|off sq ws txns off' sq' E H IH]; [done|]. simpl in *.
  pose proof (chain_len_nonneg txns) as Hp. econstructor.
  - apply (log_txn_span c); [done|done|]. intros k Hkk. apply Hk. lia.
  - apply IH; [apply adv_range; lia| |done]. intros k Hkk. unfold next_txn. rewrite adv_adv by done. apply Hk. lia.
Qed.

(** Nothing in the log passes for a record of sequence number [sq]. *)
Definition seq_unused c sq : Prop := forall off, 1 <= off <= log ->
  desc_targets bs total sq (at_ c off) = None /\ forall n crc, commit_ok bs sq n crc (at_ c off) = false.

Variables (c : Z -> list Z) (tail nsq : Z) (ws : list (Z * list Z)).
Abbreviation n := (Z.of_nat (length ws)).

(** The blocks of the new transaction: DESC, images, COMMIT. *)
Definition record_block (k : Z) : list Z :=
  if k =? 0 then jdesc_image bs nsq ws.*1
  else if k <=? n then nth_z ws.*2 (k - 1) []
  else jcommit_image bs nsq (images_crc ws.*2) n.

(** [c'] is [c] with any of the new record's blocks on disk, in any combination. *)
Record torn_append c' : Prop := {
  ta_record k : 0 <= k < n + 2 ->
    at_ c' (adv_ tail k) = at_ c (adv_ tail k) \/ at_ c' (adv_ tail k) = record_block k;
  ta_rest off : 1 <= off <= log -> (forall k, 0 <= k < n + 2 -> off <> adv_ tail k) -> at_ c' off = at_ c off
}.

(** The transaction can be logged: sizes, ranges, and images that are not journal records. *)
Record txn_ok : Prop := {
  to_size : txn_size_ok ws.*1;
  to_u64 : Forall in_u64 ws.*1;
  to_total : Forall (fun t => t < total) ws.*1;
  to_len : Forall (fun d => length d = bs) ws.*2;
  to_magic : Forall (fun d => rd 4 d 0 <> CARAFS_MAGIC_JDESC) ws.*2
}.

(** No torn mixture of old and new image blocks has the CRC of the new images. *)
Definition crc_discriminates : Prop := forall imgs : list (list Z),
  length imgs = length ws ->
  (forall i img, imgs !! i = Some img ->
     img = at_ c (adv_ tail (1 + Z.of_nat i)) \/ ws.*2 !! i = Some img) ->
  images_crc imgs = images_crc ws.*2 -> imgs = ws.*2.

Hypothesis Htail : 1 <= tail <= log.
Hypothesis Hfit : n + 2 <= log.
Hypothesis Hbs : (512 <= bs)%nat.
Hypothesis Hnsq : in_u64 nsq.
Hypothesis Hok : txn_ok.
Hypothesis Hfresh : seq_unused c nsq.
Hypothesis Hfresh1 : seq_unused c (u64 (nsq + 1)).

Lemma ws_len : n <= 60 /\ 0 < n.
Proof. destruct (to_size Hok) as [H1 H2]. rewrite length_fmap in *. unfold CARAFS_TXN_MAX_BLOCKS in H2. lia. Qed.

Lemma record_desc_spec :
  rd 8 (record_block 0) 8 = nsq /\ desc_targets bs total nsq (record_block 0) = Some ws.*1.
Proof.
  unfold record_block. simpl. destruct Hok.
  destruct (jdesc_image_spec bs nsq Hbs Hnsq ws.*1 total) as (_ & _ & H1 & H2); done.
Qed.
Lemma record_commit_spec :
  rd 4 (record_block (n + 1)) 0 = CARAFS_MAGIC_JCOMMIT /\
  forall crc, commit_ok bs nsq n crc (record_block (n + 1)) = (images_crc ws.*2 =? crc).
Proof.
  pose proof ws_len. unfold record_block. rewrite (proj2 (Z.eqb_neq _ _)), (proj2 (Z.leb_gt _ _)) by lia.
  assert (in_u32 (images_crc ws.*2)) as Hc by apply images_crc_range.
  assert (in_u32 n) as Hn by (unfold in_u32; lia).
  destruct (jcommit_image_spec bs nsq Hbs Hnsq (images_crc ws.*2) n Hc Hn) as (_ & _ & H1 & H2). split; [done|].
  intros crc. unfold commit_ok in *. zbool. 
  repeat match goal with H : _ = true |- _ => rewrite H; clear H end.
  repeat match goal with H : rd _ _ _ = _ |- _ => rewrite H; clear H end. by rewrite !Z.eqb_refl.
Qed.

Lemma record_image k : 1 <= k <= n -> exists img, ws.*2 !! Z.to_nat (k - 1) = Some img /\ record_block k = img.
Proof.
  intros Hk. unfold record_block. rewrite (proj2 (Z.eqb_neq _ _)), (proj2 (Z.leb_le _ _)) by lia.
  rewrite nth_z_nth, nth_lookup.
  destruct (lookup_lt_is_Some_2 ws.*2 (Z.to_nat (k - 1))) as [img E]; [rewrite length_fmap; lia|].
  exists img. by rewrite E.
Qed.

(** No block of the torn log starts a transaction past the new one. *)
Lemma torn_fresh1 c' off : torn_append c' -> 1 <= off <= log -> desc_targets bs total (u64 (nsq + 1)) (at_ c' off) = None.
Proof.
  intros [Hrec Hrest] Ho. pose proof ws_len.
  destruct (decide (off ∈ map (adv_ tail) (seqZ 0 (n + 2)))) as [Hin|Hno].
  2:{ rewrite Hrest; [by apply Hfresh1|done|]. intros k Hk ->. apply Hno. apply list_elem_of_fmap.
      exists k. split; [done|]. apply elem_of_seqZ. lia. }
  apply list_elem_of_fmap in Hin as (k & -> & Hk%elem_of_seqZ). rewrite Z.add_0_l in Hk.
  destruct (Hrec k Hk) as [->| ->]; [by apply Hfresh1|].
  destruct (desc_targets _ _ _ _) as [ts|] eqn:E; [|done]. exfalso.
  destruct (desc_targets_some _ _ _ _ _ E) as (Hm & Hs & _).
  destruct (decide (k = 0)) as [->|Hk0].
  - destruct record_desc_spec as [Hs' _]. rewrite Hs' in Hs. unfold u64, in_u64 in *.
    destruct (decide (nsq = 2 ^ 64 - 1)) as [->|]; [done|]. rewrite Z.mod_small in Hs by lia. lia.
  - destruct (decide (k <= n)) as [Hkn|Hkn].
    + destruct (record_image k ltac:(lia)) as (img & Hi & Ei). pose proof (to_magic Hok) as Hmg.
      rewrite Forall_lookup in Hmg. apply (Hmg _ _ Hi). by rewrite <- Ei.
    + replace k with (n + 1) in Hm by lia. destruct record_commit_spec as [Hm' _]. rewrite Hm' in Hm. discriminate.
Qed.

Lemma torn_images c' i :
  torn_append c' -> (i < length ws)%nat ->
  at_ c' (adv_ tail (1 + Z.of_nat i)) = at_ c (adv_ tail (1 + Z.of_nat i)) \/
  ws.*2 !! i = Some (at_ c' (adv_ tail (1 + Z.of_nat i))).
Proof.
  intros [Hrec _] Hi. destruct (Hrec (1 + Z.of_nat i) ltac:(lia)) as [->| ->]; [by left|right].
  destruct (record_image (1 + Z.of_nat i) ltac:(lia)) as (img & Ei & ->).
  by replace (Z.to_nat (1 + Z.of_nat i - 1)) with i in Ei by lia.
Qed.

(** At the old end of the log there is now the whole transaction or none. *)
Lemma torn_txn c' :
  torn_append c' -> crc_discriminates ->
  txn_at c' tail nsq = None \/ txn_at c' tail nsq = Some ws.
Proof.
  intros Ht Hcrc. pose proof Ht as [Hrec _]. pose proof ws_len. unfold log_txn.
  pose proof (Hrec 0 ltac:(lia)) as Hd. rewrite adv_0 in Hd by done.
  destruct Hd as [->| ->]; [left; by rewrite (proj1 (Hfresh tail Htail))|].
  rewrite (proj2 record_desc_spec), length_fmap.
  destruct (Hrec (1 + n) ltac:(lia)) as [->| ->].
  { left. by rewrite (proj2 (Hfresh _ (adv_range log Hlog tail (1 + n)))). }
  rewrite (Z.add_comm 1 n), (proj2 record_commit_spec).
  set (imgs := log_images js log c' tail (length ws)).
  destruct (Z.eqb_spec (images_crc ws.*2) (images_crc imgs)) as [E|]; [right|by left].
  rewrite (Hcrc imgs); [by rewrite zip_fst_snd|apply length_log_images| |done].
  intros i img Hi. assert (i < length ws)%nat as Hlt.
  { apply lookup_lt_Some in Hi. unfold imgs in Hi. by rewrite length_log_images in Hi. }
  unfold imgs, log_images in Hi. rewrite list_lookup_fmap, lookup_seq_lt in Hi by done. simpl in Hi. simplify_eq.
  by apply torn_images.
Qed.

(** The transactions recovered after a crash during the append: the old ones, or these and the
    new one. *)
Lemma torn_append_atomic head hsq txns c' :
  1 <= head <= log -> chain c head hsq txns tail nsq -> chain_len txns + n + 2 <= log ->
  torn_append c' -> crc_discriminates ->
  chain c' head hsq txns tail nsq \/
  (txn_at c' tail nsq = Some ws /\
   chain c' head hsq (txns ++ [ws]) (adv_ tail (n + 2)) (u64 (nsq + 1))).
Proof.
  intros Hhead Hch Hroom Ht Hcrc. pose proof (chain_len_nonneg txns) as Hp.
  pose proof (chain_tail _ _ _ _ _ _ Hhead Hch) as Etail.
  assert (forall k, 0 <= k < chain_len txns -> at_ c' (adv_ head k) = at_ c (adv_ head k)) as Hold.
  { intros k Hk. apply (ta_rest _ Ht); [apply adv_range; lia|]. intros j Hj E.
    rewrite Etail, adv_adv in E by done. apply adv_inj in E; lia. }
  destruct (torn_txn c' Ht Hcrc) as [E|E]; [left|right; split; [done|]].
  - rewrite <- (app_nil_r txns). eapply chain_extend; [done|done|done|by constructor].
  - eapply chain_extend; [done|done|done|]. econstructor; [done|]. constructor. unfold log_txn.
    rewrite (torn_fresh1 c' (adv_ tail (n + 2)) Ht); [done|]. apply adv_range. lia.
Qed.

(** With every block of the record written, the transaction is there. *)
Lemma full_append_txn c' :
  (forall k, 0 <= k < n + 2 -> at_ c' (adv_ tail k) = record_block k) -> txn_at c' tail nsq = Some ws.
Proof.
  intros Hrec. pose proof ws_len. unfold log_txn.
  pose proof (Hrec 0 ltac:(lia)) as Hd. rewrite adv_0 in Hd by done.
  rewrite Hd, (proj2 record_desc_spec), length_fmap, (Hrec (1 + n)) by lia.
  rewrite (Z.add_comm 1 n), (proj2 record_commit_spec).
  assert (log_images js log c' tail (length ws) = ws.*2) as ->.
  { apply list_eq. intros i. unfold log_images. rewrite list_lookup_fmap.
    destruct (decide (i < length ws)%nat) as [Hi|Hi].
    - rewrite lookup_seq_lt by done. simpl. rewrite Hrec by lia.
      destruct (record_image (1 + Z.of_nat i) ltac:(lia)) as (img & Ei & ->).
      by replace (Z.to_nat (1 + Z.of_nat i - 1)) with i in Ei by lia.
    - rewrite lookup_seq_ge by lia. symmetry. apply lookup_ge_None_2. rewrite length_fmap. lia. }
  rewrite Z.eqb_refl. by rewrite zip_fst_snd.
Qed.
End Append.

(** * [carafs_journal_append] *)

Section AppendCode.
Context {D : Type} `{!BlockDev D} `{!BlockDevLaws D}.
Abbreviation mount := (CarafsMount D).
Implicit Types m : mount.
Abbreviation content m := (bdev_content (m_bdev m)).
Abbreviation JS m := (sb_journal_start (m_sb m)).
Abbreviation LOG m := (j_log_blocks (m_j m)).
Abbreviation TOTAL m := (sb_total_blocks (m_sb m)).

(** A failed write left its block alone, or wrote it whole. *)
Definition dev_atomic : Prop := forall d b data r d',
  bdev_wf d -> 0 <= b < bdev_n_blocks d -> length data = bdev_block_size d -> bytes_ok data ->
  bdev_write d b data = (r, d') ->
  bdev_content d' b = data \/ bdev_content d' b = bdev_content d b.

(** The cache as the log needs it: it caches no block of the journal region. *)
Record wal_ok m : Prop := {
  wo_inv : cache_inv m;
  wo_geom : j_geom m;
  wo_nolog i : valid_idx m i -> ~ in_log (JS m) (LOG m) (e_block (ent m i))
}.

(** A step of the append: log blocks [W] of the device change, the cache only its LRU order. *)
Record app_step (W : list (Z * list Z)) m m' : Prop := {
  as_ok : wal_ok m';
  as_frame : m_sb m' = m_sb m /\ m_j m' = m_j m /\ m_block_size m' = m_block_size m /\
    m_txn_blocks m' = m_txn_blocks m /\ m_in_txn m' = m_in_txn m /\ n_ents m' = n_ents m /\ dev_n m' = dev_n m;
  as_user j : valid_idx m j -> ent_user (ent m' j) = ent_user (ent m j);
  as_content b : content m' b = content m b \/ (b, content m' b) ∈ W
}.

Lemma app_step_refl W m : wal_ok m -> app_step W m m.
Proof. intros H. split; auto. by split_and!. Qed.
Lemma app_step_trans W m1 m2 m3 : app_step W m1 m2 -> app_step W m2 m3 -> app_step W m1 m3.
Proof.
  intros [A1 (?&?&?&?&?&E6&?) A3 A4] [B1 (?&?&?&?&?&?&?) B3 B4]. split; [done| | |].
  - split_and!; congruence.
  - intros j Hj. rewrite B3; [by apply A3|]. unfold valid_idx in *. by rewrite E6.
  - intros b. destruct (B4 b) as [->|]; [apply A4|by right].
Qed.
Lemma app_step_weaken W W' m m' : app_step W m m' -> (forall w, w ∈ W -> w ∈ W') -> app_step W' m m'.
Proof. intros [A1 A2 A3 A4] H. split; try done. intros b. destruct (A4 b); auto. Qed.

Lemma app_step_view W m m' b :
  wal_ok m -> app_step W m m' -> (forall w, w ∈ W -> in_log (JS m) (LOG m) (fst w)) ->
  in_dev m b -> ~ in_log (JS m) (LOG m) b -> view m' b = view m b.
Proof.
  intros Hw [A1 (E1&E2&E3&E4&E5&E6&E7) A3 A4] HW Hb Hnl.
  apply view_same; try done; [apply Hw|apply A1|by apply (in_dev_not_none m); [apply Hw|]| |].
  - intros i Hi _. by destruct (ent_user_inv _ _ (A3 i Hi)) as (-> & _ & _ & _ & ->).
  - intros _. destruct (A4 b) as [?|Hin]; [done|]. by destruct (Hnl (HW _ Hin)).
Qed.

(** A write to a log block. *)
Lemma log_write_step m off data r m' :
  dev_atomic -> wal_ok m -> 1 <= off <= LOG m -> length data = m_block_size m -> bytes_ok data ->
  dev_write (JS m + off) data m = (r, m') ->
  app_step [(JS m + off, data)] m m' /\ (r = Ok tt -> content m' (JS m + off) = data) /\
  (exists d, m' = set_bdev d m).
Proof.
  intros Hat [Hc Hg Hnl] Ho Hl Hby E. pose proof (log_block m off Hg Ho) as Hin.
  unfold dev_write in E. destruct (bdev_write (m_bdev m) (JS m + off) data) as [rr d] eqn:Er. simplify_eq.
  destruct (bdev_write_spec _ _ _ _ _ (jg_wf m Hg) Hin ltac:(by rewrite <- (jg_bs m Hg)) Hby Er) as ([H1 H2 H3 H4] & Hok).
  assert (forall i, valid_idx m i -> e_block (ent m i) <> JS m + off) as Hne.
  { intros i Hi Ei. apply (Hnl i Hi). rewrite Ei. by apply in_log_at. }
  split; [|split; [done|by exists d]]. split; [split| | |].
  - apply (cache_inv_transfer m); try done; simpl; [by rewrite H4; apply (ci_bs m Hc)|].
    intros i Hi. destruct (ci_ent m Hc i Hi) as [K1 K2 K3 K4 K5 K6].
    split; rewrite ?H3, ?H2 by (by apply Hne); done.
  - destruct Hg. split; unfold dev_n in *; simpl in *; try done; congruence.
  - done.
  - by split_and!.
  - done.
  - intros b. simpl. destruct (decide (b = JS m + off)) as [->|Hd]; [|left; by apply H2].
    destruct (Hat _ _ _ _ _ (jg_wf m Hg) Hin ltac:(by rewrite <- (jg_bs m Hg)) Hby Er) as [->| ->]; [right; by apply list_elem_of_singleton|by left].
Qed.

Lemma put_pinned m b i :
  cache_inv m -> valid_idx m i -> e_block (ent m i) = b -> b <> CARAFS_BLOCK_NONE -> 0 < e_pins (ent m i) ->
  carafs_cache_put b m = upd_ent i (fun e => ent_set_pins (e_pins e - 1) e) m.
Proof.
  intros Hc Hv E Hb Hp. unfold carafs_cache_put.
  rewrite (index_find_hit m (indexed m) i b (ci_small m Hc) (ci_index m Hc) Hv); [|by unfold indexed; rewrite E|done].
  rewrite (proj2 (Z.eqb_neq _ _) (valid_not_none m i (ci_small m Hc) Hv)), (proj2 (Z.ltb_lt _ _) Hp). done.
Qed.

(** One round of the image loop: a pinned look at a cached block, copied to the log. *)
Lemma copy_to_log m b off :
  dev_atomic -> wal_ok m -> pins_ok m -> in_dev m b -> index_find m b <> CARAFS_ENT_NONE ->
  ~ in_log (JS m) (LOG m) b -> 1 <= off <= LOG m ->
  exists i m1 r m2, carafs_cache_get b CARAFS_GET_READ m = (Ok (i, false), m1) /\
    e_data (ent m1 i) = view m b /\ m_sb m1 = m_sb m /\ m_j m1 = m_j m /\
    dev_write (JS m + off) (view m b) m1 = (r, m2) /\
    app_step [(JS m + off, view m b)] m (carafs_cache_put b m2) /\
    (r = Ok tt -> content (carafs_cache_put b m2) (JS m + off) = view m b).
Proof.
  intros Hat Hw Hp Hb Hhit Hnl Ho. pose proof (wo_inv m Hw) as Hc. pose proof (in_dev_not_none m b Hc Hb) as Hbn.
  destruct (cache_get_hit_spec m b CARAFS_GET_READ Hc Hp Hb Hhit) as (m1 & E1 & Hg & Ed1).
  set (i := index_find m b) in *. pose proof (got_data _ _ _ _ _ _ Hb Hg) as Hdata.
  pose proof (got_view _ _ _ _ _ _ Hg b Hb) as Hv. rewrite andb_false_r in Hv. rewrite Hv in Hdata.
  destruct (got_frame _ _ _ _ _ _ Hg) as (F1 & F2 & F3 & F4 & F5).
  pose proof (got_len _ _ _ _ _ _ Hg) as En. pose proof (got_valid _ _ _ _ _ _ Hg) as Hvi.
  pose proof (got_self _ _ _ _ _ _ Hg) as Hself. cbn [ent_user] in Hself.
  assert (wal_ok m1) as Hw1.
  { split; [apply (got_inv _ _ _ _ _ _ Hg)| |].
    - destruct (wo_geom m Hw) as [G1 G2 G3 G4 G5 G6 G7].
      split; unfold dev_n in *; rewrite ?Ed1, ?F3, ?F5, ?(got_bs _ _ _ _ _ _ Hg); done.
    - intros j Hj. rewrite F3, F5. destruct (decide (j = i)) as [->|Hji].
      + by rewrite (got_block _ _ _ _ _ _ Hg).
      + assert (valid_idx m j) as Hjm by (unfold valid_idx in *; by rewrite <- En).
        destruct (ent_user_inv _ _ (got_others _ _ _ _ _ _ Hg j Hjm Hji)) as (-> & _). by apply (wo_nolog m Hw). }
  destruct (view_ok m b Hc Hb) as [Hl Hby].
  destruct (dev_write (JS m + off) (view m b) m1) as [r m2] eqn:Ew.
  destruct (log_write_step m1 off (view m b) r m2) as (Hs & Hok & d & Em2); try done.
  { by rewrite F5. } { by rewrite (got_bs _ _ _ _ _ _ Hg). } { by rewrite F3. }
  assert (carafs_cache_put b m2 = upd_ent i (fun e => ent_set_pins (e_pins e - 1) e) m2) as Eput.
  { subst m2. apply put_pinned; try done; [apply (as_ok _ _ _ Hs)|by unfold valid_idx, n_ents in *; simpl; rewrite En
     |apply (got_block _ _ _ _ _ _ Hg)|apply (got_pinned _ _ _ _ _ _ Hg)]. }
  exists i, m1, r, m2. rewrite Eput. split_and!; try done; [|by rewrite <- F3].
  assert (forall j, ent m2 j = ent m1 j) as Eent by (by subst m2).
  assert (forall j, valid_idx m j -> ent_user (ent (upd_ent i (fun e => ent_set_pins (e_pins e - 1) e) m2) j) = ent_user (ent m j)) as Hus.
  { intros j Hj. rewrite ent_upd by (subst m2; unfold valid_idx, n_ents in *; simpl; rewrite ?En; done || apply Hj).
    rewrite Eent. destruct (Z.eqb_spec j i) as [->|Hji]; [|by apply (got_others _ _ _ _ _ _ Hg)].
    destruct (ent_user_inv _ _ Hself) as (U1 & U2 & U3 & U4 & U5). unfold ent_user. cbn in U1, U2, U3, U4, U5 |- *.
    rewrite U1, U2, U3, U4, U5. repeat f_equal. lia. }
  destruct (as_frame _ _ _ Hs) as (S1&S2&S3&S4&S5&S6&S7).
  split.
  - destruct (as_ok _ _ _ Hs) as [I1 I2 I3]. split; [|by destruct I2; split|].
    + rewrite <- Eput. apply (vk_inv m2), cache_put_kept; [done|apply Hb].
    + intros j Hj. assert (valid_idx m j) as Hjm by (unfold valid_idx in *; rewrite n_ents_upd, S6, En in Hj; exact Hj).
      destruct (ent_user_inv _ _ (Hus j Hjm)) as (-> & _). simpl. rewrite S1, S2, F3, F5. by apply (wo_nolog m Hw).
  - simpl. rewrite S1, S2, S3, S4, S5, F1, F2, F3, F5, n_ents_upd, S6, En.
    split_and!; try done; [apply (got_bs _ _ _ _ _ _ Hg)|]. unfold dev_n in *. simpl. rewrite S7. by rewrite Ed1.
  - done.
  - intros b'. simpl. rewrite <- Ed1. rewrite <- F3. apply (as_content _ _ _ Hs).
Qed.

Definition log_writes (m : mount) (off i : Z) (blocks : list Z) : list (Z * list Z) :=
  imap (fun k b => (JS m + adv (LOG m) off (1 + i + Z.of_nat k), view m b)) blocks.

(** The blocks of the open transaction: cached, on the device, outside the journal. *)
Definition txn_cached m (blocks : list Z) : Prop :=
  Forall (fun b => in_dev m b /\ index_find m b <> CARAFS_ENT_NONE /\ ~ in_log (JS m) (LOG m) b) blocks.

Lemma app_step_cached W m m' b :
  wal_ok m -> app_step W m m' -> in_dev m b -> index_find m b <> CARAFS_ENT_NONE ->
  index_find m' b <> CARAFS_ENT_NONE.
Proof.
  intros Hw [A1 (E1&E2&E3&E4&E5&E6&E7) A3 A4] Hb Hne. pose proof (in_dev_not_none m b (wo_inv m Hw) Hb) as Hbn.
  destruct (cached_dec m b (wo_inv m Hw) Hbn) as [(_ & Hv & Eb)|[? _]]; [|done].
  destruct (cached_dec m' b (wo_inv m' A1) Hbn) as [(? & _)|[_ Hun]]; [done|].
  exfalso. apply (Hun (index_find m b)); [unfold valid_idx in *; by rewrite E6|].
  by destruct (ent_user_inv _ _ (A3 _ Hv)) as (-> & _).
Qed.

Lemma app_step_txn W m m' blocks :
  wal_ok m -> app_step W m m' -> txn_cached m blocks -> txn_cached m' blocks.
Proof.
  intros Hw Hs Ht. apply (Forall_impl _ _ _ Ht). intros b (Hb & Hn & Hl).
  destruct (as_frame _ _ _ Hs) as (E1&E2&E3&E4&E5&E6&E7). split_and!.
  - unfold in_dev in *. by rewrite E7.
  - by eapply app_step_cached.
  - by rewrite E1, E2.
Qed.
Lemma app_step_pins W m m' : app_step W m m' -> pins_ok m -> pins_ok m'.
Proof.
  intros Hs Hp j Hj. destruct (as_frame _ _ _ Hs) as (_&_&_&_&_&E6&_).
  assert (valid_idx m j) as Hjm by (unfold valid_idx in *; by rewrite <- E6).
  destruct (ent_user_inv _ _ (as_user _ _ _ Hs j Hjm)) as (_ & _ & _ & -> & _). by apply Hp.
Qed.

Lemma log_writes_step W m m' off i blocks :
  wal_ok m -> app_step W m m' -> (forall w, w ∈ W -> in_log (JS m) (LOG m) (fst w)) -> txn_cached m blocks ->
  log_writes m' off i blocks = log_writes m off i blocks /\ view m' <$> blocks = view m <$> blocks.
Proof.
  intros Hw Hs HW Ht. destruct (as_frame _ _ _ Hs) as (E1&E2&_). unfold log_writes. rewrite E1, E2.
  assert (forall b, b ∈ blocks -> view m' b = view m b) as Hv.
  { intros b Hb. unfold txn_cached in Ht. rewrite Forall_forall in Ht. destruct (Ht b Hb) as (H1 & _ & H3).
    by eapply app_step_view. }
  split; [|apply list_fmap_ext; intros ? b Hb; apply Hv; by eapply list_elem_of_lookup_2].
  apply imap_ext. intros k b Hb. f_equal. apply Hv. by eapply list_elem_of_lookup_2.
Qed.

Lemma append_images_spec blocks m off i crc r m' :
  dev_atomic -> wal_ok m -> pins_ok m -> txn_cached m blocks -> 1 <= off <= LOG m -> 0 <= i ->
  i + Z.of_nat (length blocks) < LOG m -> append_images off i crc blocks m = (r, m') ->
  app_step (log_writes m off i blocks) m m' /\
  (forall v, r = Ok v -> v = foldl Carafs_Crc32c crc (view m <$> blocks) /\
     forall w, w ∈ log_writes m off i blocks -> content m' (fst w) = snd w).
Proof.
  intros Hat. revert m i crc. induction blocks as [|b blocks IH]; intros m i crc Hw Hp Ht Ho Hi Hn E; simpl append_images in E.
  { st_simp_in E. simplify_eq. split; [by apply app_step_refl|]. intros v [= <-]. split; [done|]. set_solver. }
  apply Forall_cons in Ht as [(Hb & Hhit & Hnl) Ht]. pose proof (jg_log m (wo_geom m Hw)) as Hlog. simpl length in Hn.
  pose proof (adv_range (LOG m) ltac:(lia) off (1 + i)) as Ha.
  destruct (copy_to_log m b (adv (LOG m) off (1 + i)) Hat Hw Hp Hb Hhit Hnl Ha)
    as (e & m1 & rw & m2 & E1 & Ed & Es1 & Ej1 & E2 & Hs & Hok).
  rewrite st_bind_eq, E1 in E. st_simp_in E. rewrite Ed in E.
  assert (j_phys m1 (j_adv m1 off (1 + i)) = JS m + adv (LOG m) off (1 + i)) as Ep.
  { unfold j_phys. rewrite Es1. rewrite j_adv_eq; rewrite ?Ej1; try lia. destruct (wo_geom m Hw).
    apply u64_small. unfold in_u64. lia. }
  rewrite Ep, E2 in E. st_simp_in E. set (m3 := carafs_cache_put b m2) in *.
  set (w0 := (JS m + adv (LOG m) off (1 + i), view m b)) in *.
  assert (log_writes m off i (b :: blocks) = w0 :: log_writes m off (i + 1) blocks) as EW.
  { unfold log_writes, w0. rewrite imap_cons. f_equal; [by rewrite Z.add_0_r|]. apply imap_ext. intros k x _.
    unfold compose. by replace (1 + i + Z.of_nat (S k)) with (1 + (i + 1) + Z.of_nat k) by lia. }
  rewrite EW. assert (forall w, w ∈ [w0] -> in_log (JS m) (LOG m) (fst w)) as Hw0.
  { intros w ->%list_elem_of_singleton. unfold w0. simpl. by apply in_log_at. }
  destruct rw as [[]|er]; [|unfold st_err in E; simplify_eq; split; [eapply app_step_weaken; [done|set_solver]|done]].
  destruct (as_frame _ _ _ Hs) as (F1&F2&F3&F4&F5&F6&F7).
  destruct (log_writes_step [w0] m m3 off (i + 1) blocks Hw Hs Hw0 Ht) as [EL EV].
  destruct (IH m3 (i + 1) _ (as_ok _ _ _ Hs) (app_step_pins _ _ _ Hs Hp) (app_step_txn _ _ _ _ Hw Hs Ht)
              ltac:(by rewrite F2) ltac:(lia) ltac:(rewrite F2; lia) E) as [Hs2 Hok2].
  rewrite EL, EV in *. split.
  - eapply app_step_trans; [eapply app_step_weaken; [exact Hs|set_solver]|eapply app_step_weaken; [exact Hs2|set_solver]].
  - intros v Hv. destruct (Hok2 v Hv) as [-> Hc]. split; [done|].
    intros w [->|Hin]%elem_of_cons; [|by apply Hc].
    destruct (as_content _ _ _ Hs2 (fst w0)) as [Hsame|Hin]; [rewrite Hsame; by apply Hok|].
    exfalso. unfold log_writes in Hin. apply elem_of_lookup_imap in Hin as (k & x & Ex & Hk).
    injection Ex as Ex _. pose proof (lookup_lt_Some _ _ _ Hk). apply Z.add_reg_l, adv_inj in Ex; lia.
Qed.

(** ** The whole append, when the log has room *)

Abbreviation txn_writes m := (map (fun b => (b, view m b)) (m_txn_blocks m)).

Record append_ready m : Prop := {
  ar_atomic : dev_atomic;
  ar_wal : wal_ok m;
  ar_pins : pins_ok m;
  ar_txn : txn_cached m (m_txn_blocks m);
  ar_size : txn_size_ok (m_txn_blocks m);
  ar_total : Forall (fun b => b < TOTAL m) (m_txn_blocks m);
  ar_bs : (512 <= m_block_size m)%nat;
  ar_tail : 1 <= j_tail (m_j m) <= LOG m;
  ar_head : 1 <= j_head (m_j m) <= LOG m;
  ar_seq : in_u64 (j_next_seq (m_j m));
  ar_room : j_used m + Z.of_nat (length (m_txn_blocks m)) + 2 <= LOG m
}.

Definition rec_writes m : list (Z * list Z) :=
  map (fun k => (JS m + adv (LOG m) (j_tail (m_j m)) k,
                 record_block (m_block_size m) (j_next_seq (m_j m)) (txn_writes m) k))
      (seqZ 0 (Z.of_nat (length (m_txn_blocks m)) + 2)).

Lemma rec_writes_in_log m w : 1 <= LOG m -> w ∈ rec_writes m -> in_log (JS m) (LOG m) (fst w).
Proof.
  intros Hl Hw. apply list_elem_of_fmap in Hw as (k & -> & _). simpl. apply in_log_at. by apply adv_range.
Qed.
Lemma rec_writes_at m k :
  0 <= k < Z.of_nat (length (m_txn_blocks m)) + 2 ->
  (JS m + adv (LOG m) (j_tail (m_j m)) k, record_block (m_block_size m) (j_next_seq (m_j m)) (txn_writes m) k) ∈ rec_writes m.
Proof. intros Hk. apply list_elem_of_fmap. exists k. split; [done|]. apply elem_of_seqZ. lia. Qed.

Lemma txn_writes_fst m : (txn_writes m).*1 = m_txn_blocks m.
Proof. rewrite <- list_fmap_compose. simpl. apply list_fmap_id. Qed.
Lemma txn_writes_snd m : (txn_writes m).*2 = view m <$> m_txn_blocks m.
Proof. by rewrite <- list_fmap_compose. Qed.

Lemma record_block_desc bs sq (ws : list (Z * list Z)) : record_block bs sq ws 0 = jdesc_image bs sq ws.*1.
Proof. done. Qed.
Lemma record_block_commit bs sq (ws : list (Z * list Z)) k : k = Z.of_nat (length ws) + 1 ->
  record_block bs sq ws k = jcommit_image bs sq (images_crc ws.*2) (Z.of_nat (length ws)).
Proof. intros ->. unfold record_block. by rewrite (proj2 (Z.eqb_neq _ _)), (proj2 (Z.leb_gt _ _)) by lia. Qed.

Lemma log_writes_rec m w :
  w ∈ log_writes m (j_tail (m_j m)) 0 (m_txn_blocks m) -> w ∈ rec_writes m.
Proof.
  intros Hw. unfold log_writes in Hw. apply elem_of_lookup_imap in Hw as (k & b & -> & Hk).
  pose proof (lookup_lt_Some _ _ _ Hk) as Hlt.
  assert (view m b = record_block (m_block_size m) (j_next_seq (m_j m)) (txn_writes m) (1 + 0 + Z.of_nat k)) as ->.
  { unfold record_block. rewrite length_map. rewrite (proj2 (Z.eqb_neq _ _)), (proj2 (Z.leb_le _ _)) by lia.
    rewrite txn_writes_snd, nth_z_nth, nth_lookup, list_lookup_fmap.
    replace (Z.to_nat (1 + 0 + Z.of_nat k - 1)) with k by lia. by rewrite Hk. }
  apply rec_writes_at. lia.
Qed.

Lemma rec_writes_inv m w :
  w ∈ rec_writes m ->
  w = (JS m + adv (LOG m) (j_tail (m_j m)) 0, jdesc_image (m_block_size m) (j_next_seq (m_j m)) (m_txn_blocks m)) \/
  w ∈ log_writes m (j_tail (m_j m)) 0 (m_txn_blocks m) \/
  w = (JS m + adv (LOG m) (j_tail (m_j m)) (1 + Z.of_nat (length (m_txn_blocks m))),
       jcommit_image (m_block_size m) (j_next_seq (m_j m)) (images_crc (view m <$> m_txn_blocks m))
         (Z.of_nat (length (m_txn_blocks m)))).
Proof.
  intros Hw. apply list_elem_of_fmap in Hw as (k & -> & Hk%elem_of_seqZ).
  destruct (decide (k = 0)) as [->|Hk0]; [left; by rewrite record_block_desc, txn_writes_fst|right].
  destruct (decide (k = Z.of_nat (length (m_txn_blocks m)) + 1)) as [->|Hk1].
  - right. rewrite record_block_commit by (by rewrite length_map). rewrite txn_writes_snd, length_map.
    by rewrite (Z.add_comm 1).
  - left. apply elem_of_lookup_imap. destruct (lookup_lt_is_Some_2 (m_txn_blocks m) (Z.to_nat (k - 1))) as [b Hb]; [lia|].
    exists (Z.to_nat (k - 1)), b. split; [|done]. f_equal; [do 2 f_equal; lia|].
    unfold record_block. rewrite length_map. rewrite (proj2 (Z.eqb_neq _ _)), (proj2 (Z.leb_le _ _)) by lia.
    by rewrite txn_writes_snd, nth_z_nth, nth_lookup, list_lookup_fmap, Hb.
Qed.

Lemma j_used_nonneg m : 0 <= j_used m.
Proof. unfold j_used. destruct (_ <=? _); apply u32_range. Qed.

Lemma flush_app_step m r m' : wal_ok m -> dev_flush m = (r, m') -> app_step [] m m' /\ (forall b, content m' b = content m b).
Proof.
  intros [Hc Hg Hnl] E. unfold dev_flush in E. destruct (bdev_flush (m_bdev m)) as [rr d] eqn:Er. simplify_eq.
  pose proof (bdev_flush_spec _ _ _ (jg_wf m Hg) Er) as Hsd. pose proof (same_dev_kept m d Hc Hsd) as Hk.
  destruct Hsd as [H1 H2 H3 H4]. split; [|done]. split; [split| | |].
  - apply Hk.
  - destruct Hg. split; unfold dev_n in *; simpl in *; try done; congruence.
  - done.
  - by split_and!.
  - done.
  - intros b. left. apply H2.
Qed.

Lemma append_spec m r m' :
  append_ready m -> carafs_journal_append m = (r, m') ->
  exists m1, app_step (rec_writes m) m m1 /\
    match r with
    | Ok _ => (forall w, w ∈ rec_writes m -> content m1 (fst w) = snd w) /\
        m' = set_j (mkJ (LOG m) (j_head (m_j m)) (j_head_seq (m_j m))
                      (adv (LOG m) (j_tail (m_j m)) (Z.of_nat (length (m_txn_blocks m)) + 2))
                      (u64 (j_next_seq (m_j m) + 1))) m1
    | Err _ => m' = m1
    end.
Proof.
  intros [Hat Hw Hp Ht Hsz Htot Hbs Htl Hhd Hsq Hroom] E. pose proof (j_used_nonneg m) as Hu0.
  pose proof (wo_geom m Hw) as Hg. pose proof (jg_log m Hg) as Hlog.
  unfold txn_size_ok, CARAFS_TXN_MAX_BLOCKS in Hsz.
  set (n := Z.of_nat (length (m_txn_blocks m))) in *. set (tl := j_tail (m_j m)) in *.
  unfold carafs_journal_append in E. st_simp_in E. fold n tl in E.
  rewrite (u32_small (n + 2)) in E by (unfold in_u32; lia).
  rewrite (proj2 (Z.ltb_ge _ _)) in E by lia.
  rewrite (u32_small (j_used m + (n + 2))) in E by (unfold in_u32; lia).
  rewrite (proj2 (Z.ltb_ge _ _)) in E by lia. st_simp_in E. fold tl in E.
  assert (Forall in_u64 (m_txn_blocks m)) as Hu64.
  { apply (Forall_impl _ _ _ Ht). intros b (Hb & _). pose proof (jg_n m Hg). unfold in_dev, in_u64 in *. lia. }
  destruct (jdesc_image_spec (m_block_size m) _ Hbs Hsq (m_txn_blocks m) (TOTAL m)) as (Hd1 & Hd2 & _); try done.
  set (desc := jdesc_image _ _ _) in *. rewrite st_bind_eq in E.
  destruct (dev_write (j_phys m tl) desc m) as [rd m1] eqn:Ed. rewrite j_phys_eq in Ed by done.
  destruct (log_write_step m tl desc rd m1 Hat Hw Htl Hd1 Hd2 Ed) as (Hs1 & Hok1 & _).
  assert (adv (LOG m) tl 0 = tl) as Ea0 by (apply adv_0; lia).
  assert ((JS m + tl, desc) ∈ rec_writes m) as Hin1.
  { pose proof (rec_writes_at m 0 ltac:(lia)) as H. fold tl in H.
    by rewrite Ea0, record_block_desc, txn_writes_fst in H. }
  assert (app_step (rec_writes m) m m1) as Hs1'.
  { eapply app_step_weaken; [exact Hs1|]. by intros w ->%list_elem_of_singleton. }
  destruct rd as [[]|e]; [|simplify_eq; by exists m']. specialize (Hok1 eq_refl).
  assert (forall w, w ∈ [(JS m + tl, desc)] -> in_log (JS m) (LOG m) (fst w)) as Hl1.
  { intros w ->%list_elem_of_singleton. by apply in_log_at. }
  destruct (log_writes_step _ m m1 tl 0 (m_txn_blocks m) Hw Hs1 Hl1 Ht) as [EL EV].
  destruct (as_frame _ _ _ Hs1) as (F1&F2&F3&F4&F5&F6&F7).
  rewrite st_bind_eq in E. destruct (append_images tl 0 0 (m_txn_blocks m) m1) as [ri m2] eqn:Ei.
  destruct (append_images_spec (m_txn_blocks m) m1 tl 0 0 ri m2 Hat (as_ok _ _ _ Hs1) (app_step_pins _ _ _ Hs1 Hp)
    (app_step_txn _ _ _ _ Hw Hs1 Ht) ltac:(by rewrite F2) (Z.le_refl 0) ltac:(rewrite F2; lia) Ei) as [Hs2 Hok2].
  rewrite EL, EV in *.
  assert (app_step (rec_writes m) m m2) as Hs2'.
  { eapply app_step_trans; [exact Hs1'|]. eapply app_step_weaken; [exact Hs2|apply log_writes_rec]. }
  destruct ri as [crc|e]; [|simplify_eq; by exists m']. destruct (Hok2 crc eq_refl) as [-> Hc2].
  st_simp_in E. rewrite st_bind_eq in E. set (crc := foldl _ 0 _) in E.
  assert (in_u32 crc) as Hcrc by apply images_crc_range.
  destruct (jcommit_image_spec (m_block_size m) _ Hbs Hsq crc n Hcrc ltac:(unfold in_u32; lia)) as (Hk1 & Hk2 & _).
  set (cm := jcommit_image _ _ _ _) in *. destruct (as_frame _ _ _ Hs2') as (G1&G2&G3&G4&G5&G6&G7).
  destruct (dev_write _ cm m2) as [rc m3] eqn:Ec.
  pose proof (adv_range (LOG m) ltac:(lia) tl (1 + n)) as Ha.
  assert (j_phys m2 (j_adv m2 tl (1 + n)) = JS m2 + adv (LOG m) tl (1 + n)) as Ep.
  { rewrite j_adv_eq; rewrite ?G2; try lia. apply j_phys_eq; [apply (as_ok _ _ _ Hs2')|by rewrite G2]. }
  rewrite Ep in Ec.
  destruct (log_write_step m2 _ cm rc m3 Hat (as_ok _ _ _ Hs2') ltac:(by rewrite G2) ltac:(by rewrite G3) Hk2 Ec)
    as (Hs3 & Hok3 & _). rewrite G1 in Hs3, Hok3.
  assert ((JS m + adv (LOG m) tl (1 + n), cm) ∈ rec_writes m) as Hin3.
  { pose proof (rec_writes_at m (n + 1) ltac:(lia)) as H. fold tl in H.
    rewrite record_block_commit, txn_writes_snd, length_map, (Z.add_comm n 1) in H by (by rewrite length_map). exact H. }
  assert (app_step (rec_writes m) m m3) as Hs3'.
  { eapply app_step_trans; [exact Hs2'|]. eapply app_step_weaken; [exact Hs3|]. by intros w ->%list_elem_of_singleton. }
  destruct rc as [[]|e]; [|simplify_eq; by exists m']. specialize (Hok3 eq_refl).
  rewrite st_bind_eq in E. destruct (dev_flush m3) as [rf m4] eqn:Ef.
  destruct (flush_app_step m3 rf m4 (as_ok _ _ _ Hs3') Ef) as [Hs4 Hc4].
  assert (app_step (rec_writes m) m m4) as Hs4'.
  { eapply app_step_trans; [exact Hs3'|]. eapply app_step_weaken; [exact Hs4|set_solver]. }
  destruct rf as [[]|e]; [|simplify_eq; by exists m']. unfold st_mod in E. injection E as <- <-. exists m4. split; [done|].
  destruct (as_frame _ _ _ Hs4') as (K1&K2&K3&K4&K5&K6&K7). rewrite j_adv_eq, K2 by (rewrite ?K2; lia). split; [|done].
  intros w Hin. rewrite Hc4. destruct (as_content _ _ _ Hs3 (fst w)) as [H3|H3%list_elem_of_singleton].
  2:{ injection H3 as H3 H3'. destruct (rec_writes_inv m w Hin) as [->|[Hw2| ->]]; simpl in *.
      - exfalso. apply Z.add_reg_l, adv_inj in H3; lia.
      - exfalso. apply elem_of_lookup_imap in Hw2 as (k & b & -> & Hk). pose proof (lookup_lt_Some _ _ _ Hk).
        simpl in H3. apply Z.add_reg_l, adv_inj in H3; lia.
      - exact H3'. }
  rewrite H3. destruct (rec_writes_inv m w Hin) as [->|[Hw2| ->]]; [|by apply Hc2|].
  - cbn [fst snd]. fold tl. rewrite Ea0. destruct (as_content _ _ _ Hs2 (JS m + tl)) as [H2|H2]; [by rewrite H2|].
    exfalso. apply elem_of_lookup_imap in H2 as (k & b & H2 & Hk). pose proof (lookup_lt_Some _ _ _ Hk).
    injection H2 as H2 _. apply Z.add_reg_l in H2. rewrite <- Ea0 in H2 at 1. apply adv_inj in H2; lia.
  - rewrite <- H3. exact Hok3.
Qed.

Lemma append_geom m r m' : append_ready m -> carafs_journal_append m = (r, m') -> j_geom m'.
Proof.
  intros Hr E. destruct (append_spec m r m' Hr E) as (m2 & Hs & Hres).
  pose proof (wo_geom _ (as_ok _ _ _ Hs)) as Hg. destruct (as_frame _ _ _ Hs) as (F1 & F2 & _).
  destruct r as [u|e]; [destruct Hres as [_ ->]|by subst m'].
  destruct Hg. rewrite F2 in *. by split.
Qed.
Lemma j_set_log_geom m : u32 (sb_journal_blocks (m_sb m) - 1) = LOG m -> j_geom m -> j_geom (j_set_log m).
Proof. intros E []. split; simpl; rewrite ?E; done. Qed.

Lemma write_crash_image W m b data :
  j_geom m -> in_dev m b -> length data = m_block_size m -> bytes_ok data -> b ∈ W ->
  crash_image W m (snd (bdev_write (m_bdev m) b data)).
Proof.
  intros Hg Hb Hl Hby HW. destruct (bdev_write (m_bdev m) b data) as [r d] eqn:E.
  rewrite (jg_bs m Hg) in Hl. destruct (bdev_write_spec _ _ _ _ _ (jg_wf m Hg) Hb Hl Hby E) as [[H1 H2 H3 H4] _].
  split; try done. intros b' Hn. apply H2. by intros ->.
Qed.
Lemma j_set_log_sb m : m_sb (j_set_log m) = m_sb m.
Proof. done. Qed.
Lemma j_set_log_bs m : m_block_size (j_set_log m) = m_block_size m.
Proof. done. Qed.

(** The state of the log before an append: [txns] are the complete transactions between head
    and tail, nothing in the log carries the next two sequence numbers, and the images to be
    logged are told apart from journal records and from torn mixtures. *)
Record log_state m (txns : list (list (Z * list Z))) : Prop := {
  ls_chain : log_chain (JS m) (LOG m) (TOTAL m) (m_block_size m) (content m) (j_head (m_j m)) (j_head_seq (m_j m))
    txns (j_tail (m_j m)) (j_next_seq (m_j m));
  ls_used : j_used m = chain_len txns;
  ls_fresh : seq_unused (JS m) (LOG m) (TOTAL m) (m_block_size m) (content m) (j_next_seq (m_j m));
  ls_fresh1 : seq_unused (JS m) (LOG m) (TOTAL m) (m_block_size m) (content m) (u64 (j_next_seq (m_j m) + 1));
  ls_magic : Forall (fun b => rd 4 (view m b) 0 <> CARAFS_MAGIC_JDESC) (m_txn_blocks m);
  ls_crc : crc_discriminates (JS m) (LOG m) (content m) (j_tail (m_j m)) (txn_writes m)
}.

Abbreviation mtorn m := (torn_append (JS m) (LOG m) (m_block_size m) (content m) (j_tail (m_j m))
  (j_next_seq (m_j m)) (txn_writes m)).

Lemma append_txn_ok m txns : append_ready m -> log_state m txns ->
  txn_ok (TOTAL m) (m_block_size m) (txn_writes m).
Proof.
  intros [Hat Hw Hp Ht Hsz Htot Hbs Htl Hhd Hsq Hroom] [_ _ _ _ Hmg _].
  split; rewrite ?txn_writes_fst, ?txn_writes_snd; try done.
  - apply (Forall_impl _ _ _ Ht). intros b (Hb & _). pose proof (jg_n m (wo_geom m Hw)).
    unfold in_dev, in_u64 in *. lia.
  - apply Forall_fmap. apply (Forall_impl _ _ _ Ht). intros b (Hb & _). by apply view_ok; [apply Hw|].
  - by apply Forall_fmap.
Qed.

Lemma append_torn m m1 : append_ready m -> app_step (rec_writes m) m m1 -> mtorn m (content m1).
Proof.
  intros Hr Hs. pose proof (jg_log m (wo_geom m (ar_wal m Hr))) as Hlog. pose proof (ar_room m Hr) as Hroom.
  pose proof (j_used_nonneg m). split; rewrite length_map.
  - intros k Hk. destruct (as_content _ _ _ Hs (JS m + adv (LOG m) (j_tail (m_j m)) k)) as [?|Hin]; [by left|right].
    apply list_elem_of_fmap in Hin as (k' & [= E1 E2] & Hk'%elem_of_seqZ). apply Z.add_reg_l, adv_inj in E1; try lia.
    by subst k'.
  - intros off Ho Hne. destruct (as_content _ _ _ Hs (JS m + off)) as [?|Hin]; [done|].
    apply list_elem_of_fmap in Hin as (k' & [= E1 E2] & Hk'%elem_of_seqZ). apply Z.add_reg_l in E1.
    by destruct (Hne k' ltac:(lia)).
Qed.


(** A shorter, empty log is as ready. *)
Lemma append_ready_shrink m log :
  append_ready m -> Z.of_nat (length (m_txn_blocks m)) + 2 <= log <= LOG m ->
  append_ready (set_j (mkJ log 1 1 1 1) m).
Proof.
  intros [Hat [Hc Hg Hnl] Hp Ht Hsz Htot Hbs Htl Hhd Hsq Hroom] Hl.
  assert (forall b, in_log (JS m) log b -> in_log (JS m) (LOG m) b) as Hin by (unfold in_log; intros; lia).
  split; try done; try (simpl; lia).
  - split.
    + apply (cache_inv_transfer m); try done; apply Hc.
    + destruct Hg. split; cbn [set_j m_bdev m_sb m_j m_block_size j_log_blocks]; unfold dev_n in *; first [done|lia|cbn; lia].
    + intros i Hi H. by apply (Hnl i Hi), Hin.
  - apply (Forall_impl _ _ _ Ht). intros b (H1 & H2 & H3). split; [exact H1|]. rewrite (index_find_frame m) by done.
    split; [exact H2|]. intros H. by apply H3, Hin.
  - unfold j_used. simpl. change (u32 (1 - 1)) with 0. lia.
Qed.

(** A log filled to its last block is taken for an empty one: when the transaction fits
    exactly, the cursor ends where it started, [j_used] is 0 and
    [carafs_journal_maybe_checkpoint] leaves the full log as it is, so that the next append
    goes over the oldest transaction instead of checkpointing first. *)
Theorem journal_full_log_looks_empty m m' :
  append_ready m -> j_tail (m_j m) = adv (LOG m) (j_head (m_j m)) (j_used m) -> 2 <= LOG m ->
  j_used m + Z.of_nat (length (m_txn_blocks m)) + 2 = LOG m ->
  carafs_journal_append m = (Ok tt, m') ->
  j_used m' = 0 /\ carafs_journal_maybe_checkpoint m' = (Ok tt, m').
Proof.
  intros Hr Htl Hl2 Hfull E. destruct (append_spec m _ _ Hr E) as (m1 & Hs & _ & ->).
  assert (adv (LOG m) (j_tail (m_j m)) (Z.of_nat (length (m_txn_blocks m)) + 2) = j_head (m_j m)) as Eh.
  { rewrite Htl, adv_adv by lia. rewrite Z.add_assoc, Hfull. unfold adv. pose proof (ar_head m Hr).
    replace (j_head (m_j m) + LOG m - 1) with (j_head (m_j m) - 1 + 1 * LOG m) by lia.
    rewrite Z.mod_add, Z.mod_small; lia. }
  rewrite Eh. match goal with |- j_used ?x = _ /\ _ => set (m' := x) end.
  assert (j_used m' = 0) as Hu by (unfold j_used, m'; simpl; by rewrite Z.leb_refl, Z.sub_diag).
  split; [done|]. unfold carafs_journal_maybe_checkpoint. st_simp. rewrite Hu.
  assert (LOG m / 2 <=? 0 = false) as Hle; [|unfold m'; simpl; by rewrite Hle].
  apply Z.leb_gt. pose proof (Z.div_le_mono 2 (LOG m) 2 ltac:(lia) Hl2) as Hd. change (2 / 2) with 1 in Hd. lia.
Qed.

End AppendCode.

(** ** A concrete volume: sixteen 512-byte blocks, a six-block log in blocks 5 to 10 *)

Module WalExample.
Definition sb : superblock :=
  mkSb CARAFS_SB_MAGIC 0 1 0 0 0 9 CARAFS_STATE_DIRTY 0 16 4 7 0 0 0 0 15 (zeros 16) 0 (zeros 63) 0 0.
Definition dev : CarafsMemBdev :=
  {| mb_mem := splice (zeros 8192) 2048 (jsb_image 512 1 1); mb_block_size := 512; mb_n_blocks := 16 |}.
Definition m0 : CarafsMount CarafsMemBdev :=
  mkMount dev 512 false true sb [] [] 0 0 false [] sb (mkJ 6 1 1 1 1).
Definition data : list Z := replicate 512 7.
Definition calls : list cache_call := [CGet 12 CARAFS_GET_READ; CStore 12 data; CPut 12].
(** A transaction with one block, ready to be logged. *)
Definition m : CarafsMount CarafsMemBdev := set_txn true [12] (run_calls calls (cache_init 2 2 m0)).

Lemma dev_ok : bdev_wf dev.
Proof.
  change (mem_wf dev). split; [done| |done|simpl; lia]. simpl.
  apply splice_bytes_ok; [auto with cara|]. apply (jsb_fields_image 512 6); [lia|done|lia|lia].
Qed.
Lemma calls_ok : calls_okb calls (cache_init 2 2 m0) = true.
Proof. by vm_compute. Qed.
Lemma m_inv : cache_inv m.
Proof.
  apply (cache_inv_frame _ _ (cache_frame_txn _ true [12])).
  apply (cache_run_spec calls (cache_init 2 2 m0)).
  - exact (calls_okb_run calls (cache_init 2 2 m0) calls_ok).
  - apply cache_init_inv; try done; [lia|apply dev_ok].
Qed.
Lemma m_dev : m_bdev m = dev.
Proof. by vm_compute. Qed.
Lemma m_frame : m_sb m = sb /\ m_j m = mkJ 6 1 1 1 1 /\ m_block_size m = 512%nat /\ m_txn_blocks m = [12].
Proof. by vm_compute. Qed.
Lemma m_geom : j_geom m.
Proof.
  destruct m_frame as (E1 & E2 & E3 & _). split; unfold dev_n; rewrite ?m_dev, ?E1, ?E2, ?E3.
  1: exact dev_ok. all: simpl; lia || done.
Qed.
Lemma m_ents_blocks : map e_block (m_ents m) = [CARAFS_BLOCK_NONE; 12] /\ map e_pins (m_ents m) = [0; 0].
Proof. by vm_compute. Qed.
Lemma m_view : view m 12 = data.
Proof. by vm_compute. Qed.
Lemma m_find : index_find m 12 = 1.
Proof. by vm_compute. Qed.

Lemma mem_atomic : dev_atomic (D := CarafsMemBdev).
Proof.
  intros d b x r d' Hw Hb Hl Hby E. left.
  destruct (bdev_write_spec d b x r d' Hw Hb Hl Hby E) as [_ H]. apply H.
  destruct (CacheExample.mem_reliable d Hw) as (_ & Hr & _). specialize (Hr b x Hb Hl). by rewrite E in Hr.
Qed.

Lemma m_ent i : valid_idx m i -> (e_block (ent m i) = CARAFS_BLOCK_NONE \/ e_block (ent m i) = 12) /\ e_pins (ent m i) = 0.
Proof.
  destruct m_ents_blocks as [E1 E2]. unfold valid_idx, n_ents, ent. rewrite nth_z_nth. intros Hi.
  destruct (m_ents m) as [|e0 [|e1 [|]]]; try done. simpl in *. injection E1 as E3 E4. injection E2 as E5 E6.
  destruct (Z.to_nat i) as [|[|k]] eqn:Ek; [split; auto..|lia].
Qed.

Lemma m_used : j_used m = 0.
Proof. by vm_compute. Qed.
Lemma m_ready : append_ready m.
Proof.
  destruct m_frame as (E1 & E2 & E3 & E4). pose proof m_dev as E5. pose proof m_find as E6.
  split; rewrite ?E1, ?E2, ?E3, ?E4.
  - exact mem_atomic.
  - split; [exact m_inv|exact m_geom|]. intros i Hi. rewrite E1, E2. unfold in_log.
    change (sb_journal_start sb) with 4. cbn [j_log_blocks]. destruct (m_ent i Hi) as [[->| ->] _]; unfold CARAFS_BLOCK_NONE; lia.
  - intros i Hi. rewrite (proj2 (m_ent i Hi)). lia.
  - apply Forall_singleton. unfold in_dev, dev_n, in_log. rewrite E1, E2, E5, E6.
    change (bdev_n_blocks dev) with 16. change (sb_journal_start sb) with 4. unfold CARAFS_ENT_NONE.
    cbn [j_log_blocks]. lia.
  - unfold txn_size_ok, CARAFS_TXN_MAX_BLOCKS. simpl. lia.
  - apply Forall_singleton. change (sb_total_blocks sb) with 16. lia.
  - clear. lia.
  - cbn [j_tail j_log_blocks]. clear. lia.
  - cbn [j_head j_log_blocks]. clear. lia.
  - cbn [j_next_seq]. unfold in_u64. clear. lia.
  - rewrite m_used. cbn [j_log_blocks length]. clear. lia.
Qed.

Definition lblock (off : Z) : list Z := log_at 4 (bdev_content dev) off.
Lemma lblock_zero off : 1 <= off <= 6 -> lblock off = zeros 512.
Proof.
  intros Ho. assert (off = 1 \/ off = 2 \/ off = 3 \/ off = 4 \/ off = 5 \/ off = 6) as H by lia.
  destruct H as [->|[->|[->|[->|[->| ->]]]]]; by vm_compute.
Qed.
Lemma log_unused sq : 1 <= sq <= 2 -> seq_unused 4 6 16 512 (bdev_content dev) sq.
Proof.
  intros Hs off Ho. fold (lblock off). rewrite lblock_zero by done.
  assert (rd 4 (zeros 512) 0 = 0) as E by (by vm_compute). split.
  - unfold desc_targets. by rewrite E.
  - intros n crc. unfold commit_ok. by rewrite E.
Qed.
Lemma data_crc : images_crc [zeros 512] <> images_crc [data].
Proof. by vm_compute. Qed.

Lemma single_crc js log c tail b x :
  images_crc [log_at js c (adv log tail (1 + Z.of_nat 0))] <> images_crc [x] -> crc_discriminates js log c tail [(b, x)].
Proof.
  intros Hne imgs Hl Hi Hc. destruct imgs as [|y [|]]; try done.
  destruct (Hi 0%nat y eq_refl) as [->|Hy]; [done|by injection Hy as ->].
Qed.

Lemma m_log : log_state m [].
Proof.
  destruct m_frame as (E1 & E2 & E3 & E4). pose proof m_dev as E5.
  split; rewrite ?m_used, ?E1, ?E2, ?E3, ?E4, ?E5; cbn [j_log_blocks j_head j_head_seq j_tail j_next_seq];
    change (sb_journal_start sb) with 4; change (sb_total_blocks sb) with 16.
  - constructor. unfold log_txn. by rewrite (proj1 (log_unused 1 ltac:(lia) 1 ltac:(lia))).
  - reflexivity.
  - apply log_unused. clear. lia.
  - apply (log_unused 2). clear. lia.
  - apply Forall_singleton. rewrite m_view. clear. by vm_compute.
  - cbn [map]. rewrite m_view. apply single_crc. change (adv 6 1 (1 + Z.of_nat 0)) with 2. fold (lblock 2).
    rewrite lblock_zero by (clear; lia). exact data_crc.
Qed.

Lemma append_result :
  fst (carafs_journal_append m) = Ok tt /\ m_j (snd (carafs_journal_append m)) = mkJ 6 1 1 4 2.
Proof. by vm_compute. Qed.


(** ** The machine stops here: the next mount finds this device *)

Definition after : CarafsMount CarafsMemBdev := snd (carafs_journal_append m).
Lemma after_frame : m_sb after = sb /\ m_j after = mkJ 6 1 1 4 2 /\ m_block_size after = 512%nat.
Proof. by vm_compute. Qed.
Lemma after_log : m_j (j_set_log after) = mkJ 6 1 1 4 2.
Proof. by vm_compute. Qed.
Lemma after_geom : j_geom after.
Proof.
  exact (append_geom m (fst (carafs_journal_append m)) after m_ready
           (surjective_pairing (carafs_journal_append m))).
Qed.
Lemma after_geom_log : j_geom (j_set_log after).
Proof. apply j_set_log_geom; [by vm_compute|exact after_geom]. Qed.
Lemma after_txn : log_txn 4 6 16 512 (bdev_content (m_bdev after)) 1 1 = Some [(12, data)] /\
  log_txn 4 6 16 512 (bdev_content (m_bdev after)) 4 2 = None.
Proof. by vm_compute. Qed.
Lemma after_chain : log_chain 4 6 16 512 (bdev_content (m_bdev after)) 1 1 [[(12, data)]] 4 2.
Proof. destruct after_txn as [H1 H2]. econstructor; [exact H1|]. by constructor. Qed.
Lemma after_jsb : jsb_fields 512 6 (bdev_content (m_bdev after) 4) = Ok (1, 1).
Proof. by vm_compute. Qed.
Lemma after_ready : replay_ready after 1 1.
Proof.
  destruct after_frame as (E1 & E2 & E3). pose proof after_log as E4.
  split; [exact after_geom_log|rewrite E3; lia|rewrite E3, E4, E1; exact after_jsb|].
  intros txns o s. rewrite j_set_log_sb, j_set_log_bs, E1, E3, E4. intros Hch.
  destruct (log_chain_fun _ _ _ _ _ _ _ _ _ _ _ _ _ after_chain Hch) as (-> & _).
  apply Forall_singleton, Forall_singleton. unfold in_log. cbn [fst j_log_blocks].
  change (sb_journal_start sb) with 4. lia.
Qed.
Lemma after_replay : fst (carafs_journal_replay after) = Ok tt.
Proof. by vm_compute. Qed.

Lemma journal_replay_recovers_witness :
  bdev_content (m_bdev (snd (carafs_journal_replay after))) 12 = data.
Proof.
  pose proof after_replay as Hr. destruct (carafs_journal_replay after) as [r m'] eqn:E. cbn [fst snd] in *.
  destruct (journal_replay_recovers after 1 1 r m' after_ready E) as (txns & o & s & Hch & _ & _ & _ & H).
  destruct after_frame as (E1 & E2 & E3). pose proof after_log as E4. destruct (H Hr) as (Hc & _).
  rewrite j_set_log_sb, j_set_log_bs, E1, E3, E4 in Hch.
  destruct (log_chain_fun _ _ _ _ _ _ _ _ _ _ _ _ _ after_chain Hch) as (-> & _).
  rewrite E1 in Hc. exact (Hc 12 ltac:(discriminate)).
Defined.

Definition garbled : CarafsMemBdev := snd (bdev_write (m_bdev after) 12 (replicate 512 9)).
Lemma after_in_dev : in_dev after 12.
Proof. by vm_compute. Qed.
Lemma garbled_image : crash_image (targets_of [[(12, data)]]) after garbled.
Proof.
  apply write_crash_image; [exact after_geom|exact after_in_dev| |apply Forall_replicate; unfold in_u8; lia|by left].
  destruct after_frame as (_ & _ & ->). apply length_replicate.
Qed.
Lemma garbled_replay : fst (carafs_journal_replay (set_bdev garbled after)) = Ok tt.
Proof. by vm_compute. Qed.


Lemma replay_again : fst (carafs_journal_replay (snd (carafs_journal_replay after))) = Ok tt.
Proof. by vm_compute. Qed.
Lemma journal_replay_idempotent_witness :
  let m1 := snd (carafs_journal_replay after) in
  bdev_content (m_bdev (snd (carafs_journal_replay m1))) 12 = bdev_content (m_bdev m1) 12.
Proof.
  pose proof after_replay as Hr. pose proof replay_again as Hr2.
  destruct (carafs_journal_replay after) as [r m1] eqn:E. cbn [fst snd] in *.
  destruct (carafs_journal_replay m1) as [r2 m2] eqn:E2. cbn [fst snd] in *. subst r r2.
  exact (journal_replay_idempotent after 1 1 m1 m2 after_ready E E2 12).
Defined.
(** A log of three blocks, filled by a transaction of one. *)
Definition tight : CarafsMount CarafsMemBdev := set_j (mkJ 3 1 1 1 1) m.
Lemma tight_append : fst (carafs_journal_append tight) = Ok tt.
Proof. by vm_compute. Qed.
Lemma tight_txn : m_txn_blocks tight = [12] /\ m_j tight = mkJ 3 1 1 1 1 /\ j_used tight = 0.
Proof. by vm_compute. Qed.
Lemma journal_full_log_looks_empty_witness : j_used (snd (carafs_journal_append tight)) = 0.
Proof.
  destruct tight_txn as (E1 & E2 & E3). pose proof tight_append as Hr.
  destruct (carafs_journal_append tight) as [r m1] eqn:E. cbn [fst snd] in *. subst r.
  refine (proj1 (journal_full_log_looks_empty tight m1 _ _ _ _ E)); rewrite ?E1, ?E2, ?E3.
  - apply append_ready_shrink; [exact m_ready|]. destruct m_frame as (_ & -> & _ & ->). cbn. clear. lia.
  - reflexivity.
  - cbn. clear. lia.
  - reflexivity.
Defined.
End WalExample.
