(* ===== verification/Alloc.v ===== *)
(** The CaraFS allocation-group bitmap allocator ([src/logaic/carafs/alloc.c]).

    [bits] is the tail of an AG header block, so a bitmap is addressed through the whole
    block; the pointer the code holds into the cache is the entry's index. *)

From S2P Require Import Prelude Format Volume Cache Journal.

#[local] Arguments u32 : simpl never.
#[local] Arguments u64 : simpl never.
#[local] Arguments Z.to_nat : simpl never.

(** Offsets of [struct CarafsAgHeader]. *)
Definition AG_CRC : nat := 4.
Definition AG_BLOCK_NO : nat := 8.
Definition AG_FREE_COUNT : nat := 16.
Definition AG_ROTOR : nat := 20.

(** * The bitmap *)

Definition bits_byte (blk : list Z) (idx : Z) : Z := nth (CARAFS_AG_BITS_OFF + Z.to_nat (idx / 8)) blk 0.
Definition bit_get (blk : list Z) (idx : Z) : bool :=
  negb (Z.land (Z.shiftr (bits_byte blk idx) (idx mod 8)) 1 =? 0).
Definition bit_set (blk : list Z) (idx : Z) : list Z :=
  <[(CARAFS_AG_BITS_OFF + Z.to_nat (idx / 8))%nat := Z.lor (bits_byte blk idx) (u8 (Z.shiftl 1 (idx mod 8)))]> blk.
Definition bit_clear (blk : list Z) (idx : Z) : list Z :=
  <[(CARAFS_AG_BITS_OFF + Z.to_nat (idx / 8))%nat :=
      Z.land (bits_byte blk idx) (u8 (not32 (Z.shiftl 1 (idx mod 8))))]> blk.

(** The [while] of [scan_free]: every round advances [i], so [ag_size] rounds are enough. *)
Fixpoint scan_free_from (fuel : nat) (blk : list Z) (i ag_size : Z) : Z :=
  match fuel with
  | O => ag_size
  | S fuel =>
      if i <? ag_size then
        if (i mod 8 =? 0) && (bits_byte blk i =? 0xFF) then scan_free_from fuel blk (i + 8) ag_size
        else if negb (bit_get blk i) then i
        else scan_free_from fuel blk (i + 1) ag_size
      else ag_size
  end.
Definition scan_free (blk : list Z) (from ag_size : Z) : Z :=
  scan_free_from (S (Z.to_nat (ag_size - from))) blk from ag_size.

(** [while (got < want && rel + got < ag_size && !bit_get(bits, rel + got)) got++]. *)
Fixpoint run_length (fuel : nat) (blk : list Z) (rel got want ag_size : Z) : Z :=
  match fuel with
  | O => got
  | S fuel =>
      if (got <? want) && (rel + got <? ag_size) && negb (bit_get blk (rel + got))
      then run_length fuel blk rel (got + 1) want ag_size else got
  end.

(** [for (i = 0; i < n; i++) f(bits, rel + i)]. *)
Fixpoint bits_for (n : nat) (f : list Z -> Z -> list Z) (blk : list Z) (rel : Z) : list Z :=
  match n with O => blk | S n => bits_for n f (f blk rel) (rel + 1) end.
Fixpoint all_set (n : nat) (blk : list Z) (rel : Z) : bool :=
  match n with O => true | S n => if negb (bit_get blk rel) then false else all_set n blk (rel + 1) end.

(** ** The header edits *)

(** The body of [ag_try_alloc] between [ag_get] and [carafs_txn_dirty]: the new header block, the
    first granted bit and the number granted. *)
Definition ag_take (bs : nat) (ag_size want : Z) (blk : list Z) : result (list Z * Z * Z) :=
  let free_count := rd 4 blk AG_FREE_COUNT in
  if free_count =? 0 then Err CARA_ENOTFOUND else
  let rotor := if rd 4 blk AG_ROTOR <? ag_size then rd 4 blk AG_ROTOR else 0 in
  let rel := scan_free blk rotor ag_size in
  let rel := if rel =? ag_size then scan_free blk 0 ag_size else rel in
  if rel =? ag_size then Err CARA_EBADMAGIC else
  let got := run_length (Z.to_nat want) blk rel 1 want ag_size in
  let blk := bits_for (Z.to_nat got) bit_set blk rel in
  let blk := wr 4 blk AG_FREE_COUNT (u32 (free_count - got)) in
  let blk := wr 4 blk AG_ROTOR (if rel + got <? ag_size then rel + got else 0) in
  Ok (carafs_put_crc blk bs AG_CRC, rel, got).

(** The same of [carafs_free_extent]. *)
Definition ag_give (bs : nat) (rel count : Z) (blk : list Z) : result (list Z) :=
  if negb (all_set (Z.to_nat count) blk rel) then Err CARA_EINVAL else
  let free_count := rd 4 blk AG_FREE_COUNT in
  let blk := bits_for (Z.to_nat count) bit_clear blk rel in
  let blk := wr 4 blk AG_FREE_COUNT (u32 (free_count + count)) in
  Ok (carafs_put_crc blk bs AG_CRC).

(** * The operations *)

Section Alloc.
Context {D : Type} `{!BlockDev D}.
Abbreviation mount := (CarafsMount D).

Definition ag_block_of (m : mount) (ag : Z) : Z :=
  u64 (sb_ag_first_block (m_sb m) + u64 (ag * sb_ag_size_blocks (m_sb m))).

Definition ag_header_ok (bs : nat) (block : Z) (blk : list Z) : bool :=
  (rd 4 blk 0 =? CARAFS_MAGIC_BITMAP) && (rd 8 blk AG_BLOCK_NO =? block) && block_crc_ok blk bs AG_CRC.

Definition ag_get (ag : Z) : ST mount Z :=
  block ← st_gets (fun m => ag_block_of m ag);
  '(idx, fresh) ← carafs_cache_get block CARAFS_GET_READ;
  m ← st_get;
  if fresh && negb (ag_header_ok (m_block_size m) block (e_data (ent m idx)))
  then st_mod (carafs_cache_put block);; st_err CARA_EBADMAGIC
  else mret idx.

(** The edited block, stored through the pointer, joins the transaction; the pin is dropped. *)
Definition ag_commit (ag_block idx : Z) (blk : list Z) : ST mount unit :=
  st_mod (upd_ent idx (ent_set_data blk));;
  rc ← st_try (carafs_txn_dirty ag_block);
  st_mod (carafs_cache_put ag_block);;
  st_lift rc.

Fixpoint invalidate_run (n : nat) (block : Z) (m : mount) : mount :=
  match n with O => m | S n => invalidate_run n (block + 1) (carafs_cache_invalidate block m) end.

Definition ag_try_alloc (ag want : Z) : ST mount (Z * Z) :=
  m ← st_get;
  let ag_block := ag_block_of m ag in
  idx ← ag_get ag;
  m ← st_get;
  match ag_take (m_block_size m) (sb_ag_size_blocks (m_sb m)) want (e_data (ent m idx)) with
  | Err e => st_mod (carafs_cache_put ag_block);; st_err e
  | Ok (blk, rel, got) =>
      ag_commit ag_block idx blk;;
      st_mod (fun m => set_sb (sb_set_free_blocks (m_sb m) (u64 (sb_free_blocks (m_sb m) - got))) m);;
      st_mod (invalidate_run (Z.to_nat got) (u64 (ag_block + rel)));;
      mret (u64 (ag_block + rel), got)
  end.

(** The round-robin loop, from its [i]-th group on. *)
Fixpoint alloc_groups (n : nat) (ag0 i ag_count want : Z) : ST mount (Z * Z) :=
  match n with
  | O => st_err CARA_ENOMEM
  | S n =>
      rc ← st_try (ag_try_alloc (u32 (ag0 + i) mod ag_count) want);
      match rc with
      | Err e => if e =? CARA_ENOTFOUND then alloc_groups n ag0 (i + 1) ag_count want else st_err e
      | Ok x => mret x
      end
  end.
Definition carafs_alloc_extent (hint want : Z) : ST mount (Z * Z) :=
  if want =? 0 then st_err CARA_EINVAL else
  sb ← st_gets m_sb;
  let ag_count := sb_ag_count sb in
  let ag0 := if (sb_ag_first_block sb <=? hint) && (hint <? sb_backup_sb sb)
             then u32 ((hint - sb_ag_first_block sb) / sb_ag_size_blocks sb) else 0 in
  alloc_groups (Z.to_nat ag_count) ag0 0 ag_count want.

Definition carafs_alloc_block (hint : Z) : ST mount Z :=
  '(start, _) ← carafs_alloc_extent hint 1;
  mret start.

Definition carafs_free_extent (start count : Z) : ST mount unit :=
  m ← st_get;
  let sb := m_sb m in
  if (count =? 0) || (start <? sb_ag_first_block sb) || (sb_backup_sb sb <? u64 (start + count))
  then st_err CARA_EINVAL else
  let ag := u32 ((start - sb_ag_first_block sb) / sb_ag_size_blocks sb) in
  let ag_block := ag_block_of m ag in
  let rel := u32 (start - ag_block) in
  if (rel =? 0) || (sb_ag_size_blocks sb <? u32 (rel + count)) then st_err CARA_EINVAL else
  idx ← ag_get ag;
  m ← st_get;
  match ag_give (m_block_size m) rel count (e_data (ent m idx)) with
  | Err e => st_mod (carafs_cache_put ag_block);; st_err e
  | Ok blk =>
      ag_commit ag_block idx blk;;
      st_mod (fun m => set_sb (sb_set_free_blocks (m_sb m) (u64 (sb_free_blocks (m_sb m) + count))) m)
  end.

End Alloc.

(** * Bits *)

Lemma bit_get_testbit blk i : 0 <= i -> bit_get blk i = Z.testbit (bits_byte blk i) (i mod 8).
Proof.
  intros Hi. unfold bit_get. assert (0 <= i mod 8) by (apply Z.mod_pos_bound; lia).
  rewrite Z.testbit_eqb, Z.shiftr_div_pow2 by lia. change 1 with (Z.ones 1) at 1. rewrite Z.land_ones by lia.
  change (2 ^ 1) with 2. set (x := bits_byte blk i / _). pose proof (Z.mod_pos_bound x 2 ltac:(lia)).
  destruct (Z.eqb_spec (x mod 2) 0), (Z.eqb_spec (x mod 2) 1); done || lia.
Qed.

Definition bit_range (blk : list Z) (i : Z) : Prop := 0 <= i < 8 * (Z.of_nat (length blk) - Z.of_nat CARAFS_AG_BITS_OFF).

Lemma bits_pos blk i : bit_range blk i -> (CARAFS_AG_BITS_OFF + Z.to_nat (i / 8) < length blk)%nat.
Proof.
  unfold bit_range, CARAFS_AG_BITS_OFF. intros Hi. pose proof (Z.div_lt_upper_bound i 8 (Z.of_nat (length blk) - 64)).
  pose proof (Z.div_pos i 8). lia.
Qed.

Lemma byte_insert blk i v j :
  bit_range blk i -> bit_range blk j ->
  bits_byte (<[(CARAFS_AG_BITS_OFF + Z.to_nat (i / 8))%nat := v]> blk) j = if i / 8 =? j / 8 then v else bits_byte blk j.
Proof.
  intros Hi Hj. unfold bits_byte. rewrite !nth_lookup. pose proof (bits_pos blk i Hi).
  assert (0 <= i / 8 /\ 0 <= j / 8) by (unfold bit_range in *; split; apply Z.div_pos; lia).
  destruct (Z.eqb_spec (i / 8) (j / 8)) as [E|Hne].
  - rewrite E in *. by rewrite list_lookup_insert_eq by done.
  - rewrite list_lookup_insert_ne by lia. done.
Qed.

Lemma idx_eqb i j : (i / 8 =? j / 8) && (i mod 8 =? j mod 8) = (i =? j).
Proof.
  pose proof (Z.div_mod i 8). pose proof (Z.div_mod j 8).
  destruct (Z.eqb_spec i j) as [->|Hne]; [by rewrite !Z.eqb_refl|].
  destruct (Z.eqb_spec (i / 8) (j / 8)); [|done]. destruct (Z.eqb_spec (i mod 8) (j mod 8)); [|done]. lia.
Qed.

Lemma bit_get_set blk i j :
  bit_range blk i -> bit_range blk j -> bit_get (bit_set blk i) j = (i =? j) || bit_get blk j.
Proof.
  intros Hi Hj. rewrite !bit_get_testbit by apply Hj. unfold bit_set. rewrite byte_insert by done.
  rewrite <- (idx_eqb i j). pose proof (Z.mod_pos_bound i 8). pose proof (Z.mod_pos_bound j 8).
  destruct (Z.eqb_spec (i / 8) (j / 8)) as [E|]; [|done]. simpl.
  rewrite Z.lor_spec. unfold u8. rewrite Z.testbit_mod_pow2, Z.shiftl_1_l, Z.pow2_bits_eqb by lia.
  rewrite (proj2 (Z.ltb_lt _ _)) by lia. simpl. rewrite orb_comm. f_equal. unfold bits_byte. by rewrite E.
Qed.

Lemma bit_get_clear blk i j :
  bit_range blk i -> bit_range blk j -> bit_get (bit_clear blk i) j = negb (i =? j) && bit_get blk j.
Proof.
  intros Hi Hj. rewrite !bit_get_testbit by apply Hj. unfold bit_clear. rewrite byte_insert by done.
  rewrite <- (idx_eqb i j). pose proof (Z.mod_pos_bound i 8 ltac:(lia)). pose proof (Z.mod_pos_bound j 8 ltac:(lia)).
  destruct (Z.eqb_spec (i / 8) (j / 8)) as [E|]; [|done]. cbn [andb].
  rewrite Z.land_spec. unfold u8. rewrite Z.testbit_mod_pow2, (proj2 (Z.ltb_lt (j mod 8) 8)) by lia.
  rewrite not32_spec by lia. rewrite (proj2 (Z.ltb_lt (j mod 8) 32)) by lia.
  rewrite Z.shiftl_1_l, Z.pow2_bits_eqb by lia.
  rewrite andb_true_l, andb_comm. unfold bits_byte. rewrite E. by destruct (i mod 8 =? j mod 8).
Qed.

(** Edits of the bitmap leave the size, the header fields and the byte ranges alone. *)
Definition bit_edit (f : list Z -> Z -> list Z) : Prop := forall blk i, bytes_ok blk -> bit_range blk i ->
  length (f blk i) = length blk /\ bytes_ok (f blk i) /\
  forall n off, (off + n <= CARAFS_AG_BITS_OFF)%nat -> rd n (f blk i) off = rd n blk off.

Lemma rd_insert n blk off k v : (off + n <= k)%nat -> rd n (<[k := v]> blk) off = rd n blk off.
Proof.
  intros H. unfold rd. f_equal. apply sub_ext. intros i Hi. apply list_lookup_insert_ne. lia.
Qed.
Lemma insert_bytes_ok (blk : list Z) k v : bytes_ok blk -> in_u8 v -> bytes_ok (<[k := v]> blk).
Proof. intros Hb Hv. by apply Forall_insert. Qed.
Lemma bits_byte_ok blk i : bytes_ok blk -> in_u8 (bits_byte blk i).
Proof.
  intros Hb. unfold bits_byte. rewrite nth_lookup. destruct (blk !! _) as [x|] eqn:E; [|done].
  unfold bytes_ok in Hb. rewrite Forall_lookup in Hb. by apply (Hb _ _ E).
Qed.

Lemma bit_set_edit : bit_edit bit_set.
Proof.
  intros blk i Hb Hi. unfold bit_set. rewrite length_insert. split_and!; [done| |].
  - apply insert_bytes_ok; [done|]. pose proof (bits_byte_ok blk i Hb) as Hy. unfold in_u8 in *.
    apply lor_range; [lia|done|apply u8_range].
  - intros n off H. apply rd_insert. lia.
Qed.
Lemma bit_clear_edit : bit_edit bit_clear.
Proof.
  intros blk i Hb Hi. unfold bit_clear. rewrite length_insert. split_and!; [done| |].
  - apply insert_bytes_ok; [done|]. pose proof (bits_byte_ok blk i Hb) as Hy. unfold in_u8 in *. by apply land_range; [lia|].
  - intros n off H. apply rd_insert. lia.
Qed.

Section Run.
Variable f : list Z -> Z -> list Z.
Hypothesis Hedit : bit_edit f.
Variable g : bool -> bool.
Hypothesis Hg : forall blk i j, bit_range blk i -> bit_range blk j ->
  bit_get (f blk i) j = if i =? j then g (bit_get blk j) else bit_get blk j.

Lemma bits_for_spec n blk rel :
  bytes_ok blk -> 0 <= rel -> (n = 0%nat \/ bit_range blk (rel + Z.of_nat n - 1)) ->
  let blk' := bits_for n f blk rel in
  length blk' = length blk /\ bytes_ok blk' /\
  (forall k off, (off + k <= CARAFS_AG_BITS_OFF)%nat -> rd k blk' off = rd k blk off) /\
  (forall j, bit_range blk j ->
     bit_get blk' j = if (rel <=? j) && (j <? rel + Z.of_nat n) then g (bit_get blk j) else bit_get blk j).
Proof.
  revert blk rel. induction n as [|n IH]; intros blk rel Hb Hr Hn; simpl.
  - split_and!; auto. intros j Hj. destruct (Z.leb_spec rel j), (Z.ltb_spec j (rel + Z.of_nat 0)); simpl; done || lia.
  - destruct Hn as [?|Hn]; [done|]. assert (bit_range blk rel) as Hrr by (unfold bit_range in *; lia).
    destruct (Hedit blk rel Hb Hrr) as (E1 & E2 & E3).
    destruct (IH (f blk rel) (rel + 1)) as (F1 & F2 & F3 & F4); try done; [lia| |].
    { destruct n; [by left|right]. unfold bit_range in *. rewrite E1. lia. }
    split_and!; [congruence|done|intros; rewrite F3 by done; by apply E3|].
    intros j Hj. rewrite F4 by (unfold bit_range in *; by rewrite E1). rewrite Hg by done.
    destruct (Z.eqb_spec rel j) as [->|Hne].
    + rewrite (proj2 (Z.leb_gt (j + 1) j)), Z.leb_refl, (proj2 (Z.ltb_lt j (j + Z.of_nat (S n)))) by lia. done.
    + destruct (Z.leb_spec (rel + 1) j), (Z.leb_spec rel j), (Z.ltb_spec j (rel + 1 + Z.of_nat n)),
        (Z.ltb_spec j (rel + Z.of_nat (S n))); simpl; done || lia.
Qed.
End Run.

Lemma set_run n blk rel :
  bytes_ok blk -> 0 <= rel -> (n = 0%nat \/ bit_range blk (rel + Z.of_nat n - 1)) ->
  let blk' := bits_for n bit_set blk rel in
  length blk' = length blk /\ bytes_ok blk' /\
  (forall k off, (off + k <= CARAFS_AG_BITS_OFF)%nat -> rd k blk' off = rd k blk off) /\
  (forall j, bit_range blk j ->
     bit_get blk' j = if (rel <=? j) && (j <? rel + Z.of_nat n) then true else bit_get blk j).
Proof.
  apply (bits_for_spec bit_set bit_set_edit (fun _ => true)).
  intros b i j Hi Hj. rewrite bit_get_set by done. by destruct (i =? j).
Qed.
Lemma clear_run n blk rel :
  bytes_ok blk -> 0 <= rel -> (n = 0%nat \/ bit_range blk (rel + Z.of_nat n - 1)) ->
  let blk' := bits_for n bit_clear blk rel in
  length blk' = length blk /\ bytes_ok blk' /\
  (forall k off, (off + k <= CARAFS_AG_BITS_OFF)%nat -> rd k blk' off = rd k blk off) /\
  (forall j, bit_range blk j ->
     bit_get blk' j = if (rel <=? j) && (j <? rel + Z.of_nat n) then false else bit_get blk j).
Proof.
  apply (bits_for_spec bit_clear bit_clear_edit (fun _ => false)).
  intros b i j Hi Hj. rewrite bit_get_clear by done. by destruct (i =? j).
Qed.

(** ** Scanning *)

Lemma full_byte blk i j :
  bytes_ok blk -> 0 <= i -> i mod 8 = 0 -> bits_byte blk i = 0xFF -> i <= j < i + 8 -> bit_get blk j = true.
Proof.
  intros Hb Hi Hm Hf Hj. rewrite bit_get_testbit by lia. assert (j / 8 = i / 8) as E.
  { symmetry. apply (Z.div_unique_pos j 8 (i / 8) (j - 8 * (i / 8))); pose proof (Z.div_mod i 8); lia. }
  assert (bits_byte blk j = 0xFF) as -> by (unfold bits_byte in *; by rewrite E).
  change 0xFF with (Z.ones 8). apply Z.ones_spec_low. apply Z.mod_pos_bound. lia.
Qed.

(** [scan_free] finds the first free bit, if there is one. *)
Lemma scan_free_from_spec fuel blk i ag_size :
  bytes_ok blk -> 0 <= i -> ag_size - i < Z.of_nat fuel ->
  let r := scan_free_from fuel blk i ag_size in
  (r = ag_size /\ forall j, i <= j < ag_size -> bit_get blk j = true) \/
  (i <= r < ag_size /\ bit_get blk r = false /\ forall j, i <= j < r -> bit_get blk j = true).
Proof.
  intros Hb. revert i. induction fuel as [|fuel IH]; intros i Hi Hf; [left; split; [done|lia]|].
  simpl. destruct (Z.ltb_spec i ag_size); [|left; split; [done|lia]].
  destruct ((i mod 8 =? 0) && (bits_byte blk i =? 0xFF)) eqn:Eb.
  { zbool. destruct (IH (i + 8)) as [[-> K1]|(K1 & K2 & K3)]; try lia.
    - left. split; [done|]. intros j Hj. destruct (decide (j < i + 8)); [apply (full_byte blk i); done || lia|apply K1; lia].
    - right. split_and!; try done; try lia. intros j Hj.
      destruct (decide (j < i + 8)); [apply (full_byte blk i); done || lia|apply K3; lia]. }
  destruct (bit_get blk i) eqn:Eg; simpl; [|right; split_and!; try done; lia].
  destruct (IH (i + 1)) as [[-> K1]|(K1 & K2 & K3)]; try lia.
  - left. split; [done|]. intros j Hj. destruct (decide (j = i)) as [->|]; [done|apply K1; lia].
  - right. split_and!; try done; try lia. intros j Hj. destruct (decide (j = i)) as [->|]; [done|apply K3; lia].
Qed.
Lemma scan_free_spec blk i ag_size :
  bytes_ok blk -> 0 <= i ->
  let r := scan_free blk i ag_size in
  (r = ag_size /\ forall j, i <= j < ag_size -> bit_get blk j = true) \/
  (i <= r < ag_size /\ bit_get blk r = false /\ forall j, i <= j < r -> bit_get blk j = true).
Proof. intros Hb Hi. apply scan_free_from_spec; [done|done|lia]. Qed.

Lemma run_length_spec fuel blk rel got want ag_size :
  1 <= got -> rel + got <= ag_size -> (got <= want -> want - got <= Z.of_nat fuel) ->
  (forall j, rel <= j < rel + got -> bit_get blk j = false) ->
  let r := run_length fuel blk rel got want ag_size in
  got <= r /\ rel + r <= ag_size /\ (got <= want -> r <= want) /\
  (forall j, rel <= j < rel + r -> bit_get blk j = false) /\
  (got <= want -> r = want \/ rel + r = ag_size \/ bit_get blk (rel + r) = true).
Proof.
  revert got. induction fuel as [|fuel IH]; intros got Hg Hr Hf Hfree; simpl.
  { split_and!; try done; try lia. }
  destruct ((got <? want) && (rel + got <? ag_size) && negb (bit_get blk (rel + got))) eqn:E.
  - zbool. destruct (IH (got + 1)) as (H1' & H2' & H3' & H4' & H5'); try lia.
    { intros j Hj. destruct (decide (j = rel + got)) as [->|]; [done|apply Hfree; lia]. }
    split_and!; try lia; auto. intros Hw. apply H5'. lia.
  - split_and!; try done; try lia. intros Hw.
    apply andb_false_iff in E as [E|E]; [apply andb_false_iff in E as [E|E]|]; zbool; [left; lia|right; left; lia|by right; right].
Qed.

Lemma all_set_spec n blk rel : all_set n blk rel = true <-> forall j, rel <= j < rel + Z.of_nat n -> bit_get blk j = true.
Proof.
  revert rel. induction n as [|n IH]; intros rel; simpl; [split; [intros; lia|done]|].
  destruct (bit_get blk rel) eqn:E; simpl.
  - rewrite IH. split; intros H j Hj; [destruct (decide (j = rel)) as [->|]; [done|]|]; apply H; lia.
  - split; [done|]. intros H. rewrite H in E by lia. done.
Qed.

Lemma not_all_set n blk rel :
  all_set n blk rel = false -> exists j, rel <= j < rel + Z.of_nat n /\ bit_get blk j = false.
Proof.
  revert rel. induction n as [|n IH]; intros rel; simpl; [done|].
  destruct (bit_get blk rel) eqn:E; simpl; [|intros _; exists rel; split; [lia|done]].
  intros H. destruct (IH _ H) as (j & Hj & Ej). exists j. split; [lia|done].
Qed.

(** ** Counting free bits *)

Definition free_bits (blk : list Z) (n : Z) : Z := clear_count (bit_get blk) n.

Lemma free_bits_run blk blk' n rel k (b : bool) :
  0 <= rel -> 0 <= k -> rel + k <= n ->
  (forall j, rel <= j < rel + k -> bit_get blk j = b /\ bit_get blk' j = negb b) ->
  (forall j, 0 <= j < n -> ~ (rel <= j < rel + k) -> bit_get blk' j = bit_get blk j) ->
  free_bits blk' n = if b then free_bits blk n + k else free_bits blk n - k.
Proof. apply clear_count_run. Qed.
Lemma free_bits_zero blk n : (forall j, 0 <= j < n -> bit_get blk j = true) <-> free_bits blk n = 0.
Proof. apply clear_count_zero. Qed.
Lemma free_bits_range blk n : 0 <= n -> 0 <= free_bits blk n <= n.
Proof. apply clear_count_range. Qed.

(** * A well-formed allocation group *)

(** The header block of a group of [ag_size] blocks whose bitmap is [block]: sealed, its free
    count exact, the bitmap block itself allocated. *)
Record ag_ok (bs : nat) (ag_size block : Z) (blk : list Z) : Prop := {
  ago_len : length blk = bs;
  ago_bytes : bytes_ok blk;
  ago_size : 0 < ag_size <= 8 * (Z.of_nat bs - Z.of_nat CARAFS_AG_BITS_OFF);
  ago_small : ag_size < 2 ^ 31;
  ago_hdr : ag_header_ok bs block blk = true;
  ago_count : rd 4 blk AG_FREE_COUNT = free_bits blk ag_size;
  ago_self : bit_get blk 0 = true
}.

Lemma bit_get_wr blk n off v j : (off + n <= CARAFS_AG_BITS_OFF)%nat -> bit_get (wr n blk off v) j = bit_get blk j.
Proof.
  intros H. unfold bit_get, bits_byte. rewrite !nth_lookup. unfold wr.
  rewrite lookup_splice_out; [done|]. rewrite length_le_put. lia.
Qed.

(** Sealing an edited header: the fields as written, the bits as edited. *)
Lemma ag_seal bs ag_size block blk blk1 fc :
  ag_ok bs ag_size block blk -> length blk1 = bs -> bytes_ok blk1 ->
  (forall k off, (off + k <= AG_FREE_COUNT)%nat -> (4 <= off \/ off + k <= 4)%nat -> rd k blk1 off = rd k blk off) ->
  rd 4 blk1 AG_FREE_COUNT = fc -> fc = free_bits blk1 ag_size -> bit_get blk1 0 = true ->
  ag_ok bs ag_size block (carafs_put_crc blk1 bs AG_CRC) /\
  forall j, bit_get (carafs_put_crc blk1 bs AG_CRC) j = bit_get blk1 j.
Proof.
  intros [H1 H2 H3 H4 H5 H6 H7] Hl Hb Hf Hfc Hfree H0. unfold CARAFS_AG_BITS_OFF, AG_FREE_COUNT in *.
  assert (forall j, bit_get (carafs_put_crc blk1 bs AG_CRC) j = bit_get blk1 j) as Hbits.
  { intros j. apply bit_get_wr. unfold AG_CRC, CARAFS_AG_BITS_OFF. lia. }
  assert (forall k off, (8 <= off \/ off + k <= 4)%nat -> rd k (carafs_put_crc blk1 bs AG_CRC) off = rd k blk1 off) as Hrd.
  { intros k off Ho. apply rd_wr_other. unfold AG_CRC. lia. }
  split; [|done]. split; try done.
  - unfold carafs_put_crc. by rewrite length_wr.
  - by apply wr_bytes_ok.
  - unfold ag_header_ok in *. zbool. rewrite block_crc_ok_put_crc by (done || unfold AG_CRC; lia).
    unfold AG_BLOCK_NO in *. rewrite !Hrd, !Hf by lia.
    repeat match goal with H : rd _ _ _ = _ |- _ => rewrite H; clear H end. by rewrite !Z.eqb_refl.
  - unfold AG_FREE_COUNT. rewrite Hrd by lia. rewrite Hfc, Hfree. unfold free_bits, clear_count. f_equal.
    apply filter_len_ext. intros x _. by rewrite Hbits.
  - by rewrite Hbits.
Qed.

Lemma rd_4_range blk off : bytes_ok blk -> (off + 4 <= length blk)%nat -> in_u32 (rd 4 blk off).
Proof.
  intros Hb Hl. pose proof (le_get_range (sub off 4 blk) (sub_bytes_ok _ _ _ Hb)) as H.
  rewrite length_sub in H by done. exact H.
Qed.

(** What an allocation from one group returns. *)
Record granted (ag_size want : Z) (blk : list Z) (rel got : Z) (blk' : list Z) : Prop := {
  gr_got : 1 <= got <= want;
  gr_range : 0 < rel /\ rel + got <= ag_size;
  gr_run j : rel <= j < rel + got -> bit_get blk j = false /\ bit_get blk' j = true;
  gr_rest j : 0 <= j < ag_size -> ~ (rel <= j < rel + got) -> bit_get blk' j = bit_get blk j;
  gr_max : got = want \/ rel + got = ag_size \/ bit_get blk (rel + got) = true
}.

Lemma ag_take_spec bs ag_size block want blk :
  ag_ok bs ag_size block blk -> 1 <= want ->
  match ag_take bs ag_size want blk with
  | Ok (blk', rel, got) => granted ag_size want blk rel got blk' /\ ag_ok bs ag_size block blk'
  | Err e => e = CARA_ENOTFOUND /\ forall j, 0 <= j < ag_size -> bit_get blk j = true
  end.
Proof.
  intros Hag Hw. pose proof Hag as [Hl Hb Hsz Hsm _ Hc H0]. unfold ag_take. rewrite Hc.
  destruct (Z.eqb_spec (free_bits blk ag_size) 0) as [Ez|Ez]; [split; [done|by apply free_bits_zero]|].
  pose proof (rd_4_range blk AG_ROTOR Hb ltac:(unfold AG_ROTOR, CARAFS_AG_BITS_OFF in *; lia)) as Hrot. unfold in_u32 in Hrot.
  set (rotor := if rd 4 blk AG_ROTOR <? ag_size then _ else 0).
  assert (0 <= rotor) as Hr0 by (unfold rotor; destruct (_ <? _); lia).
  set (rel := if scan_free blk rotor ag_size =? ag_size then scan_free blk 0 ag_size else scan_free blk rotor ag_size).
  assert (0 <= rel < ag_size /\ bit_get blk rel = false) as [Hrel Hfree].
  { unfold rel. destruct (scan_free_spec blk rotor ag_size Hb Hr0) as [[-> _]|(H1 & H2 & _)].
    - rewrite Z.eqb_refl. destruct (scan_free_spec blk 0 ag_size Hb ltac:(lia)) as [[_ H]|(H1 & H2 & _)]; [|split; [lia|done]].
      destruct Ez. by apply free_bits_zero.
    - rewrite (proj2 (Z.eqb_neq _ _)) by lia. split; [lia|done]. }
  rewrite (proj2 (Z.eqb_neq _ _)) by lia.
  assert (rel <> 0) as Hrel0 by (intros E; rewrite E in Hfree; congruence).
  destruct (run_length_spec (Z.to_nat want) blk rel 1 want ag_size) as (G1 & G2 & G3 & G4 & G5); try lia.
  { intros j Hj. by replace j with rel by lia. }
  set (got := run_length _ _ _ _ _ _) in *.
  assert (bit_range blk (rel + Z.of_nat (Z.to_nat got) - 1)) as Hbr by (unfold bit_range; rewrite Hl; lia).
  destruct (set_run (Z.to_nat got) blk rel Hb ltac:(lia) (or_intror Hbr)) as (S1 & S2 & S3 & S4).
  set (b1 := bits_for _ _ _ _) in *. rewrite Z2Nat.id in S4 by lia.
  assert (forall j, 0 <= j < ag_size -> bit_range blk j) as Hbrj by (intros; unfold bit_range; rewrite Hl; lia).
  assert (forall j, rel <= j < rel + got -> bit_get b1 j = true) as Hin.
  { intros j Hj. rewrite S4 by (apply Hbrj; lia). by rewrite (proj2 (Z.leb_le _ _)), (proj2 (Z.ltb_lt _ _)) by lia. }
  assert (forall j, 0 <= j < ag_size -> ~ (rel <= j < rel + got) -> bit_get b1 j = bit_get blk j) as Hout.
  { intros j Hj Hn. rewrite S4 by (by apply Hbrj). destruct (Z.leb_spec rel j), (Z.ltb_spec j (rel + got)); simpl; lia || done. }
  assert (free_bits b1 ag_size = free_bits blk ag_size - got) as Hcount.
  { apply (free_bits_run blk b1 ag_size rel got false); try lia; [|done]. intros j Hj. split; [by apply G4|by apply Hin]. }
  pose proof (free_bits_range blk ag_size ltac:(lia)) as Hfr. pose proof (free_bits_range b1 ag_size ltac:(lia)) as Hfr1.
  rewrite Hcount in Hfr1.
  set (b2 := wr 4 (wr 4 b1 AG_FREE_COUNT _) AG_ROTOR _).
  assert (forall j, bit_get b2 j = bit_get b1 j) as Hb2.
  { intros j. unfold b2. rewrite !bit_get_wr; [done|unfold AG_FREE_COUNT, CARAFS_AG_BITS_OFF; lia|unfold AG_ROTOR, CARAFS_AG_BITS_OFF; lia]. }
  destruct (ag_seal bs ag_size block blk b2 (free_bits blk ag_size - got) Hag) as [Hok Hbits].
  - unfold b2. by rewrite !length_wr, S1.
  - unfold b2. by apply wr_bytes_ok, wr_bytes_ok.
  - intros k off H1 H2. unfold b2, AG_FREE_COUNT, AG_ROTOR in *. rewrite !rd_wr_other by lia. apply S3.
    unfold CARAFS_AG_BITS_OFF. lia.
  - unfold b2, AG_FREE_COUNT, AG_ROTOR. rewrite rd_wr_other by lia. rewrite u32_small by (unfold in_u32; lia).
    apply rd_wr_same; [unfold CARAFS_AG_BITS_OFF in *; lia|lia].
  - rewrite <- Hcount. unfold free_bits, clear_count. f_equal. apply filter_len_ext. intros x _. by rewrite Hb2.
  - rewrite Hb2, Hout by lia. done.
  - split; [|done]. split.
    + lia.
    + lia.
    + intros j Hj. rewrite Hbits, Hb2. auto.
    + intros j Hj Hn. rewrite Hbits, Hb2. auto.
    + apply G5. lia.
Qed.

(** What a release does to the group. *)
Record released (ag_size : Z) (blk : list Z) (rel count : Z) (blk' : list Z) : Prop := {
  rl_run j : rel <= j < rel + count -> bit_get blk j = true /\ bit_get blk' j = false;
  rl_rest j : 0 <= j < ag_size -> ~ (rel <= j < rel + count) -> bit_get blk' j = bit_get blk j
}.

Lemma ag_give_spec bs ag_size block rel count blk :
  ag_ok bs ag_size block blk -> 0 < rel -> 1 <= count -> rel + count <= ag_size ->
  match ag_give bs rel count blk with
  | Ok blk' => released ag_size blk rel count blk' /\ ag_ok bs ag_size block blk'
  | Err e => e = CARA_EINVAL /\ exists j, rel <= j < rel + count /\ bit_get blk j = false
  end.
Proof.
  intros Hag Hr Hcnt Hfit. pose proof Hag as [Hl Hb Hsz Hsm _ Hc H0]. unfold ag_give.
  destruct (all_set (Z.to_nat count) blk rel) eqn:Ea; simpl negb; cbn iota.
  2:{ split; [done|]. destruct (not_all_set _ _ _ Ea) as (j & Hj & Ej). exists j. split; [lia|done]. }
  rewrite all_set_spec, Z2Nat.id in Ea by lia. rewrite Hc.
  assert (bit_range blk (rel + Z.of_nat (Z.to_nat count) - 1)) as Hbr by (unfold bit_range; rewrite Hl; lia).
  destruct (clear_run (Z.to_nat count) blk rel Hb ltac:(lia) (or_intror Hbr)) as (S1 & S2 & S3 & S4).
  set (b1 := bits_for _ _ _ _) in *. rewrite Z2Nat.id in S4 by lia.
  assert (forall j, 0 <= j < ag_size -> bit_range blk j) as Hbrj by (intros; unfold bit_range; rewrite Hl; lia).
  assert (forall j, rel <= j < rel + count -> bit_get b1 j = false) as Hin.
  { intros j Hj. rewrite S4 by (apply Hbrj; lia). by rewrite (proj2 (Z.leb_le _ _)), (proj2 (Z.ltb_lt _ _)) by lia. }
  assert (forall j, 0 <= j < ag_size -> ~ (rel <= j < rel + count) -> bit_get b1 j = bit_get blk j) as Hout.
  { intros j Hj Hn. rewrite S4 by (by apply Hbrj). destruct (Z.leb_spec rel j), (Z.ltb_spec j (rel + count)); simpl; lia || done. }
  assert (free_bits b1 ag_size = free_bits blk ag_size + count) as Hcount.
  { apply (free_bits_run blk b1 ag_size rel count true); try lia; [|done]. intros j Hj. split; [by apply Ea|by apply Hin]. }
  pose proof (free_bits_range blk ag_size ltac:(lia)) as Hfr.
  set (b2 := wr 4 b1 AG_FREE_COUNT _).
  assert (forall j, bit_get b2 j = bit_get b1 j) as Hb2.
  { intros j. unfold b2. rewrite !bit_get_wr; [done|unfold AG_FREE_COUNT, CARAFS_AG_BITS_OFF; lia]. }
  destruct (ag_seal bs ag_size block blk b2 (free_bits blk ag_size + count) Hag) as [Hok Hbits].
  - unfold b2. by rewrite !length_wr, S1.
  - unfold b2. by apply wr_bytes_ok.
  - intros k off H1 H2. unfold b2, AG_FREE_COUNT in *. rewrite !rd_wr_other by lia. apply S3.
    unfold CARAFS_AG_BITS_OFF. lia.
  - unfold b2, AG_FREE_COUNT. rewrite u32_small by (unfold in_u32; lia).
    apply rd_wr_same; [unfold CARAFS_AG_BITS_OFF in *; lia|lia].
  - rewrite <- Hcount. unfold free_bits, clear_count. f_equal. apply filter_len_ext. intros x _. by rewrite Hb2.
  - rewrite Hb2, Hout by lia. done.
  - split; [|done]. split; intros j Hj; rewrite Hbits, Hb2; auto.
Qed.

(** * Editing a cached metadata block inside a transaction *)

Section Edit.
Context {D : Type} `{!BlockDev D} `{!BlockDevLaws D}.
Abbreviation mount := (CarafsMount D).
Implicit Types m : mount.

(** [m'] shows [v] in its blocks, pins no more than [m], and is otherwise [m]. *)
Record shows (v : Z -> list Z) m m' : Prop := {
  sh_inv : cache_inv m';
  sh_view b : in_dev m b -> view m' b = v b;
  sh_pins j : valid_idx m j -> e_pins (ent m' j) <= e_pins (ent m j);
  sh_frame : n_ents m' = n_ents m /\ dev_n m' = dev_n m /\ m_block_size m' = m_block_size m /\
    m_sb m' = m_sb m /\ m_j m' = m_j m
}.

Lemma shows_pins v m m' : shows v m m' -> pins_ok m -> pins_ok m'.
Proof.
  intros [_ _ Hp (En & _)] Hok j Hj. assert (valid_idx m j) as Hjm by (unfold valid_idx in *; by rewrite <- En).
  specialize (Hp j Hjm). specialize (Hok j Hjm). lia.
Qed.
Lemma shows_trans v v' m1 m2 m3 : shows v m1 m2 -> shows v' m2 m3 -> shows v' m1 m3.
Proof.
  intros [A1 A2 A3 (E1&E2&E3&E4&E5)] [B1 B2 B3 (F1&F2&F3&F4&F5)]. split; [done| | |].
  - intros b Hb. apply B2. unfold in_dev in *. congruence.
  - intros j Hj. assert (valid_idx m2 j) as Hj2 by (unfold valid_idx in *; congruence).
    specialize (A3 j Hj). specialize (B3 j Hj2). lia.
  - split_and!; congruence.
Qed.
Lemma kept_shows m m' : view_kept m m' ->
  (forall j, valid_idx m j -> e_pins (ent m' j) <= e_pins (ent m j)) -> shows (view m) m m'.
Proof. intros [] Hp. by split. Qed.

(** A pinned block is released. *)
Lemma put_shows m b i m0 v :
  cache_inv m -> valid_idx m i -> e_block (ent m i) = b -> b <> CARAFS_BLOCK_NONE -> 0 < e_pins (ent m i) ->
  (forall b', in_dev m0 b' -> view m b' = v b') ->
  n_ents m = n_ents m0 /\ dev_n m = dev_n m0 /\ m_block_size m = m_block_size m0 /\ m_sb m = m_sb m0 /\ m_j m = m_j m0 ->
  (forall j, valid_idx m j -> e_pins (ent m j) <= e_pins (ent m0 j) + if j =? i then 1 else 0) ->
  0 <= b -> shows v m0 (carafs_cache_put b m).
Proof.
  intros Hc Hi Eb Hb Hp Hv (E1&E2&E3&E4&E5) Hpins Hb0.
  assert (carafs_cache_put b m = upd_ent i (fun e => ent_set_pins (e_pins e - 1) e) m) as Ep.
  { unfold carafs_cache_put.
    rewrite (index_find_hit m (indexed m) i b (ci_small m Hc) (ci_index m Hc) Hi); [|by unfold indexed; rewrite Eb|done].
    by rewrite (proj2 (Z.eqb_neq _ _) (valid_not_none m i (ci_small m Hc) Hi)), (proj2 (Z.ltb_lt _ _) Hp). }
  pose proof (cache_put_kept m b Hc Hb0) as [K1 K2 K3 K4 K5 K6 K7 K8 K9 K10]. split; [done| | |].
  - intros b' Hb'. rewrite K5; [by apply Hv|]. unfold in_dev in *. congruence.
  - intros j Hj. assert (valid_idx m j) as Hjm by (unfold valid_idx in *; congruence).
    specialize (Hpins j Hjm). rewrite Ep, ent_upd by (done || apply Hj).
    destruct (j =? i); simpl; lia.
  - split_and!; congruence.
Qed.

(** [carafs_txn_dirty] on a cached block: flags only; it fails when the transaction is full. *)
Lemma txn_dirty_spec m b r m' :
  cache_inv m -> in_dev m b -> index_find m b <> CARAFS_ENT_NONE -> carafs_txn_dirty b m = (r, m') ->
  cache_inv m' /\ (r = Ok tt \/ r = Err CARA_EOVERFLOW) /\
  n_ents m' = n_ents m /\ m_bdev m' = m_bdev m /\ m_block_size m' = m_block_size m /\ m_sb m' = m_sb m /\ m_j m' = m_j m /\
  (forall j, valid_idx m j -> e_block (ent m' j) = e_block (ent m j) /\ e_pins (ent m' j) = e_pins (ent m j) /\
     e_data (ent m' j) = e_data (ent m j)) /\
  (forall b', in_dev m b' -> view m' b' = view m b').
Proof.
  intros Hc Hb Hhit E. pose proof (in_dev_not_none m b Hc Hb) as Hbn.
  destruct (cached_dec m b Hc Hbn) as [(_ & Hv & Eb)|[? _]]; [|done].
  unfold carafs_txn_dirty in E. st_simp_in E. set (i := index_find m b) in *.
  rewrite (proj2 (Z.eqb_neq _ _) Hhit) in E. st_simp_in E.
  assert (indexed m i) as Hix by (unfold indexed; by rewrite Eb).
  set (m1 := upd_ent i (ent_set_dirty true) m) in *.
  assert (view_kept m m1) as K1.
  { apply upd_kept; try done. destruct (ci_ent m Hc i Hv) as [H1 H2 H3 H4 H5 H6]. by split. }
  assert (forall j, valid_idx m j -> ent m1 j = if j =? i then ent_set_dirty true (ent m j) else ent m j) as He1
    by (intros j Hj; apply ent_upd; [done|apply Hj]).
  assert (forall m'', m'' = m1 -> cache_inv m'' /\ n_ents m'' = n_ents m /\ m_bdev m'' = m_bdev m /\
    m_block_size m'' = m_block_size m /\ m_sb m'' = m_sb m /\ m_j m'' = m_j m /\
    (forall j, valid_idx m j -> e_block (ent m'' j) = e_block (ent m j) /\ e_pins (ent m'' j) = e_pins (ent m j) /\
       e_data (ent m'' j) = e_data (ent m j)) /\ (forall b', in_dev m b' -> view m'' b' = view m b')) as Hm1.
  { intros m'' ->. pose proof K1 as [V1 V2 V3 V4 V5 V6 V7 V8 V9 V10]. split_and!; try done.
    intros j Hj. rewrite He1 by done. by destruct (j =? i). }
  destruct (m_in_txn m); cbn [negb] in E.
  2:{ st_simp_in E. simplify_eq. destruct (Hm1 _ eq_refl) as (?&?&?&?&?&?&?&?). split_and!; auto. }
  destruct (e_txn (ent m i)).
  { st_simp_in E. simplify_eq. destruct (Hm1 _ eq_refl) as (?&?&?&?&?&?&?&?). split_and!; auto. }
  destruct (CARAFS_TXN_MAX_BLOCKS <=? _).
  { unfold st_err in E. simplify_eq. destruct (Hm1 _ eq_refl) as (?&?&?&?&?&?&?&?). split_and!; auto. }
  unfold st_mod in E. injection E as <- <-. pose proof (vk_inv _ _ K1) as Hc1.
  assert (valid_idx m1 i) as Hv1 by (by apply valid_upd).
  set (m2 := upd_ent i (ent_set_txn true) m1).
  assert (view_kept m1 m2) as K2.
  { apply upd_kept; try done. destruct (ci_ent m1 Hc1 i Hv1) as [H1 H2 H3 H4 H5 H6]. split; try done.
    intros En. exfalso. revert En. simpl. rewrite He1, Z.eqb_refl by done. simpl. by rewrite Eb. }
  pose proof (view_kept_trans _ _ _ K1 K2) as [V1 V2 V3 V4 V5 V6 V7 V8 V9 V10].
  pose proof (cache_frame_txn m2 (m_in_txn m1) (m_txn_blocks m1 ++ [b])) as Hf.
  split_and!; try done; [by apply (cache_inv_frame m2)|by left| |].
  - intros j Hj. change (e_block (ent m2 j) = e_block (ent m j) /\ e_pins (ent m2 j) = e_pins (ent m j) /\
      e_data (ent m2 j) = e_data (ent m j)). unfold m2. rewrite ent_upd by (done || apply Hj). rewrite He1 by done. by destruct (j =? i).
  - intros b' Hb'. rewrite (view_frame m2) by done. by apply V5.
Qed.

Lemma held_pins m m' : cache_inv m' -> n_ents m' = n_ents m -> held_same m m' -> cache_inv m ->
  forall j, valid_idx m j -> e_pins (ent m' j) <= e_pins (ent m j).
Proof.
  intros Hc' En Hh Hc j Hj. destruct (Hh j Hj) as [E|[_ E]].
  - destruct (ent_user_inv _ _ E) as (_ & _ & _ & -> & _). lia.
  - assert (valid_idx m' j) as Hj' by (unfold valid_idx in *; congruence).
    destruct (eo_idle _ _ _ (ci_ent m' Hc' j Hj') E) as [-> _]. pose proof (eo_pins _ _ _ (ci_ent m Hc j Hj)). lia.
Qed.

Lemma got_pins m b mode i fresh m' : cache_inv m -> got m b mode i fresh m' ->
  forall j, valid_idx m j -> e_pins (ent m' j) <= e_pins (ent m j) + if j =? i then 1 else 0.
Proof.
  intros Hc Hg j Hj. destruct (Z.eqb_spec j i) as [->|Hne].
  - pose proof (got_self _ _ _ _ _ _ Hg) as Hs. pose proof (eo_pins _ _ _ (ci_ent m Hc i Hj)).
    destruct fresh; [|destruct (ent_user_inv _ _ Hs) as (_ & _ & _ & -> & _); simpl; lia].
    unfold ent_user in Hs. injection Hs as _ _ _ -> _. lia.
  - destruct (ent_user_inv _ _ (got_others _ _ _ _ _ _ Hg j Hj Hne)) as (_ & _ & _ & -> & _). lia.
Qed.

(** ** The group header *)

Lemma ag_get_spec m ag r m' :
  cache_inv m -> pins_ok m -> 0 <= ag_block_of m ag ->
  (in_dev m (ag_block_of m ag) -> ag_header_ok (m_block_size m) (ag_block_of m ag) (view m (ag_block_of m ag)) = true) ->
  ag_get ag m = (r, m') ->
  match r with
  | Ok idx => in_dev m (ag_block_of m ag) /\ exists fresh, got m (ag_block_of m ag) CARAFS_GET_READ idx fresh m'
  | Err _ => shows (view m) m m'
  end.
Proof.
  intros Hc Hp Hb Hhdr E. unfold ag_get in E. st_simp_in E. set (b := ag_block_of m ag) in *.
  rewrite st_bind_eq in E. destruct (carafs_cache_get b CARAFS_GET_READ m) as [rg m1] eqn:Eg.
  pose proof (cache_get_spec m b _ rg m1 Hc Hp Hb Eg) as Hs.
  destruct rg as [[idx fresh]|e].
  2:{ simplify_eq. destruct Hs as [Hk Hh]. apply kept_shows; [done|].
      apply held_pins; auto; [apply (vk_inv _ _ Hk)|apply (vk_len _ _ Hk)]. }
  destruct Hs as [Hbd Hg]. st_simp_in E.
  rewrite (got_data _ _ _ _ _ _ Hbd Hg), (got_view _ _ _ _ _ _ Hg b Hbd), andb_false_r in E.
  cbn [andb] in E. rewrite (got_bs _ _ _ _ _ _ Hg), (Hhdr Hbd), andb_false_r in E.
  st_simp_in E. simplify_eq. split; [done|]. by exists fresh.
Qed.

(** The pin taken by [ag_get] is dropped again. *)
Lemma got_put_shows m b idx fresh m1 :
  cache_inv m -> in_dev m b -> got m b CARAFS_GET_READ idx fresh m1 -> shows (view m) m (carafs_cache_put b m1).
Proof.
  intros Hc Hb Hg. destruct (got_frame _ _ _ _ _ _ Hg) as (F1 & F2 & F3 & F4 & F5).
  pose proof (got_len _ _ _ _ _ _ Hg) as En. pose proof (got_valid _ _ _ _ _ _ Hg) as Hv.
  apply (put_shows m1 b idx); [apply (got_inv _ _ _ _ _ _ Hg)| |apply (got_block _ _ _ _ _ _ Hg)| |
    apply (got_pinned _ _ _ _ _ _ Hg)| | | |apply Hb].
  - unfold valid_idx in *. by rewrite En.
  - by apply (in_dev_not_none m).
  - intros b' Hb'. rewrite (got_view _ _ _ _ _ _ Hg b' Hb'). by rewrite andb_false_r.
  - split_and!; try done; [apply (got_dev _ _ _ _ _ _ Hg)|apply (got_bs _ _ _ _ _ _ Hg)].
  - intros j Hj. apply (got_pins _ _ _ _ _ _ Hc Hg). unfold valid_idx in *. by rewrite <- En.
Qed.

(** A store followed by [carafs_txn_dirty] is a store and dirty followed by it. *)
Lemma txn_dirty_store m b blk :
  carafs_txn_dirty b (upd_ent (index_find m b) (ent_set_data blk) m) = carafs_txn_dirty b (cache_store b blk m) \/
  index_find m b = CARAFS_ENT_NONE \/ ~ valid_idx m (index_find m b).
Proof.
  destruct (decide (index_find m b = CARAFS_ENT_NONE)) as [|Hne]; [by right; left|].
  destruct (decide (0 <= index_find m b < n_ents m)) as [Hv|]; [left|by right; right].
  unfold carafs_txn_dirty, cache_store, carafs_cache_dirty. st_simp.
  rewrite !index_find_upd_data. rewrite (proj2 (Z.eqb_neq _ _) Hne). cbn [negb].
  rewrite index_find_upd, index_find_upd_data by done. rewrite (proj2 (Z.eqb_neq _ _) Hne). st_simp.
  set (i := index_find m b) in *. rewrite upd_ent_idem by done.
  set (m1 := upd_ent i (ent_set_data blk) m). assert (valid_idx m1 i) as Hv1 by (by apply valid_upd).
  assert (e_txn (ent (upd_ent i (ent_set_dirty true) m1) i) = e_txn (ent m1 i)) as -> by (by rewrite ent_upd_same).
  done.
Qed.

(** A stored edit of the pinned header is what the volume shows from then on, also when the
    transaction had no room for the block. *)
Lemma ag_commit_spec m b idx fresh m1 blk r m' :
  cache_inv m -> in_dev m b -> got m b CARAFS_GET_READ idx fresh m1 ->
  length blk = m_block_size m -> bytes_ok blk -> ag_commit b idx blk m1 = (r, m') ->
  shows (fun b' => if b' =? b then blk else view m b') m m' /\ (r = Ok tt \/ r = Err CARA_EOVERFLOW).
Proof.
  intros Hc Hb Hg Hl Hby E. destruct (got_frame _ _ _ _ _ _ Hg) as (F1 & F2 & F3 & F4 & F5).
  pose proof (got_len _ _ _ _ _ _ Hg) as En. pose proof (got_valid _ _ _ _ _ _ Hg) as Hv.
  pose proof (got_inv _ _ _ _ _ _ Hg) as Hc1. pose proof (got_dev _ _ _ _ _ _ Hg) as Ed.
  pose proof (got_bs _ _ _ _ _ _ Hg) as Ebs. pose proof (in_dev_not_none m b Hc Hb) as Hbn.
  pose proof (got_block _ _ _ _ _ _ Hg) as Ebk.
  assert (valid_idx m1 idx) as Hv1 by (unfold valid_idx in *; by rewrite En).
  assert (in_dev m1 b) as Hb1 by (unfold in_dev in *; by rewrite Ed).
  assert (index_find m1 b = idx) as Hfind.
  { apply (index_find_hit m1 (indexed m1)); try done; [apply (ci_small _ Hc1)|apply (ci_index _ Hc1)|unfold indexed; by rewrite Ebk]. }
  assert (index_find m1 b <> CARAFS_ENT_NONE) as Hne by (rewrite Hfind; by apply (valid_not_none m1 idx (ci_small _ Hc1))).
  unfold ag_commit in E. st_simp_in E. rewrite <- Hfind in E at 1.
  destruct (txn_dirty_store m1 b blk) as [Eq|[?|Hnv]]; [|done|rewrite Hfind in Hnv; done]. rewrite Eq in E.
  destruct (cache_store_spec m1 b blk Hc1 Hb1 Hne ltac:(congruence) Hby) as (S1 & S2 & S3 & S4 & S5). rewrite Hfind in S4.
  set (ms := cache_store b blk m1) in *.
  assert (m_block_size ms = m_block_size m1 /\ m_sb ms = m_sb m1 /\ m_j ms = m_j m1) as (Sb & Ss & Sj).
  { unfold ms, cache_store, carafs_cache_dirty. rewrite index_find_upd_data, (proj2 (Z.eqb_neq _ _) Hne). by split_and!. }
  assert (in_dev ms b) as Hbs by (unfold in_dev, dev_n in *; by rewrite S3).
  assert (valid_idx ms idx) as Hvs by (unfold valid_idx in *; by rewrite S2).
  assert (e_block (ent ms idx) = b) as Ebs2 by (rewrite S4, Z.eqb_refl by done; done).
  destruct (carafs_txn_dirty b ms) as [rt mt] eqn:Et.
  destruct (txn_dirty_spec ms b rt mt S1 Hbs) as (T1 & T2 & T3 & T4 & T5 & T6 & T7 & T8 & T9); [|done|].
  { rewrite (index_find_hit ms (indexed ms) idx); try done; [by apply (valid_not_none ms idx (ci_small _ S1))|apply (ci_small _ S1)|
      apply (ci_index _ S1)|unfold indexed; by rewrite Ebs2]. }
  destruct (T8 idx Hvs) as (U1 & U2 & U3). st_simp_in E. unfold st_lift in E. injection E as <- <-.
  split; [|done]. apply (put_shows mt b idx); try done.
  - unfold valid_idx in *. by rewrite T3.
  - by rewrite U1.
  - rewrite U2, S4, Z.eqb_refl by done. simpl. apply (got_pinned _ _ _ _ _ _ Hg).
  - intros b' Hb'. assert (in_dev m1 b') as Hb1' by (unfold in_dev in *; by rewrite Ed).
    rewrite T9 by (unfold in_dev, dev_n in *; by rewrite S3). rewrite S5 by done.
    destruct (b' =? b); [done|]. rewrite (got_view _ _ _ _ _ _ Hg b' Hb'). by rewrite andb_false_r.
  - unfold dev_n in *. rewrite T3, T4, T5, T6, T7, S2, S3, Sb, Ss, Sj. by split_and!.
  - intros j Hj. assert (valid_idx ms j) as Hjs by (unfold valid_idx in *; by rewrite <- T3).
    assert (valid_idx m1 j) as Hj1 by (unfold valid_idx in *; by rewrite <- S2).
    destruct (T8 j Hjs) as (_ & -> & _). rewrite S4 by done.
    pose proof (got_pins _ _ _ _ _ _ Hc Hg j ltac:(unfold valid_idx in *; by rewrite <- En)).
    by destruct (j =? idx).
  - apply Hb.
Qed.

(** ** Stale images of granted blocks *)

Lemma invalidate_frame b m :
  let m' := carafs_cache_invalidate b m in
  m_sb m' = m_sb m /\ m_j m' = m_j m /\ m_block_size m' = m_block_size m.
Proof.
  unfold carafs_cache_invalidate, index_remove, link_set.
  destruct (index_find m b =? CARAFS_ENT_NONE); [done|]. destruct (_ || _); [done|]. by destruct (link_walk _ _ _ _).
Qed.

Lemma invalidate_run_spec n b m :
  cache_inv m -> 0 <= b -> b + Z.of_nat n <= dev_n m ->
  let m' := invalidate_run n b m in
  cache_inv m' /\ n_ents m' = n_ents m /\ dev_n m' = dev_n m /\ m_block_size m' = m_block_size m /\
  m_sb m' = m_sb m /\ m_j m' = m_j m /\
  (forall j, valid_idx m j -> e_pins (ent m' j) <= e_pins (ent m j)) /\
  (forall b', in_dev m b' -> ~ (b <= b' < b + Z.of_nat n) -> view m' b' = view m b').
Proof.
  revert b m. induction n as [|n IH]; intros b m Hc Hb Hn; simpl invalidate_run; [by split_and!|].
  assert (in_dev m b) as Hbd by (unfold in_dev; lia).
  destruct (cache_invalidate_spec m b Hc Hbd) as (I1 & I2 & I3 & I4 & I5 & _).
  destruct (invalidate_frame b m) as (F1 & F2 & F3). set (m1 := carafs_cache_invalidate b m) in *.
  assert (dev_n m1 = dev_n m) as Ed by (unfold dev_n; by rewrite I3).
  destruct (IH (b + 1) m1 I1 ltac:(lia) ltac:(rewrite Ed; lia)) as (J1 & J2 & J3 & J4 & J5 & J6 & J7 & J8).
  split_and!; try congruence.
  - intros j Hj. pose proof (held_pins m m1 I1 I2 I4 Hc j Hj). assert (valid_idx m1 j) as Hj1 by (unfold valid_idx in *; by rewrite I2).
    specialize (J7 j Hj1). lia.
  - intros b' Hb' Hn'. rewrite J8; [apply I5; [done|lia]|unfold in_dev in *; by rewrite Ed|lia].
Qed.

(** ** The whole volume *)

Abbreviation FIRST m := (sb_ag_first_block (m_sb m)).
Abbreviation SIZE m := (sb_ag_size_blocks (m_sb m)).
Abbreviation COUNT m := (sb_ag_count (m_sb m)).
Abbreviation BACKUP m := (sb_backup_sb (m_sb m)).
Definition ag_start m (ag : Z) : Z := FIRST m + ag * SIZE m.

(** The group headers the volume shows are well formed, and the blocks a group does not
    really have (past the backup superblock) are marked allocated. *)
Record groups_ok m : Prop := {
  go_first : 0 <= FIRST m;
  go_count : 0 <= COUNT m < 2 ^ 32;
  go_size : 0 < SIZE m < 2 ^ 31;
  go_backup : BACKUP m <= dev_n m /\ dev_n m < 2 ^ 63;
  go_in ag : 0 <= ag < COUNT m -> ag_start m ag < BACKUP m;
  go_tail : BACKUP m <= ag_start m (COUNT m);
  go_ag ag : 0 <= ag < COUNT m -> ag_ok (m_block_size m) (SIZE m) (ag_start m ag) (view m (ag_start m ag));
  go_cover ag j : 0 <= ag < COUNT m -> 0 <= j < SIZE m -> BACKUP m <= ag_start m ag + j ->
    bit_get (view m (ag_start m ag)) j = true
}.

(** Is block [b] of the allocatable region allocated? *)
Definition allocated m (b : Z) : bool :=
  bit_get (view m (ag_start m ((b - FIRST m) / SIZE m))) ((b - FIRST m) mod SIZE m).

Lemma ag_block_start m ag : groups_ok m -> 0 <= ag < COUNT m -> ag_block_of m ag = ag_start m ag.
Proof.
  intros Hg Ha. pose proof (go_in m Hg ag Ha) as Hin. destruct Hg. unfold ag_block_of, ag_start in *.
  rewrite (u64_small (ag * _)), u64_small; unfold in_u64; nia.
Qed.

Lemma allocated_at m ag j : 0 < SIZE m -> 0 <= j < SIZE m -> allocated m (ag_start m ag + j) = bit_get (view m (ag_start m ag)) j.
Proof.
  intros Hs Hj. unfold allocated, ag_start. replace (FIRST m + ag * SIZE m + j - FIRST m) with (j + ag * SIZE m) by lia.
  rewrite Z.div_add, Z.mod_add by lia. rewrite Z.div_small, Z.mod_small by lia. done.
Qed.
Lemma ag_of m b : groups_ok m -> FIRST m <= b < BACKUP m ->
  exists ag j, b = ag_start m ag + j /\ 0 <= ag < COUNT m /\ 0 <= j < SIZE m.
Proof.
  intros Hg Hb. pose proof (go_size m Hg) as Hs. pose proof (go_tail m Hg) as Ht. unfold ag_start in *.
  exists ((b - FIRST m) / SIZE m), ((b - FIRST m) mod SIZE m).
  pose proof (Z.div_mod (b - FIRST m) (SIZE m) ltac:(lia)). pose proof (Z.mod_pos_bound (b - FIRST m) (SIZE m) ltac:(lia)).
  split; [lia|]. split; [|done]. split; [apply Z.div_pos; lia|]. apply Z.div_lt_upper_bound; nia.
Qed.
Lemma ag_start_inj m ag ag' j j' : 0 < SIZE m -> 0 <= j < SIZE m -> 0 <= j' < SIZE m ->
  ag_start m ag + j = ag_start m ag' + j' -> ag = ag' /\ j = j'.
Proof. unfold ag_start. intros Hs Hj Hj' E. assert (ag = ag') as -> by nia. lia. Qed.

(** One group's header is replaced; the other groups and the pins are as before. *)
Record group_edit m ag blk' (lo n : Z) m' : Prop := {
  ge_inv : cache_inv m';
  ge_pins : pins_ok m';
  ge_groups : groups_ok m';
  ge_frame : dev_n m' = dev_n m /\ m_block_size m' = m_block_size m /\ m_j m' = m_j m /\
    FIRST m' = FIRST m /\ SIZE m' = SIZE m /\ COUNT m' = COUNT m /\ BACKUP m' = BACKUP m;
  ge_alloc b : FIRST m <= b < BACKUP m -> allocated m' b =
    if (b - FIRST m) / SIZE m =? ag then bit_get blk' ((b - FIRST m) mod SIZE m) else allocated m b;
  ge_view b : in_dev m b -> b <> ag_start m ag -> ~ (lo <= b < lo + n) -> view m' b = view m b
}.

Lemma group_edit_intro m ag blk' lo n m' :
  groups_ok m -> 0 <= ag < COUNT m -> cache_inv m' -> pins_ok m' ->
  dev_n m' = dev_n m /\ m_block_size m' = m_block_size m /\ m_j m' = m_j m /\
    FIRST m' = FIRST m /\ SIZE m' = SIZE m /\ COUNT m' = COUNT m /\ BACKUP m' = BACKUP m ->
  (n = 0 \/ ag_start m ag < lo /\ lo + n <= ag_start m ag + SIZE m) ->
  (forall b, in_dev m b -> ~ (lo <= b < lo + n) -> view m' b = if b =? ag_start m ag then blk' else view m b) ->
  ag_ok (m_block_size m) (SIZE m) (ag_start m ag) blk' ->
  (forall j, 0 <= j < SIZE m -> BACKUP m <= ag_start m ag + j -> bit_get blk' j = true) ->
  group_edit m ag blk' lo n m'.
Proof.
  intros Hg Ha Hc Hp Hf Hlo Hv Hok Hcov. pose proof Hf as (F1&F2&F3&F4&F5&F6&F7). pose proof (go_size m Hg) as Hs.
  assert (forall k, ag_start m' k = ag_start m k) as Es by (intros; unfold ag_start; by rewrite F4, F5).
  assert (forall k, 0 <= k < COUNT m -> view m' (ag_start m k) = if k =? ag then blk' else view m (ag_start m k)) as Hag.
  { intros k Hk. pose proof (go_in m Hg k Hk). pose proof (go_backup m Hg). pose proof (go_first m Hg).
    rewrite Hv.
    - destruct (Z.eqb_spec k ag) as [->|Hne]; [by rewrite Z.eqb_refl|].
      rewrite (proj2 (Z.eqb_neq _ _)); [done|]. unfold ag_start. nia.
    - unfold in_dev, ag_start in *. nia.
    - destruct Hlo as [->|[Hq1 Hq2]]; [lia|]. unfold ag_start in *. intros Hq3. destruct (Z.le_gt_cases k ag); nia. }
  split; try done.
  - split; rewrite ?F1, ?F2, ?F4, ?F5, ?F6, ?F7, ?Es; try apply Hg.
    + intros k Hk. rewrite Es. by apply Hg.
    + intros k Hk. rewrite Es, Hag by done. destruct (Z.eqb_spec k ag) as [->|]; [done|by apply Hg].
    + intros k j Hk Hj Hb. rewrite Es in *. rewrite Hag by done. destruct (Z.eqb_spec k ag) as [->|]; [by apply Hcov|by apply Hg].
  - intros b Hb. destruct (ag_of m b Hg Hb) as (k & j & -> & Hk & Hj). rewrite allocated_at by lia.
    rewrite <- Es at 1. rewrite allocated_at by (rewrite F5; lia). rewrite Es, Hag by done.
    unfold ag_start. replace (FIRST m + k * SIZE m + j - FIRST m) with (j + k * SIZE m) by lia.
    rewrite Z.div_add, Z.mod_add, Z.div_small, Z.mod_small, Z.add_0_l by lia. by destruct (k =? ag).
  - intros b Hb Hne Hn. rewrite Hv by done. by rewrite (proj2 (Z.eqb_neq _ _)).
Qed.

Lemma shows_group_edit v m m' : groups_ok m -> pins_ok m -> shows v m m' -> (forall b, in_dev m b -> v b = view m b) ->
  groups_ok m' /\ pins_ok m' /\ (forall b, FIRST m <= b < BACKUP m -> allocated m' b = allocated m b).
Proof.
  intros Hg Hp Hs Hv. pose proof (shows_pins _ _ _ Hs Hp) as Hp'. destruct Hs as [Hc Hvw _ (F1&F2&F3&F4&F5)].
  assert (forall k, 0 <= k < COUNT m -> view m' (ag_start m k) = view m (ag_start m k)) as Hag.
  { intros k Hk. pose proof (go_in m Hg k Hk). pose proof (go_backup m Hg). pose proof (go_first m Hg). pose proof (go_size m Hg).
    assert (in_dev m (ag_start m k)) as Hin by (unfold in_dev, ag_start in *; nia). rewrite Hvw by done. by apply Hv. }
  split_and!; [|done|].
  - split; unfold ag_start in *; rewrite ?F2, ?F3, ?F4; try apply Hg; intros; rewrite Hag by done; by apply Hg.
  - intros b Hb. destruct (ag_of m b Hg Hb) as (k & j & -> & Hk & Hj). pose proof (go_size m Hg).
    rewrite allocated_at by lia.
    replace (ag_start m k) with (ag_start m' k) at 1 by (unfold ag_start; by rewrite F4).
    rewrite allocated_at by (rewrite F4; lia). unfold ag_start in *. rewrite F4. by rewrite Hag.
Qed.

(** What an allocation call leaves behind when it fails: nothing changed, but for a full
    transaction ([CARA_EOVERFLOW]), which leaves the edited header behind. *)
Definition alloc_unchanged m m' : Prop :=
  cache_inv m' /\ pins_ok m' /\ groups_ok m' /\ m_sb m' = m_sb m /\ dev_n m' = dev_n m /\ m_block_size m' = m_block_size m /\
  (forall b, in_dev m b -> view m' b = view m b).

Record extent_granted m want start got m' : Prop := {
  eg_count : 1 <= got <= want;
  eg_range : FIRST m < start /\ start + got <= BACKUP m;
  eg_inv : cache_inv m';
  eg_pins : pins_ok m';
  eg_groups : groups_ok m';
  eg_free : sb_free_blocks (m_sb m') = u64 (sb_free_blocks (m_sb m) - got);
  eg_run b : start <= b < start + got -> allocated m b = false /\ allocated m' b = true;
  eg_rest b : FIRST m <= b < BACKUP m -> ~ (start <= b < start + got) -> allocated m' b = allocated m b;
  eg_view b : in_dev m b -> (forall ag, 0 <= ag < COUNT m -> b <> ag_start m ag) -> ~ (start <= b < start + got) ->
    view m' b = view m b;
  eg_layout : FIRST m' = FIRST m /\ BACKUP m' = BACKUP m;
  eg_dims : dev_n m' = dev_n m /\ m_block_size m' = m_block_size m
}.

Lemma ag_start_in_dev m ag : groups_ok m -> 0 <= ag < COUNT m -> in_dev m (ag_start m ag).
Proof.
  intros Hg Ha. pose proof (go_in m Hg ag Ha). pose proof (go_backup m Hg). pose proof (go_first m Hg).
  pose proof (go_size m Hg). unfold in_dev, ag_start in *. nia.
Qed.

Lemma ag_try_alloc_spec m ag want r m' :
  cache_inv m -> pins_ok m -> groups_ok m -> 0 <= ag < COUNT m -> 1 <= want ->
  ag_try_alloc ag want m = (r, m') ->
  match r with
  | Ok (start, got) => extent_granted m want start got m'
  | Err e => e = CARA_EOVERFLOW \/ alloc_unchanged m m'
  end.
Proof.
  intros Hc Hp Hg Ha Hw E. pose proof (ag_block_start m ag Hg Ha) as Eb. pose proof (ag_start_in_dev m ag Hg Ha) as Hbd.
  pose proof (go_ag m Hg ag Ha) as Hok. pose proof (go_size m Hg) as Hsz. pose proof (go_backup m Hg) as Hbk.
  assert (forall mm, shows (view m) m mm -> alloc_unchanged m mm) as Hun.
  { intros mm Hs. destruct (shows_group_edit _ _ _ Hg Hp Hs ltac:(done)) as (G1 & G2 & _).
    destruct Hs as [S1 S2 S3 (S4&S5&S6&S7&S8)]. by split_and!. }
  unfold ag_try_alloc in E. st_simp_in E. rewrite st_bind_eq in E. destruct (ag_get ag m) as [rg m1] eqn:Eg.
  pose proof (ag_get_spec m ag rg m1 Hc Hp) as Hgs. rewrite Eb in *.
  specialize (Hgs ltac:(apply Hbd) ltac:(intros; apply Hok) Eg).
  destruct rg as [idx|e]; [|simplify_eq; right; by apply Hun]. destruct Hgs as [_ (fresh & Hgot)]. st_simp_in E.
  destruct (got_frame _ _ _ _ _ _ Hgot) as (_ & _ & F3 & _ & _).
  rewrite (got_bs _ _ _ _ _ _ Hgot), F3, (got_data _ _ _ _ _ _ Hbd Hgot), (got_view _ _ _ _ _ _ Hgot _ Hbd) in E.
  rewrite andb_false_r in E. cbn [andb] in E.
  pose proof (ag_take_spec (m_block_size m) (SIZE m) (ag_start m ag) want _ Hok Hw) as Ht.
  destruct (ag_take _ _ _ _) as [[[blk rel] got]|e].
  2:{ st_simp_in E. unfold st_err in E. simplify_eq. right. apply Hun. by eapply got_put_shows. }
  destruct Ht as [[T1 T2 T3 T4 T5] Hok']. rewrite st_bind_eq in E.
  destruct (ag_commit (ag_start m ag) idx blk m1) as [rc m2] eqn:Ec.
  destruct (ag_commit_spec m _ idx fresh m1 blk rc m2 Hc Hbd Hgot (ago_len _ _ _ _ Hok') (ago_bytes _ _ _ _ Hok') Ec)
    as (Hs & Hrc). destruct rc as [[]|e]; [|simplify_eq; destruct Hrc; [done|left; congruence]].
  pose proof (shows_pins _ _ _ Hs Hp) as Hp2. destruct Hs as [S1 S2 S3 (S4&S5&S6&S7&S8)].
  assert (ag_start m ag + rel + got <= BACKUP m) as Hend.
  { destruct (Z.le_gt_cases (BACKUP m) (ag_start m ag + rel + got - 1)) as [Hge|]; [|lia]. exfalso.
    destruct (T3 (rel + got - 1) ltac:(lia)) as [Hf _].
    rewrite (go_cover m Hg ag (rel + got - 1) Ha) in Hf by lia. done. }
  st_simp_in E. rewrite u64_small in E by (unfold in_u64, in_dev in *; lia).
  set (m3 := set_sb _ m2) in *.
  assert (cache_inv m3) as Hc3 by (by apply (cache_inv_frame m2 _ (cache_frame_sb m2 _))).
  destruct (invalidate_run_spec (Z.to_nat got) (ag_start m ag + rel) m3) as (I1 & I2 & I3 & I4 & I5 & I6 & I7 & I8);
    [done|unfold in_dev in *; lia| |].
  { change (dev_n m3) with (dev_n m2). rewrite S5. lia. }
  set (m4 := invalidate_run _ _ m3) in *. unfold mret, st_ret in E. injection E as <- <-. rewrite Z2Nat.id in I8 by lia.
  destruct (group_edit_intro m ag blk (ag_start m ag + rel) got m4) as [G1 G2 G3 G4 G5 G6]; try done.
  - intros j Hj. assert (valid_idx m3 j) as Hj3 by (unfold valid_idx in *; rewrite I2 in Hj; exact Hj).
    pose proof (I7 j Hj3) as Q1. pose proof (Hp2 j Hj3) as Q2. change (ent m3 j) with (ent m2 j) in Q1. lia.
  - rewrite I3, I4, I5, I6. change (dev_n m3) with (dev_n m2). simpl. rewrite S5, S6, S7, S8. by split_and!.
  - right. lia.
  - intros b Hb Hn. rewrite I8; [|unfold in_dev in *; change (dev_n m3) with (dev_n m2); by rewrite S5|done].
    unfold m3. rewrite (view_frame m2 _ _ (cache_frame_sb m2 _)). by apply S2.
  - intros j Hj Hcv. destruct (decide (rel <= j < rel + got)) as [Hin|Hout]; [by apply T3|].
    rewrite T4 by done. by apply (go_cover m Hg).
  - split; try done.
    + split; [|lia]. unfold ag_start in *. nia.
    + rewrite I5. simpl. by rewrite S7.
    + intros b Hb. assert (exists j, b = ag_start m ag + j /\ rel <= j < rel + got) as (j & -> & Hj) by (exists (b - ag_start m ag); lia).
      rewrite allocated_at by lia. split; [by apply T3|]. rewrite G5 by (unfold ag_start in *; nia).
      unfold ag_start. replace (FIRST m + ag * SIZE m + j - FIRST m) with (j + ag * SIZE m) by lia.
      rewrite Z.div_add, Z.mod_add, Z.div_small, Z.mod_small, Z.add_0_l, Z.eqb_refl by lia. by apply T3.
    + intros b Hb Hn. rewrite G5 by done. destruct (ag_of m b Hg Hb) as (k & j & -> & Hk & Hj).
      rewrite allocated_at by lia. unfold ag_start at 1 2. replace (FIRST m + k * SIZE m + j - FIRST m) with (j + k * SIZE m) by lia.
      rewrite Z.div_add, Z.mod_add, Z.div_small, Z.mod_small, Z.add_0_l by lia.
      destruct (Z.eqb_spec k ag) as [->|]; [|done]. apply T4; [done|lia].
    + intros b Hb Hne Hn. apply G6; [done| |done]. by apply Hne.
    + split; apply G4.
    + split; apply G4.
Qed.

Lemma unchanged_allocated m m' b : groups_ok m -> alloc_unchanged m m' -> FIRST m <= b < BACKUP m ->
  allocated m' b = allocated m b.
Proof.
  intros Hg (_ & _ & _ & Es & _ & _ & Hv) Hb. destruct (ag_of m b Hg Hb) as (k & j & -> & Hk & Hj).
  pose proof (go_size m Hg). unfold allocated. unfold ag_start. rewrite Es. f_equal.
  replace (FIRST m + k * SIZE m + j - FIRST m) with (j + k * SIZE m) by lia. rewrite Z.div_add, Z.div_small, Z.add_0_l by lia.
  apply Hv. by apply ag_start_in_dev.
Qed.

Lemma unchanged_granted m m1 want start got m' :
  groups_ok m -> alloc_unchanged m m1 -> extent_granted m1 want start got m' -> extent_granted m want start got m'.
Proof.
  intros Hg Hu [G1 G2 G3 G4 G5 G6 G7 G8 G9 G10 G11].
  pose proof (fun b => unchanged_allocated m m1 b Hg Hu) as Ha. destruct Hu as (_ & _ & _ & Es & Ed & Ebs & Hv).
  unfold ag_start in *. rewrite Es in *. split; try done.
  - intros b Hb. rewrite <- Ha by lia. by apply G7.
  - intros b Hb Hn. rewrite <- Ha by done. by apply G8.
  - intros b Hb Hne Hn. rewrite <- (Hv b Hb). apply G9; try done. unfold in_dev in *. by rewrite Ed.
  - by rewrite <- Ed, <- Ebs.
Qed.
Lemma unchanged_trans m m1 m' : alloc_unchanged m m1 -> alloc_unchanged m1 m' -> alloc_unchanged m m'.
Proof.
  intros (A1&A2&A3&A4&A5&A6&A7) (B1&B2&B3&B4&B5&B6&B7). split_and!; try done; try congruence.
  intros b Hb. rewrite B7; [by apply A7|]. unfold in_dev in *. by rewrite A5.
Qed.

Lemma alloc_groups_spec n ag0 i want m r m' :
  cache_inv m -> pins_ok m -> groups_ok m -> (0 < COUNT m \/ n = 0%nat) -> 1 <= want ->
  alloc_groups n ag0 i (COUNT m) want m = (r, m') ->
  match r with
  | Ok (start, got) => extent_granted m want start got m'
  | Err e => e = CARA_EOVERFLOW \/ alloc_unchanged m m'
  end.
Proof.
  revert i m. induction n as [|n IH]; intros i m Hc Hp Hg Hn Hw E; simpl in E.
  { unfold st_err in E. simplify_eq. right. by split_and!. }
  destruct Hn as [Hn|]; [|done]. st_simp_in E.
  destruct (ag_try_alloc (u32 (ag0 + i) mod COUNT m) want m) as [rt m1] eqn:Et.
  pose proof (ag_try_alloc_spec m _ want rt m1 Hc Hp Hg (Z.mod_pos_bound _ _ Hn) Hw Et) as Ht.
  destruct rt as [[s g]|e]; [st_simp_in E; by simplify_eq|].
  destruct (Z.eqb_spec e CARA_ENOTFOUND) as [->|Hne]; [|unfold st_err in E; by simplify_eq].
  destruct Ht as [?|Hu]; [done|]. pose proof Hu as (U1&U2&U3&U4&U5&U6&U7). rewrite <- U4 in E.
  pose proof (IH (i + 1) m1 U1 U2 U3 ltac:(left; by rewrite U4) Hw E) as H.
  destruct r as [[s g]|e]; [by eapply unchanged_granted|]. destruct H as [->|H]; [by left|right; by eapply unchanged_trans].
Qed.

Lemma alloc_extent_spec m hint want r m' :
  cache_inv m -> pins_ok m -> groups_ok m -> 1 <= want ->
  carafs_alloc_extent hint want m = (r, m') ->
  match r with
  | Ok (start, got) => extent_granted m want start got m'
  | Err e => e = CARA_EOVERFLOW \/ alloc_unchanged m m'
  end.
Proof.
  intros Hc Hp Hg Hw E. unfold carafs_alloc_extent in E. rewrite (proj2 (Z.eqb_neq _ _)) in E by lia.
  st_simp_in E. eapply alloc_groups_spec; try done. pose proof (go_count m Hg). lia.
Qed.


Lemma alloc_zero_invalid m hint : carafs_alloc_extent hint 0 m = (Err CARA_EINVAL, m).
Proof. done. Qed.

(** ** Release *)

Record extent_released m start count m' : Prop := {
  er_inv : cache_inv m';
  er_pins : pins_ok m';
  er_groups : groups_ok m';
  er_free : sb_free_blocks (m_sb m') = u64 (sb_free_blocks (m_sb m) + count);
  er_run b : start <= b < start + count -> allocated m b = true /\ allocated m' b = false;
  er_rest b : FIRST m <= b < BACKUP m -> ~ (start <= b < start + count) -> allocated m' b = allocated m b;
  er_view b : in_dev m b -> (forall ag, 0 <= ag < COUNT m -> b <> ag_start m ag) -> view m' b = view m b
}.

Lemma free_extent_spec m start count r m' :
  cache_inv m -> pins_ok m -> groups_ok m -> 0 <= start -> start + count < 2 ^ 64 -> 0 <= count < 2 ^ 31 ->
  carafs_free_extent start count m = (r, m') ->
  match r with
  | Ok _ => FIRST m < start /\ start + count <= BACKUP m /\ extent_released m start count m'
  | Err e => e = CARA_EOVERFLOW \/ alloc_unchanged m m'
  end.
Proof.
  intros Hc Hp Hg Hst Hend Hcnt E. pose proof (go_size m Hg) as Hsz. pose proof (go_backup m Hg) as Hbk.
  pose proof (go_first m Hg) as Hf0. pose proof (go_count m Hg) as Hcn.
  assert (forall mm, shows (view m) m mm -> alloc_unchanged m mm) as Hun.
  { intros mm Hs. destruct (shows_group_edit _ _ _ Hg Hp Hs ltac:(done)) as (G1 & G2 & _).
    destruct Hs as [S1 S2 S3 (S4&S5&S6&S7&S8)]. by split_and!. }
  assert (alloc_unchanged m m) as Hsame by (by split_and!).
  unfold carafs_free_extent in E. st_simp_in E. rewrite (u64_small (start + count)) in E by (unfold in_u64; lia).
  destruct ((count =? 0) || (start <? FIRST m) || (BACKUP m <? start + count)) eqn:E1; [unfold st_err in E; simplify_eq; by right|].
  zbool. destruct (ag_of m start Hg ltac:(lia)) as (ag & rel & Es & Ha & Hr).
  assert ((start - FIRST m) / SIZE m = ag) as Eag.
  { rewrite Es. unfold ag_start. replace (FIRST m + ag * SIZE m + rel - FIRST m) with (rel + ag * SIZE m) by lia.
    rewrite Z.div_add, Z.div_small by lia. lia. }
  rewrite Eag, (u32_small ag) in E by (unfold in_u32; lia). rewrite (ag_block_start m ag Hg Ha) in E.
  replace (start - ag_start m ag) with rel in E by lia. rewrite (u32_small rel) in E by (unfold in_u32; lia).
  rewrite (u32_small (rel + count)) in E by (unfold in_u32; lia).
  destruct ((rel =? 0) || (SIZE m <? rel + count)) eqn:E2; [unfold st_err in E; simplify_eq; by right|]. zbool.
  pose proof (ag_start_in_dev m ag Hg Ha) as Hbd. pose proof (go_ag m Hg ag Ha) as Hok.
  rewrite st_bind_eq in E. destruct (ag_get ag m) as [rg m1] eqn:Eg.
  pose proof (ag_get_spec m ag rg m1 Hc Hp) as Hgs. rewrite (ag_block_start m ag Hg Ha) in Hgs.
  specialize (Hgs ltac:(apply Hbd) ltac:(intros; apply Hok) Eg).
  destruct rg as [idx|e]; [|simplify_eq; right; by apply Hun]. destruct Hgs as [_ (fresh & Hgot)]. st_simp_in E.
  destruct (got_frame _ _ _ _ _ _ Hgot) as (_ & _ & F3 & _ & _).
  rewrite (got_bs _ _ _ _ _ _ Hgot), (got_data _ _ _ _ _ _ Hbd Hgot), (got_view _ _ _ _ _ _ Hgot _ Hbd) in E.
  rewrite andb_false_r in E. cbn [andb] in E.
  pose proof (ag_give_spec (m_block_size m) (SIZE m) (ag_start m ag) rel count _ Hok ltac:(lia) ltac:(lia) ltac:(lia)) as Ht.
  destruct (ag_give _ _ _ _) as [blk|e].
  2:{ st_simp_in E. unfold st_err in E. simplify_eq. right. apply Hun. by eapply got_put_shows. }
  destruct Ht as [[T3 T4] Hok']. rewrite st_bind_eq in E.
  destruct (ag_commit (ag_start m ag) idx blk m1) as [rc m2] eqn:Ec.
  destruct (ag_commit_spec m _ idx fresh m1 blk rc m2 Hc Hbd Hgot (ago_len _ _ _ _ Hok') (ago_bytes _ _ _ _ Hok') Ec)
    as (Hs & Hrc). destruct rc as [[]|e]; [|simplify_eq; destruct Hrc; [done|left; congruence]].
  pose proof (shows_pins _ _ _ Hs Hp) as Hp2. destruct Hs as [S1 S2 S3 (S4&S5&S6&S7&S8)].
  unfold st_mod in E. injection E as <- <-. set (m3 := set_sb _ m2) in *.
  destruct (group_edit_intro m ag blk 0 0 m3) as [G1 G2 G3 G4 G5 G6]; try done.
  - by apply (cache_inv_frame m2 _ (cache_frame_sb m2 _)).
  - change (dev_n m3) with (dev_n m2). simpl. rewrite S5, S6, S7, S8. by split_and!.
  - by left.
  - intros b Hb _. unfold m3. rewrite (view_frame m2 _ _ (cache_frame_sb m2 _)). by apply S2.
  - intros j Hj Hcv. rewrite T4; [by apply (go_cover m Hg)|done|]. unfold ag_start in *. lia.
  - split; [unfold ag_start in *; nia|]. split; [done|].
    assert (forall b, FIRST m <= b < BACKUP m -> forall j k, b = ag_start m k + j -> 0 <= j < SIZE m ->
      allocated m3 b = if k =? ag then bit_get blk j else allocated m b) as Hal.
    { intros b Hb j k -> Hj. rewrite G5 by done. unfold ag_start at 1 2.
      replace (FIRST m + k * SIZE m + j - FIRST m) with (j + k * SIZE m) by lia.
      by rewrite Z.div_add, Z.mod_add, Z.div_small, Z.mod_small, Z.add_0_l by lia. }
    split; try done.
    + simpl. by rewrite S7.
    + intros b Hb. assert (exists j, b = ag_start m ag + j /\ rel <= j < rel + count) as (j & -> & Hj) by (exists (b - ag_start m ag); lia).
      rewrite allocated_at by lia. split; [by apply T3|].
      rewrite (Hal (ag_start m ag + j) ltac:(lia) j ag eq_refl ltac:(lia)), Z.eqb_refl. by apply T3.
    + intros b Hb Hn. destruct (ag_of m b Hg Hb) as (k & j & -> & Hk & Hj). rewrite (Hal _ Hb j k eq_refl Hj).
      destruct (Z.eqb_spec k ag) as [->|]; [|done]. rewrite allocated_at by lia. apply T4; [done|lia].
    + intros b Hb Hne. apply G6; [done|by apply Hne|lia].
Qed.


(** Allocation and release cancel: freeing an extent just granted restores the
    allocation state of every block of the volume. *)
Theorem alloc_free_roundtrip m hint want start got m1 m2 :
  cache_inv m -> pins_ok m -> groups_ok m -> 1 <= want < 2 ^ 31 ->
  carafs_alloc_extent hint want m = (Ok (start, got), m1) -> carafs_free_extent start got m1 = (Ok tt, m2) ->
  forall b, FIRST m <= b < BACKUP m -> allocated m2 b = allocated m b.
Proof.
  intros Hc Hp Hg Hw E1 E2 b Hb. pose proof (go_backup m Hg) as Hbk. pose proof (go_first m Hg) as Hf0.
  destruct (alloc_extent_spec m hint want _ m1 Hc Hp Hg (proj1 Hw) E1) as [G1 G2 G3 G4 G5 G6 G7 G8 G9 G10 _].
  pose proof (free_extent_spec m1 start got _ m2 G3 G4 G5 ltac:(lia) ltac:(lia) ltac:(lia) E2) as (_ & _ & [R1 R2 R3 R4 R5 R6 R7]).
  destruct G10 as (E3 & E4). rewrite E3, E4 in R6. destruct (decide (start <= b < start + got)) as [Hin|Hout].
  - destruct (G7 b Hin) as [-> _]. by apply R5.
  - rewrite R6 by done. by apply G8.
Qed.

End Edit.

(** * A concrete volume *)

(** Sixteen 512-byte blocks: one group at block 2, its own bitmap block and the block after it
    allocated, the backup superblock at block 15. *)
Module AllocExample.
Definition hdr : list Z :=
  carafs_put_crc (wr 4 (wr 8 (wr 4 (bits_for 3571 bit_set (bits_for 2 bit_set (zeros 512) 0) 13) 0 CARAFS_MAGIC_BITMAP)
    AG_BLOCK_NO 2) AG_FREE_COUNT 11) 512 AG_CRC.
Definition sb : superblock :=
  mkSb CARAFS_SB_MAGIC 0 1 0 0 0 9 CARAFS_STATE_DIRTY 3584 16 1 1 1 2 3 11 15 (zeros 16) 0 (zeros 63) 0 0.
Definition dev : CarafsMemBdev :=
  {| mb_mem := zeros 1024 ++ hdr ++ zeros 6656; mb_block_size := 512; mb_n_blocks := 16 |}.
Definition m0 : CarafsMount CarafsMemBdev :=
  mkMount dev 512 false true sb [] [] 0 0 true [] sb (mkJ 0 1 1 1 1).
Definition vol : CarafsMount CarafsMemBdev := cache_init 2 2 m0.

Definition bytes_okb (l : list Z) : bool := forallb (fun b => (0 <=? b) && (b <? 256)) l.
Lemma bytes_okb_ok l : bytes_okb l = true -> bytes_ok l.
Proof.
  unfold bytes_okb, bytes_ok. intros H. apply Forall_forall. intros b Hb%list_elem_of_In.
  rewrite forallb_forall in H. specialize (H b Hb). zbool. unfold in_u8. lia.
Qed.
Lemma mem_fact : length (mb_mem dev) = 8192%nat /\ bytes_okb (mb_mem dev) = true.
Proof. by vm_compute. Qed.
Lemma dev_fit : bdev_wf dev.
Proof. destruct mem_fact as [H1 H2]. split; [exact H1|by apply bytes_okb_ok| |]; simpl; lia. Qed.
Lemma vol_inv : cache_inv vol.
Proof. apply cache_init_inv; try done; [lia|exact dev_fit]. Qed.
Lemma vol_pins : pins_ok vol.
Proof. by apply pins_okb_ok; vm_compute. Qed.
Lemma vol_hdr : view vol 2 = hdr.
Proof. by vm_compute. Qed.
Lemma vol_frame : m_sb vol = sb /\ m_block_size vol = 512%nat /\ dev_n vol = 16.
Proof. by vm_compute. Qed.
Lemma hdr_fact : length hdr = 512%nat /\ bytes_okb hdr = true /\ ag_header_ok 512 2 hdr = true /\
  rd 4 hdr AG_FREE_COUNT = free_bits hdr 3584 /\ bit_get hdr 0 = true /\
  forallb (bit_get hdr) (seqZ 13 3571) = true.
Proof. by vm_compute. Qed.
Lemma vol_groups : groups_ok vol.
Proof.
  destruct vol_frame as (E1 & E2 & E3), hdr_fact as (H1 & H2 & H3 & H4 & H5 & H6).
  assert (forall ag, 0 <= ag < 1 -> 2 + ag * 3584 = 2) as Ha by (intros; lia).
  split; unfold ag_start; rewrite ?E1, ?E2, ?E3; cbn [sb sb_ag_first_block sb_ag_size_blocks sb_ag_count sb_backup_sb];
    try (clear; lia).
  - intros ag Hag. rewrite (Ha ag Hag), vol_hdr.
    split; [exact H1|by apply bytes_okb_ok|clear; unfold CARAFS_AG_BITS_OFF; lia|clear; lia|exact H3|exact H4|exact H5].
  - intros ag j Hag Hj Hb. rewrite (Ha ag Hag) in *. rewrite vol_hdr. rewrite forallb_forall in H6. apply H6.
    apply list_elem_of_In, elem_of_seqZ. lia.
Qed.

Definition granted_vol : CarafsMount CarafsMemBdev := snd (carafs_alloc_extent 9 3 vol).
Definition freed_vol : CarafsMount CarafsMemBdev := snd (carafs_free_extent 4 3 granted_vol).
Lemma alloc_run : fst (carafs_alloc_extent 9 3 vol) = Ok (4, 3).
Proof. by vm_compute. Qed.
Lemma alloc_eq : carafs_alloc_extent 9 3 vol = (Ok (4, 3), granted_vol).
Proof. rewrite <- alloc_run. apply surjective_pairing. Qed.
Lemma free_run : fst (carafs_free_extent 4 3 granted_vol) = Ok tt.
Proof. by vm_compute. Qed.
Lemma free_eq : carafs_free_extent 4 3 granted_vol = (Ok tt, freed_vol).
Proof. rewrite <- free_run. apply surjective_pairing. Qed.
Lemma granted_fact : cache_inv granted_vol /\ pins_ok granted_vol /\ groups_ok granted_vol.
Proof.
  pose proof (alloc_extent_spec vol 9 3 _ _ vol_inv vol_pins vol_groups ltac:(clear; lia) alloc_eq) as H.
  exact (conj (eg_inv _ _ _ _ _ H) (conj (eg_pins _ _ _ _ _ H) (eg_groups _ _ _ _ _ H))).
Qed.

Lemma alloc_free_roundtrip_witness : allocated freed_vol 5 = allocated vol 5.
Proof.
  refine (alloc_free_roundtrip vol 9 3 4 3 _ _ vol_inv vol_pins vol_groups _ alloc_eq free_eq 5 _); [clear; lia|].
  destruct vol_frame as (E & _). rewrite E. cbn [sb sb_ag_first_block sb_backup_sb]. clear; lia.
Defined.
End AllocExample.
