(* ===== verification/Mkfs.v ===== *)
(** Laying out an empty CaraFS volume ([src/logaic/carafs/mkfs.c]): the superblock and its
    backup, the idle journal, the allocation-group bitmaps and the root directory, written
    block by block to the device. *)

From S2P Require Import Prelude Format Volume Cache Journal Alloc.

Definition CNODE_CRC : nat := 4.

(** [struct CarafsMkfsOpts]; [None] is a null pointer. *)
Record CarafsMkfsOpts := mkOpts {
  mo_block_size_log2 : Z; mo_name : option (list Z); mo_uuid : option (list Z); mo_now_ns : Z
}.

(** [for (u32 b = g->block_size; b > 1; b >>= 1) sb->block_size_log2++;] *)
Fixpoint log2_loop (fuel : nat) (b acc : Z) : Z :=
  match fuel with
  | O => acc
  | S fuel => if 1 <? b then log2_loop fuel (Z.shiftr b 1) (u32 (acc + 1)) else acc
  end.

(** The UUID derived from the name and the time when the caller gives none. *)
Definition derived_uuid (name : list Z) (now : Z) : list Z :=
  let h1 := Carafs_NameHash name in
  let h2 := u64 (Z.lxor h1 now * 1099511628211) in
  le_put 8 h1 ++ le_put 8 h2.

Definition fill_superblock (g : CarafsGeometry) (opts : CarafsMkfsOpts) (name : list Z) (free_blocks : Z) : superblock :=
  mkSb CARAFS_SB_MAGIC 0 CARAFS_FORMAT_VERSION 0 0 0 (log2_loop 32 (g_block_size g) 0) CARAFS_STATE_CLEAN
    (g_ag_size g) (g_total_blocks g) (g_journal_start g) (g_journal_blocks g) (g_ag_count g) (g_ag_first g)
    (g_root_cnode g) free_blocks (g_backup_sb g)
    (match mo_uuid opts with Some u => u | None => derived_uuid name (mo_now_ns opts) end)
    (u8 (Z.of_nat (length name))) (splice (zeros 63) 0 name) (mo_now_ns opts) (mo_now_ns opts).

(** One allocation group's bitmap block and its free count. *)
Definition ag_bitmap (g : CarafsGeometry) (bs : nat) (start : Z) : list Z * Z :=
  let end_ := Z.min (u64 (start + g_ag_size g)) (g_backup_sb g) in
  let covered := u32 (u64 (end_ - start)) in
  let blk := wr 8 (wr 4 (zeros bs) 0 CARAFS_MAGIC_BITMAP) AG_BLOCK_NO start in
  let blk := bit_set blk 0 in
  let has_root := (start <=? g_root_cnode g) && (g_root_cnode g <? end_) in
  let blk := if has_root then bit_set blk (u32 (g_root_cnode g - start)) else blk in
  let used := if has_root then 2 else 1 in
  let blk := bits_for (Z.to_nat (g_ag_size g - covered)) bit_set blk covered in
  let free_count := u32 (covered - used) in
  (carafs_put_crc (wr 4 (wr 4 blk AG_FREE_COUNT free_count) AG_ROTOR 0) bs AG_CRC, free_count).

(** The empty root directory. *)
Definition root_cnode_image (g : CarafsGeometry) (bs : nat) (now : Z) : list Z :=
  let blk := wr 8 (wr 4 (zeros bs) 0 CARAFS_MAGIC_CNODE) 8 (g_root_cnode g) in
  let blk := wr 2 (wr 8 blk 16 1) 24 CARAFS_T_DIR in
  let blk := wr 8 (wr 4 blk 28 1) 56 now in
  let blk := wr 8 (wr 8 blk 64 now) 72 now in
  carafs_put_crc blk bs CNODE_CRC.

(** A superblock image: the structure at the start of a zeroed block, sealed. *)
Definition sb_image (bs : nat) (s : superblock) : list Z :=
  sb_serialize bs s (zeros bs).

Section Mkfs.
Context {D : Type} `{!BlockDev D}.

Definition put_block (block : Z) (data : list Z) : ST D unit := fun d => bdev_write d block data.
Definition flush_dev : ST D unit := fun d => bdev_flush d.

(** The loop over the groups; returns the total of the free counts. *)
Fixpoint write_groups (n : nat) (g : CarafsGeometry) (bs : nat) (ag free_total : Z) : ST D Z :=
  match n with
  | O => mret free_total
  | S n =>
      let start := u64 (g_ag_first g + u64 (ag * g_ag_size g)) in
      let '(blk, fc) := ag_bitmap g bs start in
      put_block start blk;;
      write_groups n g bs (ag + 1) (u64 (free_total + fc))
  end.

(** [scratch_bytes] is the size of the caller's scratch buffer. *)
Definition Carafs_Mkfs (opts : CarafsMkfsOpts) (scratch_bytes : Z) : ST D unit :=
  d ← (st_get : ST D D);
  let bs := bdev_block_size d in
  let log2 := if mo_block_size_log2 opts =? 0 then CARAFS_DEF_BLOCK_LOG2 else mo_block_size_log2 opts in
  assert! negb ((log2 <? CARAFS_MIN_BLOCK_LOG2) || (CARAFS_MAX_BLOCK_LOG2 <? log2) ||
    negb (Z.shiftl 1 log2 =? Z.of_nat bs)) else CARA_EINVAL;
  assert! Z.of_nat bs <=? scratch_bytes else CARA_EINVAL;
  match mo_name opts with
  | None => st_err CARA_EINVAL
  | Some name =>
      let name_len := Z.of_nat (length name) in
      assert! negb ((name_len <? 1) || (63 <? name_len) || negb (Carafs_NameValid name)) else CARA_EINVAL;
      g ← (st_lift (carafs_geometry (Z.of_nat bs) (bdev_n_blocks d)) : ST D CarafsGeometry);
      put_block (g_journal_start g) (jsb_image bs 1 1);;
      free_total ← write_groups (Z.to_nat (g_ag_count g)) g bs 0 0;
      put_block (g_root_cnode g) (root_cnode_image g bs (mo_now_ns opts));;
      let img := sb_image bs (fill_superblock g opts name free_total) in
      put_block (g_backup_sb g) img;;
      put_block 0 img;;
      flush_dev
  end.
End Mkfs.

(** * The layout facts used below *)

(** The geometry of a device that [carafs_geometry] accepts. *)
Record geom_ok (bs : nat) (g : CarafsGeometry) : Prop := {
  gm_bs : g_block_size g = Z.of_nat bs /\ 512 <= Z.of_nat bs <= 65536;
  gm_j : g_journal_start g = 1 /\ g_ag_first g = 1 + g_journal_blocks g /\ 62 <= g_journal_blocks g - 1 < 2 ^ 20;
  gm_size : g_ag_size g = 8 * (Z.of_nat bs - 64);
  gm_count : 0 < g_ag_count g < 2 ^ 32;
  gm_tile : g_ag_first g + (g_ag_count g - 1) * g_ag_size g < g_backup_sb g <= g_ag_first g + g_ag_count g * g_ag_size g;
  gm_root : g_root_cnode g = g_ag_first g + 1 /\ g_root_cnode g < g_backup_sb g;
  gm_backup : g_backup_sb g = g_total_blocks g - 1 /\ g_total_blocks g <= 2 ^ 40
}.
Definition group_start (g : CarafsGeometry) (ag : Z) : Z := g_ag_first g + ag * g_ag_size g.

Lemma geometry_sizes bs total g : carafs_geometry bs total = Ok g -> g_block_size g = bs /\ g_total_blocks g = total.
Proof. unfold carafs_geometry. destruct (total <? _); [done|]. intros [= <-]. done. Qed.
Lemma geometry_geom_ok k bs total g :
  CARAFS_MIN_BLOCK_LOG2 <= k <= CARAFS_MAX_BLOCK_LOG2 -> Z.of_nat bs = 2 ^ k -> 0 <= total <= 2 ^ 40 ->
  carafs_geometry (Z.of_nat bs) total = Ok g -> geom_ok bs g /\ g_total_blocks g = total.
Proof.
  intros Hk Hbs Ht E. destruct (geometry_sizes _ _ _ E) as [E1 E2]. rewrite Hbs in E.
  destruct (geometry_facts k total g Hk Ht E) as (F1&F2&F3&F4&F5&F6&F7&F8&F9).
  assert (512 <= Z.of_nat bs <= 65536) as Hr.
  { unfold CARAFS_MIN_BLOCK_LOG2, CARAFS_MAX_BLOCK_LOG2 in Hk. rewrite Hbs. change 512 with (2 ^ 9). change 65536 with (2 ^ 16).
    split; apply Z.pow_le_mono_r; lia. }
  unfold CARAFS_TXN_MAX_BLOCKS in F3. rewrite <- Hbs in F4. split; [|done]. split; try done; lia.
Qed.

Lemma group_start_in bs g ag : geom_ok bs g -> 0 <= ag < g_ag_count g -> g_ag_first g <= group_start g ag < g_backup_sb g.
Proof. intros [] Ha. unfold group_start. nia. Qed.

(** * The allocation-group bitmaps *)

Lemma bit_get_zeros n j : bit_get (zeros n) j = false.
Proof.
  unfold bit_get, bits_byte. rewrite nth_lookup.
  assert (default 0 (zeros n !! (CARAFS_AG_BITS_OFF + Z.to_nat (j / 8))%nat) = 0) as ->.
  { destruct (_ !! _) as [x|] eqn:E; [|done]. by apply lookup_replicate in E as [-> _]. }
  by rewrite Z.shiftr_0_l.
Qed.
Lemma free_bits_ext blk blk' n :
  (forall j, 0 <= j < n -> bit_get blk' j = bit_get blk j) -> free_bits blk' n = free_bits blk n.
Proof. apply clear_count_ext. Qed.

(** The free bits of a bitmap with the first [k] of [n] bits, and those from [c] on, set. *)
Lemma free_bits_window blk n k c :
  0 <= k <= c -> c <= n -> (forall j, 0 <= j < n -> bit_get blk j = (j <? k) || (c <=? j)) -> free_bits blk n = c - k.
Proof.
  intros Hk Hc H. unfold free_bits, clear_count. replace n with (k + ((c - k) + (n - c))) by lia. rewrite !seqZ_app by lia.
  rewrite !List.filter_app, !length_app.
  rewrite (filter_len_all _ (seqZ 0 k) false), (filter_len_all _ (seqZ (0 + k) (c - k)) true),
    (filter_len_all _ (seqZ (0 + k + (c - k)) (n - c)) false); [rewrite length_seqZ; simpl; lia| | |];
    intros j Hj%elem_of_seqZ; rewrite H by lia; destruct (Z.ltb_spec j k), (Z.leb_spec c j); simpl; done || lia.
Qed.

Lemma ag_bitmap_spec bs g ag : geom_ok bs g -> 0 <= ag < g_ag_count g ->
  let '(blk, fc) := ag_bitmap g bs (group_start g ag) in
  ag_ok bs (g_ag_size g) (group_start g ag) blk /\ fc = free_bits blk (g_ag_size g) /\
  forall j, 0 <= j < g_ag_size g -> bit_get blk j =
    (j =? 0) || (group_start g ag + j =? g_root_cnode g) || (g_backup_sb g <=? group_start g ag + j).
Proof.
  intros Hg Ha. pose proof (group_start_in bs g ag Hg Ha) as Hst. pose proof Hg as [[_ Hbs] [_ [Hfi Hj]] Hsz Hcn Htl [Hro Hrb] [Hbk Hto]].
  unfold ag_bitmap. set (start := group_start g ag) in *. set (sz := g_ag_size g) in *.
  assert (3584 <= sz < 2 ^ 20) as Hszr by lia.
  rewrite (u64_small (start + sz)) by (unfold in_u64; lia).
  set (end_ := Z.min (start + sz) (g_backup_sb g)).
  assert (start < end_ <= start + sz /\ end_ <= g_backup_sb g /\ (end_ = start + sz \/ end_ = g_backup_sb g)) as (He1 & He2 & He3) by (unfold end_; lia).
  clearbody end_. rewrite (u64_small (end_ - start)) by (unfold in_u64; lia). rewrite (u32_small (end_ - start)) by (unfold in_u32; lia).
  set (covered := end_ - start) in *. set (root := g_root_cnode g) in *.
  assert ((start <=? root) && (root <? end_) = (ag =? 0)) as ->.
  { destruct (Z.eqb_spec ag 0) as [->|Hne].
    - assert (start = g_ag_first g) by (unfold start, group_start; lia). apply andb_true_intro. split; [apply Z.leb_le|apply Z.ltb_lt]; lia.
    - assert (g_ag_first g + sz <= start) by (unfold start, group_start; nia). apply andb_false_intro1, Z.leb_gt. lia. }
  assert (ag = 0 -> root - start = 1 /\ 1 < covered) as Hr0.
  { intros ->. unfold covered. assert (start = g_ag_first g) by (unfold start, group_start; lia). lia. }
  assert (ag <> 0 -> root < start) as Hr1.
  { intros Hne. assert (g_ag_first g + sz <= start) by (unfold start, group_start; nia). lia. }
  set (b0 := wr 8 (wr 4 (zeros bs) 0 _) _ start).
  assert (length b0 = bs) as L0 by (unfold b0; rewrite !length_wr; apply length_replicate).
  assert (bytes_ok b0) as B0 by (unfold b0; auto with cara).
  assert (forall j, bit_get b0 j = false) as G0.
  { intros j. unfold b0. rewrite !bit_get_wr by (unfold AG_BLOCK_NO, CARAFS_AG_BITS_OFF; lia). apply bit_get_zeros. }
  assert (forall b, length b = bs -> forall j, 0 <= j < sz -> bit_range b j) as Hrng.
  { intros b Hb j Hj'. unfold bit_range. rewrite Hb. unfold CARAFS_AG_BITS_OFF. lia. }
  set (used := if ag =? 0 then 2 else 1). set (b2 := if ag =? 0 then _ else _).
  assert (length b2 = bs /\ bytes_ok b2 /\ (forall n off, (off + n <= 64)%nat -> rd n b2 off = rd n b0 off) /\
    forall j, 0 <= j < sz -> bit_get b2 j = (j <? used)) as (L2 & B2 & R2 & G2).
  { destruct (bit_set_edit b0 0 B0 (Hrng b0 L0 0 ltac:(lia))) as (E1 & E2 & E3). unfold b2, used. destruct (Z.eqb_spec ag 0) as [H0|H0].
    - destruct (Hr0 H0) as [Hr Hc]. rewrite Hr, (u32_small 1) by (unfold in_u32; lia).
      destruct (bit_set_edit (bit_set b0 0) 1 E2 (Hrng _ (eq_trans E1 L0) 1 ltac:(lia))) as (F1 & F2 & F3).
      split_and!; [congruence|done|intros n off Ho; rewrite F3 by done; by apply E3|].
      intros j Hjr. rewrite !bit_get_set, G0, orb_false_r by (apply Hrng; congruence || lia).
      destruct (Z.eqb_spec 1 j), (Z.eqb_spec 0 j), (Z.ltb_spec j 2); simpl; done || lia.
    - split_and!; [congruence|done|done|]. intros j Hjr. rewrite !bit_get_set, G0, orb_false_r by (apply Hrng; congruence || lia).
      destruct (Z.eqb_spec 0 j), (Z.ltb_spec j 1); simpl; done || lia. }
  clearbody b2.
  assert (1 <= used <= covered) as Hu.
  { unfold used. destruct (Z.eqb_spec ag 0) as [H0|H0]; [destruct (Hr0 H0)|]; unfold covered in *; lia. }
  destruct (set_run (Z.to_nat (sz - covered)) b2 covered B2 ltac:(lia)) as (L3 & B3 & R3 & G3).
  { destruct (decide (sz = covered)); [left; lia|right]. apply Hrng; lia. }
  set (b3 := bits_for _ _ _ _) in *. rewrite L2 in L3. rewrite (u32_small (covered - used)) by (unfold in_u32; lia).
  set (b4 := wr 4 (wr 4 b3 _ _) _ 0).
  assert (length b4 = bs /\ bytes_ok b4) as [L4 B4] by (unfold b4; rewrite !length_wr; auto with cara).
  set (b5 := carafs_put_crc b4 bs AG_CRC).
  assert (forall j, 0 <= j < sz -> bit_get b5 j = (j <? used) || (covered <=? j)) as G5.
  { intros j Hjr. unfold b5, carafs_put_crc, b4. unfold AG_CRC, AG_ROTOR, AG_FREE_COUNT.
    rewrite !bit_get_wr by (unfold CARAFS_AG_BITS_OFF; lia). rewrite G3 by (by apply Hrng). rewrite G2 by done.
    replace (covered + Z.of_nat (Z.to_nat (sz - covered))) with sz by lia. rewrite (proj2 (Z.ltb_lt j sz)) by lia.
    rewrite andb_true_r. destruct (covered <=? j), (j <? used); done. }
  assert (covered - used = free_bits b5 sz) as Hfb by (symmetry; apply free_bits_window; auto; lia).
  assert (forall n off, (8 <= off \/ off + n <= 4)%nat -> rd n b5 off = rd n b4 off) as R5.
  { intros n off Ho. unfold b5, carafs_put_crc, AG_CRC. rewrite rd_wr_other by lia. done. }
  split_and!; [|exact Hfb|].
  - split.
    + unfold b5, carafs_put_crc. by rewrite length_wr.
    + unfold b5. by apply wr_bytes_ok.
    + unfold CARAFS_AG_BITS_OFF. lia.
    + lia.
    + unfold ag_header_ok. rewrite !R5 by (unfold AG_BLOCK_NO; lia). unfold b4, AG_ROTOR, AG_FREE_COUNT, AG_BLOCK_NO.
      rewrite !rd_wr_other by lia. rewrite !R3, !R2 by (unfold CARAFS_AG_BITS_OFF; lia).
      assert (rd 4 b0 0 = CARAFS_MAGIC_BITMAP) as ->.
      { unfold b0, AG_BLOCK_NO. rewrite rd_wr_other by lia. apply rd_wr_same; [rewrite length_zeros; lia|done]. }
      assert (rd 8 b0 8 = start) as ->.
      { unfold b0, AG_BLOCK_NO. apply rd_wr_same; [rewrite length_wr, length_zeros|]; lia. }
      rewrite !Z.eqb_refl. unfold b5. rewrite block_crc_ok_put_crc by (done || unfold AG_CRC; lia). done.
    + unfold AG_FREE_COUNT in *. rewrite R5 by lia. unfold b4, AG_ROTOR. rewrite rd_wr_other by lia.
      rewrite rd_wr_same by lia. exact Hfb.
    + rewrite G5 by lia. rewrite (proj2 (Z.ltb_lt 0 used)) by lia. done.
  - intros j Hjr. rewrite G5 by done. unfold used. destruct (Z.eqb_spec ag 0) as [H0|H0].
    + destruct (Hr0 H0) as [Hr Hc].
      destruct (Z.ltb_spec j 2), (Z.leb_spec covered j), (Z.eqb_spec j 0), (Z.eqb_spec (start + j) root), (Z.leb_spec (g_backup_sb g) (start + j));
        simpl; done || lia.
    + specialize (Hr1 H0).
      destruct (Z.ltb_spec j 1), (Z.leb_spec covered j), (Z.eqb_spec j 0), (Z.eqb_spec (start + j) root), (Z.leb_spec (g_backup_sb g) (start + j));
        simpl; done || lia.
Qed.

(** * The volume on the device *)

Section Formatted.
Context {D : Type} `{!BlockDev D} `{!BlockDevLaws D}.
Implicit Types d : D.

(** [d'] differs from [d] in the blocks [W] at most. *)
Record dev_step (W : Z -> Prop) d d' : Prop := {
  ds_wf : bdev_wf d';
  ds_n : bdev_n_blocks d' = bdev_n_blocks d;
  ds_bs : bdev_block_size d' = bdev_block_size d;
  ds_same b : ~ W b -> bdev_content d' b = bdev_content d b
}.
Lemma dev_step_refl W d : bdev_wf d -> dev_step W d d.
Proof. by split. Qed.
Lemma dev_step_trans W1 W2 d1 d2 d3 : dev_step W1 d1 d2 -> dev_step W2 d2 d3 -> dev_step (fun b => W1 b \/ W2 b) d1 d3.
Proof.
  intros [A1 A2 A3 A4] [B1 B2 B3 B4]. split; [done|congruence|congruence|]. intros b Hb.
  rewrite B4, A4; tauto.
Qed.
Lemma dev_step_weaken W W' d d' : dev_step W d d' -> (forall b, W b -> W' b) -> dev_step W' d d'.
Proof. intros [A1 A2 A3 A4] H. split; auto. Qed.

Lemma put_block_spec b data d r d' :
  bdev_wf d -> 0 <= b < bdev_n_blocks d -> length data = bdev_block_size d -> bytes_ok data ->
  put_block b data d = (r, d') ->
  dev_step (fun b' => b' = b) d d' /\ (r = Ok tt -> bdev_content d' b = data) /\ (dev_reliable (D := D) -> r = Ok tt).
Proof.
  intros Hw Hb Hl Hy E. unfold put_block in E. destruct (bdev_write_spec d b data r d' Hw Hb Hl Hy E) as [[A1 A2 A3 A4] Hok].
  split_and!; auto; [by split|]. intros Hr. destruct (Hr d Hw) as (_ & Hwr & _). specialize (Hwr b data Hb Hl). by rewrite E in Hwr.
Qed.

Abbreviation img g bs ag := (fst (ag_bitmap g bs (group_start g ag))).
Abbreviation fcnt g bs ag := (snd (ag_bitmap g bs (group_start g ag))).
Definition sumZ (l : list Z) : Z := foldr Z.add 0 l.
(** The free blocks of groups [ag .. ag+n-1] as [Carafs_Mkfs] counts them. *)
Definition groups_free (g : CarafsGeometry) (bs : nat) (ag : Z) (n : nat) : Z :=
  sumZ (map (fun k => fcnt g bs k) (seqZ ag (Z.of_nat n))).

Lemma ag_bitmap_fc bs g ag : geom_ok bs g -> 0 <= ag < g_ag_count g -> 0 <= fcnt g bs ag <= 2 ^ 20.
Proof.
  intros Hg Ha. pose proof (ag_bitmap_spec bs g ag Hg Ha) as H. destruct (ag_bitmap _ _ _) as [blk fc]. destruct H as (H1 & -> & _).
  pose proof (ago_size _ _ _ _ H1). pose proof (free_bits_range blk (g_ag_size g) ltac:(lia)). pose proof (gm_bs bs g Hg).
  unfold CARAFS_AG_BITS_OFF in *. simpl. lia.
Qed.
Lemma groups_free_range bs g n ag : geom_ok bs g -> 0 <= ag -> ag + Z.of_nat n <= g_ag_count g ->
  0 <= groups_free g bs ag n <= Z.of_nat n * 2 ^ 20.
Proof.
  intros Hg. unfold groups_free. revert ag. induction n as [|n IH]; intros ag Ha Hn; [simpl; lia|].
  rewrite Nat2Z.inj_succ, seqZ_cons by lia. rewrite Z.pred_succ. cbn [map sumZ foldr]. unfold sumZ in IH.
  specialize (IH (Z.succ ag) ltac:(lia) ltac:(lia)). pose proof (ag_bitmap_fc bs g ag Hg ltac:(lia)). lia.
Qed.

Lemma group_start_u64 bs g ag : geom_ok bs g -> 0 <= ag < g_ag_count g -> u64 (g_ag_first g + u64 (ag * g_ag_size g)) = group_start g ag.
Proof.
  intros Hg Ha. pose proof (group_start_in bs g ag Hg Ha) as Hs. unfold group_start in *. pose proof (gm_backup bs g Hg). pose proof (gm_size bs g Hg).
  pose proof (gm_bs bs g Hg). pose proof (gm_j bs g Hg).
  rewrite (u64_small (ag * _)), u64_small; unfold in_u64; nia.
Qed.

Definition group_blocks (g : CarafsGeometry) (ag : Z) (n : nat) (b : Z) : Prop :=
  exists k, ag <= k < ag + Z.of_nat n /\ b = group_start g k.
Lemma group_start_inj bs g k k' : geom_ok bs g -> group_start g k = group_start g k' -> k = k'.
Proof. intros Hg. pose proof (gm_bs bs g Hg). pose proof (gm_size bs g Hg). unfold group_start. nia. Qed.

Lemma write_groups_spec bs g n ag ft d r d' :
  geom_ok bs g -> bs = bdev_block_size d -> g_total_blocks g = bdev_n_blocks d -> bdev_wf d ->
  0 <= ag -> ag + Z.of_nat n <= g_ag_count g -> write_groups n g bs ag ft d = (r, d') ->
  dev_step (group_blocks g ag n) d d' /\
  (forall t, r = Ok t -> (n <> 0%nat -> t = u64 (ft + groups_free g bs ag n)) /\
     forall k, ag <= k < ag + Z.of_nat n -> bdev_content d' (group_start g k) = img g bs k) /\
  (dev_reliable (D := D) -> is_ok r = true).
Proof.
  intros Hg. revert ag ft d r d'. induction n as [|n IH]; intros ag ft d r d' Hbs Ht Hw Ha Hn E; cbn [write_groups] in E.
  { injection E as <- <-. split_and!; [by apply dev_step_refl| |done]. intros t [= <-]. split; [done|lia]. }
  rewrite (group_start_u64 bs) in E by (done || lia). pose proof (ag_bitmap_spec bs g ag Hg ltac:(lia)) as Hb.
  pose proof (ag_bitmap_fc bs g ag Hg ltac:(lia)) as Hfc.
  assert (groups_free g bs ag (S n) = fcnt g bs ag + groups_free g bs (ag + 1) n) as Egf.
  { unfold groups_free. rewrite Nat2Z.inj_succ, seqZ_cons by lia. rewrite Z.pred_succ. done. }
  destruct (ag_bitmap _ _ _) as [blk fc] eqn:Eb. destruct Hb as (Hok & _ & _). rewrite st_bind_eq in E.
  destruct (put_block _ _ d) as [rw d1] eqn:Ew. pose proof (group_start_in bs g ag Hg ltac:(lia)) as Hs.
  pose proof (gm_backup bs g Hg) as Hbk. pose proof (gm_j bs g Hg) as Hj.
  destruct (put_block_spec (group_start g ag) blk d rw d1 Hw ltac:(lia) ltac:(rewrite <- Hbs; apply Hok) (ago_bytes _ _ _ _ Hok) Ew) as (S1 & C1 & P1).
  assert (forall b, b = group_start g ag -> group_blocks g ag (S n) b) as Hfst by (intros b ->; exists ag; lia).
  destruct rw as [[]|e].
  2:{ injection E as <- <-. split_and!; [by eapply dev_step_weaken|done|]. intros Hr. by specialize (P1 Hr). }
  destruct (IH (ag + 1) (u64 (ft + fc)) d1 r d') as (S2 & C2 & P2); auto; try apply S1; try lia; try (destruct S1; congruence).
  split_and!; [|intros t Hok'; destruct (C2 t Hok') as [T2 K2]; split|done].
  - eapply dev_step_weaken; [by eapply dev_step_trans|]. intros b [->|(k & Hk & ->)]; [by apply Hfst|]. exists k. lia.
  - intros _. rewrite Egf. cbn [snd]. destruct n as [|n].
    + simpl in E. injection E as <- <-. injection Hok' as <-. unfold groups_free. simpl. f_equal. lia.
    + rewrite T2 by done. unfold u64. rewrite Zplus_mod_idemp_l. f_equal. lia.
  - intros k Hk. destruct (decide (k = ag)) as [->|Hne]; [|apply K2; lia].
    rewrite Eb. rewrite (ds_same _ _ _ S2); [by apply C1|]. intros (k & Hk2 & E2). apply (group_start_inj bs) in E2; [lia|done].
Qed.

(** A freshly made volume: geometry [g], superblock [s]; [c0] are the contents before. The log
    blocks are not touched. *)
Record formatted (c0 : Z -> list Z) (bs : nat) (g : CarafsGeometry) (s : superblock) (now : Z) d : Prop := {
  fm_wf : bdev_wf d;
  fm_bs : bdev_block_size d = bs;
  fm_n : g_total_blocks g = bdev_n_blocks d;
  fm_sb : bdev_content d 0 = sb_image bs s;
  fm_backup : bdev_content d (g_backup_sb g) = sb_image bs s;
  fm_jsb : bdev_content d (g_journal_start g) = jsb_image bs 1 1;
  fm_ag ag : 0 <= ag < g_ag_count g -> ag_ok bs (g_ag_size g) (group_start g ag) (bdev_content d (group_start g ag));
  fm_bits ag j : 0 <= ag < g_ag_count g -> 0 <= j < g_ag_size g -> bit_get (bdev_content d (group_start g ag)) j =
    (j =? 0) || (group_start g ag + j =? g_root_cnode g) || (g_backup_sb g <=? group_start g ag + j);
  fm_root : bdev_content d (g_root_cnode g) = root_cnode_image g bs now;
  fm_log b : g_journal_start g < b < g_ag_first g -> bdev_content d b = c0 b;
  fm_free : sb_free_blocks s = sumZ (map (fun ag => free_bits (bdev_content d (group_start g ag)) (g_ag_size g))
    (seqZ 0 (g_ag_count g)))
}.

(** The caller's options hold bytes, a 16-byte UUID and a 64-bit time. *)
Record opts_ok (opts : CarafsMkfsOpts) : Prop := {
  oo_name name : mo_name opts = Some name -> bytes_ok name;
  oo_uuid u : mo_uuid opts = Some u -> length u = 16%nat /\ bytes_ok u;
  oo_now : in_u64 (mo_now_ns opts)
}.

Lemma sb_to_bytes_ok s : bytes_ok (sb_magic s) -> bytes_ok (sb_uuid s) -> bytes_ok (sb_name s) -> bytes_ok (sb_to_bytes s).
Proof. intros. unfold sb_to_bytes. repeat (apply Forall_app; split); first [done|apply le_put_ok]. Qed.

Lemma log2_loop_pow2 k bs : CARAFS_MIN_BLOCK_LOG2 <= k <= CARAFS_MAX_BLOCK_LOG2 -> bs = 2 ^ k -> log2_loop 32 bs 0 = k.
Proof.
  unfold CARAFS_MIN_BLOCK_LOG2, CARAFS_MAX_BLOCK_LOG2. intros Hk ->.
  assert (k = 9 \/ k = 10 \/ k = 11 \/ k = 12 \/ k = 13 \/ k = 14 \/ k = 15 \/ k = 16) as H by lia.
  repeat destruct H as [-> | H]; [reflexivity..|]. by subst k.
Qed.

Lemma fill_superblock_wf k bs g opts name free :
  geom_ok bs g -> CARAFS_MIN_BLOCK_LOG2 <= k <= CARAFS_MAX_BLOCK_LOG2 -> Z.of_nat bs = 2 ^ k ->
  opts_ok opts -> mo_name opts = Some name -> (length name <= 63)%nat -> in_u64 free ->
  let s := fill_superblock g opts name free in sb_wf s /\ bytes_ok (sb_to_bytes s).
Proof.
  intros Hg Hk Hbs [On Ou Ot] En Hl Hf s. pose proof Hg as [[G1 G1'] [G2 [G3 G3']] G4 G5 G6 [G7 G8] [G9 G10]].
  assert (length (sb_uuid s) = 16%nat /\ bytes_ok (sb_uuid s)) as [U1 U2].
  { unfold s, fill_superblock. cbn [sb_uuid]. destruct (mo_uuid opts) as [u|] eqn:Eu; [by apply Ou|].
    unfold derived_uuid. rewrite length_app, !length_le_put. split; [done|]. apply Forall_app; split; apply le_put_ok. }
  assert (length (sb_name s) = 63%nat /\ bytes_ok (sb_name s)) as [N1 N2].
  { unfold s, fill_superblock. cbn [sb_name]. rewrite length_splice, length_zeros. split; [done|]. apply splice_bytes_ok; [auto with cara|auto]. }
  split.
  - split; try done; [apply u8_range| |].
    + unfold s, fill_superblock. cbn [sb_crc32c sb_version sb_compat sb_ro_compat sb_incompat sb_block_size_log2 sb_state
        sb_ag_size_blocks sb_journal_blocks sb_ag_count]. rewrite (log2_loop_pow2 k _ Hk (eq_trans G1 Hbs)).
      unfold in_u32, CARAFS_FORMAT_VERSION, CARAFS_MIN_BLOCK_LOG2, CARAFS_MAX_BLOCK_LOG2, CARAFS_STATE_CLEAN in *.
      rewrite !Forall_cons. split_and!; try lia. constructor.
    + unfold s, fill_superblock. cbn [sb_total_blocks sb_journal_start sb_ag_first_block sb_root_cnode sb_free_blocks
        sb_backup_sb sb_created_ns sb_modified_ns]. unfold in_u64 in *. rewrite !Forall_cons. split_and!; try nia. constructor.
  - apply sb_to_bytes_ok; try done. repeat constructor; done.
Qed.

Lemma groups_free_bits bs g d n ag : geom_ok bs g -> 0 <= ag -> ag + Z.of_nat n <= g_ag_count g ->
  (forall k, ag <= k < ag + Z.of_nat n -> bdev_content d (group_start g k) = img g bs k) ->
  groups_free g bs ag n = sumZ (map (fun k => free_bits (bdev_content d (group_start g k)) (g_ag_size g)) (seqZ ag (Z.of_nat n))).
Proof.
  intros Hg Ha Hn Hc. unfold groups_free. f_equal. apply map_ext_in. intros k Hk%list_elem_of_In%elem_of_seqZ.
  rewrite Hc by lia. pose proof (ag_bitmap_spec bs g k Hg ltac:(lia)) as H. destruct (ag_bitmap _ _ _) as [blk fc]. by destruct H as (_ & -> & _).
Qed.

Lemma root_image_ok g bs now : (128 <= bs)%nat -> length (root_cnode_image g bs now) = bs /\ bytes_ok (root_cnode_image g bs now).
Proof.
  intros Hb. unfold root_cnode_image, carafs_put_crc. rewrite !length_wr, length_zeros. split; [done|]. auto 20 with cara.
Qed.

(** The writes of [Carafs_Mkfs] once the options are accepted. *)
Definition mkfs_writes (g : CarafsGeometry) (bs : nat) (opts : CarafsMkfsOpts) (name : list Z) : ST D unit :=
  put_block (g_journal_start g) (jsb_image bs 1 1);;
  free_total ← write_groups (Z.to_nat (g_ag_count g)) g bs 0 0;
  put_block (g_root_cnode g) (root_cnode_image g bs (mo_now_ns opts));;
  let image := sb_image bs (fill_superblock g opts name free_total) in
  put_block (g_backup_sb g) image;;
  put_block 0 image;;
  flush_dev.

Lemma jsb_image_ok bs g : geom_ok bs g -> length (jsb_image bs 1 1) = bs /\ bytes_ok (jsb_image bs 1 1).
Proof.
  intros Hg. pose proof (gm_bs bs g Hg). pose proof (gm_j bs g Hg).
  destruct (jsb_fields_image bs (g_journal_blocks g - 1) 1 1) as (_ & H1 & H2); try done; lia || unfold in_u64; lia.
Qed.

Lemma mkfs_writes_spec k bs g opts name d r d' :
  geom_ok bs g -> CARAFS_MIN_BLOCK_LOG2 <= k <= CARAFS_MAX_BLOCK_LOG2 -> Z.of_nat bs = 2 ^ k ->
  opts_ok opts -> mo_name opts = Some name -> (length name <= 63)%nat ->
  bs = bdev_block_size d -> g_total_blocks g = bdev_n_blocks d -> bdev_wf d ->
  mkfs_writes g bs opts name d = (r, d') ->
  (r = Ok tt -> exists free, formatted (bdev_content d) bs g (fill_superblock g opts name free) (mo_now_ns opts) d' /\ in_u64 free) /\
  (dev_reliable (D := D) -> r = Ok tt).
Proof.
  intros Hg Hk Hp Ho En Hnl Hbs Ht Hw E. pose proof Hg as [[_ G1'] [G2 [G3 G3']] G4 G5 G6 [G7 G8] [G9 G10]].
  unfold mkfs_writes in E. rewrite st_bind_eq in E. destruct (put_block _ _ d) as [r1 d1] eqn:E1.
  destruct (jsb_image_ok bs g Hg) as [Jl Jb].
  destruct (put_block_spec (g_journal_start g) (jsb_image bs 1 1) d r1 d1 Hw ltac:(lia) ltac:(congruence) Jb E1) as (S1 & C1 & P1).
  destruct r1 as [[]|e]; [|simplify_eq; split; [done|by intros Hr; specialize (P1 Hr)]]. rewrite st_bind_eq in E.
  destruct (write_groups _ _ _ _ _ d1) as [r2 d2] eqn:E2.
  pose proof S1 as [S1w S1n S1b _].
  destruct (write_groups_spec bs g (Z.to_nat (g_ag_count g)) 0 0 d1 r2 d2 Hg ltac:(congruence) ltac:(congruence) S1w
    ltac:(lia) ltac:(lia) E2) as (S2 & C2 & P2).
  destruct r2 as [free|e]; [|simplify_eq; split; [done|by intros Hr; specialize (P2 Hr)]].
  destruct (C2 free eq_refl) as [F2 K2]. rewrite Z2Nat.id in K2 by lia.
  pose proof (groups_free_range bs g (Z.to_nat (g_ag_count g)) 0 Hg ltac:(lia) ltac:(lia)) as Hfr.
  rewrite Z.add_0_l, u64_small in F2 by (unfold in_u64; lia). specialize (F2 ltac:(lia)).
  assert (in_u64 free) as Hfree by (unfold in_u64; lia).
  rewrite st_bind_eq in E. destruct (put_block _ _ d2) as [r3 d3] eqn:E3.
  pose proof (dev_step_trans _ _ _ _ _ S1 S2) as S12. destruct (root_image_ok g bs (mo_now_ns opts) ltac:(lia)) as [Rl Rb].
  destruct (put_block_spec (g_root_cnode g) (root_cnode_image g bs (mo_now_ns opts)) d2 r3 d3 (ds_wf _ _ _ S12) ltac:(rewrite (ds_n _ _ _ S12); lia)
    ltac:(rewrite (ds_bs _ _ _ S12); congruence) Rb E3) as (S3 & C3 & P3).
  destruct r3 as [[]|e]; [|simplify_eq; split; [done|by intros Hr; specialize (P3 Hr)]].
  pose proof (dev_step_trans _ _ _ _ _ S12 S3) as S13. cbn zeta in E. set (s := fill_superblock g opts name free) in *.
  destruct (fill_superblock_wf k bs g opts name free Hg Hk Hp Ho En Hnl Hfree) as [W1 W2]. fold s in W1, W2.
  destruct (sb_serialize_spec bs s (zeros bs) W1 W2 (length_zeros bs) ltac:(lia) (zeros_bytes_ok bs)) as (Il & Ib & _).
  fold (sb_image bs s) in Il, Ib. rewrite st_bind_eq in E. destruct (put_block _ _ d3) as [r4 d4] eqn:E4.
  destruct (put_block_spec (g_backup_sb g) (sb_image bs s) d3 r4 d4 (ds_wf _ _ _ S13) ltac:(rewrite (ds_n _ _ _ S13); lia)
    ltac:(rewrite (ds_bs _ _ _ S13); congruence) Ib E4) as (S4 & C4 & P4).
  destruct r4 as [[]|e]; [|simplify_eq; split; [done|by intros Hr; specialize (P4 Hr)]].
  pose proof (dev_step_trans _ _ _ _ _ S13 S4) as S14. rewrite st_bind_eq in E. destruct (put_block _ _ d4) as [r5 d5] eqn:E5.
  destruct (put_block_spec 0 (sb_image bs s) d4 r5 d5 (ds_wf _ _ _ S14) ltac:(rewrite (ds_n _ _ _ S14); lia)
    ltac:(rewrite (ds_bs _ _ _ S14); congruence) Ib E5) as (S5 & C5 & P5).
  destruct r5 as [[]|e]; [|simplify_eq; split; [done|by intros Hr; specialize (P5 Hr)]].
  pose proof (dev_step_trans _ _ _ _ _ S14 S5) as S15. unfold flush_dev in E.
  destruct (bdev_flush_spec d5 r d' (ds_wf _ _ _ S15) E) as [Fw Fc Fn Fb].
  split; [|intros Hr; destruct (Hr d5 (ds_wf _ _ _ S15)) as (_ & _ & Hf); by rewrite E in Hf].
  intros ->. exists free. split; [|done]. specialize (C1 eq_refl). specialize (C3 eq_refl). specialize (C4 eq_refl). specialize (C5 eq_refl).
  assert (forall b k, b = group_start g k -> 0 <= k < g_ag_count g -> g_ag_first g <= b < g_backup_sb g /\ b <> g_root_cnode g) as Hgs.
  { intros b j -> Hj. pose proof (group_start_in bs g j Hg Hj). split; [done|]. unfold group_start in *. destruct (decide (j = 0)); nia. }
  assert (forall b, b <> 0 -> b <> g_backup_sb g -> b <> g_root_cnode g -> bdev_content d' b = bdev_content d2 b) as Hback.
  { intros b H1 H2 H3. rewrite Fc, (ds_same _ _ _ S5), (ds_same _ _ _ S4), (ds_same _ _ _ S3) by done. done. }
  assert (forall ag, 0 <= ag < g_ag_count g -> bdev_content d' (group_start g ag) = img g bs ag) as Hag.
  { intros ag Ha. destruct (Hgs _ ag eq_refl Ha). rewrite Hback by lia. apply K2. lia. }
  assert (forall ag, 0 <= ag < g_ag_count g -> let blk := bdev_content d' (group_start g ag) in
    ag_ok bs (g_ag_size g) (group_start g ag) blk /\ forall j, 0 <= j < g_ag_size g -> bit_get blk j =
      (j =? 0) || (group_start g ag + j =? g_root_cnode g) || (g_backup_sb g <=? group_start g ag + j)) as Hbits.
  { intros ag Ha. cbn zeta. rewrite Hag by done. pose proof (ag_bitmap_spec bs g ag Hg Ha) as H.
    destruct (ag_bitmap _ _ _) as [blk fc]. by destruct H as (H1 & _ & H2). }
  split; try done.
  - rewrite Fb, (ds_bs _ _ _ S15). done.
  - rewrite Fn, (ds_n _ _ _ S15). done.
  - by rewrite Fc.
  - rewrite Fc, (ds_same _ _ _ S5) by lia. done.
  - rewrite Hback by lia. rewrite (ds_same _ _ _ S2); [done|]. intros (j & Hj & Ej).
    destruct (Hgs _ j Ej ltac:(lia)). lia.
  - intros ag Ha. by apply Hbits.
  - intros ag j Ha Hjr. by apply Hbits.
  - rewrite Fc, (ds_same _ _ _ S5), (ds_same _ _ _ S4) by lia. done.
  - intros b Hb. rewrite Hback by lia. rewrite (ds_same _ _ _ S2), (ds_same _ _ _ S1); [done|lia|]. intros (j & Hj & Ej).
    destruct (Hgs _ j Ej ltac:(lia)). lia.
  - cbn [s fill_superblock sb_free_blocks]. rewrite F2. rewrite (groups_free_bits bs g d'); try done; try lia.
    + by rewrite Z2Nat.id by lia.
    + intros j Hj. apply Hag. lia.
Qed.

(** What [Carafs_Mkfs] checks before it writes anything. *)
Definition mkfs_accepts (opts : CarafsMkfsOpts) (scratch_bytes : Z) d (k : Z) (name : list Z) (g : CarafsGeometry) : Prop :=
  k = (if mo_block_size_log2 opts =? 0 then CARAFS_DEF_BLOCK_LOG2 else mo_block_size_log2 opts) /\
  CARAFS_MIN_BLOCK_LOG2 <= k <= CARAFS_MAX_BLOCK_LOG2 /\ Z.of_nat (bdev_block_size d) = 2 ^ k /\
  Z.of_nat (bdev_block_size d) <= scratch_bytes /\
  mo_name opts = Some name /\ (1 <= length name <= 63)%nat /\ Carafs_NameValid name = true /\
  carafs_geometry (Z.of_nat (bdev_block_size d)) (bdev_n_blocks d) = Ok g.

Lemma mkfs_unfold opts sc d :
  (exists k name g, mkfs_accepts opts sc d k name g /\ Carafs_Mkfs opts sc d = mkfs_writes g (bdev_block_size d) opts name d) \/
  ((forall k name g, ~ mkfs_accepts opts sc d k name g) /\
   exists e, (e = CARA_EINVAL \/ e = CARA_ERANGE) /\ Carafs_Mkfs opts sc d = (Err e, d)).
Proof.
  unfold Carafs_Mkfs, mkfs_accepts. st_simp. set (bs := bdev_block_size d). set (k := if _ =? 0 then _ else _).
  destruct (negb _) eqn:E1.
  2:{ right. split; [|exists CARA_EINVAL; by split; [left|]]. intros k' name g (-> & Hk & Hb & _). fold k in Hk, Hb.
      rewrite negb_false_iff, !orb_true_iff, negb_true_iff, Z.shiftl_1_l in E1. zbool. destruct E1 as [[?%Z.ltb_lt|?%Z.ltb_lt]|?%Z.eqb_neq]; lia. }
  zbool. rewrite Z.shiftl_1_l in *. destruct (Z.leb_spec (Z.of_nat bs) sc) as [E2|E2].
  2:{ right. split; [|exists CARA_EINVAL; by split; [left|]]. intros k' name g (_ & _ & _ & ? & _). lia. }
  destruct (mo_name opts) as [name|] eqn:En.
  2:{ right. split; [|exists CARA_EINVAL; by split; [left|]]. intros k' name g (_ & _ & _ & _ & ? & _). done. }
  destruct (negb _) eqn:E3.
  2:{ right. split; [|exists CARA_EINVAL; by split; [left|]]. intros k' name' g (_ & _ & _ & _ & [= <-] & Hl & Hv & _).
      rewrite negb_false_iff, !orb_true_iff, negb_true_iff, Hv in E3. destruct E3 as [[?%Z.ltb_lt|?%Z.ltb_lt]|?]; lia || done. }
  zbool. destruct (carafs_geometry _ _) as [g|e] eqn:Eg.
  - left. exists k, name, g. split; [split_and!; done || lia|]. by unfold mkfs_writes.
  - right. split; [intros k' name' g (_ & _ & _ & _ & _ & _ & _ & ?); done|]. exists e. split; [|done]. right.
    unfold carafs_geometry in Eg. destruct (_ <? _) in Eg; [|done]. by injection Eg.
Qed.

Lemma mkfs_spec opts sc d r d' :
  bdev_wf d -> 0 <= bdev_n_blocks d <= 2 ^ 40 -> opts_ok opts -> Carafs_Mkfs opts sc d = (r, d') ->
  (r = Ok tt -> exists k name g free, mkfs_accepts opts sc d k name g /\
     formatted (bdev_content d) (bdev_block_size d) g (fill_superblock g opts name free) (mo_now_ns opts) d') /\
  ((exists k name g, mkfs_accepts opts sc d k name g) -> dev_reliable (D := D) -> r = Ok tt) /\
  ((forall k name g, ~ mkfs_accepts opts sc d k name g) -> (r = Err CARA_EINVAL \/ r = Err CARA_ERANGE) /\ d' = d).
Proof.
  intros Hw Hn Ho E. destruct (mkfs_unfold opts sc d) as [(k & name & g & Ha & Eq)|(Hno & e & He & Eq)].
  - rewrite Eq in E. pose proof Ha as (_ & Hk & Hb & _ & En & Hl & _ & Hg).
    destruct (geometry_geom_ok k _ _ g Hk Hb Hn Hg) as [Hgo Ht].
    destruct (mkfs_writes_spec k (bdev_block_size d) g opts name d r d' Hgo Hk Hb Ho En ltac:(lia) eq_refl Ht Hw E) as [H1 H2].
    split_and!; auto.
    + intros Hr. destruct (H1 Hr) as (free & Hf & _). by exists k, name, g, free.
    + intros Hno. by destruct (Hno k name g).
  - rewrite Eq in E. injection E as <- <-. split_and!; [done| |].
    + intros (k & name & g & Ha) _. by destruct (Hno k name g).
    + intros _. split; [destruct He as [->| ->]; auto|done].
Qed.
(** [Carafs_Mkfs] makes a volume. On options it accepts and a device of at most 2^40 blocks that
    does not fail it succeeds, and then the device holds a sealed superblock and an identical
    backup, an idle journal, one sealed bitmap per allocation group in which exactly the bitmap
    block, the root cnode and the blocks past the end are allocated, and the root directory; the
    superblock's free count is the exact number of free blocks. Options it does not accept are
    rejected with the device untouched; no log block is written. *)
Theorem mkfs_formats opts sc d r d' :
  bdev_wf d -> 0 <= bdev_n_blocks d <= 2 ^ 40 -> opts_ok opts -> Carafs_Mkfs opts sc d = (r, d') ->
  (r = Ok tt -> exists k name g free, mkfs_accepts opts sc d k name g /\
     formatted (bdev_content d) (bdev_block_size d) g (fill_superblock g opts name free) (mo_now_ns opts) d') /\
  ((exists k name g, mkfs_accepts opts sc d k name g) -> dev_reliable (D := D) -> r = Ok tt) /\
  ((forall k name g, ~ mkfs_accepts opts sc d k name g) -> (r = Err CARA_EINVAL \/ r = Err CARA_ERANGE) /\ d' = d).
Proof. apply mkfs_spec. Qed.
End Formatted.
