(* ===== verification/Mount.v ===== *)
(** Mounting, syncing and unmounting a CaraFS volume, and the bracket every mutating operation
    runs in ([src/logaic/carafs/mount.c]): the cache arena is carved, the superblock checked,
    the journal replayed when the volume was not detached cleanly. [carafs_now] is an argument:
    the value the mounter's clock returns, 0 without one. *)

From S2P Require Import Prelude Format Volume Cache Journal Wal Alloc Mkfs.

(** * Carving the cache arena *)

Definition CARAFS_CACHE_MIN_BLOCKS : Z := 16.
Definition sizeof_CarafsCacheEnt : Z := 40.
Definition alignof_CarafsCacheEnt : Z := 8.

(** Addresses are [uintptr_t] values. *)
Definition align_up (p a : Z) : Z := Z.land (u64 (p + (a - 1))) (u64 (Z.lnot (a - 1))).

(** [while (n_buckets < n) n_buckets <<= 1;] *)
Fixpoint pow2_above (fuel : nat) (n_buckets n : Z) : Z :=
  match fuel with
  | O => n_buckets
  | S fuel => if n_buckets <? n then pow2_above fuel (u32 (Z.shiftl n_buckets 1)) n else n_buckets
  end.

(** The regions [carve] assigns. *)
Record arena := mkArena {
  ar_n_ents : Z; ar_n_buckets : Z; ar_ents : Z; ar_buckets : Z; ar_block_mem : Z; ar_j_scratch : Z; ar_j_image : Z
}.

Definition carve (block_size mem bytes n : Z) : option arena :=
  let n_buckets := pow2_above 32 1 n in
  let end_ := mem + bytes in
  let ents := align_up mem alignof_CarafsCacheEnt in
  let buckets := align_up (ents + n * sizeof_CarafsCacheEnt) 4 in
  let frames := align_up (buckets + n_buckets * 4) 64 in
  if end_ <? frames + u32 (n + 2) * block_size then None
  else Some (mkArena n n_buckets ents buckets frames (frames + n * block_size) (frames + u32 (n + 1) * block_size)).

(** [while (n >= CARAFS_CACHE_MIN_BLOCKS && !carve(m, mem, bytes, n)) n--;] *)
Fixpoint carve_down (fuel : nat) (block_size mem bytes n : Z) : option arena :=
  match fuel with
  | O => None
  | S fuel =>
      if n <? CARAFS_CACHE_MIN_BLOCKS then None
      else match carve block_size mem bytes n with
           | Some a => Some a
           | None => carve_down fuel block_size mem bytes (n - 1)
           end
  end.

Definition size_cache (block_size mem bytes : Z) : option arena :=
  let per := block_size + sizeof_CarafsCacheEnt + 8 in
  let n := u32 (Z.min (bytes / per) 0xFFFFFFF0) in
  carve_down (S (Z.to_nat n)) block_size mem bytes n.

(** * Checking the superblock *)

(** The checks of [Carafs_Mount] on block 0: first the magic and the checksum, then the fields. The shift by a count read from the disk is taken
    modulo 64, as the target's shift instruction does. *)
Definition sb_rules (bs : nat) (n_blocks : Z) (s : superblock) : result unit :=
  if negb (sb_version s =? CARAFS_FORMAT_VERSION) || negb (sb_incompat s =? 0) then Err CARA_EBADVERSION
  else if negb (Z.shiftl 1 (sb_block_size_log2 s mod 64) =? Z.of_nat bs) || (n_blocks <? sb_total_blocks s)
  then Err CARA_EINVAL
  else match carafs_geometry (Z.of_nat bs) (sb_total_blocks s) with
  | Err _ => Err CARA_EINVAL
  | Ok g =>
      if negb (sb_journal_start s =? g_journal_start g) || negb (sb_journal_blocks s =? g_journal_blocks g) ||
         negb (sb_ag_first_block s =? g_ag_first g) || negb (sb_ag_size_blocks s =? g_ag_size g) ||
         negb (sb_ag_count s =? g_ag_count g) || negb (sb_backup_sb s =? g_backup_sb g) ||
         (sb_root_cnode s <? g_ag_first g) || (g_backup_sb g <=? sb_root_cnode s)
      then Err CARA_EINVAL else Ok tt
  end.
Definition sb_check (bs : nat) (n_blocks : Z) (blk : list Z) : result superblock :=
  let s := sb_of_bytes blk in
  if negb (bool_decide (sb_magic s = CARAFS_SB_MAGIC)) || negb (block_crc_ok blk bs SB_CRC) then Err CARA_EBADMAGIC
  else match sb_rules bs n_blocks s with Err e => Err e | Ok _ => Ok s end.

Section Mount.
Context {D : Type} `{!BlockDev D}.
Abbreviation mount := (CarafsMount D).

(** * The superblock on its way home *)

(** Write [m->sb] straight home and flush. *)
Definition sb_write_direct : ST mount unit :=
  '(idx, _) ← carafs_cache_get 0 CARAFS_GET_READ;
  m ← st_get;
  let blk := sb_serialize (m_block_size m) (m_sb m) (e_data (ent m idx)) in
  st_mod (upd_ent idx (ent_set_data blk));;
  rc ← st_try (dev_write 0 blk);
  st_mod (carafs_cache_put 0);;
  match rc with
  | Err e => st_err e
  | Ok _ => dev_flush
  end.

(** The same through the open transaction. *)
Definition carafs_sb_write : ST mount unit :=
  '(idx, _) ← carafs_cache_get 0 CARAFS_GET_READ;
  m ← st_get;
  st_mod (upd_ent idx (ent_set_data (sb_serialize (m_block_size m) (m_sb m) (e_data (ent m idx)))));;
  rc ← st_try (carafs_txn_dirty 0);
  st_mod (carafs_cache_put 0);;
  st_lift rc.

(** * Mount *)

Record CarafsMountOpts := mkMountOpts { mt_cache_mem : Z; mt_cache_bytes : Z; mt_readonly : bool }.

Definition sb_zero : superblock := sb_of_bytes (zeros 192).
Definition fresh_mount (d : D) (ro : bool) : mount :=
  mkMount d (bdev_block_size d) ro false sb_zero [] [] 0 0 false [] sb_zero (mkJ 0 0 0 0 0).

(** From the superblock on. *)
Definition mount_volume : ST mount unit :=
  '(idx, _) ← carafs_cache_get 0 CARAFS_GET_READ;
  m ← st_get;
  match sb_check (m_block_size m) (bdev_n_blocks (m_bdev m)) (e_data (ent m idx)) with
  | Err rc => st_mod (carafs_cache_put 0);; st_err rc
  | Ok sb =>
      st_mod (fun m => if negb (sb_ro_compat sb =? 0) then set_readonly true m else m);;
      st_mod (set_sb sb);;
      st_mod (carafs_cache_put 0);;
      st_mod (carafs_cache_invalidate 0);;
      st_mod j_set_log;;
      m ← st_get;
      (if (sb_state (m_sb m) =? CARAFS_STATE_DIRTY) && negb (m_readonly m) then
         carafs_journal_replay;;
         '(idx, _) ← carafs_cache_get 0 CARAFS_GET_READ;
         m ← st_get;
         st_mod (set_sb (sb_of_bytes (e_data (ent m idx))));;
         st_mod (carafs_cache_put 0);;
         st_mod (fun m => set_sb (sb_set_state (m_sb m) CARAFS_STATE_CLEAN) m);;
         sb_write_direct
       else carafs_journal_init);;
      st_mod (set_mounted true)
  end.

Definition Carafs_Mount (d : D) (opts : CarafsMountOpts) : result unit * mount :=
  let m := fresh_mount d (mt_readonly opts) in
  if mt_cache_mem opts =? 0 then (Err CARA_EINVAL, m) else
  match size_cache (Z.of_nat (bdev_block_size d)) (mt_cache_mem opts) (mt_cache_bytes opts) with
  | None => (Err CARA_ENOMEM, m)
  | Some a => mount_volume (cache_init (Z.to_nat (ar_n_ents a)) (Z.to_nat (ar_n_buckets a)) m)
  end.

(** * Sync and unmount *)

Definition Carafs_Sync : ST mount unit :=
  m ← st_get;
  assert! m_mounted m else CARA_EINVAL;
  if m_readonly m then carafs_cache_sync else carafs_journal_checkpoint.

Definition Carafs_Unmount (now : Z) : ST mount unit :=
  m ← st_get;
  assert! m_mounted m else CARA_EINVAL;
  if m_readonly m then
    carafs_cache_sync;;
    st_mod (set_mounted false)
  else
    carafs_journal_checkpoint;;
    m ← st_get;
    (if sb_state (m_sb m) =? CARAFS_STATE_DIRTY then
       st_mod (fun m => set_sb (sb_set_state (m_sb m) CARAFS_STATE_CLEAN) m);;
       st_mod (fun m => if negb (now =? 0) then set_sb (sb_set_modified_ns (m_sb m) now) m else m);;
       sb_write_direct
     else mret tt);;
    st_mod (set_mounted false).

(** * The operation bracket *)

Definition carafs_mark_dirty : ST mount unit :=
  m ← st_get;
  if sb_state (m_sb m) =? CARAFS_STATE_DIRTY then mret tt else
  st_mod (fun m => set_sb (sb_set_state (m_sb m) CARAFS_STATE_DIRTY) m);;
  rc ← st_try sb_write_direct;
  st_mod (fun m => match rc with
                   | Err _ => set_sb (sb_set_state (m_sb m) CARAFS_STATE_CLEAN) m
                   | Ok _ => m
                   end);;
  st_lift rc.

Definition carafs_op_begin : ST mount unit :=
  m ← st_get;
  assert! m_mounted m && negb (m_readonly m) else CARA_EINVAL;
  carafs_mark_dirty;;
  st_mod (fun m => set_sb_at_txn (m_sb m) m);;
  st_mod carafs_txn_begin.

Definition carafs_op_abort (m : mount) : mount :=
  let m := carafs_txn_abort m in set_sb (m_sb_at_txn m) m.

Definition carafs_op_commit : ST mount unit :=
  rc ← st_try carafs_sb_write;
  match rc with
  | Err e => st_mod carafs_op_abort;; st_err e
  | Ok _ =>
      rc ← st_try carafs_txn_commit;
      match rc with
      | Err e => st_mod carafs_op_abort;; st_err e
      | Ok _ => mret tt
      end
  end.
End Mount.

(** * The arena *)

Lemma align_up_spec p a k : a = 2 ^ k -> 0 <= p -> 0 <= k < 64 -> p + a < 2 ^ 64 ->
  p <= align_up p a < p + a /\ align_up p a mod a = 0.
Proof.
  intros -> Hp Hk Hlt. pose proof (Z.pow_pos_nonneg 2 k ltac:(lia) ltac:(lia)) as H2. unfold align_up.
  rewrite (u64_small (p + _)) by (unfold in_u64; lia). set (x := p + (2 ^ k - 1)).
  assert (Z.land x (u64 (Z.lnot (2 ^ k - 1))) = 2 ^ k * (x / 2 ^ k)) as ->.
  { unfold u64. rewrite <- Z.land_ones, (Z.land_comm (Z.lnot _)), Z.land_assoc, (Z.land_ones x 64) by lia.
    rewrite (Z.mod_small x) by (unfold x; lia).
    replace (2 ^ k - 1) with (Z.ones k) by (rewrite Z.ones_equiv; lia).
    rewrite <- Z.ldiff_land, Z.ldiff_ones_r, Z.shiftl_mul_pow2, Z.shiftr_div_pow2 by lia. lia. }
  pose proof (Z.div_mod x (2 ^ k) ltac:(lia)). pose proof (Z.mod_pos_bound x (2 ^ k) ltac:(lia)).
  split; [unfold x in *; lia|]. rewrite Z.mul_comm. by apply Z.mod_mul; lia.
Qed.

Lemma pow2_above_spec fuel k n : 0 <= k -> k + Z.of_nat fuel = 32 -> 1 <= n <= 2 ^ 31 -> 2 ^ k < 2 * n ->
  n <= pow2_above fuel (2 ^ k) n < 2 * n /\ exists j, 0 <= j /\ pow2_above fuel (2 ^ k) n = 2 ^ j.
Proof.
  revert k. induction fuel as [|fuel IH]; intros k Hk Hf Hn Hlt; simpl.
  - replace k with 32 in * by lia. lia.
  - destruct (Z.ltb_spec (2 ^ k) n) as [H|H]; [|split; [lia|by exists k]].
    assert (k < 31) as Hk31 by (apply (Z.pow_lt_mono_r_iff 2); lia).
    rewrite Z.shiftl_mul_pow2 by lia. replace (2 ^ k * 2 ^ 1) with (2 ^ (k + 1)) by (rewrite Z.pow_add_r; lia).
    assert (2 ^ (k + 1) <= 2 ^ 31) by (apply Z.pow_le_mono_r; lia). rewrite u32_small by (unfold in_u32; lia).
    apply IH; try lia. rewrite Z.pow_add_r by lia. lia.
Qed.

(** The regions of an arena, in order, aligned and inside it. *)
Record arena_fits (block_size mem bytes : Z) (a : arena) : Prop := {
  af_n : CARAFS_CACHE_MIN_BLOCKS <= ar_n_ents a <= 2 ^ 31;
  af_buckets : ar_n_ents a <= ar_n_buckets a < 2 * ar_n_ents a /\ exists j, 0 <= j /\ ar_n_buckets a = 2 ^ j;
  af_ents : mem <= ar_ents a /\ ar_ents a mod 8 = 0;
  af_ents_end : ar_ents a + ar_n_ents a * sizeof_CarafsCacheEnt <= ar_buckets a /\ ar_buckets a mod 4 = 0;
  af_buckets_end : ar_buckets a + ar_n_buckets a * 4 <= ar_block_mem a /\ ar_block_mem a mod 64 = 0;
  af_frames_end : ar_block_mem a + ar_n_ents a * block_size <= ar_j_scratch a;
  af_scratch_end : ar_j_scratch a + block_size <= ar_j_image a;
  af_image_end : ar_j_image a + block_size <= mem + bytes
}.

Lemma carve_spec block_size mem bytes n :
  512 <= block_size <= 65536 -> 0 < mem -> 0 <= bytes <= 2 ^ 40 -> mem + bytes < 2 ^ 62 ->
  CARAFS_CACHE_MIN_BLOCKS <= n <= 2 ^ 31 ->
  match carve block_size mem bytes n with
  | Some a => arena_fits block_size mem bytes a /\ ar_n_ents a = n
  | None => bytes < n * (block_size + 48) + 2 * block_size + 128
  end.
Proof.
  intros Hbs Hm Hb He Hn. unfold CARAFS_CACHE_MIN_BLOCKS in *. unfold carve, alignof_CarafsCacheEnt, sizeof_CarafsCacheEnt.
  destruct (pow2_above_spec 32 0 n) as (Hnb & j & Hj & Enb); try lia. change (2 ^ 0) with 1 in *. set (nb := pow2_above 32 1 n) in *.
  destruct (align_up_spec mem 8 3) as [A1 A2]; try lia. set (ents := align_up mem 8) in *.
  destruct (align_up_spec (ents + n * 40) 4 2) as [B1 B2]; try lia. set (bk := align_up (ents + n * 40) 4) in *.
  destruct (align_up_spec (bk + nb * 4) 64 6) as [F1 F2]; try lia. set (fr := align_up (bk + nb * 4) 64) in *.
  rewrite (u32_small (n + 2)), (u32_small (n + 1)) by (unfold in_u32; lia).
  destruct (Z.ltb_spec (mem + bytes) (fr + (n + 2) * block_size)) as [H|H]; [nia|].
  split; [|done]. split; unfold sizeof_CarafsCacheEnt, CARAFS_CACHE_MIN_BLOCKS; cbn [ar_n_ents ar_n_buckets ar_ents ar_buckets ar_block_mem ar_j_scratch ar_j_image];
    try (split; [lia|by exists j]); try lia; nia.
Qed.

Lemma carve_down_spec fuel block_size mem bytes n :
  512 <= block_size <= 65536 -> 0 < mem -> 0 <= bytes <= 2 ^ 40 -> mem + bytes < 2 ^ 62 ->
  0 <= n <= 2 ^ 31 -> n < Z.of_nat fuel ->
  match carve_down fuel block_size mem bytes n with
  | Some a => arena_fits block_size mem bytes a /\ ar_n_ents a <= n
  | None => n < CARAFS_CACHE_MIN_BLOCKS \/ bytes < CARAFS_CACHE_MIN_BLOCKS * (block_size + 48) + 2 * block_size + 128
  end.
Proof.
  intros Hbs Hm Hb He. revert n. induction fuel as [|fuel IH]; intros n Hn Hf; [lia|]. cbn [carve_down].
  destruct (Z.ltb_spec n CARAFS_CACHE_MIN_BLOCKS) as [H|H]; [by left|].
  pose proof (carve_spec block_size mem bytes n Hbs Hm Hb He ltac:(lia)) as Hc. destruct (carve _ _ _ _) as [a|].
  { destruct Hc as [? ->]. split; [done|lia]. }
  destruct (decide (n = CARAFS_CACHE_MIN_BLOCKS)) as [->|Hne].
  - destruct fuel as [|fuel]; [unfold CARAFS_CACHE_MIN_BLOCKS in *; lia|]. cbn [carve_down]. by right.
  - unfold CARAFS_CACHE_MIN_BLOCKS in *. specialize (IH (n - 1) ltac:(lia) ltac:(lia)). destruct (carve_down _ _ _ _ _).
    + split; [apply IH|lia].
    + lia.
Qed.

(** The cache is sized whenever the arena holds the minimum, and then every region [carve] hands
    out lies inside the arena, aligned, behind the one before it. *)
Lemma size_cache_spec block_size mem bytes :
  512 <= block_size <= 65536 -> 0 < mem -> 0 <= bytes <= 2 ^ 40 -> mem + bytes < 2 ^ 62 ->
  match size_cache block_size mem bytes with
  | Some a => arena_fits block_size mem bytes a
  | None => bytes < CARAFS_CACHE_MIN_BLOCKS * (block_size + 48) + 2 * block_size + 128
  end.
Proof.
  intros Hbs Hm Hb He. unfold size_cache, sizeof_CarafsCacheEnt. replace (block_size + 40 + 8) with (block_size + 48) by lia.
  assert (0 <= bytes / (block_size + 48) <= 2 ^ 31) as Hq.
  { split; [apply Z.div_pos; lia|]. apply Z.div_le_upper_bound; lia. }
  rewrite Z.min_l by lia. rewrite u32_small by (unfold in_u32; lia). set (n := bytes / (block_size + 48)) in *.
  pose proof (carve_down_spec (S (Z.to_nat n)) block_size mem bytes n Hbs Hm Hb He Hq ltac:(lia)) as H.
  destruct (carve_down _ _ _ _ _); [apply H|]. unfold CARAFS_CACHE_MIN_BLOCKS in *. destruct H as [H|H]; [|done].
  pose proof (Z.mul_succ_div_gt bytes (block_size + 48) ltac:(lia)). unfold n in H. nia.
Qed.

(** The cache arena. [Carafs_Mount] finds a cache size whenever the arena holds the minimum of 16
    blocks with their bookkeeping and the two journal scratch blocks, and every region it then
    hands out (entries, buckets, block frames, journal scratch and image) lies inside the arena,
    aligned for its type and behind the one before it; the bucket count is a power of two. *)
Theorem cache_arena_layout block_size mem bytes :
  512 <= block_size <= 65536 -> 0 < mem -> 0 <= bytes <= 2 ^ 40 -> mem + bytes < 2 ^ 62 ->
  match size_cache block_size mem bytes with
  | Some a => arena_fits block_size mem bytes a
  | None => bytes < CARAFS_CACHE_MIN_BLOCKS * (block_size + 48) + 2 * block_size + 128
  end.
Proof. apply size_cache_spec. Qed.

Lemma cache_arena_layout_witness :
  size_cache 512 4097 20000 = Some (mkArena 33 64 4104 5424 5696 22592 23104) /\
  arena_fits 512 4097 20000 (mkArena 33 64 4104 5424 5696 22592 23104).
Proof.
  split; [by vm_compute|]. exact (cache_arena_layout 512 4097 20000 ltac:(lia) ltac:(lia) ltac:(lia) ltac:(lia)).
Defined.

(** * The superblock and the device *)

Section Durable.
Context {D : Type} `{!BlockDev D} `{!BlockDevLaws D}.
Abbreviation mount := (CarafsMount D).
Implicit Types m : mount.
Abbreviation content m := (bdev_content (m_bdev m)).

(** No cached block waits to be written home. *)
Definition all_clean m : Prop := forall i, valid_idx m i -> indexed m i -> e_dirty (ent m i) = false.
Lemma all_clean_settled m b : cache_inv m -> all_clean m -> in_dev m b -> content m b = view m b.
Proof.
  intros Hc Ha Hb. pose proof (in_dev_not_none m b Hc Hb) as Hn. destruct (cached_dec m b Hc Hn) as [(_ & Hv & E)|[_ Hu]].
  - rewrite (view_cached m _ b Hc Hv E Hn). rewrite <- E at 1. symmetry. apply (ci_ent m Hc _ Hv); [congruence|].
    apply Ha; [done|]. unfold indexed. congruence.
  - symmetry. by apply view_uncached.
Qed.

(** A store to the frame of a cached block that is written to the device at once. *)
Lemma write_through_spec m i b blk m' :
  cache_inv m -> valid_idx m i -> e_block (ent m i) = b -> in_dev m b ->
  length blk = m_block_size m -> bytes_ok blk ->
  dev_write b blk (upd_ent i (ent_set_data blk) m) = (Ok tt, m') ->
  cache_inv m' /\ content m' b = blk /\ n_ents m' = n_ents m /\
  (forall j, valid_idx m j -> ent m' j = if j =? i then ent_set_data blk (ent m j) else ent m j) /\
  (forall b', in_dev m b' -> view m' b' = if b' =? b then blk else view m b') /\
  dev_n m' = dev_n m /\ m_block_size m' = m_block_size m /\ m_sb m' = m_sb m /\ m_j m' = m_j m.
Proof.
  intros Hc Hi Eb Hb Hl Hy E. pose proof (in_dev_not_none m b Hc Hb) as Hbn.
  unfold dev_write in E. destruct (bdev_write _ _ _) as [r d] eqn:Ew. injection E as -> <-.
  change (m_bdev (upd_ent i (ent_set_data blk) m)) with (m_bdev m) in Ew.
  destruct (bdev_write_spec _ _ _ _ _ (ci_dev m Hc) Hb ltac:(by rewrite <- (ci_bs m Hc)) Hy Ew) as [[W1 W2 W3 W4] W5].
  specialize (W5 eq_refl). set (m1 := set_bdev d _).
  assert (forall j, valid_idx m j -> ent m1 j = if j =? i then ent_set_data blk (ent m j) else ent m j) as Hent.
  { intros j Hj. change (ent m1 j) with (ent (upd_ent i (ent_set_data blk) m) j). by rewrite ent_upd by (done || apply Hj). }
  assert (n_ents m1 = n_ents m) as En by (exact (n_ents_upd m i _)).
  assert (cache_inv m1) as Hc1.
  { apply (cache_inv_transfer m); try done.
    - intros j Hj. rewrite Hent by done. by destruct (j =? i).
    - simpl. rewrite W4. apply (ci_bs m Hc).
    - intros j Hj. rewrite Hent by done. destruct (Z.eqb_spec j i) as [->|Hne].
      + destruct (ci_ent m Hc i Hi) as [H1 H2 H3 H4 H5 H6]. split; simpl; try done; rewrite ?W3; try done. intros _ _. by rewrite Eb.
      + destruct (ci_ent m Hc j Hj) as [H1 H2 H3 H4 H5 H6]. split; simpl; try done; rewrite ?W3; try done.
        intros Hin Hcl. rewrite W2; [by apply H5|]. intros Ej. apply Hne.
        apply (ix_uniq m _ (ci_index m Hc)); auto; unfold indexed; congruence. }
  split_and!; try done. intros b' Hb'. destruct (Z.eqb_spec b' b) as [->|Hne].
  - rewrite (view_cached m1 i b Hc1); [by rewrite Hent, Z.eqb_refl by done|unfold valid_idx in *; by rewrite En| |done].
    by rewrite Hent, Z.eqb_refl by done.
  - apply (view_same m m1 b' Hc Hc1 (in_dev_not_none m b' Hc Hb') En).
    + intros j Hj. rewrite Hent by done. destruct (Z.eqb_spec j i) as [->|]; [|done]. simpl. rewrite Eb. intros [?|?]; congruence.
    + intros _. by apply W2.
Qed.

(** The superblock a block holds. *)
Record sb_on (bs : nat) (s : superblock) (blk : list Z) : Prop := {
  so_len : length blk = bs;
  so_bytes : bytes_ok blk;
  so_crc : block_crc_ok blk bs SB_CRC = true;
  so_sb : exists c, in_u32 c /\ sb_of_bytes blk = sb_set_crc s c
}.
Record sb_fit m : Prop := {
  sf_wf : sb_wf (m_sb m);
  sf_bytes : bytes_ok (sb_to_bytes (m_sb m));
  sf_bs : (192 <= m_block_size m)%nat;
  sf_zero : in_dev m 0
}.

Lemma got_dirty m b i fresh m' j : got m b CARAFS_GET_READ i fresh m' -> valid_idx m j ->
  e_dirty (ent m' j) = e_dirty (ent m j) \/ e_dirty (ent m' j) = false.
Proof.
  intros Hg Hj. destruct (decide (j = i)) as [->|Hne].
  - pose proof (got_self _ _ _ _ _ _ Hg) as Hs. destruct fresh.
    + unfold ent_user in Hs. injection Hs. intros _ _ _ -> _. by right.
    + apply ent_user_inv in Hs as (_ & -> & _). by left.
  - destruct (ent_user_inv _ _ (got_others _ _ _ _ _ _ Hg j Hj Hne)) as (_ & -> & _). by left.
Qed.
Lemma got_clean m b i fresh m' : got m b CARAFS_GET_READ i fresh m' -> all_clean m -> all_clean m'.
Proof.
  intros Hg Ha j Hj Hx. assert (valid_idx m j) as Hjm by (unfold valid_idx in *; by rewrite <- (got_len _ _ _ _ _ _ Hg)).
  destruct (got_dirty _ _ _ _ _ j Hg Hjm) as [E|]; [|done]. rewrite E. destruct (decide (j = i)) as [->|Hne].
  - destruct fresh.
    + rewrite <- E. pose proof (got_self _ _ _ _ _ _ Hg) as Hs. unfold ent_user in Hs. by injection Hs.
    + apply Ha; [done|]. pose proof (got_self _ _ _ _ _ _ Hg) as Hs. apply ent_user_inv in Hs as (Es & _).
      unfold indexed in *. by rewrite Es in Hx.
  - apply Ha; [done|]. destruct (ent_user_inv _ _ (got_others _ _ _ _ _ _ Hg j Hjm Hne)) as (Eb & _).
    unfold indexed in *. by rewrite <- Eb.
Qed.

Lemma flush_settled m r m' : cache_inv m -> dev_flush m = (r, m') ->
  view_kept m m' /\ (forall b, content m' b = content m b) /\ forall i, ent m' i = ent m i.
Proof.
  intros Hc E. unfold dev_flush in E. destruct (bdev_flush _) as [rf d] eqn:Ef. injection E as <- <-.
  pose proof (bdev_flush_spec _ _ _ (ci_dev m Hc) Ef) as Hs. split; [by apply same_dev_kept|]. by destruct Hs.
Qed.

Lemma put_clean m b : cache_inv m -> all_clean m -> all_clean (carafs_cache_put b m).
Proof.
  intros Hc Ha. unfold carafs_cache_put.
  destruct (index_find_spec m (indexed m) b (ci_small m Hc) (ci_index m Hc)) as [[-> _]|(Hv & _)]; [rewrite Z.eqb_refl; exact Ha|].
  destruct (_ && _); [|exact Ha]. intros j Hj Hx. rewrite valid_upd in Hj. unfold indexed in Hx.
  rewrite (ent_upd_field e_dirty m _ _ j Hv (proj1 Hj)) by done.
  rewrite (ent_upd_field e_block m _ _ j Hv (proj1 Hj)) in Hx by done. by apply Ha.
Qed.

Lemma shows_kept_after v m m1 m2 : shows v m m1 -> view_kept m1 m2 ->
  (forall j, valid_idx m1 j -> e_pins (ent m2 j) <= e_pins (ent m1 j)) -> shows v m m2.
Proof.
  intros [A1 A2 A3 (E1&E2&E3&E4&E5)] [] Hp. split; [done| | |split_and!; congruence].
  - intros b Hb. rewrite vk_view; [by apply A2|]. unfold in_dev in *. congruence.
  - intros j Hj. assert (valid_idx m1 j) as Hj1 by (unfold valid_idx in *; congruence). specialize (A3 j Hj). specialize (Hp j Hj1). lia.
Qed.

Lemma sb_write_direct_spec m r m' :
  cache_inv m -> pins_ok m -> sb_fit m -> sb_write_direct m = (r, m') ->
  (r = Ok tt -> exists blk, sb_on (m_block_size m) (m_sb m) blk /\ content m' 0 = blk /\
    shows (fun b => if b =? 0 then blk else view m b) m m' /\ (all_clean m -> all_clean m')) /\
  ((exists i, valid_idx m i /\ evictable (ent m i)) \/ index_find m 0 <> CARAFS_ENT_NONE -> dev_reliable (D := D) -> r = Ok tt).
Proof.
  intros Hc Hp [F1 F2 F3 F4] E. unfold sb_write_direct in E. rewrite st_bind_eq in E.
  destruct (carafs_cache_get 0 CARAFS_GET_READ m) as [rg m1] eqn:Eg.
  pose proof (cache_get_spec m 0 CARAFS_GET_READ rg m1 Hc Hp ltac:(lia) Eg) as Hg.
  destruct rg as [[i fresh]|e].
  2:{ injection E as <- <-. split; [done|]. intros Hev Hrel. pose proof (cache_get_ok m 0 CARAFS_GET_READ Hrel Hc F4 ltac:(tauto)) as Ho.
      by rewrite Eg in Ho. }
  destruct Hg as [_ Hg]. pose proof (got_inv _ _ _ _ _ _ Hg) as Hc1. pose proof (got_bs _ _ _ _ _ _ Hg) as Eb1.
  destruct (got_frame _ _ _ _ _ _ Hg) as (_ & _ & Es1 & _ & Ej1). pose proof (got_len _ _ _ _ _ _ Hg) as En1.
  assert (valid_idx m1 i) as Hv1 by (unfold valid_idx; rewrite En1; apply (got_valid _ _ _ _ _ _ Hg)).
  assert (in_dev m1 0) as Hd1 by (unfold in_dev; by rewrite (got_dev _ _ _ _ _ _ Hg)).
  st_simp_in E. rewrite Es1, Eb1 in E. set (old := e_data (ent m1 i)) in *.
  destruct (ci_ent m1 Hc1 i Hv1) as [O1 O2 _ _ _ _]. rewrite Eb1 in O1.
  destruct (sb_serialize_spec (m_block_size m) (m_sb m) old F1 F2 O1 F3 O2) as (B1 & B2 & B3 & B4).
  set (blk := sb_serialize (m_block_size m) (m_sb m) old) in *.
  destruct (dev_write 0 blk (upd_ent i (ent_set_data blk) m1)) as [rw m2] eqn:Ew.
  destruct rw as [[]|e].
  2:{ st_simp_in E. unfold st_err in E. injection E as <- <-. split; [done|]. intros _ Hrel. exfalso.
      unfold dev_write in Ew. destruct (Hrel (m_bdev m1) (ci_dev m1 Hc1)) as (_ & Hw & _).
      specialize (Hw 0 blk Hd1 ltac:(rewrite <- (ci_bs m1 Hc1); congruence)).
      change (m_bdev (upd_ent i (ent_set_data blk) m1)) with (m_bdev m1) in Ew.
      destruct (bdev_write _ _ _) as [rw d]. simpl in Hw. subst rw. done. }
  destruct (write_through_spec m1 i 0 blk m2 Hc1 Hv1 (got_block _ _ _ _ _ _ Hg) Hd1 ltac:(congruence) B2 Ew)
    as (Hc2 & C2 & N2 & E2 & V2 & D2 & K2 & S2 & J2).
  st_simp_in E. destruct (flush_settled (carafs_cache_put 0 m2) r m' (vk_inv _ _ (cache_put_kept m2 0 Hc2 ltac:(lia))) E) as (Hk & Hcn & He).
  pose proof (vk_inv _ _ Hk) as Hc3.
  assert (m_bdev (carafs_cache_put 0 m2) = m_bdev m2) as Epd by (unfold carafs_cache_put; by case_match).
  split.
  - intros ->. exists blk. split_and!; [by split|by rewrite Hcn, Epd| |].
    + apply (shows_kept_after _ m (carafs_cache_put 0 m2)); [|done|intros j Hj; rewrite He; lia].
      apply (put_shows m2 0 i); try done.
      * unfold valid_idx in *. by rewrite N2.
      * rewrite E2, Z.eqb_refl by done. exact (got_block _ _ _ _ _ _ Hg).
      * rewrite E2, Z.eqb_refl by done. exact (got_pinned _ _ _ _ _ _ Hg).
      * intros b Hb. rewrite V2; [|unfold in_dev in *; by rewrite (got_dev _ _ _ _ _ _ Hg)].
        destruct (b =? 0) eqn:Eb; [done|]. rewrite (got_view _ _ _ _ _ _ Hg b Hb). by rewrite Eb.
      * rewrite N2, D2, K2, S2, J2. split_and!; try congruence. apply (got_dev _ _ _ _ _ _ Hg).
      * intros j Hj. assert (valid_idx m1 j) as Hj1 by (unfold valid_idx in *; by rewrite <- N2).
        assert (valid_idx m j) as Hj0 by (unfold valid_idx in *; by rewrite <- En1).
        pose proof (got_pins _ _ _ _ _ _ Hc Hg j Hj0) as Hpn. rewrite E2 by done. by destruct (j =? i).
    + intros Ha. assert (all_clean m1) as Ha1 by (by eapply got_clean).
      assert (all_clean m2) as Ha2.
      { intros j Hj Hx. assert (valid_idx m1 j) as Hj1 by (unfold valid_idx in *; by rewrite <- N2).
        unfold indexed in Hx. rewrite E2 in Hx |- * by done. destruct (j =? i); simpl in *; by apply Ha1. }
      pose proof (put_clean m2 0 Hc2 Ha2) as Ha3. intros j Hj Hx. rewrite He. unfold indexed in Hx. rewrite He in Hx.
      apply Ha3; [|done]. unfold valid_idx in *. by rewrite <- (vk_len _ _ Hk).
  - intros _ Hrel. unfold dev_flush in E. destruct (Hrel (m_bdev (carafs_cache_put 0 m2))) as (_ & _ & Hf).
    { rewrite Epd. apply (ci_dev m2 Hc2). }
    destruct (bdev_flush _) as [rf d]. simpl in Hf. subst rf. by injection E.
Qed.

(** ** An empty cache *)

Definition cache_empty m : Prop := forall i, valid_idx m i -> e_block (ent m i) = CARAFS_BLOCK_NONE.
Lemma cache_empty_clean m : cache_empty m -> all_clean m.
Proof. intros He i Hi Hx. by destruct Hx; apply He. Qed.
Lemma cache_empty_pins m : cache_inv m -> cache_empty m -> pins_ok m.
Proof. intros Hc He i Hi. destruct (eo_idle _ _ _ (ci_ent m Hc i Hi) (He i Hi)) as [-> _]. lia. Qed.
Lemma cache_empty_frame m m' : cache_frame m m' -> cache_empty m -> cache_empty m'.
Proof. intros (E1 & _) He i. unfold valid_idx, n_ents, ent in *. rewrite E1. apply He. Qed.

(** Reading block 0 into an empty cache and dropping it again: nothing stays behind. [f] is the
    work done on the rest of the mount meanwhile. *)
Lemma peek_block0 m i fresh m1 m2 :
  cache_inv m -> cache_empty m -> in_dev m 0 -> got m 0 CARAFS_GET_READ i fresh m1 -> cache_frame m1 m2 ->
  let m3 := carafs_cache_invalidate 0 (carafs_cache_put 0 m2) in
  cache_inv m3 /\ cache_empty m3 /\ n_ents m3 = n_ents m /\ dev_n m3 = dev_n m /\ m_block_size m3 = m_block_size m /\
  (forall b, in_dev m b -> view m3 b = content m b /\ content m3 b = content m b).
Proof.
  intros Hc He H0 Hg Hf m3. pose proof (got_inv _ _ _ _ _ _ Hg) as Hc1. pose proof (cache_inv_frame _ _ Hf Hc1) as Hc2.
  pose proof (got_len _ _ _ _ _ _ Hg) as En. pose proof (got_valid _ _ _ _ _ _ Hg) as Hv. pose proof Hf as (F1&_&_&_&F5&F6).
  assert (forall j, ent m2 j = ent m1 j) as Ee by (intros; unfold ent; by rewrite F1).
  assert (n_ents m2 = n_ents m) as En2 by (unfold n_ents in *; by rewrite F1).
  assert (dev_n m2 = dev_n m) as Ed2 by (unfold dev_n; rewrite F5; apply (got_dev _ _ _ _ _ _ Hg)).
  assert (fresh = true) as ->.
  { apply (got_fresh _ _ _ _ _ _ Hg). intros j Hj E0. rewrite He in E0 by done. by apply (in_dev_not_none m 0 Hc H0). }
  pose proof (got_self _ _ _ _ _ _ Hg) as Hs. unfold ent_user in Hs. injection Hs. intros Hdat Hpin Htx Hdir Hblk.
  assert (valid_idx m2 i) as Hv2 by (unfold valid_idx in *; by rewrite En2).
  assert (index_find m2 0 = i) as Ei.
  { apply (index_find_hit m2 (indexed m2) i 0 (ci_small m2 Hc2) (ci_index m2 Hc2) Hv2); [|by rewrite Ee].
    unfold indexed. rewrite Ee, Hblk. done. }
  set (m2' := carafs_cache_put 0 m2) in *. pose proof (cache_put_kept m2 0 Hc2 ltac:(lia)) as Hk. fold m2' in Hk.
  assert (m2' = upd_ent i (fun e => ent_set_pins (e_pins e - 1) e) m2) as Ep.
  { unfold m2', carafs_cache_put. rewrite Ei, Ee, Hpin. rewrite (proj2 (Z.eqb_neq _ _) (valid_not_none m2 i (ci_small m2 Hc2) Hv2)). done. }
  assert (in_dev m2' 0) as H0' by (unfold in_dev; by rewrite (vk_dev _ _ Hk), Ed2).
  destruct (cache_invalidate_spec m2' 0 (vk_inv _ _ Hk) H0') as (I1 & I2 & I3 & I4 & I5 & I6 & I7). fold m3 in I1, I2, I3, I4, I5, I6, I7.
  assert (index_find m2' 0 = i) as Ei' by (rewrite Ep, index_find_upd; done).
  assert (ent m2' i = ent_set_pins (e_pins (ent m2 i) - 1) (ent m2 i)) as Eei by (rewrite Ep; exact (ent_upd_same m2 i _ Hv2)).
  assert (cache_empty m3) as He3.
  { intros j Hj. assert (valid_idx m2' j) as Hj' by (unfold valid_idx in *; by rewrite <- I2).
    assert (valid_idx m j) as Hjm by (unfold valid_idx in *; by rewrite <- En2, <- (vk_len _ _ Hk)).
    specialize (I7 ltac:(right; rewrite Ei', Eei; right; simpl; rewrite Ee, Hpin, Htx; done) j Hj).
    destruct (decide (j = i)) as [->|Hne].
    - destruct (I4 i Hj') as [Eu|[_ ?]]; [|done]. apply ent_user_inv in Eu as (Eb & _). rewrite Eei in Eb. simpl in Eb.
      rewrite Ee, Hblk in Eb. by destruct I7.
    - destruct (I4 j Hj') as [Eu|[_ ?]]; [|done]. apply ent_user_inv in Eu as (-> & _).
      rewrite Ep, (ent_upd_ne m2 i _ j Hv2 (proj1 Hj) Hne), Ee.
      destruct (ent_user_inv _ _ (got_others _ _ _ _ _ _ Hg j Hjm Hne)) as (-> & _). by apply He. }
  assert (dev_n m3 = dev_n m) as Ed3 by (unfold dev_n in *; rewrite I3, Ep; exact Ed2).
  split_and!; try done.
  - by rewrite I2, (vk_len _ _ Hk).
  - transitivity (m_block_size m2'); [unfold m3, carafs_cache_invalidate, index_remove, link_set; by repeat case_match|].
    rewrite (vk_bs _ _ Hk), F6. apply (got_bs _ _ _ _ _ _ Hg).
  - intros b Hb. assert (in_dev m3 b) as Hb3 by (unfold in_dev in *; by rewrite Ed3).
    assert (all_clean m2') as Ha2.
    { apply put_clean; [done|]. intros j Hj Hx. rewrite Ee. unfold indexed in Hx. rewrite Ee in Hx.
      apply (got_clean _ _ _ _ _ Hg (cache_empty_clean m He)); [|done]. unfold valid_idx in *. by rewrite En, <- En2. }
    assert (in_dev m2' b) as Hb2 by (unfold in_dev in *; by rewrite (vk_dev _ _ Hk), Ed2).
    assert (view m2' b = content m b) as Ev.
    { rewrite (vk_view _ _ Hk) by (unfold in_dev in *; by rewrite Ed2). rewrite (view_frame _ _ b Hf), (got_view _ _ _ _ _ _ Hg b Hb).
      rewrite andb_false_r. cbn [andb]. symmetry. by apply all_clean_settled; [|apply cache_empty_clean|]. }
    assert (view m3 b = view m2' b) as Ev3.
    { destruct (decide (b = 0)) as [->|Hne]; [|by apply I5]. destruct I6 as [?|E6]; [done|]. rewrite E6.
      by apply all_clean_settled; [apply (vk_inv _ _ Hk)| |]. }
    split; [congruence|]. rewrite (all_clean_settled m3 b I1 (cache_empty_clean _ He3) Hb3). congruence.
Qed.

(** ** What the superblock checks give *)

(** A device the filesystem supports: a block size of 2^9 .. 2^16 and at most 2^40 blocks. *)
Definition dev_dims (d : D) : Prop :=
  bdev_wf d /\ 0 <= bdev_n_blocks d <= 2 ^ 40 /\
  exists k, CARAFS_MIN_BLOCK_LOG2 <= k <= CARAFS_MAX_BLOCK_LOG2 /\ Z.of_nat (bdev_block_size d) = 2 ^ k.
Lemma dev_dims_bs d : dev_dims d -> 512 <= Z.of_nat (bdev_block_size d) <= 65536.
Proof.
  intros (_ & _ & k & Hk & ->). unfold CARAFS_MIN_BLOCK_LOG2, CARAFS_MAX_BLOCK_LOG2 in Hk.
  change 512 with (2 ^ 9). change 65536 with (2 ^ 16). split; apply Z.pow_le_mono_r; lia.
Qed.

Lemma sb_of_bytes_wf blk : bytes_ok blk -> (192 <= length blk)%nat -> sb_wf (sb_of_bytes blk).
Proof.
  intros Hb Hl. split; cbn [sb_of_bytes sb_magic sb_uuid sb_name sb_name_len]; try (apply length_sub; lia).
  - by apply (rd_range 1); [|lia].
  - assert (forall off, (off <= 60)%nat -> in_u32 (rd 4 blk off)) as H by (intros; apply (rd_range 4); [done|lia]).
    cbn [sb_of_bytes sb_crc32c sb_version sb_compat sb_ro_compat sb_incompat sb_block_size_log2 sb_state sb_ag_size_blocks
      sb_journal_blocks sb_ag_count]. repeat (apply Forall_cons; split; [apply H; lia|]). apply Forall_nil_2.
  - assert (forall off, (off <= 184)%nat -> in_u64 (rd 8 blk off)) as H by (intros; apply (rd_range 8); [done|lia]).
    cbn [sb_of_bytes sb_total_blocks sb_journal_start sb_ag_first_block sb_root_cnode sb_free_blocks sb_backup_sb
      sb_created_ns sb_modified_ns]. repeat (apply Forall_cons; split; [apply H; lia|]). apply Forall_nil_2.
Qed.
Lemma sb_of_bytes_ok blk : bytes_ok blk -> bytes_ok (sb_to_bytes (sb_of_bytes blk)).
Proof. intros Hb. apply sb_to_bytes_ok; cbn; auto with cara. Qed.

(** The geometry of a volume whose superblock passed the checks. *)
Record sb_geom (bs : nat) (n : Z) (s : superblock) (g : CarafsGeometry) : Prop := {
  sg_geom : geom_ok bs g;
  sg_total : sb_total_blocks s = g_total_blocks g /\ g_total_blocks g <= n;
  sg_j : sb_journal_start s = g_journal_start g /\ sb_journal_blocks s = g_journal_blocks g;
  sg_ag : sb_ag_first_block s = g_ag_first g /\ sb_ag_size_blocks s = g_ag_size g /\ sb_ag_count s = g_ag_count g;
  sg_backup : sb_backup_sb s = g_backup_sb g;
  sg_root : g_ag_first g <= sb_root_cnode s < g_backup_sb g
}.
Lemma sb_rules_geom d s : dev_dims d -> 0 <= sb_total_blocks s -> sb_rules (bdev_block_size d) (bdev_n_blocks d) s = Ok tt ->
  exists g, sb_geom (bdev_block_size d) (bdev_n_blocks d) s g.
Proof.
  intros (_ & Hn & k & Hk & Hb) Ht E. unfold sb_rules in E. destruct (_ || _) in E; [done|].
  destruct (_ || _) eqn:E2 in E; [done|]. destruct (carafs_geometry _ _) as [g|] eqn:Eg; [|done].
  destruct (_ || _) eqn:E3 in E; [done|]. zbool.
  destruct (geometry_geom_ok k _ (sb_total_blocks s) g Hk Hb ltac:(lia) Eg) as [Hgo Hgt]. exists g. by split; try lia.
Qed.
Lemma sb_geom_rules bs n s s' :
  sb_version s' = sb_version s -> sb_incompat s' = sb_incompat s -> sb_block_size_log2 s' = sb_block_size_log2 s ->
  sb_total_blocks s' = sb_total_blocks s -> sb_journal_start s' = sb_journal_start s ->
  sb_journal_blocks s' = sb_journal_blocks s -> sb_ag_first_block s' = sb_ag_first_block s ->
  sb_ag_size_blocks s' = sb_ag_size_blocks s -> sb_ag_count s' = sb_ag_count s -> sb_backup_sb s' = sb_backup_sb s ->
  sb_root_cnode s' = sb_root_cnode s -> sb_rules bs n s' = sb_rules bs n s.
Proof. intros. unfold sb_rules. by repeat match goal with H : _ s' = _ s |- _ => rewrite H; clear H end. Qed.

Lemma sb_geom_journal m s g : sb_geom (m_block_size m) (dev_n m) s g -> m_sb m = s -> bdev_wf (m_bdev m) ->
  m_block_size m = bdev_block_size (m_bdev m) -> dev_n m <= 2 ^ 40 -> j_geom (j_set_log m).
Proof.
  intros [Hg [T1 T2] [J1 J2] _ _ _] Es Hw Hb Hn. destruct Hg as [[_ B1] [G2 [G3 G3']] G4 G5 G6 [G7 G8] [G9 G10]].
  split; cbn [j_set_log set_j m_sb m_j m_bdev m_block_size j_log_blocks]; change (dev_n (j_set_log m)) with (dev_n m);
    rewrite ?Es, ?T1, ?J1, ?J2, ?(u32_small (g_journal_blocks g - 1)) by (unfold in_u32; lia); try done; try lia; nia.
Qed.

(** ** Mounting *)

Lemma invalidate_frame_sb b m :
  let m' := carafs_cache_invalidate b m in m_sb m' = m_sb m /\ m_j m' = m_j m /\ m_readonly m' = m_readonly m.
Proof. unfold carafs_cache_invalidate, index_remove, link_set. by repeat case_match. Qed.
Lemma put_frame_sb b m :
  let m' := carafs_cache_put b m in m_sb m' = m_sb m /\ m_j m' = m_j m /\ m_readonly m' = m_readonly m.
Proof. unfold carafs_cache_put. by case_match. Qed.

Lemma index_remove_ro i m : m_readonly (index_remove i m) = m_readonly m.
Proof. unfold index_remove, link_set. by case_match. Qed.
Lemma ent_obtain_from_ro fuel idx m : m_readonly (snd (ent_obtain_from fuel idx m)) = m_readonly m.
Proof.
  revert idx m. induction fuel as [|fuel IH]; intros idx m; [done|]. simpl. destruct (idx =? CARAFS_ENT_NONE); [done|]. st_simp.
  destruct (_ =? CARAFS_BLOCK_NONE); [done|]. destruct (_ && _); [|apply IH]. rewrite st_bind_eq.
  destruct (e_dirty (ent m idx)); [|st_simp; exact (index_remove_ro idx m)].
  unfold ent_writeback. st_simp. rewrite st_bind_eq. unfold dev_write. destruct (bdev_write _ _ _) as [[[]|] d]; [|done].
  st_simp. exact (index_remove_ro idx (upd_ent idx (ent_set_dirty false) (set_bdev d m))).
Qed.
Lemma cache_get_ro b m : m_readonly (snd (carafs_cache_get b CARAFS_GET_READ m)) = m_readonly m.
Proof.
  unfold carafs_cache_get. st_simp. destruct (_ <=? _); [done|].
  assert (forall i m', m_readonly (lru_push_mru i (lru_unlink i m')) = m_readonly m') as Hl
    by (intros; unfold lru_push_mru, lru_unlink; by repeat case_match).
  destruct (negb _); [by st_simp; simpl; rewrite Hl|]. rewrite st_bind_assoc, st_bind_eq. unfold cache_fill. rewrite st_bind_eq.
  pose proof (ent_obtain_from_ro (S (length (m_ents m))) (m_lru_tail m) m) as Ho. fold (ent_obtain m) in Ho.
  destruct (ent_obtain m) as [[k|e] m1]; [|done]. simpl in Ho. rewrite st_bind_assoc, st_bind_eq. unfold dev_read.
  destruct (bdev_read _ _) as [[data|e] d]; [|done]. st_simp. simpl. rewrite Hl. done.
Qed.

(** The mount once block 0 was accepted and dropped from the cache, before the journal. *)
Record superblock_read (d : D) (ro : bool) (s : superblock) m : Prop := {
  sr_ro : m_readonly m = ro || negb (sb_ro_compat s =? 0);
  sr_inv : cache_inv m;
  sr_empty : cache_empty m;
  sr_sb : m_sb m = s;
  sr_n : dev_n m = bdev_n_blocks d;
  sr_bs : m_block_size m = bdev_block_size d;
  sr_ents : 0 < n_ents m;
  sr_content b : 0 <= b < bdev_n_blocks d -> content m b = bdev_content d b
}.

(** The superblock is reread from the recovered volume, marked clean and written home. *)
Definition sb_reload : ST mount unit :=
  '(idx, _) ← carafs_cache_get 0 CARAFS_GET_READ;
  m ← st_get;
  st_mod (set_sb (sb_of_bytes (e_data (ent m idx))));;
  st_mod (carafs_cache_put 0);;
  st_mod (fun m => set_sb (sb_set_state (m_sb m) CARAFS_STATE_CLEAN) m);;
  sb_write_direct.

Definition journal_start : ST mount unit :=
  m ← st_get;
  (if (sb_state (m_sb m) =? CARAFS_STATE_DIRTY) && negb (m_readonly m) then
     carafs_journal_replay;;
     sb_reload
   else carafs_journal_init);;
  st_mod (set_mounted true).

Lemma mount_prefix d opts :
  dev_dims d -> 0 < bdev_n_blocks d -> 0 < mt_cache_mem opts -> 0 <= mt_cache_bytes opts <= 2 ^ 40 ->
  mt_cache_mem opts + mt_cache_bytes opts < 2 ^ 62 ->
  match sb_check (bdev_block_size d) (bdev_n_blocks d) (bdev_content d 0) with
  | Ok s =>
      (exists m, superblock_read d (mt_readonly opts) s m /\ Carafs_Mount d opts = journal_start m) \/
      is_ok (fst (Carafs_Mount d opts)) = false /\
        (dev_reliable (D := D) -> mt_cache_bytes opts < 18 * Z.of_nat (bdev_block_size d) + 896)
  | Err e => is_ok (fst (Carafs_Mount d opts)) = false
  end.
Proof.
  intros Hd Hn Hm Hb He. pose proof (dev_dims_bs d Hd) as Hbs. pose proof Hd as (Hw & Hn40 & _).
  unfold Carafs_Mount. rewrite (proj2 (Z.eqb_neq _ _)) by lia.
  pose proof (size_cache_spec (Z.of_nat (bdev_block_size d)) _ _ Hbs Hm Hb He) as Hsz.
  destruct (size_cache _ _ _) as [a|].
  2:{ destruct (sb_check _ _ _); [right; split; [done|]|done]. intros _. unfold CARAFS_CACHE_MIN_BLOCKS in *. lia. }
  destruct Hsz as [An Ab _ _ _ _ _ _]. unfold CARAFS_CACHE_MIN_BLOCKS in An.
  set (m0 := fresh_mount d (mt_readonly opts)). set (mi := cache_init _ _ m0).
  destruct (cache_init_inv (Z.to_nat (ar_n_ents a)) (Z.to_nat (ar_n_buckets a)) m0) as [Hc Hv]; try done; try lia;
    [unfold CARAFS_ENT_NONE; lia|unfold dev_n, CARAFS_BLOCK_NONE; simpl; lia|]. fold mi in Hc, Hv.
  assert (n_ents mi = ar_n_ents a) as En.
  { unfold n_ents, mi, cache_init, cache_init_ents. simpl. rewrite length_map, length_seq. lia. }
  assert (cache_empty mi) as Hem.
  { intros i Hi. unfold mi. rewrite ent_cache_init; [done|]. unfold valid_idx in Hi. rewrite En in Hi. lia. }
  assert (in_dev mi 0) as H0 by (unfold in_dev, dev_n; simpl; lia).
  unfold mount_volume. rewrite st_bind_eq. destruct (carafs_cache_get 0 CARAFS_GET_READ mi) as [rg m1] eqn:Eg.
  pose proof (cache_get_spec mi 0 _ rg m1 Hc (cache_empty_pins mi Hc Hem) ltac:(lia) Eg) as Hg.
  destruct rg as [[i fresh]|e].
  2:{ destruct (sb_check _ _ _); [right; split; [done|]|done]. intros Hrel. exfalso.
      pose proof (cache_get_ok mi 0 CARAFS_GET_READ Hrel Hc H0) as Ho. rewrite Eg in Ho. discriminate Ho. right. exists 0.
      split; [unfold valid_idx; lia|]. left. apply Hem. unfold valid_idx. lia. }
  destruct Hg as [_ Hg]. st_simp. rewrite (got_bs _ _ _ _ _ _ Hg).
  assert (bdev_n_blocks (m_bdev m1) = bdev_n_blocks d) as -> by (exact (got_dev _ _ _ _ _ _ Hg)).
  assert (e_data (ent m1 i) = bdev_content d 0) as ->.
  { rewrite (got_data _ _ _ _ _ _ H0 Hg), (got_view _ _ _ _ _ _ Hg 0 H0), andb_false_r. cbn [andb]. by apply Hv. }
  change (m_block_size mi) with (bdev_block_size d).
  destruct (sb_check _ _ _) as [s|e]; [left|done]. st_simp.
  set (m2 := set_sb s _). set (m3 := carafs_cache_invalidate 0 (carafs_cache_put 0 m2)).
  assert (cache_frame m1 m2) as Hf by (unfold m2; case_match; by split_and!).
  destruct (peek_block0 mi i fresh m1 m2 Hc Hem H0 Hg Hf) as (P1 & P2 & P3 & P4 & P5 & P6). fold m3 in P1, P2, P3, P4, P5, P6.
  exists (j_set_log m3). split; [|by unfold journal_start, sb_reload; st_simp].
  assert (cache_frame m3 (j_set_log m3)) as Hfj by (by split_and!).
  split.
  - change (m_readonly (j_set_log m3)) with (m_readonly m3). unfold m3.
    rewrite (proj2 (proj2 (invalidate_frame_sb 0 _))), (proj2 (proj2 (put_frame_sb 0 m2))).
    pose proof (cache_get_ro 0 mi) as Hro. rewrite Eg in Hro. simpl in Hro. unfold m2.
    destruct (sb_ro_compat s =? 0); simpl; rewrite ?orb_true_r, ?orb_false_r; done.
  - exact (cache_inv_frame m3 _ Hfj P1).
  - exact (cache_empty_frame m3 _ Hfj P2).
  - change (m_sb (j_set_log m3)) with (m_sb m3). unfold m3. rewrite (proj1 (invalidate_frame_sb 0 _)), (proj1 (put_frame_sb 0 m2)). done.
  - exact P4.
  - exact P5.
  - change (n_ents (j_set_log m3)) with (n_ents m3). lia.
  - intros b Hb'. change (content (j_set_log m3) b) with (content m3 b). destruct (P6 b Hb') as [_ ->]. done.
Qed.

(** A mounted volume with an empty cache and an empty log, showing the contents of [c]. *)
Record mounted_clean (c : Z -> list Z) (n : Z) (bs : nat) (s : superblock) (sq head : Z) m : Prop := {
  mc_inv : cache_inv m;
  mc_empty : cache_empty m;
  mc_ents : 0 < n_ents m;
  mc_mounted : m_mounted m = true;
  mc_sb : m_sb m = s;
  mc_n : dev_n m = n;
  mc_bs : m_block_size m = bs;
  mc_j : m_j m = mkJ (sb_journal_blocks s - 1) head sq head sq;
  mc_geom : j_geom m;
  mc_view b : 0 <= b < n -> view m b = c b /\ content m b = c b
}.

Definition mount_args_ok (opts : CarafsMountOpts) : Prop :=
  0 < mt_cache_mem opts /\ 0 <= mt_cache_bytes opts <= 2 ^ 40 /\ mt_cache_mem opts + mt_cache_bytes opts < 2 ^ 62.
(** The arena holds the 16 cache blocks [Carafs_Mount] insists on. *)
Definition arena_enough (d : D) (opts : CarafsMountOpts) : Prop :=
  18 * Z.of_nat (bdev_block_size d) + 896 <= mt_cache_bytes opts.

Lemma empty_set_bdev m d : cache_inv m -> cache_empty m -> bdev_wf d -> bdev_n_blocks d = dev_n m ->
  bdev_block_size d = bdev_block_size (m_bdev m) -> cache_inv (set_bdev d m) /\ forall b, in_dev m b -> view (set_bdev d m) b = bdev_content d b.
Proof.
  intros Hc He Hw Hn Hb. assert (cache_inv (set_bdev d m)) as Hc'.
  { apply (cache_inv_transfer m); try done; simpl; [rewrite Hb; apply (ci_bs m Hc)|].
    intros i Hi. change (ent (set_bdev d m) i) with (ent m i). destruct (ci_ent m Hc i Hi) as [H1 H2 H3 H4 H5 H6].
    specialize (He i Hi). split; try done; intros Hne; by destruct Hne. }
  split; [done|]. intros b Hbd. rewrite <- (all_clean_settled (set_bdev d m) b Hc'); [done| |].
  - apply cache_empty_clean. exact He.
  - unfold in_dev, dev_n in *. simpl. by rewrite Hn.
Qed.

Lemma journal_init_spec m s g sq head r m' :
  cache_inv m -> cache_empty m -> m_sb m = s -> sb_geom (m_block_size m) (dev_n m) s g -> dev_n m <= 2 ^ 40 ->
  jsb_fields (m_block_size m) (sb_journal_blocks s - 1) (content m (sb_journal_start s)) = Ok (sq, head) ->
  carafs_journal_init m = (r, m') ->
  (r = Ok tt -> exists d, m' = set_bdev d (set_j (mkJ (sb_journal_blocks s - 1) head sq head sq) m) /\ j_geom m' /\
     cache_inv m' /\ (forall b, in_dev m b -> view m' b = content m b /\ content m' b = content m b) /\ dev_n m' = dev_n m) /\
  (dev_reliable (D := D) -> r = Ok tt).
Proof.
  intros Hc He Hs Hg Hn Hj E. pose proof (sb_geom_journal m s g Hg Hs (ci_dev m Hc) (ci_bs m Hc) Hn) as Hgj.
  pose proof (sg_j _ _ _ _ Hg) as [_ J2]. pose proof (gm_j _ _ (sg_geom _ _ _ _ Hg)) as (_ & _ & J4).
  assert (u32 (sb_journal_blocks (m_sb m) - 1) = sb_journal_blocks s - 1) as Elog by (rewrite Hs; apply u32_small; unfold in_u32; lia).
  unfold carafs_journal_init in E. rewrite st_bind_eq in E. destruct (jsb_read m) as [rj m1] eqn:Ej.
  destruct (jsb_read_spec m rj m1 Hgj Ej) as [Hv Hr]. cbn [j_set_log set_j m_j j_log_blocks] in Hr. rewrite Elog, Hs, Hj in Hr.
  destruct Hr as [->|[Hno Hgo]]; [|destruct rj; [done|]; injection E as <- <-; split; [done|intros Hrel; by specialize (Hgo Hrel)]].
  unfold st_mod in E. injection E as <- <-. split; [|done]. intros _.
  pose proof (vol_step_geom _ _ _ Hv Hgj) as Hg1. destruct Hv as (d & -> & Hd & Hdn & Hdb & Hdc). exists d.
  assert (j_set_cursor head sq (set_bdev d (j_set_log m)) = set_bdev d (set_j (mkJ (sb_journal_blocks s - 1) head sq head sq) m)) as Em.
  { unfold j_set_cursor, set_bdev, j_set_log, set_j. simpl. by rewrite Elog. }
  rewrite Em. split; [done|]. set (mj := set_j _ m) in *.
  assert (cache_frame m mj) as Hf by (by split_and!).
  destruct (empty_set_bdev mj d (cache_inv_frame _ _ Hf Hc) (cache_empty_frame _ _ Hf He) Hd Hdn Hdb) as [Hc2 Hv2].
  split_and!; [|done| |done].
  - rewrite <- Em. destruct Hg1. by split.
  - intros b Hb. rewrite Hv2 by done. split; apply Hdc; set_solver.
Qed.

Lemma mount_clean_spec d opts s sq head :
  dev_dims d -> 0 < bdev_n_blocks d -> mount_args_ok opts -> 0 <= sb_total_blocks s ->
  sb_check (bdev_block_size d) (bdev_n_blocks d) (bdev_content d 0) = Ok s -> sb_state s <> CARAFS_STATE_DIRTY ->
  jsb_fields (bdev_block_size d) (sb_journal_blocks s - 1) (bdev_content d (sb_journal_start s)) = Ok (sq, head) ->
  let '(r, m) := Carafs_Mount d opts in
  (r = Ok tt -> mounted_clean (bdev_content d) (bdev_n_blocks d) (bdev_block_size d) s sq head m) /\
  (dev_reliable (D := D) -> arena_enough d opts -> r = Ok tt) /\
  (r = Ok tt -> m_readonly m = mt_readonly opts || negb (sb_ro_compat s =? 0)).
Proof.
  intros Hd Hn (Ho1 & Ho2 & Ho3) Ht Hck Hst Hj. pose proof (mount_prefix d opts Hd Hn Ho1 Ho2 Ho3) as Hp. rewrite Hck in Hp.
  destruct Hp as [(m & [R0 R1 R2 R3 R4 R5 R6 R7] & Hmount)|[Hno Hrel]].
  2:{ destruct (Carafs_Mount d opts) as [r m]. simpl in Hno. split; [by intros ->|]. split; [|by intros ->]. intros Hr Ha. specialize (Hrel Hr).
      unfold arena_enough in Ha. lia. }
  rewrite Hmount. unfold journal_start. st_simp. rewrite R3, (proj2 (Z.eqb_neq _ _) Hst). cbn [andb]. rewrite st_bind_eq.
  destruct (carafs_journal_init m) as [r m'] eqn:Ei.
  assert (sb_rules (bdev_block_size d) (bdev_n_blocks d) s = Ok tt) as Hru.
  { unfold sb_check in Hck. destruct (_ || _) in Hck; [done|]. destruct (sb_rules _ _ _) as [[]|] eqn:Er; [|done].
    by injection Hck as <-. }
  destruct (sb_rules_geom d s Hd Ht Hru) as [g Hg]. pose proof Hd as (_ & Hd40 & _).
  assert (0 <= sb_journal_start s < bdev_n_blocks d) as Hjs.
  { destruct Hg as [G1 [G2 G3] [G4 G5] _ _ _]. pose proof (gm_j _ _ G1). pose proof (gm_backup _ _ G1). pose proof (gm_root _ _ G1). lia. }
  destruct (journal_init_spec m s g sq head r m' R1 R2 R3 ltac:(by rewrite R4, R5) ltac:(lia) ltac:(by rewrite R5, R7) Ei) as [Hok Hgo].
  destruct r as [[]|e]; [|split; [done|split; [intros Hr _; by specialize (Hgo Hr)|done]]].
  destruct (Hok eq_refl) as (d' & Em & Hgm & Hc & Hv & Hdn). unfold st_mod. cbn beta iota.
  split; [intros _|split; [done|intros _; by rewrite Em]].
  assert (cache_frame m' (set_mounted true m')) as Hf by (by split_and!). split; try done.
  - exact (cache_inv_frame _ _ Hf Hc).
  - apply (cache_empty_frame _ _ Hf). rewrite Em. exact R2.
  - rewrite Em. exact R6.
  - rewrite Em. exact R3.
  - transitivity (dev_n m'); [done|]. congruence.
  - rewrite Em. exact R5.
  - by rewrite Em.
  - destruct Hgm. by split.
  - intros b Hb. rewrite (view_frame _ _ b Hf). assert (in_dev m b) as Hbm by (unfold in_dev; by rewrite R4).
    destruct (Hv b Hbm) as [-> Hcc]. rewrite R7 by done. split; [done|]. change (content (set_mounted true m') b) with (content m' b).
    by rewrite Hcc, R7.
Qed.

(** ** A freshly made volume mounts *)

Lemma fill_superblock_rules k d g opts name free c :
  dev_dims d -> CARAFS_MIN_BLOCK_LOG2 <= k <= CARAFS_MAX_BLOCK_LOG2 -> Z.of_nat (bdev_block_size d) = 2 ^ k ->
  carafs_geometry (Z.of_nat (bdev_block_size d)) (bdev_n_blocks d) = Ok g ->
  sb_rules (bdev_block_size d) (bdev_n_blocks d) (sb_set_crc (fill_superblock g opts name free) c) = Ok tt.
Proof.
  intros (_ & Hn & _) Hk Hb Eg. destruct (geometry_geom_ok k _ _ g Hk Hb Hn Eg) as [Hg Ht].
  unfold sb_rules. cbn [sb_set_crc fill_superblock sb_version sb_incompat sb_block_size_log2 sb_total_blocks sb_journal_start
    sb_journal_blocks sb_ag_first_block sb_ag_size_blocks sb_ag_count sb_backup_sb sb_root_cnode].
  rewrite (log2_loop_pow2 k _ Hk (eq_trans (proj1 (gm_bs _ _ Hg)) Hb)). unfold CARAFS_MIN_BLOCK_LOG2, CARAFS_MAX_BLOCK_LOG2 in Hk.
  rewrite Z.mod_small, Z.shiftl_1_l, <- Hb, !Z.eqb_refl, Ht, Z.ltb_irrefl, Eg by lia. cbn [negb orb].
  rewrite !Z.eqb_refl. cbn [negb orb]. pose proof (gm_root _ _ Hg).
  rewrite (proj2 (Z.ltb_ge _ _)), (proj2 (Z.leb_gt _ _)) by lia. done.
Qed.

Lemma formatted_groups c0 bs g s c now d m :
  geom_ok bs g -> formatted c0 bs g s now d -> mounted_clean (bdev_content d) (bdev_n_blocks d) bs (sb_set_crc s c) 1 1 m ->
  sb_ag_first_block s = g_ag_first g -> sb_ag_size_blocks s = g_ag_size g -> sb_ag_count s = g_ag_count g ->
  sb_backup_sb s = g_backup_sb g ->
  groups_ok m /\ forall b, g_ag_first g <= b < g_backup_sb g ->
    allocated m b = ((b - g_ag_first g) mod g_ag_size g =? 0) || (b =? g_root_cnode g).
Proof.
  intros Hg Hf Hm E1 E2 E3 E4. pose proof (mc_sb _ _ _ _ _ _ _ Hm) as Es.
  pose proof (gm_size _ _ Hg) as G4. pose proof (gm_count _ _ Hg) as G5. pose proof (gm_tile _ _ Hg) as G6.
  pose proof (gm_bs _ _ Hg) as G1. pose proof (gm_j _ _ Hg) as G2. pose proof (gm_backup _ _ Hg) as G3.
  pose proof (fm_n _ _ _ _ _ _ Hf) as Hn. pose proof (mc_n _ _ _ _ _ _ _ Hm) as Hdn.
  assert (forall ag, ag_start m ag = group_start g ag) as Eag by (intros; unfold ag_start, group_start; rewrite Es; simpl; congruence).
  assert (forall ag, 0 <= ag < g_ag_count g -> view m (group_start g ag) = bdev_content d (group_start g ag)) as Hv.
  { intros ag Ha. apply (mc_view _ _ _ _ _ _ _ Hm). pose proof (group_start_in bs g ag Hg Ha). lia. }
  assert (groups_ok m) as Hgo.
  { split; rewrite ?Es, ?Hdn, ?(mc_bs _ _ _ _ _ _ _ Hm), ?Eag; cbn [sb_set_crc sb_ag_first_block sb_ag_size_blocks sb_ag_count sb_backup_sb];
      rewrite ?E1, ?E2, ?E3, ?E4; try lia.
    - intros ag Ha. rewrite Eag. by apply (group_start_in bs).
    - unfold group_start. lia.
    - intros ag Ha. rewrite Eag, Hv by done. by apply (fm_ag _ _ _ _ _ _ Hf).
    - intros ag j Ha Hj Hb. rewrite Eag in *. rewrite Hv by done. rewrite (fm_bits _ _ _ _ _ _ Hf) by done.
      rewrite (proj2 (Z.leb_le _ _) Hb). apply orb_true_r. }
  split; [done|]. intros b Hb. destruct (ag_of m b Hgo) as (ag & j & -> & Ha & Hj).
  { rewrite Es. cbn [sb_set_crc sb_ag_first_block sb_backup_sb]. by rewrite E1, E4. }
  rewrite Es in Ha, Hj. cbn [sb_set_crc sb_ag_count sb_ag_size_blocks] in Ha, Hj. rewrite E3 in Ha. rewrite E2 in Hj.
  rewrite allocated_at by (rewrite Es; simpl; lia). rewrite Eag in *. rewrite Hv, (fm_bits _ _ _ _ _ _ Hf) by done.
  rewrite (proj2 (Z.leb_gt _ _)), orb_false_r by lia. f_equal. unfold group_start.
  replace (g_ag_first g + ag * g_ag_size g + j - g_ag_first g) with (j + ag * g_ag_size g) by lia.
  by rewrite Z.mod_add, Z.mod_small by lia.
Qed.

Lemma mkfs_mount_spec opts sc d d' mopts :
  dev_reliable (D := D) -> bdev_wf d -> 0 < bdev_n_blocks d <= 2 ^ 40 -> opts_ok opts ->
  Carafs_Mkfs opts sc d = (Ok tt, d') -> mount_args_ok mopts -> arena_enough d mopts ->
  exists m g name free c, Carafs_Mount d' mopts = (Ok tt, m) /\
    carafs_geometry (Z.of_nat (bdev_block_size d)) (bdev_n_blocks d) = Ok g /\ geom_ok (bdev_block_size d) g /\
    let s := fill_superblock g opts name free in
    formatted (bdev_content d) (bdev_block_size d) g s (mo_now_ns opts) d' /\ dev_dims d' /\
    sb_wf s /\ bytes_ok (sb_to_bytes s) /\ in_u32 c /\
    sb_rules (bdev_block_size d) (bdev_n_blocks d) (sb_set_crc s c) = Ok tt /\
    mounted_clean (bdev_content d') (bdev_n_blocks d') (bdev_block_size d) (sb_set_crc s c) 1 1 m /\
    m_readonly m = mt_readonly mopts.
Proof.
  intros Hrel Hw Hn Ho E Hma Hen.
  assert (0 <= bdev_n_blocks d <= 2 ^ 40) as Hn40 by lia.
  destruct (mkfs_spec opts sc d _ d' Hw Hn40 Ho E) as (Hok & _ & _).
  destruct (Hok eq_refl) as (k & name & g & free & (_ & Hk & Hb & _ & En & Hl & _ & Eg) & Hf).
  destruct (geometry_geom_ok k _ (bdev_n_blocks d) g Hk Hb Hn40 Eg) as [Hg Ht].
  pose proof (fm_bs _ _ _ _ _ _ Hf) as Ebs. pose proof (fm_n _ _ _ _ _ _ Hf) as Hn'. rewrite Ht in Hn'.
  assert (dev_dims d') as Hd' by (split_and!; [apply (fm_wf _ _ _ _ _ _ Hf)|lia|lia|exists k; by rewrite Ebs]).
  pose proof (fm_free _ _ _ _ _ _ Hf) as Hfree. cbn [fill_superblock sb_free_blocks] in Hfree.
  assert (in_u64 free) as Hfu.
  { subst free. rewrite <- (Z2Nat.id (g_ag_count g)) by (pose proof (gm_count _ _ Hg); lia).
    assert (forall n ag, 0 <= ag -> ag + Z.of_nat n <= g_ag_count g ->
      0 <= sumZ (map (fun ag0 => free_bits (bdev_content d' (group_start g ag0)) (g_ag_size g)) (seqZ ag (Z.of_nat n))) <= Z.of_nat n * 2 ^ 20) as Hs.
    { induction n as [|n IH]; intros ag Ha Hn2; [simpl; lia|]. rewrite Nat2Z.inj_succ, seqZ_cons by lia. rewrite Z.pred_succ.
      cbn [map sumZ foldr]. unfold sumZ in IH. specialize (IH (Z.succ ag) ltac:(lia) ltac:(lia)). pose proof (gm_size _ _ Hg). pose proof (gm_bs _ _ Hg).
      pose proof (free_bits_range (bdev_content d' (group_start g ag)) (g_ag_size g) ltac:(lia)). lia. }
    specialize (Hs (Z.to_nat (g_ag_count g)) 0 ltac:(lia) ltac:(pose proof (gm_count _ _ Hg); lia)). pose proof (gm_count _ _ Hg). unfold in_u64. lia. }
  destruct (fill_superblock_wf k _ g opts name free Hg Hk Hb Ho En ltac:(lia) Hfu) as [W1 W2].
  set (s := fill_superblock g opts name free) in *. pose proof (gm_bs _ _ Hg) as G1.
  destruct (sb_serialize_spec (bdev_block_size d) s (zeros (bdev_block_size d)) W1 W2 (length_zeros _) ltac:(lia) (zeros_bytes_ok _)) as (_ & _ & B3 & c & Hcu & B4).
  assert (sb_rules (bdev_block_size d) (bdev_n_blocks d) (sb_set_crc s c) = Ok tt) as Hru.
  { rewrite Hn', <- Ebs. unfold s. apply (fill_superblock_rules k d' g); try done; by rewrite Ebs, <- ?Hn'. }
  assert (sb_check (bdev_block_size d') (bdev_n_blocks d') (bdev_content d' 0) = Ok (sb_set_crc s c)) as Hck.
  { unfold sb_check. rewrite (fm_sb _ _ _ _ _ _ Hf), Ebs. unfold sb_image. rewrite B4, B3, bool_decide_true by done. cbn [negb orb].
    rewrite Hn' in Hru. by rewrite Hru. }
  pose proof (mount_clean_spec d' mopts (sb_set_crc s c) 1 1 Hd' ltac:(lia) Hma ltac:(cbn; lia) Hck ltac:(done)) as Hms.
  destruct (Carafs_Mount d' mopts) as [r m] eqn:Em. destruct Hms as (M1 & M2 & M3).
  { cbn [sb_set_crc s fill_superblock sb_journal_blocks sb_journal_start]. rewrite (fm_jsb _ _ _ _ _ _ Hf), Ebs. pose proof (gm_j _ _ Hg).
    apply (jsb_fields_image _ (g_journal_blocks g - 1) 1 1); try lia. done. }
  assert (r = Ok tt) as -> by (apply M2; [done|unfold arena_enough in *; by rewrite Ebs]). specialize (M1 eq_refl). rewrite Ebs in M1.
  exists m, g, name, free, c. split_and!; try done. rewrite (M3 eq_refl). cbn. by rewrite orb_false_r.
Qed.

(** C13: A volume made by [Carafs_Mkfs] mounts: on a device that does not fail and with an arena of
    at least the minimal size, [Carafs_Mount] accepts it; the mounted volume is clean with an empty
    log, its allocation groups are well formed, the allocated blocks are exactly the bitmap blocks
    and the root cnode, and the advertised free count is the number of free bits. *)
Theorem mkfs_mount_roundtrip opts sc d d' mopts :
  dev_reliable (D := D) -> bdev_wf d -> 0 < bdev_n_blocks d <= 2 ^ 40 -> opts_ok opts ->
  Carafs_Mkfs opts sc d = (Ok tt, d') -> mount_args_ok mopts -> arena_enough d mopts ->
  exists m g, Carafs_Mount d' mopts = (Ok tt, m) /\ cache_inv m /\ pins_ok m /\ groups_ok m /\
    sb_state (m_sb m) = CARAFS_STATE_CLEAN /\ j_used m = 0 /\
    carafs_geometry (Z.of_nat (bdev_block_size d)) (bdev_n_blocks d) = Ok g /\
    (forall b, g_ag_first g <= b < g_backup_sb g ->
       allocated m b = ((b - g_ag_first g) mod g_ag_size g =? 0) || (b =? g_root_cnode g)) /\
    view m (g_root_cnode g) = root_cnode_image g (bdev_block_size d) (mo_now_ns opts) /\
    sb_free_blocks (m_sb m) = sumZ (map (fun ag => free_bits (view m (ag_start m ag)) (g_ag_size g)) (seqZ 0 (g_ag_count g))).
Proof.
  intros Hrel Hw Hn Ho E Hma Hen.
  destruct (mkfs_mount_spec opts sc d d' mopts Hrel Hw Hn Ho E Hma Hen) as (m & g & name & free & c & Em & Eg & Hg & Hf & Hd' & _ & _ & _ & _ & M1 & _).
  set (s := fill_superblock g opts name free) in *. pose proof (fm_n _ _ _ _ _ _ Hf) as Hn'.
  pose proof (fm_free _ _ _ _ _ _ Hf) as Hfree.
  destruct (formatted_groups _ _ g s c (mo_now_ns opts) d' m Hg Hf M1) as [Hgo Hal]; try done.
  pose proof (mc_view _ _ _ _ _ _ _ M1) as Hv. pose proof (gm_root _ _ Hg) as Hr. pose proof (gm_backup _ _ Hg) as Hbk. pose proof (gm_j _ _ Hg) as Hj.
  exists m, g. split_and!; try done.
  - apply (mc_inv _ _ _ _ _ _ _ M1).
  - apply cache_empty_pins; [apply (mc_inv _ _ _ _ _ _ _ M1)|apply (mc_empty _ _ _ _ _ _ _ M1)].
  - by rewrite (mc_sb _ _ _ _ _ _ _ M1).
  - unfold j_used. rewrite (mc_j _ _ _ _ _ _ _ M1). done.
  - destruct (Hv (g_root_cnode g) ltac:(lia)) as [-> _]. apply (fm_root _ _ _ _ _ _ Hf).
  - rewrite (mc_sb _ _ _ _ _ _ _ M1). cbn [sb_set_crc s fill_superblock sb_free_blocks]. cbn [s fill_superblock sb_free_blocks] in Hfree. rewrite Hfree at 1. f_equal. apply map_ext_in.
    intros ag Ha%list_elem_of_In%elem_of_seqZ. assert (ag_start m ag = group_start g ag) as ->.
    { unfold ag_start, group_start. rewrite (mc_sb _ _ _ _ _ _ _ M1). done. }
    pose proof (group_start_in _ g ag Hg ltac:(lia)). destruct (Hv (group_start g ag) ltac:(lia)) as [-> _]. done.
Qed.

(** ** Checkpoint and unmount *)

Lemma sync_ents_ok n i m : dev_reliable (D := D) -> cache_inv m -> 0 <= i -> i + Z.of_nat n <= n_ents m ->
  is_ok (fst (sync_ents n i m)) = true.
Proof.
  intros Hrel. revert i m. induction n as [|n IH]; intros i m Hc Hi Hn; [done|]. simpl. st_simp. rewrite st_bind_eq.
  assert (valid_idx m i) as Hv by (unfold valid_idx; lia).
  destruct (negb (e_block (ent m i) =? CARAFS_BLOCK_NONE) && e_dirty (ent m i)) eqn:Ed; [|apply IH; auto; lia].
  zbool. destruct (ent_writeback i m) as [r m1] eqn:Ew.
  destruct (ent_writeback_spec m i r m1 Hc Hv ltac:(done) ltac:(done) Ew) as (Hk & _).
  destruct r as [[]|e]; [apply IH; [apply (vk_inv _ _ Hk)|lia|rewrite (vk_len _ _ Hk); lia]|].
  unfold ent_writeback in Ew. st_simp_in Ew. rewrite st_bind_eq in Ew. unfold dev_write in Ew.
  destruct (Hrel (m_bdev m) (ci_dev m Hc)) as (_ & Hwr & _). destruct (ci_ent m Hc i Hv) as [H1 _ _ H4 _ _].
  specialize (Hwr (e_block (ent m i)) (e_data (ent m i)) (H4 ltac:(done)) ltac:(rewrite H1; apply (ci_bs m Hc))).
  destruct (bdev_write _ _ _) as [rw d]. simpl in Hwr. by subst rw.
Qed.

Lemma cache_sync_clean m r m' : cache_inv m -> carafs_cache_sync m = (r, m') ->
  (r = Ok tt -> all_clean m') /\ (dev_reliable (D := D) -> r = Ok tt).
Proof.
  intros Hc E. unfold carafs_cache_sync in E. st_simp_in E. rewrite st_bind_eq in E.
  pose proof (sync_ents_ok (length (m_ents m)) 0 m) as Hp. destruct (sync_ents _ 0 m) as [rs m1] eqn:Es.
  destruct (sync_ents_spec (length (m_ents m)) 0 m rs m1 Hc (Z.le_refl 0) ltac:(unfold n_ents; lia) Es) as (Hk & Hent & Hok).
  destruct rs as [[]|e].
  2:{ injection E as <- <-. split; [done|]. intros Hrel. specialize (Hp Hrel Hc ltac:(lia) ltac:(unfold n_ents; lia)). done. }
  destruct (flush_settled m1 r m' (vk_inv _ _ Hk) E) as (Hk2 & _ & He). split.
  - intros _ j Hj Hx. assert (valid_idx m j) as Hjm.
    { unfold valid_idx in *. by rewrite <- (vk_len _ _ Hk), <- (vk_len _ _ Hk2). }
    unfold indexed in Hx. rewrite He in Hx |- *. apply (Hok eq_refl j); [unfold valid_idx, n_ents in Hjm; lia|].
    unfold indexed. by destruct (Hent j Hjm) as [E1|E1]; rewrite E1 in Hx.
  - intros Hrel. unfold dev_flush in E. destruct (Hrel (m_bdev m1) (ci_dev _ (vk_inv _ _ Hk))) as (_ & _ & Hf).
    destruct (bdev_flush _) as [rf d]. simpl in Hf. subst rf. by injection E.
Qed.

(** The journal state a running mount keeps. *)
Record j_live m : Prop := {
  jl_ok : wal_ok m;
  jl_bs : (512 <= m_block_size m)%nat;
  jl_log : j_log_blocks (m_j m) = sb_journal_blocks (m_sb m) - 1;
  jl_tail : 1 <= j_tail (m_j m) <= j_log_blocks (m_j m);
  jl_seq : in_u64 (j_next_seq (m_j m))
}.
Abbreviation JS m := (sb_journal_start (m_sb m)).

(** After a checkpoint every block is home and the log on the device is empty. *)
Record checkpointed m m' : Prop := {
  cp_inv : cache_inv m';
  cp_clean : all_clean m';
  cp_view b : in_dev m b -> b <> JS m -> view m' b = view m b;
  cp_jsb : content m' (JS m) = jsb_image (m_block_size m) (j_next_seq (m_j m)) (j_tail (m_j m));
  cp_j : m_j m' = mkJ (j_log_blocks (m_j m)) (j_tail (m_j m)) (j_next_seq (m_j m)) (j_tail (m_j m)) (j_next_seq (m_j m));
  cp_frame : m_sb m' = m_sb m /\ m_block_size m' = m_block_size m /\ dev_n m' = dev_n m /\ n_ents m' = n_ents m;
  cp_pins j : valid_idx m j -> e_pins (ent m' j) = e_pins (ent m j) /\ e_block (ent m' j) = e_block (ent m j) /\ e_txn (ent m' j) = e_txn (ent m j)
}.

Lemma checkpoint_spec m r m' : j_live m -> carafs_journal_checkpoint m = (r, m') ->
  (r = Ok tt -> checkpointed m m') /\ (dev_reliable (D := D) -> r = Ok tt).
Proof.
  intros [[Hc Hg Hnl] Hbs _ Ht Hsq] E. unfold carafs_journal_checkpoint in E. rewrite st_bind_eq in E.
  destruct (carafs_cache_sync m) as [rs m1] eqn:Es. destruct (cache_sync_spec m rs m1 Hc Es) as (Hk & Hent & _).
  destruct (cache_sync_clean m rs m1 Hc Es) as [Hcl Hp].
  destruct rs as [[]|e]; [|injection E as <- <-; split; [done|intros Hr; by specialize (Hp Hr)]]. specialize (Hcl eq_refl).
  rewrite st_bind_eq in E. unfold st_mod in E. cbn beta iota in E. set (m2 := set_j _ m1) in *.
  pose proof (vk_sb _ _ Hk) as Es1. pose proof (vk_j _ _ Hk) as Ej1. pose proof (vk_bs _ _ Hk) as Eb1. pose proof (vk_dev _ _ Hk) as Ed1.
  pose proof (vk_inv _ _ Hk) as Hc1. assert (cache_frame m1 m2) as Hf by (by split_and!).
  assert (m_j m2 = mkJ (j_log_blocks (m_j m)) (j_tail (m_j m)) (j_next_seq (m_j m)) (j_tail (m_j m)) (j_next_seq (m_j m))) as Ej2
    by (unfold m2; cbn [set_j m_j]; unfold j_drop_log; by rewrite Ej1).
  assert (j_geom m2) as Hg2.
  { destruct Hg. split; rewrite ?Ej2; cbn [j_log_blocks]; change (dev_n m2) with (dev_n m1); change (m_sb m2) with (m_sb m1);
      change (m_bdev m2) with (m_bdev m1); change (m_block_size m2) with (m_block_size m1); rewrite ?Es1, ?Ed1; try done;
      [apply (ci_dev m1 Hc1)|apply (ci_bs m1 Hc1)]. }
  assert (m_sb m2 = m_sb m) as Es2 by exact Es1. assert (m_block_size m2 = m_block_size m) as Eb2 by exact Eb1.
  destruct (jsb_write_spec m2 r m') as (Hs & Hok & Hgo); rewrite ?Ej2, ?Eb2; try done.
  rewrite Es2, Ej2, Eb2 in Hok. rewrite Es2 in Hs. cbn [j_head_seq j_head] in Hok.
  assert (cache_inv m2) as Hc2 by (exact (cache_inv_frame _ _ Hf Hc1)).
  assert (forall j, valid_idx m j -> e_block (ent m1 j) <> JS m) as Hnj.
  { intros j Hj Ej. apply (Hnl j Hj). assert (e_block (ent m j) = JS m) as ->; [|unfold in_log; destruct Hg; lia].
    by destruct (Hent j Hj) as [E1|E1]; rewrite E1 in Ej. }
  destruct Hs as (d & -> & Hd & Hdn & Hdb & Hdc).
  assert (forall j, ent (set_bdev d m2) j = ent m1 j) as Ee by done.
  assert (forall j, valid_idx m2 j -> valid_idx m j) as Hvv by (intros j; unfold valid_idx; change (n_ents m2) with (n_ents m1); by rewrite (vk_len _ _ Hk)).
  assert (cache_inv (set_bdev d m2)) as Hc3.
  { apply (cache_inv_transfer m2); try done; simpl; [rewrite Hdb; apply (ci_bs m2 Hc2)|].
    intros j Hj. rewrite Ee. destruct (ci_ent m2 Hc2 j Hj) as [H1 H2 H3 H4 H5 H6]. split; try done; simpl.
    - intros Hne. rewrite Hdn. by apply H4.
    - intros Hne Hcl'. rewrite Hdc; [by apply H5|]. rewrite list_elem_of_singleton. by apply Hnj, Hvv. }
  split; [|intros Hr; specialize (Hgo Hr); by destruct r as [[]|]]. intros ->. split; try done.
  - intros b Hb Hne. rewrite <- (vk_view _ _ Hk b Hb), <- (view_frame m1 m2 b Hf).
    apply view_same; auto; [by apply (in_dev_not_none m)|]. intros _. simpl. apply Hdc. by rewrite list_elem_of_singleton.
  - by apply Hok.
  - split_and!; try done; [by rewrite <- Ed1|apply (vk_len _ _ Hk)].
  - intros j Hj. rewrite Ee. by destruct (Hent j Hj) as [->| ->].
Qed.

(** The in-memory superblock of a mounted volume: as [Carafs_Mount] accepted it. *)
Record sb_live m : Prop := {
  sl_magic : sb_magic (m_sb m) = CARAFS_SB_MAGIC;
  sl_rules : sb_rules (m_block_size m) (dev_n m) (m_sb m) = Ok tt;
  sl_wf : sb_wf (m_sb m);
  sl_bytes : bytes_ok (sb_to_bytes (m_sb m))
}.

(** The superblock [Carafs_Unmount] leaves on the device. *)
Definition sb_unmounted (s : superblock) (now : Z) : superblock :=
  let s := sb_set_state s CARAFS_STATE_CLEAN in if negb (now =? 0) then sb_set_modified_ns s now else s.

Lemma sb_unmounted_wf s now : sb_wf s -> bytes_ok (sb_to_bytes s) -> in_u64 now ->
  sb_wf (sb_unmounted s now) /\ bytes_ok (sb_to_bytes (sb_unmounted s now)).
Proof.
  intros [H1 H2 H3 H4 H5 H6] Hb Hn. unfold sb_unmounted.
  assert (bytes_ok (sb_magic s) /\ bytes_ok (sb_uuid s) /\ bytes_ok (sb_name s)) as (B1 & B2 & B3).
  { unfold sb_to_bytes in Hb. unfold bytes_ok in *. rewrite !Forall_app in Hb. tauto. }
  rewrite !Forall_cons in H5. rewrite !Forall_cons in H6.
  split; [|case_match; apply sb_to_bytes_ok; done].
  case_match; split; try done; cbn; rewrite !Forall_cons; unfold in_u32, in_u64, CARAFS_STATE_CLEAN in *; tauto || (split_and!; try tauto; lia).
Qed.

(** What [Carafs_Unmount] leaves on the device. *)
Record unmounted m now m' : Prop := {
  um_wf : bdev_wf (m_bdev m');
  um_dims : dev_n m' = dev_n m /\ bdev_block_size (m_bdev m') = m_block_size m;
  um_flag : m_mounted m' = false;
  um_sb : sb_on (m_block_size m) (sb_unmounted (m_sb m) now) (content m' 0);
  um_jsb : content m' (JS m) = jsb_image (m_block_size m) (j_next_seq (m_j m)) (j_tail (m_j m));
  um_content b : in_dev m b -> b <> 0 -> b <> JS m -> content m' b = view m b
}.

Lemma unmount_spec m now r m' :
  j_live m -> sb_live m -> in_dev m 0 -> JS m <> 0 -> pins_ok m -> in_u64 now -> sb_state (m_sb m) = CARAFS_STATE_DIRTY ->
  m_mounted m = true -> m_readonly m = false -> Carafs_Unmount now m = (r, m') ->
  (r = Ok tt -> unmounted m now m') /\
  (dev_reliable (D := D) -> (exists i, valid_idx m i /\ evictable (ent m i)) -> r = Ok tt).
Proof.
  intros Hl [S1 S2 S3 S4] H0 HJ Hp Hnow Hst Hmt Hro E. unfold Carafs_Unmount in E. st_simp_in E. rewrite Hmt, Hro, st_bind_eq in E.
  destruct (carafs_journal_checkpoint m) as [rc m1] eqn:Ec. destruct (checkpoint_spec m rc m1 Hl Ec) as [C1 C2].
  destruct rc as [[]|e]; [|injection E as <- <-; split; [done|intros Hr _; by specialize (C2 Hr)]].
  destruct (C1 eq_refl) as [P1 P2 P3 P4 P5 (P6 & P7 & P8 & P9) P10]. st_simp_in E. rewrite P6, Hst, Z.eqb_refl in E. st_simp_in E.
  set (m2 := if negb (now =? 0) then _ else _) in E. rewrite st_bind_eq in E.
  assert (cache_frame m1 m2 /\ m_sb m2 = sb_unmounted (m_sb m) now) as [Hf Es2].
  { unfold m2, sb_unmounted, cache_frame. destruct (negb (now =? 0)); (split; [repeat split|simpl; by rewrite P6]). }
  clearbody m2. destruct (sb_unmounted_wf _ now S3 S4 Hnow) as [W1 W2].
  pose proof (cache_inv_frame _ _ Hf P1) as Hc2. pose proof Hf as (F1 & _ & _ & _ & F5 & F6).
  assert (n_ents m2 = n_ents m) as En2 by (unfold n_ents in *; by rewrite F1).
  assert (forall j, ent m2 j = ent m1 j) as Ee by (intros; unfold ent; by rewrite F1).
  assert (dev_n m2 = dev_n m) as Ed2 by (unfold dev_n in *; by rewrite F5).
  assert (m_block_size m2 = m_block_size m) as Eb2 by congruence.
  assert (pins_ok m2) as Hp2.
  { intros j Hj. rewrite Ee. assert (valid_idx m j) as Hjm by (unfold valid_idx in *; by rewrite <- En2). destruct (P10 j Hjm) as [-> _]. by apply Hp. }
  assert (sb_fit m2) as Hfit.
  { split; rewrite ?Es2, ?Eb2; try done; [pose proof (jl_bs m Hl); lia|]. unfold in_dev. by rewrite Ed2. }
  destruct (sb_write_direct m2) as [rd m3] eqn:Ew. destruct (sb_write_direct_spec m2 rd m3 Hc2 Hp2 Hfit Ew) as [D1 D2].
  assert (all_clean m2) as Hcl2.
  { intros j Hj Hx. rewrite Ee. unfold indexed in Hx. rewrite Ee in Hx. apply P2; [|done]. unfold valid_idx, n_ents in *. by rewrite <- F1. }
  destruct rd as [[]|e].
  2:{ injection E as <- <-. split; [done|]. intros Hr (i & Hi & Hev). apply D2; [|done]. left. exists i.
      assert (valid_idx m2 i) as Hi2 by (unfold valid_idx in *; by rewrite En2). split; [done|]. rewrite Ee.
      destruct (P10 i Hi) as (Q1 & Q2 & Q3). unfold evictable in *. by rewrite Q1, Q2, Q3. }
  unfold st_mod in E. injection E as <- <-. split; [|done]. intros _.
  destruct (D1 eq_refl) as (blk & Hon & Hc0 & [H1 H2 _ (H4 & H5 & H6 & _)] & Hcl). rewrite Eb2, Es2 in Hon.
  assert (forall b, in_dev m b -> content m3 b = if b =? 0 then blk else view m1 b) as Hcb.
  { intros b Hb. assert (in_dev m2 b) as Hb2 by (unfold in_dev in *; by rewrite Ed2).
    rewrite (all_clean_settled m3 b H1 (Hcl Hcl2)) by (unfold in_dev in *; by rewrite H5, Ed2). rewrite (H2 b Hb2).
    destruct (b =? 0); [done|]. apply (view_frame _ _ b Hf). }
  split; cbn [set_mounted m_bdev m_mounted]; try done.
  - apply (ci_dev m3 H1).
  - split; [exact (eq_trans H5 Ed2)|]. rewrite <- (ci_bs m3 H1). congruence.
  - by rewrite Hc0.
  - assert (in_dev m (JS m)) as HJd by (pose proof (wo_geom m (jl_ok m Hl)) as []; unfold in_dev; lia).
    rewrite (Hcb _ HJd), (proj2 (Z.eqb_neq _ _) HJ), <- P4. symmetry. apply all_clean_settled; [done..|]. unfold in_dev in *. by rewrite P8.
  - intros b Hb Hb0 HbJ. rewrite (Hcb b Hb), (proj2 (Z.eqb_neq _ _) Hb0). by apply P3.
Qed.

(** C12: Unmounting loses nothing. Unmounting a volume that was written to succeeds on a device that
    does not fail, and leaves a volume that mounts without replay: every block outside the
    superblock and the journal superblock shows what it showed before, the superblock is the
    one in memory marked clean, and the log is empty and goes on with the same sequence number. *)
Theorem unmount_mount_roundtrip m now mopts :
  dev_reliable (D := D) -> dev_dims (m_bdev m) -> j_live m -> sb_live m -> in_dev m 0 -> pins_ok m -> in_u64 now ->
  (exists i, valid_idx m i /\ evictable (ent m i)) -> sb_state (m_sb m) = CARAFS_STATE_DIRTY ->
  m_mounted m = true -> m_readonly m = false -> mount_args_ok mopts -> arena_enough (m_bdev m) mopts ->
  exists m1 m2 c, Carafs_Unmount now m = (Ok tt, m1) /\ m_mounted m1 = false /\
    Carafs_Mount (m_bdev m1) mopts = (Ok tt, m2) /\ cache_inv m2 /\ m_mounted m2 = true /\
    m_sb m2 = sb_set_crc (sb_unmounted (m_sb m) now) c /\
    j_used m2 = 0 /\ j_next_seq (m_j m2) = j_next_seq (m_j m) /\
    forall b, in_dev m b -> b <> 0 -> b <> JS m -> view m2 b = view m b.
Proof.
  intros Hrel Hd Hl Hs H0 Hp Hnow Hev Hst Hmt Hro Hma Hen.
  pose proof (jl_ok m Hl) as [Hc Hg _]. pose proof (ci_bs m Hc) as Hbs. pose proof Hs as [S1 S2 S3 S4].
  rewrite Hbs in S2. change (dev_n m) with (bdev_n_blocks (m_bdev m)) in S2.
  assert (0 <= sb_total_blocks (m_sb m)) as Htot by (pose proof (sw_u64 _ S3) as H; rewrite !Forall_cons in H; unfold in_u64 in H; lia).
  destruct (sb_rules_geom (m_bdev m) (m_sb m) Hd Htot S2) as [g Hgeo]. pose proof (sg_j _ _ _ _ Hgeo) as [J1 J2].
  pose proof (gm_j _ _ (sg_geom _ _ _ _ Hgeo)) as (J3 & J4 & J5).
  destruct (Carafs_Unmount now m) as [r m1] eqn:Eu.
  destruct (unmount_spec m now r m1 Hl Hs H0 ltac:(lia) Hp Hnow Hst Hmt Hro Eu) as [U1 U2].
  assert (r = Ok tt) as -> by (by apply U2). destruct (U1 eq_refl) as [V1 [V2 V2'] V3 [_ _ B3 (c & _ & B4)] V5 V6].
  assert (dev_dims (m_bdev m1)) as Hd1.
  { destruct Hd as (_ & Hn & k & Hk & Hkb). split; [done|]. unfold dev_n in V2. rewrite V2. split; [done|]. exists k. by rewrite V2', Hbs. }
  set (s := sb_set_crc (sb_unmounted (m_sb m) now) c) in *.
  assert (sb_journal_blocks s = sb_journal_blocks (m_sb m) /\ sb_journal_start s = JS m /\ sb_total_blocks s = sb_total_blocks (m_sb m) /\
    sb_state s = CARAFS_STATE_CLEAN /\ sb_magic s = CARAFS_SB_MAGIC) as (E1 & E2 & E3 & E4 & E5).
  { unfold s, sb_unmounted. by case_match. }
  assert (sb_check (bdev_block_size (m_bdev m1)) (bdev_n_blocks (m_bdev m1)) (content m1 0) = Ok s) as Hck.
  { unfold sb_check. rewrite V2', B4, B3, bool_decide_true by done. cbn [negb orb]. unfold dev_n in V2. rewrite V2.
    assert (sb_rules (m_block_size m) (bdev_n_blocks (m_bdev m)) s = Ok tt) as ->; [|done].
    rewrite Hbs, <- S2. unfold s, sb_unmounted. apply sb_geom_rules; by case_match. }
  assert (0 < bdev_n_blocks (m_bdev m1)) as Hn1 by (unfold dev_n in V2; rewrite V2; apply H0).
  pose proof (mount_clean_spec (m_bdev m1) mopts s (j_next_seq (m_j m)) (j_tail (m_j m)) Hd1 Hn1 Hma ltac:(lia) Hck ltac:(by rewrite E4)) as Hms.
  destruct (Carafs_Mount (m_bdev m1) mopts) as [r2 m2] eqn:Em2. destruct Hms as (M1 & M2 & _).
  { rewrite E1, E2, V5, V2'. pose proof (dev_dims_bs _ Hd) as Hb512. rewrite <- Hbs in Hb512.
    pose proof (jl_tail m Hl) as Ht. pose proof (jg_log m Hg) as Hlg.
    assert (j_log_blocks (m_j m) = sb_journal_blocks (m_sb m) - 1) as El by (apply (jl_log m Hl)).
    destruct (jsb_fields_image (m_block_size m) (sb_journal_blocks (m_sb m) - 1) (j_next_seq (m_j m)) (j_tail (m_j m))) as [Hj _];
      [lia|apply (jl_seq m Hl)|lia|lia|exact Hj]. }
  assert (r2 = Ok tt) as -> by (apply M2; [done|unfold arena_enough in *; by rewrite V2', Hbs]). specialize (M1 eq_refl).
  exists m1, m2, c. split_and!; try done.
  - apply (mc_inv _ _ _ _ _ _ _ M1).
  - apply (mc_mounted _ _ _ _ _ _ _ M1).
  - apply (mc_sb _ _ _ _ _ _ _ M1).
  - unfold j_used. rewrite (mc_j _ _ _ _ _ _ _ M1). cbn [j_tail j_head]. rewrite Z.leb_refl. by rewrite Z.sub_diag.
  - by rewrite (mc_j _ _ _ _ _ _ _ M1).
  - intros b Hb Hb0 HbJ. destruct (mc_view _ _ _ _ _ _ _ M1 b) as [-> _]; [unfold dev_n in V2; rewrite V2; apply Hb|]. by apply V6.
Qed.

(** ** The operation bracket *)

(** The first write of a mount marks the volume dirty before anything else reaches the disk:
    when [carafs_op_begin] returns 0 on a clean volume, block 0 of the device holds the sealed
    superblock with the DIRTY state, no other block's contents changed, and an empty transaction
    is open with the superblock snapshotted for a rollback. An unmounted or read-only volume is
    refused with nothing changed; on a device that does not fail the call succeeds. *)
Theorem op_begin_marks_dirty m r m' :
  cache_inv m -> pins_ok m -> sb_live m -> in_dev m 0 -> (512 <= m_block_size m)%nat ->
  sb_state (m_sb m) <> CARAFS_STATE_DIRTY -> carafs_op_begin m = (r, m') ->
  (m_mounted m && negb (m_readonly m) = false -> r = Err CARA_EINVAL /\ m' = m) /\
  (r = Ok tt -> sb_on (m_block_size m) (sb_set_state (m_sb m) CARAFS_STATE_DIRTY) (content m' 0) /\
     m_sb m' = sb_set_state (m_sb m) CARAFS_STATE_DIRTY /\ m_sb_at_txn m' = m_sb m' /\
     m_in_txn m' = true /\ m_txn_blocks m' = [] /\ cache_inv m' /\ pins_ok m' /\
     forall b, in_dev m b -> b <> 0 -> view m' b = view m b) /\
  (m_mounted m && negb (m_readonly m) = true -> dev_reliable (D := D) ->
     (exists i, valid_idx m i /\ evictable (ent m i)) -> r = Ok tt).
Proof.
  intros Hc Hp [S1 S2 S3 S4] H0 Hbs Hst E. unfold carafs_op_begin in E. st_simp_in E.
  destruct (m_mounted m && negb (m_readonly m)); [|unfold st_err in E; injection E as <- <-; by split_and!].
  split; [done|]. unfold carafs_mark_dirty in E. st_simp_in E. rewrite (proj2 (Z.eqb_neq _ _) Hst) in E. st_simp_in E.
  set (m1 := set_sb _ m) in E. assert (cache_frame m m1) as Hf by (by split_and!).
  pose proof (cache_inv_frame _ _ Hf Hc) as Hc1.
  assert (sb_fit m1) as Hfit.
  { destruct S3 as [H1 H2 H3 H4 H5 H6]. rewrite !Forall_cons in H5. unfold sb_to_bytes in S4. unfold bytes_ok in S4. rewrite !Forall_app in S4.
    split; [split; try done; cbn; rewrite !Forall_cons; unfold in_u32, CARAFS_STATE_DIRTY in *; split_and!; try tauto; lia| | |done].
    - apply sb_to_bytes_ok; cbn; unfold bytes_ok; tauto.
    - simpl. lia. }
  destruct (sb_write_direct m1) as [rw m2] eqn:Ew. destruct (sb_write_direct_spec m1 rw m2 Hc1 Hp Hfit Ew) as [D1 D2].
  destruct rw as [[]|e].
  2:{ unfold st_lift, st_mod in E. rewrite st_bind_eq in E. cbn beta iota in E. injection E as <- <-. split; [done|].
      intros _ Hrel Hev. by specialize (D2 (or_introl Hev) Hrel). }
  destruct (D1 eq_refl) as (blk & Hon & Hc0 & Hsh & _). pose proof (shows_pins _ _ _ Hsh Hp) as Hp2.
  destruct Hsh as [K1 K2 _ (K3 & K4 & K5 & K6 & K7)].
  unfold st_lift, st_mod in E. rewrite !st_bind_eq in E. cbn beta iota in E. injection E as <- <-. split; [intros _|done].
  set (m3 := carafs_txn_begin _). assert (cache_frame m2 m3) as Hf3 by (by split_and!).
  split_and!; try done.
  - simpl. by rewrite Hc0.
  - exact (cache_inv_frame _ _ Hf3 K1).
  - intros b Hb Hb0. rewrite (view_frame _ _ b Hf3), (K2 b Hb), (proj2 (Z.eqb_neq _ _) Hb0). apply (view_frame _ _ b Hf).
Qed.

(** ** Mounting a volume that was not detached *)

Lemma put_set_sb b s m : carafs_cache_put b (set_sb s m) = set_sb s (carafs_cache_put b m).
Proof.
  unfold carafs_cache_put. rewrite (index_find_frame m (set_sb s m) b) by done.
  change (ent (set_sb s m) (index_find m b)) with (ent m (index_find m b)). by destruct (_ && _).
Qed.

Lemma sb_clean_wf s : sb_wf s -> bytes_ok (sb_to_bytes s) ->
  sb_wf (sb_set_state s CARAFS_STATE_CLEAN) /\ bytes_ok (sb_to_bytes (sb_set_state s CARAFS_STATE_CLEAN)).
Proof. intros H1 H2. by destruct (sb_unmounted_wf s 0 H1 H2 ltac:(unfold in_u64; lia)). Qed.

Lemma sb_reload_spec m r m' :
  cache_inv m -> cache_empty m -> 0 < n_ents m -> in_dev m 0 -> (512 <= m_block_size m)%nat -> sb_reload m = (r, m') ->
  let s := sb_set_state (sb_of_bytes (content m 0)) CARAFS_STATE_CLEAN in
  (r = Ok tt -> cache_inv m' /\ m_sb m' = s /\ m_j m' = m_j m /\ dev_n m' = dev_n m /\ sb_on (m_block_size m) s (content m' 0) /\
     forall b, in_dev m b -> content m' b = view m' b /\ (b <> 0 -> view m' b = content m b)) /\
  (dev_reliable (D := D) -> r = Ok tt).
Proof.
  intros Hc He Hn H0 Hbs E s. unfold sb_reload in E. rewrite st_bind_eq in E.
  pose proof (cache_empty_clean m He) as Hcl. pose proof (cache_empty_pins m Hc He) as Hp.
  destruct (carafs_cache_get 0 CARAFS_GET_READ m) as [rg m1] eqn:Eg.
  pose proof (cache_get_spec m 0 _ rg m1 Hc Hp ltac:(lia) Eg) as Hg. destruct rg as [[i fresh]|e].
  2:{ injection E as <- <-. split; [done|]. intros Hrel. pose proof (cache_get_ok m 0 CARAFS_GET_READ Hrel Hc H0) as Ho. rewrite Eg in Ho.
      specialize (Ho ltac:(right; exists 0; split; [unfold valid_idx; lia|left; apply He; unfold valid_idx; lia])). done. }
  destruct Hg as [_ Hg]. st_simp_in E.
  assert (e_data (ent m1 i) = content m 0) as Ed.
  { rewrite (got_data _ _ _ _ _ _ H0 Hg), (got_view _ _ _ _ _ _ Hg 0 H0), andb_false_r. cbn [andb]. symmetry. by apply all_clean_settled. }
  rewrite Ed, put_set_sb in E. cbn [set_sb m_sb] in E. fold s in E.
  set (m2 := carafs_cache_put 0 m1) in *. change (set_sb s (set_sb _ m2)) with (set_sb s m2) in E. set (m3 := set_sb s m2) in *.
  pose proof (got_put_shows m 0 i fresh m1 Hc H0 Hg) as Hsh. fold m2 in Hsh. pose proof (shows_pins _ _ _ Hsh Hp) as Hp2.
  destruct Hsh as [K1 K2 _ (K3 & K4 & K5 & K6 & K7)].
  assert (cache_frame m2 m3) as Hf by (by split_and!). pose proof (cache_inv_frame _ _ Hf K1) as Hc3.
  destruct (bdev_wf_content (m_bdev m) 0 (ci_dev m Hc) H0) as [L0 B0]. rewrite <- (ci_bs m Hc) in L0.
  destruct (sb_clean_wf (sb_of_bytes (content m 0))) as [W1 W2]; [apply sb_of_bytes_wf; [done|lia]|by apply sb_of_bytes_ok|].
  assert (sb_fit m3) as Hfit.
  { split; [exact W1|exact W2|change (m_block_size m3) with (m_block_size m2); lia|]. unfold in_dev. change (dev_n m3) with (dev_n m2). by rewrite K4. }
  destruct (sb_write_direct_spec m3 r m' Hc3 Hp2 Hfit E) as [D1 D2].
  assert (all_clean m2) as Hcl2.
  { apply put_clean; [apply (got_inv _ _ _ _ _ _ Hg)|]. by apply (got_clean _ _ _ _ _ Hg). }
  split.
  - intros ->. destruct (D1 eq_refl) as (blk & Hon & Hc0 & [S1 S2 _ (S3 & S4 & S5 & S6 & S7)] & Hcl').
    assert (all_clean m') as Hcl3 by (apply Hcl'; exact Hcl2).
    assert (dev_n m' = dev_n m) as En' by (rewrite S4; exact K4).
    split_and!; try done.
    + rewrite S7. exact K7.
    + rewrite Hc0. by rewrite <- K5.
    + intros b Hb. split; [apply all_clean_settled; [done..|]; unfold in_dev in *; by rewrite En'|].
      intros Hb0. rewrite S2 by (unfold in_dev in *; change (dev_n m3) with (dev_n m2); by rewrite K4).
      rewrite (proj2 (Z.eqb_neq _ _) Hb0), (view_frame _ _ b Hf), K2 by done. symmetry. by apply all_clean_settled.
  - intros Hrel. apply D2; [right|done]. rewrite (index_find_frame m2 m3) by done.
    assert (index_find m2 0 = index_find m1 0) as ->.
    { unfold m2, carafs_cache_put. destruct (_ && _); [|done]. by apply index_find_upd. }
    pose proof (got_inv _ _ _ _ _ _ Hg) as Hc1. assert (valid_idx m1 i) as Hv1.
    { unfold valid_idx. rewrite (got_len _ _ _ _ _ _ Hg). apply (got_valid _ _ _ _ _ _ Hg). }
    pose proof (got_block _ _ _ _ _ _ Hg) as Hbk.
    rewrite (index_find_hit m1 (indexed m1) i 0 (ci_small m1 Hc1) (ci_index m1 Hc1) Hv1); [|unfold indexed; by rewrite Hbk|done].
    by apply (valid_not_none m1 i (ci_small m1 Hc1)).
Qed.

(** C11: Mounting recovers. On a volume that was not detached cleanly, [Carafs_Mount] replays the
    journal: it succeeds on a device that does not fail, and then every block outside the
    superblock and the journal superblock shows, and the device holds, the result of applying
    the complete transactions of the log in order; the superblock is the recovered one marked
    clean, on the device too, and the log is empty from the end of the chain on. *)
Theorem mount_recovers d opts s sq head :
  dev_dims d -> 0 < bdev_n_blocks d -> mount_args_ok opts -> mt_readonly opts = false ->
  sb_check (bdev_block_size d) (bdev_n_blocks d) (bdev_content d 0) = Ok s ->
  sb_state s = CARAFS_STATE_DIRTY -> sb_ro_compat s = 0 ->
  let js := sb_journal_start s in let log := sb_journal_blocks s - 1 in let bs := bdev_block_size d in
  let chain := log_chain js log (sb_total_blocks s) bs (bdev_content d) head sq in
  jsb_fields bs log (bdev_content d js) = Ok (sq, head) ->
  (forall txns o q, chain txns o q -> Forall (home_ok js log) txns) ->
  let '(r, m) := Carafs_Mount d opts in
  (r = Ok tt -> exists txns off' sq', chain txns off' sq' /\ cache_inv m /\ m_mounted m = true /\
     m_j m = mkJ log off' sq' off' sq' /\
     m_sb m = sb_set_state (sb_of_bytes (apply_writes (concat txns) (bdev_content d) 0)) CARAFS_STATE_CLEAN /\
     sb_on bs (m_sb m) (content m 0) /\
     forall b, 0 < b < bdev_n_blocks d -> b <> js ->
       view m b = apply_writes (concat txns) (bdev_content d) b /\ content m b = view m b) /\
  (dev_reliable (D := D) -> arena_enough d opts -> r = Ok tt).
Proof.
  intros Hd Hn (Ho1 & Ho2 & Ho3) Hmro Hck Hst Hrc js log bs chain Hj Hhome.
  pose proof (mount_prefix d opts Hd Hn Ho1 Ho2 Ho3) as Hp. rewrite Hck in Hp.
  destruct Hp as [(m & [R0 R1 R2 R3 R4 R5 R6 R7] & Hmount)|[Hno Hrel]].
  2:{ destruct (Carafs_Mount d opts) as [r m]. simpl in Hno. split; [by intros ->|]. intros Hr Ha. specialize (Hrel Hr).
      unfold arena_enough in Ha. lia. }
  rewrite Hmount. unfold journal_start. rewrite st_bind_get, R3, Hst, R0, Hmro, Hrc, !Z.eqb_refl. cbn [negb orb andb].
  rewrite st_bind_assoc, st_bind_eq. pose proof (dev_dims_bs d Hd) as Hb512. pose proof Hd as (Hdw & Hd40 & _).
  destruct (bdev_wf_content d 0 Hdw ltac:(lia)) as [L0 B0].
  assert (sb_rules (bdev_block_size d) (bdev_n_blocks d) s = Ok tt /\ s = sb_of_bytes (bdev_content d 0)) as [Hru Es].
  { unfold sb_check in Hck. destruct (_ || _) in Hck; [done|]. destruct (sb_rules _ _ _) as [[]|] eqn:Er; [|done].
    injection Hck as <-. done. }
  assert (0 <= sb_total_blocks s) as Htot.
  { rewrite Es. pose proof (sw_u64 _ (sb_of_bytes_wf _ B0 ltac:(lia))) as H. rewrite !Forall_cons in H. unfold in_u64 in H. lia. }
  destruct (sb_rules_geom d s Hd Htot Hru) as [g Hg].
  pose proof (sb_geom_journal m s g ltac:(by rewrite R4, R5) R3 (ci_dev m R1) (ci_bs m R1) ltac:(lia)) as Hgj.
  destruct Hg as [G1 [G2 G3] [G4 G5] _ _ _]. pose proof (gm_j _ _ G1) as (J1 & J2 & J3). pose proof (gm_root _ _ G1). pose proof (gm_backup _ _ G1).
  assert (sb_journal_start (m_sb m) = js /\ j_log_blocks (m_j (j_set_log m)) = log /\ sb_total_blocks (m_sb m) = sb_total_blocks s) as (EJ & EL & ET).
  { rewrite R3. split_and!; try done. cbn [j_set_log set_j m_j j_log_blocks]. rewrite R3. apply u32_small. unfold in_u32. lia. }
  assert (0 <= js /\ js + log < bdev_n_blocks d /\ 1 <= log) as (Hj0 & Hjl & Hl1) by (unfold js, log; lia).
  assert (forall b, in_log js log b -> content m b = bdev_content d b) as Hcl by (intros b Hb; apply R7; unfold in_log in Hb; lia).
  assert (forall txns o q, log_chain js log (sb_total_blocks s) bs (content m) head sq txns o q -> chain txns o q) as Hch.
  { intros txns o q Ht. unfold jsb_fields in Hj. destruct (_ || _) in Hj; [done|]. destruct (_ || _) eqn:Eh in Hj; [done|]. zbool. injection Hj as _ <-.
    apply (log_chain_ext js log (sb_total_blocks s) bs ltac:(lia) (content m)); [|lia|done]. intros b Hb. symmetry. apply Hcl. unfold in_log. lia. }
  assert (replay_ready m sq head) as Hrr.
  { split; [done|lia| |].
    - rewrite R5, EL, EJ, R7 by lia. exact Hj.
    - intros txns o q Ht. cbn [j_set_log set_j m_sb m_block_size] in Ht. rewrite EL, EJ, ET, R5 in Ht. cbn [j_set_log set_j m_sb]. rewrite EL, EJ.
      eapply Hhome. by apply Hch. }
  destruct (carafs_journal_replay m) as [rr m1] eqn:Er.
  destruct (replay_spec m sq head rr m1 Hrr Er) as (txns & off' & sq' & Hc' & _ & Hgo & _ & Hok).
  destruct rr as [[]|e]; [|split; [done|intros Hr _; by specialize (Hgo Hr)]].
  destruct (Hok eq_refl) as (C1 & C2 & C3 & C4 & d1 & Em1 & Hg1 & En1).
  cbn [j_set_log set_j m_sb m_block_size] in Hc'. rewrite EL, EJ, ET, R5 in Hc'. apply Hch in Hc'. rewrite EL in Em1.
  set (mj := set_j (mkJ log off' sq' off' sq') m) in *. assert (cache_frame m mj) as Hfj by (by split_and!).
  assert (dev_n mj = dev_n m) as Enj by done.
  destruct (empty_set_bdev mj d1 (cache_inv_frame _ _ Hfj R1) (cache_empty_frame _ _ Hfj R2)) as [Hc1 Hv1].
  { rewrite Em1 in Hg1. apply (jg_wf _ Hg1). } { rewrite Em1 in En1. exact En1. }
  { rewrite Em1 in Hg1. pose proof (jg_bs _ Hg1) as Hb. simpl in Hb. rewrite <- Hb. apply (ci_bs m R1). }
  rewrite <- Em1 in Hc1, Hv1.
  assert (cache_empty m1) as He1 by (rewrite Em1; exact R2).
  assert (m_block_size m1 = bs) as Eb1 by (rewrite Em1; exact R5).
  cbn beta iota. rewrite st_bind_eq. destruct (sb_reload m1) as [r2 m2] eqn:E2.
  destruct (sb_reload_spec m1 r2 m2 Hc1 He1) as [S1 S2]; [rewrite Em1; exact R6|unfold in_dev; rewrite En1, R4; lia|rewrite Eb1; unfold bs; lia|exact E2|].
  assert (forall b, 0 <= b < bdev_n_blocks d -> b <> js -> content m1 b = apply_writes (concat txns) (bdev_content d) b) as Hc1d.
  { intros b Hb Hbj. rewrite C1 by (by rewrite EJ). apply apply_writes_agree. intros _. by apply R7. }
  destruct r2 as [[]|e]; [|split; [done|intros Hr _; by specialize (S2 Hr)]]. unfold st_mod. split; [|done]. intros _.
  destruct (S1 eq_refl) as (T1 & T2 & T3 & T4 & T5 & T6). exists txns, off', sq'.
  assert (cache_frame m2 (set_mounted true m2)) as Hfm by (by split_and!).
  rewrite Hc1d in T2, T5 by lia. split_and!; try done.
  - exact (cache_inv_frame _ _ Hfm T1).
  - cbn [set_mounted m_j]. rewrite T3, Em1. done.
  - cbn [set_mounted m_sb m_bdev]. rewrite T2. by rewrite <- Eb1.
  - intros b Hb Hbj. rewrite (view_frame _ _ b Hfm). cbn [set_mounted m_bdev].
    destruct (T6 b) as [T7 T8]; [unfold in_dev; rewrite En1, R4; lia|]. split; [|done]. rewrite T8 by lia. apply Hc1d; [lia|done].
Qed.

Lemma sb_set_crc_wf s c : sb_wf s -> bytes_ok (sb_to_bytes s) -> in_u32 c -> sb_wf (sb_set_crc s c) /\ bytes_ok (sb_to_bytes (sb_set_crc s c)).
Proof.
  intros [H1 H2 H3 H4 H5 H6] Hb Hc. split.
  - rewrite !Forall_cons in H5. split; try done; cbn; rewrite !Forall_cons; tauto.
  - unfold sb_to_bytes, bytes_ok in Hb. rewrite !Forall_app in Hb. apply sb_to_bytes_ok; cbn; unfold bytes_ok; tauto.
Qed.

(** A clean mount whose superblock is marked dirty in memory can be unmounted. *)
Lemma mounted_clean_live c n bs s st sq head m :
  mounted_clean c n bs s sq head m -> sb_wf s -> bytes_ok (sb_to_bytes s) -> sb_magic s = CARAFS_SB_MAGIC ->
  sb_rules bs n s = Ok tt -> (512 <= bs)%nat -> 1 <= head <= sb_journal_blocks s - 1 -> in_u64 sq -> in_u32 st ->
  let m' := set_sb (sb_set_state s st) m in
  j_live m' /\ sb_live m' /\ pins_ok m' /\ exists i, valid_idx m' i /\ evictable (ent m' i).
Proof.
  intros Hm W1 W2 Hmg Hr Hbs Hh Hsq Hst m'. pose proof (mc_inv _ _ _ _ _ _ _ Hm) as Hc. pose proof (mc_empty _ _ _ _ _ _ _ Hm) as He.
  pose proof (mc_sb _ _ _ _ _ _ _ Hm) as Es. pose proof (mc_j _ _ _ _ _ _ _ Hm) as Ej. pose proof (mc_geom _ _ _ _ _ _ _ Hm) as Hg.
  assert (cache_frame m m') as Hf by (by split_and!). split_and!.
  - split; [split| | | |].
    + exact (cache_inv_frame _ _ Hf Hc).
    + destruct Hg. split; try done; change (m_sb m') with (sb_set_state s st); change (m_j m') with (m_j m); change (dev_n m') with (dev_n m);
        rewrite ?Es in *; done.
    + intros i Hi. change (ent m' i) with (ent m i). rewrite (He i Hi). change (m_j m') with (m_j m).
      change (sb_journal_start (m_sb m')) with (sb_journal_start s). pose proof (ci_n m Hc). unfold in_log. destruct Hg. rewrite Es in *. lia.
    + change (m_block_size m') with (m_block_size m). by rewrite (mc_bs _ _ _ _ _ _ _ Hm).
    + change (m_j m') with (m_j m). by rewrite Ej.
    + change (m_j m') with (m_j m). by rewrite Ej.
    + change (m_j m') with (m_j m). by rewrite Ej.
  - split; change (m_sb m') with (sb_set_state s st); try done.
    + change (m_block_size m') with (m_block_size m). change (dev_n m') with (dev_n m).
      rewrite (mc_bs _ _ _ _ _ _ _ Hm), (mc_n _ _ _ _ _ _ _ Hm), <- Hr. by apply sb_geom_rules.
    + destruct W1 as [H1 H2 H3 H4 H5 H6]. rewrite !Forall_cons in H5.
      split; try done; cbn; rewrite !Forall_cons; tauto.
    + unfold sb_to_bytes, bytes_ok in W2. rewrite !Forall_app in W2. apply sb_to_bytes_ok; cbn; unfold bytes_ok; tauto.
  - exact (cache_empty_pins m Hc He).
  - assert (valid_idx m 0) as H0 by (unfold valid_idx; pose proof (mc_ents _ _ _ _ _ _ _ Hm); lia).
    exists 0. split; [exact H0|]. left. exact (He 0 H0).
Qed.

(** A volume marked dirty on the device, its log still empty, is ready to be recovered. *)
Lemma dirty_device c n bs s sq head m :
  mounted_clean c n bs s sq head m -> sb_wf s -> bytes_ok (sb_to_bytes s) -> sb_magic s = CARAFS_SB_MAGIC ->
  sb_rules bs n s = Ok tt -> (512 <= bs)%nat -> 0 < n -> dev_reliable (D := D) ->
  let m1 := set_sb (sb_set_state s CARAFS_STATE_DIRTY) m in
  exists m2 cr, sb_write_direct m1 = (Ok tt, m2) /\ cache_inv m2 /\ dev_n m2 = n /\ m_block_size m2 = bs /\
    sb_check bs n (content m2 0) = Ok (sb_set_crc (sb_set_state s CARAFS_STATE_DIRTY) cr) /\
    forall b, 0 < b < n -> content m2 b = c b.
Proof.
  intros Hm W1 W2 Hmg Hr Hbs Hn0 Hrel m1. pose proof (mc_inv _ _ _ _ _ _ _ Hm) as Hc. pose proof (mc_empty _ _ _ _ _ _ _ Hm) as He.
  pose proof (mc_n _ _ _ _ _ _ _ Hm) as En. pose proof (mc_bs _ _ _ _ _ _ _ Hm) as Eb. pose proof (mc_ents _ _ _ _ _ _ _ Hm) as Hne.
  assert (cache_frame m m1) as Hf by (by split_and!).
  assert (sb_fit m1) as Hfit.
  { destruct W1 as [H1 H2 H3 H4 H5 H6]. rewrite !Forall_cons in H5. unfold sb_to_bytes, bytes_ok in W2. rewrite !Forall_app in W2.
    split; [split; try done; cbn; rewrite !Forall_cons; unfold in_u32, CARAFS_STATE_DIRTY in *; split_and!; try tauto; lia| | |].
    - apply sb_to_bytes_ok; cbn; unfold bytes_ok; tauto.
    - change (m_block_size m1) with (m_block_size m). lia.
    - unfold in_dev. change (dev_n m1) with (dev_n m). lia. }
  destruct (sb_write_direct m1) as [r m2] eqn:E.
  destruct (sb_write_direct_spec m1 r m2 (cache_inv_frame _ _ Hf Hc) (cache_empty_pins m Hc He) Hfit E) as [D1 D2].
  assert (r = Ok tt) as ->.
  { apply D2; [left|done]. exists 0. assert (valid_idx m 0) as H0 by (unfold valid_idx; lia). split; [exact H0|]. left. exact (He 0 H0). }
  destruct (D1 eq_refl) as (blk & [B1 B2 B3 (cr & _ & B4)] & Hc0 & [S1 S2 _ (S3 & S4 & S5 & _)] & Hcl).
  change (m_block_size m1) with (m_block_size m) in *. rewrite Eb in B3.
  assert (dev_n m2 = n) as En2 by (rewrite S4; exact En).
  exists m2, cr. split_and!; try done; [by rewrite S5| |].
  - unfold sb_check. rewrite Hc0, B4, B3, bool_decide_true by done. cbn [negb orb].
    assert (sb_rules bs n (sb_set_crc (m_sb m1) cr) = Ok tt) as Hr2 by (rewrite <- Hr; apply sb_geom_rules; reflexivity). by rewrite Hr2.
  - intros b Hb. rewrite (all_clean_settled m2 b S1); [|apply Hcl; exact (cache_empty_clean m He)|unfold in_dev; lia].
    rewrite S2 by (unfold in_dev; change (dev_n m1) with (dev_n m); lia). rewrite (proj2 (Z.eqb_neq _ _)) by lia.
    rewrite (view_frame _ _ b Hf). destruct (mc_view _ _ _ _ _ _ _ Hm b ltac:(lia)) as [Hv _]. exact Hv.
Qed.
End Durable.

(** * A concrete volume *)

(** 2061 blocks of 512 bytes, the first size with room behind the 2049 journal blocks. *)
Module MountExample.
Definition dev : CarafsMemBdev :=
  {| mb_mem := zeros (Z.to_nat 2061 * 512); mb_block_size := 512; mb_n_blocks := 2061 |}.
Definition opts : CarafsMkfsOpts := mkOpts 9 (Some [0x57; 0x6F; 0x72; 0x6B]) None 1000.
Definition mopts : CarafsMountOpts := mkMountOpts 4096 20000 false.
Definition geo : CarafsGeometry := mkGeom 512 2061 1 2049 2050 3584 1 2060 2051.
Definition vol : CarafsMemBdev := snd (Carafs_Mkfs opts 512 dev).
Definition mnt : CarafsMount CarafsMemBdev := snd (Carafs_Mount vol mopts).

Lemma dev_good : bdev_wf dev.
Proof. split; cbn [dev mb_mem mb_n_blocks mb_block_size]; [apply length_zeros|apply zeros_bytes_ok|lia|lia]. Qed.
Lemma dev_n_good : 0 < bdev_n_blocks dev <= 2 ^ 40.
Proof. change (bdev_n_blocks dev) with 2061. lia. Qed.
Lemma opts_good : opts_ok opts.
Proof.
  split; cbn [opts mo_name mo_uuid mo_now_ns].
  - intros name [= <-]. repeat constructor; done.
  - done.
  - unfold in_u64. lia.
Qed.
Lemma geo_fact : carafs_geometry 512 2061 = Ok geo.
Proof. by vm_compute. Qed.
Lemma accepted : mkfs_accepts opts 512 dev 9 [0x57; 0x6F; 0x72; 0x6B] geo.
Proof.
  unfold mkfs_accepts, CARAFS_MIN_BLOCK_LOG2, CARAFS_MAX_BLOCK_LOG2. change (bdev_block_size dev) with 512%nat.
  change (bdev_n_blocks dev) with 2061. split_and!; [done|lia|lia|done|lia|done|simpl; lia|simpl; lia|done|exact geo_fact].
Qed.
Lemma made : Carafs_Mkfs opts 512 dev = (Ok tt, vol).
Proof.
  destruct (Carafs_Mkfs opts 512 dev) as [r d'] eqn:E.
  destruct (mkfs_spec opts 512 dev r d' dev_good ltac:(pose proof dev_n_good; lia) opts_good E) as (_ & H & _).
  rewrite (H ltac:(eexists _, _, _; exact accepted) CacheExample.mem_reliable) in *. unfold vol. by rewrite E.
Qed.

Lemma mkfs_formats_witness : exists k name g free, mkfs_accepts opts 512 dev k name g /\
  formatted (bdev_content dev) 512 g (fill_superblock g opts name free) 1000 vol.
Proof.
  destruct (mkfs_formats opts 512 dev _ vol dev_good ltac:(pose proof dev_n_good; lia) opts_good made) as (H & _ & _).
  exact (H eq_refl).
Defined.

Lemma margs : mount_args_ok mopts.
Proof. unfold mount_args_ok. cbn [mopts mt_cache_mem mt_cache_bytes]. lia. Qed.
Lemma enough : arena_enough dev mopts.
Proof. unfold arena_enough. cbn [mopts mt_cache_bytes dev bdev_block_size Carafs_MemBdev mb_block_size]. lia. Qed.

Lemma mkfs_mount_roundtrip_witness : exists m, Carafs_Mount vol mopts = (Ok tt, m) /\ groups_ok m /\ j_used m = 0.
Proof.
  destruct (mkfs_mount_roundtrip opts 512 dev vol mopts CacheExample.mem_reliable dev_good dev_n_good opts_good made margs enough)
    as (m & g & H1 & _ & _ & H2 & _ & H3 & _). exists m. split; [exact H1|split; [exact H2|exact H3]].
Defined.


(** The mounted volume. *)
Lemma mnt_fact : exists s, Carafs_Mount vol mopts = (Ok tt, mnt) /\ dev_dims vol /\
  sb_wf s /\ bytes_ok (sb_to_bytes s) /\ sb_rules 512 2061 s = Ok tt /\ sb_magic s = CARAFS_SB_MAGIC /\
  sb_journal_blocks s = 2049 /\ sb_journal_start s = 1 /\ sb_total_blocks s = 2061 /\ sb_state s = CARAFS_STATE_CLEAN /\ sb_ro_compat s = 0 /\
  (forall b, 1 < b < 2050 -> bdev_content vol b = bdev_content dev b) /\ bdev_content vol 1 = jsb_image 512 1 1 /\
  mounted_clean (bdev_content vol) 2061 512 s 1 1 mnt /\ m_readonly mnt = false.
Proof.
  destruct (mkfs_mount_spec opts 512 dev vol mopts CacheExample.mem_reliable dev_good dev_n_good opts_good made margs enough)
    as (m & g & name & free & c & E1 & E2 & _ & E3 & E4 & W1 & W2 & Hc & Hr & M & Hro).
  change (bdev_block_size dev) with 512%nat in *. change (bdev_n_blocks dev) with 2061 in *.
  change (Z.of_nat 512) with 512 in E2. rewrite geo_fact in E2. injection E2 as <-.
  pose proof (fm_n _ _ _ _ _ _ E3) as En. change (g_total_blocks geo) with 2061 in En. rewrite <- En in M.
  set (s := fill_superblock geo opts name free) in *.
  assert (mnt = m) as -> by (unfold mnt; by rewrite E1).
  destruct (sb_set_crc_wf s c W1 W2 Hc) as [W3 W4].
  exists (sb_set_crc s c). split; [exact E1|]. split; [exact E4|]. split; [exact W3|]. split; [exact W4|]. split; [exact Hr|].
  do 6 (split; [reflexivity|]). split; [|split; [|split; [exact M|exact Hro]]].
  - intros b Hb. apply (fm_log _ _ _ _ _ _ E3). change (g_journal_start geo) with 1. change (g_ag_first geo) with 2050. exact Hb.
  - exact (fm_jsb _ _ _ _ _ _ E3).
Qed.

Lemma st_u32 st : st = CARAFS_STATE_CLEAN \/ st = CARAFS_STATE_DIRTY -> in_u32 st.
Proof. unfold in_u32, CARAFS_STATE_CLEAN, CARAFS_STATE_DIRTY. lia. Qed.
Lemma one_u64 : in_u64 1.
Proof. unfold in_u64. lia. Qed.
Lemma mnt_dims : dev_dims (m_bdev mnt) /\ in_dev mnt 0 /\ arena_enough (m_bdev mnt) mopts.
Proof.
  destruct mnt_fact as (s & _ & _ & _ & _ & _ & _ & _ & _ & _ & _ & _ & _ & _ & M & _).
  pose proof (mc_n _ _ _ _ _ _ _ M) as En. pose proof (mc_bs _ _ _ _ _ _ _ M) as Eb. pose proof (mc_inv _ _ _ _ _ _ _ M) as Hc.
  rewrite (ci_bs _ Hc) in Eb. unfold dev_n in En. unfold dev_dims, in_dev, arena_enough, dev_n. rewrite En, Eb.
  cbn [mopts mt_cache_bytes]. unfold CARAFS_MIN_BLOCK_LOG2, CARAFS_MAX_BLOCK_LOG2.
  split; [|split; [clear; lia|clear; lia]]. split; [exact (ci_dev _ Hc)|]. split; [clear; lia|]. exists 9. split; [clear; lia|reflexivity].
Qed.

Lemma unmount_mount_roundtrip_witness : exists (m : CarafsMount CarafsMemBdev) m1 m2, sb_state (m_sb m) = CARAFS_STATE_DIRTY /\
  Carafs_Unmount 0 m = (Ok tt, m1) /\ Carafs_Mount (m_bdev m1) mopts = (Ok tt, m2) /\
  forall b, in_dev m b -> b <> 0 -> b <> sb_journal_start (m_sb m) -> view m2 b = view m b.
Proof.
  destruct mnt_fact as (s & _ & _ & W1 & W2 & Hr & Hmg & Hjb & _ & _ & _ & _ & _ & _ & M & Hro). destruct mnt_dims as (Hd & H0 & Hen).
  revert M Hro Hd H0 Hen. generalize mnt (bdev_content vol). intros m c M Hro Hd H0 Hen. pose proof (mc_mounted _ _ _ _ _ _ _ M) as Hmt.
  destruct (mounted_clean_live _ _ _ _ CARAFS_STATE_DIRTY _ _ _ M W1 W2 Hmg Hr ltac:(clear; lia) ltac:(rewrite Hjb; clear; lia) one_u64
    (st_u32 _ (or_intror eq_refl))) as (L1 & L2 & L3 & L4).
  destruct (unmount_mount_roundtrip (set_sb (sb_set_state s CARAFS_STATE_DIRTY) m) 0 mopts CacheExample.mem_reliable Hd L1 L2 H0 L3
    ltac:(unfold in_u64; clear; lia) L4 eq_refl Hmt Hro margs Hen) as (m1 & m2 & cr & E1 & _ & E2 & _ & _ & _ & _ & _ & E3).
  exists (set_sb (sb_set_state s CARAFS_STATE_DIRTY) m), m1, m2. split; [reflexivity|]. split; [exact E1|]. split; [exact E2|exact E3].
Defined.

Lemma op_begin_marks_dirty_witness : exists (m m' : CarafsMount CarafsMemBdev), sb_state (m_sb m) = CARAFS_STATE_CLEAN /\
  carafs_op_begin m = (Ok tt, m') /\ sb_on 512 (sb_set_state (m_sb m) CARAFS_STATE_DIRTY) (bdev_content (m_bdev m') 0) /\ m_in_txn m' = true.
Proof.
  destruct mnt_fact as (s & _ & _ & W1 & W2 & Hr & Hmg & Hjb & _ & _ & Hst & _ & _ & _ & M & Hro). destruct mnt_dims as (_ & H0 & _).
  revert M Hro H0. generalize mnt (bdev_content vol). intros m c M Hro H0. pose proof (mc_mounted _ _ _ _ _ _ _ M) as Hmt.
  pose proof (mc_sb _ _ _ _ _ _ _ M) as Es. pose proof (mc_bs _ _ _ _ _ _ _ M) as Eb.
  destruct (mounted_clean_live _ _ _ _ CARAFS_STATE_CLEAN _ _ _ M W1 W2 Hmg Hr ltac:(clear; lia) ltac:(rewrite Hjb; clear; lia) one_u64
    (st_u32 _ (or_introl eq_refl))) as (L1 & L2 & L3 & L4).
  set (mc := set_sb (sb_set_state s CARAFS_STATE_CLEAN) m) in *. destruct (carafs_op_begin mc) as [r m'] eqn:E.
  destruct (op_begin_marks_dirty mc r m' (wo_inv _ (jl_ok _ L1)) L3 L2 H0 (jl_bs _ L1) ltac:(done) E) as (_ & P2 & P3).
  assert (r = Ok tt) as Hok.
  { apply P3; [|exact CacheExample.mem_reliable|exact L4]. change (m_mounted mc) with (m_mounted m). change (m_readonly mc) with (m_readonly m).
    by rewrite Hmt, Hro. }
  destruct (P2 Hok) as (Q1 & _ & _ & Q2 & _). change (m_block_size mc) with (m_block_size m) in Q1. rewrite Eb in Q1. subst r.
  exists mc, m'. split; [reflexivity|]. split; [exact E|]. split; [exact Q1|exact Q2].
Defined.

Lemma zero_log off : 1 <= off <= 2048 -> bdev_content dev (1 + off) = zeros 512.
Proof.
  intros Ho. change (bdev_content dev (1 + off)) with (mem_content dev (1 + off)). unfold mem_content, mem_off.
  rewrite (proj2 (Z.ltb_ge _ _)) by lia. cbn [dev mb_mem mb_block_size]. apply list_eq. intros i.
  destruct (decide (i < 512)%nat) as [Hi|Hi].
  - rewrite lookup_sub by done. unfold zeros. rewrite !lookup_replicate_2 by lia. done.
  - assert (length (sub (Z.to_nat (1 + off) * 512) 512 (zeros (Z.to_nat 2061 * 512))) = 512%nat) as Hl by (apply length_sub; rewrite length_zeros; lia).
    rewrite (lookup_ge_None_2 (sub _ _ _)) by lia. rewrite lookup_ge_None_2; [done|]. rewrite length_zeros. lia.
Qed.
Lemma zero_desc total sq : desc_targets 512 total sq (zeros 512) = None.
Proof. unfold desc_targets. assert (rd 4 (zeros 512) 0 = 0) as -> by (by vm_compute). done. Qed.

(** The volume was marked dirty and then the machine stopped. *)
Lemma mount_recovers_witness : exists (d : CarafsMemBdev) m, is_ok (fst (Carafs_Mount d mopts)) = true /\
  snd (Carafs_Mount d mopts) = m /\ m_mounted m = true /\ sb_state (m_sb m) = CARAFS_STATE_CLEAN /\
  forall b, 1 < b < 2061 -> view m b = bdev_content d b.
Proof.
  destruct mnt_fact as (s & _ & _ & W1 & W2 & Hr & Hmg & Hjb & Hjs & Htot & _ & Hrc & Hlog & Hjsb & M & _). destruct mnt_dims as (Hd & H0 & Hen).
  revert M Hd H0 Hen Hlog Hjsb. generalize mnt (bdev_content vol). intros m c M Hd H0 Hen Hlog Hjsb.
  destruct (dirty_device _ _ _ _ _ _ _ M W1 W2 Hmg Hr ltac:(clear; lia) ltac:(clear; lia) CacheExample.mem_reliable)
    as (m2 & cr & _ & Hc2 & En2 & Eb2 & Hck & Hct).
  set (s' := sb_set_crc (sb_set_state s CARAFS_STATE_DIRTY) cr) in *. set (d := m_bdev m2) in *.
  assert (bdev_n_blocks d = 2061 /\ bdev_block_size d = 512%nat) as [Dn Db] by (split; [exact En2|rewrite <- Eb2; symmetry; exact (ci_bs m2 Hc2)]).
  assert (dev_dims d) as Hdd.
  { split; [exact (ci_dev m2 Hc2)|]. rewrite Dn, Db. unfold CARAFS_MIN_BLOCK_LOG2, CARAFS_MAX_BLOCK_LOG2. split; [clear; lia|]. exists 9. split; [clear; lia|done]. }
  assert (sb_journal_start s' = 1 /\ sb_journal_blocks s' = 2049 /\ sb_total_blocks s' = 2061 /\ sb_state s' = CARAFS_STATE_DIRTY /\ sb_ro_compat s' = 0)
    as (F1 & F2 & F3 & F4 & F5) by (by split_and!).
  assert (log_chain 1 2048 2061 512 (bdev_content d) 1 1 [] 1 1) as Hend.
  { constructor. unfold log_txn, log_at. fold d in Hct. rewrite Hct by (clear; lia). rewrite Hlog by (clear; lia).
    rewrite zero_log by (clear; lia). by rewrite zero_desc. }
  pose proof (mount_recovers d mopts s' 1 1 Hdd ltac:(rewrite Dn; clear; lia) margs eq_refl ltac:(by rewrite Dn, Db) F4 F5) as Hm.
  cbn zeta in Hm. rewrite F1, F2, F3, Dn, Db in Hm. change (2049 - 1) with 2048 in Hm.
  assert (jsb_fields 512 2048 (bdev_content d 1) = Ok (1, 1)) as Hj.
  { fold d in Hct. rewrite Hct, Hjsb by (clear; lia).
    destruct (jsb_fields_image 512 2048 1 1) as [H _]; [clear; lia|exact one_u64|clear; lia|clear; lia|exact H]. }
  specialize (Hm Hj ltac:(intros txns o q Hch; destruct (log_chain_fun _ _ _ _ _ _ _ _ _ _ _ _ _ Hend Hch) as (Et & _); subst txns; constructor)).
  destruct (Carafs_Mount d mopts) as [r mm] eqn:Em. destruct Hm as [H1 H2].
  assert (r = Ok tt) as Hok by (apply H2; [exact CacheExample.mem_reliable|unfold arena_enough; rewrite Db; cbn [mopts mt_cache_bytes]; clear; lia]).
  destruct (H1 Hok) as (txns & o & q & Hch & _ & Q1 & _ & Q2 & _ & Q3).
  destruct (log_chain_fun _ _ _ _ _ _ _ _ _ _ _ _ _ Hend Hch) as (Et & _). subst txns.
  exists d, mm. rewrite Em. split; [by rewrite Hok|]. split; [done|]. split; [exact Q1|]. split; [by rewrite Q2|].
  intros b Hb. destruct (Q3 b) as [E3 _]; [clear -Hb; lia|clear -Hb; lia|]. exact E3.
Defined.
End MountExample.
