(* ===== verification/Items.v ===== *)
(** The TLV item area of a cnode ([src/logaic/carafs/cnode.c], [include/cara/carafs.h]): after the
    360-byte header of a cnode block come packed records [kind, len, payload, pad] at 8-byte stride.
    The operations are the functions of the source on the bytes of the block; a pointer into the
    block is its byte offset. They implement a finite map from item kinds to payloads. *)

From S2P Require Import Prelude Format.

(** * Blocks as concatenations *)

(** [memmove(blk + dst, blk + src, n)] and [memset(blk + off, 0, n)]. *)
Definition memmove (blk : list Z) (dst src n : nat) : list Z := splice blk dst (sub src n blk).
Definition memzero (blk : list Z) (off n : nat) : list Z := splice blk off (zeros n).

Lemma splice_app_mid a x b s : length s = length x -> splice (a ++ x ++ b) (length a) s = a ++ s ++ b.
Proof.
  intros E. rewrite splice_eq by (rewrite !length_app; lia). rewrite take_app_length. f_equal. f_equal.
  rewrite E, drop_app_ge by lia. replace (length a + length x - length a)%nat with (length x) by lia. apply drop_app_length.
Qed.
Lemma splice_at a x b s off : off = length a -> length s = length x -> splice (a ++ x ++ b) off s = a ++ s ++ b.
Proof. intros ->. apply splice_app_mid. Qed.
Lemma sub_mid a x b : sub (length a) (length x) (a ++ x ++ b) = x.
Proof. unfold sub. by rewrite drop_app_length, take_app_length. Qed.
Lemma sub_at a x b off n : off = length a -> n = length x -> sub off n (a ++ x ++ b) = x.
Proof. intros -> ->. apply sub_mid. Qed.
Lemma rd_at n a x b off : off = length a -> length x = n -> rd n (a ++ x ++ b) off = le_get x.
Proof. intros -> <-. unfold rd. by rewrite sub_mid. Qed.
Lemma rd_app_l n a b off : (off + n <= length a)%nat -> rd n (a ++ b) off = rd n a off.
Proof. intros H. unfold rd. f_equal. apply sub_ext. intros i Hi. apply lookup_app_l. lia. Qed.
Lemma wr_app_l n a b off v : (off + n <= length a)%nat -> wr n (a ++ b) off v = wr n a off v ++ b.
Proof.
  intros H. unfold wr. rewrite !splice_eq by (rewrite ?length_app, length_le_put; lia). rewrite length_le_put.
  rewrite take_app_le, drop_app_le by lia. by rewrite <- !app_assoc.
Qed.

Lemma sub_sub i n at_ len blk : (i + n <= len)%nat -> sub i n (sub at_ len blk) = sub (at_ + i) n blk.
Proof.
  intros H. apply list_eq. intros j. destruct (decide (j < n)%nat) as [Hj|Hj].
  - rewrite !lookup_sub by lia. f_equal. lia.
  - unfold sub. rewrite !lookup_ge_None_2; [done|rewrite length_take; lia|rewrite length_take; lia].
Qed.
Lemma splice_sub blk at_ p off s : (at_ + length p <= length blk)%nat -> sub at_ (length p) blk = p -> (off + length s <= length p)%nat ->
  splice blk (at_ + off) s = splice blk at_ (splice p off s).
Proof.
  intros Hl Hp Hs. apply list_eq. intros j. destruct (decide (at_ <= j < at_ + length p)%nat) as [Hin|Hout].
  - rewrite (lookup_splice_in blk at_) by (rewrite ?length_splice; lia). destruct (decide (at_ + off <= j < at_ + off + length s)%nat).
    + rewrite !lookup_splice_in by lia. f_equal. lia.
    + rewrite !lookup_splice_out by lia. rewrite <- Hp, lookup_sub by lia. f_equal. lia.
  - rewrite !lookup_splice_out by (rewrite ?length_splice; lia). done.
Qed.

(** * The operations *)

Definition CN_ITEM_BYTES : nat := 100.
Definition CARAFS_CNODE_ITEMS_OFF : nat := 360.
Definition sizeof_CarafsItem : Z := 4.

Definition item_bytes (blk : list Z) : Z := rd 4 blk CN_ITEM_BYTES.
(** [area + off] *)
Definition area (off : Z) : nat := (CARAFS_CNODE_ITEMS_OFF + Z.to_nat off)%nat.
(** The record header [struct CarafsItem] at [area + off]. *)
Definition it_kind (blk : list Z) (off : Z) : Z := rd 2 blk (area off).
Definition it_len (blk : list Z) (off : Z) : Z := rd 2 blk (area off + 2).

Definition carafs_item_room (blk : list Z) (bs : Z) : Z := u32 (u32 (bs - Z.of_nat CARAFS_CNODE_ITEMS_OFF) - item_bytes blk).

(** The [while] of [item_off]: a record is at least 8 bytes, so [item_bytes] rounds are enough. *)
Fixpoint item_walk (fuel : nat) (blk : list Z) (kind off : Z) : Z :=
  match fuel with
  | O => item_bytes blk
  | S fuel =>
      if off <? item_bytes blk then
        if it_kind blk off =? kind then off
        else item_walk fuel blk kind (u32 (off + Carafs_Align8 (sizeof_CarafsItem + it_len blk off)))
      else item_bytes blk
  end.
Definition item_off (blk : list Z) (kind : Z) : Z := item_walk (S (Z.to_nat (item_bytes blk))) blk kind 0.

(** The payload pointer and its length. *)
Definition carafs_item_find (blk : list Z) (kind : Z) : option (nat * Z) :=
  let off := item_off blk kind in
  if off =? item_bytes blk then None else Some (area (off + sizeof_CarafsItem), it_len blk off).

(** The new block and the payload pointer. *)
Definition carafs_item_resize (bs : Z) (kind new_len : Z) (blk : list Z) : result (list Z * nat) :=
  let off := item_off blk kind in
  let stride_new := Carafs_Align8 (sizeof_CarafsItem + new_len) in
  let found := off <? item_bytes blk in
  let old_len := if found then it_len blk off else 0 in
  let stride_old := if found then Carafs_Align8 (sizeof_CarafsItem + old_len) else 0 in
  if u32 (bs - Z.of_nat CARAFS_CNODE_ITEMS_OFF) <? u32 (u32 (item_bytes blk - stride_old) + stride_new) then Err CARA_EOVERFLOW else
  let blk := if stride_old =? stride_new then blk else
    let moved := memmove blk (area (off + stride_new)) (area (off + stride_old)) (Z.to_nat (u32 (item_bytes blk - off - stride_old))) in
    wr 4 moved CN_ITEM_BYTES (u32 (item_bytes moved + u32 (stride_new - stride_old))) in
  let blk := wr 2 blk (area off) kind in
  let blk := wr 2 blk (area off + 2) new_len in
  let payload := area (off + sizeof_CarafsItem) in
  let blk := if old_len <? new_len then memzero blk (payload + Z.to_nat old_len) (Z.to_nat (new_len - old_len)) else blk in
  Ok (memzero blk (payload + Z.to_nat new_len) (Z.to_nat (stride_new - sizeof_CarafsItem - new_len)), payload).

Definition carafs_item_remove (kind : Z) (blk : list Z) : list Z :=
  let off := item_off blk kind in
  if off =? item_bytes blk then blk else
  let stride := Carafs_Align8 (sizeof_CarafsItem + it_len blk off) in
  let blk := memmove blk (area off) (area (off + stride)) (Z.to_nat (u32 (item_bytes blk - off - stride))) in
  let blk := wr 4 blk CN_ITEM_BYTES (u32 (item_bytes blk - stride)) in
  memzero blk (area (item_bytes blk)) (Z.to_nat stride).

(** * The abstract item area *)

Abbreviation items := (list (Z * list Z)).

(** Records: header, payload, zero padding up to the stride. *)
Definition stride (n : nat) : nat := (8 * ((4 + n + 7) / 8))%nat.
Definition encode_item (it : Z * list Z) : list Z :=
  le_put 2 (fst it) ++ le_put 2 (Z.of_nat (length (snd it))) ++ snd it ++ zeros (stride (length (snd it)) - 4 - length (snd it)).
Definition encode_items (its : items) : list Z := concat (map encode_item its).
Definition item_ok (it : Z * list Z) : Prop := in_u16 (fst it) /\ in_u16 (Z.of_nat (length (snd it))) /\ bytes_ok (snd it).

(** The map operations. *)
Fixpoint item_get (its : items) (k : Z) : option (list Z) :=
  match its with [] => None | (k', p) :: its => if k' =? k then Some p else item_get its k end.
Fixpoint item_set (its : items) (k : Z) (p : list Z) : items :=
  match its with [] => [(k, p)] | (k', p') :: its => if k' =? k then (k, p) :: its else (k', p') :: item_set its k p end.
Fixpoint item_del (its : items) (k : Z) : items :=
  match its with [] => [] | (k', p) :: its => if k' =? k then its else (k', p) :: item_del its k end.
(** A payload cut or zero-extended to [n] bytes. *)
Definition fit_payload (n : nat) (p : list Z) : list Z := take n p ++ zeros (n - length p).

(** The cnode block [blk] of [bs] bytes holds the items [its]. *)
Record items_rep (bs : nat) (blk : list Z) (its : items) : Prop := {
  ir_len : length blk = bs;
  ir_bs : Z.of_nat CARAFS_CNODE_ITEMS_OFF <= Z.of_nat bs <= 65536;
  ir_bytes : bytes_ok blk;
  ir_area : exists rest, drop CARAFS_CNODE_ITEMS_OFF blk = encode_items its ++ rest;
  ir_used : item_bytes blk = Z.of_nat (length (encode_items its));
  ir_items : Forall item_ok its;
  ir_nodup : NoDup its.*1
}.
(** Every header field but [item_bytes] is the same. *)
Definition header_kept (blk blk' : list Z) : Prop := forall n off,
  (off + n <= CN_ITEM_BYTES \/ CN_ITEM_BYTES + 4 <= off)%nat -> (off + n <= CARAFS_CNODE_ITEMS_OFF)%nat -> rd n blk' off = rd n blk off.

(** ** Record sizes *)

Lemma align8_eq n : 0 <= n -> n + 7 < 2 ^ 32 -> Carafs_Align8 n = 8 * ((n + 7) / 8).
Proof.
  intros H0 H1. unfold Carafs_Align8. rewrite u32_small by (unfold in_u32; lia).
  transitivity (Z.ldiff (n + 7) (Z.ones 3)).
  - apply Z.bits_inj'. intros i Hi. rewrite Z.land_spec, Z.ldiff_spec, not32_spec by done. change (Z.ones 3) with 7.
    destruct (Z.ltb_spec i 32); [done|]. rewrite (bits_above 32 (n + 7) i) by lia. done.
  - rewrite Z.ldiff_ones_r, Z.shiftl_mul_pow2, Z.shiftr_div_pow2 by lia. change (2 ^ 3) with 8. lia.
Qed.
Lemma stride_eq n : in_u16 (Z.of_nat n) -> Carafs_Align8 (sizeof_CarafsItem + Z.of_nat n) = Z.of_nat (stride n).
Proof.
  intros H. unfold in_u16, sizeof_CarafsItem, stride in *. rewrite align8_eq by lia. rewrite Nat2Z.inj_mul, Nat2Z.inj_div.
  by replace (Z.of_nat (4 + n + 7)) with (4 + Z.of_nat n + 7) by lia.
Qed.
Lemma stride_ge n : (4 + n <= stride n <= n + 11)%nat.
Proof. unfold stride. pose proof (Nat.div_mod_eq (4 + n + 7) 8). pose proof (Nat.mod_upper_bound (4 + n + 7) 8). lia. Qed.
Lemma length_encode_item it : length (encode_item it) = stride (length (snd it)).
Proof. unfold encode_item. rewrite !length_app, !length_le_put, length_zeros. pose proof (stride_ge (length (snd it))). lia. Qed.
Lemma encode_items_app a b : encode_items (a ++ b) = encode_items a ++ encode_items b.
Proof. unfold encode_items. by rewrite map_app, concat_app. Qed.
Lemma encode_items_cons it b : encode_items (it :: b) = encode_item it ++ encode_items b.
Proof. done. Qed.
Lemma encode_item_ok it : item_ok it -> bytes_ok (encode_item it).
Proof. intros (_ & _ & H). unfold encode_item, bytes_ok. rewrite !Forall_app. split_and!; auto; [apply le_put_ok..|apply zeros_bytes_ok]. Qed.
Lemma encode_items_ok its : Forall item_ok its -> bytes_ok (encode_items its).
Proof. induction 1; [constructor|]. rewrite encode_items_cons. apply Forall_app; split; [by apply encode_item_ok|done]. Qed.

(** ** Finding a record *)

(** A prefix without the kind is passed over. *)
Lemma item_get_app a c k : k ∉ a.*1 -> item_get (a ++ c) k = item_get c k.
Proof. induction a as [|[k' q] a IH]; intros H; simpl; [done|]. rewrite (proj2 (Z.eqb_neq k' k)) by set_solver. apply IH. set_solver. Qed.
Lemma item_set_app a c k p : k ∉ a.*1 -> item_set (a ++ c) k p = a ++ item_set c k p.
Proof. induction a as [|[k' q] a IH]; intros H; simpl; [done|]. rewrite (proj2 (Z.eqb_neq k' k)), IH by set_solver. done. Qed.
Lemma item_del_app a c k : k ∉ a.*1 -> item_del (a ++ c) k = a ++ item_del c k.
Proof. induction a as [|[k' q] a IH]; intros H; simpl; [done|]. rewrite (proj2 (Z.eqb_neq k' k)), IH by set_solver. done. Qed.

(** Where a kind is, if it is there. *)
Inductive item_at (its : items) (k : Z) : items -> option (list Z) -> items -> Prop :=
| item_here a p b : its = a ++ (k, p) :: b -> k ∉ a.*1 -> item_at its k a (Some p) b
| item_nowhere : k ∉ its.*1 -> item_at its k its None [].

Lemma item_at_total its k : exists a p b, item_at its k a p b.
Proof.
  induction its as [|[k' p] its (a & q & b & IH)]; [exists [], None, []; constructor; set_solver|].
  destruct (Z.eq_dec k' k) as [->|Hne]; [exists [], (Some p), its; by constructor; [|set_solver]|].
  destruct IH as [a p' b E Ha|Ha].
  - exists ((k', p) :: a), (Some p'), b. constructor; [by rewrite E|set_solver].
  - exists ((k', p) :: its), None, []. constructor. set_solver.
Qed.

Lemma rec_header blk P k q Q off :
  blk = P ++ encode_item (k, q) ++ Q -> area off = length P -> item_ok (k, q) ->
  it_kind blk off = k /\ it_len blk off = Z.of_nat (length q).
Proof.
  intros -> Ea (Hk & Hq & _). unfold it_kind, it_len, encode_item. rewrite Ea. cbn [fst snd] in *. rewrite <- !app_assoc. split.
  - rewrite (rd_at 2) by (done || apply length_le_put). rewrite le_get_put. by apply u16_small.
  - rewrite (app_assoc P), (rd_at 2) by (rewrite ?length_app, ?length_le_put; lia). rewrite le_get_put. by apply u16_small.
Qed.

Lemma item_walk_spec fuel blk H its rest k :
  blk = H ++ encode_items its ++ rest -> (CARAFS_CNODE_ITEMS_OFF <= length H)%nat -> Z.of_nat (length blk) <= 65536 ->
  item_bytes blk = Z.of_nat (length H - CARAFS_CNODE_ITEMS_OFF + length (encode_items its)) -> Forall item_ok its ->
  (length (encode_items its) < fuel)%nat ->
  forall a p b, item_at its k a p b ->
  item_walk fuel blk k (Z.of_nat (length H - CARAFS_CNODE_ITEMS_OFF)) = Z.of_nat (length H - CARAFS_CNODE_ITEMS_OFF + length (encode_items a)).
Proof.
  revert H its. induction fuel as [|fuel IH]; intros H its Eb HH Hl Hu Hok Hf a p b Hat; [lia|].
  destruct its as [|[k' q] its].
  { assert (a = []) as -> by (destruct Hat as [a q b E _|_]; [by destruct a|done]).
    cbn [item_walk]. rewrite Hu, (proj2 (Z.ltb_ge _ _)) by (simpl; lia). done. }
  pose proof (Forall_inv Hok) as (Hk & Hq & Hby). apply Forall_inv_tail in Hok. cbn [fst snd] in *.
  rewrite encode_items_cons, length_app, length_encode_item in Hf, Hu. cbn [snd] in Hf, Hu. pose proof (stride_ge (length q)) as Hs.
  set (o := Z.of_nat (length H - CARAFS_CNODE_ITEMS_OFF)).
  assert (area o = length H) as Ea by (unfold area, o; lia).
  destruct (rec_header blk H k' q (encode_items its ++ rest) o) as [Ek El]; [by rewrite Eb, encode_items_cons, <- app_assoc|done|by split_and!|].
  cbn [item_walk]. rewrite (proj2 (Z.ltb_lt _ _)) by (rewrite Hu; lia). rewrite Ek, El, stride_eq by done.
  destruct (Z.eqb_spec k' k) as [->|Hne].
  { assert (a = []) as ->; [|simpl; lia]. destruct Hat as [a p b E Ha|Ha]; [|set_solver].
    destruct a as [|[k0 q0] a]; [done|]. injection E as -> _. set_solver. }
  assert (exists a', a = (k', q) :: a' /\ item_at its k a' p b) as (a' & -> & Hat').
  { destruct Hat as [a p b E Ha|Ha].
    - destruct a as [|[k0 q0] a0]; [by injection E as ? _|]. injection E as <- <- E. exists a0. split; [done|].
      constructor; [done|set_solver].
    - exists its. split; [done|]. constructor. set_solver. }
  assert (length blk = length H + (stride (length q) + length (encode_items its)) + length rest)%nat as Elen.
  { rewrite Eb, encode_items_cons, !length_app, length_encode_item. cbn [snd]. lia. }
  rewrite u32_small by (unfold in_u32, o; lia).
  replace (o + Z.of_nat (stride (length q))) with (Z.of_nat (length (H ++ encode_item (k', q)) - CARAFS_CNODE_ITEMS_OFF))
    by (rewrite length_app, length_encode_item; cbn [snd]; unfold o; lia).
  rewrite (IH (H ++ encode_item (k', q)) its) with (a := a') (p := p) (b := b); try done.
  - rewrite encode_items_cons, !length_app, length_encode_item. cbn [snd]. lia.
  - by rewrite Eb, encode_items_cons, <- !app_assoc.
  - rewrite length_app. lia.
  - rewrite Hu, length_app, length_encode_item. cbn [snd]. lia.
  - lia.
Qed.

(** The block taken apart around a kind. *)
Record item_split (bs : nat) (blk : list Z) (its a : items) (p : option (list Z)) (b : items) (H rest : list Z) : Prop := {
  is_blk : blk = H ++ encode_items its ++ rest;
  is_hdr : length H = CARAFS_CNODE_ITEMS_OFF;
  is_its k : item_at its k a p b -> item_off blk k = Z.of_nat (length (encode_items a))
}.
Lemma items_split_at bs blk its a p b :
  items_rep bs blk its -> exists H rest, item_split bs blk its a p b H rest.
Proof.
  intros [E1 E2 E3 (rest & E4) E5 E6 E7]. exists (take CARAFS_CNODE_ITEMS_OFF blk), rest.
  assert (blk = take CARAFS_CNODE_ITEMS_OFF blk ++ encode_items its ++ rest) as Eb by (rewrite <- E4; by rewrite take_drop).
  assert (length (take CARAFS_CNODE_ITEMS_OFF blk) = CARAFS_CNODE_ITEMS_OFF) as El by (rewrite length_take; lia).
  split; try done. intros k Hat. unfold item_off.
  pose proof (item_walk_spec (S (Z.to_nat (item_bytes blk))) blk _ its rest k Eb ltac:(lia) ltac:(lia)) as Hw.
  rewrite El, Nat.sub_diag in Hw. apply (Hw E5 E6) with (p := p) (b := b); [rewrite E5; lia|done].
Qed.
Lemma items_split bs blk its k :
  items_rep bs blk its -> exists a p b H rest, item_at its k a p b /\ item_split bs blk its a p b H rest.
Proof.
  intros Hrep. destruct (item_at_total its k) as (a & p & b & Hat). destruct (items_split_at bs blk its a p b Hrep) as (H & R & Hsp). eauto 10.
Qed.

(** The record header and the zero bytes after the kept part of the payload. *)
Lemma fill_record P h q junk Q kind len :
  length h = 4%nat ->
  let blk := wr 2 (wr 2 (P ++ h ++ q ++ junk ++ Q) (length P) kind) (length P + 2) len in
  blk = P ++ le_put 2 kind ++ le_put 2 len ++ q ++ junk ++ Q.
Proof.
  intros Hh. unfold wr. destruct h as [|h0 [|h1 [|h2 [|h3 [|]]]]]; try done.
  change ([h0; h1; h2; h3] ++ q ++ junk ++ Q) with ([h0; h1] ++ [h2; h3] ++ q ++ junk ++ Q).
  rewrite splice_app_mid by (by rewrite length_le_put). rewrite (app_assoc P).
  rewrite splice_at by (rewrite ?length_app, !length_le_put; done). by rewrite <- app_assoc.
Qed.
(** Zeroing from [old] to [len], if that is upwards, and from [len] to the end of the record. *)
Lemma zero_record P q junk Q (old len : nat) :
  length q = Nat.min old len -> (len <= length q + length junk)%nat ->
  let blk := P ++ q ++ junk ++ Q in
  let blk := if Z.of_nat old <? Z.of_nat len then memzero blk (length P + old) (len - old) else blk in
  memzero blk (length P + len) (length q + length junk - len) = P ++ q ++ zeros (length junk) ++ Q.
Proof.
  intros Hq Hl. cbn zeta. unfold memzero. destruct (Z.ltb_spec (Z.of_nat old) (Z.of_nat len)).
  - assert (length q = old) as E by lia. rewrite <- (take_drop (len - old) junk), <- (app_assoc _ (drop _ junk)).
    rewrite (app_assoc P q), splice_at by (rewrite ?length_app, ?length_zeros, ?length_take; lia).
    rewrite app_assoc, splice_at by (rewrite ?length_app, ?length_zeros, ?length_drop, ?length_take; lia).
    rewrite <- !app_assoc. do 2 f_equal. rewrite app_assoc. f_equal. unfold zeros. rewrite <- replicate_add. f_equal.
    rewrite length_app, length_take, length_drop. lia.
  - rewrite (app_assoc P q), splice_at by (rewrite ?length_app, ?length_zeros; lia). rewrite <- app_assoc. do 4 f_equal. lia.
Qed.

Section At.
Context (bs : nat) (blk : list Z) (its a b : items) (p : option (list Z)) (k : Z) (H R : list Z).
Hypothesis (Hrep : items_rep bs blk its) (Hat : item_at its k a p b) (Hsp : item_split bs blk its a p b H R).

Abbreviation EA := (encode_items a).
Abbreviation EB := (encode_items b).
Definition old_record : list Z := match p with Some q => encode_item (k, q) | None => [] end.
Definition old_payload : list Z := match p with Some q => q | None => [] end.

Lemma at_items : encode_items its = EA ++ old_record ++ EB.
Proof. unfold old_record. destruct Hat as [a p b -> _|_]; [by rewrite encode_items_app|by rewrite app_nil_r]. Qed.
Lemma at_blk : blk = H ++ EA ++ old_record ++ EB ++ R.
Proof. rewrite (is_blk _ _ _ _ _ _ _ _ Hsp) at 1. by rewrite at_items, <- !app_assoc. Qed.
Lemma at_len : (bs = CARAFS_CNODE_ITEMS_OFF + length EA + length old_record + length EB + length R)%nat.
Proof. rewrite <- (ir_len _ _ _ Hrep), at_blk, !length_app, (is_hdr _ _ _ _ _ _ _ _ Hsp). lia. Qed.
Lemma at_used : item_bytes blk = Z.of_nat (length EA + length old_record + length EB).
Proof. rewrite (ir_used _ _ _ Hrep), at_items, !length_app. lia. Qed.
Lemma at_off : item_off blk k = Z.of_nat (length EA).
Proof. by apply (is_its _ _ _ _ _ _ _ _ Hsp). Qed.
Lemma at_ok : Forall item_ok a /\ Forall item_ok b /\ match p with Some q => item_ok (k, q) | None => True end.
Proof.
  pose proof (ir_items _ _ _ Hrep) as Hi. destruct Hat as [a p b -> _|_]; [|by split_and!; [|constructor|]].
  apply Forall_app in Hi as [H1 H2]. apply Forall_cons in H2. tauto.
Qed.
Lemma at_old : length old_record = match p with Some q => stride (length q) | None => 0%nat end.
Proof. unfold old_record. destruct p; [apply length_encode_item|done]. Qed.
Lemma at_found : (item_off blk k <? item_bytes blk) = match p with Some _ => true | None => false end /\
  (item_off blk k =? item_bytes blk) = match p with Some _ => false | None => true end.
Proof.
  rewrite at_off, at_used. pose proof at_old as Eo. pose proof Hat as Hat'.
  destruct p as [q|]; [pose proof (stride_ge (length q)); rewrite Eo; split; [apply Z.ltb_lt|apply Z.eqb_neq]; lia|].
  rewrite Eo. inversion Hat'; subst. simpl. split; [apply Z.ltb_ge|apply Z.eqb_eq]; simpl; lia.
Qed.
Lemma at_area n : area (Z.of_nat (length EA) + Z.of_nat n) = (length (H ++ EA) + n)%nat.
Proof. unfold area. rewrite length_app, (is_hdr _ _ _ _ _ _ _ _ Hsp). lia. Qed.
Lemma at_area0 : area (item_off blk k) = length (H ++ EA).
Proof. rewrite at_off. unfold area. rewrite length_app, (is_hdr _ _ _ _ _ _ _ _ Hsp). lia. Qed.
Lemma at_old_len : (if item_off blk k <? item_bytes blk then it_len blk (item_off blk k) else 0) = Z.of_nat (length old_payload).
Proof.
  destruct at_found as [-> _]. destruct at_ok as (_ & _ & Hok). unfold old_payload. pose proof at_blk as Eb. unfold old_record in Eb.
  pose proof at_area0 as Ea. destruct p as [q|]; [|done]. apply (rec_header blk (H ++ EA) k q (EB ++ R)); [by rewrite <- app_assoc|done|done].
Qed.
Lemma at_payload_u16 : in_u16 (Z.of_nat (length old_payload)).
Proof. destruct at_ok as (_ & _ & Hok). unfold old_payload. destruct p; [apply Hok|unfold in_u16; simpl; lia]. Qed.
Lemma at_stride_old :
  (if item_off blk k <? item_bytes blk then Carafs_Align8 (sizeof_CarafsItem + Z.of_nat (length old_payload)) else 0) = Z.of_nat (length old_record).
Proof.
  destruct at_found as [-> _]. rewrite at_old. pose proof at_payload_u16 as Hu. unfold old_payload in *. destruct p; [by apply stride_eq|done].
Qed.

Lemma at_get : item_get its k = p.
Proof.
  destruct Hat as [a p b -> Ha|Ha]; [rewrite item_get_app by done; simpl; by rewrite Z.eqb_refl|].
  rewrite <- (app_nil_r its). by rewrite item_get_app.
Qed.
Lemma at_set q : item_set its k q = a ++ (k, q) :: b.
Proof.
  destruct Hat as [a p b -> Ha|Ha]; [rewrite item_set_app by done; simpl; by rewrite Z.eqb_refl|].
  rewrite <- (app_nil_r its) at 1. by rewrite item_set_app.
Qed.
Lemma at_del : item_del its k = a ++ b.
Proof.
  destruct Hat as [a p b -> Ha|Ha]; [rewrite item_del_app by done; simpl; by rewrite Z.eqb_refl|].
  rewrite <- (app_nil_r its) at 1. by rewrite item_del_app.
Qed.
Lemma at_nodup_set q : NoDup (item_set its k q).*1.
Proof.
  rewrite at_set. pose proof (ir_nodup _ _ _ Hrep) as Hn. destruct Hat as [a p b -> Ha|Ha].
  - by rewrite fmap_app, fmap_cons in *.
  - rewrite fmap_app. apply NoDup_app. split_and!; [done|set_solver|apply NoDup_singleton].
Qed.
Lemma at_nodup_del : NoDup (item_del its k).*1.
Proof.
  rewrite at_del. pose proof (ir_nodup _ _ _ Hrep) as Hn. destruct Hat as [a p b -> Ha|Ha]; [|by rewrite app_nil_r].
  rewrite fmap_app, fmap_cons in *. apply NoDup_app in Hn as (H1 & H2 & H3). apply NoDup_app. apply NoDup_cons in H3. split_and!; [done|set_solver|tauto].
Qed.

(** *** Removing *)

Lemma at_remove : exists H' R', carafs_item_remove k blk = H' ++ EA ++ EB ++ R' /\ length H' = CARAFS_CNODE_ITEMS_OFF /\
  rd 4 H' CN_ITEM_BYTES = Z.of_nat (length EA + length EB) /\ header_kept blk (carafs_item_remove k blk).
Proof.
  pose proof at_used as Eu. pose proof at_len as El. pose proof (ir_bs _ _ _ Hrep) as [Hb0 Hbs]. pose proof at_blk as Eb.
  pose proof (is_hdr _ _ _ _ _ _ _ _ Hsp) as EH. pose proof at_old_len as Eol. pose proof at_stride_old as Eso. pose proof at_old as Eo.
  pose proof at_area as Ea. pose proof at_off as Eoff. pose proof (ir_used _ _ _ Hrep) as Eu'. pose proof (ir_len _ _ _ Hrep) as Ebl.
  destruct at_found as [Hfound Hnf]. unfold carafs_item_remove. rewrite Hnf. rewrite Hfound in Eol, Eso.
  assert (CN_ITEM_BYTES + 4 <= length H)%nat as Hlt by (rewrite EH; unfold CN_ITEM_BYTES, CARAFS_CNODE_ITEMS_OFF; lia).
  unfold old_record in *. destruct p as [q|].
  2:{ simpl in *. exists H, R. split_and!; try done. unfold item_bytes in Eu. rewrite Eb in Eu. rewrite rd_app_l in Eu by done. rewrite Eu. lia. }
  set (O := encode_item (k, q)) in *. rewrite Eol, Eso, Eoff, Ea. rewrite <- (Z.add_0_r (Z.of_nat (length EA))), (Ea 0%nat : area (_ + 0) = _), Nat.add_0_r, Z.add_0_r.
  assert (Z.to_nat (u32 (item_bytes blk - Z.of_nat (length EA) - Z.of_nat (length O))) = length EB) as -> by (rewrite Eu, u32_small; unfold in_u32; lia).
  unfold memmove. assert (sub (length (H ++ EA) + length O) (length EB) blk = EB) as ->.
  { rewrite Eb, (app_assoc EA), (app_assoc H). apply sub_at; [rewrite !length_app; lia|done]. }
  set (T := drop (length EB) (O ++ EB ++ R)). assert (length T = length O + length R)%nat as ET by (unfold T; rewrite length_drop, !length_app; lia).
  assert (splice blk (length (H ++ EA)) EB = H ++ EA ++ EB ++ T) as ->.
  { rewrite splice_eq by (rewrite length_app; lia). rewrite Eb, (app_assoc H), take_app_length, drop_app_ge by lia. rewrite <- app_assoc.
    unfold T. by replace (length (H ++ EA) + length EB - length (H ++ EA))%nat with (length EB) by lia. }
  assert (item_bytes (H ++ EA ++ EB ++ T) = item_bytes blk) as -> by (unfold item_bytes; rewrite Eb; by rewrite !rd_app_l).
  rewrite Eu, u32_small by (unfold in_u32; lia). rewrite wr_app_l by done. set (V := Z.of_nat _ - _).
  assert (rd 4 (wr 4 H CN_ITEM_BYTES V) CN_ITEM_BYTES = V) as EV by (apply rd_wr_same; [done|unfold V; lia]).
  assert (item_bytes (wr 4 H CN_ITEM_BYTES V ++ EA ++ EB ++ T) = V) as -> by (unfold item_bytes; rewrite rd_app_l by (by rewrite length_wr); done).
  unfold memzero. set (W := wr 4 H CN_ITEM_BYTES V) in *.
  assert (W ++ EA ++ EB ++ T = (W ++ EA ++ EB) ++ take (length O) T ++ drop (length O) T) as -> by (rewrite take_drop, <- !app_assoc; done).
  assert (length W = CARAFS_CNODE_ITEMS_OFF) as EW by (unfold W; by rewrite length_wr).
  rewrite splice_at by (rewrite ?length_app, ?length_zeros, ?length_take, ?EW; unfold area, V; lia).
  exists W, (zeros (Z.to_nat (Z.of_nat (length O))) ++ drop (length O) T). rewrite <- !app_assoc.
  split_and!; [done|done|rewrite EV; unfold V; lia|].
  intros w o Ho1 Ho2. rewrite Eb, !rd_app_l by (rewrite ?EW, ?EH; lia). apply rd_wr_other. lia.
Qed.

(** *** Resizing *)

Variable n : nat.
Hypothesis Hn : in_u16 (Z.of_nat n).
Hypothesis Hk : in_u16 k.

Abbreviation sn := (stride n).
Abbreviation so := (length old_record).
Definition fits : Prop := (CARAFS_CNODE_ITEMS_OFF + length EA + sn + length EB <= bs)%nat.

(** The records after this one moved to its new end, the counter with them. *)
Definition moved : list Z :=
  if Z.of_nat so =? Z.of_nat sn then blk else
  let mv := memmove blk (area (Z.of_nat (length EA) + Z.of_nat sn)) (area (Z.of_nat (length EA) + Z.of_nat so))
              (Z.to_nat (u32 (item_bytes blk - Z.of_nat (length EA) - Z.of_nat so))) in
  wr 4 mv CN_ITEM_BYTES (u32 (item_bytes mv + u32 (Z.of_nat sn - Z.of_nat so))).

Lemma at_bs : Z.of_nat bs <= 65536.
Proof. apply (ir_bs _ _ _ Hrep). Qed.

Lemma moved_eq : fits -> exists H' X R', moved = H' ++ EA ++ X ++ EB ++ R' /\ length H' = CARAFS_CNODE_ITEMS_OFF /\
  length X = sn /\ rd 4 H' CN_ITEM_BYTES = Z.of_nat (length EA + sn + length EB) /\ header_kept blk moved /\
  (forall m, (m <= so)%nat -> (m <= sn)%nat -> take m X = take m old_record).
Proof.
  unfold fits. intros Hf. pose proof at_blk as Eb. pose proof at_len as El. pose proof at_used as Eu. pose proof at_bs as Hbs.
  pose proof (is_hdr _ _ _ _ _ _ _ _ Hsp) as EH. unfold moved. destruct (Z.eqb_spec (Z.of_nat so) (Z.of_nat sn)) as [E|Hne].
  - exists H, old_record, R. split_and!; try done; [lia|]. unfold item_bytes in Eu. rewrite Eb in Eu at 1.
    rewrite rd_app_l in Eu by (rewrite EH; unfold CN_ITEM_BYTES, CARAFS_CNODE_ITEMS_OFF; lia). rewrite Eu. lia.
  - rewrite !at_area.
    assert (Z.to_nat (u32 (item_bytes blk - Z.of_nat (length EA) - Z.of_nat so)) = length EB) as -> by (rewrite Eu, u32_small; unfold in_u32; lia).
    unfold memmove.
    assert (sub (length (H ++ EA) + so) (length EB) blk = EB) as ->.
    { rewrite Eb. rewrite (app_assoc EA), (app_assoc H). apply sub_at; [rewrite !length_app; lia|done]. }
    set (V := u32 _). set (X := take sn (old_record ++ EB ++ R)). set (R' := drop (sn + length EB) (old_record ++ EB ++ R)).
    assert (splice blk (length (H ++ EA) + sn) EB = H ++ EA ++ X ++ EB ++ R') as Es.
    { rewrite splice_eq by (rewrite length_app, (ir_len _ _ _ Hrep); lia). rewrite Eb, (app_assoc H), take_app, drop_app.
      rewrite take_ge, drop_ge by lia. rewrite <- !app_assoc. cbn [app]. do 2 f_equal. unfold X, R'. f_equal; [f_equal; lia|]. do 2 f_equal. lia. }
    assert (length X = sn) as EX by (unfold X; rewrite length_take, !length_app; lia).
    exists (wr 4 H CN_ITEM_BYTES V), X, R'. rewrite Es, wr_app_l by (rewrite EH; unfold CN_ITEM_BYTES, CARAFS_CNODE_ITEMS_OFF; lia).
    split_and!; try done; [by rewrite length_wr| | |].
    + assert (V = Z.of_nat (length EA + sn + length EB)) as EV.
      { unfold V. rewrite Es. assert (item_bytes (H ++ EA ++ X ++ EB ++ R') = item_bytes blk) as ->.
        { unfold item_bytes. rewrite Eb, !rd_app_l by (rewrite EH; unfold CN_ITEM_BYTES, CARAFS_CNODE_ITEMS_OFF; lia). done. }
        rewrite Eu. unfold u32. rewrite Zplus_mod_idemp_r. rewrite Z.mod_small; lia. }
      rewrite rd_wr_same; [done|rewrite EH; unfold CN_ITEM_BYTES, CARAFS_CNODE_ITEMS_OFF; lia|rewrite EV; lia].
    + intros w o Ho1 Ho2. rewrite Eb, !rd_app_l by (rewrite ?length_wr, EH; lia). apply rd_wr_other. lia.
    + intros w Hw1 Hw2. unfold X. rewrite take_take. rewrite take_app_le by lia. f_equal. lia.
Qed.

Lemma length_fit m q : length (fit_payload m q) = m.
Proof. unfold fit_payload. rewrite length_app, length_take, length_zeros. lia. Qed.

(** The kept part of the payload inside the moved record. *)
Lemma kept_payload X : length X = sn -> (forall m, (m <= so)%nat -> (m <= sn)%nat -> take m X = take m old_record) ->
  X = take 4 X ++ take n old_payload ++ drop (4 + Nat.min (length old_payload) n) X.
Proof.
  intros EX HX. pose proof (stride_ge n) as Hs. set (m := Nat.min (length old_payload) n).
  assert (take m (drop 4 X) = take n old_payload) as E.
  { pose proof at_old as Eo. unfold old_record, old_payload in *. destruct p as [q|]; [|by destruct n].
    pose proof (stride_ge (length q)). rewrite take_drop_commute.
    rewrite HX by lia. unfold encode_item. cbn [fst snd]. rewrite app_assoc.
    rewrite take_app_ge by (rewrite length_app, !length_le_put; lia). rewrite length_app, !length_le_put.
    rewrite drop_app_ge by (rewrite length_app, !length_le_put; lia). rewrite length_app, !length_le_put.
    rewrite drop_0. replace (4 + m - (2 + 2))%nat with m by lia. rewrite take_app_le by lia.
    unfold m. destruct (Nat.min_spec (length q) n) as [[? ->]|[? ->]]; [by rewrite !take_ge by lia|done]. }
  rewrite <- E at 1. rewrite <- drop_drop. rewrite take_drop. by rewrite take_drop.
Qed.

(** The whole of [carafs_item_resize]. *)
Lemma at_resize :
  match carafs_item_resize (Z.of_nat bs) k (Z.of_nat n) blk with
  | Err e => e = CARA_EOVERFLOW /\ ~ fits
  | Ok (blk', at_) => fits /\ header_kept blk blk' /\ at_ = (length (H ++ EA) + 4)%nat /\
      exists H' R', blk' = H' ++ EA ++ encode_item (k, fit_payload n old_payload) ++ EB ++ R' /\
        length H' = CARAFS_CNODE_ITEMS_OFF /\ rd 4 H' CN_ITEM_BYTES = Z.of_nat (length EA + sn + length EB)
  end.
Proof.
  pose proof at_used as Eu. pose proof at_bs as Hbs. pose proof (ir_bs _ _ _ Hrep) as [Hb0 _]. pose proof at_len as El.
  pose proof (is_hdr _ _ _ _ _ _ _ _ Hsp) as EH. pose proof at_payload_u16 as Hop. pose proof (stride_ge n) as Hs. unfold in_u16 in Hn, Hop.
  unfold carafs_item_resize. rewrite at_old_len, at_stride_old, stride_eq by done.
  assert (u32 (u32 (item_bytes blk - Z.of_nat so) + Z.of_nat sn) = Z.of_nat (length EA + sn + length EB)) as ->
    by (rewrite Eu, (u32_small (_ - _)), u32_small; unfold in_u32; lia).
  rewrite (u32_small (Z.of_nat bs - _)) by (unfold in_u32; lia).
  destruct (Z.ltb_spec (Z.of_nat bs - Z.of_nat CARAFS_CNODE_ITEMS_OFF) (Z.of_nat (length EA + sn + length EB))) as [Hov|Hfit].
  { split; [done|]. unfold fits. lia. }
  assert (fits) as Hf by (unfold fits; lia). destruct (moved_eq Hf) as (H' & X & R' & Em & EH' & EX & Er & Hhk & HX).
  rewrite !at_off. fold moved. rewrite Em. unfold sizeof_CarafsItem.
  assert (area (Z.of_nat (length EA)) = length (H' ++ EA)) as Ea by (unfold area; rewrite length_app, EH'; lia).
  assert (area (Z.of_nat (length EA) + 4) = length (H' ++ EA) + 4)%nat as Ea4 by (unfold area; rewrite length_app, EH'; lia).
  rewrite Ea, Ea4. pose proof (kept_payload X EX HX) as EXk. set (m := Nat.min (length old_payload) n) in *.
  rewrite EXk. rewrite <- !(app_assoc (take 4 X)), <- !(app_assoc (take n old_payload)), (app_assoc H').
  rewrite fill_record by (rewrite length_take; lia).
  set (junk := drop (4 + m) X). assert (length junk = sn - 4 - m)%nat as Ej by (unfold junk; rewrite length_drop; lia).
  assert (length (take n old_payload) = m) as Eq by (rewrite length_take; unfold m; lia).
  rewrite (app_assoc (le_put 2 k)), (app_assoc (H' ++ EA)).
  assert (length (H' ++ EA) + 4 = length ((H' ++ EA) ++ le_put 2 k ++ le_put 2 (Z.of_nat n)))%nat as EP by (rewrite !length_app, !length_le_put; lia).
  rewrite EP, !Nat2Z.id. replace (Z.to_nat (Z.of_nat n - Z.of_nat (length old_payload))) with (n - length old_payload)%nat by lia.
  replace (Z.to_nat (Z.of_nat sn - 4 - Z.of_nat n)) with (length (take n old_payload) + length junk - n)%nat by (rewrite Eq, Ej; unfold m; lia).
  rewrite zero_record by (rewrite ?Eq, ?Ej; unfold m; lia).
  assert (((H' ++ EA) ++ le_put 2 k ++ le_put 2 (Z.of_nat n)) ++ take n old_payload ++ zeros (length junk) ++ EB ++ R' =
    H' ++ EA ++ encode_item (k, fit_payload n old_payload) ++ EB ++ R') as Eb'.
  { unfold encode_item. cbn [fst snd]. rewrite length_fit. unfold fit_payload. rewrite <- !app_assoc. do 5 f_equal. rewrite (app_assoc (zeros (n - _))). f_equal.
    unfold zeros. rewrite <- replicate_add. f_equal. rewrite Ej. unfold m. lia. }
  rewrite Eb'. split_and!; [done| | |].
  - intros w o Ho1 Ho2. rewrite <- (Hhk w o Ho1 Ho2), Em. rewrite !rd_app_l by (rewrite EH'; lia). done.
  - rewrite <- EP, !length_app. lia.
  - exists H', R'. split_and!; done.
Qed.
End At.

Arguments at_blk {_ _ _ _ _ _ _ _ _}.
Arguments at_len {_ _ _ _ _ _ _ _ _}.
Arguments at_used {_ _ _ _ _ _ _ _ _}.
Arguments at_off {_ _ _ _ _ _ _ _ _}.
Arguments at_ok {_ _ _ _ _ _ _ _ _}.
Arguments at_found {_ _ _ _ _ _ _ _ _}.
Arguments at_area {_ _ _ _ _ _ _ _}.
Arguments at_old_len {_ _ _ _ _ _ _ _ _}.
Arguments at_remove {_ _ _ _ _ _ _ _ _}.
Arguments at_del {_ _ _ _ _ _ _ _ _}.
Arguments at_nodup_del {_ _ _ _ _ _ _ _ _}.
Arguments at_get {_ _ _ _ _ _ _ _ _}.
Arguments at_set {_ _ _ _ _ _ _ _ _}.
Arguments at_nodup_set {_ _ _ _ _ _ _ _ _}.
Arguments at_resize {_ _ _ _ _ _ _ _ _}.

(** ** The refinement *)

Lemma resize_block bs k n blk blk' at_ : bytes_ok blk -> carafs_item_resize bs k n blk = Ok (blk', at_) ->
  length blk' = length blk /\ bytes_ok blk'.
Proof.
  intros Hb E. unfold carafs_item_resize in E. destruct (_ <? u32 (_ + _)); [done|]. injection E as <- _.
  unfold memzero, memmove. split.
  - rewrite length_splice. destruct (_ <? n); rewrite ?length_splice, !length_wr; destruct (_ =? Carafs_Align8 _); rewrite ?length_wr, ?length_splice; done.
  - apply splice_bytes_ok; [|apply zeros_bytes_ok]. destruct (_ <? n); [apply splice_bytes_ok; [|apply zeros_bytes_ok]|];
      do 2 apply wr_bytes_ok; destruct (_ =? Carafs_Align8 _); auto with cara.
Qed.
Lemma remove_block k blk : bytes_ok blk -> length (carafs_item_remove k blk) = length blk /\ bytes_ok (carafs_item_remove k blk).
Proof.
  intros Hb. unfold carafs_item_remove, memzero, memmove. destruct (_ =? _); [done|]. rewrite length_splice, length_wr, length_splice.
  split; [done|]. apply splice_bytes_ok; [apply wr_bytes_ok, splice_bytes_ok|]; auto with cara.
Qed.
Lemma rep_intro bs blk' H' its' R' :
  Z.of_nat CARAFS_CNODE_ITEMS_OFF <= Z.of_nat bs <= 65536 -> length blk' = bs -> bytes_ok blk' -> blk' = H' ++ encode_items its' ++ R' ->
  length H' = CARAFS_CNODE_ITEMS_OFF -> rd 4 H' CN_ITEM_BYTES = Z.of_nat (length (encode_items its')) -> Forall item_ok its' -> NoDup its'.*1 ->
  items_rep bs blk' its'.
Proof.
  intros Hbs Hl Hb E EH Er Hok Hn. split; try done.
  - exists R'. by rewrite E, <- EH, drop_app_length.
  - unfold item_bytes. rewrite E, rd_app_l; [done|]. rewrite EH. unfold CN_ITEM_BYTES, CARAFS_CNODE_ITEMS_OFF. lia.
Qed.

Definition items_size (its : items) : nat := length (encode_items its).

Lemma find_spec bs blk its k : items_rep bs blk its ->
  match item_get its k with
  | None => carafs_item_find blk k = None
  | Some p => exists at_, carafs_item_find blk k = Some (at_, Z.of_nat (length p)) /\ sub at_ (length p) blk = p /\
      (CARAFS_CNODE_ITEMS_OFF + 4 <= at_ /\ at_ + length p <= bs)%nat /\ item_off blk k = Z.of_nat (at_ - CARAFS_CNODE_ITEMS_OFF - 4)
  end.
Proof.
  intros Hrep. destruct (items_split bs blk its k Hrep) as (a & p & b & H & R & Hat & Hsp). rewrite (at_get Hrep Hat Hsp).
  destruct (at_found Hrep Hat Hsp) as [Hf Hnf]. pose proof (at_old_len Hrep Hat Hsp) as El.
  pose proof (at_area Hsp 4) as Ea. pose proof (at_off Hat Hsp) as Eo.
  pose proof (at_blk Hrep Hat Hsp) as Eb. pose proof (at_len Hrep Hat Hsp) as Eln.
  pose proof (is_hdr _ _ _ _ _ _ _ _ Hsp) as EH.
  unfold carafs_item_find. rewrite Hnf. destruct p as [q|]; [|done]. rewrite Hf in El. exists (length (H ++ encode_items a) + 4)%nat.
  pose proof (stride_ge (length q)) as Hs. unfold old_record in Eln, Eb. rewrite length_encode_item in Eln. cbn [snd] in Eln. rewrite length_app.
  rewrite El, Eo. change sizeof_CarafsItem with (Z.of_nat 4). rewrite Ea, length_app. split_and!; try done; try lia. rewrite Eb. unfold encode_item. cbn [fst snd].
  rewrite <- !app_assoc, (app_assoc (le_put 2 k)), (app_assoc (encode_items a)), (app_assoc H). apply sub_at; [|done].
  rewrite !length_app, !length_le_put. lia.
Qed.

Lemma resize_spec bs blk its k n : items_rep bs blk its -> in_u16 k -> in_u16 (Z.of_nat n) ->
  let p := fit_payload n (default [] (item_get its k)) in
  let its' := item_set its k p in
  match carafs_item_resize (Z.of_nat bs) k (Z.of_nat n) blk with
  | Err e => e = CARA_EOVERFLOW /\ (bs < CARAFS_CNODE_ITEMS_OFF + items_size its')%nat
  | Ok (blk', at_) => items_rep bs blk' its' /\ header_kept blk blk' /\ carafs_item_find blk' k = Some (at_, Z.of_nat n) /\
      sub at_ n blk' = p /\ (CARAFS_CNODE_ITEMS_OFF + items_size its' <= bs)%nat
  end.
Proof.
  intros Hrep Hk Hn p its'. destruct (items_split bs blk its k Hrep) as (a & op & b & H & R & Hat & Hsp).
  pose proof (at_resize Hrep Hat Hsp n Hn) as Hr.
  assert (p = fit_payload n (old_payload op)) as Ep by (unfold p; rewrite (at_get Hrep Hat Hsp); by destruct op).
  assert (its' = a ++ (k, p) :: b) as Ei by (unfold its'; by rewrite (at_set Hrep Hat Hsp)).
  assert (length p = n) as El by (unfold p; apply length_fit).
  assert (items_size its' = length (encode_items a) + stride n + length (encode_items b))%nat as Es.
  { unfold items_size. rewrite Ei, encode_items_app, encode_items_cons, !length_app, length_encode_item. cbn [snd]. rewrite El. lia. }
  destruct (at_ok Hrep Hat Hsp) as (Ha & Hb & Hop).
  destruct (carafs_item_resize _ k _ blk) as [[blk' at_]|e] eqn:E; [|unfold fits in Hr; destruct Hr; split; [done|lia]].
  destruct Hr as (Hf & Hhk & -> & H' & R' & Eb & EH & Er). destruct (resize_block _ _ _ _ _ _ (ir_bytes _ _ _ Hrep) E) as [Hl Hby].
  assert (items_rep bs blk' its') as Hrep'.
  { apply (rep_intro bs blk' H' its' R'); try done.
    - apply (ir_bs _ _ _ Hrep).
    - rewrite Hl. apply (ir_len _ _ _ Hrep).
    - by rewrite Eb, Ei, encode_items_app, encode_items_cons, <- !app_assoc, Ep.
    - rewrite Er. unfold items_size in Es. by rewrite Es.
    - rewrite Ei. apply Forall_app; split; [done|]. apply Forall_cons; split; [|done]. split; [done|]. cbn [snd]. rewrite El. split; [done|].
      unfold p, fit_payload. apply Forall_app; split; [|apply zeros_bytes_ok]. rewrite (at_get Hrep Hat Hsp).
      destruct op; [apply Forall_take, Hop|destruct n; constructor].
    - apply (at_nodup_set Hrep Hat Hsp). }
  pose proof (find_spec bs blk' its' k Hrep') as Hfs.
  assert (item_get its' k = Some p) as Eg.
  { rewrite Ei. destruct Hat as [a p0 b _ Hna|Hna]; rewrite item_get_app by done; simpl; by rewrite Z.eqb_refl. }
  rewrite Eg, El in Hfs. destruct Hfs as (at1 & F1 & F2 & [F3 F4] & F5).
  assert (item_at its' k a (Some p) b) as Hat' by (constructor; [done|]; by destruct Hat).
  assert (item_off blk' k = Z.of_nat (length (encode_items a))) as Eo.
  { destruct (items_split_at bs blk' its' a (Some p) b Hrep') as (H1 & R1 & Hsp1). by apply (is_its _ _ _ _ _ _ _ _ Hsp1). }
  assert (at1 = (length (H ++ encode_items a) + 4)%nat) as ->.
  { rewrite length_app, (is_hdr _ _ _ _ _ _ _ _ Hsp). lia. }
  split_and!; try done. unfold fits in Hf. lia.
Qed.

Lemma find_at bs blk its k a p b : items_rep bs blk its -> item_at its k a (Some p) b ->
  carafs_item_find blk k = Some ((CARAFS_CNODE_ITEMS_OFF + length (encode_items a) + 4)%nat, Z.of_nat (length p)).
Proof.
  intros Hrep Hat. destruct (items_split_at bs blk its a (Some p) b Hrep) as (H & R & Hsp).
  pose proof (find_spec bs blk its k Hrep) as Hf. rewrite (at_get Hrep Hat Hsp) in Hf. destruct Hf as (at_ & F1 & _ & [F2 _] & F3).
  rewrite (at_off Hat Hsp) in F3. rewrite F1. do 2 f_equal. lia.
Qed.

(** A store of the same length into a payload. *)
Lemma payload_store bs blk its k p at_ q :
  items_rep bs blk its -> in_u16 k -> item_get its k = Some p -> carafs_item_find blk k = Some (at_, Z.of_nat (length p)) ->
  length q = length p -> bytes_ok q ->
  items_rep bs (splice blk at_ q) (item_set its k q) /\ header_kept blk (splice blk at_ q) /\
  carafs_item_find (splice blk at_ q) k = Some (at_, Z.of_nat (length q)).
Proof.
  intros Hrep Hk Eg Ef El Hq. destruct (items_split bs blk its k Hrep) as (a & op & b & H & R & Hat & Hsp).
  rewrite (at_get Hrep Hat Hsp) in Eg. subst op. rewrite (find_at bs blk its k a p b Hrep Hat) in Ef. injection Ef as <-.
  pose proof (at_blk Hrep Hat Hsp) as Eb. unfold old_record in Eb. destruct (at_ok Hrep Hat Hsp) as (Ha & Hb & _ & Hp16 & _).
  pose proof (is_hdr _ _ _ _ _ _ _ _ Hsp) as EH.
  assert (splice blk (CARAFS_CNODE_ITEMS_OFF + length (encode_items a) + 4) q = H ++ encode_items (a ++ (k, q) :: b) ++ R) as Es.
  { rewrite Eb, encode_items_app, encode_items_cons. unfold encode_item. cbn [fst snd]. rewrite El.
    rewrite <- !app_assoc, (app_assoc (le_put 2 k)), (app_assoc (encode_items a)), (app_assoc H).
    rewrite splice_at by (rewrite ?length_app, ?length_le_put, ?EH; lia). by rewrite <- !app_assoc. }
  assert (header_kept blk (splice blk (CARAFS_CNODE_ITEMS_OFF + length (encode_items a) + 4) q)) as Hhk.
  { intros w o Ho1 Ho2. rewrite Es, Eb. rewrite !rd_app_l by (rewrite EH; lia). done. }
  pose proof (at_set Hrep Hat Hsp q) as Eset. rewrite Eset.
  assert (items_rep bs (splice blk (CARAFS_CNODE_ITEMS_OFF + length (encode_items a) + 4) q) (a ++ (k, q) :: b)) as Hrep'.
  { apply (rep_intro bs _ H _ R); try done.
    - apply (ir_bs _ _ _ Hrep).
    - rewrite length_splice. apply (ir_len _ _ _ Hrep).
    - apply splice_bytes_ok; [apply (ir_bytes _ _ _ Hrep)|done].
    - pose proof (at_used Hrep Hat Hsp) as Eu. unfold item_bytes in Eu. rewrite Eb, rd_app_l in Eu by (rewrite EH; unfold CN_ITEM_BYTES, CARAFS_CNODE_ITEMS_OFF; lia).
      rewrite Eu. unfold old_record. rewrite encode_items_app, encode_items_cons, !length_app, !length_encode_item. cbn [snd]. rewrite El. lia.
    - apply Forall_app; split; [done|]. apply Forall_cons; split; [|done]. split_and!; cbn [fst snd]; [done|by rewrite El|done].
    - rewrite <- Eset. apply (at_nodup_set Hrep Hat Hsp). }
  split_and!; try done. apply (find_at bs _ _ k a q b Hrep'). constructor; [done|]. by inversion Hat.
Qed.

Lemma remove_spec bs blk its k : items_rep bs blk its ->
  items_rep bs (carafs_item_remove k blk) (item_del its k) /\ header_kept blk (carafs_item_remove k blk).
Proof.
  intros Hrep. destruct (items_split bs blk its k Hrep) as (a & p & b & H & R & Hat & Hsp).
  destruct (at_remove Hrep Hat Hsp) as (H' & R' & Eb & EH & Er & Hhk). split; [|done].
  destruct (remove_block k blk (ir_bytes _ _ _ Hrep)) as [Hl Hby]. destruct (at_ok Hrep Hat Hsp) as (Ha & Hb & _).
  pose proof (at_del Hrep Hat Hsp) as Ed. apply (rep_intro bs _ H' _ R'); rewrite ?Ed; try done.
  - apply (ir_bs _ _ _ Hrep).
  - rewrite Hl. apply (ir_len _ _ _ Hrep).
  - by rewrite Eb, encode_items_app, <- app_assoc.
  - rewrite Er, encode_items_app, length_app. lia.
  - by apply Forall_app.
  - rewrite <- Ed. apply (at_nodup_del Hrep Hat Hsp).
Qed.

Lemma item_set_set its k p q : item_set (item_set its k p) k q = item_set its k q.
Proof. induction its as [|[k' r] its IH]; simpl; [by rewrite Z.eqb_refl|]. destruct (Z.eqb_spec k' k); simpl; [by rewrite Z.eqb_refl|]. rewrite (proj2 (Z.eqb_neq _ _)) by done. by rewrite IH. Qed.
Lemma item_get_ok its k p : Forall item_ok its -> item_get its k = Some p -> in_u16 (Z.of_nat (length p)) /\ bytes_ok p.
Proof.
  induction 1 as [|[k' q] its (_ & H1 & H2) _ IH]; cbn [item_get]; [done|]. destruct (_ =? _); [by intros [= <-]|done].
Qed.

(** ** Records inside a payload *)

Lemma items_size_set its k p q : length p = length q -> items_size (item_set its k p) = items_size (item_set its k q).
Proof.
  intros E. unfold items_size. induction its as [|[k' r] its IH]; cbn [item_set].
  - rewrite !encode_items_cons, !length_app, !length_encode_item. cbn [snd]. by rewrite E.
  - destruct (k' =? k); rewrite !encode_items_cons, !length_app, !length_encode_item; cbn [snd]; [by rewrite E|by rewrite IH].
Qed.
Lemma items_size_shrink its k q E : (length E <= length q)%nat -> item_get its k = Some q -> (items_size (item_set its k E) <= items_size its)%nat.
Proof.
  intros Hl. unfold items_size. induction its as [|[k' p] its IH]; cbn [item_get item_set]; [done|]. destruct (Z.eqb_spec k' k) as [->|]; intros Hg.
  - injection Hg as ->. rewrite !encode_items_cons, !length_app, !length_encode_item. cbn [snd]. unfold stride.
    pose proof (Nat.Div0.div_le_mono (4 + length E + 7) (4 + length q + 7) 8). lia.
  - rewrite !encode_items_cons, !length_app. specialize (IH Hg). lia.
Qed.
Lemma rep_fits bs blk its : items_rep bs blk its -> (CARAFS_CNODE_ITEMS_OFF + items_size its <= bs)%nat.
Proof.
  intros Hrep. destruct (ir_area _ _ _ Hrep) as [R ER]. pose proof (ir_bs _ _ _ Hrep) as Hbs. apply (f_equal length) in ER.
  rewrite length_drop, (ir_len _ _ _ Hrep), length_app in ER. unfold items_size. lia.
Qed.
(** The bytes [x] in the middle of a payload are moved over: the payload starts with the rest. *)
Lemma gap_closed bs blk its k A x B at_ :
  items_rep bs blk its -> in_u16 k -> item_get its k = Some (A ++ x ++ B) -> carafs_item_find blk k = Some (at_, Z.of_nat (length (A ++ x ++ B))) ->
  exists q, length q = length (A ++ x ++ B) /\ take (length (A ++ B)) q = A ++ B /\
    let blk1 := memmove blk (at_ + length A) (at_ + (length A + length x)) (length B) in
    items_rep bs blk1 (item_set its k q) /\ header_kept blk blk1.
Proof.
  intros Hrep Hk Hg Hf. set (p := A ++ x ++ B) in *. pose proof (find_spec bs blk its k Hrep) as Hfs. rewrite Hg in Hfs. destruct Hfs as (at1 & F1 & F2 & [F3 F4] & _).
  rewrite Hf in F1. injection F1 as <-. assert (length p = length A + length x + length B)%nat as El by (unfold p; rewrite !length_app; lia).
  destruct (item_get_ok its k p (ir_items _ _ _ Hrep) Hg) as [_ Hby]. assert (bytes_ok B) as HbB by (unfold p in Hby; by apply Forall_app in Hby as [_ [_ Hby]%Forall_app]).
  exists (splice p (length A) B). rewrite length_splice, length_app. split_and!; [done| |].
  - rewrite splice_eq by lia. unfold p at 1. rewrite take_app_length, take_app_add. f_equal. apply take_app_length.
  - cbn zeta. unfold memmove. assert (sub (at_ + (length A + length x)) (length B) blk = B) as ->.
    { rewrite <- sub_sub with (len := length p) by lia. rewrite F2. unfold p. rewrite app_assoc. rewrite <- (app_nil_r B) at 2.
      apply sub_at; [by rewrite length_app|done]. }
    rewrite (splice_sub blk at_ p) by (rewrite ?(ir_len _ _ _ Hrep); done || lia).
    destruct (payload_store bs blk its k p at_ (splice p (length A) B) Hrep) as (P1 & P2 & _); try done; [by rewrite length_splice|by apply splice_bytes_ok].
Qed.
(** An item is cut to a prefix of its payload: that always fits. *)
Lemma item_cut bs blk its k q E : items_rep bs blk its -> in_u16 k -> item_get its k = Some q -> take (length E) q = E ->
  exists blk' at_, carafs_item_resize (Z.of_nat bs) k (u16 (Z.of_nat (length E))) blk = Ok (blk', at_) /\ items_rep bs blk' (item_set its k E) /\ header_kept blk blk'.
Proof.
  intros Hrep Hk Hg Hq. destruct (item_get_ok its k q (ir_items _ _ _ Hrep) Hg) as [Hq16 _]. assert (length E <= length q)%nat as HEq by (rewrite <- Hq, length_take; lia).
  assert (in_u16 (Z.of_nat (length E))) as H16 by (unfold in_u16 in *; lia). unfold u16. rewrite Z.mod_small by (unfold in_u16 in H16; lia).
  pose proof (resize_spec bs blk its k (length E) Hrep Hk H16) as Hs. cbn zeta in Hs. rewrite Hg in Hs. change (default [] (Some q)) with q in Hs.
  assert (fit_payload (length E) q = E) as EE by (unfold fit_payload; rewrite Hq, (proj2 (Nat.sub_0_le _ _)) by done; apply app_nil_r). rewrite EE in Hs.
  destruct (carafs_item_resize _ _ _ _) as [[blk' at_]|e]; [by exists blk', at_; destruct Hs as (? & ? & _)|].
  destruct Hs as [_ Hs]. pose proof (rep_fits _ _ _ Hrep). pose proof (items_size_shrink its k q E HEq Hg). lia.
Qed.

(** What the items mean: a finite map from kinds to payloads. *)
Definition items_map (its : items) : gmap Z (list Z) := list_to_map its.
Lemma items_map_get its k : item_get its k = items_map its !! k.
Proof.
  induction its as [|[k' p] its IH]; simpl; [by rewrite lookup_empty|]. unfold items_map. simpl.
  destruct (Z.eqb_spec k' k) as [->|Hne]; [by rewrite lookup_insert_eq|by rewrite lookup_insert_ne].
Qed.
Lemma items_map_set its k p : items_map (item_set its k p) = <[k := p]> (items_map its).
Proof.
  induction its as [|[k' q] its IH]; [done|]. simpl. destruct (Z.eqb_spec k' k) as [->|Hne].
  - unfold items_map. simpl. by rewrite insert_insert_eq.
  - unfold items_map in *. simpl. rewrite IH. by apply insert_insert_ne.
Qed.
Lemma items_map_del its k : NoDup its.*1 -> items_map (item_del its k) = delete k (items_map its).
Proof.
  induction its as [|[k' q] its IH]; intros Hn; [unfold items_map; simpl; by rewrite delete_empty|]. apply NoDup_cons in Hn as [Hni Hn]. simpl.
  destruct (Z.eqb_spec k' k) as [->|Hne]; unfold items_map in *; simpl.
  - rewrite delete_insert_eq, delete_id; [done|]. by apply not_elem_of_list_to_map_1.
  - rewrite IH by done. by rewrite delete_insert_ne.
Qed.

Lemma splice_end (E s p : list Z) : take (length E) p = E -> length p = (length E + length s)%nat -> splice p (length E) s = E ++ s.
Proof. intros H Hl. rewrite splice_eq by lia. rewrite H, drop_ge by lia. by rewrite app_nil_r. Qed.
(** Making room inside a payload that has grown by [length N] bytes. *)
Lemma make_gap (B F J N p : list Z) : p = B ++ F ++ J -> length J = length N ->
  splice (splice p (length B + length N) F) (length B) N = B ++ N ++ F.
Proof.
  intros -> EJ. set (p := B ++ F ++ J). assert (length p = length B + length F + length N)%nat as El by (unfold p; rewrite !length_app; lia).
  set (X := take (length N) (F ++ J)). assert (length X = length N) as EX by (unfold X; rewrite length_take, length_app; lia).
  assert (take (length B + length N) p = B ++ X) as Et by (unfold p; by rewrite take_app_add).
  replace (length B + length N)%nat with (length (B ++ X)) by (rewrite length_app; lia).
  rewrite (splice_end (B ++ X) F p) by (rewrite length_app, EX; done || lia). rewrite <- app_assoc. by apply splice_at.
Qed.
(** The bytes [N] are put into the middle of a payload that is grown for them. *)
Lemma gap_opened bs blk its k B F N (n := (length (B ++ F) + length N)%nat) :
  items_rep bs blk its -> in_u16 k -> default [] (item_get its k) = B ++ F -> in_u16 (Z.of_nat n) -> bytes_ok (B ++ F) -> bytes_ok N ->
  match carafs_item_resize (Z.of_nat bs) k (Z.of_nat n) blk with
  | Ok (blk1, at_) => sub at_ (length (B ++ F)) blk1 = B ++ F /\
      let blk' := splice (memmove blk1 (at_ + (length B + length N)) (at_ + length B) (length F)) (at_ + length B) N in
      items_rep bs blk' (item_set its k (B ++ N ++ F)) /\ header_kept blk blk'
  | Err _ => (bs < CARAFS_CNODE_ITEMS_OFF + items_size (item_set its k (B ++ N ++ F)))%nat
  end.
Proof.
  intros Hrep Hk Eget H16 Hbd HbN. pose proof (resize_spec bs blk its k n Hrep Hk H16) as Hrs. cbn zeta in Hrs. rewrite Eget in Hrs.
  set (p := fit_payload n (B ++ F)) in *. assert (length (B ++ F) = length B + length F)%nat as El by apply length_app.
  assert (p = B ++ F ++ zeros (length N)) as Ep.
  { unfold p, fit_payload. rewrite take_ge by (unfold n; lia). replace (n - length (B ++ F))%nat with (length N) by (unfold n; lia). by rewrite <- app_assoc. }
  assert (length p = n) as Elp by apply length_fit. assert (length (B ++ N ++ F) = n) as Eln by (rewrite !length_app; unfold n; lia).
  destruct (carafs_item_resize _ _ _ blk) as [[blk1 at_]|e].
  2:{ destruct Hrs as [_ Hrs]. by rewrite (items_size_set its _ (B ++ N ++ F) p) by (by rewrite Elp). }
  destruct Hrs as (R1 & K1 & F1 & S1 & _). assert (item_get (item_set its k p) k = Some p) as G1 by (by rewrite items_map_get, items_map_set, lookup_insert_eq).
  pose proof (find_spec bs blk1 _ k R1) as Hf1. rewrite G1 in Hf1. destruct Hf1 as (at1 & F1' & _ & [G2 G3] & _). rewrite F1 in F1'. injection F1' as <-.
  pose proof (ir_len _ _ _ R1) as El1. assert (forall A X C, p = A ++ X ++ C -> sub (at_ + length A) (length X) blk1 = X) as Hsub.
  { intros A X C E. rewrite <- (sub_sub (length A) (length X) at_ n) by (rewrite <- Elp, E, !length_app; lia). rewrite S1, E. by apply sub_at. }
  split; [rewrite <- (Nat.add_0_r at_); apply (Hsub [] _ (zeros (length N))); by rewrite Ep, <- app_assoc|].
  cbn zeta. unfold memmove. rewrite (Hsub B F (zeros (length N)) Ep). rewrite (splice_sub blk1 at_ p) by (rewrite ?Elp; done || unfold n; lia).
  set (p1 := splice p (length B + length N) F). assert (length p1 = length p) as Elp1 by (unfold p1; apply length_splice). apply Forall_app in Hbd as [HbB HbF].
  assert (bytes_ok p1) as Hb1 by (unfold p1; rewrite Ep; apply splice_bytes_ok; [|done]; apply Forall_app; split; [done|]; apply Forall_app; split; [done|apply zeros_bytes_ok]).
  destruct (payload_store bs blk1 _ k p at_ p1 R1 Hk G1) as (R2 & K2 & F2); try done; [by rewrite Elp|].
  rewrite item_set_set in R2. set (blk2 := splice blk1 at_ p1) in *.
  assert (sub at_ (length p1) blk2 = p1) as S2 by (unfold blk2; rewrite sub_splice_same by lia; done).
  rewrite (splice_sub blk2 at_ p1) by (exact S2 || (rewrite ?(ir_len _ _ _ R2), ?Elp1, ?Elp; unfold n; lia)).
  assert (splice p1 (length B) N = B ++ N ++ F) as -> by (apply (make_gap B F (zeros (length N))); [done|apply length_zeros]).
  destruct (payload_store bs blk2 _ k p1 at_ (B ++ N ++ F) R2) as (R3 & K3 & _); try done.
  { by rewrite items_map_get, items_map_set, lookup_insert_eq. }
  { by rewrite Eln, Elp1. }
  { apply Forall_app; split; [done|]. by apply Forall_app. }
  rewrite item_set_set in R3. split; [done|]. intros w off H1 H2. by rewrite K3, K2, K1.
Qed.


Module ItemsExample.
(** A 512-byte cnode block with a comment of 5 bytes and a name of 3. *)
Definition its : items := [(2, [1; 2; 3; 4; 5]); (1, [7; 8; 9])].
Definition blk : list Z := wr 4 (zeros 360) 100 24 ++ encode_items its ++ zeros 128.
Lemma blk_rep : items_rep 512 blk its.
Proof.
  split; [by vm_compute|by vm_compute| |by exists (zeros 128)|by vm_compute| |].
  - unfold blk, bytes_ok. rewrite !Forall_app. split_and!; [apply wr_bytes_ok, zeros_bytes_ok| |apply zeros_bytes_ok].
    vm_compute; repeat constructor; by vm_compute.
  - repeat constructor; by vm_compute.
  - vm_compute. repeat constructor; set_solver.
Qed.
End ItemsExample.
