(* ===== verification/Btree.v ===== *)
(** The shared B+tree ([src/logaic/carafs/btree.c], [include/cara/carafs.h]): node access, descent,
    insertion with splits and separator repair, and the extent flavour that maps file blocks to
    volume blocks. A node or cnode pointer is the index of its pinned cache entry; node contents are
    the bytes of that entry. *)

From Stdlib Require Import Sorting.Sorted.
From S2P Require Import Prelude Format Volume Cache Journal Wal Alloc Items.

(** * Node images *)

Definition BT_MAX_DEPTH : nat := 8.
Definition CARAFS_BT_DIR : Z := 1.
Definition CARAFS_BT_EXTENT : Z := 2.
Definition CARAFS_BT_BODY_OFF : nat := 32.
Definition BT_CRC : nat := 4.
Definition BT_BLOCK_NO : nat := 8.
Definition CN_BLOCK_NO : nat := 8.
Definition CN_TREE_ROOT : nat := 88.
Definition CN_N_INLINE : nat := 96.
Definition CN_EXT : nat := 104.
Definition CARAFS_INLINE_EXTENTS : nat := 16.
Definition REC_SIZE : nat := 24.

Definition bt_magic (n : list Z) : Z := rd 4 n 0.
Definition bt_block_no (n : list Z) : Z := rd 8 n BT_BLOCK_NO.
Definition bt_level (n : list Z) : Z := rd 1 n 16.
Definition bt_flavour (n : list Z) : Z := rd 1 n 17.
Definition n_records (n : list Z) : Z := rd 2 n 18.
Definition used_bytes (n : list Z) : Z := rd 4 n 20.

(** The record [i] of the body: [struct CarafsBtInteriorRec] and [struct CarafsExtentRec]. *)
Definition bt_rec (i : Z) : nat := (CARAFS_BT_BODY_OFF + Z.to_nat i * REC_SIZE)%nat.
Definition key_hi (n : list Z) (i : Z) : Z := rd 8 n (bt_rec i).
Definition key_lo (n : list Z) (i : Z) : Z := rd 8 n (bt_rec i + 8).
Definition child_of (n : list Z) (i : Z) : Z := rd 8 n (bt_rec i + 16).
Record CarafsExtentRec := mkExt { xr_file_off : Z; xr_start : Z; xr_count : Z; xr_flags : Z; xr_rsvd : Z }.
Definition file_off (n : list Z) (i : Z) : Z := rd 8 n (bt_rec i).
Definition bt_erec (n : list Z) (i : Z) : CarafsExtentRec :=
  mkExt (rd 8 n (bt_rec i)) (rd 8 n (bt_rec i + 8)) (rd 4 n (bt_rec i + 16)) (rd 2 n (bt_rec i + 20)) (rd 2 n (bt_rec i + 22)).
Definition erec_bytes (r : CarafsExtentRec) : list Z :=
  le_put 8 (xr_file_off r) ++ le_put 8 (xr_start r) ++ le_put 4 (xr_count r) ++ le_put 2 (xr_flags r) ++ le_put 2 (xr_rsvd r).
Definition irec_bytes (hi lo child : Z) : list Z := le_put 8 hi ++ le_put 8 lo ++ le_put 8 child.

Definition key_cmp (ahi alo bhi blo : Z) : Z :=
  if negb (ahi =? bhi) then if ahi <? bhi then -1 else 1
  else if negb (alo =? blo) then if alo <? blo then -1 else 1 else 0.

(** A dirent starts with its hash; the collision sequence is byte 18. *)
Definition node_min_key (n : list Z) : Z * Z :=
  if 0 <? bt_level n then (key_hi n 0, key_lo n 0)
  else if bt_flavour n =? CARAFS_BT_EXTENT then (file_off n 0, 0)
  else (rd 8 n CARAFS_BT_BODY_OFF, rd 1 n (CARAFS_BT_BODY_OFF + 18)).

(** The binary search of [bt_idescend] and [et_lfloor]: [while (hi - lo > 1)]. *)
Fixpoint bsearch (fuel : nat) (le : Z -> bool) (lo hi : Z) : Z :=
  match fuel with
  | O => lo
  | S fuel =>
      if 1 <? hi - lo then
        let mid := (lo + hi) / 2 in
        if le mid then bsearch fuel le mid hi else bsearch fuel le lo mid
      else lo
  end.
(** The index and [before_all]. *)
Definition bt_idescend (n : list Z) (hi lo : Z) : Z * bool :=
  (bsearch (Z.to_nat (n_records n)) (fun mid => key_cmp (key_hi n mid) (key_lo n mid) hi lo <=? 0) 0 (n_records n),
   (n_records n =? 0) || (0 <? key_cmp (key_hi n 0) (key_lo n 0) hi lo)).
Definition et_lfloor (n : list Z) (fblk : Z) : Z :=
  if (n_records n =? 0) || (fblk <? file_off n 0) then n_records n
  else bsearch (Z.to_nat (n_records n)) (fun mid => file_off n mid <=? fblk) 0 (n_records n).

Definition node_insert_at (pos : Z) (rec : list Z) (n : list Z) : list Z :=
  let n := memmove n (bt_rec (pos + 1)) (bt_rec pos) (Z.to_nat (n_records n - pos) * REC_SIZE) in
  let n := splice n (bt_rec pos) rec in
  let n := wr 2 n 18 (u16 (n_records n + 1)) in
  wr 4 n 20 (u32 (used_bytes n + Z.of_nat REC_SIZE)).
(** The two halves: what stays, and what goes into the empty [rgt]. *)
Definition split_left (n : list Z) : list Z :=
  let keep := n_records n / 2 in
  let move := n_records n - keep in
  let n := memzero n (bt_rec keep) (Z.to_nat move * REC_SIZE) in
  let n := wr 2 n 18 (u16 keep) in
  wr 4 n 20 (u32 (keep * Z.of_nat REC_SIZE)).
Definition split_right (n rgt : list Z) : list Z :=
  let keep := n_records n / 2 in
  let move := n_records n - keep in
  let rgt := splice rgt CARAFS_BT_BODY_OFF (sub (bt_rec keep) (Z.to_nat move * REC_SIZE) n) in
  let rgt := wr 2 rgt 18 (u16 move) in
  wr 4 rgt 20 (u32 (move * Z.of_nat REC_SIZE)).

Section Btree.
Context {D : Type} `{!BlockDev D}.
Abbreviation mount := (CarafsMount D).

(** * Nodes in the cache *)

Definition node (m : mount) (n : Z) : list Z := e_data (ent m n).
(** A store through a node pointer. *)
Definition put_node (n : Z) (f : list Z -> list Z) : ST mount unit :=
  st_mod (upd_ent n (fun e => ent_set_data (f (e_data e)) e)).

Definition bt_cap (m : mount) : Z := (Z.of_nat (m_block_size m) - Z.of_nat CARAFS_BT_BODY_OFF) / Z.of_nat REC_SIZE.

Definition bt_get (block flavour : Z) : ST mount Z :=
  '(idx, fresh) ← carafs_cache_get block CARAFS_GET_READ;
  m ← st_get;
  let n := node m idx in
  if negb (bt_magic n =? CARAFS_MAGIC_BTREE) || negb (bt_block_no n =? block) || negb (bt_flavour n =? flavour) || (bt_cap m <? n_records n)
  then st_mod (carafs_cache_put block);; st_err CARA_EBADMAGIC
  else if fresh && negb (block_crc_ok n (m_block_size m) BT_CRC) then st_mod (carafs_cache_put block);; st_err CARA_EBADMAGIC
  else mret idx.
Definition bt_put (n : Z) : ST mount unit := st_mod (fun m => carafs_cache_put (bt_block_no (node m n)) m).
Definition bt_dirty (n : Z) : ST mount unit :=
  m ← st_get;
  put_node n (fun blk => carafs_put_crc blk (m_block_size m) BT_CRC);;
  block ← st_gets (fun m => bt_block_no (node m n));
  carafs_txn_dirty block.

Definition bt_new (hint level flavour : Z) : ST mount Z :=
  block ← carafs_alloc_block hint;
  '(idx, _) ← carafs_cache_get block CARAFS_GET_ZERO;
  put_node idx (fun blk => wr 1 (wr 1 (wr 8 (wr 4 blk 0 CARAFS_MAGIC_BTREE) BT_BLOCK_NO block) 16 level) 17 flavour);;
  mret idx.

(** The right sibling and its smallest key. *)
Definition node_split_fixed (n flavour : Z) : ST mount (Z * (Z * Z)) :=
  m ← st_get;
  rgt ← bt_new (bt_block_no (node m n)) (bt_level (node m n)) flavour;
  m ← st_get;
  put_node rgt (split_right (node m n));;
  put_node n split_left;;
  sep ← st_gets (fun m => node_min_key (node m rgt));
  mret (rgt, sep).

(** * Propagation to the root *)

(** A split-off subtree on its way up: its smallest key and its block. *)
Abbreviation carry := (option (Z * Z * Z)).

(** Insert the pending carry after slot [idx] of the pinned [parent]; what is carried further. An
    error has put the parent. *)
Definition insert_carry (parent flavour idx : Z) (hi lo child : Z) : ST mount carry :=
  m ← st_get;
  let ipos := u32 (idx + 1) in
  if n_records (node m parent) <? bt_cap m then put_node parent (node_insert_at ipos (irec_bytes hi lo child));; mret None
  else
    rc ← st_try (node_split_fixed parent flavour);
    match rc with
    | Err e => bt_put parent;; st_err e
    | Ok (rgt, (sep_hi, sep_lo)) =>
        m ← st_get;
        (if 0 <=? key_cmp hi lo sep_hi sep_lo
         then put_node rgt (node_insert_at (u32 (ipos - n_records (node m parent))) (irec_bytes hi lo child))
         else put_node parent (node_insert_at ipos (irec_bytes hi lo child)));;
        m ← st_get;
        let '(carry_hi, carry_lo) := node_min_key (node m rgt) in
        let carry_child := bt_block_no (node m rgt) in
        rcr ← st_try (bt_dirty rgt);
        bt_put rgt;;
        match rcr with
        | Err e => bt_put parent;; st_err e
        | Ok _ => mret (Some (carry_hi, carry_lo, carry_child))
        end
    end.

(** The tree grows a level. *)
Definition grow_root (cn flavour : Z) (carry_hi carry_lo carry_child : Z) : ST mount unit :=
  m ← st_get;
  old_root ← bt_get (rd 8 (node m cn) CN_TREE_ROOT) flavour;
  m ← st_get;
  let '(lhi, llo) := node_min_key (node m old_root) in
  let new_level := u8 (bt_level (node m old_root) + 1) in
  bt_put old_root;;
  m ← st_get;
  root ← bt_new (rd 8 (node m cn) CN_BLOCK_NO) new_level flavour;
  m ← st_get;
  put_node root (fun n =>
    let n := splice n (bt_rec 0) (irec_bytes lhi llo (rd 8 (node m cn) CN_TREE_ROOT)) in
    let n := splice n (bt_rec 1) (irec_bytes carry_hi carry_lo carry_child) in
    wr 4 (wr 2 n 18 2) 20 (2 * Z.of_nat REC_SIZE));;
  rc ← st_try (bt_dirty root);
  m ← st_get;
  put_node cn (fun c => wr 8 c CN_TREE_ROOT (bt_block_no (node m root)));;
  bt_put root;;
  st_lift rc.

(** [path] from the leaf's parent up to the root. *)
Fixpoint bt_propagate (cn flavour : Z) (path : list (Z * Z)) (child_block : Z) (c : carry) : ST mount unit :=
  match path with
  | [] => match c with None => mret tt | Some (hi, lo, child) => grow_root cn flavour hi lo child end
  | (pblock, idx) :: path =>
      parent ← bt_get pblock flavour;
      rc ← st_try (bt_get child_block flavour);
      match rc with
      | Err e => bt_put parent;; st_err e
      | Ok child =>
          m ← st_get;
          let '(chi, clo) := node_min_key (node m child) in
          bt_put child;;
          m ← st_get;
          let stale := negb (key_hi (node m parent) idx =? chi) || negb (key_lo (node m parent) idx =? clo) in
          (if stale then put_node parent (fun n => wr 8 (wr 8 n (bt_rec idx) chi) (bt_rec idx + 8) clo) else mret tt);;
          c' ← (match c with None => mret None | Some (hi, lo, child) => insert_carry parent flavour idx hi lo child end);
          (if stale || match c with None => false | Some _ => true end then
             rc ← st_try (bt_dirty parent);
             match rc with Err e => bt_put parent;; st_err e | Ok _ => mret tt end
           else mret tt);;
          bt_put parent;;
          bt_propagate cn flavour path pblock c'
      end
  end.

(** * The extent tree *)

Fixpoint etree_floor_from (fuel : nat) (block fblk : Z) : ST mount CarafsExtentRec :=
  match fuel with
  | O => st_err CARA_EBADMAGIC
  | S fuel =>
      n ← bt_get block CARAFS_BT_EXTENT;
      m ← st_get;
      if 0 <? bt_level (node m n) then
        let '(i, before_all) := bt_idescend (node m n) fblk 0 in
        if before_all : bool then bt_put n;; st_err CARA_ENOTFOUND
        else let child := child_of (node m n) i in bt_put n;; etree_floor_from fuel child fblk
      else
        let i := et_lfloor (node m n) fblk in
        if i =? n_records (node m n) then bt_put n;; st_err CARA_ENOTFOUND
        else let out := bt_erec (node m n) i in bt_put n;; mret out
  end.
Definition carafs_etree_floor (root fblk : Z) : ST mount CarafsExtentRec := etree_floor_from BT_MAX_DEPTH root fblk.

(** The descent to the leaf for a key, the path in reverse; the leaf is pinned. *)
Fixpoint etree_descend (fuel : nat) (block fblk : Z) (path : list (Z * Z)) : ST mount (Z * Z * list (Z * Z)) :=
  match fuel with
  | O => st_err CARA_EBADMAGIC
  | S fuel =>
      n ← bt_get block CARAFS_BT_EXTENT;
      m ← st_get;
      if 0 <? bt_level (node m n) then
        let i := fst (bt_idescend (node m n) fblk 0) in
        let child := child_of (node m n) i in
        bt_put n;; etree_descend fuel child fblk ((block, i) :: path)
      else mret (n, block, path)
  end.

(** [for (i = 0; i < n_records; i++) if (r[i].file_off > fblk)], from [i] on. *)
Fixpoint first_past (fuel : nat) (n : list Z) (fblk i : Z) : option Z :=
  match fuel with
  | O => None
  | S fuel => if i <? n_records n then if fblk <? file_off n i then Some i else first_past fuel n fblk (i + 1) else None
  end.
Fixpoint leftmost (fuel : nat) (child : Z) : ST mount CarafsExtentRec :=
  match fuel with
  | O => st_err CARA_EBADMAGIC
  | S fuel =>
      n ← bt_get child CARAFS_BT_EXTENT;
      m ← st_get;
      if 0 <? bt_level (node m n) then let child := child_of (node m n) 0 in bt_put n;; leftmost fuel child
      else
        let out := bt_erec (node m n) 0 in
        let ok := 0 <? n_records (node m n) in
        bt_put n;; if ok then mret out else st_err CARA_EBADMAGIC
  end.
Fixpoint etree_ascend (path : list (Z * Z)) : ST mount CarafsExtentRec :=
  match path with
  | [] => st_err CARA_ENOTFOUND
  | (block, idx) :: path =>
      n ← bt_get block CARAFS_BT_EXTENT;
      m ← st_get;
      if n_records (node m n) <=? u32 (idx + 1) then bt_put n;; etree_ascend path
      else let child := child_of (node m n) (u32 (idx + 1)) in bt_put n;; leftmost BT_MAX_DEPTH child
  end.
Definition carafs_etree_next (root fblk : Z) : ST mount CarafsExtentRec :=
  '(n, _, path) ← etree_descend BT_MAX_DEPTH root fblk [];
  m ← st_get;
  match first_past (Z.to_nat (n_records (node m n))) (node m n) fblk 0 with
  | Some i => let out := bt_erec (node m n) i in bt_put n;; mret out
  | None => bt_put n;; etree_ascend path
  end.

(** Whether [rec] continues its predecessor [pred]. *)
Definition merges (pred rec : CarafsExtentRec) : bool :=
  (u64 (xr_file_off pred + xr_count pred) =? xr_file_off rec) && (u64 (xr_start pred + xr_count pred) =? xr_start rec) &&
  (xr_flags pred =? xr_flags rec) && (xr_count pred + xr_count rec <=? 0xFFFFFFFF).

Definition carafs_etree_insert (cn : Z) (rec : CarafsExtentRec) : ST mount unit :=
  m ← st_get;
  '(n, block, path) ← etree_descend BT_MAX_DEPTH (rd 8 (node m cn) CN_TREE_ROOT) (xr_file_off rec) [];
  m ← st_get;
  let floor := et_lfloor (node m n) (xr_file_off rec) in
  let found := negb (floor =? n_records (node m n)) in
  if found && merges (bt_erec (node m n) floor) rec then
    put_node n (fun b => wr 4 b (bt_rec floor + 16) (u32 (xr_count (bt_erec b floor) + xr_count rec)));;
    rc ← st_try (bt_dirty n);
    bt_put n;; st_lift rc
  else
    let pos := if found then u32 (floor + 1) else 0 in
    if n_records (node m n) <? bt_cap m then
      put_node n (node_insert_at pos (erec_bytes rec));;
      rc ← st_try (bt_dirty n);
      bt_put n;;
      match rc with Err e => st_err e | Ok _ => bt_propagate cn CARAFS_BT_EXTENT path block None end
    else
      rs ← st_try (node_split_fixed n CARAFS_BT_EXTENT);
      match rs with
      | Err e => bt_put n;; st_err e
      | Ok (rgt, (sep_hi, sep_lo)) =>
          m ← st_get;
          (if 0 <=? key_cmp (xr_file_off rec) 0 sep_hi sep_lo
           then put_node rgt (node_insert_at (u32 (pos - n_records (node m n))) (erec_bytes rec))
           else put_node n (node_insert_at pos (erec_bytes rec)));;
          m ← st_get;
          let '(carry_hi, carry_lo) := node_min_key (node m rgt) in
          let carry_child := bt_block_no (node m rgt) in
          rc ← st_try (bt_dirty n);
          rc2 ← st_try (bt_dirty rgt);
          bt_put n;; bt_put rgt;;
          match rc, rc2 with
          | Err e, _ => st_err e
          | _, Err e => st_err e
          | Ok _, Ok _ => bt_propagate cn CARAFS_BT_EXTENT path block (Some (carry_hi, carry_lo, carry_child))
          end
      end.

(** ** From inline extents to a tree *)

(** [cn->ext[i]]: start, count, flags. *)
Definition ext_at (c : list Z) (i : nat) : Z * Z * Z :=
  (rd 8 c (CN_EXT + 16 * i), rd 4 c (CN_EXT + 16 * i + 8), rd 2 c (CN_EXT + 16 * i + 12)).
(** The leaf records of the inline extents from [i] on: holes become absent keys. *)
Fixpoint spill_recs (k : nat) (c : list Z) (i : nat) (fo : Z) : list CarafsExtentRec :=
  match k with
  | O => []
  | S k =>
      let '(start, count, flags) := ext_at c i in
      (if negb (start =? 0) then [mkExt fo start count flags 0] else []) ++ spill_recs k c (S i) (u64 (fo + count))
  end.
Fixpoint put_erecs (n : list Z) (i : Z) (rs : list CarafsExtentRec) : list Z :=
  match rs with [] => n | r :: rs => put_erecs (splice n (bt_rec i) (erec_bytes r)) (i + 1) rs end.
Definition carafs_etree_spill (cn : Z) : ST mount unit :=
  m ← st_get;
  leaf ← bt_new (rd 8 (node m cn) CN_BLOCK_NO) 0 CARAFS_BT_EXTENT;
  m ← st_get;
  let rs := spill_recs (Z.to_nat (rd 4 (node m cn) CN_N_INLINE)) (node m cn) 0 0 in
  put_node leaf (fun n =>
    let n := put_erecs n 0 rs in
    wr 4 (wr 2 n 18 (u16 (Z.of_nat (length rs)))) 20 (u32 (Z.of_nat (length rs) * Z.of_nat REC_SIZE)));;
  rc ← st_try (bt_dirty leaf);
  leaf_block ← st_gets (fun m => bt_block_no (node m leaf));
  bt_put leaf;;
  match rc with
  | Err e => st_err e
  | Ok _ =>
      put_node cn (fun c => memzero (wr 4 (wr 8 c CN_TREE_ROOT leaf_block) CN_N_INLINE 0) CN_EXT (16 * CARAFS_INLINE_EXTENTS))
  end.

(** ** Freeing a whole tree *)

Fixpoint free_erecs (k : nat) (n i : Z) : ST mount unit :=
  match k with
  | O => mret tt
  | S k =>
      r ← st_gets (fun m => bt_erec (node m n) i);
      carafs_free_extent (xr_start r) (xr_count r);;
      free_erecs k n (i + 1)
  end.
(** The loop over the explicit stack of (block, next child); [fuel] bounds the visits. *)
Fixpoint tree_free_loop (fuel : nat) (flavour : Z) (free_extents : bool) (st : list (Z * Z)) : ST mount unit :=
  match st, fuel with
  | [], _ => mret tt
  | _, O => st_err CARA_EBADMAGIC
  | (block, next_child) :: rest, S fuel =>
      n ← bt_get block flavour;
      m ← st_get;
      if bt_level (node m n) =? 0 then
        rc ← st_try (if free_extents then free_erecs (Z.to_nat (n_records (node m n))) n 0 else mret tt);
        bt_put n;;
        match rc with
        | Err e => st_err e
        | Ok _ => carafs_free_extent block 1;; tree_free_loop fuel flavour free_extents rest
        end
      else if next_child <? n_records (node m n) then
        let child := child_of (node m n) next_child in
        bt_put n;;
        if (length st =? BT_MAX_DEPTH)%nat then st_err CARA_EBADMAGIC
        else tree_free_loop fuel flavour free_extents ((child, 0) :: (block, next_child + 1) :: rest)
      else
        bt_put n;;
        carafs_free_extent block 1;;
        tree_free_loop fuel flavour free_extents rest
  end.
Definition tree_free_all (fuel : nat) (cn flavour : Z) (free_extents : bool) : ST mount unit :=
  m ← st_get;
  tree_free_loop fuel flavour free_extents [(rd 8 (node m cn) CN_TREE_ROOT, 0)];;
  put_node cn (fun c => wr 8 c CN_TREE_ROOT 0).
Definition carafs_etree_free_all (fuel : nat) (cn : Z) : ST mount unit := tree_free_all fuel cn CARAFS_BT_EXTENT true.
Definition carafs_dtree_free_all (fuel : nat) (cn : Z) : ST mount unit := tree_free_all fuel cn CARAFS_BT_DIR false.
End Btree.

(** * Searching a node *)

Lemma bsearch_spec fuel le lo hi n :
  (forall i j, 0 <= i <= j -> j < n -> le j = true -> le i = true) ->
  0 <= lo < hi -> hi <= n -> le lo = true -> (forall j, hi <= j < n -> le j = false) -> hi - lo <= Z.of_nat fuel + 1 ->
  let r := bsearch fuel le lo hi in lo <= r < hi /\ le r = true /\ forall j, r < j < n -> le j = false.
Proof.
  intros Hmono. revert lo hi. induction fuel as [|fuel IH]; intros lo hi Hlo Hhi Hle Hgt Hf; cbn [bsearch].
  { split_and!; try done; [lia|]. intros j Hj. apply Hgt. lia. }
  destruct (Z.ltb_spec 1 (hi - lo)).
  - set (mid := (lo + hi) / 2). assert (lo < mid < hi) as Hm by (unfold mid; dmlia). cbn zeta. destruct (le mid) eqn:Em.
    + destruct (IH mid hi) as (H1 & H2 & H3); try done; try lia. split_and!; try done; lia.
    + destruct (IH lo mid) as (H1 & H2 & H3); try done; try lia; [|split_and!; try done; lia].
      intros j Hj. destruct (le j) eqn:Ej; [|done]. by rewrite (Hmono mid j ltac:(lia) ltac:(lia) Ej) in Em.
  - split_and!; try done; [lia|]. intros j Hj. apply Hgt. lia.
Qed.

(** ** The floor of a key in a list of records *)

Definition floor_of (rs : list CarafsExtentRec) (fblk : Z) : option CarafsExtentRec :=
  last (List.filter (fun r => xr_file_off r <=? fblk) rs).
Definition off_lt (r s : CarafsExtentRec) : Prop := xr_file_off r < xr_file_off s.

Lemma filter_none {A} (p : A -> bool) l : (forall x, x ∈ l -> p x = false) -> List.filter p l = [].
Proof.
  induction l as [|x l IH]; intros H; simpl; [done|]. rewrite (H x) by set_solver. apply IH. intros y Hy. apply H. set_solver.
Qed.
Lemma filter_nonempty {A} (p : A -> bool) l x : x ∈ l -> p x = true -> List.filter p l <> [].
Proof. intros Hx Hp E. assert (x ∈ List.filter p l) as Hin; [|rewrite E in Hin; set_solver]. apply list_elem_of_In, List.filter_In. split; [by apply list_elem_of_In|done]. Qed.
Lemma last_app_ne {A} (l k : list A) : k <> [] -> last (l ++ k) = last k.
Proof. intros H. rewrite last_app. destruct k as [|x k]; [done|]. rewrite last_cons. by destruct (last k). Qed.

(** The records up to the last one that is not past the key, of a sorted array. *)
Lemma floor_array (f : Z -> CarafsExtentRec) n k fblk :
  0 <= k < n -> (forall j, 0 <= j <= k -> xr_file_off (f j) <= fblk) -> (forall j, k < j < n -> fblk < xr_file_off (f j)) ->
  floor_of (map f (seqZ 0 n)) fblk = Some (f k).
Proof.
  intros Hk Hle Hgt. unfold floor_of. replace n with ((k + 1) + (n - k - 1)) by lia.
  rewrite seqZ_app, map_app, List.filter_app by lia. rewrite (filter_none _ (map f (seqZ (0 + (k + 1)) (n - k - 1)))).
  2:{ intros x (j & -> & Hj%elem_of_seqZ)%list_elem_of_fmap. apply Z.leb_gt, Hgt. lia. }
  rewrite app_nil_r, seqZ_app, map_app, List.filter_app by lia. rewrite (seqZ_cons (0 + k) 1), (seqZ_nil _ (Z.pred 1)) by lia.
  simpl. rewrite (proj2 (Z.leb_le _ _)) by (apply Hle; lia). apply last_snoc.
Qed.
Lemma floor_none rs fblk : (forall r, r ∈ rs -> fblk < xr_file_off r) -> floor_of rs fblk = None.
Proof. intros H. unfold floor_of. rewrite filter_none; [done|]. intros x Hx. apply Z.leb_gt. by apply H. Qed.
Lemma floor_segment A x B fblk r0 :
  r0 ∈ x -> xr_file_off r0 <= fblk -> (forall r, r ∈ concat B -> fblk < xr_file_off r) ->
  floor_of (concat (A ++ x :: B)) fblk = floor_of x fblk.
Proof.
  intros Hr Hle HB. unfold floor_of. rewrite concat_app. simpl. rewrite !List.filter_app, (filter_none _ (concat B)), app_nil_r.
  - apply last_app_ne. apply (filter_nonempty _ _ r0); [done|by apply Z.leb_le].
  - intros y Hy. apply Z.leb_gt. by apply HB.
Qed.

(** * Walks *)

Section Walk.
Context {D : Type} `{!BlockDev D} `{!BlockDevLaws D}.
Abbreviation mount := (CarafsMount D).
Implicit Types m : mount.

(** A sealed node of the volume. *)
Record bt_node_ok (bs : nat) (v : Z -> list Z) (n : Z) (flavour b : Z) : Prop := {
  bn_dev : 0 <= b < n;
  bn_len : length (v b) = bs;
  bn_bytes : bytes_ok (v b);
  bn_magic : bt_magic (v b) = CARAFS_MAGIC_BTREE;
  bn_no : bt_block_no (v b) = b;
  bn_flavour : bt_flavour (v b) = flavour;
  bn_cap : n_records (v b) <= (Z.of_nat bs - Z.of_nat CARAFS_BT_BODY_OFF) / Z.of_nat REC_SIZE;
  bn_crc : block_crc_ok (v b) bs BT_CRC = true
}.
Abbreviation node_at m := (bt_node_ok (m_block_size m) (view m) (dev_n m)).

(** A slot of the cache can be taken for another block. *)
Definition has_room m : Prop := exists i, valid_idx m i /\ evictable (ent m i).

(** The walks tell "no such record" from failures by the code CARA_ENOTFOUND, which the device does
    not report. *)
Definition dev_no_notfound : Prop := forall d : D,
  (forall b e, fst (bdev_read d b) = Err e -> e <> CARA_ENOTFOUND) /\ (forall b data e, fst (bdev_write d b data) = Err e -> e <> CARA_ENOTFOUND).
Lemma obtain_err fuel m i e m1 : dev_no_notfound -> ent_obtain_from fuel i m = (Err e, m1) -> e <> CARA_ENOTFOUND.
Proof.
  intros Hd. revert i. induction fuel as [|fuel IH]; intros i E; cbn [ent_obtain_from] in E; [by injection E as <- _|].
  destruct (_ =? _); [by injection E as <- _|]. st_simp_in E. destruct (_ =? _); [done|].
  destruct (_ && _); [|by apply (IH _ E)]. destruct (e_dirty _); [|done]. unfold ent_writeback in E. st_simp_in E. rewrite st_bind_eq in E.
  unfold dev_write in E. pose proof (proj2 (Hd (m_bdev m)) (e_block (ent m i)) (e_data (ent m i))) as Hw.
  destruct (bdev_write _ _ _) as [[[]|e1] d1]; [done|]. injection E as <- _. by apply Hw.
Qed.
Lemma cache_get_err m b mode e m1 : dev_no_notfound -> carafs_cache_get b mode m = (Err e, m1) -> e <> CARA_ENOTFOUND.
Proof.
  intros Hd E. unfold carafs_cache_get in E. st_simp_in E. destruct (_ <=? _); [by injection E as <- _|].
  destruct (negb _); [done|]. st_simp_in E. unfold cache_fill in E. st_simp_in E. rewrite st_bind_eq in E.
  destruct (ent_obtain m) as [[i|e1] m2] eqn:Eo; [|injection E as <- _; by apply (obtain_err _ m _ e1 m2 Hd Eo)].
  destruct mode; [|done]. st_simp_in E. rewrite st_bind_eq in E. unfold dev_read in E. pose proof (proj1 (Hd (m_bdev m2)) b) as Hr.
  destruct (bdev_read _ _) as [[data|e1] d1]; [done|]. injection E as <- _. by apply Hr.
Qed.

Lemma bt_get_spec m b fl r m1 :
  cache_inv m -> pins_ok m -> node_at m fl b -> bt_get b fl m = (r, m1) ->
  match r with
  | Ok n => exists fresh, got m b CARAFS_GET_READ n fresh m1 /\ node m1 n = view m b
  | Err e => shows (view m) m m1 /\ ~ (dev_reliable (D := D) /\ has_room m) /\ (dev_no_notfound -> e <> CARA_ENOTFOUND)
  end.
Proof.
  intros Hc Hp [Hb Hlen Hby H1 H2 H3 H4 H5] E. unfold bt_get in E. rewrite st_bind_eq in E.
  destruct (carafs_cache_get b CARAFS_GET_READ m) as [rg m2] eqn:Eg.
  pose proof (cache_get_spec m b _ rg m2 Hc Hp (proj1 Hb) Eg) as Hs. destruct rg as [[idx fresh]|e].
  2:{ simplify_eq. destruct Hs as [Hk Hh]. split_and!; [| |by intros Hd; apply (cache_get_err m b _ e m1 Hd Eg)].
      - apply kept_shows; [done|]. apply held_pins; auto; [apply (vk_inv _ _ Hk)|apply (vk_len _ _ Hk)].
      - intros [Hrel Hroom]. pose proof (cache_get_ok m b CARAFS_GET_READ Hrel Hc Hb (or_intror Hroom)) as Hok. by rewrite Eg in Hok. }
  destruct Hs as [Hbd Hg]. st_simp_in E.
  assert (node m2 idx = view m b) as En.
  { unfold node. rewrite (got_data _ _ _ _ _ _ Hbd Hg), (got_view _ _ _ _ _ _ Hg b Hbd), andb_false_r. done. }
  unfold bt_cap in E. rewrite En, (got_bs _ _ _ _ _ _ Hg), H1, H2, H3, !Z.eqb_refl, (proj2 (Z.ltb_ge _ _) H4), H5 in E. cbn in E.
  rewrite andb_false_r in E. st_simp_in E. simplify_eq. by exists fresh.
Qed.

Lemma get_put_room m b n fresh m1 :
  cache_inv m -> in_dev m b -> got m b CARAFS_GET_READ n fresh m1 -> has_room m -> has_room (carafs_cache_put b m1).
Proof.
  intros Hc Hb Hg (j & Hj & He). pose proof (got_len _ _ _ _ _ _ Hg) as En. pose proof (got_inv _ _ _ _ _ _ Hg) as Hc1.
  pose proof (got_valid _ _ _ _ _ _ Hg) as Hv. assert (valid_idx m1 n) as Hv1 by (unfold valid_idx in *; by rewrite En).
  rewrite (put_pinned m1 b n Hc1 Hv1 (got_block _ _ _ _ _ _ Hg) (in_dev_not_none m b Hc Hb) (got_pinned _ _ _ _ _ _ Hg)).
  assert (forall k, valid_idx m k -> valid_idx (upd_ent n (fun e => ent_set_pins (e_pins e - 1) e) m1) k) as Hvv.
  { intros k Hk. apply valid_upd. unfold valid_idx in *. by rewrite En. }
  destruct (decide (j = n)) as [->|Hne].
  - exists n. split; [by apply Hvv|]. rewrite ent_upd_same by done. pose proof (got_self _ _ _ _ _ _ Hg) as Hs.
    destruct fresh; unfold ent_user in Hs; [injection Hs as _ _ E1 E2 _; right; cbn; by rewrite E1, E2|].
    destruct (ent_user_inv _ _ Hs) as (S1 & S2 & S3 & S4 & _). cbn in S1, S3, S4. destruct He as [He|[He1 He2]]; [left; cbn; congruence|].
    right. cbn. rewrite S4, He1, S3. split; [lia|done].
  - exists j. split; [by apply Hvv|]. rewrite ent_upd_ne by (done || apply Hj).
    destruct (ent_user_inv _ _ (got_others _ _ _ _ _ _ Hg j Hj Hne)) as (S1 & S2 & S3 & S4 & _). unfold evictable in *. by rewrite S1, S3, S4.
Qed.

(** A visited node is let go: nothing has changed but the LRU order. *)
Lemma bt_put_spec m b n fresh m1 fl :
  cache_inv m -> node_at m fl b -> got m b CARAFS_GET_READ n fresh m1 -> node m1 n = view m b ->
  exists m2, bt_put n m1 = (Ok tt, m2) /\ shows (view m) m m2 /\ (has_room m -> has_room m2).
Proof.
  intros Hc Hn Hg En. exists (carafs_cache_put b m1). unfold bt_put, st_mod. rewrite En, (bn_no _ _ _ _ _ Hn).
  split; [done|]. split; [by apply (got_put_shows m b n fresh); [|apply Hn|]|by apply (get_put_room m b n fresh m1 Hc (bn_dev _ _ _ _ _ Hn))].
Qed.
Lemma shows_node m m' fl b : shows (view m) m m' -> node_at m fl b -> node_at m' fl b.
Proof.
  intros [S1 S2 S3 (S4 & S5 & S6 & S7 & S8)] [Hb H0 H0' H1 H2 H3 H4 H5]. rewrite S5, S6. split; try done; rewrite S2; done.
Qed.
(** * The extent tree as a sorted list of records *)

(** The tree of height [h] at block [b] of a volume with contents [v] maps the records in order;
    every separator is the smallest key of its subtree. *)
Inductive etree (bs : nat) (v : Z -> list Z) (nb : Z) : nat -> Z -> list CarafsExtentRec -> Prop :=
| etree_leaf b : bt_node_ok bs v nb CARAFS_BT_EXTENT b -> bt_level (v b) = 0 ->
    etree bs v nb 0 b (map (bt_erec (v b)) (seqZ 0 (n_records (v b))))
| etree_inner h b (ls : list (list CarafsExtentRec)) : bt_node_ok bs v nb CARAFS_BT_EXTENT b -> 0 < bt_level (v b) ->
    0 < n_records (v b) -> Z.of_nat (length ls) = n_records (v b) ->
    (forall i l, ls !! i = Some l -> etree bs v nb h (child_of (v b) (Z.of_nat i)) l) ->
    (forall i l, ls !! i = Some l -> exists r l', l = r :: l' /\ key_hi (v b) (Z.of_nat i) = xr_file_off r /\ key_lo (v b) (Z.of_nat i) = 0) ->
    etree bs v nb (S h) b (concat ls).

Lemma sorted_app_lt (l k : list CarafsExtentRec) r s : StronglySorted off_lt (l ++ k) -> r ∈ l -> s ∈ k -> off_lt r s.
Proof.
  induction l as [|x l IH]; intros Hs Hr Hk; [set_solver|]. apply StronglySorted_inv in Hs as [Hs Hx]. rewrite Forall_forall in Hx.
  apply list_elem_of_In in Hk as Hk'. apply elem_of_cons in Hr as [->|Hr]; [|by apply IH].
  apply Hx. set_solver.
Qed.
Lemma sorted_app_r (l k : list CarafsExtentRec) : StronglySorted off_lt (l ++ k) -> StronglySorted off_lt k.
Proof. induction l as [|x l IH]; [done|]. intros [? _]%StronglySorted_inv. by apply IH. Qed.
Lemma sorted_app_l (l k : list CarafsExtentRec) : StronglySorted off_lt (l ++ k) -> StronglySorted off_lt l.
Proof.
  induction l as [|x l IH]; intros H; [constructor|]. apply StronglySorted_inv in H as [H1 H2]. constructor; [by apply IH|].
  by apply Forall_app in H2 as [? _].
Qed.
Lemma concat_split (ls : list (list CarafsExtentRec)) i l : ls !! i = Some l ->
  exists A B, ls = A ++ l :: B /\ length A = i /\ concat ls = concat A ++ l ++ concat B.
Proof.
  intros H. exists (take i ls), (drop (S i) ls). pose proof (lookup_lt_Some _ _ _ H). pose proof (take_drop_middle ls i l H) as E.
  split_and!; [done|rewrite length_take; lia|]. rewrite <- E at 1. rewrite concat_app. done.
Qed.
Lemma concat_sorted_lt ls i j l l' r s : StronglySorted off_lt (concat ls) -> ls !! i = Some l -> ls !! j = Some l' -> (i < j)%nat ->
  r ∈ l -> s ∈ l' -> off_lt r s.
Proof.
  intros Hs Hi Hj Hij Hr Hs'. destruct (concat_split ls i l Hi) as (A & B & E & EA & Ec). rewrite Ec in Hs. apply sorted_app_r in Hs.
  apply (sorted_app_lt l (concat B)); try done. rewrite E in Hj. rewrite lookup_app_r in Hj by lia. rewrite EA in Hj.
  destruct (j - i)%nat as [|k] eqn:Ek; [lia|]. simpl in Hj. apply list_elem_of_In, in_concat. exists l'. split; [|by apply list_elem_of_In].
  apply list_elem_of_In. by eapply list_elem_of_lookup_2.
Qed.

Lemma key_cmp_le h f : (key_cmp h 0 f 0 <=? 0) = (h <=? f).
Proof. unfold key_cmp. destruct (Z.eqb_spec h f), (Z.ltb_spec h f), (Z.leb_spec h f); simpl; done || lia. Qed.
Lemma key_cmp_gt h f : (0 <? key_cmp h 0 f 0) = (f <? h).
Proof. unfold key_cmp. destruct (Z.eqb_spec h f), (Z.ltb_spec h f), (Z.ltb_spec f h); simpl; done || lia. Qed.

(** The subtree that [bt_idescend] picks holds the floor of the key. *)
Lemma idescend_floor (v : Z -> list Z) b ls fblk :
  0 < n_records (v b) -> Z.of_nat (length ls) = n_records (v b) ->
  (forall i l, ls !! i = Some l -> exists r l', l = r :: l' /\ key_hi (v b) (Z.of_nat i) = xr_file_off r /\ key_lo (v b) (Z.of_nat i) = 0) ->
  StronglySorted off_lt (concat ls) ->
  let '(i, before_all) := bt_idescend (v b) fblk 0 in
  if before_all : bool then floor_of (concat ls) fblk = None
  else exists k l, i = Z.of_nat k /\ ls !! k = Some l /\ StronglySorted off_lt l /\ floor_of (concat ls) fblk = floor_of l fblk.
Proof.
  intros Hn Hl Hk Hs. unfold bt_idescend. rewrite (proj2 (Z.eqb_neq _ _)) by lia. cbn [orb].
  set (n := n_records (v b)) in *.
  assert (forall i, 0 <= i < n -> exists l r l', ls !! Z.to_nat i = Some l /\ l = r :: l' /\ key_hi (v b) i = xr_file_off r /\ key_lo (v b) i = 0) as Hkey.
  { intros i Hi. destruct (lookup_lt_is_Some_2 ls (Z.to_nat i)) as [l El]; [lia|]. destruct (Hk _ _ El) as (r & l' & E1 & E2 & E3).
    rewrite Z2Nat.id in E2, E3 by lia. by exists l, r, l'. }
  destruct (Hkey 0 ltac:(lia)) as (l0 & r0 & l0' & EL0 & EL0' & EK0 & EKl0). rewrite EK0, EKl0, key_cmp_gt.
  destruct (Z.ltb_spec fblk (xr_file_off r0)) as [Hlt|Hge].
  { apply floor_none. intros r Hr. destruct (concat_split ls 0 l0 EL0) as (A & B & _ & EA & Ec). destruct A; [|done]. simpl in Ec.
    rewrite Ec in Hr, Hs. rewrite EL0' in Hr, Hs. simpl in Hr, Hs. apply StronglySorted_inv in Hs as [_ Hs]. rewrite Forall_forall in Hs.
    apply elem_of_cons in Hr as [->|Hr]; [lia|]. specialize (Hs r Hr). unfold off_lt in Hs. lia. }
  set (le := fun mid => key_cmp (key_hi (v b) mid) (key_lo (v b) mid) fblk 0 <=? 0).
  assert (forall i l r l', 0 <= i < n -> ls !! Z.to_nat i = Some l -> l = r :: l' -> le i = (xr_file_off r <=? fblk)) as Hle.
  { intros i l r l' Hi El E. destruct (Hkey i Hi) as (l1 & r1 & l1' & E1 & E2 & E3 & E4). unfold le. rewrite E3, E4, key_cmp_le.
    rewrite El in E1. injection E1 as <-. rewrite E in E2. by injection E2 as <- _. }
  destruct (bsearch_spec (Z.to_nat n) le 0 n n) as (H1 & H2 & H3); try lia.
  - intros i j Hij Hj Ej. destruct (Z.eq_dec i j) as [->|Hne]; [done|].
    destruct (Hkey i ltac:(lia)) as (l1 & r1 & l1' & A1 & A2 & _). destruct (Hkey j ltac:(lia)) as (l2 & r2 & l2' & B1 & B2 & _).
    rewrite (Hle i l1 r1 l1') by (done || lia). rewrite (Hle j l2 r2 l2') in Ej by (done || lia). apply Z.leb_le in Ej. apply Z.leb_le.
    assert (off_lt r1 r2) as Hlt; [|unfold off_lt in Hlt; lia].
    apply (concat_sorted_lt ls (Z.to_nat i) (Z.to_nat j) l1 l2); try done; [lia|rewrite A2|rewrite B2]; set_solver.
  - rewrite (Hle 0 l0 r0 l0') by (done || lia). by apply Z.leb_le.
  - set (i := bsearch _ le 0 n) in *. destruct (Hkey i H1) as (l & r & l' & E1 & E2 & _). exists (Z.to_nat i), l.
    rewrite (Hle i l r l' H1 E1 E2) in H2. apply Z.leb_le in H2.
    destruct (concat_split ls _ l E1) as (A & B & E & EA & Ec). split_and!; [lia|done| |].
    + rewrite Ec in Hs. by apply sorted_app_r, sorted_app_l in Hs.
    + rewrite E. apply (floor_segment A l B fblk r); [rewrite E2; set_solver|done|].
      intros s Hsin. apply list_elem_of_In, in_concat in Hsin as (l2 & Hl2 & Hs2). apply list_elem_of_In, list_elem_of_lookup_1 in Hl2 as [j Hj].
      assert (ls !! (Z.to_nat i + S j)%nat = Some l2) as Ej.
      { rewrite E, lookup_app_r by lia. rewrite EA. by replace (Z.to_nat i + S j - Z.to_nat i)%nat with (S j) by lia. }
      pose proof (lookup_lt_Some _ _ _ Ej) as Hjlt. set (jj := i + 1 + Z.of_nat j).
      assert (Z.to_nat jj = (Z.to_nat i + S j)%nat) as Ejj by (unfold jj; lia).
      destruct (Hkey jj ltac:(unfold jj in *; lia)) as (l3 & r3 & l3' & F1 & F2 & _). rewrite Ejj, Ej in F1. injection F1 as ->.
      pose proof (H3 jj ltac:(unfold jj in *; lia)) as Hf. rewrite (Hle jj l3 r3 l3') in Hf by (rewrite ?Ejj; done || unfold jj in *; lia).
      apply Z.leb_gt in Hf. apply list_elem_of_In in Hs2. rewrite F2 in Hs2. apply elem_of_cons in Hs2 as [->|Hs2]; [done|].
      destruct (concat_split ls _ l3 Ej) as (A' & B' & _ & _ & Ec'). rewrite Ec', F2 in Hs. apply sorted_app_r in Hs. simpl in Hs.
      apply StronglySorted_inv in Hs as [_ Hs]. rewrite Forall_forall in Hs. specialize (Hs s ltac:(set_solver)). unfold off_lt in Hs. lia.
Qed.

(** The record that [et_lfloor] picks in a leaf. *)
Lemma lfloor_floor n fblk : 0 <= n_records n -> StronglySorted off_lt (map (bt_erec n) (seqZ 0 (n_records n))) ->
  let i := et_lfloor n fblk in
  floor_of (map (bt_erec n) (seqZ 0 (n_records n))) fblk = if i =? n_records n then None else Some (bt_erec n i).
Proof.
  intros Hn Hs. set (k := n_records n) in *.
  assert (forall i j, 0 <= i < j -> j < k -> file_off n i < file_off n j) as Hlt.
  { intros i j Hij Hj. assert (off_lt (bt_erec n i) (bt_erec n j)) as H; [|done].
    replace k with ((i + 1) + (k - i - 1)) in Hs by lia. rewrite seqZ_app, map_app in Hs by lia.
    apply (sorted_app_lt _ _ _ _ Hs); apply list_elem_of_fmap; eexists; (split; [done|]); apply elem_of_seqZ; lia. }
  unfold et_lfloor. fold k. destruct (Z.eqb_spec k 0) as [E0|Hne]; cbn [orb].
  { rewrite Z.eqb_refl, E0. done. }
  destruct (Z.ltb_spec fblk (file_off n 0)) as [H0|H0].
  { rewrite Z.eqb_refl. apply floor_none. intros r (j & -> & Hj%elem_of_seqZ)%list_elem_of_fmap.
    assert (file_off n 0 <= file_off n j) as Hle by (destruct (Z.eq_dec j 0) as [->|]; [lia|]; pose proof (Hlt 0 j); lia).
    change (fblk < file_off n j). lia. }
  destruct (bsearch_spec (Z.to_nat k) (fun mid => file_off n mid <=? fblk) 0 k k) as (H1 & H2 & H3); try lia.
  - intros i j Hij Hj Ej. apply Z.leb_le in Ej. apply Z.leb_le. destruct (Z.eq_dec i j) as [->|]; [done|]. pose proof (Hlt i j). lia.
  - set (i := bsearch _ _ 0 k) in *. rewrite (proj2 (Z.eqb_neq i k)) by lia. apply floor_array; [done| |].
    + intros j Hj. change (file_off n j <= fblk). apply Z.leb_le in H2. destruct (Z.eq_dec j i) as [->|]; [done|]. pose proof (Hlt j i). lia.
    + intros j Hj. change (fblk < file_off n j). apply Z.leb_gt. by apply H3.
Qed.

(** ** The descent *)

Lemma node_ok_ext bs v v' nb fl b : (forall b', 0 <= b' < nb -> v' b' = v b') -> bt_node_ok bs v nb fl b -> bt_node_ok bs v' nb fl b.
Proof. intros E [H1 H2 H3 H4 H5 H6 H7 H8]. split; rewrite ?E; done. Qed.

Lemma node_ok_records bs v nb fl b : bt_node_ok bs v nb fl b -> (32 <= bs)%nat -> 0 <= n_records (v b).
Proof. intros Hn Hbs. apply (rd_range 2); [apply Hn|]. rewrite (bn_len _ _ _ _ _ Hn). lia. Qed.

Lemma etree_floor_from_spec fuel h v m b rs fblk r m' :
  cache_inv m -> pins_ok m -> (32 <= m_block_size m)%nat -> (forall b, in_dev m b -> view m b = v b) ->
  etree (m_block_size m) v (dev_n m) h b rs -> (h < fuel)%nat -> StronglySorted off_lt rs ->
  etree_floor_from fuel b fblk m = (r, m') ->
  shows v m m' /\ (forall x, r = Ok x -> floor_of rs fblk = Some x) /\ (dev_no_notfound -> r = Err CARA_ENOTFOUND -> floor_of rs fblk = None) /\
  (dev_reliable (D := D) -> has_room m -> r = match floor_of rs fblk with Some x => Ok x | None => Err CARA_ENOTFOUND end).
Proof.
  revert h m b rs r m'. induction fuel as [|fuel IH]; intros h m b rs r m' Hc Hp Hbs Hv Ht Hh Hs E; [lia|].
  assert (bt_node_ok (m_block_size m) v (dev_n m) CARAFS_BT_EXTENT b) as Hnv by (by inversion Ht).
  assert (node_at m CARAFS_BT_EXTENT b) as Hn by (by apply (node_ok_ext _ v)).
  assert (view m b = v b) as Evb by (apply Hv, Hnv). assert (0 <= n_records (v b)) as Hn0 by (by eapply node_ok_records).
  assert (forall m2, shows (view m) m m2 -> shows v m m2) as Hsv.
  { intros m2 [S1 S2 S3 S4]. split; try done. intros b' Hb'. by rewrite S2, Hv. }
  cbn [etree_floor_from] in E. rewrite st_bind_eq in E. destruct (bt_get b CARAFS_BT_EXTENT m) as [rg m1] eqn:Eg.
  pose proof (bt_get_spec m b _ rg m1 Hc Hp Hn Eg) as Hg. destruct rg as [n|e].
  2:{ injection E as <- <-. destruct Hg as (Hsh & Hno & Hnf). split_and!; [by apply Hsv|done|by intros Hd [= ->]; destruct (Hnf Hd)|by intros ??; destruct Hno]. }
  destruct Hg as (fresh & Hgot & En). st_simp_in E. rewrite En, Evb in E.
  destruct (bt_put_spec m b n fresh m1 _ Hc Hn Hgot En) as (m2 & Ep & Hsh & Hroom).
  inversion Ht as [b' Hok Hlv|h' b' ls Hok Hlv Hnr Hls Hch Hkeys]; subst.
  - rewrite Hlv in E. change (0 <? 0) with false in E. cbn match in E. pose proof (lfloor_floor (v b) fblk Hn0 Hs) as Hfl. cbn zeta in Hfl.
    destruct (_ =? n_records (v b)); rewrite st_bind_eq, Ep in E; injection E as <- <-; rewrite Hfl; split_and!; auto; by intros x [= ->].
  - rewrite (proj2 (Z.ltb_lt _ _) Hlv) in E. pose proof (idescend_floor v b ls fblk Hnr Hls Hkeys Hs) as Hfl.
    destruct (bt_idescend (v b) fblk 0) as [i [|]].
    + rewrite st_bind_eq, Ep in E. injection E as <- <-. rewrite Hfl. split_and!; auto. done.
    + destruct Hfl as (k & l & -> & Hk & Hsl & ->). rewrite st_bind_eq, Ep in E. destruct (Hsv m2 Hsh) as [S1 S2 S3 (S4 & S5 & S6 & S7 & S8)].
      destruct (IH h' m2 (child_of (v b) (Z.of_nat k)) l r m') as (R1 & R2 & R3 & R4); try done.
      * by apply (shows_pins _ _ _ Hsh).
      * by rewrite S6.
      * intros b1 Hb1. apply S2. unfold in_dev in *. by rewrite <- S5.
      * rewrite S5, S6. by apply Hch.
      * lia.
      * split_and!; auto. by apply (shows_trans v v m m2 m'); [split|].
Qed.
(** C22: Extent lookup. On a volume whose extent tree at [root] (height below 8) maps the records [rs],
    sorted by file offset, [carafs_etree_floor] returns the record with the greatest offset not past
    [fblk], or CARA_ENOTFOUND when every record is past it; a record it returns is always that one,
    every block of the volume is as before and no pin is left. On a device that does not fail, with a
    cache slot to use, it always returns this answer: the descent ends and no check of a node fails. *)
Theorem etree_floor_correct h m root rs fblk r m' :
  cache_inv m -> pins_ok m -> (32 <= m_block_size m)%nat -> etree (m_block_size m) (view m) (dev_n m) h root rs ->
  (h < BT_MAX_DEPTH)%nat -> StronglySorted off_lt rs -> carafs_etree_floor root fblk m = (r, m') ->
  shows (view m) m m' /\ (forall x, r = Ok x -> floor_of rs fblk = Some x) /\
  (dev_reliable (D := D) -> has_room m -> r = match floor_of rs fblk with Some x => Ok x | None => Err CARA_ENOTFOUND end).
Proof.
  intros Hc Hp Hbs Ht Hh Hs E. by destruct (etree_floor_from_spec BT_MAX_DEPTH h (view m) m root rs fblk r m') as (? & ? & _ & ?).
Qed.
End Walk.

(** * Editing a node *)

(** The node [n] of [bs] bytes holds the 24-byte records [recs]. *)
Record node_rep (bs : nat) (n : list Z) (recs : list (list Z)) : Prop := {
  nr_len : length n = bs;
  nr_bs : (CARAFS_BT_BODY_OFF <= bs)%nat;
  nr_bytes : bytes_ok n;
  nr_body : exists rest, drop CARAFS_BT_BODY_OFF n = concat recs ++ rest;
  nr_n : n_records n = Z.of_nat (length recs);
  nr_rec : Forall (fun r => length r = REC_SIZE) recs
}.
(** The header but the two record counters is the same. *)
Definition node_header_kept (n n' : list Z) : Prop := forall k off,
  (off + k <= 18 \/ 24 <= off)%nat -> (off + k <= CARAFS_BT_BODY_OFF)%nat -> rd k n' off = rd k n off.

Lemma length_concat_recs (recs : list (list Z)) : Forall (fun r => length r = REC_SIZE) recs -> length (concat recs) = (length recs * REC_SIZE)%nat.
Proof. induction 1 as [|r recs Hr H IH]; [done|]. simpl. rewrite length_app, IH, Hr. done. Qed.
Lemma open_gap P B R g : (g <= length R)%nat ->
  splice (P ++ B ++ R) (length P + g) B = P ++ take g (B ++ R) ++ B ++ drop (g + length B) (B ++ R).
Proof.
  intros Hg. rewrite splice_eq by (rewrite !length_app; lia). rewrite take_app_ge, drop_app_ge by lia.
  rewrite <- app_assoc. do 2 f_equal; [f_equal; lia|]. do 2 f_equal. lia.
Qed.
Lemma node_split_bytes bs n recs : node_rep bs n recs ->
  exists H rest, n = H ++ concat recs ++ rest /\ length H = CARAFS_BT_BODY_OFF.
Proof.
  intros [E1 E2 E3 (rest & E4) E5 E6]. exists (take CARAFS_BT_BODY_OFF n), rest. rewrite <- E4, take_drop. split; [done|]. rewrite length_take. lia.
Qed.
(** The counters are rewritten last. *)
Definition set_counts (n : list Z) (nrec used : Z) : list Z := wr 4 (wr 2 n 18 nrec) 20 used.
Lemma set_counts_rep bs n H recs rest k used :
  length n = bs -> bytes_ok n -> n = H ++ concat recs ++ rest -> length H = CARAFS_BT_BODY_OFF ->
  Forall (fun r => length r = REC_SIZE) recs -> k = Z.of_nat (length recs) -> k < 2 ^ 16 ->
  node_rep bs (set_counts n k used) recs /\ node_header_kept n (set_counts n k used).
Proof.
  intros Hl Hb E EH Hr -> Hk. unfold set_counts. assert (length (wr 2 H 18 (Z.of_nat (length recs))) = CARAFS_BT_BODY_OFF) as EH1 by (by rewrite length_wr).
  assert (CARAFS_BT_BODY_OFF = 32%nat) as E32 by done.
  assert (wr 4 (wr 2 n 18 (Z.of_nat (length recs))) 20 used = wr 4 (wr 2 H 18 (Z.of_nat (length recs))) 20 used ++ concat recs ++ rest) as ->.
  { rewrite E, !wr_app_l by (rewrite ?EH1, ?EH; lia). done. }
  set (H' := wr 4 _ 20 used). assert (length H' = CARAFS_BT_BODY_OFF) as EH' by (unfold H'; by rewrite length_wr). split.
  - split; try done.
    + rewrite <- Hl, E, !length_app. congruence.
    + rewrite <- Hl, E, !length_app. lia.
    + rewrite E in Hb. unfold bytes_ok in *. rewrite !Forall_app in *. split; [|tauto]. unfold H'. do 2 apply wr_bytes_ok. tauto.
    + exists rest. by rewrite <- EH', drop_app_length.
    + unfold n_records. rewrite rd_app_l by (rewrite EH'; lia). unfold H'. rewrite rd_wr_other by lia. apply rd_wr_same; [rewrite EH; lia|lia].
  - intros w o Ho1 Ho2. rewrite E, !rd_app_l by (rewrite ?EH', ?EH; lia). unfold H'. rewrite !rd_wr_other by lia. done.
Qed.

Lemma insert_at_rep bs n recs pos rec :
  node_rep bs n recs -> length rec = REC_SIZE -> bytes_ok rec -> (pos <= length recs)%nat ->
  (CARAFS_BT_BODY_OFF + (length recs + 1) * REC_SIZE <= bs)%nat -> Z.of_nat (length recs) + 1 < 2 ^ 16 ->
  node_rep bs (node_insert_at (Z.of_nat pos) rec n) (take pos recs ++ rec :: drop pos recs) /\
  node_header_kept n (node_insert_at (Z.of_nat pos) rec n).
Proof.
  intros Hn Hrec Hby Hpos Hcap H16. destruct (node_split_bytes bs n recs Hn) as (H & R & E & EH). destruct Hn as [Hl Hbs Hb _ Hnr Hall].
  pose proof (length_concat_recs recs Hall) as Elc.
  set (A := concat (take pos recs)). set (B := concat (drop pos recs)).
  assert (concat recs = A ++ B) as EAB by (unfold A, B; by rewrite <- concat_app, take_drop).
  assert (length A = pos * REC_SIZE)%nat as EA by (unfold A; rewrite length_concat_recs, length_take by (by apply Forall_take); f_equal; lia).
  assert (length B = (length recs - pos) * REC_SIZE)%nat as EB by (unfold B; rewrite length_concat_recs, length_drop by (by apply Forall_drop); done).
  assert (length n = 32 + length A + length B + length R)%nat as Eln by (rewrite E, EAB, !length_app, EH; unfold CARAFS_BT_BODY_OFF; lia).
  unfold REC_SIZE, CARAFS_BT_BODY_OFF in *.
  assert (bt_rec (Z.of_nat pos) = length (H ++ A) /\ bt_rec (Z.of_nat pos + 1) = length (H ++ A) + 24)%nat as [Ep Ep1].
  { unfold bt_rec, CARAFS_BT_BODY_OFF, REC_SIZE. rewrite length_app, EH, EA. split; lia. }
  unfold node_insert_at. rewrite Ep, Ep1, Hnr. replace (Z.to_nat (Z.of_nat (length recs) - Z.of_nat pos) * REC_SIZE)%nat with (length B) by (unfold REC_SIZE; lia).
  unfold memmove. assert (n = (H ++ A) ++ B ++ R) as En by (rewrite E, EAB; by rewrite <- !app_assoc).
  assert (sub (length (H ++ A)) (length B) n = B) as -> by (rewrite En; by apply sub_at).
  assert (splice n (length (H ++ A) + 24) B = (H ++ A) ++ take 24 (B ++ R) ++ B ++ drop (24 + length B) (B ++ R)) as ->
    by (rewrite En; apply open_gap; lia).
  set (R' := drop _ (B ++ R)). rewrite splice_app_mid by (rewrite length_take, length_app, Hrec; lia).
  set (n2 := (H ++ A) ++ rec ++ B ++ R').
  assert (n2 = H ++ concat (take pos recs ++ rec :: drop pos recs) ++ R') as En2.
  { unfold n2. rewrite concat_app. cbn [concat]. rewrite <- !app_assoc. done. }
  assert (forall o k, (o + k <= 32)%nat -> rd k n2 o = rd k n o) as Hhdr.
  { intros o k Ho. rewrite En2, E, !rd_app_l by (rewrite EH; lia). done. }
  assert (n_records n2 = Z.of_nat (length recs)) as Enr by (unfold n_records; rewrite Hhdr by lia; done).
  rewrite Enr, u16_small by (unfold in_u16; lia).
  assert (used_bytes (wr 2 n2 18 (Z.of_nat (length recs) + 1)) = used_bytes n2) as -> by (unfold used_bytes; rewrite rd_wr_other by lia; done).
  destruct (set_counts_rep bs n2 H (take pos recs ++ rec :: drop pos recs) R' (Z.of_nat (length recs) + 1) (u32 (used_bytes n2 + 24))) as [P1 P2]; try done.
  - rewrite En2, concat_app. cbn [concat]. rewrite !length_app, EH. fold A B. rewrite Hrec. unfold R'. rewrite length_drop, length_app. lia.
  - rewrite En2. rewrite E in Hb. rewrite EAB in Hb. unfold bytes_ok in *. rewrite concat_app. cbn [concat]. rewrite !Forall_app in *. fold A B. unfold R'.
    split_and!; try tauto. apply Forall_drop, Forall_app. tauto.
  - apply Forall_app; split; [by apply Forall_take|]. apply Forall_cons; split; [done|by apply Forall_drop].
  - rewrite length_app, length_take. simpl. rewrite length_drop. lia.
  - split; [exact P1|]. intros w o Ho1 Ho2. rewrite <- (Hhdr o w) by (unfold CARAFS_BT_BODY_OFF in Ho2; lia). by apply P2.
Qed.

Lemma split_rep bs n rgt recs :
  node_rep bs n recs -> length rgt = bs -> bytes_ok rgt -> Z.of_nat (length recs) < 2 ^ 16 ->
  let k := (length recs / 2)%nat in
  node_rep bs (split_left n) (take k recs) /\ node_header_kept n (split_left n) /\
  node_rep bs (split_right n rgt) (drop k recs) /\ node_header_kept rgt (split_right n rgt).
Proof.
  intros Hn Hrl Hrb H16 k. destruct (node_split_bytes bs n recs Hn) as (H & R & E & EH). destruct Hn as [Hl Hbs Hb _ Hnr Hall].
  pose proof (length_concat_recs recs Hall) as Elc. assert (k <= length recs)%nat as Hk by (unfold k; apply Nat.Div0.div_le_upper_bound; lia).
  set (A := concat (take k recs)). set (B := concat (drop k recs)).
  assert (concat recs = A ++ B) as EAB by (unfold A, B; by rewrite <- concat_app, take_drop).
  assert (length A = k * REC_SIZE)%nat as EA by (unfold A; rewrite length_concat_recs, length_take by (by apply Forall_take); f_equal; lia).
  assert (length B = (length recs - k) * REC_SIZE)%nat as EB by (unfold B; rewrite length_concat_recs, length_drop by (by apply Forall_drop); done).
  assert (n_records n / 2 = Z.of_nat k) as Ek by (rewrite Hnr; unfold k; by rewrite Nat2Z.inj_div).
  assert (Z.to_nat (n_records n - Z.of_nat k) * REC_SIZE = length B)%nat as Em by (rewrite Hnr, EB; f_equal; lia).
  assert (bt_rec (Z.of_nat k) = length (H ++ A)) as Ep by (unfold bt_rec; rewrite length_app, EH, EA, Nat2Z.id; done).
  assert (n = (H ++ A) ++ B ++ R) as En by (rewrite E, EAB; by rewrite <- !app_assoc).
  assert (bytes_ok H /\ bytes_ok A /\ bytes_ok B /\ bytes_ok R) as (B1 & B2 & B3 & B4).
  { rewrite En in Hb. unfold bytes_ok in *. rewrite !Forall_app in Hb. tauto. }
  assert (length (H ++ A) + length B + length R = bs)%nat as Eln by (rewrite <- Hl, En, !length_app; lia). rewrite length_app, EH in Eln.
  assert (memzero n (length (H ++ A)) (length B) = H ++ A ++ zeros (length B) ++ R) as Ez.
  { unfold memzero. rewrite En at 1. rewrite splice_app_mid by (by rewrite length_zeros). by rewrite <- app_assoc. }
  assert (sub (length (H ++ A)) (length B) n = B) as Es by (rewrite En; by apply sub_at).
  assert (splice rgt CARAFS_BT_BODY_OFF B = take CARAFS_BT_BODY_OFF rgt ++ B ++ drop (CARAFS_BT_BODY_OFF + length B) rgt) as Er
    by (apply splice_eq; lia).
  unfold split_left, split_right. rewrite Ek, Em, Ep, Ez, Es, Er, Hnr, !u16_small by (unfold in_u16; lia).
  destruct (set_counts_rep bs (H ++ A ++ zeros (length B) ++ R) H (take k recs) (zeros (length B) ++ R) (Z.of_nat k)
    (u32 (Z.of_nat k * Z.of_nat REC_SIZE))) as [P1 P2]; try done; try lia.
  { rewrite !length_app, length_zeros, EH. lia. }
  { unfold bytes_ok in *. rewrite !Forall_app. split_and!; try done. apply zeros_bytes_ok. }
  { by apply Forall_take. }
  { rewrite length_take. lia. }
  set (rg := take _ rgt ++ _). set (move := Z.of_nat (length recs) - Z.of_nat k).
  destruct (set_counts_rep bs rg (take CARAFS_BT_BODY_OFF rgt) (drop k recs) (drop (CARAFS_BT_BODY_OFF + length B) rgt) move
    (u32 (move * Z.of_nat REC_SIZE))) as [P3 P4]; try done; try (unfold move; lia).
  { unfold rg. rewrite !length_app, length_take, length_drop. lia. }
  { unfold rg, bytes_ok in *. rewrite !Forall_app. split_and!; [by apply Forall_take|done|by apply Forall_drop]. }
  { rewrite length_take. lia. }
  { by apply Forall_drop. }
  { rewrite length_drop. unfold move. lia. }
  split; [exact P1|]. split; [|split; [exact P3|]].
  - intros w o Ho1 Ho2. etransitivity; [exact (P2 w o Ho1 Ho2)|]. rewrite E, !rd_app_l by (rewrite EH; lia). done.
  - intros w o Ho1 Ho2. etransitivity; [exact (P4 w o Ho1 Ho2)|]. unfold rg. rewrite rd_app_l by (rewrite length_take; lia).
    rewrite <- (take_drop CARAFS_BT_BODY_OFF rgt) at 2. rewrite rd_app_l by (rewrite length_take; lia). done.
Qed.

(** Node edits. On a node that holds the records [recs], [node_insert_at] of a record at [pos] with
    room for it gives a node that holds them with the record inserted there, and splitting leaves the
    first half in the node and puts the rest, in order, into the fresh right sibling: together they
    hold the records of the node. Magic, block number, level and flavour stay. *)
Theorem node_edits_keep_records bs n recs pos rec rgt :
  node_rep bs n recs -> Z.of_nat (length recs) + 1 < 2 ^ 16 ->
  length rec = REC_SIZE -> bytes_ok rec -> (pos <= length recs)%nat -> length rgt = bs -> bytes_ok rgt ->
  ((CARAFS_BT_BODY_OFF + (length recs + 1) * REC_SIZE <= bs)%nat ->
     node_rep bs (node_insert_at (Z.of_nat pos) rec n) (take pos recs ++ rec :: drop pos recs) /\
     node_header_kept n (node_insert_at (Z.of_nat pos) rec n)) /\
  exists l r, node_rep bs (split_left n) l /\ node_rep bs (split_right n rgt) r /\ l ++ r = recs /\ length l = (length recs / 2)%nat /\
    node_header_kept n (split_left n) /\ node_header_kept rgt (split_right n rgt).
Proof.
  intros Hn H16 Hrec Hby Hpos Hrl Hrb. split; [intros Hcap; by apply insert_at_rep|].
  destruct (split_rep bs n rgt recs Hn Hrl Hrb ltac:(lia)) as (P1 & P2 & P3 & P4).
  eexists _, _. split_and!; [exact P1|exact P3|apply take_drop| |done|done].
  rewrite length_take. pose proof (Nat.Div0.div_le_upper_bound (length recs) 2 (length recs)). lia.
Qed.

(** ** A concrete tree: a root with two leaves over a five-block memory device *)

Module BtreeExample.
Definition seal (b level : Z) (nrec : Z) (body : list Z) : list Z :=
  let n := splice (zeros 128) 32 body in
  let n := wr 1 (wr 1 (wr 8 (wr 4 n 0 CARAFS_MAGIC_BTREE) 8 b) 16 level) 17 CARAFS_BT_EXTENT in
  carafs_put_crc (wr 4 (wr 2 n 18 nrec) 20 (nrec * 24)) 128 BT_CRC.
Definition r0 : CarafsExtentRec := mkExt 0 100 5 0 0.
Definition r5 : CarafsExtentRec := mkExt 5 200 1 0 0.
Definition r9 : CarafsExtentRec := mkExt 9 300 7 0 0.
Definition root : list Z := seal 1 1 2 (irec_bytes 0 0 2 ++ irec_bytes 9 0 3).
Definition leaf2 : list Z := seal 2 0 2 (erec_bytes r0 ++ erec_bytes r5).
Definition leaf3 : list Z := seal 3 0 1 (erec_bytes r9).
Definition dev : CarafsMemBdev := {| mb_mem := zeros 128 ++ root ++ leaf2 ++ leaf3 ++ zeros 128; mb_block_size := 128; mb_n_blocks := 5 |}.
Definition m0 : CarafsMount CarafsMemBdev :=
  mkMount dev 128 false true (sb_of_bytes (zeros 512)) [] [] 0 0 false [] (sb_of_bytes (zeros 512)) (mkJ 0 0 0 0 0).
Definition vol : CarafsMount CarafsMemBdev := cache_init 2 2 m0.

Lemma node_okb v b fl : (0 <=? b) && (b <? 5) && (length (v b) =? 128)%nat && AllocExample.bytes_okb (v b) && (bt_magic (v b) =? CARAFS_MAGIC_BTREE) &&
  (bt_block_no (v b) =? b) && (bt_flavour (v b) =? fl) && (n_records (v b) <=? 4) && block_crc_ok (v b) 128 BT_CRC = true -> bt_node_ok 128 v 5 fl b.
Proof.
  intros H. zbool. apply Nat.eqb_eq in H6. split; try done; [by apply AllocExample.bytes_okb_ok].
Qed.
Lemma vol_tree : etree 128 (view vol) 5 1 1 [r0; r5; r9].
Proof.
  assert (bt_node_ok 128 (view vol) 5 CARAFS_BT_EXTENT 1 /\ bt_node_ok 128 (view vol) 5 CARAFS_BT_EXTENT 2 /\ bt_node_ok 128 (view vol) 5 CARAFS_BT_EXTENT 3)
    as (H1 & H2 & H3) by (split_and!; apply node_okb; by vm_compute).
  assert (map (bt_erec (view vol 2)) (seqZ 0 (n_records (view vol 2))) = [r0; r5]) as E2 by (by vm_compute).
  assert (map (bt_erec (view vol 3)) (seqZ 0 (n_records (view vol 3))) = [r9]) as E3 by (by vm_compute).
  apply (etree_inner 128 (view vol) 5 0 1 [[r0; r5]; [r9]] H1); [by vm_compute|by vm_compute|by vm_compute| |].
  - intros i l Hi. destruct i as [|[|i]]; [| |by destruct i]; injection Hi as <-.
    + assert (child_of (view vol 1) (Z.of_nat 0) = 2) as -> by (by vm_compute). rewrite <- E2. by apply etree_leaf; [|vm_compute].
    + assert (child_of (view vol 1) (Z.of_nat 1) = 3) as -> by (by vm_compute). rewrite <- E3. by apply etree_leaf; [|vm_compute].
  - assert (key_hi (view vol 1) 0 = 0 /\ key_lo (view vol 1) 0 = 0 /\ key_hi (view vol 1) 1 = 9 /\ key_lo (view vol 1) 1 = 0) as (K1 & K2 & K3 & K4)
      by (clear; split_and!; vm_compute; reflexivity).
    intros i l Hi. destruct i as [|[|i]]; [| |by destruct i]; injection Hi as <-; eexists _, _; (split; [reflexivity|]).
    + exact (conj K1 K2).
    + exact (conj K3 K4).
Qed.
Lemma bt_dev_good : bdev_wf dev.
Proof.
  assert (length (mb_mem dev) = 640%nat /\ AllocExample.bytes_okb (mb_mem dev) = true) as [H1 H2] by (by vm_compute).
  split; [exact H1|by apply AllocExample.bytes_okb_ok| |]; simpl; lia.
Qed.
Lemma bt_vol_inv : cache_inv vol.
Proof. apply cache_init_inv; try done; [lia|exact bt_dev_good]. Qed.
Lemma vol_sorted : StronglySorted off_lt [r0; r5; r9].
Proof. repeat constructor. Qed.
Lemma etree_floor_correct_witness : fst (carafs_etree_floor 1 7 vol) = Ok r5 /\ fst (carafs_etree_floor 1 100 vol) = Ok r9.
Proof.
  split; (destruct (carafs_etree_floor _ _ vol) as [r m'] eqn:E;
    destruct (etree_floor_correct 1 vol 1 [r0; r5; r9] _ r m' bt_vol_inv (pins_okb_ok vol eq_refl) ltac:(vm_compute; lia) vol_tree ltac:(vm_compute; lia) vol_sorted E)
      as (_ & _ & H)).
  all: specialize (H CacheExample.mem_reliable (ex_intro _ 0 (conj (conj (Z.le_refl 0) eq_refl) (or_introl eq_refl)))); cbn [fst]; rewrite H; by vm_compute.
Defined.
Lemma node_edits_keep_records_witness : node_rep 128 (node_insert_at 1 (erec_bytes (mkExt 3 0 1 0 0)) leaf2)
  [erec_bytes r0; erec_bytes (mkExt 3 0 1 0 0); erec_bytes r5].
Proof.
  assert (node_rep 128 leaf2 [erec_bytes r0; erec_bytes r5]) as Hn.
  { split; [by vm_compute|by vm_compute; lia|by apply AllocExample.bytes_okb_ok; vm_compute|by exists (zeros 48); vm_compute|by vm_compute|by repeat constructor]. }
  destruct (node_edits_keep_records 128 leaf2 [erec_bytes r0; erec_bytes r5] 1 (erec_bytes (mkExt 3 0 1 0 0)) (zeros 128) Hn) as [H _].
  - by vm_compute.
  - done.
  - by apply AllocExample.bytes_okb_ok; vm_compute.
  - simpl. lia.
  - done.
  - apply zeros_bytes_ok.
  - by apply H; vm_compute; lia.
Defined.
End BtreeExample.
