(* ===== verification/Cnode.v ===== *)
(** Cnodes ([src/logaic/carafs/cnode.c]): the object blocks of the filesystem. A cnode pointer is the
    index of its pinned cache entry. Lookup with its checks, creation that continues the generation of
    a tombstone, deletion that frees the storage and leaves a tombstone, and stat. The TLV item area of
    the same source file is in [Items]. *)

From S2P Require Import Prelude Format Volume Cache Journal Wal Alloc Items Btree Mount.

(** * Cnode images *)

Definition CN_CRC : nat := 4.

Definition cn_magic (c : list Z) : Z := rd 4 c 0.
Definition cn_block_no (c : list Z) : Z := rd 8 c CN_BLOCK_NO.
Definition cn_generation (c : list Z) : Z := rd 8 c 16.
Definition cn_type (c : list Z) : Z := rd 2 c 24.
Definition cn_link_count (c : list Z) : Z := rd 4 c 28.
Definition cn_tree_root (c : list Z) : Z := rd 8 c CN_TREE_ROOT.
Definition cn_n_inline (c : list Z) : Z := rd 4 c CN_N_INLINE.

(** The generation of a cnode made in [block] when [old] is what the block held: the sequence of a
    legible tombstone goes on. *)
Definition next_generation (bs : nat) (block : Z) (old : list Z) : Z :=
  if (cn_magic old =? CARAFS_MAGIC_CNODE) && (cn_block_no old =? block) && block_crc_ok old bs CN_CRC
  then u64 (cn_generation old + 1) else 1.
Definition new_cnode (bs : nat) (block generation type now : Z) : list Z :=
  let c := wr 4 (zeros bs) 0 CARAFS_MAGIC_CNODE in
  let c := wr 8 c CN_BLOCK_NO block in
  let c := wr 8 c 16 generation in
  let c := wr 2 c 24 type in
  let c := wr 4 c 28 1 in
  let c := wr 8 c 56 now in
  let c := wr 8 c 64 now in
  wr 8 c 72 now.
Definition tombstone (bs : nat) (block now : Z) (old : list Z) : list Z :=
  let generation := u64 (cn_generation old + 1) in
  let type := cn_type old in
  let c := wr 4 (zeros bs) 0 CARAFS_MAGIC_CNODE in
  let c := wr 8 c CN_BLOCK_NO block in
  let c := wr 8 c 16 generation in
  let c := wr 2 c 24 type in
  wr 8 c 72 now.

Record CarafsStat := mkStat {
  st_cnode : Z; st_generation : Z; st_type : Z; st_link_count : Z; st_size_bytes : Z; st_blocks_used : Z;
  st_parent_cnode : Z; st_created_ns : Z; st_modified_ns : Z; st_changed_ns : Z; st_fib_protection : Z; st_flags : Z
}.
Definition stat_of (cnode : Z) (c : list Z) : CarafsStat :=
  mkStat cnode (cn_generation c) (cn_type c) (cn_link_count c) (rd 8 c 32) (rd 8 c 40) (rd 8 c 48) (rd 8 c 56) (rd 8 c 64) (rd 8 c 72)
    (rd 4 c 80) (rd 4 c 84).

(** * The operations *)

Section Cnode.
Context {D : Type} `{!BlockDev D}.
Abbreviation mount := (CarafsMount D).

Definition carafs_cnode_get (block : Z) : ST mount Z :=
  '(idx, fresh) ← carafs_cache_get block CARAFS_GET_READ;
  m ← st_get;
  let c := node m idx in
  if negb (cn_magic c =? CARAFS_MAGIC_CNODE) || negb (cn_block_no c =? block) then st_mod (carafs_cache_put block);; st_err CARA_EBADMAGIC
  else if fresh && negb (block_crc_ok c (m_block_size m) CN_CRC) then st_mod (carafs_cache_put block);; st_err CARA_EBADMAGIC
  else if cn_link_count c =? 0 then st_mod (carafs_cache_put block);; st_err CARA_ENOENT
  else mret idx.
Definition carafs_cnode_put (cn : Z) : ST mount unit := st_mod (fun m => carafs_cache_put (cn_block_no (node m cn)) m).
Definition carafs_cnode_dirty (cn : Z) : ST mount unit :=
  m ← st_get;
  put_node cn (fun c => carafs_put_crc c (m_block_size m) CN_CRC);;
  block ← st_gets (fun m => cn_block_no (node m cn));
  carafs_txn_dirty block.

Definition carafs_cnode_alloc (type hint now : Z) : ST mount Z :=
  block ← carafs_alloc_block hint;
  '(idx, _) ← carafs_cache_get block CARAFS_GET_READ;
  m ← st_get;
  put_node idx (fun old => new_cnode (m_block_size m) block (next_generation (m_block_size m) block old) type now);;
  rc ← st_try (carafs_cnode_dirty idx);
  st_mod (carafs_cache_put block);;
  match rc with Err e => st_err e | Ok _ => mret block end.

(** The inline extents from [i] on; a start of 0 is a hole. *)
Fixpoint free_inline (k : nat) (cn : Z) (i : nat) : ST mount unit :=
  match k with
  | O => mret tt
  | S k =>
      '(start, count, _) ← st_gets (fun m => ext_at (node m cn) i);
      (if negb (start =? 0) then carafs_free_extent start count else mret tt);;
      free_inline k cn (S i)
  end.
(** [fuel] bounds the walk of the object's tree. *)
Definition carafs_cnode_free_locked (fuel : nat) (now cn : Z) : ST mount unit :=
  m ← st_get;
  let block := cn_block_no (node m cn) in
  (if negb (cn_tree_root (node m cn) =? 0) && (cn_type (node m cn) =? CARAFS_T_FILE) then carafs_etree_free_all fuel cn
   else if negb (cn_tree_root (node m cn) =? 0) && (cn_type (node m cn) =? CARAFS_T_DIR) then carafs_dtree_free_all fuel cn
   else mret tt);;
  m ← st_get;
  free_inline (Z.to_nat (cn_n_inline (node m cn))) cn 0;;
  carafs_free_extent block 1;;
  m ← st_get;
  put_node cn (tombstone (m_block_size m) block now);;
  carafs_cnode_dirty cn.

(** The operation bracket that the public calls share: an error of the body aborts. *)
Definition in_op {A} (body : ST mount A) : ST mount A :=
  carafs_op_begin;;
  rc ← st_try body;
  match rc with
  | Err e => st_mod carafs_op_abort;; st_err e
  | Ok x => carafs_op_commit;; mret x
  end.

Definition Carafs_CnodeCreate (type hint now : Z) : ST mount Z :=
  assert! (type =? CARAFS_T_FILE) || (type =? CARAFS_T_DIR) || (type =? CARAFS_T_SYMLINK) else CARA_EINVAL;
  in_op (carafs_cnode_alloc type hint now).
Definition Carafs_CnodeDelete (fuel : nat) (cnode now : Z) : ST mount unit :=
  in_op (cn ← carafs_cnode_get cnode;
         rc ← st_try (carafs_cnode_free_locked fuel now cn);
         carafs_cnode_put cn;;
         st_lift rc).
Definition Carafs_CnodeStat (cnode : Z) : ST mount CarafsStat :=
  m ← st_get;
  assert! m_mounted m else CARA_EINVAL;
  cn ← carafs_cnode_get cnode;
  st ← st_gets (fun m => stat_of cnode (node m cn));
  carafs_cnode_put cn;;
  mret st.
End Cnode.

(** * Images *)

Lemma rd_zeros k n off : rd k (zeros n) off = 0.
Proof.
  unfold rd, sub, zeros. rewrite drop_replicate, take_replicate. set (j := (k `min` (n - off))%nat). clearbody j.
  induction j as [|j IH]; [done|]. cbn [replicate le_get]. by rewrite IH.
Qed.
(** Reading a field through the stores that built an image. *)
Ltac fields := repeat first [rewrite rd_wr_same by (rewrite ?length_wr, ?length_zeros; simpl; lia) | rewrite rd_wr_other by lia | rewrite rd_zeros].

(** A cnode block as the readers accept it. *)
Record cnode_sealed (bs : nat) (block : Z) (c : list Z) : Prop := {
  cs_len : length c = bs;
  cs_bytes : bytes_ok c;
  cs_magic : cn_magic c = CARAFS_MAGIC_CNODE;
  cs_no : cn_block_no c = block;
  cs_crc : block_crc_ok c bs CN_CRC = true
}.
Abbreviation seal_cnode bs c := (carafs_put_crc c bs CN_CRC).

Lemma length_new_cnode bs block gen type now : length (new_cnode bs block gen type now) = bs.
Proof. unfold new_cnode. by rewrite !length_wr, length_zeros. Qed.
Lemma new_cnode_bytes bs block gen type now : bytes_ok (new_cnode bs block gen type now).
Proof. unfold new_cnode. repeat apply wr_bytes_ok. apply zeros_bytes_ok. Qed.

Lemma new_cnode_sealed bs block gen type now :
  (CARAFS_CNODE_ITEMS_OFF <= bs)%nat -> Z.of_nat bs <= 65536 -> in_u64 block -> in_u64 gen -> in_u16 type -> in_u64 now ->
  let c := seal_cnode bs (new_cnode bs block gen type now) in
  cnode_sealed bs block c /\ stat_of block c = mkStat block gen type 1 0 0 0 now now now 0 0 /\
  cn_tree_root c = 0 /\ cn_n_inline c = 0 /\ items_rep bs c [].
Proof.
  intros Hbs Hmx Hb Hg Ht Hn c. unfold CARAFS_CNODE_ITEMS_OFF in Hbs. unfold in_u64, in_u16 in *. pose proof (length_new_cnode bs block gen type now) as El.
  assert (length c = bs) as Elc by (unfold c, carafs_put_crc; by rewrite length_wr).
  assert (bytes_ok c) as Hby by (unfold c, carafs_put_crc; apply wr_bytes_ok, new_cnode_bytes). split_and!.
  - split; [done|done| | |unfold c; apply block_crc_ok_put_crc; [apply new_cnode_bytes|by rewrite El|unfold CN_CRC; lia]];
      unfold cn_magic, cn_block_no, c, carafs_put_crc, new_cnode, CN_CRC, CN_BLOCK_NO, CARAFS_MAGIC_CNODE; by fields.
  - unfold stat_of, cn_generation, cn_type, cn_link_count, c, carafs_put_crc, new_cnode, CN_CRC, CN_BLOCK_NO, CARAFS_MAGIC_CNODE. by fields.
  - unfold cn_tree_root, CN_TREE_ROOT, c, carafs_put_crc, new_cnode, CN_CRC, CN_BLOCK_NO. by fields.
  - unfold cn_n_inline, CN_N_INLINE, c, carafs_put_crc, new_cnode, CN_CRC, CN_BLOCK_NO. by fields.
  - split; try done; [unfold CARAFS_CNODE_ITEMS_OFF; lia|by eexists| |constructor].
    unfold item_bytes, CN_ITEM_BYTES, c, carafs_put_crc, new_cnode, CN_CRC, CN_BLOCK_NO. by fields.
Qed.
Lemma tombstone_sealed bs block now old :
  (CARAFS_CNODE_ITEMS_OFF <= bs)%nat -> in_u64 block -> in_u64 now -> bytes_ok old -> length old = bs ->
  let c := seal_cnode bs (tombstone bs block now old) in
  cnode_sealed bs block c /\ cn_link_count c = 0 /\ cn_type c = cn_type old /\ cn_generation c = u64 (cn_generation old + 1).
Proof.
  intros Hbs Hb Hn Hob Hol c. unfold CARAFS_CNODE_ITEMS_OFF in Hbs. unfold in_u64 in *. assert (length (tombstone bs block now old) = bs) as El
    by (unfold tombstone; by rewrite !length_wr, length_zeros).
  assert (bytes_ok (tombstone bs block now old)) as Hbt by (unfold tombstone; repeat apply wr_bytes_ok; apply zeros_bytes_ok).
  pose proof (u64_range (cn_generation old + 1)) as Hg. unfold in_u64 in Hg.
  pose proof (rd_range 2 old 24 Hob ltac:(lia)) as Ht. change (rd 2 old 24) with (cn_type old) in Ht.
  split_and!; [split; [unfold c, carafs_put_crc; by rewrite length_wr|by apply wr_bytes_ok| | |unfold c; apply block_crc_ok_put_crc; [done|by rewrite El|unfold CN_CRC; lia]]|..];
    unfold c, carafs_put_crc, tombstone, CN_CRC, CN_BLOCK_NO, CARAFS_MAGIC_CNODE; set (g := u64 _) in *; set (ty := cn_type old) in *; clearbody g ty;
    unfold cn_magic, cn_block_no, cn_link_count, cn_type, cn_generation, CN_BLOCK_NO; by fields.
Qed.

(** * Storing through a cnode pointer *)

Section Spec.
Context {D : Type} `{!BlockDev D} `{!BlockDevLaws D}.
Abbreviation mount := (CarafsMount D).
Implicit Types m : mount.

Lemma upd_ent_twice m i f g : upd_ent i f (upd_ent i g m) = upd_ent i (fun e => f (g e)) m.
Proof.
  unfold upd_ent, set_ents. simpl. f_equal. apply list_eq. intros k.
  destruct (decide (Z.to_nat i = k)) as [->|Hne]; [|by rewrite !list_lookup_alter_ne].
  rewrite !list_lookup_alter_eq. by destruct (m_ents m !! k).
Qed.
Lemma upd_ent_at m i f g : valid_idx m i -> f (ent m i) = g (ent m i) -> upd_ent i f m = upd_ent i g m.
Proof.
  intros Hi E. unfold upd_ent. f_equal. apply list_eq. intros k.
  destruct (decide (Z.to_nat i = k)) as [<-|Hne]; [|by rewrite !list_lookup_alter_ne].
  rewrite !list_lookup_alter_eq. unfold ent in E. rewrite nth_z_nth, nth_lookup in E. unfold valid_idx, n_ents in Hi.
  destruct (lookup_lt_is_Some_2 (m_ents m) (Z.to_nat i)) as [e He]; [lia|]. rewrite He in *. simpl in *. by rewrite E.
Qed.

(** An edit of a cnode, sealed, dirtied and released, is the store of the sealed image into the
    transaction. *)
Lemma cnode_commit_eq m idx f b {A} (k : result unit -> ST mount A) :
  valid_idx m idx -> cn_block_no (seal_cnode (m_block_size m) (f (node m idx))) = b ->
  (put_node idx f;; rc ← st_try (carafs_cnode_dirty idx); st_mod (carafs_cache_put b);; k rc) m =
  (rc ← st_try (ag_commit b idx (seal_cnode (m_block_size m) (f (node m idx)))); k rc) m.
Proof.
  intros Hv Eb. unfold put_node, carafs_cnode_dirty, ag_commit. st_simp. cbn [set_ents upd_ent m_block_size].
  set (c := seal_cnode (m_block_size m) (f (node m idx))) in *.
  assert (upd_ent idx (fun e => ent_set_data (seal_cnode (m_block_size m) (e_data e)) e) (upd_ent idx (fun e => ent_set_data (f (e_data e)) e) m) =
    upd_ent idx (ent_set_data c) m) as Ec by (rewrite upd_ent_twice; by apply upd_ent_at).
  unfold put_node, st_mod at 1. rewrite st_bind_eq. cbn beta iota. rewrite Ec. st_simp.
  assert (node (upd_ent idx (ent_set_data c) m) idx = c) as -> by (unfold node; by rewrite ent_upd_same). rewrite Eb.
  destruct (carafs_txn_dirty b _) as [r m2]. st_simp. done.
Qed.

(** Dirtying a block leaves the data of every entry. *)
Lemma upd_ent_data m i f j : (forall e, e_data (f e) = e_data e) -> node (upd_ent i f m) j = node m j.
Proof.
  intros Hf. unfold node, ent, upd_ent. simpl. rewrite !nth_z_nth, !nth_lookup. destruct (decide (Z.to_nat i = Z.to_nat j)) as [->|Hne].
  - rewrite list_lookup_alter_eq. destruct (m_ents m !! Z.to_nat j); simpl; [apply Hf|done].
  - by rewrite list_lookup_alter_ne.
Qed.
Lemma txn_dirty_data m b j : node (snd (carafs_txn_dirty b m)) j = node m j.
Proof.
  unfold carafs_txn_dirty. st_simp. destruct (_ =? _); [done|]. st_simp. destruct (negb _); [by apply upd_ent_data|].
  destruct (e_txn _); [by apply upd_ent_data|]. destruct (_ <=? _); st_simp; [by apply upd_ent_data|].
  unfold st_mod. cbn [snd]. transitivity (node (upd_ent (index_find m b) (ent_set_txn true) (upd_ent (index_find m b) (ent_set_dirty true) m)) j); [done|].
  by rewrite !upd_ent_data.
Qed.

Lemma cnode_dirty_data m idx : valid_idx m idx -> node (snd (carafs_cnode_dirty idx m)) idx = seal_cnode (m_block_size m) (node m idx).
Proof.
  intros Hv. unfold carafs_cnode_dirty. rewrite st_bind_eq. unfold st_get. cbv beta iota. rewrite st_bind_eq.
  unfold put_node, st_mod. cbv beta iota. rewrite st_bind_eq. unfold st_gets. cbv beta iota. rewrite txn_dirty_data. unfold node. by rewrite ent_upd_same.
Qed.
(** Releasing through the cnode's own header is releasing its block. *)
Lemma commit_put_eq m idx f b {A} (k : result unit -> ST mount A) :
  valid_idx m idx -> cn_block_no (seal_cnode (m_block_size m) (f (node m idx))) = b ->
  (put_node idx f;; rc ← st_try (carafs_cnode_dirty idx); carafs_cnode_put idx;; k rc) m =
  (put_node idx f;; rc ← st_try (carafs_cnode_dirty idx); st_mod (carafs_cache_put b);; k rc) m.
Proof.
  intros Hv Eb. rewrite !(st_bind_eq (put_node idx f)). unfold put_node, st_mod at 1 2. cbv beta iota.
  set (m1 := upd_ent idx _ m). assert (valid_idx m1 idx) as Hv1 by (unfold valid_idx, n_ents, m1, upd_ent in *; simpl; by rewrite length_alter).
  pose proof (cnode_dirty_data m1 idx Hv1) as Hd. assert (node m1 idx = f (node m idx)) as En by (unfold m1, node; by rewrite ent_upd_same).
  assert (m_block_size m1 = m_block_size m) as Ebs by done. rewrite En, Ebs in Hd. clearbody m1.
  rewrite !st_bind_eq. unfold st_try. destruct (carafs_cnode_dirty idx m1) as [rc m2]. cbn [snd] in Hd. cbv beta iota.
  rewrite !st_bind_eq. unfold carafs_cnode_put, st_mod. cbv beta iota. by rewrite Hd, Eb.
Qed.

(** * Lookup *)

Lemma cnode_get_spec m b r m1 :
  cache_inv m -> pins_ok m -> in_dev m b -> block_crc_ok (view m b) (m_block_size m) CN_CRC = true -> carafs_cnode_get b m = (r, m1) ->
  match r with
  | Ok cn => exists fresh, got m b CARAFS_GET_READ cn fresh m1 /\ node m1 cn = view m b /\
      cn_magic (view m b) = CARAFS_MAGIC_CNODE /\ cn_block_no (view m b) = b /\ cn_link_count (view m b) <> 0
  | Err e => shows (view m) m m1 /\ (dev_reliable (D := D) -> has_room m ->
      if (cn_magic (view m b) =? CARAFS_MAGIC_CNODE) && (cn_block_no (view m b) =? b) then e = CARA_ENOENT /\ cn_link_count (view m b) = 0
      else e = CARA_EBADMAGIC)
  end.
Proof.
  intros Hc Hp Hb Hcrc E. unfold carafs_cnode_get in E. rewrite st_bind_eq in E.
  destruct (carafs_cache_get b CARAFS_GET_READ m) as [rg m2] eqn:Eg.
  pose proof (cache_get_spec m b _ rg m2 Hc Hp (proj1 Hb) Eg) as Hs. destruct rg as [[idx fresh]|e].
  2:{ simplify_eq. destruct Hs as [Hk Hh]. split.
      - apply kept_shows; [done|]. apply held_pins; auto; [apply (vk_inv _ _ Hk)|apply (vk_len _ _ Hk)].
      - intros Hrel Hroom. pose proof (cache_get_ok m b CARAFS_GET_READ Hrel Hc Hb (or_intror Hroom)) as Hok. by rewrite Eg in Hok. }
  destruct Hs as [Hbd Hg]. st_simp_in E.
  assert (node m2 idx = view m b) as En.
  { unfold node. rewrite (got_data _ _ _ _ _ _ Hbd Hg), (got_view _ _ _ _ _ _ Hg b Hbd), andb_false_r. done. }
  pose proof (got_put_shows m b idx fresh m2 Hc Hb Hg) as Hput.
  rewrite En, (got_bs _ _ _ _ _ _ Hg), Hcrc, andb_false_r in E. cbn match in E.
  destruct (Z.eqb_spec (cn_magic (view m b)) CARAFS_MAGIC_CNODE), (Z.eqb_spec (cn_block_no (view m b)) b); cbn [negb orb andb] in *;
    try (st_simp_in E; unfold st_err in E; injection E as <- <-; by split).
  destruct (Z.eqb_spec (cn_link_count (view m b)) 0) as [El|El]; st_simp_in E; unfold st_err in E; simplify_eq; [by split|]. by exists fresh.
Qed.
Lemma cnode_put_spec m b cn fresh m1 :
  cache_inv m -> in_dev m b -> got m b CARAFS_GET_READ cn fresh m1 -> node m1 cn = view m b -> cn_block_no (view m b) = b ->
  exists m2, carafs_cnode_put cn m1 = (Ok tt, m2) /\ shows (view m) m m2.
Proof.
  intros Hc Hb Hg En Eb. exists (carafs_cache_put b m1). unfold carafs_cnode_put, st_mod. rewrite En, Eb. split; [done|]. by apply (got_put_shows m b cn fresh).
Qed.
(** A cnode just looked up is edited, dirtied and released: its block is the sealed result. *)
Lemma cnode_store_spec m b cn fresh m1 f r m' :
  cache_inv m -> in_dev m b -> got m b CARAFS_GET_READ cn fresh m1 -> node m1 cn = view m b ->
  let c := seal_cnode (m_block_size m) (f (view m b)) in
  length (f (view m b)) = m_block_size m -> bytes_ok (f (view m b)) -> cn_block_no c = b ->
  (put_node cn f;; rc ← st_try (carafs_cnode_dirty cn); carafs_cnode_put cn;; st_lift rc) m1 = (r, m') ->
  shows (fun b' => if b' =? b then c else view m b') m m'.
Proof.
  intros Hc Hb Hg En c Hl Hby Hno E.
  assert (valid_idx m1 cn) as Hv by (pose proof (got_valid _ _ _ _ _ _ Hg); unfold valid_idx in *; by rewrite (got_len _ _ _ _ _ _ Hg)).
  pose proof (got_bs _ _ _ _ _ _ Hg) as Ebs.
  assert (length c = m_block_size m /\ bytes_ok c) as [Hlc Hbc] by (unfold c, carafs_put_crc; split; [by rewrite length_wr|by apply wr_bytes_ok]).
  destruct (ag_commit b cn c m1) as [rc m3] eqn:Ec. destruct (ag_commit_spec m b cn fresh m1 c rc m3 Hc Hb Hg Hlc Hbc Ec) as [Hsh _].
  rewrite (commit_put_eq m1 cn f b), (cnode_commit_eq m1 cn f b) in E by (rewrite ?En, ?Ebs; done).
  rewrite En, Ebs in E. fold c in E. rewrite st_bind_eq in E. unfold st_try in E. rewrite Ec in E. unfold st_lift in E. by injection E as _ <-.
Qed.

(** Stat. On a block that holds a sealed image, [Carafs_CnodeStat] returns the header fields of the
    cnode as stored, changes no block and leaves no pin. On a device that does not fail, with a cache
    slot to use, it succeeds exactly when the image has the cnode magic, this block number and a link
    count above 0; a tombstone is reported as CARA_ENOENT, anything else as CARA_EBADMAGIC, and an
    unmounted volume as CARA_EINVAL. *)
Theorem cnode_stat_correct m b r m' :
  cache_inv m -> pins_ok m -> in_dev m b -> block_crc_ok (view m b) (m_block_size m) CN_CRC = true -> Carafs_CnodeStat b m = (r, m') ->
  shows (view m) m m' /\ (forall st, r = Ok st -> st = stat_of b (view m b)) /\
  (dev_reliable (D := D) -> has_room m -> r =
     if negb (m_mounted m) then Err CARA_EINVAL
     else if negb ((cn_magic (view m b) =? CARAFS_MAGIC_CNODE) && (cn_block_no (view m b) =? b)) then Err CARA_EBADMAGIC
     else if cn_link_count (view m b) =? 0 then Err CARA_ENOENT else Ok (stat_of b (view m b))).
Proof.
  intros Hc Hp Hb Hcrc E. unfold Carafs_CnodeStat in E. st_simp_in E.
  destruct (m_mounted m); cbn [negb]; [|unfold st_err in E; injection E as <- <-; split_and!; [by split|done|done]].
  rewrite st_bind_eq in E. destruct (carafs_cnode_get b m) as [rg m1] eqn:Eg. pose proof (cnode_get_spec m b rg m1 Hc Hp Hb Hcrc Eg) as Hs.
  destruct rg as [cn|e].
  - destruct Hs as (fresh & Hg & En & -> & Ebn & Hl). rewrite Ebn, !Z.eqb_refl, (proj2 (Z.eqb_neq _ _) Hl). cbn [negb andb].
    st_simp_in E. destruct (cnode_put_spec m b cn fresh m1 Hc Hb Hg En Ebn) as (m2 & Ep & Hsh). rewrite st_bind_eq, Ep in E.
    injection E as <- <-. rewrite En. split_and!; [done|by intros st [= ->]|done].
  - injection E as <- <-. destruct Hs as [Hsh Hwhy]. split_and!; [done|done|]. intros Hrel Hroom. specialize (Hwhy Hrel Hroom).
    destruct (_ && _); cbn [negb]; [destruct Hwhy as [-> ->]; done|by rewrite Hwhy].
Qed.

(** * Creation *)

(** C23: Creation, inside an open operation. When [carafs_cnode_alloc] returns [block], that block was
    free and is now allocated, and it holds a sealed live cnode of the given type: link count 1, size
    0, no tree, no extents, an empty item area, the three time stamps set, and the generation that
    follows the one of a tombstone still legible in the block (1 when there is none). No other block
    differs from what the allocation left. *)
Theorem cnode_alloc_correct m type hint now block m' :
  cache_inv m -> pins_ok m -> groups_ok m -> (CARAFS_CNODE_ITEMS_OFF <= m_block_size m)%nat -> Z.of_nat (m_block_size m) <= 65536 ->
  in_u16 type -> in_u64 now -> carafs_cnode_alloc type hint now m = (Ok block, m') ->
  exists m1, carafs_alloc_block hint m = (Ok block, m1) /\ extent_granted m 1 block 1 m1 /\
    cache_inv m' /\ pins_ok m' /\
    (forall b, in_dev m1 b -> b <> block -> view m' b = view m1 b) /\
    let gen := next_generation (m_block_size m) block (view m1 block) in
    cnode_sealed (m_block_size m) block (view m' block) /\
    stat_of block (view m' block) = mkStat block gen type 1 0 0 0 now now now 0 0 /\
    items_rep (m_block_size m) (view m' block) [].
Proof.
  intros Hc Hp Hg Hbs Hmx Ht Hn E. unfold carafs_cnode_alloc in E. rewrite st_bind_eq in E.
  destruct (carafs_alloc_block hint m) as [[b0|e] m1] eqn:Ea; [|done].
  assert (extent_granted m 1 b0 1 m1) as Hgr.
  { unfold carafs_alloc_block in Ea. rewrite st_bind_eq in Ea. destruct (carafs_alloc_extent hint 1 m) as [rx mx] eqn:Ex.
    pose proof (alloc_extent_spec m hint 1 rx mx Hc Hp Hg ltac:(lia) Ex) as Hx. destruct rx as [[s g]|e]; [|done].
    unfold mret, st_ret in Ea. injection Ea as -> ->. assert (g = 1) as -> by (pose proof (eg_count _ _ _ _ _ Hx); lia). done. }
  pose proof (eg_inv _ _ _ _ _ Hgr) as Hc1. pose proof (eg_pins _ _ _ _ _ Hgr) as Hp1. pose proof (eg_groups _ _ _ _ _ Hgr) as Hg1.
  assert (in_dev m1 b0) as Hb.
  { destruct (eg_layout _ _ _ _ _ Hgr) as [_ EB]. pose proof (eg_range _ _ _ _ _ Hgr) as [R1 R2]. pose proof (go_backup m1 Hg1) as [R3 _].
    pose proof (go_first m Hg). rewrite EB in R3. unfold in_dev. lia. }
  rewrite st_bind_eq in E. destruct (carafs_cache_get b0 CARAFS_GET_READ m1) as [rg m2] eqn:Eg.
  pose proof (cache_get_spec m1 b0 _ rg m2 Hc1 Hp1 (proj1 Hb) Eg) as Hs. destruct rg as [[idx fresh]|e]; [|done]. destruct Hs as [_ Hgot].
  st_simp_in E. pose proof (got_bs _ _ _ _ _ _ Hgot) as Ebs. rewrite (proj2 (eg_dims _ _ _ _ _ Hgr)) in Ebs.
  assert (node m2 idx = view m1 b0) as En.
  { unfold node. rewrite (got_data _ _ _ _ _ _ Hb Hgot), (got_view _ _ _ _ _ _ Hgot b0 Hb), andb_false_r. done. }
  set (gen := next_generation (m_block_size m) b0 (view m1 b0)).
  assert (in_u64 gen) as Hgen by (unfold gen, next_generation; destruct (_ && _); [apply u64_range|done]).
  assert (in_u64 b0) as Hb64 by (pose proof (go_backup m1 Hg1); unfold in_dev, in_u64 in *; lia).
  destruct (new_cnode_sealed (m_block_size m) b0 gen type now Hbs Hmx Hb64 Hgen Ht Hn) as (Q1 & Q2 & _ & _ & Q5).
  assert (valid_idx m2 idx) as Hv.
  { pose proof (got_valid _ _ _ _ _ _ Hgot). unfold valid_idx in *. by rewrite (got_len _ _ _ _ _ _ Hgot). }
  rewrite cnode_commit_eq in E by (rewrite ?En, ?Ebs; done || apply Q1). rewrite En, Ebs in E. fold gen in E.
  set (c := seal_cnode _ _) in *. st_simp_in E. destruct (ag_commit b0 idx c m2) as [rc m3] eqn:Ec.
  destruct (ag_commit_spec m1 b0 idx fresh m2 c rc m3 Hc1 Hb Hgot) as [Hsh _]; [by rewrite (proj2 (eg_dims _ _ _ _ _ Hgr)); apply Q1|apply Q1|done|].
  destruct rc as [[]|e]; [|done]. unfold mret, st_ret in E. injection E as <- <-. exists m1. split; [done|]. split; [done|].
  pose proof (shows_pins _ _ _ Hsh Hp1) as Hp3. destruct Hsh as [S1 S2 S3 S4].
  assert (view m3 b0 = c) as Ev by (rewrite S2, Z.eqb_refl by done; done). rewrite Ev. split_and!; try done.
  intros b Hbd Hne. rewrite S2 by done. by rewrite (proj2 (Z.eqb_neq _ _) Hne).
Qed.
End Spec.


(** ** A concrete volume: a cnode in block 1, a tombstone in block 2, over four 512-byte blocks *)

Module CnodeExample.
Definition live : list Z := seal_cnode 512 (new_cnode 512 1 7 CARAFS_T_FILE 1000).
Definition dead : list Z := seal_cnode 512 (tombstone 512 2 1000 (new_cnode 512 2 4 CARAFS_T_DIR 900)).
Definition dev : CarafsMemBdev := {| mb_mem := zeros 512 ++ live ++ dead ++ zeros 512; mb_block_size := 512; mb_n_blocks := 4 |}.
Definition m0 : CarafsMount CarafsMemBdev :=
  mkMount dev 512 false true (sb_of_bytes (zeros 512)) [] [] 0 0 false [] (sb_of_bytes (zeros 512)) (mkJ 0 0 0 0 0).
Definition vol : CarafsMount CarafsMemBdev := cache_init 2 2 m0.

Lemma cn_dev_good : bdev_wf dev.
Proof.
  assert (length (mb_mem dev) = 2048%nat /\ AllocExample.bytes_okb (mb_mem dev) = true) as [H1 H2] by (by vm_compute).
  split; [exact H1|by apply AllocExample.bytes_okb_ok| |]; simpl; lia.
Qed.
Lemma cn_vol_inv : cache_inv vol.
Proof. apply cache_init_inv; try done; [lia|exact cn_dev_good]. Qed.
Lemma vol_room : has_room vol.
Proof. exists 0. split; [done|by left]. Qed.
Lemma vol_crc : block_crc_ok (view vol 1) (m_block_size vol) CN_CRC = true /\ block_crc_ok (view vol 2) (m_block_size vol) CN_CRC = true.
Proof. by vm_compute. Qed.
Lemma cnode_stat_correct_witness :
  fst (Carafs_CnodeStat 1 vol) = Ok (mkStat 1 7 1 1 0 0 0 1000 1000 1000 0 0) /\ fst (Carafs_CnodeStat 2 vol) = Err CARA_ENOENT.
Proof.
  destruct vol_crc as [C1 C2].
  destruct (Carafs_CnodeStat 1 vol) as [r1 m1] eqn:E1. destruct (Carafs_CnodeStat 2 vol) as [r2 m2] eqn:E2.
  destruct (cnode_stat_correct vol 1 r1 m1 cn_vol_inv (pins_okb_ok vol eq_refl) (conj (Z.le_0_1) eq_refl) C1 E1) as (_ & _ & H1).
  destruct (cnode_stat_correct vol 2 r2 m2 cn_vol_inv (pins_okb_ok vol eq_refl) (conj (Z.le_0_2) eq_refl) C2 E2) as (_ & _ & H2).
  cbn [fst]. rewrite (H1 CacheExample.mem_reliable vol_room), (H2 CacheExample.mem_reliable vol_room). clear. split; vm_compute; reflexivity.
Defined.

Definition made_vol : CarafsMount CarafsMemBdev := snd (carafs_cnode_alloc CARAFS_T_FILE 9 1000 AllocExample.vol).
Lemma made_run : fst (carafs_cnode_alloc CARAFS_T_FILE 9 1000 AllocExample.vol) = Ok 4.
Proof. vm_compute. reflexivity. Qed.
Lemma made_eq : carafs_cnode_alloc CARAFS_T_FILE 9 1000 AllocExample.vol = (Ok 4, made_vol).
Proof. rewrite <- made_run. apply surjective_pairing. Qed.
Lemma cnode_alloc_correct_witness : cnode_sealed 512 4 (view made_vol 4) /\ items_rep 512 (view made_vol 4) [].
Proof.
  destruct (cnode_alloc_correct AllocExample.vol CARAFS_T_FILE 9 1000 4 (made_vol) AllocExample.vol_inv AllocExample.vol_pins AllocExample.vol_groups)
    as (m1 & _ & _ & _ & _ & _ & H1 & _ & H2).
  - change (m_block_size AllocExample.vol) with 512%nat. unfold CARAFS_CNODE_ITEMS_OFF. lia.
  - by vm_compute.
  - by vm_compute.
  - by vm_compute.
  - exact made_eq.
  - split; [exact H1|]. exact H2.
Defined.
Lemma live_sealed : cnode_sealed 512 1 live.
Proof. split; [by vm_compute|apply AllocExample.bytes_okb_ok; by vm_compute|by vm_compute|by vm_compute|by vm_compute]. Qed.
End CnodeExample.
