(* ===== verification/Reads.v ===== *)
(** Read-only programs over the cache: a block is got, looked at and put back. Every such program
    leaves all blocks as they are, and every entry that was pinned before exactly as it was, so
    pointers held across it stay valid. The walks of the extent tree ([btree.c]) are of this kind. *)

From S2P Require Import Prelude Format Volume Cache Journal Wal Alloc Items Btree Mount Cnode.

Section Reads.
Context {D : Type} `{!BlockDev D} `{!BlockDevLaws D}.
Abbreviation mount := (CarafsMount D).
Implicit Types m : mount.

Record reads m m' : Prop := {
  rs_shows : shows (view m) m m';
  rs_pinned j : valid_idx m j -> 0 < e_pins (ent m j) -> ent_user (ent m' j) = ent_user (ent m j)
}.
(** A cache state that can be worked with. *)
Record fit m : Prop := { ft_inv : cache_inv m; ft_pins : pins_ok m }.

Lemma reads_refl m : fit m -> reads m m.
Proof. intros [Hc Hp]. split; [by split|done]. Qed.
Lemma reads_fit m m' : fit m -> reads m m' -> fit m'.
Proof. intros [_ Hp] [Hs _]. split; [apply Hs|by apply (shows_pins _ _ _ Hs)]. Qed.
Lemma reads_view m m' b : reads m m' -> in_dev m b -> view m' b = view m b.
Proof. intros [Hs _]. apply Hs. Qed.
Lemma reads_dims m m' : reads m m' -> n_ents m' = n_ents m /\ dev_n m' = dev_n m /\ m_block_size m' = m_block_size m.
Proof. intros [[_ _ _ (? & ? & ? & _)] _]. done. Qed.
Lemma reads_dev m m' b : reads m m' -> in_dev m' b <-> in_dev m b.
Proof. intros H. destruct (reads_dims _ _ H) as (_ & E & _). unfold in_dev. by rewrite E. Qed.
Lemma reads_trans m1 m2 m3 : reads m1 m2 -> reads m2 m3 -> reads m1 m3.
Proof.
  intros H12 H23. destruct (reads_dims _ _ H12) as (En & Ed & _). pose proof H12 as [S12 P12]. pose proof H23 as [S23 P23]. split.
  - apply (shows_trans (view m1) (view m1) m1 m2 m3); [done|]. destruct S23 as [A1 A2 A3 A4]. split; try done.
    intros b Hb. rewrite A2 by done. apply S12. by apply (reads_dev _ _ b H12).
  - intros j Hj Hpin. assert (ent_user (ent m2 j) = ent_user (ent m1 j)) as E by (by apply P12). rewrite <- E. apply P23.
    + unfold valid_idx in *. by rewrite En.
    + destruct (ent_user_inv _ _ E) as (_ & _ & _ & -> & _). done.
Qed.

(** A pinned pointer survives. *)
Lemma reads_node m m' j : reads m m' -> valid_idx m j -> 0 < e_pins (ent m j) -> node m' j = node m j.
Proof. intros [_ H] Hj Hp. unfold node. by destruct (ent_user_inv _ _ (H j Hj Hp)) as (_ & _ & _ & _ & ->). Qed.

(** Getting a block and putting it back. *)
Lemma got_put_reads m b i fresh m1 : fit m -> in_dev m b -> got m b CARAFS_GET_READ i fresh m1 -> reads m (carafs_cache_put b m1).
Proof.
  intros [Hc Hp] Hb Hg. split; [by apply (got_put_shows m b i fresh)|]. intros j Hj Hpin.
  pose proof (got_len _ _ _ _ _ _ Hg) as En. pose proof (got_valid _ _ _ _ _ _ Hg) as Hv. assert (valid_idx m1 i) as Hv1 by (unfold valid_idx in *; by rewrite En).
  rewrite (put_pinned m1 b i (got_inv _ _ _ _ _ _ Hg) Hv1 (got_block _ _ _ _ _ _ Hg) (in_dev_not_none m b Hc Hb) (got_pinned _ _ _ _ _ _ Hg)).
  destruct (decide (j = i)) as [->|Hne].
  - rewrite ent_upd_same by done. pose proof (got_self _ _ _ _ _ _ Hg) as Hs. destruct fresh.
    + destruct (got_victim _ _ _ _ _ _ Hg eq_refl) as [He|[He _]]; [|lia]. pose proof (eo_idle _ _ _ (ci_ent m Hc i Hj) He) as [H0 _]. lia.
    + destruct (ent_user_inv _ _ Hs) as (S1 & S2 & S3 & S4 & S5). cbn in S1, S2, S3, S4, S5. unfold ent_user. cbn. rewrite S1, S2, S3, S4, S5. do 2 f_equal. lia.
  - rewrite ent_upd_ne by (done || apply Hj). apply (got_others _ _ _ _ _ _ Hg); done.
Qed.
Lemma get_err_reads m b mode e m1 : fit m -> 0 <= b -> carafs_cache_get b mode m = (Err e, m1) -> reads m m1.
Proof.
  intros [Hc Hp] Hb E. destruct (cache_get_spec m b mode (Err e) m1 Hc Hp Hb E) as [Hk Hh]. split.
  - apply kept_shows; [done|]. apply held_pins; auto; [apply (vk_inv _ _ Hk)|apply (vk_len _ _ Hk)].
  - intros j Hj Hpin. destruct (Hh j Hj) as [?|[[He|[He _]] _]]; [done| |lia]. pose proof (eo_idle _ _ _ (ci_ent m Hc j Hj) He) as [H0 _]. lia.
Qed.
Lemma got_node m b i fresh m1 : in_dev m b -> got m b CARAFS_GET_READ i fresh m1 -> node m1 i = view m b.
Proof. intros Hb Hg. unfold node. rewrite (got_data _ _ _ _ _ _ Hb Hg), (got_view _ _ _ _ _ _ Hg b Hb), andb_false_r. done. Qed.

(** The same when other reads happen while the block is held. *)
Lemma got_reads_put m b i fresh m1 m2 : fit m -> in_dev m b -> got m b CARAFS_GET_READ i fresh m1 -> reads m1 m2 -> shows (view m) m (carafs_cache_put b m2).
Proof.
  intros [Hc Hp] Hb Hg Hr. destruct (reads_dims _ _ Hr) as (En & Ed & Eb). pose proof (rs_shows _ _ Hr) as [S1 S2 S3 (S4 & S5 & S6 & S7 & S8)].
  destruct (got_frame _ _ _ _ _ _ Hg) as (F1 & F2 & F3 & F4 & F5). pose proof (got_len _ _ _ _ _ _ Hg) as Gn.
  pose proof (got_valid _ _ _ _ _ _ Hg) as Hv. assert (valid_idx m1 i) as Hv1 by (unfold valid_idx in *; by rewrite Gn).
  destruct (ent_user_inv _ _ (rs_pinned _ _ Hr i Hv1 (got_pinned _ _ _ _ _ _ Hg))) as (U1 & _ & _ & U4 & _).
  pose proof (got_dev _ _ _ _ _ _ Hg) as Gd. pose proof (got_bs _ _ _ _ _ _ Hg) as Gb.
  apply (put_shows m2 b i); [done|unfold valid_idx in *; by rewrite En|rewrite U1; apply (got_block _ _ _ _ _ _ Hg)|by apply (in_dev_not_none m)|
    rewrite U4; apply (got_pinned _ _ _ _ _ _ Hg)| | | |apply Hb].
  - intros b' Hb'. assert (in_dev m1 b') as Hb1 by (unfold in_dev in *; by rewrite Gd). rewrite S2 by done.
    rewrite (got_view _ _ _ _ _ _ Hg b' Hb'). by rewrite andb_false_r.
  - split_and!; congruence.
  - intros j Hj. assert (valid_idx m1 j) as Hj1 by (unfold valid_idx in *; by rewrite <- En).
    assert (valid_idx m j) as Hj0 by (unfold valid_idx in *; by rewrite <- Gn). pose proof (S3 j Hj1). pose proof (got_pins _ _ _ _ _ _ Hc Hg j Hj0). lia.
Qed.

(** * Tree walks *)

Lemma bt_get_reads m b fl r m1 : fit m -> 0 <= b -> bt_get b fl m = (r, m1) ->
  match r with
  | Ok n => in_dev m b /\ (exists fresh, got m b CARAFS_GET_READ n fresh m1) /\ node m1 n = view m b /\ bt_block_no (view m b) = b
  | Err _ => reads m m1
  end.
Proof.
  intros Hf Hb E. unfold bt_get in E. rewrite st_bind_eq in E. destruct (carafs_cache_get b CARAFS_GET_READ m) as [rg m2] eqn:Eg.
  destruct rg as [[idx fresh]|e]; [|injection E as <- <-; by apply (get_err_reads m b CARAFS_GET_READ e)].
  destruct (cache_get_spec m b _ _ m2 (ft_inv _ Hf) (ft_pins _ Hf) Hb Eg) as [Hbd Hg]. st_simp_in E.
  pose proof (got_node m b idx fresh m2 Hbd Hg) as En. pose proof (got_put_reads m b idx fresh m2 Hf Hbd Hg) as Hput. rewrite En in E.
  destruct (bt_magic (view m b) =? _); cbn [negb orb] in E; [|by injection E as <- <-].
  destruct (Z.eqb_spec (bt_block_no (view m b)) b) as [Ebn|]; cbn [negb orb] in E; [|by injection E as <- <-].
  destruct (negb _ || _); [by injection E as <- <-|]. destruct (fresh && _); [by injection E as <- <-|].
  injection E as <- <-. split_and!; try done. by exists fresh.
Qed.
(** Read a node, put it back. *)
Lemma bt_put_reads m b n fresh m1 : fit m -> in_dev m b -> got m b CARAFS_GET_READ n fresh m1 -> node m1 n = view m b -> bt_block_no (view m b) = b ->
  exists m2, bt_put n m1 = (Ok tt, m2) /\ reads m m2.
Proof.
  intros Hf Hb Hg En Eb. exists (carafs_cache_put b m1). unfold bt_put, st_mod. rewrite En, Eb. split; [done|]. by apply (got_put_reads m b n fresh).
Qed.

(** One visit: the read fails, or the program goes on with the node, which can be put back. *)
Lemma visit m b fl {A} (f : Z -> ST mount A) r m' : fit m -> 0 <= b -> (n ← bt_get b fl; f n) m = (r, m') ->
  (exists e, r = Err e /\ reads m m') \/
  (exists n fresh m1 m2, in_dev m b /\ got m b CARAFS_GET_READ n fresh m1 /\ node m1 n = view m b /\ bt_block_no (view m b) = b /\ f n m1 = (r, m') /\
     bt_put n m1 = (Ok tt, m2) /\ reads m m2 /\ fit m2).
Proof.
  intros Hf Hb E. rewrite st_bind_eq in E. destruct (bt_get b fl m) as [rg m1] eqn:Eg. pose proof (bt_get_reads m b fl rg m1 Hf Hb Eg) as H.
  destruct rg as [n|e]; [right|left; injection E as <- <-; by exists e]. destruct H as (Hbd & (fresh & Hg) & En & Ebn).
  destruct (bt_put_reads m b n fresh m1 Hf Hbd Hg En Ebn) as (m2 & Ep & Hr). exists n, fresh, m1, m2. split_and!; try done. by apply (reads_fit m).
Qed.
Lemma child_nonneg m b i : fit m -> in_dev m b -> 0 <= child_of (view m b) i.
Proof.
  intros [Hc _] Hb. destruct (view_ok m b Hc Hb) as [_ Hby]. unfold child_of, rd.
  pose proof (le_get_range _ (sub_bytes_ok (bt_rec i + 16) 8 _ Hby)). lia.
Qed.

Ltac visit_in Hf Hb E := destruct (visit _ _ _ _ _ _ Hf Hb E) as [(e0 & -> & Hr0)|(n0 & fr0 & m1 & m2 & Hbd & Hgot & En & Ebn & E' & Ep & Hr & Hf2)].

Lemma etree_floor_reads fuel m b fblk r m' : fit m -> 0 <= b -> etree_floor_from fuel b fblk m = (r, m') -> reads m m'.
Proof.
  revert m b. induction fuel as [|fuel IH]; intros m b Hf Hb E; [unfold st_err in E; injection E as <- <-; by apply reads_refl|].
  cbn [etree_floor_from] in E. visit_in Hf Hb E; [done|]. st_simp_in E'. rewrite En in E'. destruct (0 <? _).
  - destruct (bt_idescend _ _ _) as [i [|]]; rewrite st_bind_eq, Ep in E'; [by injection E' as <- <-|].
    apply (reads_trans _ _ _ Hr). apply (IH _ _ Hf2 (child_nonneg m b i Hf Hbd) E').
  - destruct (_ =? _); rewrite st_bind_eq, Ep in E'; by injection E' as <- <-.
Qed.
Lemma leftmost_reads fuel m b r m' : fit m -> 0 <= b -> leftmost fuel b m = (r, m') -> reads m m'.
Proof.
  revert m b. induction fuel as [|fuel IH]; intros m b Hf Hb E; [unfold st_err in E; injection E as <- <-; by apply reads_refl|].
  cbn [leftmost] in E. visit_in Hf Hb E; [done|]. st_simp_in E'. rewrite En in E'. destruct (0 <? bt_level _).
  - rewrite st_bind_eq, Ep in E'. apply (reads_trans _ _ _ Hr). apply (IH _ _ Hf2 (child_nonneg m b 0 Hf Hbd) E').
  - rewrite st_bind_eq, Ep in E'. destruct (0 <? _); by injection E' as <- <-.
Qed.
Lemma ascend_reads path m r m' : fit m -> Forall (fun p => 0 <= fst p) path -> etree_ascend path m = (r, m') -> reads m m'.
Proof.
  revert m. induction path as [|[b i] path IH]; intros m Hf Hp E; [unfold etree_ascend, st_err in E; injection E as <- <-; by apply reads_refl|].
  apply Forall_cons in Hp as [Hb Hp]. cbn [etree_ascend] in E. cbn [fst] in Hb. visit_in Hf Hb E; [done|]. st_simp_in E'. rewrite En in E'.
  destruct (_ <=? _); rewrite st_bind_eq, Ep in E'; apply (reads_trans _ _ _ Hr); [by apply (IH m2)|].
  apply (leftmost_reads _ _ _ _ _ Hf2 (child_nonneg m b _ Hf Hbd) E').
Qed.
(** The descent ends with the leaf pinned. *)
Lemma descend_reads fuel m b fblk path r m' : fit m -> 0 <= b -> Forall (fun p => 0 <= fst p) path -> etree_descend fuel b fblk path m = (r, m') ->
  match r with
  | Ok (n, b', path') => exists ma fresh, reads m ma /\ fit ma /\ in_dev ma b' /\ got ma b' CARAFS_GET_READ n fresh m' /\ node m' n = view ma b' /\
      bt_block_no (view ma b') = b' /\ Forall (fun p => 0 <= fst p) path'
  | Err _ => reads m m'
  end.
Proof.
  revert m b path. induction fuel as [|fuel IH]; intros m b path Hf Hb Hp E; [unfold etree_descend, st_err in E; injection E as <- <-; by apply reads_refl|].
  cbn [etree_descend] in E. visit_in Hf Hb E; [done|]. st_simp_in E'. rewrite En in E'. destruct (0 <? _).
  - rewrite st_bind_eq, Ep in E'. pose proof (IH m2 _ _ Hf2 (child_nonneg m b _ Hf Hbd) (Forall_cons_2 (fun p => 0 <= fst p) (b, _) path Hb Hp) E') as H.
    destruct r as [[[n b'] path']|e]; [|by apply (reads_trans _ _ _ Hr)]. destruct H as (ma & fresh & H1 & H2). exists ma, fresh.
    split; [by apply (reads_trans _ _ _ Hr)|done].
  - injection E' as <- <-. exists m, fr0. split_and!; try done. by apply reads_refl.
Qed.
Lemma etree_next_reads m b fblk r m' : fit m -> 0 <= b -> carafs_etree_next b fblk m = (r, m') -> reads m m'.
Proof.
  intros Hf Hb E. unfold carafs_etree_next in E. rewrite st_bind_eq in E. destruct (etree_descend BT_MAX_DEPTH b fblk [] m) as [rd m1] eqn:Ed.
  pose proof (descend_reads _ _ _ _ _ _ _ Hf Hb (Forall_nil_2 _) Ed) as H. destruct rd as [[[n b'] path]|e]; [|by injection E as <- <-].
  destruct H as (ma & fresh & Hr & Hfa & Hbd & Hg & En & Ebn & Hp). destruct (bt_put_reads ma b' n fresh m1 Hfa Hbd Hg En Ebn) as (m2 & Ep & Hr2).
  st_simp_in E. apply (reads_trans _ _ _ Hr). destruct (first_past _ _ _ _); rewrite st_bind_eq, Ep in E; [by injection E as <- <-|].
  apply (reads_trans _ _ _ Hr2). by apply (ascend_reads path m2 r m' (reads_fit _ _ Hfa Hr2)).
Qed.
End Reads.
