(* ===== verification/File.v ===== *)
(** File contents ([src/logaic/carafs/file.c]). A file is inline data in an item of its cnode, or is
    mapped by the 16 inline extents of the cnode, or by the extent tree. Reading returns the bytes
    of the abstract file; recording a new run changes the block map exactly there. *)

From Stdlib Require Import Sorting.Sorted.
From S2P Require Import Prelude Format Volume Cache Journal Wal Alloc Items Btree Mount Cnode Reads.

Definition CARAFS_ITEM_INLINE_DATA : Z := 4.
Definition CARAFS_EXT_UNWRITTEN : Z := 1.
Definition CN_SIZE_BYTES : nat := 32.
Definition CN_BLOCKS_USED : nat := 40.
Definition CN_MODIFIED_NS : nat := 64.
Definition CN_CHANGED_NS : nat := 72.
Definition cn_size_bytes (c : list Z) : Z := rd 8 c CN_SIZE_BYTES.

(** [phys = 0] is a hole. *)
Record FileMap := mkMap { fm_phys : Z; fm_run : Z; fm_unwritten : bool; fm_fresh : bool }.
Definition is_unwritten (flags : Z) : bool := negb (Z.land flags CARAFS_EXT_UNWRITTEN =? 0).

(** * Inline extents *)

(** The [for] of [map_lookup] over [k] extents from [i] on; [~0ull] is the unbounded hole. *)
Fixpoint inline_lookup (k : nat) (c : list Z) (i : nat) (fo fblk : Z) : FileMap :=
  match k with
  | O => mkMap 0 (2 ^ 64 - 1) false false
  | S k =>
      let '(start, count, flags) := ext_at c i in
      let end_ := u64 (fo + count) in
      if fblk <? end_ then
        if negb (start =? 0) then mkMap (u64 (start + u64 (fblk - fo))) (u64 (end_ - fblk)) (is_unwritten flags) false
        else mkMap 0 (u64 (end_ - fblk)) false false
      else inline_lookup k c (S i) end_ fblk
  end.
Fixpoint mapped_end (k : nat) (c : list Z) (i : nat) (fo : Z) : Z :=
  match k with O => fo | S k => let '(_, count, _) := ext_at c i in mapped_end k c (S i) (u64 (fo + count)) end.
Definition inline_mapped_end (c : list Z) : Z := mapped_end (Z.to_nat (cn_n_inline c)) c 0 0.

(** The [for] that finds the run holding [fo]: its index and the file block it starts at. *)
Fixpoint run_at (k : nat) (c : list Z) (i : nat) (hs fo : Z) : nat * Z :=
  match k with
  | O => (i, hs)
  | S k => let '(_, count, _) := ext_at c i in if fo <? u64 (hs + count) then (i, hs) else run_at k c (S i) (u64 (hs + count)) fo
  end.
(** [cn->ext[i] = (struct CarafsExtent){ .start, .count }] *)
Definition ext_bytes (start count : Z) : list Z := le_put 8 start ++ le_put 4 count ++ le_put 2 0 ++ le_put 2 0.
Definition put_ext (c : list Z) (i : nat) (start count : Z) : list Z := splice c (CN_EXT + 16 * i) (ext_bytes start count).
Definition ext_start (c : list Z) (i : nat) : Z := fst (fst (ext_at c i)).
Definition ext_count (c : list Z) (i : nat) : Z := snd (fst (ext_at c i)).

(** The body of [inline_insert] but its calls: the edited cnode, or [None] where it spills to the tree. *)
Definition inline_place (fo start count : Z) (c : list Z) : result (option (list Z)) :=
  let n := cn_n_inline c in
  let last := Z.to_nat (n - 1) in
  let end_ := inline_mapped_end c in
  if fo =? end_ then
    if (0 <? n) && negb (ext_start c last =? 0) && (u64 (ext_start c last + ext_count c last) =? start) && (ext_count c last + count <=? 0xFFFFFFFF)
    then Ok (Some (wr 4 c (CN_EXT + 16 * last + 8) (u32 (ext_count c last + count))))
    else if n =? Z.of_nat CARAFS_INLINE_EXTENTS then Ok None
    else Ok (Some (wr 4 (put_ext c (Z.to_nat n) start count) CN_N_INLINE (u32 (n + 1))))
  else if end_ <? fo then
    let gap := u64 (fo - end_) in
    if (Z.of_nat CARAFS_INLINE_EXTENTS <? u32 (n + 2)) || (0xFFFFFFFF <? gap) then Ok None
    else Ok (Some (wr 4 (put_ext (put_ext c (Z.to_nat n) 0 (u32 gap)) (Z.to_nat (n + 1)) start count) CN_N_INLINE (u32 (n + 2))))
  else
    let '(i, hs) := run_at (Z.to_nat n) c 0 0 fo in
    if (Z.of_nat i =? n) || negb (ext_start c i =? 0) || (u64 (hs + ext_count c i) <? u64 (fo + count)) then Err CARA_EINVAL else
    let pre := u32 (fo - hs) in
    let post := u32 (hs + ext_count c i - (fo + count)) in
    let need := (if negb (pre =? 0) then 1 else 0) + 1 + (if negb (post =? 0) then 1 else 0) in
    if Z.of_nat CARAFS_INLINE_EXTENTS <? u32 (n - 1 + need) then Ok None else
    let c := memmove c (CN_EXT + 16 * (i + Z.to_nat need)) (CN_EXT + 16 * (i + 1)) (Z.to_nat (n - Z.of_nat i - 1) * 16) in
    let '(c, w) := if negb (pre =? 0) then (put_ext c i 0 pre, S i) else (c, i) in
    let c := put_ext c w start count in
    let c := if negb (post =? 0) then put_ext c (S w) 0 post else c in
    Ok (Some (wr 4 c CN_N_INLINE (u32 (n - 1 + need)))).

Section File.
Context {D : Type} `{!BlockDev D}.
Abbreviation mount := (CarafsMount D).

(** * The block map *)

Definition map_lookup (cn fblk : Z) : ST mount FileMap :=
  m ← st_get;
  let root := cn_tree_root (node m cn) in
  if negb (root =? 0) then
    let hole : ST mount FileMap :=
      rc ← st_try (carafs_etree_next root fblk);
      match rc with
      | Ok rec => mret (mkMap 0 (u64 (xr_file_off rec - fblk)) false false)
      | Err e => if e =? CARA_ENOTFOUND then mret (mkMap 0 (2 ^ 64 - 1) false false) else st_err e
      end in
    rc ← st_try (carafs_etree_floor root fblk);
    match rc with
    | Ok rec =>
        if fblk <? u64 (xr_file_off rec + xr_count rec)
        then mret (mkMap (u64 (xr_start rec + u64 (fblk - xr_file_off rec))) (u64 (xr_file_off rec + xr_count rec - fblk)) (is_unwritten (xr_flags rec)) false)
        else hole
    | Err e => if e =? CARA_ENOTFOUND then hole else st_err e
    end
  else mret (inline_lookup (Z.to_nat (cn_n_inline (node m cn))) (node m cn) 0 0 fblk).

Definition inline_insert (cn fo start count : Z) : ST mount unit :=
  m ← st_get;
  match inline_place fo start count (node m cn) with
  | Err e => st_err e
  | Ok (Some c) => put_node cn (fun _ => c)
  | Ok None => carafs_etree_spill cn;; carafs_etree_insert cn (mkExt fo start count 0 0)
  end.

Definition ensure_mapped (cn fblk want : Z) : ST mount FileMap :=
  map ← map_lookup cn fblk;
  if negb (fm_phys map =? 0) then mret (mkMap (fm_phys map) (Z.min (fm_run map) want) (fm_unwritten map) (fm_fresh map))
  else
    let ask := u32 (Z.min (Z.min want (fm_run map)) 0x80000000) in
    m ← st_get;
    '(start, got) ← carafs_alloc_extent (cn_block_no (node m cn)) ask;
    m ← st_get;
    (if negb (cn_tree_root (node m cn) =? 0) then carafs_etree_insert cn (mkExt fblk start got 0 0) else inline_insert cn fblk start got);;
    put_node cn (fun c => wr 8 c CN_BLOCKS_USED (u64 (rd 8 c CN_BLOCKS_USED + got)));;
    mret (mkMap start got false true).

(** * Writing *)

(** The inner [for] of [blocks_write] from block [b] of the run; the offset and bytes left. A round
    takes at least one byte. *)
Fixpoint write_run (fuel : nat) (map : FileMap) (fblk b off : Z) (src : list Z) (old_size : Z) : ST mount (Z * list Z) :=
  match fuel with
  | O => mret (off, src)
  | S fuel =>
      if (b <? fm_run map) && (0 <? Z.of_nat (length src)) then
        bs ← st_gets (fun m : mount => Z.of_nat (m_block_size m));
        let boff := off mod bs in
        let chunk := Z.min (bs - boff) (Z.of_nat (length src)) in
        let zero := fm_fresh map || (chunk =? bs) || (old_size <=? u64 (u64 (fblk + b) * bs)) in
        let phys := u64 (fm_phys map + b) in
        '(data, _) ← carafs_cache_get phys (if zero then CARAFS_GET_ZERO else CARAFS_GET_READ);
        put_node data (fun blk => splice blk (Z.to_nat boff) (take (Z.to_nat chunk) src));;
        st_mod (carafs_cache_dirty phys);;
        st_mod (carafs_cache_put phys);;
        write_run fuel map fblk (b + 1) (u64 (off + chunk)) (drop (Z.to_nat chunk) src) old_size
      else mret (off, src)
  end.
(** The [while] of [blocks_write]: every run is at least one block. *)
Fixpoint write_runs (fuel : nat) (cn last_blk off : Z) (src : list Z) (old_size : Z) : ST mount unit :=
  match fuel with
  | O => mret tt
  | S fuel =>
      if 0 <? Z.of_nat (length src) then
        bs ← st_gets (fun m : mount => Z.of_nat (m_block_size m));
        let fblk := off / bs in
        map ← ensure_mapped cn fblk (u64 (last_blk - fblk + 1));
        '(off, src) ← write_run (S (length src)) map fblk 0 off src old_size;
        write_runs fuel cn last_blk off src old_size
      else mret tt
  end.
Definition blocks_write (cn off : Z) (src : list Z) (old_size : Z) : ST mount unit :=
  bs ← st_gets (fun m : mount => Z.of_nat (m_block_size m));
  write_runs (S (length src)) cn (u64 (off + Z.of_nat (length src) - 1) / bs) off src old_size.

(** [Carafs_FileWrite] between the lookup and [done], where the size and times are stored. *)
Definition file_write (cn off : Z) (buf : list Z) : ST mount Z :=
  m ← st_get;
  let c := node m cn in
  assert! cn_type c =? CARAFS_T_FILE else CARA_EINVAL;
  let old_size := cn_size_bytes c in
  let new_size := Z.max old_size (u64 (off + Z.of_nat (length buf))) in
  let extent_mapped := negb (cn_tree_root c =? 0) || negb (cn_n_inline c =? 0) in
  let to_blocks : ST mount Z := blocks_write cn off buf old_size;; mret new_size in
  if extent_mapped then to_blocks
  else
    match (if new_size <=? 0xFFFF then carafs_item_resize (Z.of_nat (m_block_size m)) CARAFS_ITEM_INLINE_DATA (u16 new_size) c else Err CARA_EOVERFLOW) with
    | Ok (c', payload) => put_node cn (fun _ => splice c' (payload + Z.to_nat off) buf);; mret new_size
    | Err _ =>
        (match carafs_item_find c CARAFS_ITEM_INLINE_DATA with
         | Some (cur, cur_len) => if 0 <? cur_len then blocks_write cn 0 (sub cur (Z.to_nat cur_len) c) 0 else mret tt
         | None => mret tt
         end);;
        put_node cn (carafs_item_remove CARAFS_ITEM_INLINE_DATA);;
        to_blocks
    end.
Definition file_done (new_size now : Z) (c : list Z) : list Z :=
  wr 8 (wr 8 (wr 8 c CN_SIZE_BYTES new_size) CN_MODIFIED_NS now) CN_CHANGED_NS now.
Definition file_write_body (cnode off : Z) (buf : list Z) (now : Z) : ST mount unit :=
  cn ← carafs_cnode_get cnode;
  rc ← st_try (file_write cn off buf);
  match rc with
  | Err e => carafs_cnode_put cn;; st_err e
  | Ok new_size =>
      put_node cn (file_done new_size now);;
      rc ← st_try (carafs_cnode_dirty cn);
      carafs_cnode_put cn;;
      st_lift rc
  end.
Definition Carafs_FileWrite (cnode off : Z) (buf : list Z) (now : Z) : ST mount unit :=
  if (length buf =? 0)%nat then mret tt else in_op (file_write_body cnode off buf now).

(** * Reading *)

(** The [while] of [Carafs_FileRead], the bytes it stores; a round takes at least one byte. *)
Fixpoint read_blocks (fuel : nat) (cn off todo : Z) : ST mount (list Z) :=
  match fuel with
  | O => mret []
  | S fuel =>
      if 0 <? todo then
        bs ← st_gets (fun m : mount => Z.of_nat (m_block_size m));
        let fblk := off / bs in
        let boff := off mod bs in
        let chunk := Z.min (bs - boff) todo in
        map ← map_lookup cn fblk;
        part ← (if (fm_phys map =? 0) || fm_unwritten map then mret (zeros (Z.to_nat chunk))
                else
                  '(data, _) ← carafs_cache_get (fm_phys map) CARAFS_GET_READ;
                  d ← st_gets (fun m => sub (Z.to_nat boff) (Z.to_nat chunk) (node m data));
                  st_mod (carafs_cache_put (fm_phys map));;
                  mret d);
        rest ← read_blocks fuel cn (u64 (off + chunk)) (todo - chunk);
        mret (part ++ rest)
      else mret []
  end.
Definition file_read (cn off len : Z) : ST mount (list Z) :=
  m ← st_get;
  let c := node m cn in
  assert! cn_type c =? CARAFS_T_FILE else CARA_EINVAL;
  let size := cn_size_bytes c in
  if size <=? off then mret []
  else
    let todo := Z.min len (size - off) in
    match carafs_item_find c CARAFS_ITEM_INLINE_DATA with
    | Some (pl, _) => mret (sub (pl + Z.to_nat off) (Z.to_nat todo) c)
    | None => read_blocks (Z.to_nat todo) cn off todo
    end.
Definition Carafs_FileRead (cnode off len : Z) : ST mount (list Z) :=
  m ← st_get;
  assert! m_mounted m else CARA_EINVAL;
  cn ← carafs_cnode_get cnode;
  rc ← st_try (file_read cn off len);
  carafs_cnode_put cn;;
  st_lift rc.
End File.

(** * The abstract file *)

(** The physical block and flags of a file block, in a list of runs from file block [fo] on. *)
Fixpoint runs_map (es : list (Z * Z * Z)) (fo fblk : Z) : option (Z * Z) :=
  match es with
  | [] => None
  | (start, count, flags) :: es =>
      if fblk <? fo + count then if start =? 0 then None else Some (start + (fblk - fo), flags) else runs_map es (fo + count) fblk
  end.
Definition exts (c : list Z) : list (Z * Z * Z) := map (ext_at c) (seq 0 (Z.to_nat (cn_n_inline c))).
Definition runs_len (es : list (Z * Z * Z)) : Z := foldr (fun e n => snd (fst e) + n) 0 es.
(** No address of a run leaves 64 bits. *)
Definition run_ok (e : Z * Z * Z) : Prop := 0 <= snd (fst e) < 2 ^ 32 /\ 0 <= fst (fst e) /\ fst (fst e) + snd (fst e) < 2 ^ 64.
Definition runs_ok (es : list (Z * Z * Z)) : Prop := Forall run_ok es /\ runs_len es < 2 ^ 64.

(** The same of the records of a tree: holes are absent. *)
Definition recs_map (rs : list CarafsExtentRec) (fblk : Z) : option (Z * Z) :=
  match floor_of rs fblk with
  | Some r => if fblk <? xr_file_off r + xr_count r then Some (xr_start r + (fblk - xr_file_off r), xr_flags r) else None
  | None => None
  end.
Definition rec_ok (r : CarafsExtentRec) : Prop :=
  0 <= xr_file_off r /\ 0 < xr_start r /\ 0 <= xr_count r /\ xr_file_off r + xr_count r < 2 ^ 64 /\ xr_start r + xr_count r < 2 ^ 64.

(** The block map of the cnode [c] on a volume with contents [v]. *)
Inductive block_map (bs : nat) (v : Z -> list Z) (nb : Z) (c : list Z) : (Z -> option (Z * Z)) -> Prop :=
| map_runs : cn_tree_root c = 0 -> runs_ok (exts c) -> block_map bs v nb c (runs_map (exts c) 0)
| map_tree h rs : 0 < cn_tree_root c -> etree bs v nb h (cn_tree_root c) rs -> (h < BT_MAX_DEPTH)%nat -> StronglySorted off_lt rs ->
    Forall rec_ok rs -> block_map bs v nb c (recs_map rs).

(** Byte [k] of a block-mapped file: holes and unwritten runs read as zeros. *)
Definition file_byte (bs : nat) (v : Z -> list Z) (f : Z -> option (Z * Z)) (k : Z) : Z :=
  match f (k / Z.of_nat bs) with
  | Some (p, flags) => if is_unwritten flags then 0 else nth (Z.to_nat (k mod Z.of_nat bs)) (v p) 0
  | None => 0
  end.
(** The bytes of a file: inline data, or blocks. *)
Inductive file_content (bs : nat) (v : Z -> list Z) (nb : Z) (c : list Z) : (Z -> Z) -> Prop :=
| content_inline its p : items_rep bs c its -> item_get its CARAFS_ITEM_INLINE_DATA = Some p -> cn_size_bytes c = Z.of_nat (length p) ->
    file_content bs v nb c (fun k => nth (Z.to_nat k) p 0)
| content_blocks its f : items_rep bs c its -> item_get its CARAFS_ITEM_INLINE_DATA = None -> block_map bs v nb c f ->
    file_content bs v nb c (file_byte bs v f).

(** ** Looking up a block *)

Lemma exts_from k c i : map (ext_at c) (seq i (S k)) = ext_at c i :: map (ext_at c) (seq (S i) k).
Proof. done. Qed.
Lemma inline_lookup_spec k c i fo fblk :
  Forall run_ok (map (ext_at c) (seq i k)) -> 0 <= fo <= fblk -> fo + runs_len (map (ext_at c) (seq i k)) < 2 ^ 64 -> fblk < 2 ^ 64 ->
  let x := inline_lookup k c i fo fblk in
  match runs_map (map (ext_at c) (seq i k)) fo fblk with
  | Some (p, fl) => fm_phys x = p /\ fm_unwritten x = is_unwritten fl /\ 0 < p < 2 ^ 64
  | None => fm_phys x = 0
  end /\ 0 < fm_run x < 2 ^ 64.
Proof.
  revert i fo. induction k as [|k IH]; intros i fo Hok Hfo Hlen Hb; [done|].
  rewrite exts_from in *. cbn [inline_lookup runs_map]. destruct (ext_at c i) as [[start count] flags]. apply Forall_cons in Hok as [[H1 [H2 H3]] Hok].
  unfold runs_len in Hlen. cbn [fst snd foldr] in *. fold (runs_len (map (ext_at c) (seq (S i) k))) in Hlen.
  assert (0 <= runs_len (map (ext_at c) (seq (S i) k))) as Hl0 by (clear - Hok; induction Hok as [|e es [? _] _ IH]; unfold runs_len in *; simpl; lia).
  rewrite u64_small by (unfold in_u64; lia). destruct (Z.ltb_spec fblk (fo + count)).
  - destruct (Z.eqb_spec start 0); cbn [negb]; cbn zeta; cbn [fm_phys fm_unwritten fm_run]; [split; [done|]; rewrite u64_small; unfold in_u64; lia|].
    rewrite !u64_small by (unfold in_u64; rewrite ?u64_small; unfold in_u64; lia). split; [split_and!; try done; lia|lia].
  - apply (IH (S i) (fo + count)); try done; lia.
Qed.

Section Spec.
Context {D : Type} `{!BlockDev D} `{!BlockDevLaws D}.
Abbreviation mount := (CarafsMount D).
Implicit Types m : mount.

(** The cnode pointer [cn] is held, and the volume shows [v]. *)
Record holding m (v : Z -> list Z) (cn : Z) : Prop := {
  hd_fit : fit m;
  hd_bs : (CARAFS_CNODE_ITEMS_OFF <= m_block_size m)%nat;
  hd_valid : valid_idx m cn;
  hd_pin : 0 < e_pins (ent m cn);
  hd_view b : in_dev m b -> view m b = v b
}.
Lemma holding_reads m m' v cn : holding m v cn -> reads m m' -> holding m' v cn /\ node m' cn = node m cn.
Proof.
  intros [H1 H2 H3 H4 H5] Hr. destruct (reads_dims _ _ Hr) as (En & Ed & Eb). split; [|by apply (reads_node m)].
  pose proof (rs_pinned _ _ Hr cn H3 H4) as Eu. destruct (ent_user_inv _ _ Eu) as (_ & _ & _ & Ep & _). split.
  - by apply (reads_fit m).
  - by rewrite Eb.
  - unfold valid_idx in *. by rewrite En.
  - by rewrite Ep.
  - intros b Hb. apply (reads_dev _ _ b Hr) in Hb. rewrite (reads_view m m' b Hr Hb). by apply H5.
Qed.

Lemma floor_in rs fblk r : floor_of rs fblk = Some r -> r ∈ rs /\ xr_file_off r <= fblk.
Proof.
  unfold floor_of. intros E. apply last_Some in E as (l & E). assert (r ∈ List.filter (fun r => xr_file_off r <=? fblk) rs) as H by (rewrite E; set_solver).
  apply list_elem_of_In, List.filter_In in H as [H1 H2]. apply Z.leb_le in H2. split; [by apply list_elem_of_In|done].
Qed.

Lemma map_lookup_spec m v cn c f fblk r m' :
  dev_no_notfound (D := D) -> holding m v cn -> node m cn = c -> block_map (m_block_size m) v (dev_n m) c f -> 0 <= fblk < 2 ^ 64 -> map_lookup cn fblk m = (r, m') ->
  reads m m' /\ forall x, r = Ok x ->
    match f fblk with Some (p, fl) => fm_phys x = p /\ fm_unwritten x = is_unwritten fl /\ 0 < p < 2 ^ 64 | None => fm_phys x = 0 end.
Proof.
  intros Hdev Hh Ec Hm Hfb E. pose proof (hd_fit _ _ _ Hh) as Hf. unfold map_lookup in E. st_simp_in E. rewrite Ec in E.
  destruct Hm as [Hroot Hruns|h rs Hroot Ht Hh8 Hs Hok].
  - rewrite Hroot in E. cbn [Z.eqb negb] in E. injection E as <- <-. split; [by apply reads_refl|]. intros x [= <-].
    destruct Hruns as [Hr1 Hr2]. by apply (inline_lookup_spec _ c 0 0 fblk Hr1 ltac:(lia) Hr2 (proj2 Hfb)).
  - rewrite (proj2 (Z.eqb_neq _ _)) in E by lia. cbn [negb] in E. cbv zeta in E. rewrite st_bind_try in E.
    destruct (carafs_etree_floor (cn_tree_root c) fblk m) as [rf m1] eqn:Ef.
    pose proof (etree_floor_reads _ m (cn_tree_root c) _ rf m1 Hf (Z.lt_le_incl _ _ Hroot) Ef) as Hr1. pose proof (reads_fit _ _ Hf Hr1) as Hf1.
    assert (32 <= m_block_size m)%nat as H32 by (pose proof (hd_bs _ _ _ Hh) as H; unfold CARAFS_CNODE_ITEMS_OFF in H; lia).
    destruct (etree_floor_from_spec BT_MAX_DEPTH h v m (cn_tree_root c) rs fblk rf m1 (ft_inv _ Hf) (ft_pins _ Hf) H32 (hd_view _ _ _ Hh) Ht Hh8 Hs Ef)
      as (_ & Hfl & Hnf & _).
    assert (forall rn m2, (rc ← st_try (carafs_etree_next (cn_tree_root c) fblk);
      match rc with Ok rec => mret (mkMap 0 (u64 (xr_file_off rec - fblk)) false false)
      | Err e => if e =? CARA_ENOTFOUND then mret (mkMap 0 (2 ^ 64 - 1) false false) else st_err e end) m1 = (rn, m2) ->
      reads m m2 /\ forall x, rn = Ok x -> fm_phys x = 0) as Hhole.
    { intros rn m2 En. st_simp_in En. destruct (carafs_etree_next (cn_tree_root c) fblk m1) as [rn' m3] eqn:En'.
      pose proof (etree_next_reads m1 (cn_tree_root c) _ rn' m3 Hf1 (Z.lt_le_incl _ _ Hroot) En') as Hr2. pose proof (reads_trans _ _ _ Hr1 Hr2) as Hr.
      destruct rn' as [rec2|e2]; [injection En as <- <-; split; [done|]; by intros x [= <-]|].
      destruct (_ =? _); injection En as <- <-; split; try done. by intros x [= <-]. }
    unfold recs_map. destruct rf as [rec|e].
    + rewrite (Hfl rec eq_refl). destruct (floor_in rs fblk rec (Hfl rec eq_refl)) as [Hin Hle]. rewrite Forall_forall in Hok.
      destruct (Hok rec Hin) as (K1 & K2 & K3 & K4 & K5). cbv beta iota zeta in E. rewrite (u64_small (xr_file_off rec + xr_count rec)) in E by (unfold in_u64; lia).
      destruct (Z.ltb_spec fblk (xr_file_off rec + xr_count rec)); [|by apply Hhole].
      injection E as <- <-. split; [done|]. intros x [= <-]. cbn [fm_phys fm_unwritten].
      rewrite (u64_small (fblk - _)), u64_small by (unfold in_u64; rewrite ?u64_small; unfold in_u64; lia). split_and!; try done; lia.
    + destruct (Z.eqb_spec e CARA_ENOTFOUND) as [->|]; [|injection E as <- <-; by split]. rewrite (Hnf Hdev eq_refl). by apply Hhole.
Qed.

(** ** Reading *)

(** The part of one block that a round reads. *)
Lemma block_part bs blk off chunk : (0 < bs)%nat -> length blk = bs -> 0 <= off -> 0 <= chunk -> off mod Z.of_nat bs + chunk <= Z.of_nat bs ->
  sub (Z.to_nat (off mod Z.of_nat bs)) (Z.to_nat chunk) blk = map (fun k => nth (Z.to_nat (k mod Z.of_nat bs)) blk 0) (seqZ off chunk).
Proof.
  intros Hbs Hl Hoff Hc Hfit. pose proof (Z.mod_pos_bound off (Z.of_nat bs) ltac:(lia)) as Hm. apply list_eq. intros i.
  destruct (decide (i < Z.to_nat chunk)%nat) as [Hi|Hi].
  2:{ rewrite !lookup_ge_None_2; [done|rewrite length_map, length_seqZ; lia|rewrite length_sub by lia; lia]. }
  rewrite lookup_sub by done. rewrite list_lookup_fmap, lookup_seqZ_lt by lia. simpl.
  assert ((off + Z.of_nat i) mod Z.of_nat bs = off mod Z.of_nat bs + Z.of_nat i) as ->.
  { rewrite <- (Z.mod_small (off mod Z.of_nat bs + Z.of_nat i) (Z.of_nat bs)) by lia. rewrite (Z.div_mod off (Z.of_nat bs)) at 1 by lia.
    replace (Z.of_nat bs * (off / Z.of_nat bs) + off mod Z.of_nat bs + Z.of_nat i) with (off mod Z.of_nat bs + Z.of_nat i + off / Z.of_nat bs * Z.of_nat bs) by lia.
    by rewrite Z.mod_add by lia. }
  destruct (lookup_lt_is_Some_2 blk (Z.to_nat (off mod Z.of_nat bs) + i)) as [x Hx]; [lia|]. rewrite Hx. f_equal.
  rewrite nth_lookup. replace (Z.to_nat (off mod Z.of_nat bs + Z.of_nat i)) with (Z.to_nat (off mod Z.of_nat bs) + i)%nat by lia. by rewrite Hx.
Qed.
Lemma file_byte_part bs v f off chunk : (0 < bs)%nat -> 0 <= off -> off mod Z.of_nat bs + chunk <= Z.of_nat bs ->
  map (file_byte bs v f) (seqZ off chunk) =
  match f (off / Z.of_nat bs) with
  | Some (p, fl) => if is_unwritten fl then zeros (Z.to_nat chunk) else map (fun k => nth (Z.to_nat (k mod Z.of_nat bs)) (v p) 0) (seqZ off chunk)
  | None => zeros (Z.to_nat chunk)
  end.
Proof.
  intros Hbs Hoff Hfit. pose proof (Z.mod_pos_bound off (Z.of_nat bs) ltac:(lia)) as Hm.
  assert (forall k, k ∈ seqZ off chunk -> file_byte bs v f k = match f (off / Z.of_nat bs) with
    | Some (p, fl) => if is_unwritten fl then 0 else nth (Z.to_nat (k mod Z.of_nat bs)) (v p) 0 | None => 0 end) as Hk.
  { intros k Hk%elem_of_seqZ. unfold file_byte. assert (k / Z.of_nat bs = off / Z.of_nat bs) as ->; [|done].
    symmetry. apply Z.div_unique with (off mod Z.of_nat bs + (k - off)); [left; lia|]. pose proof (Z.div_mod off (Z.of_nat bs) ltac:(lia)). lia. }
  assert (forall g : Z -> Z, (forall k, k ∈ seqZ off chunk -> g k = 0) -> map g (seqZ off chunk) = zeros (Z.to_nat chunk)) as Hz.
  { intros g Hg. apply list_eq. intros i. unfold zeros. destruct (decide (i < Z.to_nat chunk)%nat).
    - rewrite lookup_replicate_2 by done. rewrite list_lookup_fmap, lookup_seqZ_lt by lia. simpl. f_equal. apply Hg, elem_of_seqZ. lia.
    - rewrite !lookup_ge_None_2; [done|rewrite length_replicate; lia|rewrite length_map, length_seqZ; lia]. }
  destruct (f (off / Z.of_nat bs)) as [[p fl]|]; [|by apply Hz]. destruct (is_unwritten fl); [by apply Hz|].
  apply map_ext_in. intros k Hin. by apply Hk, list_elem_of_In.
Qed.

Lemma read_part bs m v cn x off chunk (o : option (Z * Z)) :
  holding m v cn -> m_block_size m = bs ->
  match o with Some (p, fl) => fm_phys x = p /\ fm_unwritten x = is_unwritten fl /\ 0 < p < 2 ^ 64 | None => fm_phys x = 0 end ->
  0 <= off -> 0 <= chunk -> off mod Z.of_nat bs + chunk <= Z.of_nat bs ->
  exists rp m2, (if (fm_phys x =? 0) || fm_unwritten x then mret (zeros (Z.to_nat chunk)) else
      '(data, _) ← carafs_cache_get (fm_phys x) CARAFS_GET_READ;
      d ← st_gets (fun m => sub (Z.to_nat (off mod Z.of_nat bs)) (Z.to_nat chunk) (node m data));
      st_mod (carafs_cache_put (fm_phys x));; mret d) m = (rp, m2) /\ reads m m2 /\
    forall part, rp = Ok part -> part =
      match o with
      | Some (p, fl) => if is_unwritten fl then zeros (Z.to_nat chunk) else map (fun k => nth (Z.to_nat (k mod Z.of_nat bs)) (v p) 0) (seqZ off chunk)
      | None => zeros (Z.to_nat chunk)
      end.
Proof.
  intros Hh Ebs Ho Hoff Hch Hfit. pose proof (hd_fit _ _ _ Hh) as Hf.
  assert (0 < bs)%nat as Hbs by (pose proof (hd_bs _ _ _ Hh) as H; unfold CARAFS_CNODE_ITEMS_OFF in H; lia).
  destruct o as [[p fl]|]; [|rewrite Ho; eexists _, m; split; [done|]; split; [by apply reads_refl|by intros ? [= <-]]].
  destruct Ho as (-> & -> & Hp). rewrite (proj2 (Z.eqb_neq _ _)) by lia. cbn [orb].
  destruct (is_unwritten fl); [eexists _, m; split; [done|]; split; [by apply reads_refl|by intros ? [= <-]]|].
  rewrite st_bind_eq. destruct (carafs_cache_get p CARAFS_GET_READ m) as [[[i fresh]|e] m1] eqn:Eg.
  2:{ eexists _, m1. split; [done|]. split; [|done]. by apply (get_err_reads m p CARAFS_GET_READ e m1 Hf ltac:(lia)). }
  destruct (cache_get_spec m p _ _ m1 (ft_inv _ Hf) (ft_pins _ Hf) ltac:(lia) Eg) as [Hbd Hg]. st_simp.
  eexists _, _. split; [done|]. split; [by apply (got_put_reads m p i fresh m1)|]. intros part [= <-].
  rewrite (got_node m p i fresh m1 Hbd Hg), (hd_view _ _ _ Hh p Hbd). apply block_part; try done.
  rewrite <- (hd_view _ _ _ Hh p Hbd), <- Ebs. by apply view_ok; [apply Hf|].
Qed.
Lemma read_blocks_spec fuel m v cn c f off todo r m' :
  dev_no_notfound (D := D) -> holding m v cn -> node m cn = c -> block_map (m_block_size m) v (dev_n m) c f ->
  0 <= off -> off + todo < 2 ^ 64 -> todo <= Z.of_nat fuel -> read_blocks fuel cn off todo m = (r, m') ->
  reads m m' /\ forall data, r = Ok data -> data = map (file_byte (m_block_size m) v f) (seqZ off todo).
Proof.
  intros Hdev. revert m off todo r m'. induction fuel as [|fuel IH]; intros m off todo r m' Hh Ec Hm Hoff Hend Hfuel E.
  { injection E as <- <-. split; [by apply reads_refl, (hd_fit _ _ _ Hh)|]. intros data [= <-]. by rewrite seqZ_nil by lia. }
  cbn [read_blocks] in E. destruct (Z.ltb_spec 0 todo) as [Htodo|Hle].
  2:{ injection E as <- <-. split; [by apply reads_refl, (hd_fit _ _ _ Hh)|]. intros data [= <-]. by rewrite seqZ_nil by lia. }
  st_simp_in E. set (bs := m_block_size m) in *. assert (0 < bs)%nat as Hbs by (pose proof (hd_bs _ _ _ Hh) as H; unfold CARAFS_CNODE_ITEMS_OFF in H; unfold bs; lia).
  pose proof (Z.mod_pos_bound off (Z.of_nat bs) ltac:(lia)) as Hmod. set (chunk := Z.min (Z.of_nat bs - off mod Z.of_nat bs) todo) in *.
  assert (0 < chunk <= todo /\ off mod Z.of_nat bs + chunk <= Z.of_nat bs) as [Hch Hfit] by (unfold chunk; lia).
  assert (0 <= off / Z.of_nat bs < 2 ^ 64) as Hfb by (split; [apply Z.div_pos; lia|]; apply Z.le_lt_trans with off; [apply Z.div_le_upper_bound; nia|lia]).
  rewrite st_bind_eq in E. destruct (map_lookup cn (off / Z.of_nat bs) m) as [rl m1] eqn:El.
  destruct (map_lookup_spec m v cn c f _ rl m1 Hdev Hh Ec Hm Hfb El) as [Hr1 Hx].
  destruct rl as [x|e]; [|injection E as <- <-; by split]. specialize (Hx x eq_refl).
  destruct (holding_reads m m1 v cn Hh Hr1) as [Hh1 En1].
  assert (exists rp m2, (if (fm_phys x =? 0) || fm_unwritten x then mret (zeros (Z.to_nat chunk)) else
      '(data, _) ← carafs_cache_get (fm_phys x) CARAFS_GET_READ;
      d ← st_gets (fun m => sub (Z.to_nat (off mod Z.of_nat bs)) (Z.to_nat chunk) (node m data));
      st_mod (carafs_cache_put (fm_phys x));; mret d) m1 = (rp, m2) /\ reads m1 m2 /\
    forall part, rp = Ok part -> part = map (file_byte bs v f) (seqZ off chunk)) as (rp & m2 & E2 & Hr2 & Hp).
  { rewrite file_byte_part by lia. apply (read_part bs m1 v cn x); try done; [by destruct (reads_dims _ _ Hr1) as (_ & _ & ->)|lia]. }
  rewrite st_bind_eq, E2 in E. pose proof (reads_trans _ _ _ Hr1 Hr2) as Hr. destruct rp as [part|e]; [|injection E as <- <-; by split].
  destruct (holding_reads m m2 v cn Hh Hr) as [Hh2 En2]. destruct (reads_dims _ _ Hr) as (_ & Ed & Ebs). rewrite st_bind_eq in E.
  rewrite u64_small in E by (unfold in_u64; lia). destruct (read_blocks fuel cn (off + chunk) (todo - chunk) m2) as [rr m3] eqn:Er.
  destruct (IH m2 (off + chunk) (todo - chunk) rr m3) as [Hr3 Hd]; try done; try lia; [by rewrite En2|by rewrite Ed, Ebs|].
  rewrite Ebs in Hd. fold bs in Hd. destruct rr as [rest|e]; injection E as <- <-; (split; [by apply (reads_trans _ _ _ Hr)|]); [|done].
  intros data [= <-]. rewrite (Hp part eq_refl), (Hd rest eq_refl), <- map_app. f_equal. rewrite <- seqZ_app by lia. f_equal. lia.
Qed.

Lemma sub_seqZ p off n : 0 <= off -> 0 <= n -> off + n <= Z.of_nat (length p) ->
  sub (Z.to_nat off) (Z.to_nat n) p = map (fun k => nth (Z.to_nat k) p 0) (seqZ off n).
Proof.
  intros Ho Hn Hl. apply list_eq. intros i. destruct (decide (i < Z.to_nat n)%nat) as [Hi|Hi].
  2:{ rewrite !lookup_ge_None_2; [done|rewrite length_map, length_seqZ; lia|rewrite length_sub by lia; lia]. }
  rewrite lookup_sub by done. rewrite list_lookup_fmap, lookup_seqZ_lt by lia. simpl.
  destruct (lookup_lt_is_Some_2 p (Z.to_nat off + i)) as [x Hx]; [lia|]. rewrite Hx. f_equal. rewrite nth_lookup.
  replace (Z.to_nat (off + Z.of_nat i)) with (Z.to_nat off + i)%nat by lia. by rewrite Hx.
Qed.

Lemma file_read_spec m v cn c content off len r m' :
  dev_no_notfound (D := D) -> holding m v cn -> node m cn = c -> file_content (m_block_size m) v (dev_n m) c content ->
  0 <= off -> 0 <= len -> cn_size_bytes c < 2 ^ 64 -> file_read cn off len m = (r, m') ->
  reads m m' /\ forall data, r = Ok data -> data = map content (seqZ off (Z.min len (cn_size_bytes c - off))).
Proof.
  intros Hdev Hh Ec Hcont Hoff Hlen Hsz E. pose proof (reads_refl _ (hd_fit _ _ _ Hh)) as Hrefl. unfold file_read in E. st_simp_in E. rewrite Ec in E.
  destruct (cn_type c =? CARAFS_T_FILE); [|injection E as <- <-; by split].
  destruct (Z.leb_spec (cn_size_bytes c) off); [injection E as <- <-; split; [done|]; intros data [= <-]; by rewrite seqZ_nil by lia|].
  destruct Hcont as [its p Hrep Hg Hsp|its f Hrep Hg Hm]; pose proof (find_spec _ c its CARAFS_ITEM_INLINE_DATA Hrep) as Hf; rewrite Hg in Hf.
  - destruct Hf as (at_ & Ff & Hp & _). rewrite Ff in E. injection E as <- <-. split; [done|]. intros data [= <-].
    rewrite <- sub_seqZ by lia. rewrite <- (sub_sub _ _ at_ (length p)) by lia. by rewrite Hp.
  - rewrite Hf in E. apply (read_blocks_spec _ m v cn c f off _ r m' Hdev Hh Ec Hm Hoff) in E; [done|lia|lia].
Qed.

(** One more pin on any block leaves every count below its limit. *)
Definition pins_light m : Prop := forall i, valid_idx m i -> e_pins (ent m i) < 2 ^ 32 - 2.
Lemma light_got m b i fresh m1 : cache_inv m -> pins_light m -> got m b CARAFS_GET_READ i fresh m1 -> fit m /\ fit m1.
Proof.
  intros Hc Hl Hg. split; (split; [done || apply (got_inv _ _ _ _ _ _ Hg)|]); intros j Hj; [pose proof (Hl j Hj); lia|].
  assert (valid_idx m j) as Hj0 by (unfold valid_idx in *; by rewrite <- (got_len _ _ _ _ _ _ Hg)).
  pose proof (got_pins _ _ _ _ _ _ Hc Hg j Hj0). pose proof (Hl j Hj0). destruct (j =? i); lia.
Qed.

Lemma read_call_spec m b content off len r m' :
  dev_no_notfound (D := D) -> cache_inv m -> pins_light m -> (CARAFS_CNODE_ITEMS_OFF <= m_block_size m)%nat -> in_dev m b ->
  block_crc_ok (view m b) (m_block_size m) CN_CRC = true ->
  file_content (m_block_size m) (view m) (dev_n m) (view m b) content -> 0 <= off -> 0 <= len ->
  Carafs_FileRead b off len m = (r, m') ->
  shows (view m) m m' /\ forall data, r = Ok data -> data = map content (seqZ off (Z.min len (cn_size_bytes (view m b) - off))).
Proof.
  intros Hdev Hc Hl Hbs Hb Hcrc Hcont Hoff Hlen E. assert (fit m) as Hf by (split; [done|]; intros j Hj; pose proof (Hl j Hj); lia).
  unfold Carafs_FileRead in E. st_simp_in E. destruct (m_mounted m); [|unfold st_err in E; injection E as <- <-; split; [apply reads_refl, Hf|done]].
  rewrite st_bind_eq in E. destruct (carafs_cnode_get b m) as [rg m1] eqn:Eg.
  pose proof (cnode_get_spec m b rg m1 Hc (ft_pins _ Hf) Hb Hcrc Eg) as Hs. destruct rg as [cn|e]; [|injection E as <- <-; split; [apply Hs|done]].
  destruct Hs as (fresh & Hg & En & _ & Ebn & _). destruct (light_got m b cn fresh m1 Hc Hl Hg) as [_ Hf1].
  pose proof (got_bs _ _ _ _ _ _ Hg) as Gb. pose proof (got_dev _ _ _ _ _ _ Hg) as Gd.
  assert (holding m1 (view m) cn) as Hh.
  { split; [done|by rewrite Gb| |apply (got_pinned _ _ _ _ _ _ Hg)|].
    - pose proof (got_valid _ _ _ _ _ _ Hg). unfold valid_idx in *. by rewrite (got_len _ _ _ _ _ _ Hg).
    - intros b' Hb'. assert (in_dev m b') as Hb0 by (unfold in_dev in *; by rewrite <- Gd). rewrite (got_view _ _ _ _ _ _ Hg b' Hb0). by rewrite andb_false_r. }
  st_simp_in E. destruct (file_read cn off len m1) as [rr m2] eqn:Er. st_simp_in E.
  destruct (file_read_spec m1 (view m) cn (view m b) content off len rr m2) as [Hr Hd]; try done; [by rewrite Gb, Gd| |].
  { destruct (view_ok m b Hc Hb) as [Hlb Hby]. apply (rd_range 8 _ CN_SIZE_BYTES Hby). unfold CN_SIZE_BYTES. unfold CARAFS_CNODE_ITEMS_OFF in Hbs. lia. }
  destruct (holding_reads m1 m2 (view m) cn Hh Hr) as [_ En2]. unfold carafs_cnode_put in E. st_simp_in E. rewrite En2, En, Ebn in E.
  unfold st_lift in E. injection E as <- <-. split; [by apply (got_reads_put m b cn fresh m1)|done].
Qed.
(** C27: Reading a file. On a sealed cnode whose contents are the byte function [content] of the
    cnode's size (inline data, or the blocks that its inline extents or its extent tree map, where
    holes and unwritten runs are zeros), every successful [Carafs_FileRead] returns exactly the bytes from
    [off] to the end of the request or of the file, whichever comes first. Reading changes no
    block and leaves no pin, and the loop over blocks ends. *)
Theorem file_read_correct m b content off len r m' :
  dev_no_notfound (D := D) -> cache_inv m -> pins_light m -> (CARAFS_CNODE_ITEMS_OFF <= m_block_size m)%nat -> in_dev m b ->
  block_crc_ok (view m b) (m_block_size m) CN_CRC = true ->
  file_content (m_block_size m) (view m) (dev_n m) (view m b) content -> 0 <= off -> 0 <= len ->
  Carafs_FileRead b off len m = (r, m') ->
  shows (view m) m m' /\ forall data, r = Ok data -> data = map content (seqZ off (Z.min len (cn_size_bytes (view m b) - off))).
Proof. apply read_call_spec. Qed.
End Spec.

(** * Recording a run in the inline extents *)

(** ** Lists of runs *)

Lemma runs_len_cons s k fl es : runs_len ((s, k, fl) :: es) = k + runs_len es.
Proof. done. Qed.
Lemma runs_len_app a b : runs_len (a ++ b) = runs_len a + runs_len b.
Proof. unfold runs_len. induction a as [|e a IH]; simpl; lia. Qed.
Lemma runs_len_nonneg es : Forall run_ok es -> 0 <= runs_len es.
Proof. induction 1 as [|e es [? _] _ IH]; unfold runs_len in *; simpl; lia. Qed.
Lemma runs_map_app a b fo fblk : Forall run_ok a -> fo <= fblk ->
  runs_map (a ++ b) fo fblk = if fblk <? fo + runs_len a then runs_map a fo fblk else runs_map b (fo + runs_len a) fblk.
Proof.
  intros Ha. revert fo. induction Ha as [|[[s k] fl] a [Hk _] Ha IH]; intros fo Hf; cbn [app runs_map].
  - unfold runs_len. simpl. rewrite Z.add_0_r, (proj2 (Z.ltb_ge _ _)) by lia. done.
  - cbn [fst snd] in Hk. pose proof (runs_len_nonneg a Ha) as Hl. rewrite runs_len_cons.
    destruct (Z.ltb_spec fblk (fo + k)).
    + rewrite (proj2 (Z.ltb_lt _ _)) by lia. done.
    + rewrite IH by lia. by replace (fo + k + runs_len a) with (fo + (k + runs_len a)) by lia.
Qed.
(** A hole at the end and a run of no blocks say nothing. *)
Lemma runs_map_hole_end a k x fo fblk : Forall run_ok a -> fo <= fblk -> runs_map (a ++ [(0, k, x)]) fo fblk = runs_map a fo fblk.
Proof.
  intros Ha Hf. rewrite runs_map_app by done. destruct (Z.ltb_spec fblk (fo + runs_len a)); [done|].
  rewrite <- (app_nil_r a) at 2. rewrite (runs_map_app a []) by done. rewrite (proj2 (Z.ltb_ge _ _)) by lia. simpl. by destruct (_ <? _).
Qed.
Lemma runs_map_empty a s x b fo fblk : Forall run_ok a -> fo <= fblk -> runs_map (a ++ (s, 0, x) :: b) fo fblk = runs_map (a ++ b) fo fblk.
Proof.
  intros Ha Hf. rewrite !runs_map_app by done. destruct (Z.ltb_spec fblk (fo + runs_len a)); [done|]. cbn [runs_map].
  rewrite Z.add_0_r, (proj2 (Z.ltb_ge _ _)) by lia. done.
Qed.
(** Part of a hole is filled. *)
Lemma runs_map_fill a b pre start count post x fo fblk : Forall run_ok a -> 0 <= pre -> 0 < count -> 0 <= post -> 0 < start -> fo <= fblk ->
  runs_map (a ++ (0, pre, 0) :: (start, count, 0) :: (0, post, 0) :: b) fo fblk =
  if (fo + runs_len a + pre <=? fblk) && (fblk <? fo + runs_len a + pre + count) then Some (start + (fblk - (fo + runs_len a + pre)), 0)
  else runs_map (a ++ (0, pre + count + post, x) :: b) fo fblk.
Proof.
  intros Ha Hpre Hc Hpost Hs Hf. rewrite !runs_map_app by done. set (o := fo + runs_len a). destruct (Z.ltb_spec fblk o) as [Hlt|Hge].
  { rewrite (proj2 (Z.leb_gt _ _)) by lia. done. }
  cbn [runs_map]. rewrite (proj2 (Z.eqb_neq start 0)) by lia. rewrite Z.eqb_refl.
  destruct (Z.ltb_spec fblk (o + pre)), (Z.leb_spec (o + pre) fblk), (Z.ltb_spec fblk (o + pre + count)); cbn [andb]; try lia; try done.
  - by rewrite (proj2 (Z.ltb_lt fblk (o + (pre + count + post)))) by lia.
  - replace (o + (pre + count + post)) with (o + pre + count + post) by lia. by destruct (Z.ltb_spec fblk (o + pre + count + post)).
Qed.

(** ** The loops *)

Lemma mapped_end_spec k c i fo : Forall run_ok (map (ext_at c) (seq i k)) -> 0 <= fo -> fo + runs_len (map (ext_at c) (seq i k)) < 2 ^ 64 ->
  mapped_end k c i fo = fo + runs_len (map (ext_at c) (seq i k)).
Proof.
  revert i fo. induction k as [|k IH]; intros i fo Hok Hf Hl; [simpl; unfold runs_len; simpl; lia|].
  rewrite exts_from in *. cbn [mapped_end]. destruct (ext_at c i) as [[s n] fl]. apply Forall_cons in Hok as [[Hk _] Hok]. cbn [fst snd] in Hk.
  rewrite runs_len_cons in *. pose proof (runs_len_nonneg _ Hok).
  rewrite u64_small by (unfold in_u64; lia). rewrite IH by (done || lia). lia.
Qed.
(** The run that holds file block [fo], as the search for it and the lookup see it. *)
Lemma run_at_spec k c i hs fo : let es := map (ext_at c) (seq i k) in
  Forall run_ok es -> 0 <= hs <= fo -> hs + runs_len es < 2 ^ 64 -> fo < hs + runs_len es ->
  exists a s n fl b, es = a ++ (s, n, fl) :: b /\ run_at k c i hs fo = ((i + length a)%nat, hs + runs_len a) /\
    hs + runs_len a <= fo < hs + runs_len a + n /\ 0 <= n < 2 ^ 32 /\
    (fm_phys (inline_lookup k c i hs fo) = 0 -> 0 <= s -> s + n < 2 ^ 64 -> s = 0 /\ fm_run (inline_lookup k c i hs fo) = hs + runs_len a + n - fo).
Proof.
  revert i hs. induction k as [|k IH]; intros i hs es Hok Hhs Hl Hlt; [unfold es, runs_len in Hlt; simpl in Hlt; lia|].
  unfold es in *. rewrite exts_from in *. cbn [run_at inline_lookup]. destruct (ext_at c i) as [[s n] fl]. apply Forall_cons in Hok as [[Hk [Hs1 Hs2]] Hok].
  rewrite runs_len_cons in Hl, Hlt. cbn [fst snd] in Hk, Hs1, Hs2. pose proof (runs_len_nonneg _ Hok).
  rewrite (u64_small (hs + n)) by (unfold in_u64; lia). destruct (Z.ltb_spec fo (hs + n)) as [Hin|Hout].
  - exists [], s, n, fl, (map (ext_at c) (seq (S i) k)). unfold runs_len. simpl. rewrite Nat.add_0_r, Z.add_0_r. split_and!; try done; try lia.
    intros Hp _ _. destruct (Z.eqb_spec s 0) as [->|Hne]; cbn [negb fm_phys fm_run] in *; [split; [done|]; apply u64_small; unfold in_u64; lia|].
    rewrite !u64_small in Hp by (unfold in_u64; rewrite ?u64_small; unfold in_u64; lia). lia.
  - destruct (IH (S i) (hs + n) Hok ltac:(lia) ltac:(lia) ltac:(lia)) as (a & s' & n' & fl' & b & E & Er & H1 & H2 & H3).
    exists ((s, n, fl) :: a), s', n', fl', b. rewrite E, runs_len_cons. cbn [length].
    replace (hs + (n + runs_len a)) with (hs + n + runs_len a) by lia. split_and!; try done; try lia. rewrite Er. f_equal. lia.
Qed.
Lemma lookup_past k c i hs fo : let es := map (ext_at c) (seq i k) in
  Forall run_ok es -> 0 <= hs -> hs + runs_len es <= fo -> hs + runs_len es < 2 ^ 64 -> inline_lookup k c i hs fo = mkMap 0 (2 ^ 64 - 1) false false.
Proof.
  revert i hs. induction k as [|k IH]; intros i hs es Hok Hhs Hfo Hl; [done|]. unfold es in *. rewrite exts_from in *. cbn [inline_lookup].
  destruct (ext_at c i) as [[s n] fl]. apply Forall_cons in Hok as [[Hk _] Hok]. rewrite runs_len_cons in Hl, Hfo. cbn [fst snd] in Hk. pose proof (runs_len_nonneg _ Hok). rewrite (u64_small (hs + n)) by (unfold in_u64; lia).
  rewrite (proj2 (Z.ltb_ge _ _)) by lia. apply IH; done || lia.
Qed.

(** ** The bytes of the extent array *)

Lemma rd_splice_in n dst off src off' : (off <= off')%nat -> (off' + n <= off + length src)%nat -> (off + length src <= length dst)%nat ->
  rd n (splice dst off src) off' = rd n src (off' - off).
Proof.
  intros H1 H2 H3. unfold rd. f_equal. apply list_eq. intros i. destruct (decide (i < n)%nat) as [Hi|Hi].
  - rewrite !lookup_sub by done. rewrite lookup_splice_in by lia. f_equal. lia.
  - unfold sub. rewrite !lookup_ge_None_2; [done|rewrite length_take; lia|rewrite length_take; lia].
Qed.

(** Everything outside the array and its counter is kept. *)
Record ext_frame (c c' : list Z) : Prop := {
  xf_len : length c' = length c;
  xf_bytes : bytes_ok c -> bytes_ok c';
  xf_rd n off : (off + n <= CN_N_INLINE \/ CN_N_INLINE + 4 <= off)%nat -> (off + n <= CN_EXT \/ CARAFS_CNODE_ITEMS_OFF <= off)%nat -> rd n c' off = rd n c off
}.
Lemma frame_trans a b c : ext_frame a b -> ext_frame b c -> ext_frame a c.
Proof. intros [L1 B1 R1] [L2 B2 R2]. split; [congruence|auto|]. intros n off H1 H2. by rewrite R2, R1. Qed.
Lemma frame_splice c off src : (CN_EXT <= off)%nat -> (off + length src <= CARAFS_CNODE_ITEMS_OFF)%nat -> (bytes_ok c -> bytes_ok src) -> ext_frame c (splice c off src).
Proof.
  unfold CN_EXT, CARAFS_CNODE_ITEMS_OFF. intros H1 H2 H3. split; [apply length_splice|intros Hc; apply splice_bytes_ok; auto|].
  intros n o _ Ho. unfold rd. rewrite sub_splice_other; [done|]. unfold CN_EXT, CARAFS_CNODE_ITEMS_OFF in Ho. lia.
Qed.
Lemma frame_count c v : ext_frame c (wr 4 c CN_N_INLINE v).
Proof. split; [apply length_wr|apply wr_bytes_ok|]. intros n off Ho _. rewrite rd_wr_other by (unfold CN_N_INLINE in *; lia). done. Qed.

Definition in_array (c : list Z) (i : nat) : Prop := (i < CARAFS_INLINE_EXTENTS)%nat /\ (CARAFS_CNODE_ITEMS_OFF <= length c)%nat.
Lemma length_ext_bytes s k : length (ext_bytes s k) = 16%nat.
Proof. unfold ext_bytes. by rewrite !length_app, !length_le_put. Qed.
Lemma ext_bytes_ok s k : bytes_ok (ext_bytes s k).
Proof. unfold ext_bytes, bytes_ok. rewrite !Forall_app. split_and!; apply le_put_ok. Qed.
Lemma put_ext_frame c i s k : in_array c i -> ext_frame c (put_ext c i s k).
Proof. intros [Hi Hl]. unfold CARAFS_INLINE_EXTENTS, CARAFS_CNODE_ITEMS_OFF in *. apply frame_splice; [unfold CN_EXT; lia|rewrite length_ext_bytes; unfold CN_EXT, CARAFS_CNODE_ITEMS_OFF; lia|intros; apply ext_bytes_ok]. Qed.
Lemma ext_put c i s k j : in_array c i -> 0 <= s < 2 ^ 64 -> 0 <= k < 2 ^ 32 -> ext_at (put_ext c i s k) j = if (j =? i)%nat then (s, k, 0) else ext_at c j.
Proof.
  intros [Hi Hl] Hs Hk. unfold CARAFS_INLINE_EXTENTS, CARAFS_CNODE_ITEMS_OFF in *. unfold ext_at, put_ext. destruct (Nat.eqb_spec j i) as [->|Hne].
  - unfold CN_EXT in *. rewrite !rd_splice_in by (rewrite ?length_ext_bytes; lia).
    rewrite Nat.sub_diag. replace (104 + 16 * i + 8 - (104 + 16 * i))%nat with 8%nat by lia. replace (104 + 16 * i + 12 - (104 + 16 * i))%nat with 12%nat by lia.
    unfold ext_bytes, rd. rewrite <- (app_nil_l (le_put 8 s ++ _)) at 1. rewrite sub_at by (rewrite ?length_le_put; done).
    rewrite sub_at by (rewrite ?length_le_put; done). rewrite app_assoc, sub_at by (rewrite ?length_app, ?length_le_put; done).
    rewrite !le_get_put, !Z.mod_small by (simpl; lia). done.
  - unfold rd. rewrite !sub_splice_other by (rewrite length_ext_bytes; unfold CN_EXT; lia). done.
Qed.
Lemma ext_count_store c v j : ext_at (wr 4 c CN_N_INLINE v) j = ext_at c j.
Proof. unfold ext_at. rewrite !rd_wr_other by (unfold CN_N_INLINE, CN_EXT; lia). done. Qed.
Lemma n_inline_store c v : (CARAFS_CNODE_ITEMS_OFF <= length c)%nat -> 0 <= v < 2 ^ 32 -> cn_n_inline (wr 4 c CN_N_INLINE v) = v.
Proof. intros Hl Hv. unfold cn_n_inline. apply rd_wr_same; [unfold CN_N_INLINE, CARAFS_CNODE_ITEMS_OFF in *; lia|done]. Qed.
(** The array elements [src ..] move to [dst ..]. *)
Lemma ext_move c dst src n j : (CARAFS_CNODE_ITEMS_OFF <= length c)%nat -> (dst + n <= CARAFS_INLINE_EXTENTS)%nat -> (src + n <= CARAFS_INLINE_EXTENTS)%nat ->
  let c' := memmove c (CN_EXT + 16 * dst) (CN_EXT + 16 * src) (n * 16) in
  ext_frame c c' /\ ext_at c' j = if (dst <=? j)%nat && (j <? dst + n)%nat then ext_at c (j - dst + src) else ext_at c j.
Proof.
  intros Hl Hd Hs c'. unfold CARAFS_INLINE_EXTENTS, CARAFS_CNODE_ITEMS_OFF in Hl, Hd, Hs. assert (length (sub (CN_EXT + 16 * src) (n * 16) c) = (n * 16)%nat) as El by (apply length_sub; unfold CN_EXT; lia).
  split; [apply frame_splice; [lia|rewrite El; unfold CN_EXT, CARAFS_CNODE_ITEMS_OFF; lia|intros; by apply sub_bytes_ok]|]. unfold c', memmove, ext_at.
  destruct (Nat.leb_spec dst j), (Nat.ltb_spec j (dst + n)); cbn [andb];
    try (unfold rd; rewrite !sub_splice_other by (rewrite El; lia); done).
  rewrite !rd_splice_in by (rewrite ?El; unfold CN_EXT in *; lia). unfold rd. rewrite !sub_sub by (unfold CN_EXT; lia). unfold CN_EXT.
  replace (104 + 16 * src + (104 + 16 * j - (104 + 16 * dst)))%nat with (104 + 16 * (j - dst + src))%nat by lia.
  replace (104 + 16 * src + (104 + 16 * j + 8 - (104 + 16 * dst)))%nat with (104 + 16 * (j - dst + src) + 8)%nat by lia.
  replace (104 + 16 * src + (104 + 16 * j + 12 - (104 + 16 * dst)))%nat with (104 + 16 * (j - dst + src) + 12)%nat by lia. done.
Qed.
Fixpoint put_exts (c : list Z) (i : nat) (es : list (Z * Z * Z)) : list Z :=
  match es with [] => c | (s, k, _) :: es => put_exts (put_ext c i s k) (S i) es end.
Lemma put_exts_spec es c i j : Forall (fun e => run_ok e /\ snd e = 0) es -> (i + length es <= CARAFS_INLINE_EXTENTS)%nat -> (CARAFS_CNODE_ITEMS_OFF <= length c)%nat ->
  ext_frame c (put_exts c i es) /\ ext_at (put_exts c i es) j = if (i <=? j)%nat then default (ext_at c j) (es !! (j - i)%nat) else ext_at c j.
Proof.
  intros Hes. revert c i. induction Hes as [|[[s k] fl] es [[Hk [Hs1 Hs2]] Hfl] Hes IH]; intros c i Hi Hl; cbn [put_exts].
  - split; [by split|]. rewrite lookup_nil. by destruct (_ <=? _)%nat.
  - cbn [fst snd length] in *. subst fl. assert (in_array c i) as Hin by (split; [lia|done]). pose proof (put_ext_frame c i s k Hin) as F1.
    destruct (IH (put_ext c i s k) (S i)) as [F2 E2]; [lia|by rewrite (xf_len _ _ F1)|]. split; [by apply (frame_trans _ _ _ F1)|].
    rewrite E2, !(ext_put c i) by (done || lia). destruct (Nat.leb_spec (S i) j), (Nat.leb_spec i j), (Nat.eqb_spec j i); try lia; try done.
    + destruct (j - i)%nat as [|d] eqn:Ed; [lia|]. replace (j - S i)%nat with d by lia. done.
    + subst j. by rewrite Nat.sub_diag.
Qed.

Lemma exts_eq c es : cn_n_inline c = Z.of_nat (length es) -> (forall j e, es !! j = Some e -> ext_at c j = e) -> exts c = es.
Proof.
  intros En He. unfold exts. rewrite En, Nat2Z.id. apply list_eq. intros j. destruct (decide (j < length es)%nat) as [Hj|Hj].
  - rewrite list_lookup_fmap, lookup_seq_lt by done. simpl. destruct (lookup_lt_is_Some_2 es j Hj) as [e Ee]. rewrite Ee. f_equal. by apply He.
  - rewrite !lookup_ge_None_2; [done|lia|rewrite length_map, length_seq; lia].
Qed.
Lemma exts_lookup c j e : exts c !! j = Some e -> ext_at c j = e.
Proof. unfold exts. rewrite list_lookup_fmap. intros (x & Hx & ->)%fmap_Some. apply lookup_seq in Hx as [-> _]. done. Qed.
Lemma length_exts c : length (exts c) = Z.to_nat (cn_n_inline c).
Proof. unfold exts. by rewrite length_map, length_seq. Qed.

(** ** Placing a run *)

(** Runs without flags, as every writer of the code makes them. *)
Definition plain_run (e : Z * Z * Z) : Prop := run_ok e /\ snd e = 0.
Record inline_ok (c : list Z) : Prop := {
  io_bytes : bytes_ok c;
  io_len : (CARAFS_CNODE_ITEMS_OFF <= length c)%nat;
  io_n : cn_n_inline c <= Z.of_nat CARAFS_INLINE_EXTENTS;
  io_runs : Forall plain_run (exts c);
  io_total : runs_len (exts c) < 2 ^ 64
}.
Definition placed (c : list Z) (fo start count : Z) (c' : list Z) : Prop :=
  ext_frame c c' /\ inline_ok c' /\
  forall fblk, 0 <= fblk -> runs_map (exts c') 0 fblk = if (fo <=? fblk) && (fblk <? fo + count) then Some (start + (fblk - fo), 0) else runs_map (exts c) 0 fblk.

Lemma plain_ok es : Forall plain_run es -> Forall run_ok es.
Proof. intros H. apply (Forall_impl _ _ _ H). by intros e [? _]. Qed.
Lemma n_inline_range c : inline_ok c -> cn_n_inline c = Z.of_nat (length (exts c)) /\ (length (exts c) <= CARAFS_INLINE_EXTENTS)%nat.
Proof.
  intros [Hb Hl Hn _ _]. rewrite length_exts. pose proof (rd_range 4 c CN_N_INLINE Hb) as H. unfold CN_N_INLINE, CARAFS_CNODE_ITEMS_OFF in *.
  change (rd 4 c 96) with (cn_n_inline c) in H. lia.
Qed.
Lemma placed_intro c c' es' fo start count : ext_frame c c' -> bytes_ok c -> (CARAFS_CNODE_ITEMS_OFF <= length c)%nat ->
  cn_n_inline c' = Z.of_nat (length es') -> (forall j e, es' !! j = Some e -> ext_at c' j = e) -> (length es' <= CARAFS_INLINE_EXTENTS)%nat ->
  Forall plain_run es' -> runs_len es' < 2 ^ 64 ->
  (forall fblk, 0 <= fblk -> runs_map es' 0 fblk = if (fo <=? fblk) && (fblk <? fo + count) then Some (start + (fblk - fo), 0) else runs_map (exts c) 0 fblk) ->
  placed c fo start count c'.
Proof.
  intros Hf Hb Hl Hn Hj H16 Hp Ht Hm. pose proof (exts_eq c' es' Hn Hj) as E. split; [done|]. split; [split|by rewrite E].
  - by apply Hf.
  - by rewrite (xf_len _ _ Hf).
  - rewrite Hn. lia.
  - by rewrite E.
  - by rewrite E.
Qed.

Section Place.
Context (c : list Z) (fo start count : Z).
Hypothesis (Hc : inline_ok c) (Hstart : 0 < start) (Hend : start + count < 2 ^ 64) (Hcount : 0 < count < 2 ^ 32) (Hfo : 0 <= fo) (Hfend : fo + count < 2 ^ 64).

Let es := exts c.
Lemma place_plain : plain_run (start, count, 0).
Proof. unfold plain_run, run_ok. simpl. lia. Qed.

(** Growing the last run. *)
Lemma place_merge a s k : es = a ++ [(s, k, 0)] -> s <> 0 -> s + k = start -> k + count <= 0xFFFFFFFF -> fo = runs_len es ->
  placed c fo start count (wr 4 c (CN_EXT + 16 * length a + 8) (u32 (k + count))).
Proof.
  intros E Hs Hsk Hk Hf. destruct (n_inline_range c Hc) as [En H16]. fold es in En, H16. pose proof Hc as [Hb Hl Hn Hr Ht]. fold es in Hr, Ht.
  rewrite E, length_app in En, H16. simpl in En, H16. unfold CARAFS_INLINE_EXTENTS in H16. rewrite E in Hr. apply Forall_app in Hr as [Hra Hrl].
  apply Forall_cons in Hrl as [[[Hk0 [Hs0 Hs1]] _] _]. cbn [fst snd] in Hk0, Hs0, Hs1. rewrite u32_small by (unfold in_u32; lia).
  assert (runs_len es = runs_len a + k) as El by (rewrite E, runs_len_app, runs_len_cons; unfold runs_len at 2; simpl; lia).
  apply (placed_intro c _ (a ++ [(s, k + count, 0)])); try done.
  - apply frame_splice; [lia|rewrite length_le_put; unfold CN_EXT, CARAFS_CNODE_ITEMS_OFF; lia|intros; apply le_put_ok].
  - rewrite length_app. simpl. rewrite <- En. unfold cn_n_inline. by rewrite rd_wr_other by (unfold CN_N_INLINE, CN_EXT; lia).
  - intros j e He. destruct (decide (j = length a)) as [->|Hne].
    + rewrite lookup_app_r, Nat.sub_diag in He by lia. injection He as <-.
      assert (ext_at c (length a) = (s, k, 0)) as Ee by (apply exts_lookup; fold es; by rewrite E, lookup_app_r, Nat.sub_diag by lia).
      unfold ext_at in Ee |- *. apply pair_equal_spec in Ee as [Ee E3]. apply pair_equal_spec in Ee as [E1 E2].
      rewrite (rd_wr_other 4 8), (rd_wr_other 4 2), rd_wr_same by (unfold CARAFS_CNODE_ITEMS_OFF, CN_EXT in *; simpl; lia). by rewrite E1, E3.
    + apply lookup_app_Some in He as [He|[? He]].
      * unfold ext_at. rewrite !rd_wr_other by (pose proof (lookup_lt_Some _ _ _ He); unfold CN_EXT; lia). apply exts_lookup. fold es. by rewrite E, lookup_app_l by (by eapply lookup_lt_Some).
      * apply list_lookup_singleton_Some in He as [? _]. lia.
  - rewrite length_app. simpl. unfold CARAFS_INLINE_EXTENTS. lia.
  - apply Forall_app. split; [done|]. constructor; [|constructor]. unfold plain_run, run_ok. simpl. lia.
  - rewrite runs_len_app, runs_len_cons. unfold runs_len at 2. simpl. lia.
  - intros fblk H0. fold es. rewrite E, !runs_map_app by (by apply plain_ok || lia). cbn [runs_map]. rewrite Z.add_0_l, (proj2 (Z.eqb_neq s 0)) by done.
    destruct (Z.ltb_spec fblk (runs_len a)), (Z.leb_spec fo fblk), (Z.ltb_spec fblk (fo + count)); cbn [andb]; try lia; try done;
      destruct (Z.ltb_spec fblk (runs_len a + (k + count))), (Z.ltb_spec fblk (runs_len a + k)); try lia; try done. do 2 f_equal. lia.
Qed.

(** Writing [mid] over the run [i] of the array, the rest moved up. *)
Lemma place_mid a old b mid c' : es = a ++ old ++ b -> Forall plain_run mid -> (length es - length old + length mid <= CARAFS_INLINE_EXTENTS)%nat ->
  c' = wr 4 (put_exts (memmove c (CN_EXT + 16 * (length a + length mid)) (CN_EXT + 16 * (length a + length old)) (length b * 16)) (length a) mid)
         CN_N_INLINE (Z.of_nat (length (a ++ mid ++ b))) ->
  runs_len (a ++ mid ++ b) < 2 ^ 64 ->
  (forall fblk, 0 <= fblk -> runs_map (a ++ mid ++ b) 0 fblk = if (fo <=? fblk) && (fblk <? fo + count) then Some (start + (fblk - fo), 0) else runs_map es 0 fblk) ->
  placed c fo start count c'.
Proof.
  intros E Hm Hfit Ec' Ht Hmap. destruct (n_inline_range c Hc) as [En H16]. fold es in En, H16. pose proof Hc as [Hb Hl Hn Hr _]. fold es in Hr.
  rewrite E, !length_app in Hfit, H16. rewrite E in Hr. apply Forall_app in Hr as [Hra Hr]. apply Forall_app in Hr as [_ Hrb].
  destruct (ext_move c (length a + length mid) (length a + length old) (length b) 0 Hl ltac:(lia) ltac:(lia)) as [F1 _].
  pose proof (fun j => proj2 (ext_move c (length a + length mid) (length a + length old) (length b) j Hl ltac:(lia) ltac:(lia))) as X1. cbv zeta in X1.
  set (c1 := memmove _ _ _ _) in *. assert (CARAFS_CNODE_ITEMS_OFF <= length c1)%nat as Hl1 by (by rewrite (xf_len _ _ F1)).
  destruct (put_exts_spec mid c1 (length a) 0 Hm ltac:(lia) Hl1) as [F2 _].
  pose proof (fun j => proj2 (put_exts_spec mid c1 (length a) j Hm ltac:(lia) Hl1)) as X2. set (c2 := put_exts c1 _ mid) in *.
  rewrite Ec'. assert (length (a ++ mid ++ b) <= 16)%nat as H16' by (rewrite !length_app; unfold CARAFS_INLINE_EXTENTS in *; lia).
  apply (placed_intro c _ (a ++ mid ++ b)); try done.
  - by apply (frame_trans _ _ _ F1), (frame_trans _ _ _ F2), frame_count.
  - apply n_inline_store; [by rewrite (xf_len _ _ F2)|lia].
  - intros j e He. rewrite ext_count_store, X2. apply lookup_app_Some in He as [He|[Hj He]].
    + pose proof (lookup_lt_Some _ _ _ He). rewrite (proj2 (Nat.leb_gt _ _)) by done. rewrite X1, (proj2 (Nat.leb_gt _ _)) by lia. cbn [andb].
      apply exts_lookup. fold es. by rewrite E, lookup_app_l.
    + rewrite (proj2 (Nat.leb_le _ _)) by done. apply lookup_app_Some in He as [He|[Hj2 He]]; [by rewrite He|].
      pose proof (lookup_lt_Some _ _ _ He). rewrite (lookup_ge_None_2 mid) by done. cbn [default from_option]. rewrite X1.
      rewrite (proj2 (Nat.leb_le _ _)), (proj2 (Nat.ltb_lt _ _)) by lia. cbn [andb]. apply exts_lookup. fold es.
      rewrite E, !lookup_app_r by lia. rewrite <- He. f_equal. lia.
  - by repeat apply Forall_app_2.
Qed.
End Place.

Lemma memmove_0 c x y : memmove c x y 0 = c.
Proof. unfold memmove, splice, sub. rewrite take_0, take_nil, app_nil_l. simpl. by rewrite Nat.add_0_r, take_drop. Qed.

(** The runs that replace a hole: what is left of it before and after. *)
Definition hole_run (k : Z) : list (Z * Z * Z) := if k =? 0 then [] else [(0, k, 0)].
Definition filled (pre start count post : Z) : list (Z * Z * Z) := hole_run pre ++ [(start, count, 0)] ++ hole_run post.
Lemma filled_plain pre start count post : 0 <= pre < 2 ^ 32 -> 0 <= post < 2 ^ 32 -> plain_run (start, count, 0) -> Forall plain_run (filled pre start count post).
Proof.
  intros H1 H2 H3. unfold filled, hole_run. apply Forall_app; split; [|apply Forall_app; split; [by constructor|]];
    destruct (_ =? _); constructor; try constructor; unfold run_ok; simpl; lia.
Qed.
Lemma filled_len pre start count post : runs_len (filled pre start count post) = pre + count + post.
Proof.
  unfold filled, hole_run. rewrite !runs_len_app, runs_len_cons. unfold runs_len. destruct (Z.eqb_spec pre 0), (Z.eqb_spec post 0); simpl; lia.
Qed.
Lemma filled_map a b pre start count post x fblk : Forall run_ok a -> 0 <= pre < 2 ^ 32 -> 0 < count -> 0 <= post < 2 ^ 32 -> run_ok (start, count, 0) -> 0 < start -> 0 <= fblk ->
  runs_map (a ++ filled pre start count post ++ b) 0 fblk =
  if (runs_len a + pre <=? fblk) && (fblk <? runs_len a + pre + count) then Some (start + (fblk - (runs_len a + pre)), 0)
  else runs_map (a ++ (0, pre + count + post, x) :: b) 0 fblk.
Proof.
  intros Ha Hpre Hc Hpost Hrun Hs Hf. assert (run_ok (0, pre, 0)) as Hp by (unfold run_ok; simpl; lia).
  pose proof (runs_map_fill a b pre start count post x 0 fblk Ha ltac:(lia) Hc ltac:(lia) Hs Hf) as E. rewrite Z.add_0_l in E. rewrite <- E.
  unfold filled, hole_run. destruct (Z.eqb_spec pre 0) as [->|], (Z.eqb_spec post 0) as [->|]; cbn [app]; [| | |done].
  - rewrite runs_map_empty by done. rewrite (cons_middle (start, count, 0) a), (cons_middle (start, count, 0) a), !app_assoc.
    rewrite (runs_map_empty (a ++ [(start, count, 0)])) by (done || (apply Forall_app; split; [done|by constructor])). done.
  - by rewrite runs_map_empty.
  - change (a ++ (0, pre, 0) :: (start, count, 0) :: (0, 0, 0) :: b) with (a ++ [(0, pre, 0); (start, count, 0)] ++ (0, 0, 0) :: b).
    rewrite app_assoc, (runs_map_empty (a ++ _)) by (done || (apply Forall_app; split; [done|constructor; [done|by constructor]])). by rewrite <- app_assoc.
Qed.
(** The stores of [inline_insert] are those of [put_exts]. *)
Lemma put_filled c i pre start count post :
  put_exts c i (filled pre start count post) =
    let '(c, w) := if negb (pre =? 0) then (put_ext c i 0 pre, S i) else (c, i) in
    let c := put_ext c w start count in
    if negb (post =? 0) then put_ext c (S w) 0 post else c.
Proof. unfold filled, hole_run. destruct (pre =? 0), (post =? 0); done. Qed.
Lemma filled_count pre start count post :
  Z.of_nat (length (filled pre start count post)) = (if negb (pre =? 0) then 1 else 0) + 1 + (if negb (post =? 0) then 1 else 0).
Proof. unfold filled, hole_run. rewrite !length_app. by destruct (pre =? 0), (post =? 0). Qed.

Section Insert.
Context (c : list Z) (fo start count : Z).
Hypothesis (Hc : inline_ok c) (Hstart : 0 < start) (Hend : start + count < 2 ^ 64) (Hcount : 0 < count < 2 ^ 32) (Hfo : 0 <= fo) (Hfend : fo + count < 2 ^ 64).

(** At or past the mapped end: a hole up to it, then the run. *)
Lemma place_append gap : gap = fo - runs_len (exts c) -> 0 <= gap < 2 ^ 32 ->
  (length (exts c) + length (filled gap start count 0) <= CARAFS_INLINE_EXTENTS)%nat ->
  placed c fo start count (wr 4 (put_exts c (length (exts c)) (filled gap start count 0)) CN_N_INLINE (cn_n_inline c + Z.of_nat (length (filled gap start count 0)))).
Proof.
  intros Eg Hg Hfit. destruct (n_inline_range c Hc) as [En H16]. pose proof (plain_ok _ (io_runs _ Hc)) as Hok.
  pose proof (place_plain start count Hstart Hend Hcount) as Hplain.
  apply (place_mid c fo start count Hc (exts c) [] [] (filled gap start count 0)); rewrite ?app_nil_r; try done.
  - by apply filled_plain.
  - simpl. lia.
  - cbn [length Nat.mul]. by rewrite memmove_0, length_app, En, Nat2Z.inj_add.
  - rewrite runs_len_app, filled_len. lia.
  - intros fblk H0. rewrite <- (app_nil_r (filled _ _ _ _)). rewrite (filled_map _ [] gap start count 0 0 fblk) by (done || apply Hplain || lia).
    rewrite runs_map_hole_end by done. replace (runs_len (exts c) + gap) with fo by lia. done.
Qed.
(** Inside a hole run. *)
Lemma place_fill a k fl b pre post : exts c = a ++ (0, k, fl) :: b -> pre = fo - runs_len a -> 0 <= pre -> post = runs_len a + k - (fo + count) -> 0 <= post ->
  (length (exts c) - 1 + length (filled pre start count post) <= CARAFS_INLINE_EXTENTS)%nat ->
  placed c fo start count
    (wr 4 (put_exts (memmove c (CN_EXT + 16 * (length a + length (filled pre start count post))) (CN_EXT + 16 * (length a + 1)) (length b * 16)) (length a) (filled pre start count post))
       CN_N_INLINE (Z.of_nat (length (exts c) - 1 + length (filled pre start count post)))).
Proof.
  intros E Epre Hpre Epost Hpost Hfit. pose proof (plain_ok _ (io_runs _ Hc)) as Hok. pose proof (place_plain start count Hstart Hend Hcount) as Hplain.
  pose proof (io_total _ Hc) as Ht. rewrite E in Hok, Ht. apply Forall_app in Hok as [Ha Hb]. apply Forall_cons in Hb as [[Hk _] _]. cbn [fst snd] in Hk.
  rewrite runs_len_app, runs_len_cons in Ht.
  apply (place_mid c fo start count Hc a [(0, k, fl)] b (filled pre start count post)); try done.
  - by apply filled_plain; [lia|lia|].
  - do 2 f_equal. rewrite E, !length_app. simpl. lia.
  - rewrite !runs_len_app, filled_len. lia.
  - intros fblk H0. rewrite (filled_map a b pre start count post fl fblk) by (done || apply Hplain || lia).
    rewrite E. replace (runs_len a + pre) with fo by lia. by replace (pre + count + post) with k by lia.
Qed.
End Insert.

(** Recording a run in a cnode. When file block [fo] is a hole of at least [count] blocks, as
    the lookup reports it, storing the run [start ..] there never fails: either the cnode's inline extents then
    map these file blocks to the run and every other file block as before, with no other byte of the
    cnode changed; or the array cannot take the shape (more than 14 runs in use, or a gap of
    [2^32] blocks) and the file is moved to a tree. *)
Theorem inline_place_maps c fo start count :
  inline_ok c -> 0 < start -> start + count < 2 ^ 64 -> 0 < count < 2 ^ 32 -> 0 <= fo -> fo + count < 2 ^ 64 ->
  let x := inline_lookup (Z.to_nat (cn_n_inline c)) c 0 0 fo in fm_phys x = 0 -> count <= fm_run x ->
  match inline_place fo start count c with
  | Ok (Some c') => placed c fo start count c'
  | Ok None => 14 < cn_n_inline c \/ 2 ^ 32 <= fo - runs_len (exts c)
  | Err _ => False
  end.
Proof.
  intros Hc Hs He Hcn Hfo Hfe x Hx Hrun. unfold x in Hx, Hrun. clear x. destruct (n_inline_range c Hc) as [En H16]. pose proof Hc as [Hb Hl Hn Hr Ht].
  pose proof (plain_ok _ Hr) as Hok. pose proof (runs_len_nonneg _ Hok) as Hl0.
  assert (inline_mapped_end c = runs_len (exts c)) as Eend by (unfold inline_mapped_end; rewrite mapped_end_spec by (done || lia); done).
  unfold inline_place. rewrite Eend. unfold CARAFS_INLINE_EXTENTS in *. rewrite En, Nat2Z.id in *.
  destruct (Z.eqb_spec fo (runs_len (exts c))) as [Efo|Hne].
  - destruct (_ && _ && _ && _) eqn:Emerge.
    + rewrite !andb_true_iff, negb_true_iff, Z.ltb_lt, Z.eqb_neq, Z.eqb_eq, Z.leb_le in Emerge. destruct Emerge as (((M1 & M2) & M3) & M4).
      destruct (exts c) as [|e l] eqn:Ees using rev_ind; [done|]. clear IHl. rewrite length_app in *. cbn [length] in *.
      replace (Z.to_nat (Z.of_nat (length l + 1) - 1)) with (length l) in * by lia.
      destruct e as [[s k] fl]. assert (ext_at c (length l) = (s, k, fl)) as Ee by (apply exts_lookup; by rewrite Ees, lookup_app_r, Nat.sub_diag by lia).
      apply Forall_app in Hr as [_ Hr]. apply Forall_cons in Hr as [[[K1 [K2 K3]] Kf] _]. cbn [fst snd] in K1, K2, K3, Kf. subst fl.
      unfold ext_start, ext_count in *. rewrite Ee in *. cbn [fst snd] in *. rewrite u64_small in M3 by (unfold in_u64; lia).
      apply place_merge with (s := s) (a := l); try done; by rewrite Ees.
    + destruct (Z.eqb_spec (Z.of_nat (length (exts c))) (Z.of_nat 16)); [left; lia|].
      pose proof (place_append c fo start count Hc Hs He Hcn Hfe 0 ltac:(lia) ltac:(lia)) as P. unfold CARAFS_INLINE_EXTENTS in P.
      rewrite put_filled, En in P. cbn [Z.eqb negb filled hole_run app length] in P. rewrite u32_small by (unfold in_u32; lia). apply P. lia.
  - destruct (Z.ltb_spec (runs_len (exts c)) fo) as [Hlt|Hge].
    + rewrite (u64_small (fo - _)) by (unfold in_u64; lia). rewrite (u32_small (_ + 2)) by (unfold in_u32; lia).
      destruct (Z.ltb_spec (Z.of_nat 16) (Z.of_nat (length (exts c)) + 2)); cbn [orb]; [left; lia|].
      destruct (Z.ltb_spec 0xFFFFFFFF (fo - runs_len (exts c))); [right; lia|]. rewrite (u32_small (fo - _)) by (unfold in_u32; lia).
      pose proof (place_append c fo start count Hc Hs He Hcn Hfe (fo - runs_len (exts c)) eq_refl ltac:(lia)) as P. unfold CARAFS_INLINE_EXTENTS in P.
      rewrite put_filled, En in P. unfold filled, hole_run in P. rewrite (proj2 (Z.eqb_neq (fo - _) 0)) in P by lia. cbn [Z.eqb negb app length] in P.
      replace (Z.to_nat (Z.of_nat (length (exts c)) + 1)) with (S (length (exts c))) by lia. apply P. lia.
    + assert (fo < 0 + runs_len (exts c)) as Hin by lia. unfold exts in Hin, Hok, Ht. rewrite En, Nat2Z.id in Hin, Hok, Ht.
      destruct (run_at_spec (length (exts c)) c 0 0 fo Hok ltac:(lia) ltac:(lia) Hin) as (a & s & k & fl & b & E & Er & Hbd & Hk & Hrn).
      assert (exts c = a ++ (s, k, fl) :: b) as Ees by (rewrite <- E; unfold exts at 1; by rewrite En, Nat2Z.id).
      assert (run_ok (s, k, fl)) as (_ & K1 & K2) by (rewrite E in Hok; by apply Forall_app in Hok as [_ [? _]%Forall_cons]). cbn [fst snd] in K1, K2.
      destruct (Hrn Hx K1 K2) as [-> Erun]. rewrite Erun in Hrun. clear Hrn Erun.
      assert (ext_at c (length a) = (0, k, fl)) as Ee by (apply exts_lookup; by rewrite Ees, lookup_app_r, Nat.sub_diag by lia).
      rewrite Er, Nat.add_0_l. cbv beta iota zeta. unfold ext_start, ext_count. rewrite Ee. cbn [fst snd]. rewrite Z.add_0_l in *. rewrite Z.eqb_refl. cbn [negb].
      assert (runs_len a + k + runs_len b < 2 ^ 64) as Hab by (rewrite E, runs_len_app, runs_len_cons in Ht; lia).
      assert (0 <= runs_len a /\ 0 <= runs_len b) as [Ha0 Hb0].
      { rewrite E in Hok. apply Forall_app in Hok as [? [_ ?]%Forall_cons]. split; by apply runs_len_nonneg. }
      assert (length (exts c) = length a + 1 + length b)%nat as Elen by (rewrite Ees, length_app; simpl; lia).
      rewrite (proj2 (Z.eqb_neq (Z.of_nat (length a)) _)), !u64_small, (proj2 (Z.ltb_ge _ _)) by (unfold in_u64; lia). cbn [orb].
      rewrite (u32_small (fo - _)), (u32_small (runs_len a + k - _)) by (unfold in_u32; lia).
      set (pre := fo - runs_len a). set (post := runs_len a + k - (fo + count)). rewrite <- (filled_count pre start count post).
      pose proof (filled_count pre start count post) as Efc. assert (Z.of_nat (length (filled pre start count post)) <= 3) as H3 by (rewrite Efc; destruct (pre =? 0), (post =? 0); simpl; lia).
      rewrite u32_small by (unfold in_u32; lia). destruct (Z.ltb_spec (Z.of_nat 16) (Z.of_nat (length (exts c)) - 1 + Z.of_nat (length (filled pre start count post)))); [left; lia|].
      pose proof (place_fill c fo start count Hc Hs He Hcn a k fl b pre post Ees eq_refl ltac:(unfold pre; lia) eq_refl ltac:(unfold post; lia)) as P.
      rewrite put_filled in P. replace (Z.to_nat (Z.of_nat (length (exts c)) - Z.of_nat (length a) - 1)) with (length b) by lia. rewrite Nat2Z.id.
      replace (Z.of_nat (length (exts c)) - 1 + Z.of_nat (length (filled pre start count post))) with (Z.of_nat (length (exts c) - 1 + length (filled pre start count post))) by lia.
      destruct (negb (pre =? 0)); apply P; unfold CARAFS_INLINE_EXTENTS; lia.
Qed.

(** * From runs to records *)

Lemma floor_cons r rs fblk : xr_file_off r <= fblk -> floor_of (r :: rs) fblk = match floor_of rs fblk with Some x => Some x | None => Some r end.
Proof.
  intros H. unfold floor_of. cbn [List.filter]. rewrite (proj2 (Z.leb_le _ _) H). set (l := List.filter _ rs). clearbody l.
  rewrite last_cons. by destruct (last l).
Qed.
Lemma floor_none_of rs fblk : Forall (fun r => fblk < xr_file_off r) rs -> floor_of rs fblk = None.
Proof.
  intros H. unfold floor_of. assert (List.filter (fun r => xr_file_off r <=? fblk) rs = []) as ->; [|done].
  induction H as [|r rs Hr _ IH]; [done|]. cbn [List.filter]. by rewrite (proj2 (Z.leb_gt _ _) Hr).
Qed.
Definition solid_run (e : Z * Z * Z) : Prop := run_ok e /\ (fst (fst e) <> 0 -> 0 < snd (fst e)).

Lemma spill_spec k c i fo : let es := map (ext_at c) (seq i k) in
  Forall solid_run es -> 0 <= fo -> fo + runs_len es < 2 ^ 64 ->
  let rs := spill_recs k c i fo in
  Forall (fun r => fo <= xr_file_off r) rs /\ StronglySorted off_lt rs /\ Forall rec_ok rs /\
  forall fblk, fo <= fblk -> recs_map rs fblk = runs_map es fo fblk.
Proof.
  revert i fo. induction k as [|k IH]; intros i fo es Hok Hfo Hl rs; [by repeat constructor|].
  unfold es, rs in *. rewrite exts_from in *. cbn [spill_recs]. destruct (ext_at c i) as [[s n] fl]. apply Forall_cons in Hok as [[[Hn [Hs1 Hs2]] Hpos] Hok].
  cbn [fst snd] in *. rewrite runs_len_cons in Hl. assert (0 <= runs_len (map (ext_at c) (seq (S i) k))) as Hl0.
  { apply runs_len_nonneg. apply (Forall_impl _ _ _ Hok). by intros e [? _]. }
  rewrite u64_small by (unfold in_u64; lia). destruct (IH (S i) (fo + n) Hok ltac:(lia) ltac:(lia)) as (H1 & H2 & H3 & H4).
  set (rest := spill_recs k c (S i) (fo + n)) in *. set (es' := map (ext_at c) (seq (S i) k)) in *. cbn [runs_map].
  destruct (Z.eqb_spec s 0) as [->|Hne]; cbn [negb app].
  - split_and!; try done; [apply (Forall_impl _ _ _ H1); intros r Hr; lia|]. intros fblk Hf. destruct (Z.ltb_spec fblk (fo + n)); [|by apply H4].
    unfold recs_map. rewrite floor_none_of; [done|]. apply (Forall_impl _ _ _ H1). intros r Hr. lia.
  - specialize (Hpos Hne). split_and!.
    + constructor; [simpl; lia|]. apply (Forall_impl _ _ _ H1). intros r Hr. lia.
    + constructor; [done|]. apply (Forall_impl _ _ _ H1). intros r Hr. unfold off_lt. simpl. lia.
    + constructor; [unfold rec_ok; simpl; lia|done].
    + intros fblk Hf. unfold recs_map. rewrite floor_cons by done. destruct (Z.ltb_spec fblk (fo + n)) as [Hlt|Hge].
      * rewrite floor_none_of by (apply (Forall_impl _ _ _ H1); intros r Hr; lia). cbn [xr_file_off xr_count xr_start xr_flags].
        by rewrite (proj2 (Z.ltb_lt _ _) Hlt).
      * rewrite <- H4 by done. unfold recs_map. destruct (floor_of rest fblk); [done|]. cbn [xr_file_off xr_count]. by rewrite (proj2 (Z.ltb_ge _ _) Hge).
Qed.

(** Moving a file to a tree keeps its block map: the leaf records that [carafs_etree_spill] makes of
    the inline extents are strictly sorted by file offset and map every file block as the runs did,
    holes being absent records. *)
Theorem spill_keeps_map c : Forall solid_run (exts c) -> runs_len (exts c) < 2 ^ 64 ->
  let rs := spill_recs (Z.to_nat (cn_n_inline c)) c 0 0 in
  StronglySorted off_lt rs /\ Forall rec_ok rs /\ forall fblk, 0 <= fblk -> recs_map rs fblk = runs_map (exts c) 0 fblk.
Proof. intros Hok Hl. by destruct (spill_spec (Z.to_nat (cn_n_inline c)) c 0 0 Hok ltac:(lia) Hl) as (_ & ? & ? & ?). Qed.

(** * Writing inline data *)

(** The bytes after a write of [buf] at [off]. *)
Definition written (off : Z) (buf : list Z) (content : Z -> Z) (k : Z) : Z :=
  if (off <=? k) && (k <? off + Z.of_nat (length buf)) then nth (Z.to_nat (k - off)) buf 0 else content k.

Lemma written_payload p off buf new k : 0 <= off -> 0 <= k -> (length p <= new)%nat -> (Z.to_nat off + length buf <= new)%nat ->
  nth (Z.to_nat k) (splice (fit_payload new p) (Z.to_nat off) buf) 0 = written off buf (fun k => nth (Z.to_nat k) p 0) k.
Proof.
  intros Ho Hk Hp Hn. unfold written. pose proof (length_fit new p) as El. rewrite !nth_lookup. destruct (Z.leb_spec off k), (Z.ltb_spec k (off + Z.of_nat (length buf))); cbn [andb];
    try (rewrite lookup_splice_out by lia); [rewrite lookup_splice_in by lia; do 2 f_equal; lia|..];
    (unfold fit_payload, zeros; rewrite take_ge by lia; destruct (decide (Z.to_nat k < length p)%nat);
     [by rewrite lookup_app_l|]; rewrite lookup_app_r by lia; rewrite (lookup_ge_None_2 p) by lia;
     destruct (replicate _ _ !! _) eqn:E; [|done]; apply lookup_replicate in E as [-> _]; done).
Qed.

Lemma inline_write_block bs c its off buf new :
  items_rep bs c its -> let p := default [] (item_get its CARAFS_ITEM_INLINE_DATA) in
  bytes_ok buf -> (length p <= new)%nat -> (off + length buf <= new)%nat -> in_u16 (Z.of_nat new) ->
  match carafs_item_resize (Z.of_nat bs) CARAFS_ITEM_INLINE_DATA (Z.of_nat new) c with
  | Ok (c', at_) => items_rep bs (splice c' (at_ + off) buf) (item_set its CARAFS_ITEM_INLINE_DATA (splice (fit_payload new p) off buf)) /\
      header_kept c (splice c' (at_ + off) buf)
  | Err e => e = CARA_EOVERFLOW
  end.
Proof.
  intros Hrep p Hby Hp Hn H16. pose proof (resize_spec bs c its CARAFS_ITEM_INLINE_DATA new Hrep ltac:(done) H16) as Hs. cbn zeta in Hs. fold p in Hs.
  set (q := fit_payload new p) in *. assert (length q = new) as Elq by apply length_fit.
  destruct (carafs_item_resize _ _ _ _) as [[c' at_]|e]; [|by destruct Hs]. destruct Hs as (R & K & F & Sb & _).
  assert (item_get (item_set its CARAFS_ITEM_INLINE_DATA q) CARAFS_ITEM_INLINE_DATA = Some q) as Eg by (by rewrite items_map_get, items_map_set, lookup_insert_eq).
  pose proof (find_spec bs c' _ CARAFS_ITEM_INLINE_DATA R) as Hf. rewrite Eg in Hf. destruct Hf as (at1 & F1 & _ & [_ Hat] & _). rewrite F in F1. injection F1 as <- _.
  rewrite (splice_sub c' at_ q) by (rewrite ?(ir_len _ _ _ R), ?Elq; done || lia).
  assert (bytes_ok q) as Hq by (unfold q, fit_payload; apply Forall_app; split; [|apply zeros_bytes_ok]; apply Forall_take; unfold p;
    destruct (item_get its _) eqn:E; [|constructor]; apply (item_get_ok _ _ _ (ir_items _ _ _ Hrep) E)).
  destruct (payload_store bs c' _ CARAFS_ITEM_INLINE_DATA q at_ (splice q off buf) R) as (R2 & K2 & _); try done.
  { by rewrite Elq. }
  { by rewrite length_splice. }
  { by apply splice_bytes_ok. }
  rewrite item_set_set in R2. split; [done|]. intros n o H1 H2. by rewrite K2, K.
Qed.

Lemma file_done_frame n now c k off : (off + k <= CN_SIZE_BYTES \/ CN_SIZE_BYTES + 8 <= off)%nat -> (off + k <= CN_MODIFIED_NS \/ CN_CHANGED_NS + 8 <= off)%nat ->
  rd k (file_done n now c) off = rd k c off.
Proof. unfold CN_SIZE_BYTES, CN_MODIFIED_NS, CN_CHANGED_NS. intros H1 H2. unfold file_done, CN_SIZE_BYTES, CN_MODIFIED_NS, CN_CHANGED_NS. by rewrite !rd_wr_other by lia. Qed.
(** Stores to header fields other than [item_bytes] keep the items. *)
Lemma items_rep_header bs c c' its : items_rep bs c its -> length c' = length c -> bytes_ok c' ->
  (forall n off, (CN_ITEM_BYTES <= off)%nat -> rd n c' off = rd n c off) -> items_rep bs c' its.
Proof.
  intros [I1 I2 I3 [R I4] I5 I6 I7] Hl Hb Hrd. split; try done; [congruence| |by unfold item_bytes; rewrite Hrd].
  exists R. rewrite <- I4. change CARAFS_CNODE_ITEMS_OFF with 360%nat in *. apply list_eq. intros i. rewrite !lookup_drop.
  destruct (decide (360 + i < length c)%nat) as [Hi|Hi]; [|rewrite !lookup_ge_None_2 by lia; done].
  assert (forall l : list Z, length l = length c -> l !! (360 + i)%nat = Some (rd 1 l (360 + i))) as Hone.
  { intros l El. destruct (lookup_lt_is_Some_2 l (360 + i)%nat) as [x Hx]; [lia|]. rewrite Hx. f_equal. unfold rd, sub.
    rewrite (drop_S _ _ _ Hx). simpl. lia. }
  rewrite !Hone by done. rewrite Hrd; [done|unfold CN_ITEM_BYTES; lia].
Qed.

Section Write.
Context {D : Type} `{!BlockDev D} `{!BlockDevLaws D}.
Abbreviation mount := (CarafsMount D).
Implicit Types m : mount.

(** Block [b] is a sealed file cnode with the inline data [p]. *)
Record inline_file m (b : Z) (its : items) (p : list Z) : Prop := {
  if_cache : cache_inv m;
  if_pins : pins_light m;
  if_dev : in_dev m b;
  if_crc : block_crc_ok (view m b) (m_block_size m) CN_CRC = true;
  if_no : cn_block_no (view m b) = b;
  if_type : cn_type (view m b) = CARAFS_T_FILE;
  if_unmapped : cn_tree_root (view m b) = 0 /\ cn_n_inline (view m b) = 0;
  if_items : items_rep (m_block_size m) (view m b) its;
  if_data : default [] (item_get its CARAFS_ITEM_INLINE_DATA) = p;
  if_size : cn_size_bytes (view m b) = Z.of_nat (length p)
}.

(** The block that an inline write leaves. *)
Lemma inline_image bs c its p off buf now new c' at_ :
  items_rep bs c its -> default [] (item_get its CARAFS_ITEM_INLINE_DATA) = p -> bytes_ok buf -> in_u64 now ->
  new = Nat.max (length p) (off + length buf) -> Z.of_nat new <= 0xFFFF ->
  carafs_item_resize (Z.of_nat bs) CARAFS_ITEM_INLINE_DATA (Z.of_nat new) c = Ok (c', at_) ->
  let img := seal_cnode bs (file_done (Z.of_nat new) now (splice c' (at_ + off) buf)) in
  items_rep bs img (item_set its CARAFS_ITEM_INLINE_DATA (splice (fit_payload new p) off buf)) /\
  cn_block_no img = cn_block_no c /\ cn_type img = cn_type c /\ cn_tree_root img = cn_tree_root c /\ cn_n_inline img = cn_n_inline c /\
  cn_size_bytes img = Z.of_nat new /\ block_crc_ok img bs CN_CRC = true /\
  length (file_done (Z.of_nat new) now (splice c' (at_ + off) buf)) = bs /\ bytes_ok (file_done (Z.of_nat new) now (splice c' (at_ + off) buf)).
Proof.
  intros Hrep Ep Hby Hnow En Hn E img. pose proof (inline_write_block bs c its off buf new Hrep Hby) as H. cbn zeta in H. rewrite Ep, E in H.
  destruct H as [R K]; [lia|lia|unfold in_u16; lia|]. set (c1 := splice c' (at_ + off) buf) in *. set (c2 := file_done (Z.of_nat new) now c1).
  pose proof (ir_len _ _ _ R) as El. pose proof (ir_bs _ _ _ R) as Hbs. change CARAFS_CNODE_ITEMS_OFF with 360%nat in Hbs.
  assert (length c2 = bs /\ bytes_ok c2) as [El2 Hb2] by (unfold c2, file_done; split; [by rewrite !length_wr|repeat apply wr_bytes_ok; apply (ir_bytes _ _ _ R)]).
  assert (forall k o, (8 <= o)%nat -> (o + k <= 32 \/ 40 <= o)%nat -> (o + k <= 64 \/ 80 <= o)%nat -> rd k img o = rd k c1 o) as Hrd.
  { intros k o H8 H1 H2. unfold img, carafs_put_crc, CN_CRC. rewrite rd_wr_other by lia. unfold c2. apply file_done_frame; unfold CN_SIZE_BYTES, CN_MODIFIED_NS, CN_CHANGED_NS; lia. }
  assert (forall k o, (8 <= o)%nat -> (o + k <= 32 \/ 40 <= o)%nat -> (o + k <= 64 \/ 80 <= o)%nat -> (o + k <= 100 \/ 104 <= o)%nat -> (o + k <= 360)%nat -> rd k img o = rd k c o) as Hrc.
  { intros k o H8 H1 H2 H3 H4. rewrite Hrd by done. by apply K. }
  split_and!.
  - apply (items_rep_header bs c1); [done|unfold img, carafs_put_crc; rewrite length_wr; change (length c2 = length c1); congruence|apply wr_bytes_ok; exact Hb2|].
    intros k o Ho. unfold CN_ITEM_BYTES in Ho. apply Hrd; lia.
  - apply Hrc; unfold CN_BLOCK_NO; lia.
  - apply Hrc; lia.
  - apply Hrc; unfold CN_TREE_ROOT; lia.
  - apply Hrc; unfold CN_N_INLINE; lia.
  - unfold cn_size_bytes, img, carafs_put_crc, CN_CRC, c2, file_done, CN_SIZE_BYTES, CN_MODIFIED_NS, CN_CHANGED_NS.
    rewrite 3!rd_wr_other by lia. apply rd_wr_same; lia.
  - apply block_crc_ok_put_crc; [exact Hb2|symmetry; exact El2|unfold CN_CRC; lia].
  - exact El2.
  - exact Hb2.
Qed.

Lemma light_pins m : pins_light m -> pins_ok m.
Proof. intros H i Hi. specialize (H i Hi). lia. Qed.
(** The inline branch of a write. *)
Lemma inline_write_eq m cn c off buf c' at_ new :
  node m cn = c -> cn_type c = CARAFS_T_FILE -> negb (cn_tree_root c =? 0) || negb (cn_n_inline c =? 0) = false ->
  Z.max (cn_size_bytes c) (u64 (off + Z.of_nat (length buf))) = new -> 0 <= new <= 0xFFFF ->
  carafs_item_resize (Z.of_nat (m_block_size m)) CARAFS_ITEM_INLINE_DATA new c = Ok (c', at_) ->
  file_write cn off buf m = (Ok new, upd_ent cn (fun e => ent_set_data (splice c' (at_ + Z.to_nat off) buf) e) m).
Proof.
  intros Ec Ht Hm Hn H16 Er. unfold file_write. st_simp. rewrite Ec, Ht, Hm, Hn. cbn [Z.eqb Pos.eqb CARAFS_T_FILE].
  rewrite (proj2 (Z.leb_le _ _)), u16_small by (unfold in_u16; lia). rewrite Er. unfold put_node. st_simp. done.
Qed.

End Write.

(** ** A concrete volume: block 1 is a file of 600 bytes, its first block in block 2, then a hole *)

Module FileExample.
Lemma mem_no_notfound : dev_no_notfound (D := CarafsMemBdev).
Proof.
  intros d. split; intros b; simpl; unfold mem_read, mem_write; [intros e|intros data e]; destruct (_ <? _); simpl; by intros [= <-].
Qed.
Definition body : list Z := map (fun k => k mod 251) (seqZ 0 512).
Definition cnode : list Z :=
  seal_cnode 512 (wr 4 (put_ext (put_ext (wr 8 (new_cnode 512 1 7 CARAFS_T_FILE 1000) CN_SIZE_BYTES 600) 0 2 1) 1 0 3) CN_N_INLINE 2).
Definition dev : CarafsMemBdev := {| mb_mem := zeros 512 ++ cnode ++ body ++ zeros 512; mb_block_size := 512; mb_n_blocks := 4 |}.
Definition m0 : CarafsMount CarafsMemBdev :=
  mkMount dev 512 false true (sb_of_bytes (zeros 512)) [] [] 0 0 false [] (sb_of_bytes (zeros 512)) (mkJ 0 0 0 0 0).
Definition vol : CarafsMount CarafsMemBdev := cache_init 2 2 m0.

Lemma file_dev_good : bdev_wf dev.
Proof.
  assert (length (mb_mem dev) = 2048%nat /\ AllocExample.bytes_okb (mb_mem dev) = true) as [H1 H2] by (vm_compute; split; reflexivity).
  split; [exact H1|by apply AllocExample.bytes_okb_ok| |]; simpl; lia.
Qed.
Lemma file_vol_inv : cache_inv vol.
Proof. apply cache_init_inv; try done; [lia|exact file_dev_good]. Qed.
Definition lightb {D} `{!BlockDev D} (m : CarafsMount D) : bool := forallb (fun e => e_pins e <? 2 ^ 32 - 2) (m_ents m).
Lemma lightb_ok {D} `{!BlockDev D} (m : CarafsMount D) : lightb m = true -> pins_light m.
Proof.
  unfold lightb. rewrite forallb_forall. intros H i [Hi Hi2]. unfold n_ents in Hi2. unfold ent. rewrite nth_z_nth, nth_lookup.
  destruct (lookup_lt_is_Some_2 (m_ents m) (Z.to_nat i)) as [e Ee]; [lia|]. rewrite Ee. simpl. apply Z.ltb_lt, H.
  apply list_elem_of_In. by eapply list_elem_of_lookup_2.
Qed.
Lemma file_view : view vol 1 = cnode.
Proof. vm_compute. reflexivity. Qed.
Lemma cnode_crc : block_crc_ok cnode 512 CN_CRC = true.
Proof. vm_compute. reflexivity. Qed.
Lemma cnode_facts : length cnode = 512%nat /\ AllocExample.bytes_okb cnode = true /\ item_bytes cnode = 0 /\ cn_tree_root cnode = 0 /\ exts cnode = [(2, 1, 0); (0, 3, 0)].
Proof. vm_compute. repeat split. Qed.
Lemma cnode_items : items_rep 512 cnode [].
Proof.
  destruct cnode_facts as (H1 & H2 & H3 & _). split; [exact H1|unfold CARAFS_CNODE_ITEMS_OFF; lia|by apply AllocExample.bytes_okb_ok|by eexists|exact H3|constructor|constructor].
Qed.
Lemma cnode_content : file_content 512 (view vol) 4 cnode (file_byte 512 (view vol) (runs_map [(2, 1, 0); (0, 3, 0)] 0)).
Proof.
  destruct cnode_facts as (_ & _ & _ & H4 & H5). apply (content_blocks _ _ _ _ []); [exact cnode_items|reflexivity|]. rewrite <- H5.
  apply map_runs; [exact H4|]. rewrite H5. split; [repeat constructor; simpl; lia|vm_compute; reflexivity].
Qed.
Definition read_vol := snd (Carafs_FileRead 1 508 20 vol).
Lemma read_run_ok : fst (Carafs_FileRead 1 508 20 vol) = Ok ([6; 7; 8; 9] ++ zeros 16).
Proof. vm_compute. reflexivity. Qed.
Lemma read_run_eq : Carafs_FileRead 1 508 20 vol = (Ok ([6; 7; 8; 9] ++ zeros 16), read_vol).
Proof. rewrite <- read_run_ok. apply surjective_pairing. Qed.
Lemma file_read_correct_witness :
  map (file_byte 512 (view vol) (runs_map [(2, 1, 0); (0, 3, 0)] 0)) (seqZ 508 20) = [6; 7; 8; 9] ++ zeros 16.
Proof.
  destruct (file_read_correct vol 1 (file_byte 512 (view vol) (runs_map [(2, 1, 0); (0, 3, 0)] 0)) 508 20 (Ok ([6; 7; 8; 9] ++ zeros 16)) read_vol
    mem_no_notfound file_vol_inv) as [_ H].
  - apply lightb_ok. vm_compute. reflexivity.
  - change (m_block_size vol) with 512%nat. unfold CARAFS_CNODE_ITEMS_OFF. lia.
  - split; [lia|reflexivity].
  - rewrite file_view. exact cnode_crc.
  - rewrite file_view. exact cnode_content.
  - lia.
  - lia.
  - exact read_run_eq.
  - rewrite (H _ eq_refl), file_view. vm_compute. reflexivity.
Defined.

Lemma cnode_inline_ok : inline_ok cnode.
Proof.
  destruct cnode_facts as (H1 & H2 & _ & _ & H5). split; [by apply AllocExample.bytes_okb_ok|rewrite H1; unfold CARAFS_CNODE_ITEMS_OFF; lia|vm_compute; discriminate| |].
  - rewrite H5. repeat constructor; simpl; lia.
  - rewrite H5. vm_compute. reflexivity.
Qed.
Lemma place_run : match inline_place 2 3 1 cnode with Ok (Some c) => exts c = [(2, 1, 0); (0, 1, 0); (3, 1, 0); (0, 1, 0)] | _ => False end.
Proof. vm_compute. reflexivity. Qed.
Lemma inline_place_maps_witness :
  match inline_place 2 3 1 cnode with Ok (Some c') => placed cnode 2 3 1 c' /\ exts c' = [(2, 1, 0); (0, 1, 0); (3, 1, 0); (0, 1, 0)] | _ => False end.
Proof.
  pose proof (inline_place_maps cnode 2 3 1 cnode_inline_ok ltac:(lia) ltac:(lia) ltac:(lia) ltac:(lia) ltac:(lia)) as H. cbv zeta in H.
  specialize (H ltac:(vm_compute; reflexivity) ltac:(vm_compute; discriminate)). pose proof place_run as Hr.
  destruct (inline_place 2 3 1 cnode) as [[c'|]|e]; [|destruct Hr|destruct Hr]. split; [exact H|exact Hr].
Defined.
Lemma spill_keeps_map_witness : recs_map (spill_recs 2 cnode 0 0) 0 = Some (2, 0) /\ recs_map (spill_recs 2 cnode 0 0) 1 = None.
Proof.
  destruct cnode_facts as (_ & _ & _ & _ & H5). destruct (spill_keeps_map cnode) as (_ & _ & H).
  - rewrite H5. repeat constructor; simpl; lia.
  - rewrite H5. vm_compute. reflexivity.
  - change (Z.to_nat (cn_n_inline cnode)) with (Z.to_nat (cn_n_inline cnode)) in H. assert (cn_n_inline cnode = 2) as E2 by (vm_compute; reflexivity). rewrite E2 in H.
    change (Z.to_nat 2) with 2%nat in H. rewrite !H by lia. rewrite H5. split; reflexivity.
Defined.

Definition wrote := snd (file_write_body 1 2 [7; 8] 2000 CnodeExample.vol).
Lemma wrote_run : fst (file_write_body 1 2 [7; 8] 2000 CnodeExample.vol) = Ok tt.
Proof. vm_compute. reflexivity. Qed.
Lemma wrote_eq : file_write_body 1 2 [7; 8] 2000 CnodeExample.vol = (Ok tt, wrote).
Proof. rewrite <- wrote_run. apply surjective_pairing. Qed.
Lemma live_inline : inline_file CnodeExample.vol 1 [] [].
Proof.
  assert (view CnodeExample.vol 1 = CnodeExample.live) as Ev by (vm_compute; reflexivity).
  assert (in_u64 1 /\ in_u64 7 /\ in_u16 CARAFS_T_FILE /\ in_u64 1000) as (H1 & H2 & H3 & H4) by (unfold in_u64, in_u16, CARAFS_T_FILE; lia).
  destruct (new_cnode_sealed 512 1 7 CARAFS_T_FILE 1000) as (_ & _ & _ & _ & Hi); [unfold CARAFS_CNODE_ITEMS_OFF; lia|lia|exact H1|exact H2|exact H3|exact H4|].
  split; rewrite ?Ev.
  - exact CnodeExample.cn_vol_inv.
  - apply lightb_ok. vm_compute. reflexivity.
  - split; [lia|reflexivity].
  - vm_compute. reflexivity.
  - vm_compute. reflexivity.
  - vm_compute. reflexivity.
  - vm_compute. split; reflexivity.
  - exact Hi.
  - reflexivity.
  - vm_compute. reflexivity.
Qed.
Lemma reread_run : fst (Carafs_FileRead 1 0 10 wrote) = Ok [0; 0; 7; 8].
Proof. vm_compute. reflexivity. Qed.
End FileExample.
