(* ===== verification/Xattr.v ===== *)
(** Extended attributes ([src/logaic/carafs/xattr.c]): all attributes of a cnode are packed records in
    one item of its TLV area. The edits of the cnode block are functions on its bytes, the calls wrap
    them in cnode lookup and the operation bracket. *)

From S2P Require Import Prelude Format Volume Cache Journal Wal Alloc Items Btree Mount Cnode.

Definition CARAFS_ITEM_XATTR : Z := 3.
Definition CARAFS_XATTR_NAME_MAX : Z := 255.
Definition CARAFS_XATTR_VALUE_MAX : Z := 65535.

(** * Records *)

(** The two length fields of the record at [off] of a payload. *)
Definition rec_name_len (p : list Z) (off : Z) : Z := nth (Z.to_nat off) p 0.
Definition rec_val_len (p : list Z) (off : Z) : Z :=
  Z.lor (nth (Z.to_nat (off + 2)) p 0) (Z.shiftl (nth (Z.to_nat (off + 3)) p 0) 8).
Definition name_at (p : list Z) (off : Z) (name : list Z) : bool :=
  bool_decide (sub (Z.to_nat (off + 4)) (length name) p = name).

(** The [while] of [xattr_find], its offset and the size of the record found (0 when absent). A
    record is at least 4 bytes, so [plen] rounds are enough; no sum exceeds [2^17]. *)
Fixpoint xattr_walk (fuel : nat) (p name : list Z) (off : Z) : Z * Z :=
  match fuel with
  | O => (Z.of_nat (length p), 0)
  | S fuel =>
      if off + 4 <=? Z.of_nat (length p) then
        let rn := rec_name_len p off in
        let rv := rec_val_len p off in
        let rsize := 4 + rn + rv in
        if Z.of_nat (length p) <? off + rsize then (Z.of_nat (length p), 0)
        else if (rn =? Z.of_nat (length name)) && name_at p off name then (off, rsize)
        else xattr_walk fuel p name (off + rsize)
      else (Z.of_nat (length p), 0)
  end.
Definition xattr_find (p name : list Z) : Z * Z := xattr_walk (S (length p)) p name 0.

Definition new_record (name val : list Z) : list Z :=
  [u8 (Z.of_nat (length name)); 0; u8 (Z.land (Z.of_nat (length val)) 0xFF); u8 (Z.land (Z.shiftr (Z.of_nat (length val)) 8) 0xFF)] ++ name ++ val.

(** * Edits of the cnode block *)

(** The value of an attribute: its length and bytes. *)
Definition xattr_value (name blk : list Z) : option (Z * list Z) :=
  match carafs_item_find blk CARAFS_ITEM_XATTR with
  | None => None
  | Some (at_, plen) =>
      let p := sub at_ (Z.to_nat plen) blk in
      let off := fst (xattr_find p name) in
      if off <? plen then
        let rv := rec_val_len p off in
        Some (rv, sub (Z.to_nat (off + 4 + rec_name_len p off)) (Z.to_nat rv) p)
      else None
  end.

(** The existing record for the name, if any, taken out of the payload in place: the length of the
    records left, and the block. *)
Definition xattr_drop (name blk : list Z) : Z * list Z :=
  match carafs_item_find blk CARAFS_ITEM_XATTR with
  | None => (0, blk)
  | Some (at_, plen) =>
      let '(off, rsize) := xattr_find (sub at_ (Z.to_nat plen) blk) name in
      if off <? plen then
        (plen - rsize, memmove blk (at_ + Z.to_nat off) (at_ + Z.to_nat (off + rsize)) (Z.to_nat (plen - off - rsize)))
      else (plen, blk)
  end.

(** [Carafs_XattrSet] between lookup and dirty. The gap of an old record is closed before the checks,
    so an error leaves an edited block behind. *)
Definition xattr_set_block (bs : Z) (name val blk : list Z) : result unit * list Z :=
  let '(base_len, blk) := xattr_drop name blk in
  let newrec := 4 + Z.of_nat (length name) + Z.of_nat (length val) in
  if CARAFS_XATTR_VALUE_MAX <? base_len + newrec then (Err CARA_EOVERFLOW, blk)
  else match carafs_item_resize bs CARAFS_ITEM_XATTR (u16 (base_len + newrec)) blk with
       | Err e => (Err e, blk)
       | Ok (blk, np) => (Ok tt, splice blk (np + Z.to_nat base_len) (new_record name val))
       end.

Definition xattr_remove_block (bs : Z) (name blk : list Z) : result unit * list Z :=
  match carafs_item_find blk CARAFS_ITEM_XATTR with
  | None => (Err CARA_ENOENT, blk)
  | Some (at_, plen) =>
      let '(off, rsize) := xattr_find (sub at_ (Z.to_nat plen) blk) name in
      if plen <=? off then (Err CARA_ENOENT, blk)
      else
        let blk := memmove blk (at_ + Z.to_nat off) (at_ + Z.to_nat (off + rsize)) (Z.to_nat (plen - off - rsize)) in
        let base_len := plen - rsize in
        if base_len =? 0 then (Ok tt, carafs_item_remove CARAFS_ITEM_XATTR blk)
        else match carafs_item_resize bs CARAFS_ITEM_XATTR (u16 base_len) blk with
             | Err e => (Err e, blk)
             | Ok (blk, _) => (Ok tt, blk)
             end
  end.

(** * The calls *)

Section Xattr.
Context {D : Type} `{!BlockDev D}.
Abbreviation mount := (CarafsMount D).

Definition name_arg_ok (name : list Z) : bool :=
  negb (Z.of_nat (length name) =? 0) && (Z.of_nat (length name) <=? CARAFS_XATTR_NAME_MAX).

(** The value length, and the bytes copied into a buffer of [buflen] bytes. *)
Definition Carafs_XattrGet (cnode : Z) (name : list Z) (buflen : Z) : ST mount (Z * list Z) :=
  m ← st_get;
  assert! m_mounted m && name_arg_ok name else CARA_EINVAL;
  cn ← carafs_cnode_get cnode;
  v ← st_gets (fun m => xattr_value name (node m cn));
  carafs_cnode_put cn;;
  match v with
  | None => st_err CARA_ENOENT
  | Some (rv, val) => mret (rv, take (Z.to_nat (if rv <? buflen then rv else buflen)) val)
  end.

(** An edit of the cnode inside the bracket: on an error the block stays as the edit left it in the
    cache, is released, and the operation aborts. *)
Definition edit_cnode (cnode : Z) (f : list Z -> result unit * list Z) : ST mount unit :=
  cn ← carafs_cnode_get cnode;
  m ← st_get;
  let rc := fst (f (node m cn)) in
  put_node cn (fun blk => snd (f blk));;
  match rc with
  | Err e => carafs_cnode_put cn;; st_err e
  | Ok _ =>
      rc ← st_try (carafs_cnode_dirty cn);
      carafs_cnode_put cn;;
      st_lift rc
  end.
Definition Carafs_XattrSet (cnode : Z) (name val : list Z) : ST mount unit :=
  assert! name_arg_ok name && (Z.of_nat (length val) <=? CARAFS_XATTR_VALUE_MAX) else CARA_EINVAL;
  m ← st_get;
  in_op (edit_cnode cnode (xattr_set_block (Z.of_nat (m_block_size m)) name val)).
Definition Carafs_XattrRemove (cnode : Z) (name : list Z) : ST mount unit :=
  assert! name_arg_ok name else CARA_EINVAL;
  m ← st_get;
  in_op (edit_cnode cnode (xattr_remove_block (Z.of_nat (m_block_size m)) name)).
End Xattr.

(** * Attributes as records *)

Record xrec := mkX { x_name : list Z; x_flags : Z; x_val : list Z }.
Definition enc_rec (r : xrec) : list Z :=
  [Z.of_nat (length (x_name r)); x_flags r; Z.of_nat (length (x_val r)) mod 2 ^ 8; Z.of_nat (length (x_val r)) / 2 ^ 8] ++ x_name r ++ x_val r.
Definition enc_recs (xs : list xrec) : list Z := concat (map enc_rec xs).
Record xrec_ok (r : xrec) : Prop := {
  xo_name : 1 <= Z.of_nat (length (x_name r)) <= CARAFS_XATTR_NAME_MAX;
  xo_val : Z.of_nat (length (x_val r)) <= CARAFS_XATTR_VALUE_MAX;
  xo_flags : in_u8 (x_flags r);
  xo_nbytes : bytes_ok (x_name r);
  xo_vbytes : bytes_ok (x_val r)
}.
(** What they mean: a map from names to values. *)
Definition xattr_map (xs : list xrec) : gmap (list Z) (list Z) := list_to_map (map (fun r => (x_name r, x_val r)) xs).

Lemma length_enc_rec r : length (enc_rec r) = (4 + length (x_name r) + length (x_val r))%nat.
Proof. unfold enc_rec. rewrite !length_app. simpl. lia. Qed.
Lemma enc_recs_app a b : enc_recs (a ++ b) = enc_recs a ++ enc_recs b.
Proof. unfold enc_recs. by rewrite map_app, concat_app. Qed.
Lemma enc_rec_bytes r : xrec_ok r -> bytes_ok (enc_rec r).
Proof.
  intros [H1 H2 H3 H4 H5]. unfold CARAFS_XATTR_NAME_MAX, CARAFS_XATTR_VALUE_MAX in *. unfold enc_rec, bytes_ok. apply Forall_app; split; [|by apply Forall_app].
  rewrite !Forall_cons. unfold in_u8 in *. split_and!; try lia; try done; dmlia.
Qed.
Lemma enc_recs_bytes xs : Forall xrec_ok xs -> bytes_ok (enc_recs xs).
Proof. induction 1; [constructor|]. apply Forall_app; split; [by apply enc_rec_bytes|done]. Qed.

Lemma lor_bytes lo hi : 0 <= lo < 2 ^ 8 -> 0 <= hi -> Z.lor lo (Z.shiftl hi 8) = lo + 2 ^ 8 * hi.
Proof.
  intros Hlo Hhi. pose proof (Z.add_lor_land lo (Z.shiftl hi 8)) as E.
  assert (Z.land lo (Z.shiftl hi 8) = 0) as E0.
  { apply Z.bits_inj'. intros i Hi. rewrite Z.land_spec, Z.bits_0. destruct (Z.lt_ge_cases i 8).
    - rewrite (Z.shiftl_spec_low hi 8 i) by done. apply andb_false_r.
    - by rewrite (bits_above 8 lo i). }
  rewrite E0, Z.add_0_r in E. rewrite E, Z.shiftl_mul_pow2 by lia. lia.
Qed.
Lemma new_record_eq name val : 1 <= Z.of_nat (length name) <= CARAFS_XATTR_NAME_MAX -> Z.of_nat (length val) <= CARAFS_XATTR_VALUE_MAX ->
  new_record name val = enc_rec (mkX name 0 val).
Proof.
  unfold CARAFS_XATTR_NAME_MAX, CARAFS_XATTR_VALUE_MAX, new_record, enc_rec. intros Hn Hv. cbn [x_name x_flags x_val].
  change 0xFF with (Z.ones 8). rewrite !Z.land_ones, Z.shiftr_div_pow2 by lia. unfold u8.
  rewrite (Z.mod_small (Z.of_nat (length name))) by lia. rewrite !Z.mod_mod by lia. rewrite (Z.mod_small (_ / _)) by dmlia. done.
Qed.

(** ** Finding a record *)

Lemma nth_mid {A} (P Q : list A) x i d : i = length P -> nth i (P ++ x :: Q) d = x.
Proof. intros ->. rewrite nth_lookup, lookup_app_r, Nat.sub_diag by lia. done. Qed.

(** The fields of a record in the middle of a payload. *)
Lemma rec_fields P r Q off :
  xrec_ok r -> off = Z.of_nat (length P) -> let p := P ++ enc_rec r ++ Q in
  rec_name_len p off = Z.of_nat (length (x_name r)) /\ rec_val_len p off = Z.of_nat (length (x_val r)) /\
  sub (Z.to_nat (off + 4)) (length (x_name r)) p = x_name r /\
  sub (Z.to_nat (off + 4 + Z.of_nat (length (x_name r)))) (length (x_val r)) p = x_val r.
Proof.
  intros [H1 H2 H3 H4 H5] -> p. unfold CARAFS_XATTR_NAME_MAX, CARAFS_XATTR_VALUE_MAX in *.
  set (h0 := Z.of_nat (length (x_name r))) in *. set (lo := Z.of_nat (length (x_val r)) mod 2 ^ 8). set (hi := Z.of_nat (length (x_val r)) / 2 ^ 8).
  assert (p = P ++ h0 :: x_flags r :: lo :: hi :: (x_name r ++ x_val r ++ Q)) as Ep by (unfold p, enc_rec; simpl; by rewrite <- app_assoc).
  split_and!.
  - unfold rec_name_len. rewrite Ep. apply nth_mid. lia.
  - unfold rec_val_len. rewrite Ep.
    assert (nth (Z.to_nat (Z.of_nat (length P) + 2)) (P ++ h0 :: x_flags r :: lo :: hi :: x_name r ++ x_val r ++ Q) 0 = lo) as ->.
    { change (P ++ h0 :: x_flags r :: lo :: hi :: x_name r ++ x_val r ++ Q) with (P ++ [h0; x_flags r] ++ lo :: hi :: x_name r ++ x_val r ++ Q).
      rewrite app_assoc. apply nth_mid. rewrite length_app. simpl. lia. }
    assert (nth (Z.to_nat (Z.of_nat (length P) + 3)) (P ++ h0 :: x_flags r :: lo :: hi :: x_name r ++ x_val r ++ Q) 0 = hi) as ->.
    { change (P ++ h0 :: x_flags r :: lo :: hi :: x_name r ++ x_val r ++ Q) with (P ++ [h0; x_flags r; lo] ++ hi :: x_name r ++ x_val r ++ Q).
      rewrite app_assoc. apply nth_mid. rewrite length_app. simpl. lia. }
    rewrite lor_bytes by (unfold lo, hi; dmlia). unfold lo, hi. pose proof (Z.div_mod (Z.of_nat (length (x_val r))) (2 ^ 8)). lia.
  - rewrite Ep. change (P ++ h0 :: x_flags r :: lo :: hi :: x_name r ++ x_val r ++ Q) with (P ++ [h0; x_flags r; lo; hi] ++ x_name r ++ x_val r ++ Q).
    rewrite app_assoc. apply sub_at; [rewrite length_app; simpl; lia|done].
  - rewrite Ep. change (P ++ h0 :: x_flags r :: lo :: hi :: x_name r ++ x_val r ++ Q) with (P ++ [h0; x_flags r; lo; hi] ++ x_name r ++ x_val r ++ Q).
    rewrite !app_assoc, <- (app_assoc _ (x_val r)). apply sub_at; [rewrite !length_app; simpl; lia|done].
Qed.

(** Where a name is, if it is there. *)
Inductive rec_at (xs : list xrec) (name : list Z) : list xrec -> option xrec -> list xrec -> Prop :=
| rec_here a r b : xs = a ++ r :: b -> x_name r = name -> name ∉ map x_name a -> rec_at xs name a (Some r) b
| rec_nowhere : name ∉ map x_name xs -> rec_at xs name xs None [].
Lemma rec_at_total xs name : exists a r b, rec_at xs name a r b.
Proof.
  induction xs as [|x xs (a & q & b & IH)]; [exists [], None, []; constructor; set_solver|].
  destruct (decide (x_name x = name)) as [E|Hne]; [exists [], (Some x), xs; by constructor; [| |set_solver]|].
  destruct IH as [a r b E En Ha|Ha].
  - exists (x :: a), (Some r), b. constructor; [by rewrite E|done|set_solver].
  - exists (x :: xs), None, []. constructor. set_solver.
Qed.

Lemma xattr_walk_spec fuel P xs name a r b :
  Forall xrec_ok xs -> (length (enc_recs xs) < fuel)%nat -> rec_at xs name a r b ->
  xattr_walk fuel (P ++ enc_recs xs) name (Z.of_nat (length P)) =
    match r with Some r => (Z.of_nat (length (P ++ enc_recs a)), Z.of_nat (length (enc_rec r))) | None => (Z.of_nat (length (P ++ enc_recs xs)), 0) end.
Proof.
  revert P xs a. induction fuel as [|fuel IH]; intros P xs a Hok Hf Hat; [lia|]. destruct xs as [|x xs].
  { assert (r = None) as -> by (destruct Hat as [a r b E _ _|_]; [by destruct a|done]). cbn [xattr_walk].
    rewrite (proj2 (Z.leb_gt _ _)); [done|]. rewrite length_app. simpl. lia. }
  pose proof (Forall_inv Hok) as Hx. apply Forall_inv_tail in Hok. pose proof (length_enc_rec x) as Elx.
  change (enc_recs (x :: xs)) with (enc_rec x ++ enc_recs xs) in *. rewrite length_app in Hf.
  destruct (rec_fields P x (enc_recs xs) (Z.of_nat (length P)) Hx eq_refl) as (F1 & F2 & F3 & _). set (p := P ++ enc_rec x ++ enc_recs xs) in *.
  assert (length p = length P + length (enc_rec x) + length (enc_recs xs))%nat as Elp by (unfold p; rewrite !length_app; lia).
  cbn [xattr_walk]. rewrite F1, F2. rewrite (proj2 (Z.leb_le _ _)), (proj2 (Z.ltb_ge _ _)) by lia.
  replace (4 + Z.of_nat (length (x_name x)) + Z.of_nat (length (x_val x))) with (Z.of_nat (length (enc_rec x))) by lia.
  destruct (decide (x_name x = name)) as [En|En].
  - rewrite En in F3. unfold name_at. rewrite En, Z.eqb_refl, F3, bool_decide_true by done. cbn [andb].
    destruct Hat as [a r b E Er Ha|Ha]; [|set_solver]. destruct a as [|x' a]; [|injection E as -> _; set_solver].
    injection E as -> _. by rewrite app_nil_r.
  - assert ((Z.of_nat (length (x_name x)) =? Z.of_nat (length name)) && name_at p (Z.of_nat (length P)) name = false) as ->.
    { destruct (Z.eqb_spec (Z.of_nat (length (x_name x))) (Z.of_nat (length name))) as [El|]; [|done]. cbn [andb].
      apply bool_decide_false. intros E. apply En. rewrite <- F3, <- E. f_equal. lia. }
    assert (exists a', rec_at xs name a' r b /\ (forall r', r = Some r' -> a = x :: a')) as (a' & Hat' & Ea).
    { destruct Hat as [a r b E Er Ha|Ha].
      - destruct a as [|x' a]; [by injection E as -> _|]. injection E as <- E. exists a. split; [|by intros ? [= ->]]. by constructor; [| |set_solver].
      - exists xs. split; [|done]. constructor. set_solver. }
    replace (Z.of_nat (length P) + Z.of_nat (length (enc_rec x))) with (Z.of_nat (length (P ++ enc_rec x))) by (rewrite length_app; lia).
    assert (p = (P ++ enc_rec x) ++ enc_recs xs) as -> by (unfold p; by rewrite app_assoc).
    rewrite (IH _ xs a' Hok ltac:(lia) Hat'). destruct r as [r|]; [|done]. rewrite (Ea r eq_refl). cbn [enc_recs map concat].
    change (concat (map enc_rec a')) with (enc_recs a'). by rewrite app_assoc.
Qed.
Lemma xattr_find_spec xs name a r b : Forall xrec_ok xs -> rec_at xs name a r b ->
  xattr_find (enc_recs xs) name =
    match r with Some r => (Z.of_nat (length (enc_recs a)), Z.of_nat (length (enc_rec r))) | None => (Z.of_nat (length (enc_recs xs)), 0) end.
Proof. intros Hok Hat. unfold xattr_find. apply (xattr_walk_spec (S (length (enc_recs xs))) [] xs name a r b); [done|lia|done]. Qed.

(** ** Edits inside a payload *)


(** The gap of a record is closed: the payload starts with the other records. *)
Lemma close_gap bs blk its a r b at_ :
  items_rep bs blk its -> item_get its CARAFS_ITEM_XATTR = Some (enc_recs (a ++ r :: b)) -> Forall xrec_ok (a ++ r :: b) ->
  carafs_item_find blk CARAFS_ITEM_XATTR = Some (at_, Z.of_nat (length (enc_recs (a ++ r :: b)))) ->
  exists q, length q = length (enc_recs (a ++ r :: b)) /\ take (length (enc_recs (a ++ b))) q = enc_recs (a ++ b) /\
    let blk1 := memmove blk (at_ + length (enc_recs a)) (at_ + (length (enc_recs a) + length (enc_rec r))) (length (enc_recs b)) in
    items_rep bs blk1 (item_set its CARAFS_ITEM_XATTR q) /\ header_kept blk blk1.
Proof.
  intros Hrep Hg Hok Hf. assert (enc_recs (a ++ r :: b) = enc_recs a ++ enc_rec r ++ enc_recs b) as Ep by (by rewrite enc_recs_app).
  rewrite Ep in *. rewrite (enc_recs_app a b). by apply (gap_closed bs blk its CARAFS_ITEM_XATTR (enc_recs a) (enc_rec r) (enc_recs b) at_).
Qed.

(** * The attribute map of a cnode block *)

Record xattr_rep (bs : nat) (blk : list Z) (its : items) (xs : list xrec) : Prop := {
  xp_items : items_rep bs blk its;
  xp_recs : item_get its CARAFS_ITEM_XATTR = None /\ xs = [] \/ item_get its CARAFS_ITEM_XATTR = Some (enc_recs xs);
  xp_ok : Forall xrec_ok xs;
  xp_nodup : NoDup (map x_name xs)
}.

Lemma find_recs bs blk its xs : xattr_rep bs blk its xs ->
  match carafs_item_find blk CARAFS_ITEM_XATTR with
  | None => xs = [] /\ item_get its CARAFS_ITEM_XATTR = None
  | Some (at_, plen) => plen = Z.of_nat (length (enc_recs xs)) /\ sub at_ (Z.to_nat plen) blk = enc_recs xs /\
      item_get its CARAFS_ITEM_XATTR = Some (enc_recs xs) /\ (at_ + length (enc_recs xs) <= bs)%nat
  end.
Proof.
  intros [Hrep Hr _ _]. pose proof (find_spec bs blk its CARAFS_ITEM_XATTR Hrep) as Hf. destruct Hr as [[E Ex]|E]; rewrite E in Hf.
  - rewrite Hf. done.
  - destruct Hf as (at_ & -> & F2 & [F3 F4] & _). rewrite Nat2Z.id. done.
Qed.

Lemma xattr_map_some xs n v : NoDup (map x_name xs) -> xattr_map xs !! n = Some v <-> exists r, r ∈ xs /\ x_name r = n /\ x_val r = v.
Proof.
  intros Hn. unfold xattr_map. rewrite <- elem_of_list_to_map by (by rewrite <- list_fmap_compose). rewrite list_elem_of_fmap. split.
  - intros (r & [= -> ->] & Hr). by exists r.
  - intros (r & Hr & <- & <-). by exists r.
Qed.
Section RecAt.
Context (xs a b : list xrec) (r : option xrec) (name : list Z).
Hypothesis (Hat : rec_at xs name a r b) (Hn : NoDup (map x_name xs)).

Lemma rec_at_elem x : x ∈ a ++ b <-> x ∈ xs /\ x_name x <> name.
Proof.
  destruct Hat as [a r b E Er Ha|Ha].
  - rewrite E in *. rewrite map_app, NoDup_app in Hn. simpl in Hn. destruct Hn as (N1 & N2 & N3). apply NoDup_cons in N3 as [N3 _].
    assert (forall y l, y ∈ l -> x_name y ∈ map x_name l) as Hin by (intros y l Hy; apply list_elem_of_fmap; by exists y).
    split; [intros [H|H]%elem_of_app|intros [[H|[->|H]%elem_of_cons]%elem_of_app Hne]; rewrite elem_of_app; tauto].
    + split; [set_solver|]. intros Ex. apply Ha. rewrite <- Ex. by apply Hin.
    + split; [set_solver|]. intros Ex. apply N3. rewrite Er, <- Ex. by apply Hin.
  - rewrite app_nil_r. split; [|tauto]. intros Hx. split; [done|]. intros Ex. apply Ha. rewrite <- Ex. apply list_elem_of_fmap. by exists x.
Qed.
Lemma rec_at_nodup : NoDup (map x_name (a ++ b)) /\ name ∉ map x_name (a ++ b).
Proof.
  split.
  - destruct Hat as [a r b E Er Ha|Ha]; [|by rewrite app_nil_r]. rewrite E in Hn. rewrite map_app in *. simpl in Hn. apply NoDup_app in Hn as (N1 & N2 & N3).
    apply NoDup_cons in N3 as [N3 N4]. apply NoDup_app. split_and!; [done|set_solver|done].
  - intros (x & Ex & Hx)%list_elem_of_fmap. apply rec_at_elem in Hx as [_ Hx]. by rewrite Ex in Hx.
Qed.
Lemma rec_at_lookup : xattr_map xs !! name = x_val <$> r.
Proof.
  destruct r as [r0|] eqn:Er0.
  - apply xattr_map_some; [done|]. exists r0. inversion Hat; subst. split; [set_solver|done].
  - apply eq_None_not_Some. intros [v (x & Hx & Ex & _)%xattr_map_some]; [|done]. inversion Hat as [|Ha]; subst. apply Ha, list_elem_of_fmap. by exists x.
Qed.
Lemma rec_at_delete : xattr_map (a ++ b) = delete name (xattr_map xs).
Proof.
  apply map_eq. intros n. apply option_eq. intros v. destruct rec_at_nodup as [Nab _]. rewrite lookup_delete_Some, !xattr_map_some by done.
  setoid_rewrite rec_at_elem. naive_solver.
Qed.
Lemma rec_at_insert val : NoDup (map x_name (a ++ b ++ [mkX name 0 val])) /\ xattr_map (a ++ b ++ [mkX name 0 val]) = <[name := val]> (xattr_map xs).
Proof.
  destruct rec_at_nodup as [Nab Nn]. assert (NoDup (map x_name (a ++ b ++ [mkX name 0 val]))) as Nx.
  { rewrite app_assoc, map_app. apply NoDup_app. simpl. split_and!; [done|set_solver|apply NoDup_singleton]. }
  split; [done|]. apply map_eq. intros n. apply option_eq. intros v. rewrite lookup_insert_Some, !xattr_map_some by done.
  rewrite app_assoc. setoid_rewrite elem_of_app. setoid_rewrite rec_at_elem. setoid_rewrite list_elem_of_singleton. split.
  - intros (x & [[Hx Hne]| ->] & <- & <-); [right; split; [congruence|by exists x]|by left].
  - intros [[<- <-]|(Hne & x & Hx & <- & <-)]; [exists (mkX name 0 val); auto|exists x; auto].
Qed.
End RecAt.
Arguments rec_at_elem {_ _ _ _ _}. Arguments rec_at_nodup {_ _ _ _ _}. Arguments rec_at_lookup {_ _ _ _ _}.
Arguments rec_at_delete {_ _ _ _ _}. Arguments rec_at_insert {_ _ _ _ _}.

Lemma rec_at_ok xs name a r b : rec_at xs name a r b -> Forall xrec_ok xs -> Forall xrec_ok (a ++ b) /\ match r with Some r => xrec_ok r | None => True end.
Proof.
  intros Hat Hok. destruct Hat as [a r b -> _ _|_]; [|by rewrite app_nil_r]. apply Forall_app in Hok as [H1 H2]. apply Forall_cons in H2 as [H2 H3].
  split; [by apply Forall_app|done].
Qed.
Lemma rec_at_size xs name a r b : rec_at xs name a r b ->
  length (enc_recs xs) = (length (enc_recs (a ++ b)) + match r with Some r => length (enc_rec r) | None => 0 end)%nat.
Proof.
  intros Hat. destruct Hat as [a r b -> _ _|_]; [|rewrite app_nil_r; lia]. rewrite !enc_recs_app. change (enc_recs (r :: b)) with (enc_rec r ++ enc_recs b).
  rewrite !length_app. lia.
Qed.

Lemma drop_spec bs blk its xs name a r b :
  xattr_rep bs blk its xs -> rec_at xs name a r b ->
  exists blk1 its1 q, xattr_drop name blk = (Z.of_nat (length (enc_recs (a ++ b))), blk1) /\ items_rep bs blk1 its1 /\ header_kept blk blk1 /\
    default [] (item_get its1 CARAFS_ITEM_XATTR) = q /\ take (length (enc_recs (a ++ b))) q = enc_recs (a ++ b) /\
    forall p, item_set its1 CARAFS_ITEM_XATTR p = item_set its CARAFS_ITEM_XATTR p.
Proof.
  intros Hx Hat. pose proof (find_recs bs blk its xs Hx) as Hf. destruct Hx as [Hrep _ Hok Hn]. unfold xattr_drop.
  destruct (carafs_item_find blk CARAFS_ITEM_XATTR) as [[at_ plen]|] eqn:Ef.
  2:{ destruct Hf as [-> Eg]. assert (a = [] /\ b = []) as [-> ->] by (destruct Hat as [a r b E _ _|_]; [by destruct a|done]).
      exists blk, its, []. rewrite Eg. by split_and!. }
  destruct Hf as (-> & F2 & F3 & F4). rewrite F2, (xattr_find_spec xs name a r b Hok Hat).
  pose proof (rec_at_size _ _ _ _ _ Hat) as Es. destruct r as [r|]; cbv beta iota in Es |- *.
  - assert (xs = a ++ r :: b) as -> by (by inversion Hat). pose proof (length_enc_rec r) as Er.
    destruct (close_gap bs blk its a r b at_ Hrep F3 Hok Ef) as (q & Q1 & Q2 & Q3 & Q4).
    pose proof (length_app (enc_recs a) (enc_recs b)) as Eab. rewrite <- enc_recs_app in Eab.
    rewrite (proj2 (Z.ltb_lt _ _)) by lia. eexists _, _, q. split_and!; [|exact Q3|exact Q4| |exact Q2|intros; apply item_set_set].
    + f_equal; [lia|]. f_equal; lia.
    + rewrite items_map_get, items_map_set, lookup_insert_eq. done.
  - rewrite Z.ltb_irrefl. exists blk, its, (enc_recs xs). assert (a = xs /\ b = []) as [-> ->] by (by inversion Hat). rewrite app_nil_r, F3. split_and!; try done.
    simpl. apply take_ge. lia.
Qed.

(** ** Setting *)

Lemma take_prefix {A} (E q : list A) n : take (length E) q = E -> (length E <= n)%nat -> take (length E) (take n q) = E.
Proof. intros H Hn. by rewrite take_take, Nat.min_l. Qed.
Lemma fit_prefix E q n : take (length E) q = E -> (length E <= n)%nat -> take (length E) (fit_payload n q) = E.
Proof.
  intros H Hn. assert (length E <= length q)%nat as Hq by (rewrite <- H, length_take; lia). unfold fit_payload.
  rewrite take_app_le by (rewrite length_take; lia). by apply take_prefix.
Qed.

Lemma set_spec bs blk its xs name val :
  xattr_rep bs blk its xs -> xrec_ok (mkX name 0 val) ->
  exists xs', xattr_map xs' = <[name := val]> (xattr_map xs) /\
    let its' := item_set its CARAFS_ITEM_XATTR (enc_recs xs') in
    match xattr_set_block (Z.of_nat bs) name val blk with
    | (Ok _, blk') => xattr_rep bs blk' its' xs' /\ header_kept blk blk'
    | (Err e, _) => e = CARA_EOVERFLOW /\ (CARAFS_XATTR_VALUE_MAX < Z.of_nat (length (enc_recs xs')) \/ (bs < CARAFS_CNODE_ITEMS_OFF + items_size its')%nat)
    end.
Proof.
  intros Hx Hr. destruct (rec_at_total xs name) as (a & r & b & Hat). pose proof Hx as [Hrep _ Hok Hn].
  destruct (drop_spec bs blk its xs name a r b Hx Hat) as (blk1 & its1 & q & Ed & R1 & K1 & Eq & Hq & Hset).
  destruct (rec_at_insert Hat Hn val) as [Nx Em]. destruct (rec_at_ok _ _ _ _ _ Hat Hok) as [Hab _].
  exists (a ++ b ++ [mkX name 0 val]). split; [exact Em|]. cbn zeta. unfold xattr_set_block. rewrite Ed. cbv beta iota zeta.
  set (E := enc_recs (a ++ b)) in *. set (N := enc_rec (mkX name 0 val)).
  assert (enc_recs (a ++ b ++ [mkX name 0 val]) = E ++ N) as ->.
  { rewrite app_assoc, enc_recs_app. unfold N, E, enc_recs at 2. simpl. by rewrite app_nil_r. }
  pose proof (length_enc_rec (mkX name 0 val)) as EN. fold N in EN. cbn [x_name x_val] in EN. pose proof Hr as [Hr1 Hr2 _ _ _]. cbn [x_name x_val] in Hr1, Hr2.
  assert (Z.of_nat (length E) + (4 + Z.of_nat (length name) + Z.of_nat (length val)) = Z.of_nat (length (E ++ N))) as Et by (rewrite length_app; lia).
  assert (bytes_ok (E ++ N)) as Hby by (apply Forall_app; split; [by apply enc_recs_bytes|by apply enc_rec_bytes]).
  rewrite Et. destruct (Z.ltb_spec CARAFS_XATTR_VALUE_MAX (Z.of_nat (length (E ++ N)))) as [Hlt|Hle]; [by split; [|left]|].
  assert (in_u16 (Z.of_nat (length (E ++ N)))) as H16 by (unfold CARAFS_XATTR_VALUE_MAX in Hle; unfold in_u16; lia).
  unfold u16. rewrite Z.mod_small by (unfold in_u16 in H16; lia).
  pose proof (resize_spec bs blk1 its1 CARAFS_ITEM_XATTR (length (E ++ N)) R1 ltac:(done) H16) as Hs. cbn zeta in Hs. rewrite Eq in Hs.
  set (p := fit_payload (length (E ++ N)) q) in *. assert (length p = length (E ++ N)) as Elp by apply length_fit.
  destruct (carafs_item_resize _ _ _ _) as [[blk2 np]|e].
  2:{ destruct Hs as [-> Hs]. split; [done|]. right. by rewrite Hset, (items_size_set its _ p (E ++ N)) in Hs. }
  destruct Hs as (R2 & K2 & F2 & Es & _). rewrite (new_record_eq name val) by done. fold N. rewrite Nat2Z.id.
  pose proof (ir_len _ _ _ R2) as El2. assert (np + length p <= length blk2)%nat as Hnp.
  { pose proof (find_spec bs blk2 _ CARAFS_ITEM_XATTR R2) as Hf. rewrite items_map_get, items_map_set, lookup_insert_eq in Hf.
    destruct Hf as (at_ & F & _ & [_ ?] & _). rewrite F2 in F. injection F as -> _. lia. }
  rewrite (splice_sub blk2 np p) by (rewrite ?Elp; try done; rewrite length_app; lia).
  assert (splice p (length E) N = E ++ N) as -> by (apply splice_end; [apply fit_prefix; [done|rewrite length_app; lia]|by rewrite Elp, length_app]).
  destruct (payload_store bs blk2 _ CARAFS_ITEM_XATTR p np (E ++ N) R2) as (R3 & K3 & _); try done.
  { by rewrite items_map_get, items_map_set, lookup_insert_eq. }
  { by rewrite Elp. }
  rewrite item_set_set, Hset in R3. split; [|intros n off H1 H2; by rewrite K3, K2, K1].
  assert (E ++ N = enc_recs (a ++ b ++ [mkX name 0 val])) as EE.
  { rewrite app_assoc, enc_recs_app. unfold N, E, enc_recs at 3. simpl. by rewrite app_nil_r. }
  split; [done| |by rewrite app_assoc; apply Forall_app; split; [|constructor]|done].
  right. rewrite items_map_get, items_map_set, lookup_insert_eq. by rewrite EE.
Qed.

(** ** Removing *)

Lemma remove_block_drop bs name blk at_ plen off rsize :
  carafs_item_find blk CARAFS_ITEM_XATTR = Some (at_, plen) -> xattr_find (sub at_ (Z.to_nat plen) blk) name = (off, rsize) -> off < plen ->
  xattr_remove_block bs name blk =
    let '(base_len, blk1) := xattr_drop name blk in
    if base_len =? 0 then (Ok tt, carafs_item_remove CARAFS_ITEM_XATTR blk1)
    else match carafs_item_resize bs CARAFS_ITEM_XATTR (u16 base_len) blk1 with
         | Err e => (Err e, blk1)
         | Ok (blk2, _) => (Ok tt, blk2)
         end.
Proof.
  intros Ef Ex Hlt. unfold xattr_remove_block, xattr_drop. rewrite Ef, Ex.
  rewrite (proj2 (Z.leb_gt _ _)), (proj2 (Z.ltb_lt _ _)) by lia. done.
Qed.


(** Every other item of the cnode is left alone. *)
Definition others_kept (its its' : items) : Prop := delete CARAFS_ITEM_XATTR (items_map its') = delete CARAFS_ITEM_XATTR (items_map its).
Lemma set_others its p : others_kept its (item_set its CARAFS_ITEM_XATTR p).
Proof. unfold others_kept. by rewrite items_map_set, delete_insert_eq. Qed.

Lemma remove_block_spec bs blk its xs name :
  xattr_rep bs blk its xs ->
  match xattr_map xs !! name with
  | None => xattr_remove_block (Z.of_nat bs) name blk = (Err CARA_ENOENT, blk)
  | Some _ => exists blk' its' xs', xattr_remove_block (Z.of_nat bs) name blk = (Ok tt, blk') /\ xattr_rep bs blk' its' xs' /\
      xattr_map xs' = delete name (xattr_map xs) /\ others_kept its its' /\ header_kept blk blk'
  end.
Proof.
  intros Hx. destruct (rec_at_total xs name) as (a & r & b & Hat). pose proof Hx as [Hrep _ Hok Hn]. rewrite (rec_at_lookup Hat Hn).
  pose proof (find_recs bs blk its xs Hx) as Hf. pose proof (xattr_find_spec xs name a r b Hok Hat) as Hfind.
  destruct r as [r|]; simpl.
  2:{ unfold xattr_remove_block. destruct (carafs_item_find blk CARAFS_ITEM_XATTR) as [[at_ plen]|]; [|done].
      destruct Hf as (-> & -> & _). by rewrite Hfind, (proj2 (Z.leb_le _ _)). }
  assert (xs = a ++ r :: b) as Exs by (by inversion Hat). pose proof (rec_at_size _ _ _ _ _ Hat) as Es. cbv beta iota in Es. pose proof (length_enc_rec r) as Er.
  destruct (carafs_item_find blk CARAFS_ITEM_XATTR) as [[at_ plen]|] eqn:Ef; [|destruct Hf as [-> _]; by destruct a].
  destruct Hf as (-> & F2 & F3 & F4). rewrite (remove_block_drop _ _ _ at_ _ _ _ Ef ltac:(by rewrite F2, Hfind)) by (rewrite Es, enc_recs_app, length_app; lia).
  destruct (drop_spec bs blk its xs name a (Some r) b Hx Hat) as (blk1 & its1 & q & Ed & R1 & K1 & Eq & Hq & Hset). rewrite Ed.
  destruct (rec_at_ok _ _ _ _ _ Hat Hok) as [Hab _]. destruct (rec_at_nodup Hat Hn) as [Nab _]. pose proof (rec_at_delete Hat Hn) as Em.
  set (E := enc_recs (a ++ b)) in *. destruct (Z.eqb_spec (Z.of_nat (length E)) 0) as [E0|E0].
  - destruct (remove_spec bs blk1 its1 CARAFS_ITEM_XATTR R1) as [R2 K2]. exists (carafs_item_remove CARAFS_ITEM_XATTR blk1), (item_del its1 CARAFS_ITEM_XATTR), (a ++ b).
    pose proof (items_map_del its1 CARAFS_ITEM_XATTR (ir_nodup _ _ _ R1)) as Emd. split_and!; [done| |done| |intros n off H1 H2; by rewrite K2, K1].
    + split; [done| |done|done]. left. split; [by rewrite items_map_get, Emd, lookup_delete_eq|].
      destruct (a ++ b) as [|x l]; [done|]. change E with (enc_rec x ++ enc_recs l) in E0. rewrite length_app, length_enc_rec in E0. lia.
    + unfold others_kept. rewrite Emd, delete_delete_eq. rewrite <- (set_others its1 []), <- (set_others its []). by rewrite Hset.
  - assert (item_get its1 CARAFS_ITEM_XATTR = Some q) as Eg.
    { destruct (item_get its1 CARAFS_ITEM_XATTR) as [q'|]; simpl in Eq; [by rewrite Eq|]. rewrite <- Eq, take_nil in Hq. by rewrite <- Hq in E0. }
    destruct (item_cut bs blk1 its1 CARAFS_ITEM_XATTR q E R1 ltac:(done) Eg Hq) as (blk2 & np & -> & R2 & K2). rewrite Hset in R2.
    exists blk2, (item_set its CARAFS_ITEM_XATTR E), (a ++ b). split_and!; [done| |done|apply set_others|intros n off H1 H2; by rewrite K2, K1].
    split; [done| |done|done]. right. by rewrite items_map_get, items_map_set, lookup_insert_eq.
Qed.

Lemma value_spec bs blk its xs name : xattr_rep bs blk its xs ->
  xattr_value name blk = (fun v => (Z.of_nat (length v), v)) <$> xattr_map xs !! name.
Proof.
  intros Hx. destruct (rec_at_total xs name) as (a & r & b & Hat). pose proof Hx as [_ _ Hok Hn]. rewrite (rec_at_lookup Hat Hn).
  pose proof (find_recs bs blk its xs Hx) as Hf. pose proof (xattr_find_spec xs name a r b Hok Hat) as Hfind. unfold xattr_value.
  destruct (carafs_item_find blk CARAFS_ITEM_XATTR) as [[at_ plen]|]; [|destruct Hf as [-> _]; inversion Hat; [by destruct a|done]].
  destruct Hf as (-> & -> & _). rewrite Hfind. destruct r as [r|]; cbn [fst]; [|by rewrite Z.ltb_irrefl].
  destruct (rec_at_ok _ _ _ _ _ Hat Hok) as [_ Hr]. cbv beta iota in Hr. pose proof (rec_at_size _ _ _ _ _ Hat) as Es. cbv beta iota in Es. pose proof (length_enc_rec r) as Er.
  rewrite (proj2 (Z.ltb_lt _ _)) by (rewrite Es, enc_recs_app, length_app; lia).
  assert (xs = a ++ r :: b) as -> by (by inversion Hat). rewrite enc_recs_app.
  destruct (rec_fields (enc_recs a) r (enc_recs b) _ Hr eq_refl) as (F1 & F2 & _ & F4). change (enc_recs (r :: b)) with (enc_rec r ++ enc_recs b).
  by rewrite F1, F2, Nat2Z.id, F4.
Qed.

(** * The calls on a mounted volume *)

(** Sealing touches a header field only. *)
Lemma xattr_rep_seal bs blk its xs : xattr_rep bs blk its xs -> xattr_rep bs (seal_cnode bs blk) its xs.
Proof.
  intros [[I1 I2 I3 [R I4] I5 I6 I7] H2 H3 H4]. split; [|done|done|done]. unfold carafs_put_crc.
  set (c := Carafs_BlockCrc _ _ _). clearbody c. change CARAFS_CNODE_ITEMS_OFF with 360%nat in *. split; [by rewrite length_wr|done|by apply wr_bytes_ok| | |done|done].
  - exists R. rewrite <- I4. unfold wr, CN_CRC. rewrite splice_eq by (rewrite length_le_put; lia). rewrite length_le_put.
    rewrite app_assoc. set (A := take 4 blk ++ le_put 4 c).
    assert (length A = 8%nat) as EA by (unfold A; rewrite length_app, length_take, length_le_put; lia).
    rewrite (skipn_app 360), drop_ge by lia. rewrite EA, drop_drop. done.
  - rewrite <- I5. unfold item_bytes, CN_ITEM_BYTES, CN_CRC. by rewrite rd_wr_other by lia.
Qed.

Section Spec.
Context {D : Type} `{!BlockDev D} `{!BlockDevLaws D}.
Abbreviation mount := (CarafsMount D).
Implicit Types m : mount.

(** An edit of a cnode that succeeds: the sealed result is the block, no other block changed. *)
Lemma edit_cnode_spec m b f m' :
  cache_inv m -> pins_ok m -> in_dev m b -> block_crc_ok (view m b) (m_block_size m) CN_CRC = true ->
  (fst (f (view m b)) = Ok tt -> length (snd (f (view m b))) = m_block_size m /\ bytes_ok (snd (f (view m b))) /\
     cn_block_no (seal_cnode (m_block_size m) (snd (f (view m b)))) = b) ->
  edit_cnode b f m = (Ok tt, m') ->
  fst (f (view m b)) = Ok tt /\ cn_link_count (view m b) <> 0 /\
  shows (fun b' => if b' =? b then seal_cnode (m_block_size m) (snd (f (view m b))) else view m b') m m'.
Proof.
  intros Hc Hp Hb Hcrc Hok E. unfold edit_cnode in E. rewrite st_bind_eq in E.
  destruct (carafs_cnode_get b m) as [rg m1] eqn:Eg. pose proof (cnode_get_spec m b rg m1 Hc Hp Hb Hcrc Eg) as Hs.
  destruct rg as [cn|e]; [|done]. destruct Hs as (fresh & Hg & En & _ & Ebn & Hlc). st_simp_in E. rewrite En in E.
  destruct (fst (f (view m b))) as [[]|e].
  2:{ rewrite st_bind_eq in E. unfold put_node, st_mod at 1 in E. cbv beta iota in E. rewrite st_bind_eq in E. unfold carafs_cnode_put, st_mod, st_err in E. done. }
  destruct (Hok eq_refl) as (Hl & Hby & Hno). split; [done|]. split; [done|].
  by apply (cnode_store_spec m b cn fresh m1 (fun blk => snd (f blk)) (Ok tt) m').
Qed.

(** A mounted volume whose block [b] is a sealed live cnode with the attributes [xs]. *)
Record xattr_vol m (b : Z) (its : items) (xs : list xrec) : Prop := {
  xv_cache : cache_inv m;
  xv_pins : pins_ok m;
  xv_dev : in_dev m b;
  xv_crc : block_crc_ok (view m b) (m_block_size m) CN_CRC = true;
  xv_no : cn_block_no (view m b) = b;
  xv_rep : xattr_rep (m_block_size m) (view m b) its xs
}.

Lemma xattr_get_spec m b its xs name buflen r m' :
  xattr_vol m b its xs -> Carafs_XattrGet b name buflen m = (r, m') ->
  shows (view m) m m' /\
  (forall x, r = Ok x -> exists v, xattr_map xs !! name = Some v /\ x = (Z.of_nat (length v), take (Z.to_nat (Z.min (Z.of_nat (length v)) buflen)) v)) /\
  (r = Err CARA_ENOENT -> dev_reliable (D := D) -> has_room m -> cn_magic (view m b) = CARAFS_MAGIC_CNODE -> cn_link_count (view m b) <> 0 -> xattr_map xs !! name = None).
Proof.
  intros [Hc Hp Hb Hcrc Hno Hx] E. unfold Carafs_XattrGet in E. st_simp_in E.
  destruct (m_mounted m && name_arg_ok name); [|unfold st_err in E; injection E as <- <-; by split_and!; [split|..]].
  rewrite st_bind_eq in E. destruct (carafs_cnode_get b m) as [rg m1] eqn:Eg. pose proof (cnode_get_spec m b rg m1 Hc Hp Hb Hcrc Eg) as Hs.
  destruct rg as [cn|e].
  - destruct Hs as (fresh & Hg & En & _ & Ebn & _). st_simp_in E. destruct (cnode_put_spec m b cn fresh m1 Hc Hb Hg En Ebn) as (m2 & Ep & Hsh).
    rewrite st_bind_eq, Ep in E. rewrite En, (value_spec _ _ _ _ name Hx) in E. destruct (xattr_map xs !! name) as [v|]; simpl in E.
    + unfold mret, st_ret in E. injection E as <- <-. split_and!; [done| |done]. intros x [= <-]. exists v. split; [done|]. f_equal. f_equal. f_equal.
      destruct (Z.ltb_spec (Z.of_nat (length v)) buflen); lia.
    + unfold st_err in E. injection E as <- <-. by split_and!.
  - injection E as <- <-. destruct Hs as [Hsh Hwhy]. split_and!; [done|done|]. intros [= ->] Hrel Hroom Hm Hlc. specialize (Hwhy Hrel Hroom).
    rewrite Hm, Hno, !Z.eqb_refl in Hwhy. cbn [andb] in Hwhy. by destruct Hwhy.
Qed.

(** What an edit of the attributes that succeeds leaves. *)
Lemma edit_vol m b its xs f its' xs' m' :
  xattr_vol m b its xs -> edit_cnode b f m = (Ok tt, m') ->
  (fst (f (view m b)) = Ok tt -> xattr_rep (m_block_size m) (snd (f (view m b))) its' xs' /\ header_kept (view m b) (snd (f (view m b)))) ->
  xattr_vol m' b its' xs' /\ stat_of b (view m' b) = stat_of b (view m b) /\
  (forall b', in_dev m b' -> b' <> b -> view m' b' = view m b').
Proof.
  intros [Hc Hp Hb Hcrc Hno Hx] E Hf. set (c := snd (f (view m b))) in *.
  assert (forall n off, header_kept (view m b) c -> (8 <= off)%nat -> (off + n <= 100 \/ 104 <= off)%nat -> (off + n <= 360)%nat ->
    rd n (seal_cnode (m_block_size m) c) off = rd n (view m b) off) as Hrd.
  { intros n off Hhk H8 H1 H2. unfold carafs_put_crc, CN_CRC. rewrite rd_wr_other by lia. by apply Hhk. }
  assert (fst (f (view m b)) = Ok tt -> length c = m_block_size m /\ bytes_ok c /\ cn_block_no (seal_cnode (m_block_size m) c) = b) as Hok.
  { intros Ef. destruct (Hf Ef) as [[Hr _ _ _] Hhk]. split_and!; [apply (ir_len _ _ _ Hr)|apply (ir_bytes _ _ _ Hr)|].
    rewrite <- Hno. unfold cn_block_no, CN_BLOCK_NO. apply Hrd; [done|lia..]. }
  destruct (edit_cnode_spec m b f m' Hc Hp Hb Hcrc Hok E) as (E1 & _ & Hsh). fold c in Hsh. destruct (Hf E1) as [Hx' Hhk]. destruct (Hok E1) as (Hl & Hby & Hno').
  pose proof (ir_bs _ _ _ (xp_items _ _ _ _ Hx)) as Hbs. change CARAFS_CNODE_ITEMS_OFF with 360%nat in Hbs.
  pose proof (shows_pins _ _ _ Hsh Hp) as Hp'. destruct Hsh as [S1 S2 S3 (S4 & S5 & S6 & _)].
  assert (view m' b = seal_cnode (m_block_size m) c) as Ev by (by rewrite S2, Z.eqb_refl). split_and!.
  - split; [done|done|unfold in_dev in *; by rewrite S5| | |].
    + rewrite Ev, S6. apply block_crc_ok_put_crc; [done|by rewrite Hl|unfold CN_CRC; lia].
    + by rewrite Ev.
    + rewrite Ev, S6. by apply xattr_rep_seal.
  - rewrite Ev. unfold stat_of, cn_generation, cn_type, cn_link_count.
    rewrite !Hrd by (done || lia). done.
  - intros b' Hb' Hne. rewrite S2 by done. by rewrite (proj2 (Z.eqb_neq _ _) Hne).
Qed.

End Spec.


Module XattrExample.
(** A cnode block with a comment item and two attributes. *)
Definition xs : list xrec := [mkX [97; 98] 0 [1; 2; 3]; mkX [99] 0 [9]].
Definition its : items := [(2, [1; 2; 3; 4; 5]); (CARAFS_ITEM_XATTR, enc_recs xs)].
Definition blk : list Z := wr 4 (zeros 360) 100 40 ++ encode_items its ++ zeros 112.
Lemma xblk_rep : xattr_rep 512 blk its xs.
Proof.
  split; [|by right| |].
  - split; [by vm_compute|by vm_compute|apply AllocExample.bytes_okb_ok; by vm_compute|by exists (zeros 112)|by vm_compute| |].
    + repeat constructor; try (by vm_compute); apply AllocExample.bytes_okb_ok; by vm_compute.
    + vm_compute. repeat constructor; set_solver.
  - repeat constructor; try (by vm_compute); apply AllocExample.bytes_okb_ok; by vm_compute.
  - vm_compute. repeat constructor; set_solver.
Qed.
Lemma new_ok : xrec_ok (mkX [99] 0 [7; 7]).
Proof. split; try (by vm_compute); apply AllocExample.bytes_okb_ok; by vm_compute. Qed.

(** A set that does not fit leaves the block without the attribute it was to replace. *)
Lemma xattr_set_overflow_loses :
  let r := xattr_set_block 512 [97; 98] (zeros 200) blk in
  fst r = Err CARA_EOVERFLOW /\ xattr_value [97; 98] blk = Some (3, [1; 2; 3]) /\ xattr_value [97; 98] (snd r) = None.
Proof. cbn zeta. split_and!; vm_compute; reflexivity. Qed.

Lemma vol_view : view CnodeExample.vol 1 = CnodeExample.live.
Proof. vm_compute. reflexivity. Qed.
Lemma live_no : cn_block_no CnodeExample.live = 1.
Proof. vm_compute. reflexivity. Qed.
Lemma live_items : items_rep 512 CnodeExample.live [].
Proof.
  assert (in_u64 1 /\ in_u64 7 /\ in_u16 CARAFS_T_FILE /\ in_u64 1000) as (H1 & H2 & H3 & H4) by (unfold in_u64, in_u16, CARAFS_T_FILE; lia).
  apply (new_cnode_sealed 512 1 7 CARAFS_T_FILE 1000); [unfold CARAFS_CNODE_ITEMS_OFF; lia|lia|exact H1|exact H2|exact H3|exact H4].
Qed.
Lemma vol_xattr : xattr_vol CnodeExample.vol 1 [] [].
Proof.
  split.
  - exact CnodeExample.cn_vol_inv.
  - exact (pins_okb_ok CnodeExample.vol eq_refl).
  - exact (conj Z.le_0_1 eq_refl).
  - exact (proj1 CnodeExample.vol_crc).
  - rewrite vol_view. exact live_no.
  - rewrite vol_view. split; [exact live_items|left; split; reflexivity|constructor|constructor].
Qed.
Definition set_vol : CarafsMount CarafsMemBdev := snd (edit_cnode 1 (xattr_set_block 512 [99] [7; 7]) CnodeExample.vol).
Lemma xattr_set_run : fst (edit_cnode 1 (xattr_set_block 512 [99] [7; 7]) CnodeExample.vol) = Ok tt.
Proof. vm_compute. reflexivity. Qed.
Lemma set_eq : edit_cnode 1 (xattr_set_block 512 [99] [7; 7]) CnodeExample.vol = (Ok tt, set_vol).
Proof. rewrite <- xattr_set_run. apply surjective_pairing. Qed.
Lemma get_run : fst (Carafs_XattrGet 1 [99] 8 set_vol) = Ok (2, [7; 7]).
Proof. vm_compute. reflexivity. Qed.
End XattrExample.
