(* ===== verification/Dirent.v ===== *)
(** Directory entries ([include/cara/carafs.h]) and the directory flavour of the B+tree
    ([src/logaic/carafs/btree.c], from [dleaf_off] on): variable-length records sorted by (name hash, collision
    sequence), packed in the leaves of a tree that shares its interior nodes with [Btree]. *)

From S2P Require Import Prelude Format Volume Cache Journal Wal Alloc Items Btree.

(** * Entries *)

Definition CARAFS_DIRENT_BASE : nat := 20.
Definition dirent_stride (name_len : Z) : Z := Carafs_Align8 (Z.of_nat CARAFS_DIRENT_BASE + name_len).
Record CarafsDirent := mkDe { de_hash : Z; de_cnode : Z; de_type : Z; de_name_len : Z; de_seq : Z; de_rsvd : Z }.
(** The header at byte [o] of a block, and the name after it. *)
Definition dirent_at (b : list Z) (o : nat) : CarafsDirent :=
  mkDe (rd 8 b o) (rd 8 b (o + 8)) (rd 1 b (o + 16)) (rd 1 b (o + 17)) (rd 1 b (o + 18)) (rd 1 b (o + 19)).
Definition dirent_name (b : list Z) (o : nat) : list Z := sub (o + CARAFS_DIRENT_BASE) (Z.to_nat (de_name_len (dirent_at b o))) b.
(** The stores of a new record: the header, the name, the pad zeroed. *)
Definition dirent_bytes (de : CarafsDirent) (name : list Z) : list Z :=
  le_put 8 (de_hash de) ++ le_put 8 (de_cnode de) ++ [u8 (de_type de); u8 (de_name_len de); u8 (de_seq de); u8 (de_rsvd de)] ++
  take (Z.to_nat (de_name_len de)) name ++ zeros (Z.to_nat (dirent_stride (de_name_len de)) - CARAFS_DIRENT_BASE - Z.to_nat (de_name_len de)).

(** [u8 used[32]]: the collision sequences in use. *)
Definition no_seqs : list Z := zeros 32.
Definition mark_seq (used : list Z) (seq : Z) : list Z :=
  alter (fun b => u8 (Z.lor b (u8 (Z.shiftl 1 (Z.land seq 7))))) (Z.to_nat (Z.shiftr seq 3)) used.
Definition seq_marked (used : list Z) (fs : Z) : bool := negb (Z.land (nth_z used (Z.shiftr fs 3) 0) (Z.shiftl 1 (Z.land fs 7)) =? 0).
Fixpoint free_seq_from (fuel : nat) (used : list Z) (fs : Z) : Z :=
  match fuel with O => fs | S fuel => if (fs <? 256) && seq_marked used fs then free_seq_from fuel used (fs + 1) else fs end.
Definition free_seq (used : list Z) : result Z :=
  let fs := free_seq_from 256 used 0 in if 256 <=? fs then Err CARA_EOVERFLOW else Ok fs.

(** * Leaves *)

(** Entry [i] of a leaf lies at [CARAFS_BT_BODY_OFF + off]. *)
Definition leaf_at (off : Z) : nat := (CARAFS_BT_BODY_OFF + Z.to_nat off)%nat.
Fixpoint dleaf_off (idx : nat) (leaf : list Z) (o : Z) : Z :=
  match idx with O => o | S idx => dleaf_off idx leaf (u32 (o + dirent_stride (de_name_len (dirent_at leaf (leaf_at o))))) end.
(** The loop over the entries until one whose key is past (hash, seq): the offset reached. *)
Fixpoint leaf_ins_off (k : nat) (leaf : list Z) (hash seq off : Z) : Z :=
  match k with
  | O => off
  | S k =>
      let d := dirent_at leaf (leaf_at off) in
      if 0 <? key_cmp (de_hash d) (de_seq d) hash seq then off
      else leaf_ins_off k leaf hash seq (u32 (off + dirent_stride (de_name_len d)))
  end.
Definition leaf_place (de : CarafsDirent) (name : list Z) (leaf : list Z) : list Z :=
  let stride := dirent_stride (de_name_len de) in
  let off := leaf_ins_off (Z.to_nat (n_records leaf)) leaf (de_hash de) (de_seq de) 0 in
  let leaf := memmove leaf (leaf_at (off + stride)) (leaf_at off) (Z.to_nat (u32 (used_bytes leaf - off))) in
  let leaf := splice leaf (leaf_at off) (dirent_bytes de name) in
  let leaf := wr 2 leaf 18 (u16 (n_records leaf + 1)) in
  wr 4 leaf 20 (u32 (used_bytes leaf + stride)).

(** The split point nearest the byte midpoint, both halves non-empty. *)
Fixpoint keep_walk (k : nat) (leaf : list Z) (i acc : Z) : Z :=
  match k with
  | O => 1
  | S k =>
      let acc := u32 (acc + dirent_stride (de_name_len (dirent_at leaf (leaf_at acc)))) in
      if used_bytes leaf <=? u32 (acc * 2) then i + 1 else keep_walk k leaf (i + 1) acc
  end.
Definition split_keep (leaf : list Z) : Z :=
  let keep := keep_walk (Z.to_nat (n_records leaf)) leaf 0 0 in
  let keep := if keep <? 1 then 1 else keep in
  if n_records leaf - 1 <? keep then n_records leaf - 1 else keep.
Definition dsplit_right (leaf rgt : list Z) : list Z :=
  let keep := split_keep leaf in
  let split_off := dleaf_off (Z.to_nat keep) leaf 0 in
  let move_bytes := u32 (used_bytes leaf - split_off) in
  let rgt := splice rgt CARAFS_BT_BODY_OFF (sub (leaf_at split_off) (Z.to_nat move_bytes) leaf) in
  wr 4 (wr 2 rgt 18 (u16 (n_records leaf - keep))) 20 move_bytes.
Definition dsplit_left (leaf : list Z) : list Z :=
  let keep := split_keep leaf in
  let split_off := dleaf_off (Z.to_nat keep) leaf 0 in
  let move_bytes := u32 (used_bytes leaf - split_off) in
  let leaf := memzero leaf (leaf_at split_off) (Z.to_nat move_bytes) in
  wr 4 (wr 2 leaf 18 (u16 keep)) 20 split_off.

(** Where the entry (hash, seq) is, if it is there. *)
Fixpoint leaf_find (k : nat) (leaf : list Z) (hash seq off : Z) : option Z :=
  match k with
  | O => None
  | S k =>
      let d := dirent_at leaf (leaf_at off) in
      if (de_hash d =? hash) && (de_seq d =? seq) then Some off
      else if 0 <? key_cmp (de_hash d) (de_seq d) hash seq then None
      else leaf_find k leaf hash seq (u32 (off + dirent_stride (de_name_len d)))
  end.
Definition leaf_drop (off : Z) (leaf : list Z) : list Z :=
  let stride := dirent_stride (de_name_len (dirent_at leaf (leaf_at off))) in
  let leaf := memmove leaf (leaf_at off) (leaf_at (off + stride)) (Z.to_nat (u32 (used_bytes leaf - off - stride))) in
  let leaf := wr 2 leaf 18 (u16 (n_records leaf - 1)) in
  let leaf := wr 4 leaf 20 (u32 (used_bytes leaf - stride)) in
  memzero leaf (leaf_at (used_bytes leaf)) (Z.to_nat stride).

(** What [carafs_dtree_scan] has seen. *)
Record scan_state := mkScan { sc_used : list Z; sc_match : option CarafsDirent; sc_s : Z; sc_more : bool }.
Fixpoint scan_leaf (k : nat) (leaf : list Z) (hash : Z) (name : list Z) (i cnt off : Z) (st : scan_state) : scan_state :=
  match k with
  | O => st
  | S k =>
      let d := dirent_at leaf (leaf_at off) in
      let off' := u32 (off + dirent_stride (de_name_len d)) in
      if (de_hash d =? hash) && (sc_s st <=? de_seq d) then
        let found := match sc_match st with
                     | Some x => Some x
                     | None => if Carafs_NameEq (dirent_name leaf (leaf_at off)) name then Some d else None
                     end in
        let next := u8 (de_seq d + 1) in
        let '(s, more) := if (i =? cnt - 1) && negb (next =? 0) then (next, true) else (sc_s st, sc_more st) in
        scan_leaf k leaf hash name (i + 1) cnt off' (mkScan (mark_seq (sc_used st) (de_seq d)) found s more)
      else if hash <? de_hash d then mkScan (sc_used st) (sc_match st) (sc_s st) false
      else scan_leaf k leaf hash name (i + 1) cnt off' st
  end.

(** The first entry whose key is past (hash, seq), or not before it. *)
Fixpoint leaf_next (k : nat) (leaf : list Z) (hash seq : Z) (strict : bool) (off : Z) : option (CarafsDirent * list Z) :=
  match k with
  | O => None
  | S k =>
      let d := dirent_at leaf (leaf_at off) in
      let c := key_cmp (de_hash d) (de_seq d) hash seq in
      if if strict then 0 <? c else 0 <=? c then Some (d, dirent_name leaf (leaf_at off))
      else leaf_next k leaf hash seq strict (u32 (off + dirent_stride (de_name_len d)))
  end.
(** How many entries a packed blob of [bytes] bytes holds. *)
Fixpoint blob_count (fuel : nat) (blob : list Z) (bytes o count : Z) : Z :=
  match fuel with
  | O => count
  | S fuel => if o <? bytes then blob_count fuel blob bytes (u32 (o + dirent_stride (de_name_len (dirent_at blob (Z.to_nat o))))) (u32 (count + 1)) else count
  end.

(** The leaf the packed entries [blob] move to. *)
Definition spill_leaf (blob n : list Z) : list Z :=
  let bytes := Z.of_nat (length blob) in
  let n := splice n CARAFS_BT_BODY_OFF blob in
  wr 4 (wr 2 n 18 (u16 (blob_count (S (length blob)) blob bytes 0 0))) 20 bytes.

Section Dtree.
Context {D : Type} `{!BlockDev D}.
Abbreviation mount := (CarafsMount D).

(** * The tree *)

(** The pinned leaf, its block, and the path from its parent up. *)
Fixpoint dtree_descend (fuel : nat) (block hash seq : Z) (path : list (Z * Z)) : ST mount (Z * Z * list (Z * Z)) :=
  match fuel with
  | O => st_err CARA_EBADMAGIC
  | S fuel =>
      n ← bt_get block CARAFS_BT_DIR;
      m ← st_get;
      if bt_level (node m n) =? 0 then mret (n, block, path)
      else
        let i := fst (bt_idescend (node m n) hash seq) in
        let child := child_of (node m n) i in
        bt_put n;; dtree_descend fuel child hash seq ((block, i) :: path)
  end.
Fixpoint dleftmost (fuel : nat) (child : Z) : ST mount Z :=
  match fuel with
  | O => st_err CARA_EBADMAGIC
  | S fuel =>
      n ← bt_get child CARAFS_BT_DIR;
      m ← st_get;
      if 0 <? bt_level (node m n) then let child' := child_of (node m n) 0 in bt_put n;; dleftmost fuel child'
      else bt_put n;; mret child
  end.
Fixpoint dtree_next_leaf (path : list (Z * Z)) : ST mount Z :=
  match path with
  | [] => mret CARAFS_BLOCK_NONE
  | (block, idx) :: path =>
      n ← bt_get block CARAFS_BT_DIR;
      m ← st_get;
      if n_records (node m n) <=? u32 (idx + 1) then bt_put n;; dtree_next_leaf path
      else let child := child_of (node m n) (u32 (idx + 1)) in bt_put n;; dleftmost BT_MAX_DEPTH child
  end.

(** The [while (more)]: the cursor [s] grows with every round. *)
Fixpoint scan_rounds (fuel : nat) (root hash : Z) (name : list Z) (st : scan_state) : ST mount scan_state :=
  match fuel with
  | O => mret st
  | S fuel =>
      if negb (sc_more st) then mret st
      else
        '(leaf, _, _) ← dtree_descend BT_MAX_DEPTH root hash (sc_s st) [];
        m ← st_get;
        let cnt := n_records (node m leaf) in
        let st' := scan_leaf (Z.to_nat cnt) (node m leaf) hash name 0 cnt 0 (mkScan (sc_used st) (sc_match st) (sc_s st) false) in
        bt_put leaf;;
        scan_rounds fuel root hash name st'
  end.
(** The entry found, and the bitmap of sequences for [free_seq]. *)
Definition carafs_dtree_scan (root hash : Z) (name : list Z) : ST mount (option CarafsDirent * list Z) :=
  st ← scan_rounds 257 root hash name (mkScan no_seqs None 0 true);
  mret (sc_match st, sc_used st).
Definition carafs_dtree_lookup (root hash : Z) (name : list Z) : ST mount CarafsDirent :=
  '(found, _) ← carafs_dtree_scan root hash name;
  match found with Some d => mret d | None => st_err CARA_ENOTFOUND end.

Definition carafs_dtree_next (root hash seq : Z) (strict : bool) : ST mount (CarafsDirent * list Z) :=
  '(leaf, _, path) ← dtree_descend BT_MAX_DEPTH root hash seq [];
  m ← st_get;
  match leaf_next (Z.to_nat (n_records (node m leaf))) (node m leaf) hash seq strict 0 with
  | Some x => bt_put leaf;; mret x
  | None =>
      rc ← st_try (dtree_next_leaf path);
      bt_put leaf;;
      nb ← st_lift rc;
      if nb =? CARAFS_BLOCK_NONE then st_err CARA_ENOTFOUND
      else
        nl ← bt_get nb CARAFS_BT_DIR;
        m ← st_get;
        if n_records (node m nl) =? 0 then bt_put nl;; st_err CARA_ENOTFOUND
        else let x := (dirent_at (node m nl) (leaf_at 0), dirent_name (node m nl) (leaf_at 0)) in bt_put nl;; mret x
  end.

Definition carafs_dtree_insert (cn : Z) (de : CarafsDirent) (name : list Z) : ST mount unit :=
  m ← st_get;
  '(leaf, _, path) ← dtree_descend BT_MAX_DEPTH (rd 8 (node m cn) CN_TREE_ROOT) (de_hash de) (de_seq de) [];
  m ← st_get;
  let stride := dirent_stride (de_name_len de) in
  let cap := Z.of_nat (m_block_size m) - Z.of_nat CARAFS_BT_BODY_OFF in
  if u32 (used_bytes (node m leaf) + stride) <=? cap then
    put_node leaf (leaf_place de name);;
    leaf_block ← st_gets (fun m => bt_block_no (node m leaf));
    rc ← st_try (bt_dirty leaf);
    bt_put leaf;;
    match rc with Err e => st_err e | Ok _ => bt_propagate cn CARAFS_BT_DIR path leaf_block None end
  else if n_records (node m leaf) <? 2 then bt_put leaf;; st_err CARA_EOVERFLOW
  else
    rs ← st_try (bt_new (bt_block_no (node m leaf)) 0 CARAFS_BT_DIR);
    match rs with
    | Err e => bt_put leaf;; st_err e
    | Ok rgt =>
        m ← st_get;
        put_node rgt (dsplit_right (node m leaf));;
        put_node leaf dsplit_left;;
        m ← st_get;
        let '(rmin_hi, rmin_lo) := node_min_key (node m rgt) in
        put_node (if 0 <=? key_cmp (de_hash de) (de_seq de) rmin_hi rmin_lo then rgt else leaf) (leaf_place de name);;
        m ← st_get;
        let '(carry_hi, carry_lo) := node_min_key (node m rgt) in
        let carry_child := bt_block_no (node m rgt) in
        let leaf_block := bt_block_no (node m leaf) in
        rc ← st_try (bt_dirty leaf);
        rc2 ← st_try (bt_dirty rgt);
        bt_put leaf;; bt_put rgt;;
        match rc, rc2 with
        | Err e, _ => st_err e
        | _, Err e => st_err e
        | Ok _, Ok _ => bt_propagate cn CARAFS_BT_DIR path leaf_block (Some (carry_hi, carry_lo, carry_child))
        end
    end.

(** The interior record [idx] is taken out; the tail keeps its last record. *)
Definition irec_drop (idx : Z) (n : list Z) : list Z :=
  let n := memmove n (bt_rec idx) (bt_rec (idx + 1)) (Z.to_nat (n_records n - idx - 1) * REC_SIZE) in
  let n := wr 2 n 18 (u16 (n_records n - 1)) in
  wr 4 n 20 (u32 (used_bytes n - Z.of_nat REC_SIZE)).
Fixpoint dtree_collapse (cn : Z) (path : list (Z * Z)) : ST mount unit :=
  match path with
  | [] => mret tt
  | (block, idx) :: up =>
      n ← bt_get block CARAFS_BT_DIR;
      put_node n (irec_drop idx);;
      m ← st_get;
      let nb := bt_block_no (node m n) in
      if n_records (node m n) =? 0 then
        bt_put n;;
        carafs_free_extent nb 1;;
        match up with [] => put_node cn (fun c => wr 8 c CN_TREE_ROOT 0) | _ => dtree_collapse cn up end
      else
        rc ← st_try (bt_dirty n);
        bt_put n;;
        match rc with
        | Err e => st_err e
        | Ok _ => match up with [] => mret tt | _ => bt_propagate cn CARAFS_BT_DIR up block None end
        end
  end.
Definition carafs_dtree_remove (cn hash seq : Z) : ST mount unit :=
  m ← st_get;
  '(leaf, _, path) ← dtree_descend BT_MAX_DEPTH (rd 8 (node m cn) CN_TREE_ROOT) hash seq [];
  m ← st_get;
  match leaf_find (Z.to_nat (n_records (node m leaf))) (node m leaf) hash seq 0 with
  | None => bt_put leaf;; st_err CARA_ENOTFOUND
  | Some off =>
      put_node leaf (leaf_drop off);;
      m ← st_get;
      let leaf_block := bt_block_no (node m leaf) in
      if n_records (node m leaf) =? 0 then
        bt_put leaf;;
        carafs_free_extent leaf_block 1;;
        match path with [] => put_node cn (fun c => wr 8 c CN_TREE_ROOT 0) | _ => dtree_collapse cn path end
      else
        rc ← st_try (bt_dirty leaf);
        bt_put leaf;;
        match rc with Err e => st_err e | Ok _ => bt_propagate cn CARAFS_BT_DIR path leaf_block None end
  end.

(** [blob] is the packed entries to move. *)
Definition carafs_dtree_spill (cn : Z) (blob : list Z) : ST mount unit :=
  m ← st_get;
  leaf ← bt_new (rd 8 (node m cn) CN_BLOCK_NO) 0 CARAFS_BT_DIR;
  put_node leaf (spill_leaf blob);;
  rc ← st_try (bt_dirty leaf);
  lb ← st_gets (fun m => bt_block_no (node m leaf));
  bt_put leaf;;
  match rc with Err e => st_err e | Ok _ => put_node cn (fun c => wr 8 c CN_TREE_ROOT lb) end.
End Dtree.
