(* ===== verification/Dir.v ===== *)
(** Directories ([src/logaic/carafs/dir.c]). The entries of a directory lie in an item of its cnode,
    packed and sorted by (name hash, collision sequence), until the item area is full; then they move to
    the tree of [Dirent]. The loops over the packed item and the edits of the cnode block are functions
    on its bytes; the calls wrap them in lookups and the operation bracket. *)

From Stdlib Require Import Sorted.
From S2P Require Import Prelude Format Volume Cache Journal Wal Alloc Items Btree Mount Cnode Reads File Xattr Dirent.

Definition CARAFS_ITEM_NAME : Z := 1.
Definition CARAFS_ITEM_INLINE_DIRENTS : Z := 5.
Definition CARAFS_ITEM_SYMLINK_TARGET : Z := 6.
Definition CN_LINK_COUNT : nat := 28.
Definition CN_PARENT : nat := 48.

Definition dkey_cmp (ahi alo bhi blo : Z) : Z :=
  if negb (ahi =? bhi) then if ahi <? bhi then -1 else 1
  else if negb (alo =? blo) then if alo <? blo then -1 else 1 else 0.

(** * The packed item *)

(** The loops over the item at byte [at_] of the block: from [off], record by record, until [stop] holds
    or [len] is reached. A record is at least 24 bytes, so [len] rounds are enough. *)
Fixpoint walk_to (stop : CarafsDirent -> list Z -> bool) (fuel : nat) (blk : list Z) (at_ : nat) (len off : Z) : Z :=
  match fuel with
  | O => off
  | S fuel =>
      if off <? len then
        let o := (at_ + Z.to_nat off)%nat in
        let d := dirent_at blk o in
        if stop d (dirent_name blk o) then off else walk_to stop fuel blk at_ len (off + dirent_stride (de_name_len d))
      else off
  end.
Definition item_walk_to (stop : CarafsDirent -> list Z -> bool) (blk : list Z) (at_ : nat) (len : Z) : Z :=
  walk_to stop (S (Z.to_nat len)) blk at_ len 0.

(** The sequences in use with this hash, and whether one of the entries has the name. *)
Fixpoint probe_walk (fuel : nat) (blk : list Z) (at_ : nat) (len hash : Z) (name : list Z) (off : Z) (used : list Z) (found : bool) : list Z * bool :=
  match fuel with
  | O => (used, found)
  | S fuel =>
      if off <? len then
        let o := (at_ + Z.to_nat off)%nat in
        let d := dirent_at blk o in
        let off' := off + dirent_stride (de_name_len d) in
        if de_hash d =? hash then
          probe_walk fuel blk at_ len hash name off' (mark_seq used (de_seq d)) (found || Carafs_NameEq (dirent_name blk o) name)
        else probe_walk fuel blk at_ len hash name off' used found
      else (used, found)
  end.
Definition dirents_probe (hash : Z) (name blk : list Z) : list Z * bool :=
  match carafs_item_find blk CARAFS_ITEM_INLINE_DIRENTS with
  | None => (no_seqs, false)
  | Some (at_, len) => probe_walk (S (Z.to_nat len)) blk at_ len hash name 0 no_seqs false
  end.
(** The first record [stop] holds of, and its name. *)
Definition dirents_first (stop : CarafsDirent -> list Z -> bool) (blk : list Z) : option (CarafsDirent * list Z) :=
  match carafs_item_find blk CARAFS_ITEM_INLINE_DIRENTS with
  | None => None
  | Some (at_, len) =>
      let off := item_walk_to stop blk at_ len in
      if off <? len then Some (dirent_at blk (at_ + Z.to_nat off), dirent_name blk (at_ + Z.to_nat off)) else None
  end.
Definition has_name (hash : Z) (name : list Z) (d : CarafsDirent) (n : list Z) : bool := (de_hash d =? hash) && Carafs_NameEq n name.
Definition keyed (hash seq : Z) (d : CarafsDirent) (_ : list Z) : bool := (de_hash d =? hash) && (de_seq d =? seq).
Definition past (hash seq : Z) (d : CarafsDirent) (_ : list Z) : bool := 0 <? dkey_cmp (de_hash d) (de_seq d) hash seq.

(** [None]: the item area cannot hold one more record. *)
Definition dirents_insert (bs : Z) (de : CarafsDirent) (name blk : list Z) : option (list Z) :=
  let stride := dirent_stride (de_name_len de) in
  let have := match carafs_item_find blk CARAFS_ITEM_INLINE_DIRENTS with Some (_, len) => len | None => 0 end in
  match carafs_item_resize bs CARAFS_ITEM_INLINE_DIRENTS (u16 (have + stride)) blk with
  | Err _ => None
  | Ok (blk, payload) =>
      let off := item_walk_to (past (de_hash de) (de_seq de)) blk payload have in
      let blk := memmove blk (payload + Z.to_nat (off + stride)) (payload + Z.to_nat off) (Z.to_nat (u32 (have - off))) in
      Some (splice blk (payload + Z.to_nat off) (dirent_bytes de name))
  end.
Definition dirents_remove (bs hash seq : Z) (blk : list Z) : result unit * list Z :=
  match carafs_item_find blk CARAFS_ITEM_INLINE_DIRENTS with
  | None => (Err CARA_ENOTFOUND, blk)
  | Some (p, len) =>
      let off := item_walk_to (keyed hash seq) blk p len in
      if len <=? off then (Err CARA_ENOTFOUND, blk)
      else
        let stride := dirent_stride (de_name_len (dirent_at blk (p + Z.to_nat off))) in
        let blk := memmove blk (p + Z.to_nat off) (p + Z.to_nat (off + stride)) (Z.to_nat (u32 (len - off - stride))) in
        let new_len := u32 (len - stride) in
        if new_len =? 0 then (Ok tt, carafs_item_remove CARAFS_ITEM_INLINE_DIRENTS blk)
        else match carafs_item_resize bs CARAFS_ITEM_INLINE_DIRENTS (u16 new_len) blk with
             | Err e => (Err e, blk)
             | Ok (blk, _) => (Ok tt, blk)
             end
  end.

(** * Directory primitives *)

Record CarafsDirCursor := mkCursor { cur_hash : Z; cur_seq : Z; cur_started : bool }.
Record CarafsDirEntry := mkEntry { ent_cnode : Z; ent_type : Z; ent_name_len : Z; ent_name : list Z }.

(** The header fields of a linked child, of its target, and the counts of the directory. *)
Definition child_named (bs dir : Z) (name blk : list Z) : result unit * list Z :=
  match carafs_item_resize bs CARAFS_ITEM_NAME (u16 (Z.of_nat (length name))) blk with
  | Err e => (Err e, blk)
  | Ok (blk, np) => (Ok tt, wr 8 (splice blk np name) CN_PARENT dir)
  end.
Definition target_stored (bs : Z) (target blk : list Z) : result unit * list Z :=
  match carafs_item_resize bs CARAFS_ITEM_SYMLINK_TARGET (u16 (Z.of_nat (length target))) blk with
  | Err e => (Err e, blk)
  | Ok (blk, tp) => (Ok tt, wr 8 (splice blk tp target) CN_SIZE_BYTES (Z.of_nat (length target)))
  end.
Definition dir_counted (delta now : Z) (c : list Z) : list Z :=
  wr 8 (wr 8 (wr 8 c CN_SIZE_BYTES (u64 (cn_size_bytes c + delta))) CN_MODIFIED_NS now) CN_CHANGED_NS now.
Definition link_added (now : Z) (c : list Z) : list Z :=
  let c := if cn_link_count c =? 1 then wr 8 c CN_PARENT 0 else c in
  wr 8 (wr 4 c CN_LINK_COUNT (u32 (cn_link_count c + 1))) CN_CHANGED_NS now.
Definition link_dropped (now : Z) (c : list Z) : list Z :=
  wr 8 (wr 4 c CN_LINK_COUNT (u32 (cn_link_count c - 1))) CN_CHANGED_NS now.

Section Dir.
Context {D : Type} `{!BlockDev D}.
Abbreviation mount := (CarafsMount D).

(** Whether the name is taken, and the smallest free sequence of its hash. *)
Definition dir_probe (cn hash : Z) (name : list Z) : ST mount (bool * Z) :=
  m ← st_get;
  if negb (cn_tree_root (node m cn) =? 0) then
    '(found, used) ← carafs_dtree_scan (cn_tree_root (node m cn)) hash name;
    fs ← st_lift (free_seq used);
    mret (match found with Some _ => true | None => false end, fs)
  else
    let '(used, found) := dirents_probe hash name (node m cn) in
    fs ← st_lift (free_seq used);
    mret (found, fs).
Definition dir_find (cn hash : Z) (name : list Z) : ST mount CarafsDirent :=
  m ← st_get;
  if negb (cn_tree_root (node m cn) =? 0) then carafs_dtree_lookup (cn_tree_root (node m cn)) hash name
  else match dirents_first (has_name hash name) (node m cn) with Some (d, _) => mret d | None => st_err CARA_ENOTFOUND end.
Definition dir_insert_entry (cn : Z) (de : CarafsDirent) (name : list Z) : ST mount unit :=
  m ← st_get;
  if negb (cn_tree_root (node m cn) =? 0) then carafs_dtree_insert cn de name
  else match dirents_insert (Z.of_nat (m_block_size m)) de name (node m cn) with
       | Some blk => put_node cn (fun _ => blk)
       | None =>
           let blob := match carafs_item_find (node m cn) CARAFS_ITEM_INLINE_DIRENTS with Some (cur, len) => sub cur (Z.to_nat len) (node m cn) | None => [] end in
           carafs_dtree_spill cn blob;;
           put_node cn (carafs_item_remove CARAFS_ITEM_INLINE_DIRENTS);;
           carafs_dtree_insert cn de name
       end.
Definition dir_remove_entry (cn hash seq : Z) : ST mount unit :=
  m ← st_get;
  if negb (cn_tree_root (node m cn) =? 0) then carafs_dtree_remove cn hash seq
  else
    let '(rc, blk) := dirents_remove (Z.of_nat (m_block_size m)) hash seq (node m cn) in
    put_node cn (fun _ => blk);; st_lift rc.
(** The first entry past the cursor, or the very first. *)
Definition dir_inline_next (cn : Z) (started : bool) (hash seq : Z) : ST mount (CarafsDirent * list Z) :=
  m ← st_get;
  match dirents_first (fun d n => negb started || past hash seq d n) (node m cn) with Some x => mret x | None => st_err CARA_ENOTFOUND end.

(** [now] and [now'] are the readings of the clock, for the child and for the directory. *)
Definition dir_link_new (cn type : Z) (name : list Z) (now now' : Z) : ST mount Z :=
  let hash := Carafs_NameHash name in
  '(exists_, seq) ← dir_probe cn hash name;
  assert! negb exists_ else CARA_EEXIST;
  dir ← st_gets (fun m => cn_block_no (node m cn));
  child ← carafs_cnode_alloc type dir now;
  m ← st_get;
  edit_cnode child (child_named (Z.of_nat (m_block_size m)) dir name);;
  dir_insert_entry cn (mkDe hash child (u8 type) (u8 (Z.of_nat (length name))) seq 0) name;;
  put_node cn (dir_counted 1 now');;
  mret child.
Definition get_dir (dir : Z) : ST mount Z :=
  cn ← carafs_cnode_get dir;
  m ← st_get;
  if negb (cn_type (node m cn) =? CARAFS_T_DIR) then carafs_cnode_put cn;; st_err CARA_EINVAL else mret cn.
(** [body] runs with the cnode held; it is released whatever comes out. *)
Definition with_cnode {A} (cn : Z) (body : ST mount A) : ST mount A :=
  rc ← st_try body;
  carafs_cnode_put cn;;
  st_lift rc.
(** CARA_ENOTFOUND of the entry lookups is CARA_ENOENT for the caller. *)
Definition no_entry {A} (p : ST mount A) : ST mount A :=
  rc ← st_try p;
  match rc with Err e => st_err (if e =? CARA_ENOTFOUND then CARA_ENOENT else e) | Ok x => mret x end.

(** * The calls *)

(** The cnode and the type of the entry. *)
Definition Carafs_DirLookup (dir : Z) (name : list Z) : ST mount (Z * Z) :=
  m ← st_get;
  assert! m_mounted m && Carafs_NameValid name else CARA_EINVAL;
  cn ← get_dir dir;
  de ← no_entry (with_cnode cn (dir_find cn (Carafs_NameHash name) name));
  mret (de_cnode de, de_type de).
Definition Carafs_DirCreate (dir : Z) (name : list Z) (type now now' : Z) : ST mount Z :=
  assert! Carafs_NameValid name && ((type =? CARAFS_T_FILE) || (type =? CARAFS_T_DIR) || (type =? CARAFS_T_SYMLINK)) else CARA_EINVAL;
  in_op (dcn ← get_dir dir;
         with_cnode dcn (child ← dir_link_new dcn type name now now'; carafs_cnode_dirty dcn;; mret child)).
Definition Carafs_DirSymlink (dir : Z) (name target : list Z) (now now' : Z) : ST mount Z :=
  assert! negb (Z.of_nat (length target) =? 0) && (Z.of_nat (length target) <=? 0xFFFF) && Carafs_NameValid name else CARA_EINVAL;
  in_op (dcn ← get_dir dir;
         with_cnode dcn (
           child ← dir_link_new dcn CARAFS_T_SYMLINK name now now';
           carafs_cnode_dirty dcn;;
           m ← st_get;
           edit_cnode child (target_stored (Z.of_nat (m_block_size m)) target);;
           mret child)).
Definition Carafs_DirLink (dir : Z) (name : list Z) (target now now' : Z) : ST mount unit :=
  assert! Carafs_NameValid name else CARA_EINVAL;
  in_op (let hash := Carafs_NameHash name in
         dcn ← get_dir dir;
         with_cnode dcn (
           tcn ← carafs_cnode_get target;
           with_cnode tcn (
             ttype ← st_gets (fun m => cn_type (node m tcn));
             assert! ttype =? CARAFS_T_FILE else CARA_EINVAL;
             '(exists_, seq) ← dir_probe dcn hash name;
             assert! negb exists_ else CARA_EEXIST;
             dir_insert_entry dcn (mkDe hash target (u8 ttype) (u8 (Z.of_nat (length name))) seq 0) name;;
             put_node tcn (link_added now);;
             put_node dcn (dir_counted 1 now');;
             carafs_cnode_dirty tcn;;
             carafs_cnode_dirty dcn))).
(** [fuel] bounds the walk of the tree of an object that is deleted. *)
Definition Carafs_DirRemove (fuel : nat) (dir : Z) (name : list Z) (now now' : Z) : ST mount unit :=
  assert! Carafs_NameValid name else CARA_EINVAL;
  in_op (dcn ← get_dir dir;
         with_cnode dcn (
           de ← no_entry (dir_find dcn (Carafs_NameHash name) name);
           ccn ← carafs_cnode_get (de_cnode de);
           with_cnode ccn (
             m ← st_get;
             assert! negb ((cn_type (node m ccn) =? CARAFS_T_DIR) && negb (cn_size_bytes (node m ccn) =? 0)) else CARA_ENOTEMPTY;
             dir_remove_entry dcn (de_hash de) (de_seq de);;
             put_node dcn (dir_counted (-1) now);;
             links ← st_gets (fun m => cn_link_count (node m ccn));
             (if links <=? 1 then carafs_cnode_free_locked fuel now' ccn
              else put_node ccn (link_dropped now');; carafs_cnode_dirty ccn);;
             carafs_cnode_dirty dcn))).
(** The entry after the cursor, in the tree or in the cnode. *)
Definition dir_next (cn : Z) (cur : CarafsDirCursor) : ST mount (CarafsDirent * list Z) :=
  m ← st_get;
  if negb (cn_tree_root (node m cn) =? 0) then carafs_dtree_next (cn_tree_root (node m cn)) (cur_hash cur) (cur_seq cur) (cur_started cur)
  else dir_inline_next cn (cur_started cur) (cur_hash cur) (cur_seq cur).
(** The next entry and the advanced cursor. *)
Definition Carafs_DirNext (dir : Z) (cur : CarafsDirCursor) : ST mount (CarafsDirEntry * CarafsDirCursor) :=
  m ← st_get;
  assert! m_mounted m else CARA_EINVAL;
  cn ← get_dir dir;
  '(de, name) ← no_entry (with_cnode cn (dir_next cn cur));
  mret (mkEntry (de_cnode de) (de_type de) (de_name_len de) name, mkCursor (de_hash de) (de_seq de) true).
(** The length of the target, and the bytes copied into a buffer of [buflen] bytes. *)
Definition Carafs_SymlinkRead (cnode buflen : Z) : ST mount (Z * list Z) :=
  m ← st_get;
  assert! m_mounted m else CARA_EINVAL;
  cn ← carafs_cnode_get cnode;
  m ← st_get;
  if negb (cn_type (node m cn) =? CARAFS_T_SYMLINK) then carafs_cnode_put cn;; st_err CARA_EINVAL
  else
    let '(len, bytes) := match carafs_item_find (node m cn) CARAFS_ITEM_SYMLINK_TARGET with
                         | Some (p, len) => (len, sub p (Z.to_nat (if len <? buflen then len else buflen)) (node m cn))
                         | None => (0, [])
                         end in
    carafs_cnode_put cn;;
    mret (len, bytes).
End Dir.

(** * Entries *)

Abbreviation dent := (CarafsDirent * list Z)%type.
Definition enc_dent (d : dent) : list Z := dirent_bytes (fst d) (snd d).
Definition enc_dents (ds : list dent) : list Z := concat (map enc_dent ds).
Record dent_ok (d : dent) : Prop := {
  do_len : de_name_len (fst d) = Z.of_nat (length (snd d));
  do_name : 1 <= Z.of_nat (length (snd d)) <= CARAFS_NAME_MAX;
  do_hash : in_u64 (de_hash (fst d));
  do_cnode : in_u64 (de_cnode (fst d));
  do_type : in_u8 (de_type (fst d));
  do_seq : in_u8 (de_seq (fst d));
  do_rsvd : in_u8 (de_rsvd (fst d));
  do_bytes : bytes_ok (snd d)
}.
(** The key as one number. *)
Definition dkey (d : CarafsDirent) : Z := de_hash d * 2 ^ 8 + de_seq d.

Lemma enc_dents_app a b : enc_dents (a ++ b) = enc_dents a ++ enc_dents b.
Proof. unfold enc_dents. by rewrite map_app, concat_app. Qed.
Lemma dirent_stride_eq n : 0 <= n <= CARAFS_NAME_MAX -> dirent_stride n = 8 * ((20 + n + 7) / 8).
Proof. unfold CARAFS_NAME_MAX. intros H. unfold dirent_stride. apply align8_eq; unfold CARAFS_DIRENT_BASE; lia. Qed.
Lemma dirent_stride_range n : 0 <= n <= CARAFS_NAME_MAX -> 20 + n <= dirent_stride n <= 280.
Proof. intros H. rewrite dirent_stride_eq by done. unfold CARAFS_NAME_MAX in H. dmlia. Qed.
Lemma length_enc_dent d : dent_ok d -> Z.of_nat (length (enc_dent d)) = dirent_stride (de_name_len (fst d)).
Proof.
  intros H. pose proof (do_name d H) as Hn. pose proof (do_len d H) as El. unfold enc_dent, dirent_bytes. rewrite El, Nat2Z.id, !length_app, !length_le_put, length_take, length_zeros.
  pose proof (dirent_stride_range (Z.of_nat (length (snd d))) ltac:(lia)). unfold CARAFS_DIRENT_BASE. simpl length. lia.
Qed.
Lemma enc_dent_size d : dent_ok d -> 21 <= Z.of_nat (length (enc_dent d)) <= 280.
Proof.
  intros H. rewrite length_enc_dent, (do_len d H) by done. pose proof (do_name d H). pose proof (dirent_stride_range (Z.of_nat (length (snd d))) ltac:(lia)). lia.
Qed.
Lemma enc_dent_bytes d : dent_ok d -> bytes_ok (enc_dent d).
Proof.
  intros H. unfold enc_dent, dirent_bytes. apply Forall_app; split; [apply le_put_ok|]. apply Forall_app; split; [apply le_put_ok|].
  apply Forall_app; split; [repeat constructor; apply u8_range|]. apply Forall_app; split; [apply Forall_take, H|apply zeros_bytes_ok].
Qed.
Lemma enc_dents_bytes ds : Forall dent_ok ds -> bytes_ok (enc_dents ds).
Proof. induction 1; [constructor|]. apply Forall_app; split; [by apply enc_dent_bytes|done]. Qed.

(** The record at a position of the item. *)
Lemma dirent_at_sub blk at_ p o d Q : sub at_ (length p) blk = p -> p = o ++ enc_dent d ++ Q -> dent_ok d ->
  dirent_at blk (at_ + length o) = fst d /\ dirent_name blk (at_ + length o) = snd d.
Proof.
  intros Es Ep [H1 H2 H3 H4 H5 H6 H7 H8]. destruct d as [[h c t l s r] name]. cbn [fst snd de_hash de_cnode de_type de_name_len de_seq de_rsvd] in *. subst l.
  set (n := length name) in *. unfold CARAFS_NAME_MAX in *. pose proof (dirent_stride_range (Z.of_nat n) ltac:(unfold CARAFS_NAME_MAX; lia)) as Hst.
  set (pad := zeros (Z.to_nat (dirent_stride (Z.of_nat n)) - CARAFS_DIRENT_BASE - n)).
  assert (p = o ++ le_put 8 h ++ le_put 8 c ++ [t] ++ [Z.of_nat n] ++ [s] ++ [r] ++ name ++ pad ++ Q) as E.
  { rewrite Ep. unfold enc_dent, dirent_bytes. cbn [fst snd de_hash de_cnode de_type de_name_len de_seq de_rsvd].
    rewrite Nat2Z.id, (take_ge name) by (unfold n; lia). unfold u8. unfold in_u8 in *. rewrite !Z.mod_small by lia. rewrite <- !app_assoc. done. }
  assert (forall w i x A B, p = A ++ x ++ B -> length A = (length o + i)%nat -> length x = w -> rd w blk (at_ + length o + i) = le_get x) as Hrd.
  { intros w i x A B E1 E2 E3. unfold rd. rewrite <- Nat.add_assoc, <- E2, <- (sub_sub (length A) w at_ (length p)) by (rewrite E1, !length_app; lia).
    rewrite Es, E1. by rewrite (sub_at A x B). }
  assert (dirent_at blk (at_ + length o) = mkDe h c t (Z.of_nat n) s r) as Ed.
  { unfold dirent_at. f_equal.
    - rewrite <- (Nat.add_0_r (at_ + length o)). rewrite (Hrd 8%nat 0%nat (le_put 8 h) o _ E) by (rewrite ?length_le_put; lia). rewrite le_get_put. apply Z.mod_small, H3.
    - rewrite (Hrd 8%nat 8%nat (le_put 8 c) (o ++ le_put 8 h) ([t] ++ [Z.of_nat n] ++ [s] ++ [r] ++ name ++ pad ++ Q)); [|by rewrite E, <- !app_assoc|rewrite length_app, length_le_put; lia|by rewrite length_le_put].
      rewrite le_get_put. apply Z.mod_small, H4.
    - rewrite (Hrd 1%nat 16%nat [t] (o ++ le_put 8 h ++ le_put 8 c) ([Z.of_nat n] ++ [s] ++ [r] ++ name ++ pad ++ Q)); [simpl; lia|by rewrite E, <- !app_assoc|rewrite !length_app, !length_le_put; lia|done].
    - rewrite (Hrd 1%nat 17%nat [Z.of_nat n] (o ++ le_put 8 h ++ le_put 8 c ++ [t]) ([s] ++ [r] ++ name ++ pad ++ Q)); [simpl; lia|by rewrite E, <- !app_assoc|rewrite !length_app, !length_le_put; simpl; lia|done].
    - rewrite (Hrd 1%nat 18%nat [s] (o ++ le_put 8 h ++ le_put 8 c ++ [t] ++ [Z.of_nat n]) ([r] ++ name ++ pad ++ Q)); [simpl; lia|by rewrite E, <- !app_assoc|rewrite !length_app, !length_le_put; simpl; lia|done].
    - rewrite (Hrd 1%nat 19%nat [r] (o ++ le_put 8 h ++ le_put 8 c ++ [t] ++ [Z.of_nat n] ++ [s]) (name ++ pad ++ Q)); [simpl; lia|by rewrite E, <- !app_assoc|rewrite !length_app, !length_le_put; simpl; lia|done]. }
  split; [done|]. unfold dirent_name. rewrite Ed. cbn [de_name_len]. rewrite Nat2Z.id. unfold CARAFS_DIRENT_BASE.
  assert (length (o ++ le_put 8 h ++ le_put 8 c ++ [t] ++ [Z.of_nat n] ++ [s] ++ [r]) = length o + 20)%nat as El by (rewrite !length_app, !length_le_put; simpl; lia).
  rewrite <- Nat.add_assoc, <- (sub_sub _ n at_ (length p)); [|rewrite E, !length_app, !length_le_put; simpl; unfold n; lia].
  rewrite Es, E, <- El. rewrite <- (sub_at (o ++ le_put 8 h ++ le_put 8 c ++ [t] ++ [Z.of_nat n] ++ [s] ++ [r]) name (pad ++ Q) _ n eq_refl eq_refl) at 2.
  by rewrite <- !app_assoc.
Qed.

(** ** Walks *)

(** The entries before the first that [stop] holds of, and those from it on. *)
Section Span.
Context (stop : CarafsDirent -> list Z -> bool).
Fixpoint before (ds : list dent) : list dent := match ds with [] => [] | d :: ds => if stop (fst d) (snd d) then [] else d :: before ds end.
Fixpoint from (ds : list dent) : list dent := match ds with [] => [] | d :: ds => if stop (fst d) (snd d) then d :: ds else from ds end.
Lemma before_from ds : before ds ++ from ds = ds.
Proof. induction ds as [|d ds IH]; [done|]. cbn [before from]. destruct (stop _ _); [done|]. simpl. by rewrite IH. Qed.
Lemma before_not ds : Forall (fun d => stop (fst d) (snd d) = false) (before ds).
Proof. induction ds as [|d ds IH]; [constructor|]. cbn [before]. destruct (stop _ _) eqn:E; [constructor|by constructor]. Qed.
Lemma from_head ds d rest : from ds = d :: rest -> stop (fst d) (snd d) = true.
Proof. induction ds as [|d' ds IH]; [done|]. cbn [from]. destruct (stop (fst d') (snd d')) eqn:E; [by intros [= <- _]|done]. Qed.
Lemma from_nil ds : from ds = [] -> Forall (fun d => stop (fst d) (snd d) = false) ds.
Proof. intros E. rewrite <- (before_from ds), E, app_nil_r. apply before_not. Qed.
Lemma from_skip a b : Forall (fun d => stop (fst d) (snd d) = false) a -> from (a ++ b) = from b.
Proof. induction 1 as [|d a Hd _ IH]; [done|]. simpl. by rewrite Hd. Qed.
Lemma from_here d b : stop (fst d) (snd d) = true -> from (d :: b) = d :: b.
Proof. intros H. cbn [from]. by rewrite H. Qed.

Lemma walk_to_spec fuel blk at_ pre ds :
  let p := enc_dents (pre ++ ds) in
  sub at_ (length p) blk = p -> Forall dent_ok ds -> (length (enc_dents ds) < fuel)%nat ->
  walk_to stop fuel blk at_ (Z.of_nat (length p)) (Z.of_nat (length (enc_dents pre))) = Z.of_nat (length (enc_dents (pre ++ before ds))).
Proof.
  revert pre ds. induction fuel as [|fuel IH]; intros pre ds p Es Hok Hf; [lia|]. cbn [walk_to]. destruct ds as [|d ds].
  - rewrite (proj2 (Z.ltb_ge _ _)) by (unfold p; rewrite app_nil_r; lia). by rewrite app_nil_r.
  - apply Forall_cons in Hok as [Hd Hok]. pose proof (length_enc_dent d Hd) as El.
    pose proof (enc_dent_size d Hd) as Hst.
    assert (p = enc_dents pre ++ enc_dent d ++ enc_dents ds) as Ep by (unfold p; by rewrite enc_dents_app).
    change (enc_dents (d :: ds)) with (enc_dent d ++ enc_dents ds) in Hf. rewrite length_app in Hf.
    assert (length p = length (enc_dents pre) + length (enc_dent d) + length (enc_dents ds))%nat as Elp by (rewrite Ep, !length_app; lia).
    rewrite (proj2 (Z.ltb_lt _ _)) by lia. rewrite Nat2Z.id. destruct (dirent_at_sub blk at_ p (enc_dents pre) d (enc_dents ds) Es Ep Hd) as [-> ->].
    cbn [before]. destruct (stop (fst d) (snd d)); [by rewrite app_nil_r|].
    rewrite <- El. replace (Z.of_nat (length (enc_dents pre)) + Z.of_nat (length (enc_dent d))) with (Z.of_nat (length (enc_dents (pre ++ [d]))))
      by (rewrite enc_dents_app, length_app; unfold enc_dents at 2; simpl; rewrite app_nil_r; lia).
    unfold p in Es |- *. replace (pre ++ d :: ds) with ((pre ++ [d]) ++ ds) in Es |- * by (by rewrite <- app_assoc).
    rewrite (IH (pre ++ [d]) ds Es Hok ltac:(lia)). by rewrite <- app_assoc.
Qed.
Lemma item_walk_to_spec blk at_ ds : sub at_ (length (enc_dents ds)) blk = enc_dents ds -> Forall dent_ok ds ->
  item_walk_to stop blk at_ (Z.of_nat (length (enc_dents ds))) = Z.of_nat (length (enc_dents (before ds))).
Proof. intros Es Hok. unfold item_walk_to. rewrite Nat2Z.id. apply (walk_to_spec _ blk at_ [] ds); [done|done|lia]. Qed.
End Span.

(** ** Collision sequences *)

Lemma land_bit x k : 0 <= k -> negb (Z.land x (Z.shiftl 1 k) =? 0) = Z.testbit x k.
Proof.
  intros Hk. rewrite Z.shiftl_1_l. destruct (Z.testbit x k) eqn:E.
  - apply negb_true_iff, Z.eqb_neq. intros E0. apply (f_equal (fun y => Z.testbit y k)) in E0.
    by rewrite Z.land_spec, Z.bits_0, E, Z.pow2_bits_true in E0.
  - apply negb_false_iff, Z.eqb_eq. apply Z.bits_inj'. intros i Hi. rewrite Z.land_spec, Z.bits_0, Z.pow2_bits_eqb by done.
    destruct (Z.eqb_spec k i) as [->|]; [by rewrite E|apply andb_false_r].
Qed.
Lemma mark_marked used s t : length used = 32%nat -> bytes_ok used -> in_u8 s -> in_u8 t ->
  seq_marked (mark_seq used s) t = (s =? t) || seq_marked used t.
Proof.
  unfold in_u8. intros Hl Hb Hs Ht. unfold seq_marked, mark_seq. change 7 with (Z.ones 3). rewrite !Z.land_ones, !Z.shiftr_div_pow2 by lia.
  rewrite !land_bit by dmlia. rewrite !nth_z_nth, !nth_lookup. pose proof (Z.div_mod s (2 ^ 3)) as Ds. pose proof (Z.div_mod t (2 ^ 3)) as Dt.
  destruct (decide (Z.to_nat (s / 2 ^ 3) = Z.to_nat (t / 2 ^ 3))) as [E|Hne].
  - rewrite E, list_lookup_alter_eq. assert (Z.to_nat (t / 2 ^ 3) < length used)%nat as Hi by (rewrite Hl; dmlia).
    destruct (lookup_lt_is_Some_2 used _ Hi) as [b Eb]. rewrite Eb. simpl. pose proof (Forall_lookup_1 in_u8 used _ b Hb Eb) as Hbr.
    assert (u8 (Z.shiftl 1 (s mod 2 ^ 3)) = 2 ^ (s mod 2 ^ 3)) as ->.
    { rewrite Z.shiftl_1_l. apply u8_small. unfold in_u8. split; [apply Z.pow_nonneg; lia|]. apply Z.pow_lt_mono_r; dmlia. }
    unfold u8. rewrite Z.mod_pow2_bits_low by dmlia. rewrite Z.lor_spec, Z.pow2_bits_eqb by dmlia.
    rewrite orb_comm. f_equal. apply eq_true_iff_eq. rewrite !Z.eqb_eq. dmlia.
  - rewrite list_lookup_alter_ne by done. rewrite (proj2 (Z.eqb_neq s t)); [done|]. intros ->. done.
Qed.
Lemma mark_keeps used s : length used = 32%nat -> bytes_ok used -> length (mark_seq used s) = 32%nat /\ bytes_ok (mark_seq used s).
Proof.
  intros Hl Hb. unfold mark_seq. split; [by rewrite length_alter|]. apply Forall_alter; [done|]. intros. apply u8_range.
Qed.
Lemma no_seqs_none t : seq_marked no_seqs t = false.
Proof.
  unfold seq_marked, no_seqs, zeros. rewrite nth_z_nth, nth_lookup. replace (default 0 _) with 0; [done|].
  destruct (replicate 32 0 !! _) as [x|] eqn:E; [|done]. by apply lookup_replicate in E as [-> _].
Qed.
Lemma free_seq_from_spec fuel used fs : 0 <= fs <= 256 -> 256 - fs <= Z.of_nat fuel -> let r := free_seq_from fuel used fs in
  fs <= r <= 256 /\ (forall t, fs <= t < r -> seq_marked used t = true) /\ (r < 256 -> seq_marked used r = false).
Proof.
  revert fs. induction fuel as [|fuel IH]; intros fs H1 H2 r.
  { subst r. cbn [free_seq_from]. split_and!; [lia..|intros; lia|lia]. }
  subst r. cbn [free_seq_from]. destruct (Z.ltb_spec fs 256) as [Hlt|Hge]; cbn [andb].
  2:{ split_and!; [lia..|intros; lia|lia]. }
  destruct (seq_marked used fs) eqn:E; [|split_and!; [lia..|intros; lia|done]].
  destruct (IH (fs + 1) ltac:(lia) ltac:(lia)) as (I1 & I2 & I3). split_and!; [lia..| |done].
  intros t Ht. destruct (decide (t = fs)) as [->|]; [done|apply I2; lia].
Qed.
Lemma free_seq_spec used :
  match free_seq used with
  | Ok s => in_u8 s /\ seq_marked used s = false /\ forall t, 0 <= t < s -> seq_marked used t = true
  | Err e => e = CARA_EOVERFLOW /\ forall t, in_u8 t -> seq_marked used t = true
  end.
Proof.
  unfold free_seq. destruct (free_seq_from_spec 256 used 0 ltac:(lia) ltac:(lia)) as (H1 & H2 & H3).
  destruct (Z.leb_spec 256 (free_seq_from 256 used 0)) as [Hle|Hlt]; unfold in_u8.
  - split; [done|]. intros t Ht. apply H2. lia.
  - split_and!; [lia..|auto|]. intros t Ht. apply H2. lia.
Qed.

Definition hash_seq (h t : Z) (d : dent) : bool := (de_hash (fst d) =? h) && (de_seq (fst d) =? t).
Lemma probe_walk_spec fuel blk at_ h name pre ds used found :
  let p := enc_dents (pre ++ ds) in
  sub at_ (length p) blk = p -> Forall dent_ok ds -> (length (enc_dents ds) < fuel)%nat -> length used = 32%nat -> bytes_ok used ->
  let r := probe_walk fuel blk at_ (Z.of_nat (length p)) h name (Z.of_nat (length (enc_dents pre))) used found in
  (forall t, in_u8 t -> seq_marked (fst r) t = seq_marked used t || existsb (hash_seq h t) ds) /\
  snd r = found || existsb (fun d => has_name h name (fst d) (snd d)) ds.
Proof.
  revert pre ds used found. induction fuel as [|fuel IH]; intros pre ds used found p Es Hok Hf Hl Hb r; [lia|]. unfold r. clear r. cbn [probe_walk]. destruct ds as [|d ds].
  - rewrite (proj2 (Z.ltb_ge _ _)) by (unfold p; rewrite app_nil_r; lia). cbn [fst snd existsb]. split; [intros; by rewrite orb_false_r|by rewrite orb_false_r].
  - apply Forall_cons in Hok as [Hd Hok]. pose proof (length_enc_dent d Hd) as El.
    pose proof (enc_dent_size d Hd) as Hst.
    assert (p = enc_dents pre ++ enc_dent d ++ enc_dents ds) as Ep by (unfold p; by rewrite enc_dents_app).
    change (enc_dents (d :: ds)) with (enc_dent d ++ enc_dents ds) in Hf. rewrite length_app in Hf.
    assert (length p = length (enc_dents pre) + length (enc_dent d) + length (enc_dents ds))%nat as Elp by (rewrite Ep, !length_app; lia).
    rewrite (proj2 (Z.ltb_lt _ _)) by lia. rewrite Nat2Z.id. destruct (dirent_at_sub blk at_ p (enc_dents pre) d (enc_dents ds) Es Ep Hd) as [-> ->].
    rewrite <- El. replace (Z.of_nat (length (enc_dents pre)) + Z.of_nat (length (enc_dent d))) with (Z.of_nat (length (enc_dents (pre ++ [d]))))
      by (rewrite enc_dents_app, length_app; unfold enc_dents at 2; simpl; rewrite app_nil_r; lia).
    unfold p in Es |- *. replace (pre ++ d :: ds) with ((pre ++ [d]) ++ ds) in Es |- * by (by rewrite <- app_assoc). cbn [existsb]. unfold hash_seq at 1, has_name at 1.
    destruct (Z.eqb_spec (de_hash (fst d)) h) as [Eh|Eh]; cbn [andb].
    + destruct (mark_keeps used (de_seq (fst d)) Hl Hb) as [Hl' Hb'].
      destruct (IH (pre ++ [d]) ds (mark_seq used (de_seq (fst d))) (found || Carafs_NameEq (snd d) name) Es Hok ltac:(lia) Hl' Hb') as [I1 I2].
      split; [|by rewrite I2, orb_assoc]. intros t Ht. rewrite I1, mark_marked by (done || apply Hd). rewrite (orb_comm (_ =? t)). by rewrite orb_assoc.
    + by apply (IH (pre ++ [d]) ds used found Es Hok ltac:(lia)).
Qed.

(** * The directory a block holds *)

Definition dname (d : dent) : list Z := Carafs_FoldByte <$> snd d.
Record dir_rep (bs : nat) (blk : list Z) (its : items) (ds : list dent) : Prop := {
  dr_items : items_rep bs blk its;
  dr_recs : item_get its CARAFS_ITEM_INLINE_DIRENTS = None /\ ds = [] \/ item_get its CARAFS_ITEM_INLINE_DIRENTS = Some (enc_dents ds);
  dr_ok : Forall dent_ok ds;
  dr_sorted : StronglySorted (fun a b => dkey (fst a) < dkey (fst b)) ds;
  dr_hash : Forall (fun d => de_hash (fst d) = Carafs_NameHash (snd d)) ds;
  dr_nodup : NoDup (map dname ds)
}.
(** What it means: a map from folded names to cnodes with their types. *)
Definition dir_map (ds : list dent) : gmap (list Z) (Z * Z) := list_to_map (map (fun d => (dname d, (de_cnode (fst d), de_type (fst d)))) ds).

Lemma find_dents bs blk its ds : dir_rep bs blk its ds ->
  match carafs_item_find blk CARAFS_ITEM_INLINE_DIRENTS with
  | None => ds = [] /\ item_get its CARAFS_ITEM_INLINE_DIRENTS = None
  | Some (at_, plen) => plen = Z.of_nat (length (enc_dents ds)) /\ sub at_ (length (enc_dents ds)) blk = enc_dents ds /\
      item_get its CARAFS_ITEM_INLINE_DIRENTS = Some (enc_dents ds) /\ (CARAFS_CNODE_ITEMS_OFF + 4 <= at_)%nat /\ (at_ + length (enc_dents ds) <= bs)%nat
  end.
Proof.
  intros [Hrep Hr _ _ _ _]. pose proof (find_spec bs blk its CARAFS_ITEM_INLINE_DIRENTS Hrep) as Hf. destruct Hr as [[E Ex]|E]; rewrite E in Hf.
  - rewrite Hf. done.
  - destruct Hf as (at_ & -> & F2 & [F3 F4] & _). done.
Qed.
Lemma dir_map_some ds n v : NoDup (map dname ds) -> dir_map ds !! n = Some v <-> exists d, d ∈ ds /\ dname d = n /\ (de_cnode (fst d), de_type (fst d)) = v.
Proof.
  intros Hn. unfold dir_map. rewrite <- elem_of_list_to_map by (by rewrite <- list_fmap_compose). rewrite list_elem_of_fmap. split.
  - intros (r & [= -> ->] & Hr). by exists r.
  - intros (r & Hr & <- & <-). by exists r.
Qed.
Lemma named_fold d name : de_hash (fst d) = Carafs_NameHash (snd d) ->
  has_name (Carafs_NameHash name) name (fst d) (snd d) = true <-> dname d = Carafs_FoldByte <$> name.
Proof.
  intros Eh. unfold has_name, dname. rewrite andb_true_iff, name_eq_fold, Z.eqb_eq, Eh. split; [tauto|]. intros E. split; [|done]. by rewrite !name_hash_fold, E.
Qed.

(** ** Looking *)

Lemma dirents_first_spec bs blk its ds stop : dir_rep bs blk its ds -> dirents_first stop blk = head (from stop ds).
Proof.
  intros Hd. pose proof (find_dents bs blk its ds Hd) as Hf. unfold dirents_first. destruct (carafs_item_find blk _) as [[at_ plen]|]; [|by destruct Hf as [-> _]].
  destruct Hf as (-> & Hs & _). pose proof (dr_ok _ _ _ _ Hd) as Hok. rewrite (item_walk_to_spec stop blk at_ ds Hs Hok).
  pose proof (before_from stop ds) as Ebf. destruct (from stop ds) as [|d rest] eqn:Ef.
  - rewrite app_nil_r in Ebf. rewrite Ebf, Z.ltb_irrefl. done.
  - assert (dent_ok d) as Hdo by (rewrite <- Ebf in Hok; apply Forall_app in Hok as [_ Hok]; by apply Forall_cons in Hok as [Hok _]).
    assert (enc_dents ds = enc_dents (before stop ds) ++ enc_dent d ++ enc_dents rest) as Ee by (by rewrite <- Ebf at 1; rewrite enc_dents_app).
    pose proof (enc_dent_size d Hdo) as Hst. rewrite (proj2 (Z.ltb_lt _ _)) by (rewrite Ee, !length_app; lia).
    rewrite Nat2Z.id. destruct (dirent_at_sub blk at_ _ _ d _ Hs Ee Hdo) as [-> ->]. by destruct d.
Qed.
Lemma dirents_probe_spec bs blk its ds h name : dir_rep bs blk its ds -> let r := dirents_probe h name blk in
  (forall t, in_u8 t -> seq_marked (fst r) t = existsb (hash_seq h t) ds) /\ snd r = existsb (fun d => has_name h name (fst d) (snd d)) ds.
Proof.
  intros Hd r. pose proof (find_dents bs blk its ds Hd) as Hf. unfold r, dirents_probe. destruct (carafs_item_find blk _) as [[at_ plen]|].
  - destruct Hf as (-> & Hs & _). rewrite Nat2Z.id.
    destruct (probe_walk_spec (S (length (enc_dents ds))) blk at_ h name [] ds no_seqs false Hs (dr_ok _ _ _ _ Hd) ltac:(lia) eq_refl (zeros_bytes_ok 32)) as [H1 H2].
    split; [|done]. intros t Ht. etransitivity; [by apply H1|]. by rewrite no_seqs_none.
  - destruct Hf as [-> _]. split; [intros; apply no_seqs_none|done].
Qed.
Lemma dir_find_spec bs blk its ds name : dir_rep bs blk its ds ->
  match dirents_first (has_name (Carafs_NameHash name) name) blk with
  | Some d => d ∈ ds /\ dname d = Carafs_FoldByte <$> name /\ dir_map ds !! (Carafs_FoldByte <$> name) = Some (de_cnode (fst d), de_type (fst d))
  | None => dir_map ds !! (Carafs_FoldByte <$> name) = None
  end.
Proof.
  intros Hd. rewrite (dirents_first_spec _ _ _ _ _ Hd). pose proof (dr_hash _ _ _ _ Hd) as Hh. pose proof (dr_nodup _ _ _ _ Hd) as Hn. set (stop := has_name _ name).
  destruct (from stop ds) as [|d rest] eqn:Ef; cbn [head].
  - apply eq_None_not_Some. intros [v (d & Hin & En & _)%dir_map_some]; [|done]. pose proof (from_nil stop ds Ef) as Hno.
    rewrite Forall_forall in Hno, Hh. apply named_fold in En; [|by apply Hh]. specialize (Hno d Hin). unfold stop in Hno. congruence.
  - assert (d ∈ ds) as Hin by (rewrite <- (before_from stop ds), Ef; set_solver).
    rewrite Forall_forall in Hh. assert (dname d = Carafs_FoldByte <$> name) as En by (apply named_fold; [by apply Hh|by apply (from_head stop ds d rest)]).
    split_and!; [done|done|]. apply dir_map_some; [done|]. by exists d.
Qed.

(** ** Keys *)

Lemma past_spec h s d n : in_u8 (de_seq d) -> in_u8 s -> past h s d n = (h * 2 ^ 8 + s <? dkey d).
Proof.
  unfold in_u8. intros Hd Hs. unfold past, dkey_cmp, dkey. apply eq_true_iff_eq. rewrite (Z.ltb_lt (h * 2 ^ 8 + s)).
  destruct (Z.eqb_spec (de_hash d) h) as [->|]; cbn [negb].
  - destruct (Z.eqb_spec (de_seq d) s) as [->|]; cbn [negb]; [split; intros; lia|]. destruct (Z.ltb_spec (de_seq d) s); split; intros; lia.
  - destruct (Z.ltb_spec (de_hash d) h); split; intros; lia.
Qed.
Lemma keyed_spec h s d n : in_u8 (de_seq d) -> in_u8 s -> keyed h s d n = true <-> dkey d = h * 2 ^ 8 + s.
Proof. unfold in_u8. intros Hd Hs. unfold keyed, dkey. rewrite andb_true_iff, !Z.eqb_eq. lia. Qed.
Abbreviation sorted := (StronglySorted (fun a b : dent => dkey (fst a) < dkey (fst b))).
Lemma sorted_app a b : sorted (a ++ b) <-> sorted a /\ sorted b /\ forall x y, x ∈ a -> y ∈ b -> dkey (fst x) < dkey (fst y).
Proof.
  induction a as [|x a IH]; simpl.
  - split; [intros H; split_and!; [constructor|done|set_solver]|by intros (_ & H & _)].
  - split.
    + intros [H1 H2]%StronglySorted_inv. apply IH in H1 as (I1 & I2 & I3). rewrite Forall_app in H2. destruct H2 as [H2 H3]. split_and!; [by constructor|done|].
      rewrite Forall_forall in H3. intros x' y [->|Hx]%elem_of_cons Hy; [by apply H3|by apply I3].
    + intros ([H1 H2]%StronglySorted_inv & H3 & H4). constructor; [apply IH; split_and!; [done|done|set_solver]|]. apply Forall_app; split; [done|].
      apply Forall_forall. intros y Hy. apply H4; [set_solver|done].
Qed.

(** The new entry keeps the order. *)
Lemma dents_insert_sorted ds d (key := dkey (fst d)) : Forall dent_ok ds -> dent_ok d -> sorted ds -> Forall (fun x => dkey (fst x) <> key) ds ->
  let stop := past (de_hash (fst d)) (de_seq (fst d)) in sorted (before stop ds ++ d :: from stop ds).
Proof.
  intros Hok Hd Hs Hne stop. assert (forall x, x ∈ ds -> stop (fst x) (snd x) = (key <? dkey (fst x))) as Hp.
  { intros x Hx. rewrite Forall_forall in Hok. apply past_spec; [by apply Hok|by apply Hd]. }
  pose proof (before_from stop ds) as Ebf. pose proof (before_not stop ds) as Hbn. rewrite Forall_forall in Hbn, Hne.
  pose proof Hs as Hs0. rewrite <- Ebf in Hs0. apply sorted_app in Hs0 as (S1 & S2 & S3). apply sorted_app.
  assert (forall x, x ∈ from stop ds -> key < dkey (fst x)) as Hf.
  { destruct (from stop ds) as [|d0 rest] eqn:Ef; [set_solver|]. assert (d0 ∈ ds) as Hin by (rewrite <- Ebf; set_solver).
    pose proof (from_head stop ds d0 rest Ef) as Hst. rewrite Hp in Hst by done. apply Z.ltb_lt in Hst. apply StronglySorted_inv in S2 as [_ S2]. rewrite Forall_forall in S2.
    intros x [->|Hx]%elem_of_cons; [done|]. specialize (S2 x Hx). lia. }
  split_and!; [done| |].
  - constructor; [done|]. by apply Forall_forall.
  - intros x y Hx [->|Hy]%elem_of_cons; [|by apply S3]. assert (x ∈ ds) as Hin by (rewrite <- Ebf; set_solver). specialize (Hbn x Hx). cbv beta in Hbn.
    rewrite Hp in Hbn by done. apply Z.ltb_ge in Hbn. specialize (Hne x Hin). cbv beta in Hne. unfold key in *. lia.
Qed.

(** ** Changing *)

Abbreviation dents_others its its' := (delete CARAFS_ITEM_INLINE_DIRENTS (items_map its') = delete CARAFS_ITEM_INLINE_DIRENTS (items_map its)).

Lemma have_dents bs blk its ds : dir_rep bs blk its ds ->
  match carafs_item_find blk CARAFS_ITEM_INLINE_DIRENTS with Some (_, len) => len | None => 0 end = Z.of_nat (length (enc_dents ds)) /\
  default [] (item_get its CARAFS_ITEM_INLINE_DIRENTS) = enc_dents ds /\ Z.of_nat (length (enc_dents ds)) <= 65172.
Proof.
  intros Hd. pose proof (find_dents bs blk its ds Hd) as Hf. pose proof (ir_bs _ _ _ (dr_items _ _ _ _ Hd)) as Hbs. destruct (carafs_item_find blk _) as [[at_ plen]|].
  - destruct Hf as (-> & _ & -> & H1 & H2). unfold CARAFS_CNODE_ITEMS_OFF in *. split_and!; [done|done|lia].
  - destruct Hf as [-> ->]. done.
Qed.

Lemma dirents_insert_spec bs blk its ds d :
  dir_rep bs blk its ds -> dent_ok d -> de_hash (fst d) = Carafs_NameHash (snd d) -> Forall (fun x => dkey (fst x) <> dkey (fst d)) ds -> dname d ∉ map dname ds ->
  let stop := past (de_hash (fst d)) (de_seq (fst d)) in
  let ds' := before stop ds ++ d :: from stop ds in
  let its' := item_set its CARAFS_ITEM_INLINE_DIRENTS (enc_dents ds') in
  match dirents_insert (Z.of_nat bs) (fst d) (snd d) blk with
  | Some blk' => dir_rep bs blk' its' ds' /\ header_kept blk blk'
  | None => (bs < CARAFS_CNODE_ITEMS_OFF + items_size its')%nat
  end.
Proof.
  intros Hd Hdo Hh Hk Hnn stop ds' its'. pose proof Hd as [Hrep _ Hok Hs Hhs Hn]. destruct (have_dents bs blk its ds Hd) as (Ehave & Eget & Hhave).
  pose proof (length_enc_dent d Hdo) as EN. pose proof (enc_dent_size d Hdo) as Hst.
  set (N := enc_dent d) in *. set (B := enc_dents (before stop ds)). set (F := enc_dents (from stop ds)).
  assert (enc_dents ds = B ++ F) as EBF by (unfold B, F; by rewrite <- enc_dents_app, before_from).
  assert (enc_dents ds' = B ++ N ++ F) as Eds' by (unfold ds'; by rewrite enc_dents_app).
  assert (length (enc_dents ds) = length B + length F)%nat as Elds by (by rewrite EBF, length_app).
  unfold dirents_insert. rewrite Ehave. cbv zeta. rewrite <- EN. set (n := (length (enc_dents ds) + length N)%nat).
  assert (in_u16 (Z.of_nat n)) as H16 by (unfold in_u16, n; lia).
  replace (u16 (Z.of_nat (length (enc_dents ds)) + Z.of_nat (length N))) with (Z.of_nat n) by (unfold u16, in_u16, n in *; rewrite Z.mod_small; lia).
  pose proof (gap_opened bs blk its CARAFS_ITEM_INLINE_DIRENTS B F N Hrep ltac:(done)) as Hg. rewrite <- EBF in Hg. unfold its'. rewrite Eds'.
  specialize (Hg Eget H16 (enc_dents_bytes ds Hok) (enc_dent_bytes d Hdo)).
  fold n in Hg. destruct (carafs_item_resize _ _ _ blk) as [[blk1 at_]|e]; [|done]. destruct Hg as [S1 [R3 K3]].
  change (past (de_hash (fst d)) (de_seq (fst d))) with stop. rewrite (item_walk_to_spec stop blk1 at_ ds S1 Hok). fold B.
  replace (Z.to_nat (u32 (Z.of_nat (length (enc_dents ds)) - Z.of_nat (length B)))) with (length F) by (unfold u32; rewrite Z.mod_small; lia).
  rewrite <- Nat2Z.inj_add, !Nat2Z.id. change (dirent_bytes (fst d) (snd d)) with N. split; [|done].
  assert (ds ≡ₚ before stop ds ++ from stop ds) as Hperm by (by rewrite before_from).
  assert (ds' ≡ₚ d :: ds) as Hp' by (unfold ds'; rewrite <- Permutation_middle; by rewrite <- Hperm). split.
  - done.
  - right. rewrite items_map_get, items_map_set, lookup_insert_eq. by rewrite Eds'.
  - rewrite Hp'. by constructor.
  - by apply dents_insert_sorted.
  - rewrite Hp'. by constructor.
  - rewrite Hp'. simpl. by apply NoDup_cons.
Qed.

(** The first entry with the key of [d] is [d]. *)
Lemma from_keyed ds d : Forall dent_ok ds -> sorted ds -> d ∈ ds -> exists rest, from (keyed (de_hash (fst d)) (de_seq (fst d))) ds = d :: rest.
Proof.
  intros Hok Hs Hin. set (stop := keyed _ _). assert (forall x, x ∈ ds -> stop (fst x) (snd x) = true <-> dkey (fst x) = dkey (fst d)) as Hp.
  { intros x Hx. rewrite Forall_forall in Hok. apply keyed_spec; by apply Hok. }
  pose proof (before_from stop ds) as Ebf. destruct (from stop ds) as [|d0 rest] eqn:Ef.
  - pose proof (from_nil stop ds Ef) as Hno. rewrite Forall_forall in Hno. specialize (Hno d Hin). cbv beta in Hno.
    assert (stop (fst d) (snd d) = true) by (by apply Hp). congruence.
  - assert (d0 ∈ ds) as Hin0 by (rewrite <- Ebf; set_solver). pose proof (from_head stop ds d0 rest Ef) as Hk. apply (Hp d0 Hin0) in Hk.
    exists rest. f_equal. rewrite <- Ebf in Hs, Hin. apply sorted_app in Hs as (_ & [_ S2]%StronglySorted_inv & S3). rewrite Forall_forall in S2.
    apply elem_of_app in Hin as [Hin|[->|Hin]%elem_of_cons]; [|done|].
    + specialize (S3 d d0 Hin ltac:(set_solver)). lia.
    + specialize (S2 d Hin). cbv beta in S2. lia.
Qed.
Lemma dirents_remove_spec bs blk its ds d : dir_rep bs blk its ds -> d ∈ ds ->
  exists blk' its' a b, ds = a ++ d :: b /\ dirents_remove (Z.of_nat bs) (de_hash (fst d)) (de_seq (fst d)) blk = (Ok tt, blk') /\
    dir_rep bs blk' its' (a ++ b) /\ dents_others its its' /\ header_kept blk blk'.
Proof.
  intros Hd Hin. pose proof Hd as [Hrep _ Hok Hs Hhs Hn]. pose proof (find_dents bs blk its ds Hd) as Hf. set (stop := keyed (de_hash (fst d)) (de_seq (fst d))).
  destruct (from_keyed ds d Hok Hs Hin) as [b Ef]. fold stop in Ef. set (a := before stop ds).
  assert (ds = a ++ d :: b) as Eds by (by rewrite <- (before_from stop ds), Ef at 1).
  destruct (carafs_item_find blk CARAFS_ITEM_INLINE_DIRENTS) as [[at_ plen]|] eqn:Efi; [|destruct Hf as [-> _]; set_solver]. destruct Hf as (-> & F2 & F3 & F4 & F5).
  assert (dent_ok d) as Hdo by (rewrite Forall_forall in Hok; by apply Hok). pose proof (length_enc_dent d Hdo) as El.
  pose proof (enc_dent_size d Hdo) as Hpos.
  pose proof (ir_bs _ _ _ Hrep) as [_ Hbs]. assert (enc_dents ds = enc_dents a ++ enc_dent d ++ enc_dents b) as Ep by (by rewrite Eds at 1; rewrite enc_dents_app).
  destruct (dirent_at_sub blk at_ _ _ d _ F2 Ep Hdo) as [Hat _]. assert (length (enc_dents ds) = length (enc_dents a) + length (enc_dent d) + length (enc_dents b))%nat as Elp by (rewrite Ep, !length_app; lia).
  unfold dirents_remove. rewrite Efi. cbv zeta. fold stop. rewrite (item_walk_to_spec stop blk at_ ds F2 Hok). fold a. rewrite Nat2Z.id, Hat, <- El.
  rewrite (proj2 (Z.leb_gt _ _)) by lia. rewrite <- Nat2Z.inj_add, Nat2Z.id.
  replace (Z.to_nat (u32 (Z.of_nat (length (enc_dents ds)) - Z.of_nat (length (enc_dents a)) - Z.of_nat (length (enc_dent d))))) with (length (enc_dents b)) by (unfold u32; rewrite Z.mod_small; lia).
  replace (u32 (Z.of_nat (length (enc_dents ds)) - Z.of_nat (length (enc_dent d)))) with (Z.of_nat (length (enc_dents (a ++ b)))) by (unfold u32; rewrite enc_dents_app, length_app, Z.mod_small; lia).
  rewrite Ep in F3, Efi. destruct (gap_closed bs blk its CARAFS_ITEM_INLINE_DIRENTS (enc_dents a) (enc_dent d) (enc_dents b) at_ Hrep ltac:(done) F3 Efi) as (q & _ & Hq & R1 & K1).
  rewrite <- enc_dents_app in Hq. set (blk1 := memmove _ _ _ _) in *. set (its1 := item_set its _ q) in *.
  assert (ds ≡ₚ d :: (a ++ b)) as Hperm by (by rewrite Eds, <- Permutation_middle). rewrite Hperm in Hok, Hhs, Hn. simpl in Hn. rewrite Forall_cons in Hok, Hhs.
  apply NoDup_cons in Hn as [_ Hn]. assert (sorted (a ++ b)) as Hs'.
  { rewrite Eds in Hs. apply sorted_app in Hs as (S1 & [S2 _]%StronglySorted_inv & S3). apply sorted_app. split_and!; [done|done|set_solver]. }
  assert (item_get its1 CARAFS_ITEM_INLINE_DIRENTS = Some q) as G1 by (unfold its1; by rewrite items_map_get, items_map_set, lookup_insert_eq).
  destruct (Z.eqb_spec (Z.of_nat (length (enc_dents (a ++ b)))) 0) as [E0|E0].
  - destruct (remove_spec bs blk1 its1 CARAFS_ITEM_INLINE_DIRENTS R1) as [R2 K2]. exists (carafs_item_remove CARAFS_ITEM_INLINE_DIRENTS blk1), (item_del its1 CARAFS_ITEM_INLINE_DIRENTS), a, b.
    pose proof (items_map_del its1 CARAFS_ITEM_INLINE_DIRENTS (ir_nodup _ _ _ R1)) as Emd. split_and!; [done|done| | |intros w off H1 H2; by rewrite K2, K1].
    + split; [done| |apply Hok|done|apply Hhs|done]. left. split; [by rewrite items_map_get, Emd, lookup_delete_eq|].
      destruct (a ++ b) as [|x l]; [done|]. destruct Hok as [_ Hok]. apply Forall_cons in Hok as [Hx _]. pose proof (enc_dent_size x Hx).
      change (enc_dents (x :: l)) with (enc_dent x ++ enc_dents l) in E0. rewrite length_app in E0. lia.
    + rewrite Emd, delete_delete_eq. unfold its1. by rewrite items_map_set, delete_insert_eq.
  - destruct (item_cut bs blk1 its1 CARAFS_ITEM_INLINE_DIRENTS q (enc_dents (a ++ b)) R1 ltac:(done) G1 Hq) as (blk2 & np & -> & R2 & K2).
    exists blk2, (item_set its1 CARAFS_ITEM_INLINE_DIRENTS (enc_dents (a ++ b))), a, b. split_and!; [done|done| | |intros w off H1 H2; by rewrite K2, K1].
    + split; [done| |apply Hok|done|apply Hhs|done]. right. by rewrite items_map_get, items_map_set, lookup_insert_eq.
    + unfold its1. by rewrite items_map_set, delete_insert_eq, items_map_set, delete_insert_eq.
Qed.

(** ** The map *)

Lemma dir_map_insert ds ds' d : NoDup (map dname ds) -> dname d ∉ map dname ds -> ds' ≡ₚ d :: ds ->
  dir_map ds' = <[dname d := (de_cnode (fst d), de_type (fst d))]> (dir_map ds).
Proof.
  intros Hn Hnn Hp. assert (NoDup (map dname ds')) as Hn' by (rewrite Hp; simpl; by apply NoDup_cons).
  apply map_eq. intros n. apply option_eq. intros v. rewrite lookup_insert_Some, !dir_map_some by done. setoid_rewrite Hp. setoid_rewrite elem_of_cons. split.
  - intros (x & [->|Hx] & <- & <-); [by left|right]. split; [|by exists x]. intros E. apply Hnn. rewrite E. apply list_elem_of_fmap. by exists x.
  - intros [[<- <-]|(Hne & x & Hx & <- & <-)]; [by exists d; auto|by exists x; auto].
Qed.
Lemma dir_map_delete ds ds' d : NoDup (map dname ds) -> ds ≡ₚ d :: ds' -> dir_map ds' = delete (dname d) (dir_map ds).
Proof.
  intros Hn Hp. assert (NoDup (map dname (d :: ds'))) as Hn2 by (by rewrite <- Hp). simpl in Hn2. apply NoDup_cons in Hn2 as [Hnn Hn'].
  apply map_eq. intros n. apply option_eq. intros v. rewrite lookup_delete_Some, !dir_map_some by done. setoid_rewrite Hp. setoid_rewrite elem_of_cons. split.
  - intros (x & Hx & <- & <-). split; [|by exists x; auto]. intros E. apply Hnn. rewrite E. apply list_elem_of_fmap. by exists x.
  - intros (Hne & x & [->|Hx] & <- & <-); [done|by exists x].
Qed.
Lemma existsb_named ds name : Forall (fun d => de_hash (fst d) = Carafs_NameHash (snd d)) ds -> NoDup (map dname ds) ->
  existsb (fun d => has_name (Carafs_NameHash name) name (fst d) (snd d)) ds = bool_decide (is_Some (dir_map ds !! (Carafs_FoldByte <$> name))).
Proof.
  intros Hh Hn. rewrite Forall_forall in Hh. apply eq_true_iff_eq. rewrite existsb_exists, bool_decide_eq_true. split.
  - intros (d & Hin%list_elem_of_In & E). apply named_fold in E; [|by apply Hh]. eexists. apply dir_map_some; [done|]. by exists d.
  - intros [v (d & Hin & E & _)%dir_map_some]; [|done]. exists d. split; [by apply list_elem_of_In|]. apply named_fold; [by apply Hh|done].
Qed.
Lemma name_hash_range name : in_u64 (Carafs_NameHash name).
Proof.
  unfold Carafs_NameHash. assert (in_u64 14695981039346656037) as H by (unfold in_u64; lia). revert H. generalize 14695981039346656037.
  induction name as [|b name IH]; intros h H; [done|]. cbn [foldl]. apply IH, u64_range.
Qed.
Lemma name_valid_len name : Carafs_NameValid name = true -> 1 <= Z.of_nat (length name) <= CARAFS_NAME_MAX.
Proof. unfold Carafs_NameValid. destruct (_ || _) eqn:E; [done|]. intros _. zbool. lia. Qed.

(** The entry [dir_link_new] makes. *)
Abbreviation new_dirent name child type seq := (mkDe (Carafs_NameHash name) child type (u8 (Z.of_nat (length name))) seq 0).
Lemma new_dent_ok name child type seq : Carafs_NameValid name = true -> bytes_ok name -> in_u64 child -> in_u8 type -> in_u8 seq ->
  dent_ok (new_dirent name child type seq, name).
Proof.
  intros Hv Hb Hc Ht Hs. pose proof (name_valid_len name Hv) as Hl. split; cbn [fst snd de_hash de_cnode de_type de_name_len de_seq de_rsvd]; try done.
  - apply u8_small. unfold CARAFS_NAME_MAX in Hl. unfold in_u8. lia.
  - apply name_hash_range.
Qed.
(** An insert under the sequence the probe found. *)
Lemma dir_add_spec bs blk its ds name child type seq :
  dir_rep bs blk its ds -> Carafs_NameValid name = true -> bytes_ok name -> in_u64 child -> in_u8 type ->
  dir_map ds !! (Carafs_FoldByte <$> name) = None -> in_u8 seq -> existsb (hash_seq (Carafs_NameHash name) seq) ds = false ->
  exists ds', dir_map ds' = <[Carafs_FoldByte <$> name := (child, type)]> (dir_map ds) /\
    let its' := item_set its CARAFS_ITEM_INLINE_DIRENTS (enc_dents ds') in
    match dirents_insert (Z.of_nat bs) (new_dirent name child type seq) name blk with
    | Some blk' => dir_rep bs blk' its' ds' /\ dents_others its its' /\ header_kept blk blk'
    | None => (bs < CARAFS_CNODE_ITEMS_OFF + items_size its')%nat
    end.
Proof.
  intros Hd Hv Hb Hc Ht Hno Hseq Hfree. set (d := (new_dirent name child type seq, name)). pose proof (new_dent_ok name child type seq Hv Hb Hc Ht Hseq) as Hdo.
  pose proof Hd as [_ _ Hok _ _ Hn]. rewrite Forall_forall in Hok. assert (dname d ∉ map dname ds) as Hnn.
  { intros (x & E & Hin)%list_elem_of_fmap. apply eq_None_not_Some in Hno. apply Hno. eexists. apply dir_map_some; [done|]. by exists x. }
  assert (Forall (fun x => dkey (fst x) <> dkey (fst d)) ds) as Hk.
  { apply Forall_forall. intros x Hx E. pose proof (do_seq x (Hok x Hx)) as Hxs. unfold dkey, in_u8 in *. cbn [d fst de_hash de_seq] in E.
    assert (existsb (hash_seq (Carafs_NameHash name) seq) ds = true); [|congruence]. apply existsb_exists. exists x. split; [by apply list_elem_of_In|].
    unfold hash_seq. apply andb_true_iff. rewrite !Z.eqb_eq. lia. }
  pose proof (dirents_insert_spec bs blk its ds d Hd Hdo eq_refl Hk Hnn) as Hi. cbv zeta in Hi. set (ds' := before _ _ ++ _) in Hi. exists ds'. split.
  - apply (dir_map_insert ds ds' d Hn Hnn). unfold ds'. by rewrite <- Permutation_middle, before_from.
  - cbv zeta. change (dirents_insert (Z.of_nat bs) (new_dirent name child type seq) name blk) with (dirents_insert (Z.of_nat bs) (fst d) (snd d) blk). destruct (dirents_insert _ _ _ _) as [blk'|]; [|done].
    destruct Hi as [Hi1 Hi2]. split_and!; [done| |done]. by rewrite items_map_set, delete_insert_eq.
Qed.


(** * The calls on a mounted volume *)

Section Spec.
Context {D : Type} `{!BlockDev D} `{!BlockDevLaws D}.
Abbreviation mount := (CarafsMount D).
Implicit Types m : mount.

(** Nothing a lookup does touches the mounted flag. *)
Definition keeps_flag {A} (p : ST mount A) : Prop := forall m, m_mounted (snd (p m)) = m_mounted m.
Lemma flag_bind {A B} (p : ST mount A) (f : A -> ST mount B) : keeps_flag p -> (forall a, keeps_flag (f a)) -> keeps_flag (p ≫= f).
Proof. intros Hp Hf m. rewrite st_bind_eq. specialize (Hp m). destruct (p m) as [[a|e] m1]; cbn [snd] in *; [|done]. by rewrite Hf. Qed.
Lemma flag_mod (f : mount -> mount) : (forall m, m_mounted (f m) = m_mounted m) -> keeps_flag (st_mod f).
Proof. intros H m. apply H. Qed.
Lemma flag_link_set l v m : m_mounted (link_set l v m) = m_mounted m.
Proof. by destruct l. Qed.
Lemma flag_unlink i m : m_mounted (lru_unlink i m) = m_mounted m.
Proof. unfold lru_unlink. by destruct (negb (e_lru_prev _ =? _)), (negb (e_lru_next _ =? _)). Qed.
Lemma flag_push i m : m_mounted (lru_push_mru i m) = m_mounted m.
Proof. unfold lru_push_mru. destruct (negb _), (_ =? _); done. Qed.
Lemma flag_obtain fuel i : keeps_flag (ent_obtain_from fuel i).
Proof.
  revert i. induction fuel as [|fuel IH]; intros i; [done|]. cbn [ent_obtain_from]. destruct (_ =? _); [done|]. apply flag_bind; [done|]. intros e.
  destruct (_ =? _); [done|]. destruct (_ && _); [|apply IH]. apply flag_bind.
  - destruct (e_dirty e); [|done]. apply flag_bind; [done|]. intros e'. apply flag_bind; [|intros _; by apply flag_mod]. intros m. unfold dev_write. by destruct (bdev_write _ _ _).
  - intros _. apply flag_bind; [apply flag_mod; intros m; apply flag_link_set|]. intros _. by apply flag_bind.
Qed.
Lemma cache_get_flag b mode : keeps_flag (carafs_cache_get b mode).
Proof.
  intros m. unfold carafs_cache_get. st_simp. destruct (_ <=? _); [done|]. apply flag_bind.
  - destruct (negb _); [done|]. apply flag_bind; [|done]. unfold cache_fill. apply flag_bind; [intros m1; apply flag_obtain|]. intros i. apply flag_bind.
    + destruct mode; [|done]. apply flag_bind; [|done]. intros m1. unfold dev_read. by destruct (bdev_read _ _).
    + intros _. by repeat (apply flag_bind; [done|intros _]).
  - intros [i fresh]. apply flag_bind; [done|]. intros _. apply flag_bind; [apply flag_mod; intros; apply flag_unlink|]. intros _.
    apply flag_bind; [apply flag_mod; intros; apply flag_push|done].
Qed.
Lemma cache_put_flag b m : m_mounted (carafs_cache_put b m) = m_mounted m.
Proof. unfold carafs_cache_put. by destruct (_ && _). Qed.

(** A mounted volume whose block [b] is a sealed live directory with the entries [ds] in its cnode. *)
Record dir_vol m (b : Z) (its : items) (ds : list dent) : Prop := {
  dv_cache : cache_inv m;
  dv_pins : pins_ok m;
  dv_dev : in_dev m b;
  dv_crc : block_crc_ok (view m b) (m_block_size m) CN_CRC = true;
  dv_magic : cn_magic (view m b) = CARAFS_MAGIC_CNODE;
  dv_no : cn_block_no (view m b) = b;
  dv_live : cn_link_count (view m b) <> 0;
  dv_type : cn_type (view m b) = CARAFS_T_DIR;
  dv_inline : cn_tree_root (view m b) = 0;
  dv_rep : dir_rep (m_block_size m) (view m b) its ds
}.
Lemma dir_vol_shows m b its ds m' : dir_vol m b its ds -> shows (view m) m m' -> dir_vol m' b its ds.
Proof.
  intros [H1 H2 H3 H4 H5 H6 H7 H8 H9 H10] Hs. pose proof (shows_pins _ _ _ Hs H2) as Hp. destruct Hs as [S1 S2 S3 (S4 & S5 & S6 & _)].
  assert (view m' b = view m b) as Ev by (by apply S2). split; rewrite ?Ev, ?S6; try done. unfold in_dev in *. by rewrite S5.
Qed.

(** A lookup in the cnode: [body] reads the block and changes nothing. *)
Lemma dir_read_spec m b its ds {A} (body : Z -> ST mount A) res r m' :
  dir_vol m b its ds -> (forall cn m1, node m1 cn = view m b -> body cn m1 = (res, m1)) ->
  (cn ← get_dir b; no_entry (with_cnode cn (body cn))) m = (r, m') ->
  shows (view m) m m' /\ m_mounted m' = m_mounted m /\
  let want := match res with Ok x => Ok x | Err e => Err (if e =? CARA_ENOTFOUND then CARA_ENOENT else e) end in
  (forall x, r = Ok x -> want = Ok x) /\ (dev_reliable (D := D) -> has_room m -> r = want /\ has_room m').
Proof.
  intros [H1 H2 H3 H4 H5 H6 H7 H8 H9 H10] Hbody E. rewrite st_bind_eq in E. unfold get_dir in E. rewrite st_bind_eq in E.
  destruct (carafs_cnode_get b m) as [rg m1] eqn:Eg. pose proof (cnode_get_spec m b rg m1 H1 H2 H3 H4 Eg) as Hs.
  assert (m_mounted m1 = m_mounted m) as Ef.
  { pose proof (cache_get_flag b CARAFS_GET_READ m) as Hf. unfold carafs_cnode_get in Eg. rewrite st_bind_eq in Eg. destruct (carafs_cache_get b CARAFS_GET_READ m) as [[[i fr]|e] m2]; cbn [snd] in Hf; [|by simplify_eq].
    st_simp_in Eg. destruct (_ || _); st_simp_in Eg; [unfold st_err in Eg; injection Eg as _ <-; by rewrite cache_put_flag|].
    destruct (_ && _); st_simp_in Eg; [unfold st_err in Eg; injection Eg as _ <-; by rewrite cache_put_flag|].
    destruct (_ =? _); st_simp_in Eg; [unfold st_err in Eg; injection Eg as _ <-; by rewrite cache_put_flag|by simplify_eq]. }
  destruct rg as [cn|e].
  - destruct Hs as (fresh & Hg & En & _ & Ebn & _). st_simp_in E. rewrite En, H8 in E. cbn [Z.eqb negb] in E. change (CARAFS_T_DIR =? CARAFS_T_DIR) with true in E. cbn [negb] in E. cbn beta iota in E.
    unfold no_entry, with_cnode in E. st_simp_in E. rewrite (Hbody cn m1 En) in E. cbn beta iota in E. st_simp_in E.
    unfold carafs_cnode_put in E. st_simp_in E. unfold st_try, st_lift in E.
    assert (m' = carafs_cache_put b m1 /\ r = match res with Ok x => Ok x | Err e => Err (if e =? CARA_ENOTFOUND then CARA_ENOENT else e) end) as [-> Er].
    { rewrite En, Ebn in E. destruct res; st_simp_in E; unfold st_err in E; by simplify_eq. }
    split_and!; [by apply (got_put_shows m b cn fresh)|by rewrite cache_put_flag|]. cbv zeta. rewrite <- Er. split; [done|]. intros _ Hroom. split; [done|].
    by apply (get_put_room m b cn fresh).
  - injection E as <- <-. destruct Hs as [Hsh Hwhy]. split_and!; [done|done|]. cbv zeta. split; [done|]. intros Hrel Hroom.
    specialize (Hwhy Hrel Hroom). rewrite H5, H6, !Z.eqb_refl in Hwhy. cbn [andb] in Hwhy. by destruct Hwhy.
Qed.

(** A call that only reshapes the result of a lookup. *)
Lemma bind_map {A B C} (p : ST mount A) (f : A -> ST mount B) (g : B -> C) m r m' :
  (a ← p; x ← f a; mret (g x)) m = (r, m') -> exists r0, (a ← p; f a) m = (r0, m') /\ r = match r0 with Ok x => Ok (g x) | Err e => Err e end.
Proof.
  intros E. rewrite st_bind_eq in E. destruct (p m) as [[a|e] m1] eqn:Ep.
  - rewrite st_bind_eq in E. destruct (f a m1) as [[x|e] m2] eqn:Ef; injection E as <- <-; [exists (Ok x)|exists (Err e)]; by rewrite st_bind_eq, Ep.
  - injection E as <- <-. exists (Err e). by rewrite st_bind_eq, Ep.
Qed.
Lemma find_read name cn m1 blk its ds bs : dir_rep bs blk its ds -> node m1 cn = blk -> cn_tree_root blk = 0 ->
  dir_find cn (Carafs_NameHash name) name m1 =
    (match dirents_first (has_name (Carafs_NameHash name) name) blk with Some (d, _) => Ok d | None => Err CARA_ENOTFOUND end, m1).
Proof. intros Hd En Et. unfold dir_find. st_simp. rewrite En, Et. cbn [Z.eqb negb]. by destruct (dirents_first _ _) as [[d n]|]. Qed.
Lemma next_read cur cn m1 blk its ds bs : dir_rep bs blk its ds -> node m1 cn = blk -> cn_tree_root blk = 0 ->
  dir_next cn cur m1 =
    (match head (from (fun d n => negb (cur_started cur) || past (cur_hash cur) (cur_seq cur) d n) ds) with Some x => Ok x | None => Err CARA_ENOTFOUND end, m1).
Proof.
  intros Hd En Et. unfold dir_next. st_simp. rewrite En, Et. cbn [Z.eqb negb]. unfold dir_inline_next. st_simp. rewrite En, (dirents_first_spec _ _ _ _ _ Hd). by destruct (head _).
Qed.


(** * Listing *)

(** A client lists a directory by asking for the next entry until CARA_ENOENT. *)
Fixpoint dir_list (fuel : nat) (dir : Z) (cur : CarafsDirCursor) : ST mount (list CarafsDirEntry) :=
  match fuel with
  | O => st_err CARA_EOVERFLOW
  | S fuel =>
      rc ← st_try (Carafs_DirNext dir cur);
      match rc with
      | Ok (x, cur) => xs ← dir_list fuel dir cur; mret (x :: xs)
      | Err e => if e =? CARA_ENOENT then mret [] else st_err e
      end
  end.
Definition entry_of (d : dent) : CarafsDirEntry := mkEntry (de_cnode (fst d)) (de_type (fst d)) (de_name_len (fst d)) (snd d).
Definition cursor_at (d : dent) : CarafsDirCursor := mkCursor (de_hash (fst d)) (de_seq (fst d)) true.

Lemma dir_next_spec m b its ds cur r m' :
  dir_vol m b its ds -> m_mounted m = true -> dev_reliable (D := D) -> has_room m -> Carafs_DirNext b cur m = (r, m') ->
  shows (view m) m m' /\ m_mounted m' = true /\ has_room m' /\
  r = match head (from (fun d n => negb (cur_started cur) || past (cur_hash cur) (cur_seq cur) d n) ds) with
      | Some d => Ok (entry_of d, cursor_at d)
      | None => Err CARA_ENOENT
      end.
Proof.
  intros Hv Hm Hrel Hroom E. unfold Carafs_DirNext in E. st_simp_in E. rewrite Hm in E. cbn beta iota in E.
  destruct (bind_map (get_dir b) (fun cn => no_entry (with_cnode cn (dir_next cn cur))) (fun d => (entry_of d, cursor_at d)) m r m') as (r0 & E0 & ->).
  { rewrite <- E. rewrite !st_bind_eq. destruct (get_dir b m) as [[cn|e] m1]; [|done]. rewrite !st_bind_eq. by destruct (no_entry _ m1) as [[[de n]|e] m2]. }
  destruct (dir_read_spec m b its ds _ _ r0 m' Hv (fun cn m1 En => next_read cur cn m1 _ its ds _ (dv_rep _ _ _ _ Hv) En (dv_inline _ _ _ _ Hv)) E0) as (Hs & Hf & _ & H2).
  destruct (H2 Hrel Hroom) as [-> Hr]. split_and!; [done|congruence|done|]. by destruct (head _) as [[d n]|].
Qed.
(** The entries past an entry are the ones after it. *)
Lemma from_after a d c : Forall dent_ok (a ++ d :: c) -> sorted (a ++ d :: c) -> from (past (de_hash (fst d)) (de_seq (fst d))) (a ++ d :: c) = c.
Proof.
  intros Hok Hs. set (stop := past _ _). assert (forall x, x ∈ a ++ d :: c -> stop (fst x) (snd x) = (dkey (fst d) <? dkey (fst x))) as Hp.
  { rewrite Forall_forall in Hok. intros x Hx. apply past_spec; apply Hok; [done|set_solver]. }
  apply sorted_app in Hs as (_ & [_ S2]%StronglySorted_inv & S3). rewrite Forall_forall in S2.
  rewrite from_skip by (apply Forall_forall; intros x Hx; rewrite Hp by set_solver; apply Z.ltb_ge; specialize (S3 x d Hx ltac:(set_solver)); lia).
  change (d :: c) with ([d] ++ c). rewrite from_skip by (constructor; [rewrite Hp by set_solver; apply Z.ltb_irrefl|constructor]).
  destruct c as [|x c]; [done|]. apply from_here. rewrite Hp by set_solver. apply Z.ltb_lt. apply S2. set_solver.
Qed.
Lemma dir_list_rest its ds b c a fuel m cur :
  dir_vol m b its ds -> m_mounted m = true -> dev_reliable (D := D) -> has_room m -> ds = a ++ c ->
  from (fun d n => negb (cur_started cur) || past (cur_hash cur) (cur_seq cur) d n) ds = c -> (length c < fuel)%nat ->
  exists m', dir_list fuel b cur m = (Ok (map entry_of c), m') /\ shows (view m) m m'.
Proof.
  revert a fuel m cur. induction c as [|d c IH]; intros a fuel m cur Hv Hm Hrel Hroom Eds Ef Hfu; destruct fuel as [|fuel]; simpl in Hfu; try lia; cbn [dir_list];
    rewrite st_bind_try; destruct (Carafs_DirNext b cur m) as [r m1] eqn:En; destruct (dir_next_spec m b its ds cur r m1 Hv Hm Hrel Hroom En) as (Hs & Hm1 & Hr1 & ->);
    rewrite Ef; cbn [head]; cbv beta iota.
  - exists m1. by split.
  - assert (from (fun d0 n => negb (cur_started (cursor_at d)) || past (cur_hash (cursor_at d)) (cur_seq (cursor_at d)) d0 n) ds = c) as Ef'.
    { rewrite Eds. apply from_after; rewrite <- Eds; apply Hv. }
    destruct (IH (a ++ [d]) fuel m1 (cursor_at d) (dir_vol_shows _ _ _ _ _ Hv Hs) Hm1 Hrel Hr1) as (m2 & E2 & Hs2); [by rewrite Eds, <- app_assoc|done|lia|].
    exists m2. rewrite st_bind_eq, E2. split; [done|]. apply (shows_trans (view m) (view m) m m1 m2 Hs). destruct Hs as [S1 S2 S3 (S4 & S5 & S6)]. destruct Hs2 as [T1 T2 T3 T4].
    split; try done. intros b' Hb'. rewrite T2 by done. apply S2. unfold in_dev in *. by rewrite <- S5.
Qed.

(** C31: Listing a directory. On a mounted volume over a device that does not fail, with a cache slot to
    use, asking for the next entry of an inline directory from the initial cursor until CARA_ENOENT
    takes one step per entry and one more, and returns every entry exactly once, in key order, each with
    its cnode, type and full name; no block changes and no pin is left. *)
Theorem dir_list_complete m b its ds hash seq fuel :
  dir_vol m b its ds -> m_mounted m = true -> dev_reliable (D := D) -> has_room m -> (length ds < fuel)%nat ->
  exists m', dir_list fuel b (mkCursor hash seq false) m = (Ok (map entry_of ds), m') /\ shows (view m) m m'.
Proof.
  intros Hv Hm Hrel Hroom Hfu. apply (dir_list_rest its ds b ds []); try done. cbn [cur_started negb orb]. by destruct ds.
Qed.
End Spec.

Module DirExample.
(** A directory with two entries, "a" and "B". *)
Definition ds : list dent :=
  [(new_dirent [97] 4 CARAFS_T_FILE 0, [97]); (new_dirent [66] 5 CARAFS_T_DIR 0, [66])].
Definition its : items := [(CARAFS_ITEM_INLINE_DIRENTS, enc_dents ds)].
Definition dirblk : list Z :=
  let c := new_cnode 512 1 7 CARAFS_T_DIR 1000 in
  seal_cnode 512 (splice (wr 4 c CN_ITEM_BYTES (Z.of_nat (length (encode_items its)))) CARAFS_CNODE_ITEMS_OFF (encode_items its)).
Definition dev : CarafsMemBdev := {| mb_mem := zeros 512 ++ dirblk ++ zeros 1024; mb_block_size := 512; mb_n_blocks := 4 |}.
Definition m0 : CarafsMount CarafsMemBdev :=
  mkMount dev 512 false true (sb_of_bytes (zeros 512)) [] [] 0 0 false [] (sb_of_bytes (zeros 512)) (mkJ 0 0 0 0 0).
Definition vol : CarafsMount CarafsMemBdev := cache_init 2 2 m0.

Lemma ds_ok : Forall dent_ok ds.
Proof. repeat constructor; try (by vm_compute); apply AllocExample.bytes_okb_ok; by vm_compute. Qed.
Lemma dirblk_rep : dir_rep 512 dirblk its ds.
Proof.
  split.
  - split; [by vm_compute|by vm_compute|apply AllocExample.bytes_okb_ok; by vm_compute|by exists (drop (360 + length (encode_items its)) dirblk); vm_compute|by vm_compute| |].
    + repeat constructor; try (by vm_compute); apply AllocExample.bytes_okb_ok; by vm_compute.
    + vm_compute. repeat constructor; set_solver.
  - by right.
  - exact ds_ok.
  - repeat constructor; by vm_compute.
  - repeat constructor; by vm_compute.
  - vm_compute. repeat constructor; set_solver.
Qed.
Lemma new_name : Carafs_NameValid [67] = true /\ bytes_ok [67].
Proof. split; [reflexivity|]. apply AllocExample.bytes_okb_ok. reflexivity. Qed.
Lemma small_ok : in_u64 6 /\ in_u8 CARAFS_T_FILE.
Proof. unfold in_u64, in_u8, CARAFS_T_FILE. lia. Qed.

Lemma dir_dev_good : bdev_wf dev.
Proof.
  assert (length (mb_mem dev) = 2048%nat /\ AllocExample.bytes_okb (mb_mem dev) = true) as [H1 H2] by (by vm_compute).
  split; [exact H1|by apply AllocExample.bytes_okb_ok| |]; simpl; lia.
Qed.
Lemma dir_vol_inv : cache_inv vol.
Proof. apply cache_init_inv; try done; [lia|exact dir_dev_good]. Qed.
Lemma dir_view : view vol 1 = dirblk.
Proof. vm_compute. reflexivity. Qed.
Lemma dir_room : has_room vol.
Proof. exists 0. split; [done|by left]. Qed.
Lemma dir_vol_ok : dir_vol vol 1 its ds.
Proof.
  split; rewrite ?dir_view; [exact dir_vol_inv|exact (pins_okb_ok vol eq_refl)|exact (conj Z.le_0_1 eq_refl)|..]; try (vm_compute; reflexivity).
  - vm_compute. discriminate.
  - exact dirblk_rep.
Qed.
Definition look_vol := snd (Carafs_DirLookup 1 [65] vol).
Lemma look_eq : Carafs_DirLookup 1 [65] vol = (fst (Carafs_DirLookup 1 [65] vol), look_vol).
Proof. apply surjective_pairing. Qed.
Lemma dir_list_complete_witness : fst (dir_list 3 1 (mkCursor 0 0 false) vol) = Ok [mkEntry 4 CARAFS_T_FILE 1 [97]; mkEntry 5 CARAFS_T_DIR 1 [66]].
Proof.
  destruct (dir_list_complete vol 1 its ds 0 0 3 dir_vol_ok eq_refl CacheExample.mem_reliable dir_room) as (m' & E & _); [clear; vm_compute; lia|].
  rewrite E. clear. vm_compute. reflexivity.
Defined.
End DirExample.
