(* ===== verification/Dleaf.v ===== *)
(** Leaves of a directory tree ([src/logaic/carafs/btree.c], the dirent leaves of [carafs_dtree_insert],
    [carafs_dtree_remove] and [carafs_dtree_spill]): a leaf refines a sorted list of entries, through
    insertion, the split of a full leaf, and removal. *)

From Stdlib Require Import Sorted.
From S2P Require Import Prelude Format Volume Cache Journal Wal Alloc Items Btree Mount Cnode Reads File Xattr Dirent Dir.

(** * Leaves as lists of entries *)

Record leaf_rep (bs : nat) (n : list Z) (ds : list dent) : Prop := {
  lr_len : length n = bs;
  lr_bs : Z.of_nat CARAFS_BT_BODY_OFF <= Z.of_nat bs <= 65536;
  lr_bytes : bytes_ok n;
  lr_cnt : n_records n = Z.of_nat (length ds);
  lr_used : used_bytes n = Z.of_nat (length (enc_dents ds));
  lr_body : sub CARAFS_BT_BODY_OFF (length (enc_dents ds)) n = enc_dents ds;
  lr_fit : (CARAFS_BT_BODY_OFF + length (enc_dents ds) <= bs)%nat;
  lr_ok : Forall dent_ok ds;
  lr_sorted : sorted ds
}.
(** The header of a node but its counters. *)
Definition node_kept (n n' : list Z) : Prop := sub 0 18 n' = sub 0 18 n.

Lemma node_kept_rd n n' k o : node_kept n n' -> (o + k <= 18)%nat -> rd k n' o = rd k n o.
Proof.
  intros H Hk. unfold rd. f_equal. change o with (0 + o)%nat. rewrite <- (sub_sub o k 0 18 n'), <- (sub_sub o k 0 18 n) by lia. by rewrite H.
Qed.
Lemma leaf_at_nat k : leaf_at (Z.of_nat k) = (CARAFS_BT_BODY_OFF + k)%nat.
Proof. unfold leaf_at. by rewrite Nat2Z.id. Qed.
Lemma length_dents_cons d ds : length (enc_dents (d :: ds)) = (length (enc_dent d) + length (enc_dents ds))%nat.
Proof. unfold enc_dents. simpl. by rewrite length_app. Qed.
Lemma length_dents_app a b : length (enc_dents (a ++ b)) = (length (enc_dents a) + length (enc_dents b))%nat.
Proof. by rewrite enc_dents_app, length_app. Qed.
Lemma enc_dents_snoc pre d ds : enc_dents (pre ++ d :: ds) = enc_dents pre ++ enc_dent d ++ enc_dents ds.
Proof. by rewrite enc_dents_app. Qed.
Lemma count_bound ds : Forall dent_ok ds -> 21 * Z.of_nat (length ds) <= Z.of_nat (length (enc_dents ds)).
Proof. induction 1 as [|d ds Hd _ IH]; [done|]. rewrite length_dents_cons. pose proof (enc_dent_size d Hd). cbn [length]. lia. Qed.

Section Leaf.
Context (bs : nat) (n : list Z) (all : list dent).
Hypothesis (Hr : leaf_rep bs n all).

(** The record after the entries [pre], and the offset after it. *)
Lemma entry_at pre d ds : all = pre ++ d :: ds ->
  dirent_at n (leaf_at (Z.of_nat (length (enc_dents pre)))) = fst d /\ dent_ok d /\
  u32 (Z.of_nat (length (enc_dents pre)) + dirent_stride (de_name_len (fst d))) = Z.of_nat (length (enc_dents (pre ++ [d]))).
Proof.
  intros E. pose proof (lr_ok _ _ _ Hr) as Hok. rewrite E in Hok. apply Forall_app in Hok as [_ Hok]. apply Forall_cons in Hok as [Hd _].
  pose proof (lr_body _ _ _ Hr) as Hb. pose proof (lr_fit _ _ _ Hr) as Hf. pose proof (lr_bs _ _ _ Hr) as Hbs.
  assert (enc_dents all = enc_dents pre ++ enc_dent d ++ enc_dents ds) as Ee by (rewrite E; apply enc_dents_snoc).
  rewrite leaf_at_nat. destruct (dirent_at_sub n CARAFS_BT_BODY_OFF _ _ d _ Hb Ee Hd) as [-> _]. split_and!; [done|done|].
  rewrite Ee, !length_app in Hf. rewrite <- (length_enc_dent d Hd), length_dents_app, length_dents_cons. unfold u32.
  change (enc_dents []) with (@nil Z). simpl (length []). rewrite Z.mod_small by lia. lia.
Qed.

Lemma ins_off_spec h s pre ds : all = pre ++ ds ->
  leaf_ins_off (length ds) n h s (Z.of_nat (length (enc_dents pre))) = Z.of_nat (length (enc_dents (pre ++ before (past h s) ds))).
Proof.
  revert pre. induction ds as [|d ds IH]; intros pre E; [by rewrite app_nil_r|]. cbn [length leaf_ins_off]. destruct (entry_at pre d ds E) as (-> & Hd & Eo).
  cbn [before]. change (0 <? key_cmp (de_hash (fst d)) (de_seq (fst d)) h s) with (past h s (fst d) (snd d)).
  destruct (past h s (fst d) (snd d)); [by rewrite app_nil_r|]. rewrite Eo, IH by (by rewrite E, <- app_assoc). by rewrite <- app_assoc.
Qed.
Lemma dleaf_off_spec k pre ds : all = pre ++ ds -> (k <= length ds)%nat ->
  dleaf_off k n (Z.of_nat (length (enc_dents pre))) = Z.of_nat (length (enc_dents (pre ++ take k ds))).
Proof.
  revert pre ds. induction k as [|k IH]; intros pre ds E Hk; [by rewrite app_nil_r|]. destruct ds as [|d ds]; [simpl in Hk; lia|].
  cbn [dleaf_off]. destruct (entry_at pre d ds E) as (-> & Hd & ->). rewrite (IH (pre ++ [d]) ds) by (simpl in Hk; rewrite ?E, <- ?app_assoc; done || lia).
  by rewrite <- app_assoc.
Qed.
(** The walk finds the first prefix with at least half of the bytes. *)
Lemma keep_walk_spec pre ds : all = pre ++ ds -> ds <> [] -> 2 * Z.of_nat (length (enc_dents pre)) < used_bytes n ->
  exists k, keep_walk (length ds) n (Z.of_nat (length pre)) (Z.of_nat (length (enc_dents pre))) = Z.of_nat k /\ (length pre < k <= length all)%nat /\
    used_bytes n <= 2 * Z.of_nat (length (enc_dents (take k all))) /\ 2 * Z.of_nat (length (enc_dents (take (k - 1) all))) < used_bytes n.
Proof.
  revert pre. induction ds as [|d ds IH]; intros pre E Hne Hlt; [done|]. cbn [length keep_walk]. destruct (entry_at pre d ds E) as (-> & Hd & ->).
  pose proof (lr_used _ _ _ Hr) as Eu. pose proof (lr_fit _ _ _ Hr) as Hf. pose proof (lr_bs _ _ _ Hr) as Hbs.
  assert (length (enc_dents all) = length (enc_dents (pre ++ [d])) + length (enc_dents ds))%nat as El by (rewrite <- length_dents_app, <- app_assoc; by rewrite E).
  assert (take (S (length pre)) all = pre ++ [d] /\ take (length pre) all = pre) as [T1 T2].
  { rewrite E. split; [|by rewrite take_app_length]. change (d :: ds) with ([d] ++ ds). rewrite app_assoc.
    replace (S (length pre)) with (length (pre ++ [d])) by (rewrite length_app; simpl; lia). by rewrite take_app_length. }
  replace (u32 (Z.of_nat (length (enc_dents (pre ++ [d]))) * 2)) with (Z.of_nat (length (enc_dents (pre ++ [d]))) * 2) by (unfold u32; rewrite Z.mod_small; lia).
  destruct (Z.leb_spec (used_bytes n) (Z.of_nat (length (enc_dents (pre ++ [d]))) * 2)) as [Hle|Hgt].
  - exists (S (length pre)). replace (S (length pre) - 1)%nat with (length pre) by lia. rewrite T1, T2. split_and!; [lia|lia| |lia|lia]. rewrite E, length_app. simpl. lia.
  - destruct ds as [|d' ds]; [change (enc_dents []) with (@nil Z) in El; simpl (length []) in El; lia|].
    destruct (IH (pre ++ [d])) as (k & Ek & Hk & H1 & H2); [by rewrite E, <- app_assoc|done|lia|].
    exists k. split_and!; [|rewrite length_app in Hk; simpl in Hk; lia|lia|done|done]. rewrite <- Ek. f_equal. rewrite length_app. simpl. lia.
Qed.
End Leaf.

Lemma leaf_intro bs b ds' c u :
  length b = bs -> Z.of_nat CARAFS_BT_BODY_OFF <= Z.of_nat bs <= 65536 -> bytes_ok b -> c = Z.of_nat (length ds') -> u = Z.of_nat (length (enc_dents ds')) ->
  sub CARAFS_BT_BODY_OFF (length (enc_dents ds')) b = enc_dents ds' -> (CARAFS_BT_BODY_OFF + length (enc_dents ds') <= bs)%nat -> Forall dent_ok ds' -> sorted ds' ->
  leaf_rep bs (wr 4 (wr 2 b 18 c) 20 u) ds' /\ node_kept b (wr 4 (wr 2 b 18 c) 20 u).
Proof.
  intros Hl Hbs Hby Ec Eu Hb Hf Hok Hs. pose proof (count_bound ds' Hok) as Hc. unfold CARAFS_BT_BODY_OFF in *. split; [split|]; try done.
  - by rewrite !length_wr.
  - by repeat apply wr_bytes_ok.
  - unfold n_records. rewrite rd_wr_other by lia. rewrite rd_wr_same; [done|lia|]. change (2 ^ (8 * Z.of_nat 2)) with 65536. lia.
  - unfold used_bytes. rewrite rd_wr_same; [done|rewrite length_wr; lia|]. change (2 ^ (8 * Z.of_nat 4)) with 4294967296. lia.
  - unfold CARAFS_BT_BODY_OFF, wr. rewrite !sub_splice_other by (rewrite length_le_put; lia). done.
  - unfold node_kept, wr. rewrite !sub_splice_other by lia. done.
Qed.
Lemma body_splice_header b off s k o : (CARAFS_BT_BODY_OFF <= off)%nat -> (o + k <= CARAFS_BT_BODY_OFF)%nat -> sub o k (splice b off s) = sub o k b.
Proof. intros. apply sub_splice_other. lia. Qed.

(** * Insertion *)

Lemma place_spec bs n ds d (stop := past (de_hash (fst d)) (de_seq (fst d))) :
  leaf_rep bs n ds -> dent_ok d -> Forall (fun x => dkey (fst x) <> dkey (fst d)) ds ->
  (CARAFS_BT_BODY_OFF + length (enc_dents ds) + length (enc_dent d) <= bs)%nat ->
  leaf_rep bs (leaf_place (fst d) (snd d) n) (before stop ds ++ d :: from stop ds) /\ node_kept n (leaf_place (fst d) (snd d) n).
Proof.
  intros Hr Hd Hk Hroom. pose proof Hr as [Hl Hbs Hby Hc Hu Hb Hf Hok Hs]. pose proof (length_enc_dent d Hd) as EN. change (dirent_bytes (fst d) (snd d)) with (enc_dent d) in *.
  set (N := enc_dent d) in *. set (B := enc_dents (before stop ds)). set (F := enc_dents (from stop ds)). set (ds' := before stop ds ++ d :: from stop ds).
  assert (enc_dents ds = B ++ F) as EBF by (unfold B, F; by rewrite <- enc_dents_app, before_from).
  assert (enc_dents ds' = B ++ N ++ F) as Eds' by apply enc_dents_snoc.
  assert (length (enc_dents ds) = length B + length F)%nat as Elds by (by rewrite EBF, length_app).
  unfold leaf_place. change (dirent_bytes (fst d) (snd d)) with N. rewrite Hc, Nat2Z.id.
  replace (leaf_ins_off (length ds) n (de_hash (fst d)) (de_seq (fst d)) 0) with (Z.of_nat (length B)) by (symmetry; apply (ins_off_spec bs n ds Hr _ _ []); done).
  rewrite <- EN, <- Nat2Z.inj_add, !leaf_at_nat, Hu. replace (Z.to_nat (u32 (Z.of_nat (length (enc_dents ds)) - Z.of_nat (length B)))) with (length F) by (unfold u32; rewrite Z.mod_small; lia).
  set (p := sub CARAFS_BT_BODY_OFF (length (enc_dents ds) + length N) n). assert (length p = length B + length F + length N)%nat as Elp by (unfold p; rewrite length_sub; lia).
  set (J := drop (length (enc_dents ds)) p). assert (p = B ++ F ++ J) as Ep.
  { assert (take (length (enc_dents ds)) p = enc_dents ds) as Et by (rewrite <- Hb at 2; unfold p, sub; rewrite take_take; f_equal; lia).
    transitivity (take (length (enc_dents ds)) p ++ J); [unfold J; by rewrite take_drop|]. rewrite Et, EBF. by rewrite app_assoc. }
  assert (length J = length N) as EJ by (apply (f_equal length) in Ep; rewrite !length_app in Ep; lia).
  assert (sub (CARAFS_BT_BODY_OFF + length B) (length F) n = F) as EF.
  { rewrite <- (sub_sub _ _ _ (length p)) by lia. assert (sub CARAFS_BT_BODY_OFF (length p) n = p) as -> by (unfold p at 2; f_equal; lia). rewrite Ep. by apply sub_at. }
  assert (sub CARAFS_BT_BODY_OFF (length p) n = p) as Esp by (unfold p at 2; f_equal; lia).
  unfold memmove. rewrite EF. rewrite (splice_sub n CARAFS_BT_BODY_OFF p) by (done || lia). set (p1 := splice p (length B + length N) F).
  assert (length p1 = length p) as Elp1 by apply length_splice.
  rewrite (splice_sub (splice n CARAFS_BT_BODY_OFF p1) CARAFS_BT_BODY_OFF p1) by (rewrite ?length_splice, ?Elp1; try lia; rewrite <- Elp1; apply sub_splice_same; lia).
  assert (splice p1 (length B) N = B ++ N ++ F) as -> by (by apply (make_gap B F J)). rewrite <- Eds'.
  assert (length (enc_dents ds') = length p) as Elp' by (rewrite Eds', !length_app; lia). rewrite splice_splice_same by lia. set (b := splice n CARAFS_BT_BODY_OFF (enc_dents ds')).
  assert (forall k o, (o + k <= CARAFS_BT_BODY_OFF)%nat -> sub o k b = sub o k n) as Hh by (intros; by apply body_splice_header).
  assert (n_records b = n_records n /\ used_bytes (wr 2 b 18 (u16 (n_records b + 1))) = used_bytes n) as [En Eu].
  { unfold CARAFS_BT_BODY_OFF in *. split; [unfold n_records, rd; by rewrite Hh by lia|]. unfold used_bytes. rewrite rd_wr_other by lia. unfold rd. by rewrite Hh by lia. }
  rewrite Eu, En, Hc, Hu. assert (Forall dent_ok ds') as Hok'.
  { unfold ds'. rewrite <- (before_from stop ds) in Hok. apply Forall_app in Hok as [H1 H2]. apply Forall_app; split; [done|by constructor]. }
  assert (length ds' = S (length ds)) as Ec' by (unfold ds'; rewrite <- (before_from stop ds) at 3; rewrite !length_app; simpl; lia).
  pose proof (count_bound ds' Hok') as Hcb. unfold CARAFS_BT_BODY_OFF in Hroom.
  destruct (leaf_intro bs b ds' (u16 (Z.of_nat (length ds) + 1)) (u32 (Z.of_nat (length (enc_dents ds)) + Z.of_nat (length N)))) as [H1 H2]; try done.
  - unfold b. by rewrite length_splice.
  - unfold b. apply splice_bytes_ok; [done|by apply enc_dents_bytes].
  - unfold u16. rewrite Z.mod_small; lia.
  - unfold u32. rewrite Z.mod_small; lia.
  - unfold b. apply sub_splice_same; [done|]. unfold CARAFS_BT_BODY_OFF. lia.
  - unfold CARAFS_BT_BODY_OFF. lia.
  - unfold ds', stop. by apply dents_insert_sorted.
  - split; [done|]. unfold node_kept in *. rewrite H2. apply Hh. unfold CARAFS_BT_BODY_OFF. lia.
Qed.

(** * Splitting *)

Lemma dents_take_drop k ds : enc_dents ds = enc_dents (take k ds) ++ enc_dents (drop k ds).
Proof. by rewrite <- enc_dents_app, take_drop. Qed.
Lemma dents_take_le k j ds : (k <= j)%nat -> (length (enc_dents (take k ds)) <= length (enc_dents (take j ds)))%nat.
Proof. intros H. rewrite (dents_take_drop k (take j ds)), length_app, take_take, Nat.min_l by lia. lia. Qed.
Lemma dents_take_step k ds : Forall dent_ok ds -> Z.of_nat (length (enc_dents (take k ds))) <= Z.of_nat (length (enc_dents (take (k - 1) ds))) + 280.
Proof.
  intros Hok. destruct k as [|k]; [simpl; lia|]. replace (S k - 1)%nat with k by lia. destruct (ds !! k) as [d|] eqn:E.
  - rewrite (take_S_r ds k d E), length_dents_app, length_dents_cons. change (enc_dents []) with (@nil Z). simpl (length []).
    pose proof (enc_dent_size d (Forall_lookup_1 _ _ _ _ Hok E)). lia.
  - apply lookup_ge_None_1 in E. rewrite !take_ge by lia. lia.
Qed.
(** Where a leaf is cut: both halves are not empty and leave room for any entry. *)
Lemma split_keep_spec bs n ds : leaf_rep bs n ds -> 1152 <= Z.of_nat bs -> (2 <= length ds)%nat ->
  exists k, split_keep n = Z.of_nat k /\ (1 <= k < length ds)%nat /\
    Z.of_nat (CARAFS_BT_BODY_OFF + length (enc_dents (take k ds))) + 280 <= Z.of_nat bs /\ Z.of_nat (CARAFS_BT_BODY_OFF + length (enc_dents (drop k ds))) + 280 <= Z.of_nat bs.
Proof.
  intros Hr Hbs H2. pose proof Hr as [Hl _ _ Hc Hu _ Hf Hok _]. pose proof (count_bound ds Hok) as Hcb.
  destruct (keep_walk_spec bs n ds Hr [] ds eq_refl) as (k & Ek & Hk & K1 & K2); [intros ->; simpl in H2; lia|rewrite Hu; change (length (enc_dents [])) with 0%nat; lia|].
  change (Z.of_nat (length (enc_dents []))) with 0 in Ek. change (Z.of_nat (length (@nil dent))) with 0 in Ek. simpl (length []) in Hk.
  unfold split_keep. rewrite Hc, Nat2Z.id, Ek. rewrite (proj2 (Z.ltb_ge (Z.of_nat k) 1)) by lia. rewrite Hu in K1, K2. unfold CARAFS_BT_BODY_OFF in *.
  assert (forall j, (length (enc_dents (take j ds)) + length (enc_dents (drop j ds)) = length (enc_dents ds))%nat) as Hj by (intros j; by rewrite <- length_dents_app, take_drop).
  destruct (Z.ltb_spec (Z.of_nat (length ds) - 1) (Z.of_nat k)) as [Hlt|Hge].
  - exists (length ds - 1)%nat. assert (k = length ds) as -> by lia. pose proof (dents_take_step (length ds) ds Hok) as Hst. rewrite (take_ge ds (length ds)) in Hst by lia.
    pose proof (Hj (length ds - 1)%nat). split_and!; lia.
  - exists k. pose proof (dents_take_step k ds Hok). pose proof (Hj k). split_and!; lia.
Qed.
Lemma split_spec bs n ds rgt : leaf_rep bs n ds -> 1152 <= Z.of_nat bs -> (2 <= length ds)%nat -> length rgt = bs -> bytes_ok rgt ->
  exists a b, ds = a ++ b /\ a <> [] /\ b <> [] /\ leaf_rep bs (dsplit_left n) a /\ leaf_rep bs (dsplit_right n rgt) b /\
    node_kept n (dsplit_left n) /\ node_kept rgt (dsplit_right n rgt) /\
    forall d, dent_ok d -> (CARAFS_BT_BODY_OFF + length (enc_dents a) + length (enc_dent d) <= bs)%nat /\ (CARAFS_BT_BODY_OFF + length (enc_dents b) + length (enc_dent d) <= bs)%nat.
Proof.
  intros Hr Hbs H2 Hlr Hbr. pose proof Hr as [Hl Hbs2 Hby Hc Hu Hb Hf Hok Hs]. destruct (split_keep_spec bs n ds Hr Hbs H2) as (k & Ek & Hk & S1 & S2).
  set (a := take k ds) in *. set (b := drop k ds) in *. assert (ds = a ++ b) as Eds by (unfold a, b; by rewrite take_drop). exists a, b.
  assert (length a = k /\ length b = length ds - k)%nat as [La Lb] by (unfold a, b; rewrite length_take, length_drop; lia).
  assert (dleaf_off k n 0 = Z.of_nat (length (enc_dents a))) as Eo by (apply (dleaf_off_spec bs n ds Hr k [] ds); [done|lia]).
  assert (length (enc_dents ds) = length (enc_dents a) + length (enc_dents b))%nat as El by (by rewrite Eds at 1; rewrite length_dents_app).
  assert (u32 (used_bytes n - Z.of_nat (length (enc_dents a))) = Z.of_nat (length (enc_dents b))) as Em by (unfold u32; rewrite Hu, Z.mod_small; lia).
  rewrite Eds in Hok, Hs. pose proof Hok as Hok0. apply Forall_app in Hok as [Hoa Hob]. apply sorted_app in Hs as (Hsa & Hsb & _). pose proof (count_bound _ Hok0) as Hcb. rewrite <- Eds in Hcb.
  assert (sub (CARAFS_BT_BODY_OFF + length (enc_dents a)) (length (enc_dents b)) n = enc_dents b) as Eb.
  { rewrite <- (sub_sub _ _ _ (length (enc_dents ds))) by lia. rewrite Hb, Eds, enc_dents_app. rewrite <- (app_nil_r (enc_dents b)) at 2. by apply sub_at. }
  assert (sub CARAFS_BT_BODY_OFF (length (enc_dents a)) n = enc_dents a) as Ea.
  { rewrite <- (Nat.add_0_r CARAFS_BT_BODY_OFF), <- (sub_sub _ _ _ (length (enc_dents ds))) by lia. rewrite Hb, Eds, enc_dents_app. by apply (sub_at [] (enc_dents a)). }
  assert (leaf_rep bs (dsplit_left n) a /\ node_kept n (dsplit_left n)) as [HL1 HL2].
  { unfold dsplit_left. rewrite Ek, Nat2Z.id, Eo, Em, leaf_at_nat, Nat2Z.id. unfold memzero. set (b0 := splice n _ _).
    assert (node_kept n b0) as Hn0 by (apply body_splice_header; unfold CARAFS_BT_BODY_OFF; lia).
    destruct (leaf_intro bs b0 a (u16 (Z.of_nat k)) (Z.of_nat (length (enc_dents a)))) as [H3 H4]; try done.
    - unfold b0. by rewrite length_splice.
    - apply splice_bytes_ok; [done|apply zeros_bytes_ok].
    - unfold u16. rewrite La, Z.mod_small; lia.
    - unfold b0. rewrite sub_splice_other by lia. done.
    - lia.
    - split; [done|]. unfold node_kept in *. by rewrite H4. }
  assert (leaf_rep bs (dsplit_right n rgt) b /\ node_kept rgt (dsplit_right n rgt)) as [HR1 HR2].
  { unfold dsplit_right. rewrite Ek, Nat2Z.id, Eo, Em, leaf_at_nat, Nat2Z.id, Eb, Hc. set (b0 := splice rgt _ _).
    assert (node_kept rgt b0) as Hn0 by (apply body_splice_header; unfold CARAFS_BT_BODY_OFF; lia).
    destruct (leaf_intro bs b0 b (u16 (Z.of_nat (length ds) - Z.of_nat k)) (Z.of_nat (length (enc_dents b)))) as [H3 H4]; try done.
    - unfold b0. by rewrite length_splice.
    - apply splice_bytes_ok; [done|by apply enc_dents_bytes].
    - unfold u16. rewrite Lb, Z.mod_small; lia.
    - apply sub_splice_same; [done|lia].
    - lia.
    - split; [done|]. unfold node_kept in *. by rewrite H4. }
  split_and!; try done; [intros ->; simpl in La; lia|intros ->; simpl in Lb; lia|].
  intros d Hd. pose proof (enc_dent_size d Hd). lia.
Qed.

(** * Removal *)

Lemma leaf_find_spec bs n all h s pre ds : leaf_rep bs n all -> in_u8 s -> all = pre ++ ds ->
  leaf_find (length ds) n h s (Z.of_nat (length (enc_dents pre))) =
    match from (keyed h s) ds with [] => None | _ => Some (Z.of_nat (length (enc_dents (pre ++ before (keyed h s) ds)))) end.
Proof.
  intros Hr Hs8. revert pre. induction ds as [|d ds IH]; intros pre E; [done|]. cbn [length leaf_find]. destruct (entry_at bs n all Hr pre d ds E) as (-> & Hd & Eo).
  cbn [from before]. change ((de_hash (fst d) =? h) && (de_seq (fst d) =? s)) with (keyed h s (fst d) (snd d)). destruct (keyed h s (fst d) (snd d)) eqn:Ek; [by rewrite app_nil_r|].
  change (0 <? key_cmp (de_hash (fst d)) (de_seq (fst d)) h s) with (past h s (fst d) (snd d)). rewrite past_spec by (done || apply Hd).
  destruct (Z.ltb_spec (h * 2 ^ 8 + s) (dkey (fst d))) as [Hlt|Hge].
  - assert (from (keyed h s) ds = []) as ->; [|done]. pose proof (lr_sorted _ _ _ Hr) as Hso. pose proof (lr_ok _ _ _ Hr) as Hok. rewrite E in Hso, Hok.
    apply sorted_app in Hso as (_ & [_ Hso]%StronglySorted_inv & _). apply Forall_app in Hok as [_ [_ Hok]%Forall_cons]. rewrite Forall_forall in Hso, Hok.
    rewrite <- (app_nil_r ds), from_skip; [done|]. apply Forall_forall. intros x Hx. apply not_true_is_false. intros Hkx%keyed_spec; [|by apply Hok|done]. specialize (Hso x Hx). cbv beta in Hso. lia.
  - rewrite Eo, IH by (by rewrite E, <- app_assoc). by rewrite <- app_assoc.
Qed.
Lemma leaf_drop_spec bs n a d b : leaf_rep bs n (a ++ d :: b) ->
  leaf_rep bs (leaf_drop (Z.of_nat (length (enc_dents a))) n) (a ++ b) /\ node_kept n (leaf_drop (Z.of_nat (length (enc_dents a))) n).
Proof.
  intros Hr. pose proof Hr as [Hl Hbs Hby Hc Hu Hb Hf Hok Hs]. destruct (entry_at bs n _ Hr a d b eq_refl) as (Ed & Hd & _). pose proof (length_enc_dent d Hd) as EN. pose proof (enc_dent_size d Hd) as Hsz.
  set (A := enc_dents a). set (N := enc_dent d) in *. set (B := enc_dents b). rewrite enc_dents_snoc in Hb, Hf, Hu. fold A N B in Hb, Hf, Hu. rewrite !length_app in Hu, Hf.
  assert (Forall dent_ok (a ++ b)) as Hok' by (apply Forall_app in Hok as [H1 [_ H2]%Forall_cons]; by apply Forall_app).
  pose proof (count_bound _ Hok') as Hcb. rewrite length_dents_app in Hcb. fold A B in Hcb. assert (length (a ++ d :: b) = S (length (a ++ b))) as Ec by (rewrite !length_app; simpl; lia).
  unfold leaf_drop. rewrite leaf_at_nat in *. fold A in Ed. rewrite Ed, <- EN, <- Nat2Z.inj_add, leaf_at_nat, Hu.
  replace (Z.to_nat (u32 (Z.of_nat (length A + (length N + length B)) - Z.of_nat (length A) - Z.of_nat (length N)))) with (length B) by (unfold u32; rewrite Z.mod_small; lia).
  unfold memmove. assert (sub (CARAFS_BT_BODY_OFF + (length A + length N)) (length B) n = B) as EB.
  { rewrite <- (sub_sub _ _ _ (length (A ++ N ++ B))) by (rewrite !length_app; lia). rewrite Hb, app_assoc. rewrite <- (app_nil_r B) at 2. by apply sub_at; [rewrite length_app|]. }
  rewrite EB. set (b1 := splice n (CARAFS_BT_BODY_OFF + length A) B). unfold CARAFS_BT_BODY_OFF in *.
  assert (forall k o, (o + k <= 32)%nat -> sub o k b1 = sub o k n) as Hh by (intros; apply sub_splice_other; lia).
  assert (n_records b1 = n_records n) as En by (unfold n_records, rd; by rewrite Hh by lia). rewrite En, Hc, Ec.
  set (c1 := wr 2 b1 18 _). assert (used_bytes c1 = used_bytes n) as Eu by (unfold c1, used_bytes; rewrite rd_wr_other by lia; unfold rd; by rewrite Hh by lia). rewrite Eu, Hu.
  replace (u32 (Z.of_nat (length A + (length N + length B)) - Z.of_nat (length N))) with (Z.of_nat (length (enc_dents (a ++ b)))) by (unfold u32; rewrite length_dents_app, Z.mod_small; unfold A, B in *; lia).
  set (b2 := wr 4 c1 20 _). assert (leaf_rep bs b2 (a ++ b) /\ node_kept b1 b2) as [H1 H2].
  { apply leaf_intro; try done.
    - unfold b1. by rewrite length_splice.
    - apply splice_bytes_ok; [done|]. apply enc_dents_bytes. apply Forall_app in Hok as [_ [_ Hok]%Forall_cons]. done.
    - unfold u16. rewrite Z.mod_small; lia.
    - unfold CARAFS_BT_BODY_OFF. rewrite enc_dents_app. fold A B. rewrite length_app. apply list_eq. intros i. destruct (decide (i < length A + length B)%nat) as [Hi|Hi].
      + rewrite lookup_sub by lia. unfold b1. destruct (decide (i < length A)%nat) as [Hi2|Hi2].
        * rewrite lookup_splice_out by lia. rewrite lookup_app_l by lia. rewrite <- (lookup_sub 32 (length (A ++ N ++ B)) n i) by (rewrite !length_app; lia). rewrite Hb. by rewrite lookup_app_l.
        * rewrite lookup_splice_in by lia. rewrite lookup_app_r by lia. f_equal; lia.
      + rewrite !lookup_ge_None_2; [done|rewrite length_app; lia|unfold sub; rewrite length_take; lia].
    - unfold CARAFS_BT_BODY_OFF. rewrite length_dents_app. fold A B. lia.
    - apply sorted_app in Hs as (S1 & [S2 _]%StronglySorted_inv & S3). apply sorted_app. split_and!; [done|done|set_solver]. }
  rewrite (lr_used _ _ _ H1), leaf_at_nat. unfold memzero. destruct H1 as [I1 I2 I3 I4 I5 I6 I7 I8 I9]. unfold CARAFS_BT_BODY_OFF in *.
  assert (forall k o, (o + k <= 32 + length (enc_dents (a ++ b)))%nat -> sub o k (splice b2 (32 + length (enc_dents (a ++ b))) (zeros (Z.to_nat (Z.of_nat (length N))))) = sub o k b2) as Hz.
  { intros. apply sub_splice_other. lia. }
  split; [split|]; unfold n_records, used_bytes, rd, node_kept, CARAFS_BT_BODY_OFF; rewrite ?Hz by lia; try done.
  - by rewrite length_splice.
  - apply splice_bytes_ok; [done|apply zeros_bytes_ok].
  - unfold node_kept in H2. rewrite H2. apply Hh. lia.
Qed.

(** * Promotion of the inline entries *)

Lemma blob_count_spec fuel pre ds p (c : Z) : p = enc_dents (pre ++ ds) -> Forall dent_ok ds -> Z.of_nat (length p) <= 65536 -> (length (enc_dents ds) < fuel)%nat ->
  0 <= c -> c + Z.of_nat (length ds) <= 65536 -> blob_count fuel p (Z.of_nat (length p)) (Z.of_nat (length (enc_dents pre))) c = c + Z.of_nat (length ds).
Proof.
  revert pre ds c. induction fuel as [|fuel IH]; intros pre ds c Ep Hok Hl Hf Hc Hc2; [lia|]. cbn [blob_count]. destruct ds as [|d ds].
  - rewrite (proj2 (Z.ltb_ge _ _)) by (rewrite Ep, app_nil_r; lia). simpl. lia.
  - apply Forall_cons in Hok as [Hd Hok]. cbn [length] in Hc2. pose proof (length_enc_dent d Hd) as El. pose proof (enc_dent_size d Hd) as Hst. rewrite enc_dents_snoc in Ep.
    assert (length p = length (enc_dents pre) + length (enc_dent d) + length (enc_dents ds))%nat as Elp by (rewrite Ep, !length_app; lia). rewrite length_dents_cons in Hf.
    rewrite (proj2 (Z.ltb_lt _ _)) by lia. rewrite Nat2Z.id.
    destruct (dirent_at_sub p 0 p (enc_dents pre) d (enc_dents ds)) as [Ed _]; [unfold sub; by rewrite take_ge|done|done|]. rewrite Nat.add_0_l in Ed. rewrite Ed.
    assert (length (enc_dents (pre ++ [d])) = length (enc_dents pre) + length (enc_dent d))%nat as Ea by (rewrite length_dents_app, length_dents_cons; simpl; lia).
    replace (u32 (Z.of_nat (length (enc_dents pre)) + dirent_stride (de_name_len (fst d)))) with (Z.of_nat (length (enc_dents (pre ++ [d])))) by (unfold u32; rewrite <- El, Z.mod_small; lia).
    replace (u32 (c + 1)) with (c + 1) by (unfold u32; rewrite Z.mod_small; lia).
    rewrite (IH (pre ++ [d]) ds (c + 1)); [cbn [length]; lia|rewrite <- app_assoc; simpl; by rewrite enc_dents_snoc|done|done|lia..].
Qed.
Lemma spill_leaf_spec bs n ds : length n = bs -> Z.of_nat CARAFS_BT_BODY_OFF <= Z.of_nat bs <= 65536 -> bytes_ok n -> (CARAFS_BT_BODY_OFF + length (enc_dents ds) <= bs)%nat ->
  Forall dent_ok ds -> sorted ds -> leaf_rep bs (spill_leaf (enc_dents ds) n) ds /\ node_kept n (spill_leaf (enc_dents ds) n).
Proof.
  intros Hl Hbs Hby Hf Hok Hs. pose proof (count_bound ds Hok) as Hcb. unfold spill_leaf. set (b0 := splice n _ _).
  assert (node_kept n b0) as Hn0 by (apply body_splice_header; unfold CARAFS_BT_BODY_OFF; lia).
  replace (blob_count _ _ _ 0 0) with (Z.of_nat (length ds)).
  2:{ symmetry. etransitivity; [apply (blob_count_spec _ [] ds (enc_dents ds) 0); done || lia|lia]. }
  destruct (leaf_intro bs b0 ds (u16 (Z.of_nat (length ds))) (Z.of_nat (length (enc_dents ds)))) as [H1 H2]; try done.
  - unfold b0. by rewrite length_splice.
  - apply splice_bytes_ok; [done|by apply enc_dents_bytes].
  - unfold u16. rewrite Z.mod_small; lia.
  - apply sub_splice_same; [done|lia].
  - split; [done|]. unfold node_kept in *. by rewrite H2.
Qed.

(** * The list a leaf holds *)

(** The new entry goes to the half that owns its key. *)
Lemma insert_halves stop (d : dent) a b : b <> [] -> Forall (fun x => stop (fst x) (snd x) = true) b ->
  before stop (a ++ b) ++ d :: from stop (a ++ b) = (before stop a ++ d :: from stop a) ++ b.
Proof.
  intros Hb Hall. induction a as [|x a IH].
  - destruct b as [|y b]; [done|]. apply Forall_cons in Hall as [Hy _]. simpl. rewrite Hy. done.
  - simpl. destruct (stop (fst x) (snd x)); [done|]. simpl. by rewrite IH.
Qed.
Lemma insert_skip stop (d : dent) a b : Forall (fun x => stop (fst x) (snd x) = false) a ->
  before stop (a ++ b) ++ d :: from stop (a ++ b) = a ++ before stop b ++ d :: from stop b.
Proof. induction 1 as [|x a Hx _ IH]; [done|]. simpl. rewrite Hx. simpl. by rewrite IH. Qed.

Lemma min_key_spec bs n d ds : leaf_rep bs n (d :: ds) -> bt_level n = 0 -> bt_flavour n = CARAFS_BT_DIR -> node_min_key n = (de_hash (fst d), de_seq (fst d)).
Proof.
  intros Hr Hl Hf. destruct (entry_at bs n _ Hr [] d ds eq_refl) as (Ed & _ & _). unfold node_min_key. rewrite Hl, Hf. cbn [Z.ltb Z.compare].
  change (CARAFS_BT_DIR =? CARAFS_BT_EXTENT) with false. cbn iota. by rewrite <- Ed.
Qed.
Lemma key_cmp_ge h s d : in_u8 s -> in_u8 (de_seq d) -> (0 <=? key_cmp h s (de_hash d) (de_seq d)) = (dkey d <=? h * 2 ^ 8 + s).
Proof.
  unfold in_u8. intros Hs Hd. unfold key_cmp, dkey. apply eq_true_iff_eq. rewrite !Z.leb_le. destruct (Z.eqb_spec h (de_hash d)) as [->|]; cbn [negb].
  - destruct (Z.eqb_spec s (de_seq d)) as [->|]; cbn [negb]; [lia|]. destruct (Z.ltb_spec s (de_seq d)); lia.
  - destruct (Z.ltb_spec h (de_hash d)); lia.
Qed.

(** A full leaf is split and the entry placed in one of the halves, as [carafs_dtree_insert] does. *)
Definition place_split (de : CarafsDirent) (name n rgt : list Z) : list Z * list Z :=
  let r := dsplit_right n rgt in
  let l := dsplit_left n in
  let '(rmin_hi, rmin_lo) := node_min_key r in
  if 0 <=? key_cmp (de_hash de) (de_seq de) rmin_hi rmin_lo then (l, leaf_place de name r) else (leaf_place de name l, r).
Lemma place_split_spec bs n ds d rgt (stop := past (de_hash (fst d)) (de_seq (fst d))) :
  leaf_rep bs n ds -> 1152 <= Z.of_nat bs -> (2 <= length ds)%nat -> dent_ok d -> Forall (fun x => dkey (fst x) <> dkey (fst d)) ds ->
  length rgt = bs -> bytes_ok rgt -> bt_level rgt = 0 -> bt_flavour rgt = CARAFS_BT_DIR ->
  let '(l, r) := place_split (fst d) (snd d) n rgt in
  exists a b, before stop ds ++ d :: from stop ds = a ++ b /\ a <> [] /\ b <> [] /\ leaf_rep bs l a /\ leaf_rep bs r b /\ node_kept n l /\ node_kept rgt r.
Proof.
  intros Hr Hbs H2 Hd Hk Hl Hby Hlev Hfl. destruct (split_spec bs n ds rgt Hr Hbs H2 Hl Hby) as (a & b & Eds & Ha & Hb & RL & RR & KL & KR & Hroom).
  destruct (Hroom d Hd) as [RA RB]. rewrite Eds in Hk. apply Forall_app in Hk as [Hka Hkb]. pose proof (lr_sorted _ _ _ Hr) as Hs. rewrite Eds in Hs.
  apply sorted_app in Hs as (Sa & Sb & Sab). destruct b as [|y b]; [done|].
  assert (bt_level (dsplit_right n rgt) = 0 /\ bt_flavour (dsplit_right n rgt) = CARAFS_BT_DIR) as [Lr Fr].
  { rewrite <- Hlev, <- Hfl. split; by apply node_kept_rd; [|lia]. }
  unfold place_split. rewrite (min_key_spec bs _ y b RR Lr Fr). pose proof (lr_ok _ _ _ RR) as Hob. pose proof (lr_ok _ _ _ RL) as Hoa. pose proof (Forall_inv Hob) as Hy.
  rewrite key_cmp_ge by (apply Hd || apply Hy). change (de_hash (fst d) * 2 ^ 8 + de_seq (fst d)) with (dkey (fst d)).
  assert (forall x, dent_ok x -> stop (fst x) (snd x) = (dkey (fst d) <? dkey (fst x))) as Hp by (intros x Hx; apply past_spec; [apply Hx|apply Hd]).
  rewrite Forall_forall in Hoa, Hob. destruct (Z.leb_spec (dkey (fst y)) (dkey (fst d))) as [Hle|Hgt].
  - exists a, (before stop (y :: b) ++ d :: from stop (y :: b)). destruct (place_spec bs _ (y :: b) d RR Hd Hkb RB) as [P1 P2]. split_and!; try done.
    + rewrite Eds. apply insert_skip. apply Forall_forall. intros x Hx. rewrite Hp by (by apply Hoa). apply Z.ltb_ge. specialize (Sab x y Hx ltac:(set_solver)). lia.
    + by destruct (before stop (y :: b)).
    + unfold node_kept in *. by rewrite P2.
  - exists (before stop a ++ d :: from stop a), (y :: b). destruct (place_spec bs _ a d RL Hd Hka RA) as [P1 P2]. split_and!; try done.
    + rewrite Eds. apply insert_halves; [done|]. apply Forall_forall. intros x Hx. rewrite Hp by (by apply Hob). apply Z.ltb_lt. apply StronglySorted_inv in Sb as [_ Sb]. rewrite Forall_forall in Sb.
      apply elem_of_cons in Hx as [->|Hx]; [done|]. specialize (Sb x Hx). cbv beta in Sb. lia.
    + by destruct (before stop a).
    + unfold node_kept in *. by rewrite P2.
Qed.


Module DleafExample.
(** A new leaf block, and the leaf of the directory of [DirExample]. *)
Definition blank : list Z := wr 1 (wr 8 (wr 4 (zeros 2048) 0 CARAFS_MAGIC_BTREE) 8 7) 17 CARAFS_BT_DIR.
Definition leaf : list Z := spill_leaf (enc_dents DirExample.ds) blank.
Definition d : dent := (new_dirent [67] 6 CARAFS_T_FILE 0, [67]).
Lemma d_ok : dent_ok d.
Proof. split; try (by vm_compute). apply AllocExample.bytes_okb_ok. by vm_compute. Qed.
Lemma blank_ok : length blank = 2048%nat /\ bytes_ok blank /\ bt_level blank = 0 /\ bt_flavour blank = CARAFS_BT_DIR.
Proof. split_and!; try (by vm_compute). apply AllocExample.bytes_okb_ok. by vm_compute. Qed.
Lemma leaf_ok : leaf_rep 2048 leaf DirExample.ds.
Proof.
  destruct blank_ok as (H1 & H2 & _). apply spill_leaf_spec; [exact H1|unfold CARAFS_BT_BODY_OFF; lia|exact H2| |exact DirExample.ds_ok|].
  - apply Nat.leb_le. vm_compute. reflexivity.
  - repeat constructor; by vm_compute.
Qed.
Lemma d_fresh : Forall (fun x : dent => dkey (fst x) <> dkey (fst d)) DirExample.ds.
Proof. repeat constructor; vm_compute; discriminate. Qed.

(** Three names of one hash, the third after a gap in the sequences, in the next leaf: listing the tree
    reaches it, looking it up does not. *)
Definition same (name seq : Z) : list Z := dirent_bytes (mkDe 9 (10 + seq) CARAFS_T_FILE 1 seq 0) [name].
Definition seal (b level used nrec : Z) (body : list Z) : list Z :=
  let n := splice (zeros 128) 32 body in
  let n := wr 1 (wr 1 (wr 8 (wr 4 n 0 CARAFS_MAGIC_BTREE) 8 b) 16 level) 17 CARAFS_BT_DIR in
  carafs_put_crc (wr 4 (wr 2 n 18 nrec) 20 used) 128 BT_CRC.
Definition dev : CarafsMemBdev :=
  {| mb_mem := zeros 128 ++ seal 1 1 48 2 (irec_bytes 9 0 2 ++ irec_bytes 9 3 3) ++ seal 2 0 48 2 (same 97 0 ++ same 98 1) ++ seal 3 0 24 1 (same 100 3);
     mb_block_size := 128; mb_n_blocks := 4 |}.
Definition m0 : CarafsMount CarafsMemBdev :=
  mkMount dev 128 false true (sb_of_bytes (zeros 512)) [] [] 0 0 false [] (sb_of_bytes (zeros 512)) (mkJ 0 0 0 0 0).
Definition vol : CarafsMount CarafsMemBdev := cache_init 4 4 m0.
Lemma dtree_lookup_misses :
  fst (carafs_dtree_next 1 9 1 true vol) = Ok (mkDe 9 13 CARAFS_T_FILE 1 3 0, [100]) /\
  fst (carafs_dtree_lookup 1 9 [98] vol) = Ok (mkDe 9 11 CARAFS_T_FILE 1 1 0) /\
  fst (carafs_dtree_lookup 1 9 [100] vol) = Err CARA_ENOTFOUND.
Proof. split_and!; vm_compute; reflexivity. Qed.
End DleafExample.
