(* ===== verification/Gpt.v ===== *)
(** GUID partition tables ([src/logaic/gpt/gpt.c], [include/cara/gpt.h]): discovery of the CaraFS
    partitions of a disk, selection of a volume by its UUID, and laying out a fresh table. The
    disk is reached through [struct GptDev], modelled as a class with its laws; a disk is its
    byte contents. *)

From S2P Require Import Prelude Format.

(** * Constants and structures of gpt.h *)

Definition GPT_HEADER_LBA : Z := 1.
Definition GPT_ENTRY_LBA : Z := 2.
Definition GPT_ENTRY_COUNT : Z := 128.
Definition GPT_ENTRY_SIZE : Z := 128.
Definition GPT_ARRAY_BYTES : Z := 16384.
Definition GPT_HEADER_SIZE : Z := 92.
Definition GPT_REVISION : Z := 0x00010000.
Definition GPT_ALIGN_BYTES : Z := 2 ^ 20.
Definition GPT_SIGNATURE : list Z := [0x45; 0x46; 0x49; 0x20; 0x50; 0x41; 0x52; 0x54].
Definition CARAFS_GPT_TYPE_GUID : list Z :=
  [0x50; 0x0F; 0x1A; 0xCA; 0x00; 0x00; 0x61; 0x43; 0x72; 0x61; 0x46; 0x53; 0x21; 0x00; 0x00; 0x00].

(** [struct GptPartSpec]. *)
Record GptPartSpec := mkSpec { sp_type_guid : list Z; sp_unique_guid : list Z; sp_first_lba : Z; sp_last_lba : Z }.

(** [struct GptDev]: [read] and [write] transfer whole LBAs. [gd_bytes] is the disk's contents. *)
Class GptDev (D : Type) := {
  gd_lba_size : D -> nat;
  gd_n_lbas : D -> Z;
  gd_read : D -> Z -> Z -> result (list Z) * D;
  gd_write : D -> Z -> Z -> list Z -> result unit * D;
  gd_bytes : D -> list Z
}.

(** * CRC-32 *)

Definition gpt_crc_step (crc : Z) : Z :=
  Z.lxor (Z.shiftr crc 1) (Z.land 0xEDB88320 (u32 (not32 (Z.land crc 1) + 1))).
Definition gpt_crc_byte (crc b : Z) : Z := Nat.iter 8 gpt_crc_step (Z.lxor crc b).
Definition Gpt_Crc32 (seed : Z) (data : list Z) : Z := not32 (foldl gpt_crc_byte (not32 seed) data).

(** * Helpers *)

Definition array_lba_count (lba_size : Z) : Z := u32 (u32 (GPT_ARRAY_BYTES + lba_size) - 1) / lba_size.

(** The checksum of the header with its own field zeroed. *)
Definition header_crc (blk : list Z) : Z := Gpt_Crc32 0 (sub 0 (Z.to_nat GPT_HEADER_SIZE) (wr 4 blk 16 0)).

(** * Discovery *)

(** The fields of [struct GptEntry] at byte [off] of the array. *)
Definition entry_type (array : list Z) (off : nat) : list Z := sub off 16 array.
Definition entry_start (array : list Z) (off : nat) : Z := rd 8 array (off + 32).
Definition entry_end (array : list Z) (off : nat) : Z := rd 8 array (off + 40).
Definition entry_matches (array : list Z) (off : nat) (n_lbas : Z) : bool :=
  bool_decide (entry_type array off = CARAFS_GPT_TYPE_GUID) &&
  negb ((entry_start array off =? 0) || (entry_end array off <? entry_start array off) || (n_lbas <=? entry_end array off)).

(** The loop over the entries. *)
Fixpoint scan_entries (n : nat) (array : list Z) (esize n_lbas : Z) (i seen nth : Z) : result (Z * Z) :=
  match n with
  | O => Err CARA_ENOENT
  | S n =>
      let off := Z.to_nat (i * esize) in
      if entry_matches array off n_lbas then
        if negb (seen =? nth) then scan_entries n array esize n_lbas (i + 1) (u32 (seen + 1)) nth
        else Ok (entry_start array off, u64 (u64 (entry_end array off - entry_start array off) + 1))
      else scan_entries n array esize n_lbas (i + 1) seen nth
  end.

(** The checks on the header block. *)
Definition header_valid (lba_size : Z) (h : list Z) : bool :=
  bool_decide (sub 0 8 h = GPT_SIGNATURE) && negb (rd 4 h 12 <? GPT_HEADER_SIZE) && negb (lba_size <? rd 4 h 12) &&
  (header_crc h =? rd 4 h 16).
Definition array_shape_ok (ecount esize : Z) : bool :=
  negb ((ecount =? 0) || (esize <? 128) || (GPT_ARRAY_BYTES <? ecount * esize)).

Section Gpt.
Context {D : Type} `{!GptDev D}.

Definition lba_read (lba n : Z) : ST D (list Z) := fun d => gd_read d lba n.
Definition lba_write (lba n : Z) (buf : list Z) : ST D unit := fun d => gd_write d lba n buf.

Definition Gpt_FindCarafsNth (scratch_bytes nth : Z) : ST D (Z * Z) :=
  d ← (st_get : ST D D);
  let ls := Z.of_nat (gd_lba_size d) in
  assert! ls + GPT_ARRAY_BYTES <=? scratch_bytes else CARA_EINVAL;
  h ← lba_read GPT_HEADER_LBA 1;
  assert! header_valid ls h else CARA_ENOENT;
  let ecount := rd 4 h 80 in
  let esize := rd 4 h 84 in
  assert! array_shape_ok ecount esize else CARA_ENOENT;
  let abytes := ecount * esize in
  let albas := u32 ((abytes + ls - 1) / ls) in
  array ← lba_read (rd 8 h 72) albas;
  assert! Gpt_Crc32 0 (sub 0 (Z.to_nat abytes) array) =? rd 4 h 88 else CARA_ENOENT;
  st_lift (scan_entries (Z.to_nat ecount) array esize (gd_n_lbas d) 0 0 nth).

Definition Gpt_FindCarafs (scratch_bytes : Z) : ST D (Z * Z) := Gpt_FindCarafsNth scratch_bytes 0.

(** [for (u32 nth = 0;; nth++)]; at most 128 entries, so 130 rounds are never used up. *)
Fixpoint uuid_loop (fuel : nat) (scratch_bytes : Z) (magic : list Z) (uuid_off : Z) (target : list Z) (nth : Z) : ST D (Z * Z) :=
  match fuel with
  | O => st_err CARA_EINVAL
  | S fuel =>
      '(first, count) ← Gpt_FindCarafsNth scratch_bytes nth;
      rc ← st_try (lba_read first 1);
      match rc with
      | Err _ => uuid_loop fuel scratch_bytes magic uuid_off target (u32 (nth + 1))
      | Ok sb =>
          if bool_decide (sub 0 (length magic) sb = magic) && bool_decide (sub (Z.to_nat uuid_off) 16 sb = target)
          then mret (first, count)
          else uuid_loop fuel scratch_bytes magic uuid_off target (u32 (nth + 1))
      end
  end.
Definition Gpt_FindByVolumeUuid (scratch_bytes : Z) (magic : list Z) (uuid_off : Z) (target : list Z) : ST D (Z * Z) :=
  d ← (st_get : ST D D);
  assert! u32 (uuid_off + 16) <=? Z.of_nat (gd_lba_size d) else CARA_EINVAL;
  uuid_loop 130 scratch_bytes magic uuid_off target 0.

(** * Formatting *)

Definition build_header (blk : list Z) (my_lba alt_lba entry_lba first_usable last_usable : Z) (disk_guid : list Z)
    (entry_crc : Z) : list Z :=
  let blk := splice blk 0 GPT_SIGNATURE in
  let blk := wr 4 (wr 4 blk 8 GPT_REVISION) 12 GPT_HEADER_SIZE in
  let blk := wr 8 (wr 8 blk 24 my_lba) 32 alt_lba in
  let blk := wr 8 (wr 8 blk 40 first_usable) 48 last_usable in
  let blk := splice blk 56 disk_guid in
  let blk := wr 4 (wr 4 (wr 8 blk 72 entry_lba) 80 GPT_ENTRY_COUNT) 84 GPT_ENTRY_SIZE in
  let blk := wr 4 (wr 4 blk 88 entry_crc) 16 0 in
  wr 4 blk 16 (Gpt_Crc32 0 (sub 0 (Z.to_nat GPT_HEADER_SIZE) blk)).

Definition Gpt_FirstUsableLba (d : D) : Z := u64 (GPT_ENTRY_LBA + array_lba_count (Z.of_nat (gd_lba_size d))).
Definition Gpt_LastUsableLba (d : D) : Z :=
  u64 (gd_n_lbas d - 1 - array_lba_count (Z.of_nat (gd_lba_size d)) - 1).

(** [{ 'C', 0, 'a', 0, ... }]: "CaraFS" in UTF-16LE. *)
Definition part_name : list Z := [0x43; 0; 0x61; 0; 0x72; 0; 0x61; 0; 0x46; 0; 0x53; 0].
Definition put_entry (array : list Z) (off : nat) (s : GptPartSpec) : list Z :=
  let array := splice (splice array off (sp_type_guid s)) (off + 16) (sp_unique_guid s) in
  let array := wr 8 (wr 8 (wr 8 array (off + 32) (sp_first_lba s)) (off + 40) (sp_last_lba s)) (off + 48) 0 in
  splice array (off + 56) part_name.
Fixpoint put_entries (array : list Z) (i : Z) (specs : list GptPartSpec) (first_usable last_usable : Z) : result (list Z) :=
  match specs with
  | [] => Ok array
  | s :: specs =>
      if (sp_first_lba s <? first_usable) || (last_usable <? sp_last_lba s) || (sp_last_lba s <? sp_first_lba s)
      then Err CARA_ERANGE
      else put_entries (put_entry array (Z.to_nat (i * GPT_ENTRY_SIZE)) s) (i + 1) specs first_usable last_usable
  end.

(** The protective MBR. *)
Definition mbr_image (ls : nat) (n : Z) : list Z :=
  let blk := <[(446 + 4)%nat := 0xEE]> (zeros ls) in
  let blk := wr 4 blk (446 + 8) 1 in
  let mbr_size := if 0xFFFFFFFF <? u64 (n - 1) then 0xFFFFFFFF else u32 (n - 1) in
  let blk := wr 4 blk (446 + 12) mbr_size in
  <[511%nat := 0xAA]> (<[510%nat := 0x55]> blk).

Definition Gpt_FormatN (disk_guid : list Z) (specs : list GptPartSpec) (scratch_bytes : Z) : ST D unit :=
  d ← (st_get : ST D D);
  let n_parts := Z.of_nat (length specs) in
  assert! negb ((n_parts =? 0) || (GPT_ENTRY_COUNT <? n_parts)) else CARA_EINVAL;
  let ls := Z.of_nat (gd_lba_size d) in
  let n := gd_n_lbas d in
  assert! negb ((scratch_bytes <? ls + GPT_ARRAY_BYTES) || (ls <? 512) || negb (GPT_ARRAY_BYTES mod ls =? 0)) else CARA_EINVAL;
  let albas := array_lba_count ls in
  let first_usable := u64 (GPT_ENTRY_LBA + albas) in
  assert! negb (n <? u64 (first_usable + albas + 2)) else CARA_ERANGE;
  let last_usable := u64 (n - 1 - albas - 1) in
  array ← (st_lift (put_entries (zeros (Z.to_nat GPT_ARRAY_BYTES)) 0 specs first_usable last_usable) : ST D (list Z));
  let acrc := Gpt_Crc32 0 array in
  let zero := zeros (gd_lba_size d) in
  lba_write 0 1 (mbr_image (gd_lba_size d) n);;
  lba_write GPT_HEADER_LBA 1
    (build_header zero GPT_HEADER_LBA (u64 (n - 1)) GPT_ENTRY_LBA first_usable last_usable disk_guid acrc);;
  lba_write GPT_ENTRY_LBA albas array;;
  let bak_array_lba := u64 (n - 1 - albas) in
  lba_write bak_array_lba albas array;;
  lba_write (u64 (n - 1)) 1
    (build_header zero (u64 (n - 1)) GPT_HEADER_LBA bak_array_lba first_usable last_usable disk_guid acrc).

Definition Gpt_Format (disk_guid part_guid : list Z) (scratch_bytes : Z) : ST D (Z * Z) :=
  d ← (st_get : ST D D);
  let ls := Z.of_nat (gd_lba_size d) in
  assert! negb (ls <? 512) else CARA_EINVAL;
  let first_usable := Gpt_FirstUsableLba d in
  let last_usable := Gpt_LastUsableLba d in
  let align := GPT_ALIGN_BYTES / ls in
  let align := if align =? 0 then 1 else align in
  let part_first := u64 (u64 (first_usable + align - 1) / align * align) in
  assert! negb (last_usable <? part_first) else CARA_ERANGE;
  Gpt_FormatN disk_guid [mkSpec CARAFS_GPT_TYPE_GUID part_guid part_first last_usable] scratch_bytes;;
  mret (part_first, u64 (u64 (last_usable - part_first) + 1)).
End Gpt.

(** * The disk *)

(** LBAs [lba .. lba+n-1] of a disk of [ls]-byte LBAs. *)
Definition lbas (ls : nat) (bytes : list Z) (lba n : Z) : list Z := sub (Z.to_nat lba * ls) (Z.to_nat n * ls) bytes.

(** What the code may rely on: a transfer does not change the disk's size, a read nothing at all,
    a write only the LBAs it names. *)
Class GptDevLaws (D : Type) `{GptDev D} := {
  gd_wf : D -> Prop;
  gd_shape d : gd_wf d -> length (gd_bytes d) = (Z.to_nat (gd_n_lbas d) * gd_lba_size d)%nat /\ bytes_ok (gd_bytes d) /\
    0 <= gd_n_lbas d < 2 ^ 63 /\ (0 < gd_lba_size d)%nat /\ Z.of_nat (gd_lba_size d) < 2 ^ 31;
  gd_read_spec d lba n r d' : gd_wf d -> gd_read d lba n = (r, d') ->
    gd_wf d' /\ gd_bytes d' = gd_bytes d /\ gd_n_lbas d' = gd_n_lbas d /\ gd_lba_size d' = gd_lba_size d /\
    (forall data, r = Ok data -> bytes_ok data /\ length data = (Z.to_nat n * gd_lba_size d)%nat /\
       (0 <= lba -> lba + n <= gd_n_lbas d -> data = lbas (gd_lba_size d) (gd_bytes d) lba n));
  gd_write_spec d lba n buf r d' : gd_wf d -> 0 <= lba -> 0 <= n -> lba + n <= gd_n_lbas d ->
    length buf = (Z.to_nat n * gd_lba_size d)%nat -> bytes_ok buf -> gd_write d lba n buf = (r, d') ->
    gd_wf d' /\ gd_n_lbas d' = gd_n_lbas d /\ gd_lba_size d' = gd_lba_size d /\
    (r = Ok tt -> gd_bytes d' = splice (gd_bytes d) (Z.to_nat lba * gd_lba_size d) buf)
}.

(** A disk that does not fail in-range transfers. *)
Definition gpt_reliable (D : Type) `{GptDevLaws D} : Prop := forall d, gd_wf d ->
  (forall lba n, 0 <= lba -> 0 <= n -> lba + n <= gd_n_lbas d -> is_ok (fst (gd_read d lba n)) = true) /\
  (forall lba n buf, 0 <= lba -> 0 <= n -> lba + n <= gd_n_lbas d -> length buf = (Z.to_nat n * gd_lba_size d)%nat ->
     is_ok (fst (gd_write d lba n buf)) = true).

Lemma lbas_write_same ls bytes lba n buf : length buf = (Z.to_nat n * ls)%nat ->
  ((Z.to_nat lba + Z.to_nat n) * ls <= length bytes)%nat -> lbas ls (splice bytes (Z.to_nat lba * ls) buf) lba n = buf.
Proof. intros Hb Hl. unfold lbas. apply sub_splice_same; lia. Qed.
Lemma lbas_write_other ls bytes lba n buf lba' n' : length buf = (Z.to_nat n * ls)%nat -> 0 <= lba -> 0 <= n -> 0 <= lba' -> 0 <= n' ->
  lba' + n' <= lba \/ lba + n <= lba' -> lbas ls (splice bytes (Z.to_nat lba * ls) buf) lba' n' = lbas ls bytes lba' n'.
Proof. intros Hb H1 H2 H3 H4 Hd. unfold lbas. apply sub_splice_other. rewrite Hb. destruct Hd; [left|right]; nia. Qed.

(** Skip the write of [n] LBAs at [lba]. *)
Ltac lba_other lba n buf := rewrite (lbas_write_other _ _ lba n buf); [|done|lia|lia|lia|lia|lia].

(** * Headers and entries *)

Lemma gpt_crc_step_range c : in_u32 c -> in_u32 (gpt_crc_step c).
Proof.
  intros Hc. unfold gpt_crc_step, in_u32 in *. apply lxor_range; [lia| |].
  - rewrite Z.shiftr_div_pow2 by lia. change (2 ^ 1) with 2. split; [apply Z.div_pos; lia|]. apply Z.div_lt_upper_bound; lia.
  - apply land_range; [lia|]. lia.
Qed.
Lemma gpt_crc_range seed data : in_u32 (Gpt_Crc32 seed data).
Proof. apply not32_range. Qed.

(** Field reads through field writes. *)
Ltac hdr_len := rewrite ?length_splice, ?length_wr, ?length_zeros, ?length_le_put; cbn [length]; lia.

Lemma build_header_valid ls my alt elba fu lu guid crc :
  (512 <= ls)%nat -> in_u64 elba -> in_u32 crc -> (length guid = 16)%nat -> bytes_ok guid ->
  let h := build_header (zeros ls) my alt elba fu lu guid crc in
  length h = ls /\ bytes_ok h /\ header_valid (Z.of_nat ls) h = true /\
  rd 8 h 72 = elba /\ rd 4 h 80 = GPT_ENTRY_COUNT /\ rd 4 h 84 = GPT_ENTRY_SIZE /\ rd 4 h 88 = crc.
Proof.
  intros Hls He Hc Hg Hgb. unfold build_header.
  set (b1 := splice (zeros ls) 0 GPT_SIGNATURE). set (b2 := wr 4 (wr 4 b1 8 _) 12 _).
  set (b3 := wr 8 (wr 8 (wr 8 (wr 8 b2 24 my) 32 alt) 40 fu) 48 lu). set (b4 := splice b3 56 guid).
  set (b5 := wr 4 (wr 4 (wr 4 (wr 8 b4 72 elba) 80 _) 84 _) 88 crc). cbn zeta.
  assert (length b1 = ls) as L1 by (unfold b1; hdr_len). assert (length b2 = ls) as L2 by (unfold b2; rewrite !length_wr; done).
  assert (length b3 = ls) as L3 by (unfold b3; rewrite !length_wr; done). assert (length b4 = ls) as L4 by (unfold b4; by rewrite length_splice).
  assert (length b5 = ls) as L5 by (unfold b5; rewrite !length_wr; done).
  assert (bytes_ok b5) as B5.
  { unfold b5, b4, b3, b2, b1. repeat first [apply wr_bytes_ok|apply splice_bytes_ok]; auto with cara. repeat constructor; done. }
  set (z := wr 4 b5 16 0). set (c := Gpt_Crc32 0 _).
  assert (length z = ls) as Lz by (unfold z; by rewrite length_wr).
  assert (forall n off, (off + n <= 16 \/ 20 <= off)%nat -> rd n (wr 4 z 16 c) off = rd n b5 off) as Hrd.
  { intros n off Ho. unfold z. rewrite !rd_wr_other by lia. done. }
  assert (header_crc (wr 4 z 16 c) = c) as Hhc.
  { unfold header_crc, c. f_equal. f_equal. unfold wr at 1 2. rewrite splice_splice_same by (rewrite !length_le_put; done). unfold z, wr.
    by rewrite splice_splice_same by (rewrite !length_le_put; done). }
  split_and!.
  - by rewrite length_wr.
  - unfold z. auto with cara.
  - unfold header_valid. rewrite Hhc, (rd_wr_same 4 z 16 c) by (rewrite ?Lz; first [lia|apply gpt_crc_range]). rewrite Z.eqb_refl.
    assert (rd 4 (wr 4 z 16 c) 12 = GPT_HEADER_SIZE) as ->.
    { rewrite Hrd by lia. unfold b5, b4, b3. repeat first [rewrite rd_wr_other by lia]. unfold rd. rewrite sub_splice_other by lia.
      fold (rd 4). change (le_get (sub 12 4 ?x)) with (rd 4 x 12). repeat rewrite rd_wr_other by lia. unfold b2. apply rd_wr_same; [rewrite length_wr; lia|done]. }
    assert (sub 0 8 (wr 4 z 16 c) = GPT_SIGNATURE) as ->.
    { unfold z, b5, b4, b3, b2, b1, wr. repeat rewrite sub_splice_other by (rewrite ?length_le_put; lia). apply sub_splice_same; [done|]. rewrite length_zeros. cbn [length GPT_SIGNATURE]. lia. }
    rewrite bool_decide_true by done. unfold GPT_HEADER_SIZE. rewrite Z.ltb_irrefl, (proj2 (Z.ltb_ge (Z.of_nat ls) 92)) by lia. done.
  - rewrite Hrd by lia. unfold b5. repeat rewrite rd_wr_other by lia. apply rd_wr_same; [lia|done].
  - rewrite Hrd by lia. unfold b5. repeat rewrite rd_wr_other by lia. apply rd_wr_same; [rewrite length_wr; lia|done].
  - rewrite Hrd by lia. unfold b5. repeat rewrite rd_wr_other by lia. apply rd_wr_same; [rewrite !length_wr; lia|done].
  - rewrite Hrd by lia. unfold b5. apply rd_wr_same; [rewrite !length_wr; lia|done].
Qed.

(** A partition description as the callers pass it. *)
Record spec_wf (s : GptPartSpec) : Prop := {
  sp_type : length (sp_type_guid s) = 16%nat /\ bytes_ok (sp_type_guid s);
  sp_unique : length (sp_unique_guid s) = 16%nat /\ bytes_ok (sp_unique_guid s);
  sp_lbas : in_u64 (sp_first_lba s) /\ in_u64 (sp_last_lba s)
}.

(** The entry at byte [off] holds [s]. *)
Definition entry_is (array : list Z) (off : nat) (s : GptPartSpec) : Prop :=
  entry_type array off = sp_type_guid s /\ entry_start array off = sp_first_lba s /\ entry_end array off = sp_last_lba s.

Lemma put_entry_spec array off s : spec_wf s -> (off + 128 <= length array)%nat -> bytes_ok array ->
  let array' := put_entry array off s in
  length array' = length array /\ bytes_ok array' /\ entry_is array' off s /\
  forall o n, (o + n <= off \/ off + 128 <= o)%nat -> sub o n array' = sub o n array.
Proof.
  intros [[T1 T2] [U1 U2] [F1 F2]] Hl Hb. unfold put_entry.
  set (a1 := splice array off _). set (a2 := splice a1 (off + 16) _). set (a3 := wr 8 a2 (off + 32) _).
  set (a4 := wr 8 a3 (off + 40) _). set (a5 := wr 8 a4 (off + 48) 0). cbn zeta.
  assert (length a1 = length array /\ length a2 = length array /\ length a3 = length array /\ length a4 = length array /\ length a5 = length array)
    as (L1 & L2 & L3 & L4 & L5) by (unfold a5, a4, a3, a2, a1; rewrite ?length_wr, ?length_splice; done).
  assert (length part_name = 12%nat) as Ln by done.
  split_and!.
  - by rewrite length_splice.
  - apply splice_bytes_ok; [|repeat constructor; done]. unfold a5, a4, a3, a2, a1. auto 10 with cara.
  - split_and!.
    + unfold entry_type, a5, a4, a3, wr. repeat rewrite sub_splice_other by (rewrite ?length_le_put; lia).
      unfold a2. rewrite sub_splice_other by lia. unfold a1. apply sub_splice_same; lia.
    + unfold entry_start, rd. rewrite sub_splice_other by lia. fold (rd 8 a5 (off + 32)). unfold a5, a4. repeat rewrite rd_wr_other by lia.
      unfold a3. apply rd_wr_same; [lia|done].
    + unfold entry_end, rd. rewrite sub_splice_other by lia. fold (rd 8 a5 (off + 40)). unfold a5. rewrite rd_wr_other by lia.
      unfold a4. apply rd_wr_same; [lia|done].
  - intros o n Ho. unfold a5, a4, a3, a2, a1, wr. repeat rewrite sub_splice_other by (rewrite ?length_le_put; lia). done.
Qed.

Lemma entry_is_ext array array' off s :
  sub off 128 array' = sub off 128 array -> entry_is array off s -> entry_is array' off s.
Proof.
  intros E. assert (forall o n, (o + n <= 128)%nat -> sub (off + o) n array' = sub (off + o) n array) as Hs.
  { intros o n Ho. apply sub_ext. intros i Hi. pose proof (f_equal (fun l => l !! (i - off)%nat) E) as Hi2. cbn beta in Hi2.
    rewrite !lookup_sub in Hi2 by lia. by replace (off + (i - off))%nat with i in Hi2 by lia. }
  unfold entry_is, entry_type, entry_start, entry_end, rd. rewrite !Hs by lia.
  pose proof (Hs 0%nat 16%nat ltac:(lia)) as H0. rewrite Nat.add_0_r in H0. by rewrite H0.
Qed.

Definition spec_fits (fu lu : Z) (s : GptPartSpec) : Prop := fu <= sp_first_lba s /\ sp_last_lba s <= lu /\ sp_first_lba s <= sp_last_lba s.

Lemma put_entries_spec specs array i fu lu array' :
  Forall spec_wf specs -> 0 <= i -> (Z.to_nat (i + Z.of_nat (length specs)) * 128 <= length array)%nat -> bytes_ok array ->
  put_entries array i specs fu lu = Ok array' ->
  length array' = length array /\ bytes_ok array' /\ Forall (spec_fits fu lu) specs /\
  (forall k s, specs !! k = Some s -> entry_is array' ((Z.to_nat i + k) * 128) s) /\
  (forall o n, (o + n <= Z.to_nat i * 128 \/ (Z.to_nat i + length specs) * 128 <= o)%nat -> sub o n array' = sub o n array).
Proof.
  intros Hw. revert array i. induction Hw as [|s specs Hs Hw IH]; intros array i Hi Hl Hb E; simpl in E.
  { injection E as <-. split_and!; try done. }
  destruct (_ || _) eqn:Ec; [done|]. zbool. assert (Z.to_nat (i * GPT_ENTRY_SIZE) = (Z.to_nat i * 128)%nat) as Eo by (unfold GPT_ENTRY_SIZE; lia).
  rewrite Eo in E. cbn [length] in Hl. destruct (put_entry_spec array (Z.to_nat i * 128) s Hs ltac:(lia) Hb) as (P1 & P2 & P3 & P4).
  destruct (IH (put_entry array (Z.to_nat i * 128) s) (i + 1)) as (Q1 & Q2 & Q3 & Q4 & Q5); [lia|rewrite P1; lia|done|done|].
  split_and!; [congruence|done|constructor; [split_and!; lia|done]| |].
  - intros [|k] s' Hk; simpl in Hk.
    + injection Hk as <-. rewrite Nat.add_0_r. apply (entry_is_ext (put_entry array (Z.to_nat i * 128) s)); [|done]. apply Q5. left. lia.
    + replace ((Z.to_nat i + S k) * 128)%nat with ((Z.to_nat (i + 1) + k) * 128)%nat by lia. by apply Q4.
  - intros o n Ho. cbn [length] in Ho. rewrite Q5 by lia. apply P4. lia.
Qed.

(** The CaraFS partitions among the descriptions, in order. *)
Definition is_carafs (s : GptPartSpec) : bool := bool_decide (sp_type_guid s = CARAFS_GPT_TYPE_GUID).
Definition carafs_specs (specs : list GptPartSpec) : list GptPartSpec := List.filter is_carafs specs.

Lemma entry_matches_is array off n_lbas s : entry_is array off s -> 0 < sp_first_lba s <= sp_last_lba s -> sp_last_lba s < n_lbas ->
  entry_matches array off n_lbas = is_carafs s.
Proof.
  intros (E1 & E2 & E3) H1 H2. unfold entry_matches, is_carafs. rewrite E1, E2, E3.
  rewrite (proj2 (Z.eqb_neq _ _)), (proj2 (Z.ltb_ge _ _)), (proj2 (Z.leb_gt _ _)) by lia. by rewrite andb_true_r.
Qed.
Lemma entry_matches_zero array off n_lbas : sub off 128 array = zeros 128 -> entry_matches array off n_lbas = false.
Proof.
  intros E. unfold entry_matches, entry_type. rewrite bool_decide_false; [done|].
  intros Ht. pose proof (f_equal (fun l => l !! 0%nat) E) as H0. pose proof (f_equal (fun l => l !! 0%nat) Ht) as H1. cbn beta in H0, H1.
  rewrite lookup_sub in H0 by lia. rewrite lookup_sub in H1 by lia. rewrite H1 in H0. by vm_compute in H0.
Qed.

(** Scanning the rest of the array, [pre] entries behind. *)
Lemma scan_entries_spec n array n_lbas specs i seen nth :
  0 <= i -> 0 <= seen <= nth -> seen + Z.of_nat n < 2 ^ 32 ->
  (forall k s, (k < n)%nat -> specs !! k = Some s ->
     entry_is array ((Z.to_nat i + k) * 128) s /\ 0 < sp_first_lba s <= sp_last_lba s /\ sp_last_lba s < n_lbas /\ in_u64 (sp_last_lba s)) ->
  (forall k, (length specs <= k < n)%nat -> sub ((Z.to_nat i + k) * 128) 128 array = zeros 128) -> (length specs <= n)%nat ->
  scan_entries n array GPT_ENTRY_SIZE n_lbas i seen nth =
    match carafs_specs specs !! Z.to_nat (nth - seen) with
    | Some s => Ok (sp_first_lba s, sp_last_lba s - sp_first_lba s + 1)
    | None => Err CARA_ENOENT
    end.
Proof.
  revert i seen specs. induction n as [|n IH]; intros i seen specs Hi Hs Hw Hent Hz Hl.
  { destruct specs; [done|simpl in Hl; lia]. }
  cbn [scan_entries]. assert (Z.to_nat (i * GPT_ENTRY_SIZE) = (Z.to_nat i * 128)%nat) as Eo by (unfold GPT_ENTRY_SIZE; lia). rewrite Eo.
  destruct specs as [|s specs].
  - pose proof (Hz 0%nat ltac:(simpl; lia)) as H0. rewrite Nat.add_0_r in H0. rewrite (entry_matches_zero _ _ n_lbas H0).
    rewrite (IH (i + 1) seen []); try done; try lia; [|simpl; lia]. intros k Hk. rewrite <- (Hz (S k)) by (simpl in *; lia). f_equal. lia.
  - destruct (Hent 0%nat s ltac:(lia) eq_refl) as (He & Hf & Hlast & Hu). rewrite Nat.add_0_r in He. rewrite (entry_matches_is _ _ _ _ He Hf Hlast).
    destruct He as (_ & -> & ->). unfold carafs_specs. cbn [List.filter].
    assert (forall seen', seen' = seen \/ seen' = seen + 1 -> seen' <= nth -> scan_entries n array GPT_ENTRY_SIZE n_lbas (i + 1) seen' nth =
      match carafs_specs specs !! Z.to_nat (nth - seen') with
      | Some s => Ok (sp_first_lba s, sp_last_lba s - sp_first_lba s + 1) | None => Err CARA_ENOENT end) as Hrec.
    { intros seen' Hs' Hle. apply IH; try lia.
      - intros k s' Hk Hk'. destruct (Hent (S k) s' ltac:(lia) Hk') as (A1 & A2). split; [|done].
        replace ((Z.to_nat (i + 1) + k) * 128)%nat with ((Z.to_nat i + S k) * 128)%nat by lia. done.
      - intros k Hk. rewrite <- (Hz (S k)) by (simpl in *; lia). f_equal. lia.
      - simpl in Hl. lia. }
    destruct (is_carafs s); [|apply Hrec; [by left|lia]]. destruct (Z.eqb_spec seen nth) as [->|Hne]; cbn [negb].
    + rewrite Z.sub_diag. cbn. rewrite (u64_small (sp_last_lba s - _)), u64_small by (unfold in_u64 in *; lia). done.
    + rewrite u32_small by (unfold in_u32; lia). rewrite (Hrec (seen + 1)) by lia.
      replace (Z.to_nat (nth - seen)) with (S (Z.to_nat (nth - (seen + 1)))) by lia. done.
Qed.

(** * Discovery stays inside the disk *)

Lemma scan_entries_bounds n array esize n_lbas i seen nth first count : bytes_ok array -> n_lbas < 2 ^ 63 ->
  (forall k, 0 <= k < i + Z.of_nat n -> (Z.to_nat (k * esize) + 48 <= length array)%nat) -> 0 <= i ->
  scan_entries n array esize n_lbas i seen nth = Ok (first, count) -> 0 < first /\ 0 < count /\ first + count <= n_lbas.
Proof.
  intros Hb Hn. revert i seen. induction n as [|n IH]; intros i seen Hl Hi E; [done|]. cbn [scan_entries] in E.
  assert (forall seen', scan_entries n array esize n_lbas (i + 1) seen' nth = Ok (first, count) -> 0 < first /\ 0 < count /\ first + count <= n_lbas) as Hrec.
  { intros seen' E'. apply (IH (i + 1) seen'); [|lia|done]. intros k Hk. apply Hl. lia. }
  destruct (entry_matches _ _ _) eqn:Em; [|by apply Hrec in E]. destruct (negb _); [by apply Hrec in E|].
  injection E as <- <-. unfold entry_matches in Em. zbool.
  pose proof (Hl i ltac:(lia)) as Hi'.
  assert (0 <= entry_start array (Z.to_nat (i * esize))) by (apply rd_range; [done|lia]).
  rewrite (u64_small (entry_end _ _ - _)), u64_small by (unfold in_u64; lia). lia.
Qed.

Section Laws.
Context {D : Type} `{!GptDev D, !GptDevLaws D}.

Lemma find_bounds d scratch_bytes nth first count d' : gd_wf d ->
  Gpt_FindCarafsNth scratch_bytes nth d = (Ok (first, count), d') ->
  gd_bytes d' = gd_bytes d /\ 0 < first /\ 0 < count /\ first + count <= gd_n_lbas d.
Proof.
  intros Hwf E. destruct (gd_shape d Hwf) as (_ & _ & Hn & Hl & Hl2). unfold Gpt_FindCarafsNth in E. st_simp_in E.
  destruct (_ <=? _) eqn:Es; [|done]. zbool. rewrite st_bind_eq in E. unfold lba_read at 1 in E.
  destruct (gd_read d GPT_HEADER_LBA 1) as [[h|e] d1] eqn:E1; [|done].
  destruct (gd_read_spec _ _ _ _ _ Hwf E1) as (W1 & B1 & N1 & L1 & H1). destruct (H1 h eq_refl) as (Hh & Hhl & _).
  destruct (header_valid _ _) eqn:Ev; [|done]. destruct (array_shape_ok _ _) eqn:Ea; [|done].
  rewrite st_bind_eq in E. unfold lba_read in E. destruct (gd_read d1 _ _) as [[array|e] d2] eqn:E2; [|done].
  destruct (gd_read_spec _ _ _ _ _ W1 E2) as (W2 & B2 & N2 & L2 & H2). destruct (H2 array eq_refl) as (Hab & Hal & _).
  destruct (_ =? _); [|done]. unfold st_lift in E. injection E as E <-. unfold header_valid in Ev. zbool.
  set (ecount := rd 4 h 80) in *. set (esize := rd 4 h 84) in *. unfold array_shape_ok in Ea. zbool.
  assert (0 <= ecount) by (apply rd_range; [done|unfold GPT_HEADER_SIZE in *; lia]).
  split; [congruence|]. apply (scan_entries_bounds (Z.to_nat ecount) array esize (gd_n_lbas d) 0 0 nth); [done|lia| |lia|done].
  intros k Hk. rewrite Hal, L1. unfold GPT_ARRAY_BYTES in *.
  set (ls := Z.of_nat (gd_lba_size d)) in *. set (q := (ecount * esize + ls - 1) / ls) in *.
  assert (ecount * esize <= q * ls /\ 0 <= q < 2 ^ 31) as [Hq1 Hq2].
  { assert (0 < ls) by lia. pose proof (Z.div_mod (ecount * esize + ls - 1) ls ltac:(lia)) as Hdm.
    pose proof (Z.mod_pos_bound (ecount * esize + ls - 1) ls ltac:(lia)). fold q in Hdm. nia. }
  rewrite u32_small by (unfold in_u32; lia). assert (k * esize + 128 <= ecount * esize) by nia. nia.
Qed.

(** Whatever bytes the disk holds (a corrupt or hostile partition table included), discovery
    does not change it, and a partition that [Gpt_FindCarafsNth] reports is a non-empty range of
    LBAs past the protective MBR and inside the disk. *)
Theorem gpt_find_in_bounds d scratch_bytes nth first count d' : gd_wf d ->
  Gpt_FindCarafsNth scratch_bytes nth d = (Ok (first, count), d') ->
  gd_bytes d' = gd_bytes d /\ 0 < first /\ 0 < count /\ first + count <= gd_n_lbas d.
Proof. apply find_bounds. Qed.

(** * Formatting, then discovery *)

(** What [Gpt_FormatN] asks of its arguments. *)
Definition format_ok (d : D) (specs : list GptPartSpec) (scratch_bytes : Z) : Prop :=
  let ls := Z.of_nat (gd_lba_size d) in
  1 <= Z.of_nat (length specs) <= 128 /\ ls + GPT_ARRAY_BYTES <= scratch_bytes /\ 512 <= ls /\ GPT_ARRAY_BYTES mod ls = 0 /\
  2 * (GPT_ARRAY_BYTES / ls) + 4 <= gd_n_lbas d /\
  Forall (spec_fits (2 + GPT_ARRAY_BYTES / ls) (gd_n_lbas d - 2 - GPT_ARRAY_BYTES / ls)) specs.

Lemma array_lba_count_exact ls : 512 <= ls -> GPT_ARRAY_BYTES mod ls = 0 ->
  array_lba_count ls = GPT_ARRAY_BYTES / ls /\ GPT_ARRAY_BYTES / ls * ls = GPT_ARRAY_BYTES /\ 0 < GPT_ARRAY_BYTES / ls <= 32.
Proof.
  intros Hl Hm. unfold array_lba_count, GPT_ARRAY_BYTES in *. pose proof (Z.div_mod 16384 ls ltac:(lia)) as Hdm. rewrite Hm in Hdm.
  set (q := 16384 / ls) in *. assert (0 < q <= 32) by nia. assert (ls <= 16384) by nia.
  rewrite (u32_small (16384 + ls)), u32_small by (unfold in_u32; lia). split_and!; try lia.
  symmetry. apply Z.div_unique_pos with (ls - 1); lia.
Qed.

Lemma put_entries_total specs array i fu lu :
  (Forall (spec_fits fu lu) specs -> exists array', put_entries array i specs fu lu = Ok array') /\
  (~ Forall (spec_fits fu lu) specs -> put_entries array i specs fu lu = Err CARA_ERANGE).
Proof.
  revert array i. induction specs as [|s specs IH]; intros array i; [split; [by eexists|intros []; constructor]|]. cbn [put_entries].
  destruct (_ || _) eqn:Ec.
  - split; [|done]. intros [(F1 & F2 & F3) _]%Forall_cons.
    rewrite !orb_true_iff in Ec. destruct Ec as [[?|?]|?]; zbool; lia.
  - zbool. split; [intros [_ F]%Forall_cons; by apply IH|]. intros F. apply IH. intros F'. apply F. constructor; [|done]. split_and!; lia.
Qed.

Lemma mbr_image_ok ls n : length (mbr_image ls n) = ls /\ bytes_ok (mbr_image ls n).
Proof.
  unfold mbr_image. split; [by rewrite !length_insert, !length_wr, length_insert, length_zeros|].
  assert (forall l i x, bytes_ok l -> in_u8 x -> bytes_ok (<[i := x]> l)) as Hi by (intros l i x Hl Hx; by apply Forall_insert).
  apply Hi; [apply Hi|]; [|done..]. apply wr_bytes_ok, wr_bytes_ok, Hi; [apply zeros_bytes_ok|done].
Qed.

Lemma lba_write_ok (Hrel : gpt_reliable D) d lba n buf (k : unit -> ST D unit) :
  gd_wf d -> 0 <= lba -> 0 <= n -> lba + n <= gd_n_lbas d -> length buf = (Z.to_nat n * gd_lba_size d)%nat -> bytes_ok buf ->
  exists d', gd_wf d' /\ gd_n_lbas d' = gd_n_lbas d /\ gd_lba_size d' = gd_lba_size d /\
    gd_bytes d' = splice (gd_bytes d) (Z.to_nat lba * gd_lba_size d) buf /\
    lba_write lba n buf d = (Ok tt, d') /\ (lba_write lba n buf ≫= k) d = k tt d'.
Proof.
  intros Hwf H1 H2 H3 H4 H5. destruct (Hrel d Hwf) as [_ Hw]. specialize (Hw lba n buf H1 H2 H3 H4).
  rewrite st_bind_eq. unfold lba_write. destruct (gd_write d lba n buf) as [[[]|e] d'] eqn:E; [|done].
  destruct (gd_write_spec _ _ _ _ _ _ Hwf H1 H2 H3 H4 H5 E) as (W & N & L & B). exists d'. auto 10.
Qed.

(** The state of a formatted disk. *)
Record gpt_laid_out (d : D) (array : list Z) : Prop := {
  lo_wf : gd_wf d;
  lo_primary : let h := lbas (gd_lba_size d) (gd_bytes d) 1 1 in
    header_valid (Z.of_nat (gd_lba_size d)) h = true /\ rd 8 h 72 = 2 /\ rd 4 h 80 = 128 /\ rd 4 h 84 = 128 /\ rd 4 h 88 = Gpt_Crc32 0 array;
  lo_array : lbas (gd_lba_size d) (gd_bytes d) 2 (GPT_ARRAY_BYTES / Z.of_nat (gd_lba_size d)) = array;
  lo_backup : let h := lbas (gd_lba_size d) (gd_bytes d) (gd_n_lbas d - 1) 1 in
    header_valid (Z.of_nat (gd_lba_size d)) h = true /\
    rd 8 h 72 = gd_n_lbas d - 1 - GPT_ARRAY_BYTES / Z.of_nat (gd_lba_size d) /\ rd 4 h 88 = Gpt_Crc32 0 array;
  lo_backup_array : lbas (gd_lba_size d) (gd_bytes d) (gd_n_lbas d - 1 - GPT_ARRAY_BYTES / Z.of_nat (gd_lba_size d))
    (GPT_ARRAY_BYTES / Z.of_nat (gd_lba_size d)) = array
}.

(** The five writes of [Gpt_FormatN]. *)
Definition format_writes (d : D) (disk_guid array : list Z) : ST D unit :=
  let n := gd_n_lbas d in
  let q := GPT_ARRAY_BYTES / Z.of_nat (gd_lba_size d) in
  let header my alt elba :=
    build_header (zeros (gd_lba_size d)) my alt elba (2 + q) (n - 2 - q) disk_guid (Gpt_Crc32 0 array) in
  lba_write 0 1 (mbr_image (gd_lba_size d) n);;
  lba_write 1 1 (header 1 (n - 1) 2);;
  lba_write 2 q array;;
  lba_write (n - 1 - q) q array;;
  lba_write (n - 1) 1 (header (n - 1) 1 (n - 1 - q)).

Lemma format_writes_spec (Hrel : gpt_reliable D) d guid array :
  let ls := Z.of_nat (gd_lba_size d) in
  gd_wf d -> 512 <= ls -> GPT_ARRAY_BYTES mod ls = 0 -> 2 * (GPT_ARRAY_BYTES / ls) + 4 <= gd_n_lbas d ->
  length guid = 16%nat -> bytes_ok guid -> length array = Z.to_nat GPT_ARRAY_BYTES -> bytes_ok array ->
  exists d', format_writes d guid array d = (Ok tt, d') /\ gpt_laid_out d' array /\
    gd_n_lbas d' = gd_n_lbas d /\ gd_lba_size d' = gd_lba_size d.
Proof.
  intros ls Hwf H512 Hmod Hn Hg Hgb Ha Hab. destruct (array_lba_count_exact ls H512 Hmod) as (_ & Hq & Hq32).
  unfold format_writes. fold ls. cbn zeta. set (q := GPT_ARRAY_BYTES / ls) in *. set (n := gd_n_lbas d) in *.
  destruct (gd_shape d Hwf) as (Hlen & _ & Hn63 & _). fold n in Hlen, Hn63.
  destruct (mbr_image_ok (gd_lba_size d) n) as [Hm1 Hm2].
  destruct (build_header_valid (gd_lba_size d) 1 (n - 1) 2 (2 + q) (n - 2 - q) guid (Gpt_Crc32 0 array))
    as (P1 & P2 & P3 & P4 & P5 & P6 & P7); [lia|unfold in_u64; lia|apply gpt_crc_range|done|done|].
  destruct (build_header_valid (gd_lba_size d) (n - 1) 1 (n - 1 - q) (2 + q) (n - 2 - q) guid (Gpt_Crc32 0 array))
    as (Q1 & Q2 & Q3 & Q4 & Q5 & Q6 & Q7); [lia|unfold in_u64; lia|apply gpt_crc_range|done|done|].
  set (h1 := build_header _ 1 _ _ _ _ _ _) in *. set (h2 := build_header _ (n - 1) _ _ _ _ _ _) in *.
  assert (length array = (Z.to_nat q * gd_lba_size d)%nat) as Ha' by (rewrite Ha; nia).
  edestruct (lba_write_ok Hrel d 0 1 (mbr_image (gd_lba_size d) n)) as (d1 & W1 & N1 & L1 & B1 & _ & ->); [done|lia|lia|lia|rewrite Hm1; lia|done|].
  edestruct (lba_write_ok Hrel d1 1 1 h1) as (d2 & W2 & N2 & L2 & B2 & _ & ->); [done|lia|lia|lia|rewrite P1, L1; lia|done|].
  edestruct (lba_write_ok Hrel d2 2 q array) as (d3 & W3 & N3 & L3 & B3 & _ & ->); [done|lia|lia|lia|rewrite L2, L1; done|done|].
  edestruct (lba_write_ok Hrel d3 (n - 1 - q) q array) as (d4 & W4 & N4 & L4 & B4 & _ & ->); [done|lia|lia|lia|rewrite L3, L2, L1; done|done|].
  edestruct (lba_write_ok Hrel d4 (n - 1) 1 h2 mret) as (d5 & W5 & N5 & L5 & B5 & E5 & _); [done|lia|lia|lia|rewrite Q1, L4, L3, L2, L1; lia|done|].
  exists d5. rewrite E5. split; [done|].
  assert (gd_lba_size d5 = gd_lba_size d /\ gd_n_lbas d5 = n) as [L N] by (unfold n; split; congruence).
  rewrite L4, L3, L2, L1 in B5. rewrite L3, L2, L1 in B4. rewrite L2, L1 in B3. rewrite L1 in B2.
  assert (((Z.to_nat (n - 1) + Z.to_nat 1) * gd_lba_size d <= length (gd_bytes d))%nat) as Hend by (rewrite Hlen; nia).
  assert (forall a b : nat, (a <= b -> b * gd_lba_size d <= length (gd_bytes d) -> a * gd_lba_size d <= length (gd_bytes d))%nat) as Hmono by (intros; nia).
  assert (forall lba k, 0 <= lba -> 0 <= k -> lba + k <= n -> ((Z.to_nat lba + Z.to_nat k) * gd_lba_size d <= length (gd_bytes d))%nat) as Hfit
    by (intros lba k ???; eapply Hmono; [|exact Hend]; lia).
  assert (length h1 = (Z.to_nat 1 * gd_lba_size d)%nat /\ length h2 = (Z.to_nat 1 * gd_lba_size d)%nat) as [P1' Q1'] by (rewrite P1, Q1; lia).
  split; [|by rewrite N, L]. split; rewrite ?L, ?N; fold ls; fold q; [done| | | |].
  - cbv zeta. rewrite B5, B4, B3. lba_other (n - 1) 1 h2. lba_other (n - 1 - q) q array. lba_other 2 q array. rewrite B2, lbas_write_same; [auto|lia|].
    rewrite B1, length_splice. apply Hfit; lia.
  - rewrite B5, B4. lba_other (n - 1) 1 h2. lba_other (n - 1 - q) q array. rewrite B3. apply lbas_write_same; [done|].
    rewrite B2, B1, !length_splice. apply Hfit; lia.
  - cbv zeta. rewrite B5, lbas_write_same; [auto|lia|]. rewrite B4, B3, B2, B1, !length_splice. done.
  - rewrite B5. lba_other (n - 1) 1 h2. rewrite B4. apply lbas_write_same; [done|].
    rewrite B3, B2, B1, !length_splice. apply Hfit; lia.
Qed.

(** [Gpt_FormatN] on arguments it accepts is the layout of the entries and the five writes; on any
    others it fails before the first write. *)
Lemma FormatN_eq d guid specs sb : gd_wf d ->
  (format_ok d specs sb -> exists array,
     put_entries (zeros (Z.to_nat GPT_ARRAY_BYTES)) 0 specs (2 + GPT_ARRAY_BYTES / Z.of_nat (gd_lba_size d))
       (gd_n_lbas d - 2 - GPT_ARRAY_BYTES / Z.of_nat (gd_lba_size d)) = Ok array /\
     Gpt_FormatN guid specs sb d = format_writes d guid array d) /\
  (~ format_ok d specs sb -> exists e, Gpt_FormatN guid specs sb d = (Err e, d)).
Proof.
  intros Hwf. destruct (gd_shape d Hwf) as (_ & _ & Hn63 & _). unfold Gpt_FormatN, format_ok. rewrite st_bind_get. cbn zeta.
  set (ls := Z.of_nat (gd_lba_size d)). set (n := gd_n_lbas d) in *.
  unfold GPT_ENTRY_COUNT. destruct (negb (_ || _)) eqn:E1; zbool; cycle 1.
  { rewrite orb_true_iff in E1. split; [|by eexists]. intros F. destruct E1; zbool; lia. }
  destruct (negb (_ || _ || _)) eqn:E2; zbool; cycle 1.
  { rewrite !orb_true_iff in E2. split; [|by eexists]. intros F. destruct E2 as [[?|?]|?]; zbool; lia. }
  destruct (array_lba_count_exact ls ltac:(lia) ltac:(done)) as (Eq & Hq & Hq32). rewrite Eq. set (q := GPT_ARRAY_BYTES / ls) in *.
  rewrite (u64_small (GPT_ENTRY_LBA + q)), (u64_small (GPT_ENTRY_LBA + q + q + 2)) by (unfold in_u64, GPT_ENTRY_LBA; lia).
  destruct (negb _) eqn:E3; zbool; unfold GPT_ENTRY_LBA, GPT_HEADER_LBA in *; cycle 1.
  { split; [intros F; lia|by eexists]. }
  rewrite (u64_small (n - 1 - q - 1)), (u64_small (n - 1)), (u64_small (n - 1 - q)) by (unfold in_u64; lia).
  replace (n - 1 - q - 1) with (n - 2 - q) by lia.
  destruct (put_entries_total specs (zeros (Z.to_nat GPT_ARRAY_BYTES)) 0 (2 + q) (n - 2 - q)) as [Hok Hbad]. split.
  - intros (_ & _ & _ & _ & _ & F). destruct (Hok F) as [array Ea]. exists array. split; [done|]. rewrite Ea. done.
  - intros F. rewrite Hbad; [by eexists|]. intros F'. apply F. split_and!; (lia || done).
Qed.

(** Discovery on a laid-out disk scans the array. *)
Lemma find_laid_out (Hrel : gpt_reliable D) d array specs sb nth :
  let ls := Z.of_nat (gd_lba_size d) in
  gpt_laid_out d array -> 512 <= ls -> GPT_ARRAY_BYTES mod ls = 0 -> ls + GPT_ARRAY_BYTES <= sb ->
  2 * (GPT_ARRAY_BYTES / ls) + 4 <= gd_n_lbas d -> length array = Z.to_nat GPT_ARRAY_BYTES -> 0 <= nth ->
  (length specs <= 128)%nat -> Forall spec_wf specs -> Forall (spec_fits (2 + GPT_ARRAY_BYTES / ls) (gd_n_lbas d - 2 - GPT_ARRAY_BYTES / ls)) specs ->
  (forall k s, specs !! k = Some s -> entry_is array (k * 128) s) ->
  (forall k, (length specs <= k < 128)%nat -> sub (k * 128) 128 array = zeros 128) ->
  exists d', gd_bytes d' = gd_bytes d /\ Gpt_FindCarafsNth sb nth d =
    (match carafs_specs specs !! Z.to_nat nth with
     | Some s => Ok (sp_first_lba s, sp_last_lba s - sp_first_lba s + 1)
     | None => Err CARA_ENOENT
     end, d').
Proof.
  intros ls [W (P1 & P2 & P3 & P4 & P5) A _ _] H512 Hmod Hsb Hn Ha Hnth Hl Hsw Hsf Hent Hz.
  destruct (array_lba_count_exact ls H512 Hmod) as (_ & Hq & Hq32). unfold Gpt_FindCarafsNth. rewrite st_bind_get. cbn zeta. fold ls in P1, A, Hn, Hsf |- *.
  set (q := GPT_ARRAY_BYTES / ls) in *. rewrite (proj2 (Z.leb_le _ _)) by lia.
  rewrite st_bind_eq. unfold lba_read at 1, GPT_HEADER_LBA. destruct (Hrel d W) as [Hr _]. specialize (Hr 1 1 ltac:(lia) ltac:(lia) ltac:(lia)).
  destruct (gd_read d 1 1) as [[h|e] d1] eqn:E1; [clear Hr|done]. destruct (gd_read_spec _ _ _ _ _ W E1) as (W1 & B1 & N1 & L1 & H1).
  destruct (H1 h eq_refl) as (_ & _ & Eh). rewrite Eh by lia. rewrite P1, P2, P3, P4, P5. change (array_shape_ok 128 128) with true. cbn match.
  assert (u32 ((128 * 128 + ls - 1) / ls) = q) as ->.
  { rewrite u32_small; change (128 * 128) with GPT_ARRAY_BYTES; rewrite <- (Z.div_unique_pos (GPT_ARRAY_BYTES + ls - 1) ls q (ls - 1)) by lia; unfold in_u32; lia. }
  rewrite st_bind_eq. unfold lba_read. destruct (Hrel d1 W1) as [Hr _]. specialize (Hr 2 q ltac:(lia) ltac:(lia) ltac:(lia)).
  destruct (gd_read d1 2 q) as [[a|e] d2] eqn:E2; [clear Hr|done]. destruct (gd_read_spec _ _ _ _ _ W1 E2) as (W2 & B2 & N2 & L2 & H2).
  destruct (H2 a eq_refl) as (_ & _ & Eaa). rewrite Eaa, L1, B1, A by lia.
  change (Z.to_nat (128 * 128)) with (Z.to_nat GPT_ARRAY_BYTES). rewrite <- Ha. unfold sub at 1. rewrite drop_0, firstn_all, Z.eqb_refl.
  exists d2. split; [congruence|]. unfold st_lift. f_equal. change (Z.to_nat 128) with 128%nat.
  rewrite (scan_entries_spec 128 array (gd_n_lbas d) specs 0 0 nth); [by rewrite Z.sub_0_r|lia..| | |lia].
  - intros k s Hk Hs. rewrite Z2Nat.inj_0. split; [by apply Hent|].
    destruct (proj1 (Forall_lookup _ _) Hsf k s Hs) as (F1 & F2 & F3). destruct (proj1 (Forall_lookup _ _) Hsw k s Hs) as [_ _ [_ F4]].
    split_and!; (lia || apply F4).
  - intros k Hk. by apply Hz.
Qed.

Lemma FormatN_spec (Hrel : gpt_reliable D) d guid specs sb :
  gd_wf d -> Forall spec_wf specs -> length guid = 16%nat -> bytes_ok guid -> format_ok d specs sb ->
  exists d' array, Gpt_FormatN guid specs sb d = (Ok tt, d') /\ gpt_laid_out d' array /\
    gd_n_lbas d' = gd_n_lbas d /\ gd_lba_size d' = gd_lba_size d /\
    forall nth, 0 <= nth -> exists d'', gd_bytes d'' = gd_bytes d' /\ Gpt_FindCarafsNth sb nth d' =
      (match carafs_specs specs !! Z.to_nat nth with
       | Some s => Ok (sp_first_lba s, sp_last_lba s - sp_first_lba s + 1)
       | None => Err CARA_ENOENT
       end, d'').
Proof.
  intros Hwf Hsw Hg Hgb Hok. destruct (proj1 (FormatN_eq d guid specs sb Hwf) Hok) as (array & Ea & Ef).
  destruct Hok as (Hc & Hsb & H512 & Hmod & Hn & Hsf).
  apply put_entries_spec in Ea as (A1 & A2 & _ & A4 & A5); [|done|lia|rewrite length_zeros; unfold GPT_ARRAY_BYTES; lia|apply zeros_bytes_ok].
  rewrite length_zeros in A1.
  destruct (format_writes_spec Hrel d guid array Hwf H512 Hmod Hn Hg Hgb A1 A2) as (d' & Ew & Hlo & N & L).
  exists d', array. rewrite Ef. split_and!; [done..|]. intros nth Hnth. apply (find_laid_out Hrel d' array); rewrite ?N, ?L; try done.
  - lia.
  - intros k Hk. rewrite A5; [|rewrite Z2Nat.inj_0; right; lia]. apply list_eq. intros i. destruct (decide (i < 128)%nat) as [Hi|Hi].
    + rewrite lookup_sub by done. unfold zeros. rewrite !lookup_replicate_2; [done|done|unfold GPT_ARRAY_BYTES; lia].
    + rewrite !lookup_ge_None_2; [done|rewrite length_zeros; lia|]. unfold sub. rewrite length_take. lia.
Qed.

(** C14: Formatting a disk and reading it back. On arguments within its rules [Gpt_FormatN] succeeds
    on a disk that does not fail, both the primary and the backup table are valid and hold the same
    entries, and [Gpt_FindCarafsNth] then finds, for every [nth], exactly the [nth] of the requested
    CaraFS partitions, or reports that there is none. On any other arguments it fails with the disk
    untouched. *)
Theorem gpt_format_find_roundtrip (Hrel : gpt_reliable D) d guid specs sb :
  gd_wf d -> Forall spec_wf specs -> length guid = 16%nat -> bytes_ok guid ->
  (format_ok d specs sb -> exists d' array, Gpt_FormatN guid specs sb d = (Ok tt, d') /\ gpt_laid_out d' array /\
     forall nth, 0 <= nth -> exists d'', gd_bytes d'' = gd_bytes d' /\ Gpt_FindCarafsNth sb nth d' =
       (match carafs_specs specs !! Z.to_nat nth with
        | Some s => Ok (sp_first_lba s, sp_last_lba s - sp_first_lba s + 1)
        | None => Err CARA_ENOENT
        end, d'')) /\
  (~ format_ok d specs sb -> exists e, Gpt_FormatN guid specs sb d = (Err e, d)).
Proof.
  intros Hwf Hsw Hg Hgb. split; [|by apply FormatN_eq].
  intros Hok. destruct (FormatN_spec Hrel d guid specs sb Hwf Hsw Hg Hgb Hok) as (d' & array & E & Hlo & _ & _ & Hf). eauto 10.
Qed.

(** ** Searching by volume UUID *)

Lemma scan_entries_exhausted n array esize n_lbas i seen nth first count : 0 <= seen -> seen + Z.of_nat n < 2 ^ 32 -> seen + Z.of_nat n <= nth ->
  scan_entries n array esize n_lbas i seen nth <> Ok (first, count).
Proof.
  revert i seen. induction n as [|n IH]; intros i seen H0 Hw Hn; [done|]. cbn [scan_entries].
  destruct (entry_matches _ _ _); [|apply IH; lia]. rewrite (proj2 (Z.eqb_neq _ _)) by lia. cbn [negb].
  rewrite u32_small by (unfold in_u32; lia). apply IH; lia.
Qed.

(** There are at most 128 entries. *)
Lemma find_exhausted d sb nth first count d' : gd_wf d -> 128 <= nth -> Gpt_FindCarafsNth sb nth d <> (Ok (first, count), d').
Proof.
  intros Hwf Hnth E. unfold Gpt_FindCarafsNth in E. st_simp_in E. destruct (_ <=? _); [|done]. rewrite st_bind_eq in E. unfold lba_read at 1 in E.
  destruct (gd_read d GPT_HEADER_LBA 1) as [[h|e] d1] eqn:E1; [|done]. destruct (header_valid _ _) eqn:Ev; [|done].
  destruct (gd_read_spec _ _ _ _ _ Hwf E1) as (_ & _ & _ & _ & H1). destruct (H1 h eq_refl) as (Hh & Hhl & _).
  destruct (array_shape_ok _ _) eqn:Ea; [|done]. rewrite st_bind_eq in E. destruct (lba_read _ _ d1) as [[array|e] d2]; [|done].
  destruct (_ =? _); [|done]. unfold st_lift in E. injection E as E _. unfold array_shape_ok in Ea. zbool. revert E.
  unfold header_valid, GPT_HEADER_SIZE in Ev. zbool. unfold GPT_ARRAY_BYTES in *.
  assert (0 <= rd 4 h 80) by (apply rd_range; [done|lia]). apply scan_entries_exhausted; nia.
Qed.

Lemma find_keeps_wf d sb nth r d' : gd_wf d -> Gpt_FindCarafsNth sb nth d = (r, d') ->
  gd_wf d' /\ gd_bytes d' = gd_bytes d /\ gd_n_lbas d' = gd_n_lbas d /\ gd_lba_size d' = gd_lba_size d.
Proof.
  intros Hwf E. unfold Gpt_FindCarafsNth in E. st_simp_in E. destruct (_ <=? _); [|by injection E as <- <-]. rewrite st_bind_eq in E. unfold lba_read at 1 in E.
  destruct (gd_read d GPT_HEADER_LBA 1) as [[h|e] d1] eqn:E1; destruct (gd_read_spec _ _ _ _ _ Hwf E1) as (W1 & B1 & N1 & L1 & _); [|by injection E as <- <-].
  destruct (header_valid _ _); [|by injection E as <- <-]. destruct (array_shape_ok _ _); [|by injection E as <- <-].
  rewrite st_bind_eq in E. unfold lba_read in E. destruct (gd_read d1 _ _) as [[array|e] d2] eqn:E2;
    destruct (gd_read_spec _ _ _ _ _ W1 E2) as (W2 & B2 & N2 & L2 & _); [destruct (_ =? _)|]; injection E as <- <-; split_and!; congruence.
Qed.

(** The volume at [first] carries the magic and the UUID asked for. *)
Definition volume_is (d : D) (first : Z) (magic : list Z) (uuid_off : Z) (target : list Z) : Prop :=
  let sb := lbas (gd_lba_size d) (gd_bytes d) first 1 in
  sub 0 (length magic) sb = magic /\ sub (Z.to_nat uuid_off) 16 sb = target.

Lemma uuid_loop_spec fuel sb magic uuid_off target nth d r d' :
  gd_wf d -> 0 <= nth <= 128 -> 128 < nth + Z.of_nat fuel -> uuid_loop fuel sb magic uuid_off target nth d = (r, d') ->
  gd_bytes d' = gd_bytes d /\
  (forall fuel', (fuel <= fuel')%nat -> uuid_loop fuel' sb magic uuid_off target nth d = (r, d')) /\
  (forall first count, r = Ok (first, count) -> 0 < first /\ 0 < count /\ first + count <= gd_n_lbas d /\ volume_is d first magic uuid_off target).
Proof.
  revert nth d. induction fuel as [|fuel IH]; intros nth d Hwf Hn Hf E; [lia|].
  assert (forall d1, gd_wf d1 -> gd_bytes d1 = gd_bytes d -> gd_n_lbas d1 = gd_n_lbas d -> gd_lba_size d1 = gd_lba_size d -> nth < 128 ->
    uuid_loop fuel sb magic uuid_off target (u32 (nth + 1)) d1 = (r, d') ->
    gd_bytes d' = gd_bytes d /\
    (forall fuel', (fuel <= fuel')%nat -> uuid_loop fuel' sb magic uuid_off target (u32 (nth + 1)) d1 = (r, d')) /\
    (forall first count, r = Ok (first, count) -> 0 < first /\ 0 < count /\ first + count <= gd_n_lbas d /\ volume_is d first magic uuid_off target)) as Hrec.
  { intros d1 W B N L Hlt E'. rewrite u32_small in * by (unfold in_u32; lia). apply IH in E' as (R1 & R2 & R3); [|done|lia|lia].
    unfold volume_is in *. rewrite B, N, L in *. auto. }
  cbn [uuid_loop] in E. rewrite st_bind_eq in E.
  destruct (Gpt_FindCarafsNth sb nth d) as [[[first count]|e] d1] eqn:E1; cycle 1.
  { injection E as <- <-. apply find_keeps_wf in E1 as K; [|done]. split_and!; [apply K| |done].
    intros [|fuel'] Hle; [lia|]. cbn [uuid_loop]. by rewrite st_bind_eq, E1. }
  destruct (find_bounds _ _ _ _ _ _ Hwf E1) as (_ & Hb1 & Hb2 & Hb3). destruct (find_keeps_wf _ _ _ _ _ Hwf E1) as (W1 & B1 & N1 & L1).
  assert (nth < 128) as Hlt by (destruct (Z.lt_ge_cases nth 128); [done|by destruct (find_exhausted _ _ _ _ _ _ Hwf H E1)]).
  rewrite st_bind_try in E. unfold lba_read at 1 in E. destruct (gd_read d1 first 1) as [rb d2] eqn:E2.
  destruct (gd_read_spec _ _ _ _ _ W1 E2) as (W2 & B2 & N2 & L2 & H2).
  assert (forall fuel', uuid_loop (S fuel') sb magic uuid_off target nth d = match rb with
    | Err _ => uuid_loop fuel' sb magic uuid_off target (u32 (nth + 1)) d2
    | Ok b => if bool_decide (sub 0 (length magic) b = magic) && bool_decide (sub (Z.to_nat uuid_off) 16 b = target)
        then (Ok (first, count), d2) else uuid_loop fuel' sb magic uuid_off target (u32 (nth + 1)) d2 end) as Hstep.
  { intros fuel'. cbn [uuid_loop]. rewrite st_bind_eq, E1, st_bind_try. unfold lba_read. rewrite E2. destruct rb; [by destruct (_ && _)|done]. }
  assert (uuid_loop fuel sb magic uuid_off target (u32 (nth + 1)) d2 = (r, d') -> (forall fuel', uuid_loop (S fuel') sb magic uuid_off target nth d =
     uuid_loop fuel' sb magic uuid_off target (u32 (nth + 1)) d2) -> gd_bytes d' = gd_bytes d /\
    (forall fuel', (S fuel <= fuel')%nat -> uuid_loop fuel' sb magic uuid_off target nth d = (r, d')) /\
    (forall f c, r = Ok (f, c) -> 0 < f /\ 0 < c /\ f + c <= gd_n_lbas d /\ volume_is d f magic uuid_off target)) as Hgo.
  { intros E' Hs. destruct (Hrec d2 W2) as (R1 & R2 & R3); [congruence..|done|done|]. split_and!; [done| |done].
    intros [|fuel'] Hle; [lia|]. rewrite Hs. apply R2. lia. }
  destruct rb as [b|e]; [|by apply Hgo]. destruct (_ && _) eqn:Em; [|by apply Hgo].
  injection E as <- <-. zbool. destruct (H2 b eq_refl) as (_ & _ & Eb). rewrite N1 in Eb. specialize (Eb ltac:(lia) ltac:(lia)). rewrite B1, L1 in Eb.
  split_and!; [congruence| |].
  - intros [|fuel'] Hle; [lia|]. by rewrite Hstep.
  - intros f c [= <- <-]. split_and!; try done. unfold volume_is. cbn zeta. rewrite <- Eb. split; by eapply bool_decide_eq_true.
Qed.

(** Searching a disk for a volume by UUID ends within the 128 entries a table can have (the loop
    has no bound of its own in the code: any larger bound gives the same answer), changes nothing,
    and the partition it returns lies inside the disk and starts with the magic and the UUID asked
    for. *)
Theorem gpt_find_by_uuid d sb magic uuid_off target r d' : gd_wf d -> 0 <= uuid_off ->
  Gpt_FindByVolumeUuid sb magic uuid_off target d = (r, d') ->
  gd_bytes d' = gd_bytes d /\
  (u32 (uuid_off + 16) <= Z.of_nat (gd_lba_size d) -> forall fuel, (130 <= fuel)%nat -> uuid_loop fuel sb magic uuid_off target 0 d = (r, d')) /\
  (forall first count, r = Ok (first, count) -> 0 < first /\ 0 < count /\ first + count <= gd_n_lbas d /\ volume_is d first magic uuid_off target).
Proof.
  intros Hwf Ho E. unfold Gpt_FindByVolumeUuid in E. rewrite st_bind_get in E. destruct (_ <=? _) eqn:Ec; zbool.
  - apply uuid_loop_spec in E as (R1 & R2 & R3); [|done|lia|lia]. auto.
  - injection E as <- <-. split_and!; [done|intros; lia|done].
Qed.

#[local] Instance format_ok_dec d specs sb : Decision (format_ok d specs sb).
Proof. unfold format_ok. cbn zeta. apply _. Defined.

(** [Gpt_Format] lays out one CaraFS partition that starts on a 1 MiB boundary, reports exactly
    the range that discovery finds afterwards, and that is the only one. *)
Theorem gpt_format_one_partition (Hrel : gpt_reliable D) d guid part_guid sb first count d' :
  gd_wf d -> length guid = 16%nat -> bytes_ok guid -> length part_guid = 16%nat -> bytes_ok part_guid ->
  Gpt_Format guid part_guid sb d = (Ok (first, count), d') ->
  (first * Z.of_nat (gd_lba_size d)) mod GPT_ALIGN_BYTES = 0 /\
  (exists d'', Gpt_FindCarafs sb d' = (Ok (first, count), d'')) /\ (exists d'', Gpt_FindCarafsNth sb 1 d' = (Err CARA_ENOENT, d'')).
Proof.
  intros Hwf Hg Hgb Hp Hpb E. destruct (gd_shape d Hwf) as (_ & _ & Hn63 & _). unfold Gpt_Format in E. rewrite st_bind_get in E. cbn zeta in E.
  destruct (negb _) eqn:E512; [|done]. zbool. set (ls := Z.of_nat (gd_lba_size d)) in *.
  set (align := if GPT_ALIGN_BYTES / ls =? 0 then 1 else GPT_ALIGN_BYTES / ls) in *. set (pf := u64 (u64 _ / align * align)) in *.
  set (lu := Gpt_LastUsableLba d) in *. destruct (negb _) eqn:Elu; [|done]. zbool. rewrite st_bind_eq in E.
  set (specs := [mkSpec _ _ _ _]) in E. destruct (decide (format_ok d specs sb)) as [Hok|Hbad]; cycle 1.
  { destruct (proj2 (FormatN_eq d guid specs sb Hwf) Hbad) as [e Ee]. by rewrite Ee in E. }
  assert (Forall spec_wf specs) as Hsw.
  { constructor; [|constructor]. split; cbn; [split; [done|repeat constructor; done]|done|split; [unfold pf|unfold lu, Gpt_LastUsableLba]; apply u64_range]. }
  destruct (FormatN_spec Hrel d guid specs sb Hwf Hsw Hg Hgb Hok) as (d1 & array & E1 & _ & _ & _ & Hfind). rewrite E1 in E. injection E as <- <- <-.
  destruct Hok as (_ & _ & _ & Hmod & Hn & [(F1 & F2 & F3) _]%Forall_cons). cbn [sp_first_lba sp_last_lba] in F1, F2, F3.
  fold ls in Hmod, Hn, F1, F2. destruct (array_lba_count_exact ls ltac:(lia) Hmod) as (Eq & Hq & Hq32).
  split_and!.
  - assert (align * ls = GPT_ALIGN_BYTES /\ 0 < align <= 2048) as [Eal Hal].
    { unfold align. assert (GPT_ALIGN_BYTES = GPT_ARRAY_BYTES / ls * 64 * ls) as Ea by (unfold GPT_ALIGN_BYTES, GPT_ARRAY_BYTES in *; lia).
      rewrite Ea, Z.div_mul by lia. rewrite (proj2 (Z.eqb_neq _ _)) by lia. split; [done|lia]. }
    assert (Gpt_FirstUsableLba d = 2 + GPT_ARRAY_BYTES / ls) as Efu by (unfold Gpt_FirstUsableLba; fold ls; rewrite Eq; apply u64_small; unfold in_u64, GPT_ENTRY_LBA; lia).
    unfold pf. rewrite Efu, (u64_small (2 + _ + align - 1)) by (unfold in_u64; lia). set (x := (2 + _ + align - 1) / align).
    assert (0 <= x /\ x * align <= 2 + GPT_ARRAY_BYTES / ls + align - 1) as [Hx1 Hx2].
    { unfold x. split; [apply Z.div_pos; lia|]. rewrite Z.mul_comm. apply Z.mul_div_le. lia. }
    rewrite u64_small by (unfold in_u64; lia). rewrite <- Z.mul_assoc, Eal. apply Z.mod_mul. done.
  - destruct (Hfind 0 ltac:(lia)) as (d'' & _ & E0). exists d''. unfold Gpt_FindCarafs. rewrite E0. cbn.
    assert (in_u64 pf) by apply u64_range. unfold in_u64 in *. rewrite (u64_small (lu - pf)), u64_small by (unfold in_u64; lia). done.
  - destruct (Hfind 1 ltac:(lia)) as (d'' & _ & E0). exists d''. rewrite E0. done.
Qed.
End Laws.

(** * A disk in memory *)

(** [n] LBAs of [ls] bytes; transfers outside the disk fail. *)
Record MemDisk := mkDisk { md_ls : nat; md_n : Z; md_bytes : list Z }.
Definition md_in_range (d : MemDisk) (lba n : Z) : bool := (0 <=? lba) && (0 <=? n) && (lba + n <=? md_n d).
#[export] Instance mem_gpt : GptDev MemDisk := {
  gd_lba_size := md_ls;
  gd_n_lbas := md_n;
  gd_read d lba n := (if md_in_range d lba n then Ok (lbas (md_ls d) (md_bytes d) lba n) else Err CARA_ERANGE, d);
  gd_write d lba n buf :=
    if md_in_range d lba n then (Ok tt, mkDisk (md_ls d) (md_n d) (splice (md_bytes d) (Z.to_nat lba * md_ls d) buf)) else (Err CARA_ERANGE, d);
  gd_bytes := md_bytes
}.
Definition md_wf (d : MemDisk) : Prop :=
  length (md_bytes d) = (Z.to_nat (md_n d) * md_ls d)%nat /\ bytes_ok (md_bytes d) /\ 0 <= md_n d < 2 ^ 63 /\ (0 < md_ls d)%nat /\ Z.of_nat (md_ls d) < 2 ^ 31.

#[export] Instance mem_gpt_laws : GptDevLaws MemDisk.
Proof.
  refine {| gd_wf := md_wf |}.
  - intros d Hwf. exact Hwf.
  - intros d lba n r d' Hwf E. cbn in E. injection E as <- <-. split_and!; try done. intros data Hd. destruct (md_in_range d lba n) eqn:Er; [|done].
    injection Hd as <-. destruct Hwf as (Hl & Hb & Hn & Hs & _). unfold md_in_range in Er. zbool. split_and!; [by apply sub_bytes_ok| |done].
    apply length_sub. cbn. rewrite Hl. nia.
  - intros d lba n buf r d' Hwf H1 H2 H3 Hl Hb E. cbn in E. unfold md_in_range in E. rewrite !(proj2 (Z.leb_le _ _)) in E by done. injection E as <- <-.
    destruct Hwf as (Hl' & Hb' & Hn & Hs & Hs'). split_and!; try done. split_and!; cbn; [by rewrite length_splice|by apply splice_bytes_ok|lia..].
Defined.

Lemma mem_gpt_reliable : gpt_reliable MemDisk.
Proof.
  intros d _. split; intros lba n *; cbn; unfold md_in_range; intros H1 H2 H3; by rewrite !(proj2 (Z.leb_le _ _)) by done.
Qed.

Module GptExample.
(** A blank disk of 2,200 LBAs of 512 bytes. *)
Definition blank : MemDisk := mkDisk 512 2200 (zeros (2200 * 512)).
Definition guid : list Z := replicate 16 7.
Definition two : list GptPartSpec := [mkSpec (replicate 16 1) (replicate 16 2) 34 99; mkSpec CARAFS_GPT_TYPE_GUID (replicate 16 3) 100 2166].
Lemma blank_wf : gd_wf blank.
Proof.
  cbn [gd_wf mem_gpt_laws]. unfold md_wf, blank. cbn [md_bytes md_n md_ls]. rewrite length_zeros. split_and!; [lia|apply zeros_bytes_ok|lia..].
Qed.
Lemma guid_ok : length guid = 16%nat /\ bytes_ok guid.
Proof. split; [done|]. repeat constructor; done. Qed.
Lemma two_wf : Forall spec_wf two.
Proof. repeat constructor; done. Qed.
Lemma two_ok : format_ok blank two 20000.
Proof. unfold format_ok. cbn [gd_lba_size gd_n_lbas mem_gpt blank md_ls md_n]. split_and!; try done. repeat constructor; done. Qed.

Lemma gpt_format_find_roundtrip_witness : exists d' array, Gpt_FormatN guid two 20000 blank = (Ok tt, d') /\ gpt_laid_out d' array /\
  exists d'', Gpt_FindCarafsNth 20000 0 d' = (Ok (100, 2067), d'').
Proof.
  destruct (gpt_format_find_roundtrip mem_gpt_reliable blank guid two 20000 blank_wf two_wf (proj1 guid_ok) (proj2 guid_ok)) as [H _].
  destruct (H two_ok) as (d' & array & E & Hlo & Hf). exists d', array. split; [exact E|]. split; [exact Hlo|].
  destruct (Hf 0 ltac:(lia)) as (d'' & _ & E0). exists d''. rewrite E0. reflexivity.
Defined.

Lemma gpt_find_in_bounds_witness : exists d' d'', Gpt_FindCarafsNth 20000 0 d' = (Ok (100, 2067), d'') /\ gd_bytes d'' = gd_bytes d' /\ 100 + 2067 <= gd_n_lbas d'.
Proof.
  destruct (FormatN_spec mem_gpt_reliable blank guid two 20000 blank_wf two_wf (proj1 guid_ok) (proj2 guid_ok) two_ok) as (d' & array & E & Hlo & N & _ & Hf).
  destruct (Hf 0 ltac:(lia)) as (d'' & _ & E0). change (carafs_specs two !! Z.to_nat 0) with (Some (mkSpec CARAFS_GPT_TYPE_GUID (replicate 16 3) 100 2166)) in E0.
  cbn [sp_first_lba sp_last_lba] in E0. change (2166 - 100 + 1) with 2067 in E0. exists d', d''. split; [exact E0|].
  destruct (gpt_find_in_bounds d' 20000 0 100 2067 d'' (lo_wf _ _ Hlo) E0) as (H1 & _ & _ & H2). split; [exact H1|exact H2].
Defined.

Lemma gpt_find_by_uuid_witness : exists r d', Gpt_FindByVolumeUuid 20000 [1; 2] 16 guid blank = (r, d') /\ gd_bytes d' = gd_bytes blank.
Proof.
  destruct (Gpt_FindByVolumeUuid 20000 [1; 2] 16 guid blank) as [r d'] eqn:E. exists r, d'. split; [reflexivity|].
  exact (proj1 (gpt_find_by_uuid blank 20000 [1; 2] 16 guid r d' blank_wf ltac:(lia) E)).
Defined.

Definition one : list GptPartSpec := [mkSpec CARAFS_GPT_TYPE_GUID guid 2048 2166].
Lemma one_ok : format_ok blank one 20000.
Proof. unfold format_ok. cbn [gd_lba_size gd_n_lbas mem_gpt blank md_ls md_n]. split_and!; try done. repeat constructor; done. Qed.
Lemma one_eq : Gpt_Format guid guid 20000 blank = (Gpt_FormatN guid one 20000;; mret (2048, 119)) blank.
Proof.
  unfold Gpt_Format. rewrite st_bind_get. cbn zeta. change (Gpt_FirstUsableLba blank) with 34. change (Gpt_LastUsableLba blank) with 2166.
  change (Z.of_nat (gd_lba_size blank)) with 512. reflexivity.
Qed.
Lemma gpt_format_one_partition_witness : exists d', Gpt_Format guid guid 20000 blank = (Ok (2048, 119), d') /\
  exists d'', Gpt_FindCarafs 20000 d' = (Ok (2048, 119), d'').
Proof.
  assert (Forall spec_wf one) as Hw by (repeat constructor; done).
  destruct (FormatN_spec mem_gpt_reliable blank guid one 20000 blank_wf Hw (proj1 guid_ok) (proj2 guid_ok) one_ok) as (d' & array & E & _).
  assert (Gpt_Format guid guid 20000 blank = (Ok (2048, 119), d')) as E' by (rewrite one_eq, st_bind_eq, E; reflexivity).
  exists d'. split; [exact E'|].
  exact (proj1 (proj2 (gpt_format_one_partition mem_gpt_reliable blank guid guid 20000 2048 119 d' blank_wf (proj1 guid_ok) (proj2 guid_ok) (proj1 guid_ok) (proj2 guid_ok) E'))).
Defined.
End GptExample.
