(* ===== verification/Ring.v ===== *)
(** The single-producer single-consumer ring ([include/cara/ring.h]) under every message port:
    its operations, and their execution by a producer and a consumer that run concurrently, one
    shared-memory access per step. The indices are free-running 32-bit counters that wrap. Accesses
    interleave; the release stores and acquire loads of the code are what makes a slot written
    before [head] is published visible to the consumer that loads the new [head]. *)

From S2P Require Import Prelude.

(** * Data *)

Record RingSlot := mkSlot { rs_kind : Z; rs_length : Z; rs_payload : Z; rs_reserved : Z }.
#[export] Instance RingSlot_inhabited : Inhabited RingSlot := populate (mkSlot 0 0 0 0).

(** [struct RingHeader] with the slot array its users pass next to it. *)
Record RingHeader := mkRing {
  r_head : Z; r_tail : Z; r_capacity : Z; r_mask : Z; r_signal_kobj : Z; r_slots : list RingSlot
}.
Definition set_head (r : RingHeader) (h : Z) : RingHeader :=
  mkRing h (r_tail r) (r_capacity r) (r_mask r) (r_signal_kobj r) (r_slots r).
Definition set_tail (r : RingHeader) (t : Z) : RingHeader :=
  mkRing (r_head r) t (r_capacity r) (r_mask r) (r_signal_kobj r) (r_slots r).
Definition set_slot (r : RingHeader) (i : Z) (v : RingSlot) : RingHeader :=
  mkRing (r_head r) (r_tail r) (r_capacity r) (r_mask r) (r_signal_kobj r) (<[Z.to_nat i := v]> (r_slots r)).
Definition get_slot (r : RingHeader) (i : Z) : RingSlot := r_slots r !!! Z.to_nat i.

(** * Operations *)

Definition Ring_Init (r : RingHeader) (capacity signal_kobj : Z) : result RingHeader :=
  if (capacity =? 0) || negb (Z.land capacity (u32 (capacity - 1)) =? 0) then Err CARA_EINVAL
  else Ok (mkRing 0 0 capacity (u32 (capacity - 1)) signal_kobj (r_slots r)).

(** The result and [*signal_needed_out]. *)
Definition Ring_Enqueue (r : RingHeader) (v : RingSlot) : bool * bool * RingHeader :=
  let head := r_head r in
  let tail := r_tail r in
  if r_capacity r <=? u32 (head - tail) then (false, false, r)
  else (true, head =? tail, set_head (set_slot r (Z.land head (r_mask r)) v) (u32 (head + 1))).

Definition Ring_Dequeue (r : RingHeader) : option RingSlot * RingHeader :=
  let tail := r_tail r in
  let head := r_head r in
  if head =? tail then (None, r)
  else (Some (get_slot r (Z.land tail (r_mask r))), set_tail r (u32 (tail + 1))).

Definition Ring_Count (r : RingHeader) : Z := u32 (r_head r - r_tail r).
Definition Ring_IsEmpty (r : RingHeader) : bool := Ring_Count r =? 0.
Definition Ring_IsFull (r : RingHeader) : bool := r_capacity r <=? Ring_Count r.

(** * Concurrent execution *)

(** Where a producer inside [Ring_Enqueue] stands: [head] loaded; [tail] loaded and room seen; slot
    stored. The store of the new [head] ends the call. *)
Inductive producer :=
| PIdle
| PHead (v : RingSlot) (head : Z)
| PRoom (v : RingSlot) (head tail : Z)
| PStored (v : RingSlot) (head tail : Z).

(** A consumer inside [Ring_Dequeue]: [tail] loaded; [head] loaded and found different; slot copied. *)
Inductive consumer :=
| CIdle
| CTail (tail : Z)
| CSome (tail : Z)
| CCopied (tail : Z) (x : RingSlot).

(** What a step shows: nothing, or the end of a call and its result. *)
Inductive event :=
| EvTau
| EvFull (v : RingSlot)
| EvEnq (v : RingSlot) (signal : bool)
| EvEmpty
| EvDeq (x : RingSlot).

Record ring_state := mkState { s_ring : RingHeader; s_prod : producer; s_cons : consumer }.

(** One access of the producer, once a call is under way. *)
Definition prod_step (r : RingHeader) (p : producer) : RingHeader * producer * event :=
  match p with
  | PIdle => (r, PIdle, EvTau)
  | PHead v head =>
      let tail := r_tail r in
      if r_capacity r <=? u32 (head - tail) then (r, PIdle, EvFull v) else (r, PRoom v head tail, EvTau)
  | PRoom v head tail => (set_slot r (Z.land head (r_mask r)) v, PStored v head tail, EvTau)
  | PStored v head tail => (set_head r (u32 (head + 1)), PIdle, EvEnq v (head =? tail))
  end.
Definition cons_step (r : RingHeader) (c : consumer) : RingHeader * consumer * event :=
  match c with
  | CIdle => (r, CIdle, EvTau)
  | CTail tail => if r_head r =? tail then (r, CIdle, EvEmpty) else (r, CSome tail, EvTau)
  | CSome tail => (r, CCopied tail (get_slot r (Z.land tail (r_mask r))), EvTau)
  | CCopied tail x => (set_tail r (u32 (tail + 1)), CIdle, EvDeq x)
  end.

Inductive step : ring_state -> event -> ring_state -> Prop :=
| step_put r c v : step (mkState r PIdle c) EvTau (mkState r (PHead v (r_head r)) c)
| step_prod r p c r' p' e : p <> PIdle -> prod_step r p = (r', p', e) -> step (mkState r p c) e (mkState r' p' c)
| step_get r p : step (mkState r p CIdle) EvTau (mkState r p (CTail (r_tail r)))
| step_cons r p c r' c' e : c <> CIdle -> cons_step r c = (r', c', e) -> step (mkState r p c) e (mkState r' p c').

Inductive steps : ring_state -> list event -> ring_state -> Prop :=
| steps_refl s : steps s [] s
| steps_step s e s' tr s'' : step s e s' -> steps s' tr s'' -> steps s (e :: tr) s''.

(** Run alone, the accesses of a call are the operation. *)
Definition prod_run (r : RingHeader) (v : RingSlot) : RingHeader * list event :=
  let '(r1, p1, e1) := prod_step r (PHead v (r_head r)) in
  let '(r2, p2, e2) := prod_step r1 p1 in
  let '(r3, p3, e3) := prod_step r2 p2 in (r3, [e1; e2; e3]).
Definition cons_run (r : RingHeader) : RingHeader * list event :=
  let '(r1, c1, e1) := cons_step r (CTail (r_tail r)) in
  let '(r2, c2, e2) := cons_step r1 c1 in
  let '(r3, c3, e3) := cons_step r2 c2 in (r3, [e1; e2; e3]).

(** * The abstract bounded queue *)

Inductive queue_step (cap : nat) : list RingSlot -> event -> list RingSlot -> Prop :=
| q_tau q : queue_step cap q EvTau q
| q_full q v : length q = cap -> queue_step cap q (EvFull v) q
| q_enq q v signal : (length q < cap)%nat -> (signal = true -> q = []) -> queue_step cap q (EvEnq v signal) (q ++ [v])
| q_empty : queue_step cap [] EvEmpty []
| q_deq x q : queue_step cap (x :: q) (EvDeq x) q.

Inductive queue_steps (cap : nat) : list RingSlot -> list event -> list RingSlot -> Prop :=
| qs_refl q : queue_steps cap q [] q
| qs_step q e q' tr q'' : queue_step cap q e q' -> queue_steps cap q' tr q'' -> queue_steps cap q (e :: tr) q''.

(** * Invariant *)

(** The ring holds [q], [nt] slots having been taken out of it so far. *)
Record holds (r : RingHeader) (nt : Z) (q : list RingSlot) : Prop := {
  h_cap : exists k, 0 <= k <= 31 /\ r_capacity r = 2 ^ k;
  h_mask : r_mask r = r_capacity r - 1;
  h_len : Z.of_nat (length (r_slots r)) = r_capacity r;
  h_nt : 0 <= nt;
  h_tail : r_tail r = u32 nt;
  h_head : r_head r = u32 (nt + Z.of_nat (length q));
  h_size : Z.of_nat (length q) <= r_capacity r;
  h_slots : forall i x, q !! i = Some x -> get_slot r ((nt + Z.of_nat i) mod r_capacity r) = x
}.
Definition prod_ok (r : RingHeader) (nt : Z) (q : list RingSlot) (p : producer) : Prop :=
  match p with
  | PIdle => True
  | PHead v head => head = r_head r
  | PRoom v head tail => head = r_head r /\
      exists kt, 0 <= kt <= nt /\ tail = u32 kt /\ nt + Z.of_nat (length q) - kt < r_capacity r
  | PStored v head tail => head = r_head r /\
      (exists kt, 0 <= kt <= nt /\ tail = u32 kt /\ nt + Z.of_nat (length q) - kt < r_capacity r) /\
      get_slot r ((nt + Z.of_nat (length q)) mod r_capacity r) = v
  end.
Definition cons_ok (r : RingHeader) (q : list RingSlot) (c : consumer) : Prop :=
  match c with
  | CIdle => True
  | CTail tail => tail = r_tail r
  | CSome tail => tail = r_tail r /\ q <> []
  | CCopied tail x => tail = r_tail r /\ head q = Some x
  end.
Definition inv (s : ring_state) (q : list RingSlot) : Prop :=
  exists nt, holds (s_ring s) nt q /\ prod_ok (s_ring s) nt q (s_prod s) /\ cons_ok (s_ring s) q (s_cons s).

Lemma index_mod cap mask n : (exists k, 0 <= k <= 31 /\ cap = 2 ^ k) -> mask = cap - 1 -> 0 <= n -> Z.land (u32 n) mask = n mod cap.
Proof.
  intros (k & Hk & ->) -> Hn. replace (2 ^ k - 1) with (Z.ones k) by (rewrite Z.ones_equiv; lia). rewrite Z.land_ones by lia. unfold u32.
  apply Z.mod_mod_divide. exists (2 ^ (32 - k)). rewrite <- Z.pow_add_r by lia. f_equal. lia.
Qed.
Lemma cap_range cap : (exists k, 0 <= k <= 31 /\ cap = 2 ^ k) -> 1 <= cap <= 2 ^ 31.
Proof. intros (k & Hk & ->). split; [|apply Z.pow_le_mono_r; lia]. assert (0 < 2 ^ k) by lia. lia. Qed.
Lemma u32_diff a b : 0 <= a - b < 2 ^ 32 -> u32 (u32 a - u32 b) = a - b.
Proof. intros H. unfold u32. rewrite <- Zminus_mod. by apply Z.mod_small. Qed.
Lemma u32_succ n : u32 (u32 n + 1) = u32 (n + 1).
Proof. unfold u32. by rewrite Zplus_mod_idemp_l. Qed.
Lemma u32_eqb a b : 0 <= a - b < 2 ^ 32 -> (u32 a =? u32 b) = (a =? b).
Proof.
  intros H. destruct (Z.eqb_spec a b) as [->|Hn]; [apply Z.eqb_refl|]. apply Z.eqb_neq. intros E. apply u32_diff in H.
  rewrite E, Z.sub_diag in H. change (u32 0) with 0 in H. lia.
Qed.
Lemma mod_neq a b cap : 0 < cap -> 0 < a - b < cap -> a mod cap <> b mod cap.
Proof.
  intros Hc Hd E. pose proof (Z.div_mod a cap ltac:(lia)). pose proof (Z.div_mod b cap ltac:(lia)). rewrite E in *. destruct (Z.le_gt_cases (a / cap) (b / cap)); nia.
Qed.

Lemma get_set_slot r i j v : 0 <= i -> 0 <= j < Z.of_nat (length (r_slots r)) ->
  get_slot (set_slot r i v) j = if j =? i then v else get_slot r j.
Proof.
  intros Hi Hj. unfold get_slot, set_slot. cbn [r_slots]. destruct (Z.eqb_spec j i) as [->|Hn].
  - apply list_lookup_total_insert_eq. lia.
  - apply list_lookup_total_insert_ne. lia.
Qed.
Lemma set_slot_holds r nt q v : holds r nt q -> Z.of_nat (length q) < r_capacity r ->
  holds (set_slot r ((nt + Z.of_nat (length q)) mod r_capacity r) v) nt q /\
  get_slot (set_slot r ((nt + Z.of_nat (length q)) mod r_capacity r) v) ((nt + Z.of_nat (length q)) mod r_capacity r) = v.
Proof.
  intros [Hc Hm Hl Hn Ht Hh Hs Hsl] Hq. pose proof (cap_range _ Hc) as Hc1. pose proof (fun a => Z.mod_pos_bound a (r_capacity r) ltac:(lia)) as Hb. split.
  - split; try done; [cbn; by rewrite length_insert|]. intros i x Hi. cbn [r_capacity set_slot].
    rewrite get_set_slot; [|apply Hb|rewrite Hl; apply Hb]. pose proof (lookup_lt_Some _ _ _ Hi) as Hlt.
    rewrite (proj2 (Z.eqb_neq _ _)); [by apply Hsl|]. intros E. symmetry in E. revert E. apply mod_neq; lia.
  - rewrite get_set_slot; [by rewrite Z.eqb_refl|apply Hb|rewrite Hl; apply Hb].
Qed.
Lemma enq_holds r nt q v : holds r nt q -> Z.of_nat (length q) < r_capacity r -> get_slot r ((nt + Z.of_nat (length q)) mod r_capacity r) = v ->
  holds (set_head r (u32 (r_head r + 1))) nt (q ++ [v]).
Proof.
  intros [Hc Hm Hl Hn Ht Hh Hs Hsl] Hq Hv. split; try done; cbn [set_head r_head r_tail r_capacity r_slots r_mask].
  - rewrite Hh, u32_succ, length_app. f_equal. cbn. lia.
  - rewrite length_app. cbn. lia.
  - intros i x Hi. apply lookup_app_Some in Hi as [Hi|[Hi Hx]]; [by apply Hsl|].
    apply list_lookup_singleton_Some in Hx as [Hx <-]. replace i with (length q) by lia. done.
Qed.
Lemma deq_holds r nt x q : holds r nt (x :: q) -> holds (set_tail r (u32 (r_tail r + 1))) (nt + 1) q.
Proof.
  intros [Hc Hm Hl Hn Ht Hh Hs Hsl]. cbn [length] in *. split; try done; cbn [set_tail r_head r_tail r_capacity r_slots r_mask]; try lia.
  - by rewrite Ht, u32_succ.
  - rewrite Hh. f_equal. lia.
  - intros i y Hi. rewrite <- (Hsl (S i) y Hi). replace (nt + Z.of_nat (S i)) with (nt + 1 + Z.of_nat i) by lia. done.
Qed.
Lemma holds_space r nt q kt : holds r nt q -> 0 <= kt <= nt -> nt + Z.of_nat (length q) - kt <= r_capacity r ->
  u32 (r_head r - u32 kt) = nt + Z.of_nat (length q) - kt /\ (r_head r =? u32 kt) = (nt + Z.of_nat (length q) =? kt).
Proof.
  intros H Hk Hs. pose proof (cap_range _ (h_cap _ _ _ H)). rewrite (h_head _ _ _ H). split; [apply u32_diff; lia|apply u32_eqb; lia].
Qed.

(** Every step of the concurrent ring is a step of the queue. *)
Lemma prod_step_sim r p c q r' p' e : inv (mkState r p c) q -> p <> PIdle -> prod_step r p = (r', p', e) ->
  exists q', queue_step (Z.to_nat (r_capacity r)) q e q' /\ inv (mkState r' p' c) q'.
Proof.
  intros (nt & H & Hp & Hc) Hne E. cbn [s_ring s_prod s_cons] in *.
  pose proof (cap_range _ (h_cap _ _ _ H)) as Hcap. pose proof (h_size _ _ _ H) as Hsz. destruct p as [|v h|v h t|v h t]; [done| | |]; cbn in E, Hp.
  - subst h. destruct (holds_space r nt q nt H) as [Hs _]; [split; [apply H|lia]|lia|]. rewrite (h_tail _ _ _ H), Hs in E.
    destruct (Z.leb_spec (r_capacity r) (nt + Z.of_nat (length q) - nt)); injection E as <- <- <-; exists q; (split; [constructor; lia|exists nt]); [done|].
    split_and!; [done| |done]. split; [done|]. exists nt. pose proof (h_nt _ _ _ H). split_and!; [lia|lia|done|cbn; lia].
  - destruct Hp as (-> & kt & Hk & -> & Hroom). injection E as <- <- <-. exists q. split; [constructor|].
    rewrite (h_head _ _ _ H), (index_mod (r_capacity r)) by (apply H || (pose proof (h_nt _ _ _ H); lia)).
    destruct (set_slot_holds r nt q v H ltac:(lia)) as [H' Hv]. exists nt. cbn [s_ring s_prod s_cons]. split_and!; [done| |].
    + split_and!; [cbn; symmetry; apply H|by exists kt|exact Hv].
    + destruct c; exact Hc.
  - destruct Hp as (-> & (kt & Hk & -> & Hroom) & Hv). injection E as <- <- <-. exists (q ++ [v]).
    destruct (holds_space r nt q kt H Hk ltac:(lia)) as [_ Hsig]. split.
    + constructor; [lia|]. rewrite Hsig. intros Hz. zbool. destruct q; [done|cbn [length] in *; lia].
    + exists nt. split_and!; [by apply enq_holds; [|lia|]|done|]. destruct c; cbn in Hc |- *; [done|done| |].
      * split; [apply Hc|]. by destruct q.
      * split; [apply Hc|]. destruct q; [by destruct Hc|apply Hc].
Qed.
Lemma cons_step_sim r p c q r' c' e : inv (mkState r p c) q -> c <> CIdle -> cons_step r c = (r', c', e) ->
  exists q', queue_step (Z.to_nat (r_capacity r)) q e q' /\ inv (mkState r' p c') q'.
Proof.
  intros (nt & H & Hp & Hc) Hne E. cbn [s_ring s_prod s_cons] in *.
  pose proof (cap_range _ (h_cap _ _ _ H)) as Hcap. pose proof (h_size _ _ _ H) as Hsz. pose proof (h_nt _ _ _ H) as Hnt.
  destruct c as [|t|t|t x]; [done| | |]; cbn in E, Hc.
  - subst t. destruct (holds_space r nt q nt H) as [_ Hs]; [lia|lia|]. rewrite (h_tail _ _ _ H), Hs in E.
    destruct (Z.eqb_spec (nt + Z.of_nat (length q)) nt) as [E0|E0]; injection E as <- <- <-; exists q.
    + assert (q = []) as -> by (destruct q; [done|cbn in E0; lia]). split; [constructor|]. by exists nt.
    + split; [constructor|]. exists nt. split_and!; [done|done|]. split; [symmetry; apply H|]. intros ->. cbn in E0. lia.
  - destruct Hc as [-> Hq]. injection E as <- <- <-. exists q. split; [constructor|]. exists nt. split_and!; [done|done|].
    split; [done|]. destruct q as [|x q]; [done|]. cbn. f_equal.
    rewrite (h_tail _ _ _ H), (index_mod (r_capacity r)) by (apply H || lia).
    pose proof (h_slots _ _ _ H 0%nat x eq_refl) as Hx. rewrite Z.add_0_r in Hx. done.
  - destruct Hc as [-> Hx]. injection E as <- <- <-. destruct q as [|y q]; [done|]. cbn in Hx. injection Hx as ->. exists q.
    split; [constructor|]. exists (nt + 1). split_and!; [by apply (deq_holds r nt x)| |done]. cbn [length] in Hp.
    assert (forall v h t, (h = r_head r /\ exists kt, 0 <= kt <= nt /\ t = u32 kt /\ nt + Z.of_nat (S (length q)) - kt < r_capacity r) ->
      prod_ok (set_tail r (u32 (r_tail r + 1))) (nt + 1) q (PRoom v h t)) as Hpr.
    { intros v h t (-> & kt & ? & -> & ?). split; [done|]. exists kt. cbn [r_capacity set_tail]. split_and!; [lia..|done|lia]. }
    destruct p as [|v h|v h t|v h t]; [done|done|by apply Hpr|]. destruct Hp as (Hh & Hk & Hv).
    destruct (Hpr v h t (conj Hh Hk)) as [A1 A2]. split_and!; [done|done|]. cbn [r_capacity set_tail]. replace (nt + 1 + Z.of_nat (length q)) with (nt + Z.of_nat (S (length q))) by lia. done.
Qed.
Lemma step_sim s e s' q : inv s q -> step s e s' ->
  exists q', queue_step (Z.to_nat (r_capacity (s_ring s))) q e q' /\ inv s' q' /\ r_capacity (s_ring s') = r_capacity (s_ring s).
Proof.
  intros Hi Hs. destruct Hs as [r c v|r p c r' p' e Hne E|r p|r p c r' c' e Hne E].
  - exists q. split_and!; [constructor| |done]. destruct Hi as (nt & H & _ & Hc). by exists nt.
  - destruct (prod_step_sim _ _ _ _ _ _ _ Hi Hne E) as (q' & Q & I). exists q'. split_and!; [done..|].
    destruct p; cbn in E; [done|destruct (_ <=? _)| |]; by injection E as <- <- <-.
  - exists q. split_and!; [constructor| |done]. destruct Hi as (nt & H & Hp & _). by exists nt.
  - destruct (cons_step_sim _ _ _ _ _ _ _ Hi Hne E) as (q' & Q & I). exists q'. split_and!; [done..|].
    destruct c; cbn in E; [done|destruct (_ =? _)| |]; by injection E as <- <- <-.
Qed.
Lemma steps_sim s tr s' q : inv s q -> steps s tr s' ->
  exists q', queue_steps (Z.to_nat (r_capacity (s_ring s))) q tr q' /\ inv s' q'.
Proof.
  intros Hi Hs. revert q Hi. induction Hs as [s|s e s1 tr s2 H1 Hs IH]; intros q Hi; [exists q; split; [constructor|done]|].
  destruct (step_sim _ _ _ _ Hi H1) as (q1 & Q1 & I1 & Ec). destruct (IH q1 I1) as (q2 & Q2 & I2). rewrite Ec in Q2. exists q2. split; [by econstructor|done].
Qed.

Lemma pow2_land cap : 0 < cap < 2 ^ 32 -> Z.land cap (cap - 1) = 0 -> exists k, 0 <= k <= 31 /\ cap = 2 ^ k.
Proof.
  intros Hc Hl. exists (Z.log2 cap). pose proof (Z.log2_nonneg cap). pose proof (Z.log2_spec cap ltac:(lia)) as [L1 L2].
  assert (Z.log2 cap < 32) by (apply Z.log2_lt_pow2; lia). split; [lia|]. destruct (Z.eq_dec cap (2 ^ Z.log2 cap)) as [?|Hne]; [done|].
  exfalso. assert (Z.log2 (cap - 1) = Z.log2 cap) as El by (apply Z.log2_unique; lia).
  assert (Z.testbit (Z.land cap (cap - 1)) (Z.log2 cap) = true) as Ht.
  { rewrite Z.land_spec, Z.bit_log2 by lia. rewrite <- El at 1. rewrite El. rewrite <- El. by rewrite Z.bit_log2 by lia. }
  rewrite Hl, Z.testbit_0_l in Ht. done.
Qed.
Lemma init_inv r capacity sig r' : 0 <= capacity < 2 ^ 32 -> Z.of_nat (length (r_slots r)) = capacity -> Ring_Init r capacity sig = Ok r' ->
  holds r' 0 [] /\ r_capacity r' = capacity.
Proof.
  intros Hc Hl E. unfold Ring_Init in E. destruct (_ || _) eqn:Ec; [done|]. injection E as <-. zbool. rewrite u32_small in * by (unfold in_u32; lia).
  split; [|done]. split; try done; cbn; try lia. apply pow2_land; [lia|done].
Qed.

(** * Properties *)

(** C15: The concurrent ring is a bounded FIFO queue. Whatever a producer and a consumer do, in every
    interleaving of their accesses and however often the 32-bit indices have wrapped, the calls'
    results are those of a bounded queue: nothing is lost, duplicated or reordered, [Ring_Enqueue]
    refuses only when the queue is full, [Ring_Dequeue] only when it is empty, a signal is asked for
    only by an insertion into the empty queue; and [Ring_Count] is the queue's length. *)
Theorem ring_refines_queue r0 capacity sig r tr s :
  0 <= capacity < 2 ^ 32 -> Z.of_nat (length (r_slots r0)) = capacity -> Ring_Init r0 capacity sig = Ok r ->
  steps (mkState r PIdle CIdle) tr s ->
  exists q, queue_steps (Z.to_nat capacity) [] tr q /\ Ring_Count (s_ring s) = Z.of_nat (length q).
Proof.
  intros Hc Hl E Hs. destruct (init_inv _ _ _ _ Hc Hl E) as [H0 Ecap].
  assert (inv (mkState r PIdle CIdle) []) as Hi by (exists 0; split_and!; [exact H0|exact I|exact I]).
  destruct (steps_sim _ _ _ [] Hi Hs) as (q & Q & nt & H & _). cbn [s_ring] in Q. rewrite Ecap in Q. exists q. split; [done|].
  unfold Ring_Count. rewrite (h_tail _ _ _ H). destruct (holds_space _ _ _ nt H) as [-> _]; [split; [apply H|lia]|pose proof (h_size _ _ _ H); lia|lia].
Qed.

(** The operations, run alone. *)
Lemma enqueue_spec r nt q v : holds r nt q -> exists r',
  Ring_Enqueue r v = (bool_decide (Z.of_nat (length q) < r_capacity r), bool_decide (q = []), r') /\
  holds r' nt (if bool_decide (Z.of_nat (length q) < r_capacity r) then q ++ [v] else q).
Proof.
  intros H. pose proof (cap_range _ (h_cap _ _ _ H)). pose proof (h_nt _ _ _ H). unfold Ring_Enqueue.
  destruct (holds_space _ _ _ nt H) as [Hs He]; [lia|pose proof (h_size _ _ _ H); lia|]. rewrite (h_tail _ _ _ H), Hs, He.
  assert ((nt + Z.of_nat (length q) =? nt) = bool_decide (q = [])) as ->.
  { destruct q; [rewrite bool_decide_true by done; apply Z.eqb_eq; cbn; lia|rewrite bool_decide_false by done; apply Z.eqb_neq; cbn [length]; lia]. }
  destruct (Z.leb_spec (r_capacity r) (nt + Z.of_nat (length q) - nt)); eexists.
  - rewrite (bool_decide_false (_ < _)) by lia. rewrite bool_decide_false; [done|]. intros ->. cbn in *. lia.
  - rewrite (bool_decide_true (_ < _)) by lia. split; [reflexivity|]. rewrite (h_head _ _ _ H), (index_mod (r_capacity r)) by (apply H || lia).
    destruct (set_slot_holds r nt q v H ltac:(lia)) as [H' Hv]. rewrite <- (h_head _ _ _ H). by apply (enq_holds _ nt q v H'); [cbn; lia|].
Qed.
Lemma dequeue_spec r nt q : holds r nt q ->
  exists r' nt', Ring_Dequeue r = (head q, r') /\ holds r' nt' (tail q).
Proof.
  intros H. pose proof (h_nt _ _ _ H). unfold Ring_Dequeue.
  destruct (holds_space _ _ _ nt H) as [_ He]; [lia|pose proof (h_size _ _ _ H); lia|]. rewrite (h_tail _ _ _ H), He. destruct q as [|x q].
  - rewrite (proj2 (Z.eqb_eq _ _)) by (cbn; lia). by exists r, nt.
  - rewrite (proj2 (Z.eqb_neq _ _)) by (cbn [length]; lia). eexists _, (nt + 1). cbn [head tail].
    rewrite (index_mod (r_capacity r)) by (apply H || lia). pose proof (h_slots _ _ _ H 0%nat x eq_refl) as Hx. rewrite Z.add_0_r in Hx. rewrite Hx.
    split; [reflexivity|]. rewrite <- (h_tail _ _ _ H). by apply (deq_holds _ _ x).
Qed.

(** Run alone, the accesses the concurrent model makes are exactly [Ring_Enqueue] and
    [Ring_Dequeue], and these are the queue's operations: an insertion succeeds unless the ring is
    full and asks for a signal exactly when the ring was empty; a removal returns the oldest slot. *)
Theorem ring_ops_fifo r nt q v : holds r nt q ->
  (exists r', Ring_Enqueue r v = (bool_decide (Z.of_nat (length q) < r_capacity r), bool_decide (q = []), r') /\
     fst (prod_run r v) = r' /\ holds r' nt (if bool_decide (Z.of_nat (length q) < r_capacity r) then q ++ [v] else q)) /\
  (exists r' nt', Ring_Dequeue r = (head q, r') /\ fst (cons_run r) = r' /\ holds r' nt' (tail q)) /\
  Ring_IsEmpty r = bool_decide (q = []) /\ Ring_IsFull r = bool_decide (Z.of_nat (length q) = r_capacity r).
Proof.
  intros H. pose proof (h_nt _ _ _ H) as Hnt. pose proof (h_size _ _ _ H) as Hsz.
  assert (Ring_Count r = Z.of_nat (length q)) as Hcount.
  { unfold Ring_Count. rewrite (h_tail _ _ _ H). destruct (holds_space _ _ _ nt H) as [-> _]; lia. }
  split_and!.
  - destruct (enqueue_spec r nt q v H) as (r' & E & H'). exists r'. split_and!; [done| |done]. unfold Ring_Enqueue in E. unfold prod_run, prod_step.
    destruct (_ <=? _); by injection E as _ _ <-.
  - destruct (dequeue_spec r nt q H) as (r' & nt' & E & H'). exists r', nt'. split_and!; [done| |done]. unfold Ring_Dequeue in E. unfold cons_run, cons_step.
    destruct (_ =? _); by injection E as _ <-.
  - unfold Ring_IsEmpty. rewrite Hcount. destruct q; [done|]. by rewrite bool_decide_false.
  - unfold Ring_IsFull. rewrite Hcount. destruct (Z.leb_spec (r_capacity r) (Z.of_nat (length q))); [rewrite bool_decide_true by lia|rewrite bool_decide_false by lia]; done.
Qed.

Module RingExample.
Definition msg (n : Z) : RingSlot := mkSlot n 0 0 0.
Definition blank : RingHeader := mkRing 9 9 0 0 0 [msg 0; msg 0].
Definition ring2 : RingHeader := mkRing 0 0 2 1 0 [msg 0; msg 0].
Definition start : ring_state := mkState ring2 PIdle CIdle.

(** One insertion, then a removal. *)
Lemma put_get : steps start [EvTau; EvTau; EvTau; EvEnq (msg 1) true; EvTau; EvTau; EvTau; EvDeq (msg 1)]
  (mkState (mkRing 1 1 2 1 0 [msg 1; msg 0]) PIdle CIdle).
Proof.
  eapply steps_step; [apply (step_put _ _ (msg 1))|]. do 3 (eapply steps_step; [apply step_prod; [done|reflexivity]|]).
  eapply steps_step; [apply step_get|]. do 3 (eapply steps_step; [apply step_cons; [done|reflexivity]|]). apply steps_refl.
Qed.
Lemma ring_refines_queue_witness : exists q,
  queue_steps 2 [] [EvTau; EvTau; EvTau; EvEnq (msg 1) true; EvTau; EvTau; EvTau; EvDeq (msg 1)] q /\ 0 = Z.of_nat (length q).
Proof. exact (ring_refines_queue blank 2 0 ring2 _ _ ltac:(lia) eq_refl eq_refl put_get). Defined.

Lemma ring2_holds : holds ring2 0 [].
Proof. exact (proj1 (init_inv blank 2 0 ring2 ltac:(lia) eq_refl eq_refl)). Qed.
Lemma ring_ops_fifo_witness : Ring_IsEmpty ring2 = true /\ exists r', Ring_Enqueue ring2 (msg 1) = (true, true, r') /\ holds r' 0 [msg 1].
Proof.
  destruct (ring_ops_fifo ring2 0 [] (msg 1) ring2_holds) as ((r' & E & _ & H) & _ & He & _). split; [exact He|]. exists r'. split; [exact E|exact H].
Defined.
End RingExample.

(** The calls that ended, in order. *)
Definition visible (tr : list event) : list event := List.filter (fun e => match e with EvTau => false | _ => true end) tr.

(** An insertion into the empty queue may ask for no signal: the producer loads [tail], the
    consumer then removes the last slot, finds the ring empty and stops, and the producer goes on to
    publish its slot with the stale [tail] telling it that the ring was not empty. The consumer is
    idle, a message is waiting and nobody was told. (The comment on [Ring_Enqueue] says the flag is
    set exactly when the ring goes from empty to non-empty.) *)
Theorem ring_missed_wakeup : exists tr s,
  steps RingExample.start tr s /\
  visible tr = [EvEnq (RingExample.msg 1) true; EvDeq (RingExample.msg 1); EvEmpty; EvEnq (RingExample.msg 2) false] /\
  s_prod s = PIdle /\ s_cons s = CIdle /\ Ring_Count (s_ring s) = 1.
Proof.
  eexists _, _. split.
  - eapply steps_step; [apply (step_put _ _ (RingExample.msg 1))|]. do 3 (eapply steps_step; [apply step_prod; [done|reflexivity]|]).
    eapply steps_step; [apply (step_put _ _ (RingExample.msg 2))|]. eapply steps_step; [apply step_prod; [done|reflexivity]|].
    eapply steps_step; [apply step_get|]. do 3 (eapply steps_step; [apply step_cons; [done|reflexivity]|]).
    eapply steps_step; [apply step_get|]. eapply steps_step; [apply step_cons; [done|reflexivity]|].
    do 2 (eapply steps_step; [apply step_prod; [done|reflexivity]|]). apply steps_refl.
  - repeat split; reflexivity.
Qed.
