(* ===== verification/ExecList.v ===== *)
(** Doubly linked lists with the Amiga's overlaid header: the kernel's [MinList_*] helpers
    ([include/cara/list.h]) and exec.library's list functions ([src/croi/exec_lib/list_ops.c]),
    as loads and stores on a memory. The first two words of a header double as the node before the
    first one and the last two as the node after the last one; the middle word, always zero, is
    shared by both. The theorems show that each function implements the operation on sequences and
    touches no other memory. *)

From S2P Require Import Prelude.
From Stdlib Require Import Sorting.Sorted.

(** * Memory *)

(** A memory maps the address of each scalar object that exists to its value; an access anywhere
    else is a fault. *)
Notation mem := (gmap Z Z).
Definition MEM_FAULT : Z := -1000.
Definition load (a : Z) : ST mem Z := fun m => match m !! a with Some v => (Ok v, m) | None => (Err MEM_FAULT, m) end.
Definition store (a v : Z) : ST mem unit :=
  fun m => match m !! a with Some _ => (Ok tt, <[a := v]> m) | None => (Err MEM_FAULT, m) end.

(** Field addresses of [struct Node] / [struct MinNode] at [n] and [struct List] / [struct MinList]
    at [l]. *)
Definition ln_Succ (n : Z) : Z := n.
Definition ln_Pred (n : Z) : Z := n + 8.
Definition ln_Pri (n : Z) : Z := n + 17.
Definition ln_Name (n : Z) : Z := n + 24.
Definition lh_Head (l : Z) : Z := l.
Definition lh_Tail (l : Z) : Z := l + 8.
Definition lh_TailPred (l : Z) : Z := l + 16.

(** * list.h *)

Definition MinList_Init (l : Z) : ST mem unit :=
  store (lh_Head l) (lh_Tail l);; store (lh_Tail l) 0;; store (lh_TailPred l) (lh_Head l).
Definition MinList_IsEmpty (l : Z) : ST mem bool :=
  tp ← load (lh_TailPred l); mret (tp =? lh_Head l).
Definition MinList_AddHead (l n : Z) : ST mem unit :=
  store (ln_Pred n) (lh_Head l);;
  h ← load (lh_Head l); store (ln_Succ n) h;;
  h ← load (lh_Head l); store (ln_Pred h) n;;
  store (lh_Head l) n.
Definition MinList_AddTail (l n : Z) : ST mem unit :=
  store (ln_Succ n) (lh_Tail l);;
  tp ← load (lh_TailPred l); store (ln_Pred n) tp;;
  tp ← load (lh_TailPred l); store (ln_Succ tp) n;;
  store (lh_TailPred l) n.
Definition MinList_Remove (n : Z) : ST mem unit :=
  p ← load (ln_Pred n); s ← load (ln_Succ n); store (ln_Succ p) s;;
  s ← load (ln_Succ n); p ← load (ln_Pred n); store (ln_Pred s) p;;
  store (ln_Succ n) 0;; store (ln_Pred n) 0.
(** A null result is [None]. *)
Definition MinList_RemHead (l : Z) : ST mem (option Z) :=
  e ← MinList_IsEmpty l;
  if (e : bool) then mret None else n ← load (lh_Head l); MinList_Remove n;; mret (Some n).
Definition MinList_RemTail (l : Z) : ST mem (option Z) :=
  e ← MinList_IsEmpty l;
  if (e : bool) then mret None else n ← load (lh_TailPred l); MinList_Remove n;; mret (Some n).

(** * list_ops.c *)

Definition Croi_Exec_AddHead (list node : Z) : ST mem unit :=
  head ← load (lh_Head list);
  store (ln_Succ node) head;; store (ln_Pred node) (lh_Head list);; store (ln_Pred head) node;; store (lh_Head list) node.
Definition Croi_Exec_AddTail (list node : Z) : ST mem unit :=
  tailpred ← load (lh_TailPred list);
  store (ln_Succ node) (lh_Tail list);; store (ln_Pred node) tailpred;; store (ln_Succ tailpred) node;;
  store (lh_TailPred list) node.
Definition Croi_Exec_Remove (node : Z) : ST mem unit :=
  p ← load (ln_Pred node); s ← load (ln_Succ node); store (ln_Succ p) s;;
  s ← load (ln_Succ node); p ← load (ln_Pred node); store (ln_Pred s) p.
Definition Croi_Exec_RemHead (list : Z) : ST mem (option Z) :=
  node ← load (lh_Head list); succ ← load (ln_Succ node);
  if succ =? 0 then mret None
  else store (lh_Head list) succ;; store (ln_Pred succ) (lh_Head list);; mret (Some node).
Definition Croi_Exec_RemTail (list : Z) : ST mem (option Z) :=
  node ← load (lh_TailPred list); pred ← load (ln_Pred node);
  if pred =? 0 then mret None
  else store (lh_TailPred list) pred;; store (ln_Succ pred) (lh_Tail list);; mret (Some node).
Definition insert_head (list node : Z) : ST mem unit :=
  head ← load (lh_Head list);
  store (ln_Succ node) head;; store (ln_Pred node) (lh_Head list);; store (ln_Pred head) node;; store (lh_Head list) node.
Definition Croi_Exec_Insert (list node pred : Z) : ST mem unit :=
  if negb (pred =? 0) then
    succ ← load (ln_Succ pred);
    if negb (succ =? 0) then
      store (ln_Pred node) pred;; store (ln_Succ node) succ;; store (ln_Pred succ) node;; store (ln_Succ pred) node
    else insert_head list node
  else insert_head list node.

(** [while ((next = cur->ln_Succ)->ln_Succ != nullptr) ...]; the result is [cur] and [next]. *)
Fixpoint enqueue_walk (fuel : nat) (cur node : Z) : ST mem (Z * Z) :=
  match fuel with
  | O => st_err MEM_FAULT
  | S fuel =>
      next ← load (ln_Succ cur); nn ← load (ln_Succ next);
      if nn =? 0 then mret (cur, next)
      else np ← load (ln_Pri next); pri ← load (ln_Pri node);
           if np <? pri then mret (cur, next) else enqueue_walk fuel next node
  end.
Definition Croi_Exec_Enqueue (fuel : nat) (list node : Z) : ST mem unit :=
  '(cur, next) ← enqueue_walk fuel (lh_Head list) node;
  store (ln_Pred node) cur;; store (ln_Succ node) next;; store (ln_Pred next) node;; store (ln_Succ cur) node.

(** The comparison of [have] with [want] from byte [i] on. *)
Fixpoint name_match (fuel : nat) (have want i : Z) : ST mem bool :=
  match fuel with
  | O => st_err MEM_FAULT
  | S fuel =>
      h ← load (have + i);
      if h =? 0 then w ← load (want + i); mret (w =? 0)
      else w ← load (want + i); if h =? w then name_match fuel have want (i + 1) else mret false
  end.
Fixpoint find_name_loop (fuel len : nat) (n want : Z) : ST mem (option Z) :=
  match fuel with
  | O => st_err MEM_FAULT
  | S fuel =>
      s ← load (ln_Succ n);
      if s =? 0 then mret None
      else have ← load (ln_Name n);
           if have =? 0 then find_name_loop fuel len s want
           else ok ← name_match len have want 0;
                if (ok : bool) then mret (Some n) else find_name_loop fuel len s want
  end.
Definition Croi_Exec_FindName (fuel len : nat) (list name : Z) : ST mem (option Z) :=
  h ← load (lh_Head list); find_name_loop fuel len h name.

(** * Representation *)

(** Neighbours in [xs] point at each other. *)
Fixpoint links (m : mem) (xs : list Z) : Prop :=
  match xs with
  | a :: ((b :: _) as t) => m !! ln_Succ a = Some b /\ m !! ln_Pred b = Some a /\ links m t
  | _ => True
  end.
(** The words that say so. *)
Fixpoint link_cells (xs : list Z) : list Z :=
  match xs with
  | a :: ((b :: _) as t) => ln_Succ a :: ln_Pred b :: link_cells t
  | _ => []
  end.
(** The nodes of a list between its two sentinels. *)
Definition chain (l : Z) (ns : list Z) : list Z := lh_Head l :: ns ++ [lh_Tail l].
Record is_list (m : mem) (l : Z) (ns : list Z) : Prop := {
  il_links : links m (chain l ns);
  il_null : m !! lh_Tail l = Some 0;
  il_distinct : NoDup (lh_Tail l :: link_cells (chain l ns));
  il_nonnull : Forall (fun p => 0 < p) (chain l ns)
}.
(** All the words of a list. *)
Definition list_cells (l : Z) (ns : list Z) : list Z := lh_Tail l :: link_cells (chain l ns).
(** [n] is a node outside the list whose link words exist. *)
Definition spare (m : mem) (l : Z) (ns : list Z) (n : Z) : Prop :=
  0 < n /\ ln_Succ n ∉ list_cells l ns /\ ln_Pred n ∉ list_cells l ns /\ is_Some (m !! ln_Succ n) /\ is_Some (m !! ln_Pred n).
(** Memory outside [cs] is unchanged. *)
Definition unchanged_but (cs : list Z) (m m' : mem) : Prop := forall c, c ∉ cs -> m' !! c = m !! c.

Lemma links_app m xs a ys : links m (xs ++ a :: ys) <-> links m (xs ++ [a]) /\ links m (a :: ys).
Proof.
  induction xs as [|x [|y xs] IH]; cbn [app]; [cbn [links]; tauto|cbn [links app]; tauto|]. cbn [links app] in *. rewrite IH. tauto.
Qed.
Lemma link_cells_app xs a ys : link_cells (xs ++ a :: ys) = link_cells (xs ++ [a]) ++ link_cells (a :: ys).
Proof. induction xs as [|x [|y xs] IH]; cbn [app] in *; [done|cbn [link_cells app] in *; done|]. cbn [link_cells app] in *. by rewrite IH. Qed.
Lemma links_frame m m' xs : links m xs -> (forall c, c ∈ link_cells xs -> m' !! c = m !! c) -> links m' xs.
Proof.
  induction xs as [|x [|y xs] IH]; [done..|]. cbn [links link_cells]. intros (H1 & H2 & H3) Hc. split_and!.
  - rewrite Hc; [done|]. left.
  - rewrite Hc; [done|]. right. left.
  - apply IH; [done|]. intros c Hin. apply Hc. right. right. done.
Qed.
Lemma links_cells_mapped m xs c : links m xs -> c ∈ link_cells xs -> is_Some (m !! c).
Proof.
  induction xs as [|x [|y xs] IH]; cbn [links link_cells]; [by intros _ ?%elem_of_nil..|]. intros (H1 & H2 & H3) Hc.
  apply elem_of_cons in Hc as [->|Hc]; [by eexists|]. apply elem_of_cons in Hc as [->|Hc]; [by eexists|]. by apply IH.
Qed.

Lemma links_cons m a b t : links m (a :: b :: t) <-> m !! ln_Succ a = Some b /\ m !! ln_Pred b = Some a /\ links m (b :: t).
Proof. done. Qed.
Lemma link_cells_cons a b t : link_cells (a :: b :: t) = ln_Succ a :: ln_Pred b :: link_cells (b :: t).
Proof. done. Qed.

(** Putting [n] between the neighbours [a] and [b], and taking it out again. *)
Lemma links_insert m m' pre a n b post : links m (pre ++ a :: b :: post) -> NoDup (link_cells (pre ++ a :: b :: post)) ->
  ln_Succ n ∉ link_cells (pre ++ a :: b :: post) -> ln_Pred n ∉ link_cells (pre ++ a :: b :: post) ->
  unchanged_but [ln_Succ n; ln_Pred n; ln_Succ a; ln_Pred b] m m' ->
  m' !! ln_Succ n = Some b -> m' !! ln_Pred n = Some a -> m' !! ln_Succ a = Some n -> m' !! ln_Pred b = Some n ->
  links m' (pre ++ a :: n :: b :: post) /\ NoDup (link_cells (pre ++ a :: n :: b :: post)).
Proof.
  rewrite (links_app m pre a (b :: post)), (links_app m' pre a (n :: b :: post)), (link_cells_app pre a (b :: post)), (link_cells_app pre a (n :: b :: post)), !links_cons, !link_cells_cons. intros (L1 & La & Lb & L2) ND Hn Hp Hu H1 H2 H3 H4.
  apply NoDup_app in ND as (ND1 & Hd & ND2). apply NoDup_cons in ND2 as [Ha ND2]. apply NoDup_cons in ND2 as [Hb ND2].
  rewrite elem_of_app, !elem_of_cons in Hn, Hp. rewrite !elem_of_cons in Ha.
  assert (forall c, c ∈ link_cells (pre ++ [a]) -> c <> ln_Succ a /\ c <> ln_Pred b) as Hd1.
  { intros c Hc. specialize (Hd c Hc). rewrite !elem_of_cons in Hd. tauto. }
  split; [split_and!; try done|].
  - apply (links_frame m); [done|]. intros c Hc. apply Hu. rewrite !elem_of_cons, elem_of_nil. destruct (Hd1 c Hc). intros [->|[->|[->|[->|[]]]]]; tauto.
  - apply (links_frame m); [done|]. intros c Hc. apply Hu. rewrite !elem_of_cons, elem_of_nil. intros [->|[->|[->|[->|[]]]]]; tauto.
  - apply NoDup_app. split; [done|]. split.
    + intros c Hc. destruct (Hd1 c Hc). specialize (Hd c Hc). rewrite !elem_of_cons in *. intros [->|[->|[->|[->|?]]]]; tauto.
    + assert (ln_Succ n <> ln_Pred n) by (unfold ln_Succ, ln_Pred; lia). repeat (apply NoDup_cons; rewrite ?elem_of_cons; split); try done; intuition congruence.
Qed.
Lemma links_remove m m' pre a n b post : links m (pre ++ a :: n :: b :: post) -> NoDup (link_cells (pre ++ a :: n :: b :: post)) ->
  unchanged_but [ln_Succ n; ln_Pred n; ln_Succ a; ln_Pred b] m m' -> m' !! ln_Succ a = Some b -> m' !! ln_Pred b = Some a ->
  links m' (pre ++ a :: b :: post) /\ NoDup (link_cells (pre ++ a :: b :: post)) /\
  ln_Succ n ∉ link_cells (pre ++ a :: b :: post) /\ ln_Pred n ∉ link_cells (pre ++ a :: b :: post) /\
  (forall c, c ∈ link_cells (pre ++ a :: b :: post) -> c ∈ link_cells (pre ++ a :: n :: b :: post)).
Proof.
  rewrite (links_app m pre a (n :: b :: post)), (links_app m' pre a (b :: post)), (link_cells_app pre a (b :: post)), (link_cells_app pre a (n :: b :: post)), !links_cons, !link_cells_cons. intros (L1 & La & Ln & Lb & Lb' & L2) ND Hu H1 H2.
  apply NoDup_app in ND as (ND1 & Hd & ND2). repeat match goal with H : NoDup (_ :: _) |- _ => apply NoDup_cons in H as [? H] end.
  rewrite !elem_of_cons in *. assert (forall c, c ∈ link_cells (pre ++ [a]) -> c <> ln_Succ a /\ c <> ln_Pred n /\ c <> ln_Succ n /\ c <> ln_Pred b /\ c ∉ link_cells (b :: post)) as Hd1.
  { intros c Hc. specialize (Hd c Hc). rewrite !elem_of_cons in Hd. tauto. }
  split_and!; try done.
  - apply (links_frame m); [done|]. intros c Hc. apply Hu. rewrite !elem_of_cons, elem_of_nil. destruct (Hd1 c Hc) as (?&?&?&?&?). intros [->|[->|[->|[->|[]]]]]; tauto.
  - apply (links_frame m); [done|]. intros c Hc. apply Hu. rewrite !elem_of_cons, elem_of_nil. intros [->|[->|[->|[->|[]]]]]; tauto.
  - apply NoDup_app. split_and!; [done| |repeat (apply NoDup_cons; rewrite ?elem_of_cons; split); try done; tauto].
    intros c Hc. destruct (Hd1 c Hc) as (?&?&?&?&?). rewrite !elem_of_cons. tauto.
  - rewrite elem_of_app, !elem_of_cons. intros [Hc|Hc]; [apply Hd1 in Hc; tauto|intuition congruence].
  - rewrite elem_of_app, !elem_of_cons. intros [Hc|Hc]; [apply Hd1 in Hc; tauto|intuition congruence].
  - intros c. rewrite !elem_of_app, !elem_of_cons. tauto.
Qed.

Lemma chain_split l ns1 ns2 a b : last (lh_Head l :: ns1) = Some a -> head (ns2 ++ [lh_Tail l]) = Some b ->
  exists pre post, chain l (ns1 ++ ns2) = pre ++ a :: b :: post /\ forall n, chain l (ns1 ++ n :: ns2) = pre ++ a :: n :: b :: post.
Proof.
  intros (pre & Ha)%last_Some Hb. destruct (ns2 ++ [lh_Tail l]) as [|b' post] eqn:E2; [done|]. injection Hb as ->. exists pre, post.
  unfold chain. split; [|intros n]; rewrite <- app_assoc, <- ?app_comm_cons, app_comm_cons, Ha, <- app_assoc; cbn [app]; by rewrite E2.
Qed.

(** What a function that links [n] in between [ns1] and [ns2] finds, and what it has to establish. *)
Record insert_point (m : mem) (l : Z) (ns1 ns2 : list Z) (n a b : Z) : Prop := {
  ip_succ : m !! ln_Succ a = Some b;
  ip_pred : m !! ln_Pred b = Some a;
  ip_cells : is_Some (m !! ln_Succ n) /\ is_Some (m !! ln_Pred n);
  ip_ne : ln_Succ n <> ln_Pred n /\ ln_Succ n <> ln_Succ a /\ ln_Succ n <> ln_Pred b /\ ln_Pred n <> ln_Succ a /\ ln_Pred n <> ln_Pred b /\ ln_Succ a <> ln_Pred b;
  ip_done m' : unchanged_but [ln_Succ n; ln_Pred n; ln_Succ a; ln_Pred b] m m' ->
    m' !! ln_Succ n = Some b -> m' !! ln_Pred n = Some a -> m' !! ln_Succ a = Some n -> m' !! ln_Pred b = Some n ->
    is_list m' l (ns1 ++ n :: ns2) /\ unchanged_but (list_cells l (ns1 ++ n :: ns2)) m m'
}.
Lemma insert_at m l ns1 ns2 n a b : is_list m l (ns1 ++ ns2) -> spare m l (ns1 ++ ns2) n ->
  last (lh_Head l :: ns1) = Some a -> head (ns2 ++ [lh_Tail l]) = Some b -> insert_point m l ns1 ns2 n a b.
Proof.
  intros [HL HN HD HZ] (Hn0 & Hn1 & Hn2 & Hm1 & Hm2) Ha Hb. destruct (chain_split l ns1 ns2 a b Ha Hb) as (pre & post & Ec & En).
  unfold list_cells in Hn1, Hn2. rewrite Ec in *. apply NoDup_cons in HD as [HT HD]. rewrite elem_of_cons in Hn1, Hn2.
  pose proof HL as HL'. rewrite (links_app m pre a (b :: post)), links_cons in HL'. destruct HL' as (_ & La & Lb & _).
  assert (ln_Succ a ∈ link_cells (pre ++ a :: b :: post) /\ ln_Pred b ∈ link_cells (pre ++ a :: b :: post)) as [Ia Ib].
  { rewrite (link_cells_app pre a (b :: post)), link_cells_cons, !elem_of_app, !elem_of_cons. tauto. }
  assert (ln_Succ a <> ln_Pred b) as Hab.
  { rewrite (link_cells_app pre a (b :: post)), link_cells_cons in HD. apply NoDup_app in HD as (_ & _ & HD). apply NoDup_cons in HD as [HD _]. rewrite elem_of_cons in HD. tauto. }
  split; try done.
  - split_and!; try done; try (intros E; rewrite E in *; tauto). unfold ln_Succ, ln_Pred. lia.
  - intros m' Hu H1 H2 H3 H4. destruct (links_insert m m' pre a n b post) as [HL' HD']; try done; try tauto. split.
    + split; rewrite ?En; [done| | |].
      * rewrite Hu; [done|]. rewrite !elem_of_cons, elem_of_nil. intros [E|[E|[E|[E|[]]]]]; rewrite E in *; tauto.
      * apply NoDup_cons. split; [|done]. rewrite (link_cells_app pre a (n :: b :: post)), !link_cells_cons.
        rewrite (link_cells_app pre a (b :: post)), link_cells_cons in HT. rewrite !elem_of_app, !elem_of_cons in *. intuition congruence.
      * rewrite Forall_app, !Forall_cons in *. tauto.
    + intros c Hc. apply Hu. unfold list_cells in Hc. rewrite En, (link_cells_app pre a (n :: b :: post)), !link_cells_cons in Hc.
      rewrite !elem_of_cons, elem_of_app, !elem_of_cons in Hc. rewrite !elem_of_cons, elem_of_nil. tauto.
Qed.

(** The same for taking [n] out. *)
Record remove_point (m : mem) (l : Z) (ns1 ns2 : list Z) (n a b : Z) : Prop := {
  rp_links : m !! ln_Pred n = Some a /\ m !! ln_Succ n = Some b /\ m !! ln_Succ a = Some n /\ m !! ln_Pred b = Some n;
  rp_ne : ln_Succ n <> ln_Pred n /\ ln_Succ n <> ln_Succ a /\ ln_Succ n <> ln_Pred b /\ ln_Pred n <> ln_Succ a /\ ln_Pred n <> ln_Pred b /\ ln_Succ a <> ln_Pred b;
  rp_done m' : unchanged_but [ln_Succ n; ln_Pred n; ln_Succ a; ln_Pred b] m m' -> m' !! ln_Succ a = Some b -> m' !! ln_Pred b = Some a ->
    is_Some (m' !! ln_Succ n) -> is_Some (m' !! ln_Pred n) ->
    is_list m' l (ns1 ++ ns2) /\ spare m' l (ns1 ++ ns2) n /\ unchanged_but (list_cells l (ns1 ++ n :: ns2)) m m'
}.
Lemma remove_at m l ns1 ns2 n a b : is_list m l (ns1 ++ n :: ns2) ->
  last (lh_Head l :: ns1) = Some a -> head (ns2 ++ [lh_Tail l]) = Some b -> remove_point m l ns1 ns2 n a b.
Proof.
  intros [HL HN HD HZ] Ha Hb. destruct (chain_split l ns1 ns2 a b Ha Hb) as (pre & post & Ec & En). rewrite En in *.
  apply NoDup_cons in HD as [HT HD]. pose proof HL as HL'. rewrite (links_app m pre a (n :: b :: post)), !links_cons in HL'.
  destruct HL' as (_ & La & Lb & Ln & Lp & _). pose proof HD as HD'. rewrite (link_cells_app pre a (n :: b :: post)), !link_cells_cons in HD', HT.
  rewrite !elem_of_app, !elem_of_cons in HT. apply NoDup_app in HD' as (_ & _ & HD').
  repeat match goal with H : NoDup (_ :: _) |- _ => apply NoDup_cons in H as [? H] end. rewrite !elem_of_cons in *.
  split; [done|intuition congruence|].
  intros m' Hu W1 W2 S1 S2. destruct (links_remove m m' pre a n b post HL HD Hu W1 W2) as (HL' & HDn & Hs & Hp & Hsub). split_and!.
  - split; rewrite ?Ec; [done| | |].
    + rewrite Hu; [done|]. rewrite !elem_of_cons, elem_of_nil. tauto.
    + apply NoDup_cons. split; [|done]. intros Hc%Hsub. rewrite (link_cells_app pre a (n :: b :: post)), !link_cells_cons, !elem_of_app, !elem_of_cons in Hc. tauto.
    + rewrite Forall_app, !Forall_cons in *. tauto.
  - unfold spare, list_cells. rewrite Ec, !elem_of_cons. rewrite Forall_app, !Forall_cons in HZ. intuition congruence.
  - intros c Hc. apply Hu. unfold list_cells in Hc. rewrite En, (link_cells_app pre a (n :: b :: post)), !link_cells_cons in Hc.
    rewrite !elem_of_cons, elem_of_app, !elem_of_cons in Hc. rewrite !elem_of_cons, elem_of_nil. tauto.
Qed.

(** * Running the code *)

Lemma load_bind {A} a v (k : Z -> ST mem A) m : m !! a = Some v -> (load a ≫= k) m = k v m.
Proof. intros H. rewrite st_bind_eq. unfold load. by rewrite H. Qed.
Lemma store_bind {A} a v (k : unit -> ST mem A) m : is_Some (m !! a) -> (store a v ≫= k) m = k tt (<[a := v]> m).
Proof. intros [x H]. rewrite st_bind_eq. unfold store. by rewrite H. Qed.
Lemma store_eq a v m : is_Some (m !! a) -> store a v m = (Ok tt, <[a := v]> m).
Proof. intros [x H]. unfold store. by rewrite H. Qed.

(** Look a word up under the stores made so far. *)
Ltac mem_look := repeat first [rewrite lookup_insert_eq | rewrite lookup_insert_ne by congruence]; first [eassumption | reflexivity | by eexists].
Ltac mem_run := repeat first
  [ erewrite load_bind by mem_look; cbv beta | rewrite store_bind by mem_look; cbv beta | rewrite store_eq by mem_look ].
Ltac mem_frame := let c := fresh "c" in let Hc := fresh "Hc" in
  intros c Hc; rewrite !not_elem_of_cons in Hc; destruct_and? Hc; rewrite ?lookup_insert_ne by congruence; done.
(** Close an insertion or a removal once the stores have been run. *)
Ltac finish H := eexists; split; [reflexivity|]; apply H; first [mem_frame | mem_look].

Definition links_in (op : ST mem unit) (l : Z) (ns1 ns2 : list Z) (n : Z) : Prop := forall m,
  is_list m l (ns1 ++ ns2) -> spare m l (ns1 ++ ns2) n ->
  exists m', op m = (Ok tt, m') /\ is_list m' l (ns1 ++ n :: ns2) /\ unchanged_but (list_cells l (ns1 ++ n :: ns2)) m m'.
Definition links_out (op : ST mem unit) (l : Z) (ns1 ns2 : list Z) (n : Z) : Prop := forall m,
  is_list m l (ns1 ++ n :: ns2) ->
  exists m', op m = (Ok tt, m') /\ is_list m' l (ns1 ++ ns2) /\ spare m' l (ns1 ++ ns2) n /\ unchanged_but (list_cells l (ns1 ++ n :: ns2)) m m'.

Lemma head_exists ns l : exists b, head (ns ++ [lh_Tail l]) = Some b.
Proof. destruct ns; by eexists. Qed.
Lemma last_exists ns l : exists a, last (lh_Head l :: ns) = Some a.
Proof. revert l. induction ns as [|x ns IH]; intros l; [by eexists|]. destruct (IH x) as [a Ha]. exists a. done. Qed.

Lemma MinList_AddHead_spec l ns n : links_in (MinList_AddHead l n) l [] ns n.
Proof.
  intros m Hl Hs. destruct (head_exists ns l) as [b Hb]. destruct (insert_at m l [] ns n l b Hl Hs eq_refl Hb) as [H1 H2 [H3 H4] (E1 & E2 & E3 & E4 & E5 & E6) H6].
  unfold MinList_AddHead. change (lh_Head l) with (ln_Succ l) in *. mem_run. finish H6.
Qed.
Lemma tailpred_eq l : lh_TailPred l = ln_Pred (lh_Tail l).
Proof. unfold lh_TailPred, ln_Pred, lh_Tail. lia. Qed.
Lemma link_cells_succ xs y z : y ∈ xs -> ln_Succ y ∈ link_cells (xs ++ [z]).
Proof.
  induction xs as [|x [|x' xs] IH]; intros Hy; [by apply elem_of_nil in Hy|apply list_elem_of_singleton in Hy as ->; left|].
  apply elem_of_cons in Hy as [->|Hy]; cbn [app]; rewrite link_cells_cons; [left|]. do 2 right. by apply IH.
Qed.
Lemma node_not_header m l ns n : is_list m l ns -> n ∈ ns -> n <> lh_Head l.
Proof.
  intros [_ _ HD _] Hn ->. apply NoDup_cons in HD as [_ HD]. destruct ns as [|x ns]; [by apply elem_of_nil in Hn|].
  unfold chain in HD. cbn [app] in HD. rewrite link_cells_cons in HD. apply NoDup_cons in HD as [HD _]. apply HD. right.
  exact (link_cells_succ (x :: ns) (lh_Head l) (lh_Tail l) Hn).
Qed.

Lemma MinList_AddTail_spec l ns n : links_in (MinList_AddTail l n) l ns [] n.
Proof.
  intros m Hl Hs. destruct (last_exists ns l) as [a Ha].
  destruct (insert_at m l ns [] n a _ Hl Hs Ha eq_refl) as [H1 H2 [H3 H4] (E1 & E2 & E3 & E4 & E5 & E6) H6].
  unfold MinList_AddTail. rewrite tailpred_eq. mem_run. finish H6.
Qed.
Lemma MinList_Remove_spec l ns1 ns2 n : links_out (MinList_Remove n) l ns1 ns2 n.
Proof.
  intros m Hl. destruct (last_exists ns1 l) as [a Ha]. destruct (head_exists ns2 l) as [b Hb].
  destruct (remove_at m l ns1 ns2 n a b Hl Ha Hb) as [(H1 & H2 & H3 & H4) (E1 & E2 & E3 & E4 & E5 & E6) H6].
  unfold MinList_Remove. mem_run. finish H6.
Qed.
Lemma Croi_Exec_AddHead_spec l ns n : links_in (Croi_Exec_AddHead l n) l [] ns n.
Proof.
  intros m Hl Hs. destruct (head_exists ns l) as [b Hb]. destruct (insert_at m l [] ns n l b Hl Hs eq_refl Hb) as [H1 H2 [H3 H4] (E1 & E2 & E3 & E4 & E5 & E6) H6].
  unfold Croi_Exec_AddHead. change (lh_Head l) with (ln_Succ l) in *. mem_run. finish H6.
Qed.
Lemma Croi_Exec_AddTail_spec l ns n : links_in (Croi_Exec_AddTail l n) l ns [] n.
Proof.
  intros m Hl Hs. destruct (last_exists ns l) as [a Ha].
  destruct (insert_at m l ns [] n a _ Hl Hs Ha eq_refl) as [H1 H2 [H3 H4] (E1 & E2 & E3 & E4 & E5 & E6) H6].
  unfold Croi_Exec_AddTail. rewrite tailpred_eq. mem_run. finish H6.
Qed.
Lemma Croi_Exec_Remove_spec l ns1 ns2 n : links_out (Croi_Exec_Remove n) l ns1 ns2 n.
Proof.
  intros m Hl. destruct (last_exists ns1 l) as [a Ha]. destruct (head_exists ns2 l) as [b Hb].
  destruct (remove_at m l ns1 ns2 n a b Hl Ha Hb) as [(H1 & H2 & H3 & H4) (E1 & E2 & E3 & E4 & E5 & E6) H6].
  unfold Croi_Exec_Remove. mem_run. finish H6.
Qed.

(** ** Taking the first and the last node *)

(** [r] is the node removed from [ns], leaving [ns']. *)
Definition takes (op : ST mem (option Z)) (l : Z) (ns : list Z) (r : option Z) (ns' : list Z) : Prop := forall m, is_list m l ns ->
  exists m', op m = (Ok r, m') /\ is_list m' l ns' /\ unchanged_but (list_cells l ns) m m' /\
    match r with Some n => spare m' l ns' n | None => m' = m end.

Lemma list_ends m l ns : is_list m l ns -> exists a b, last (lh_Head l :: ns) = Some a /\ head (ns ++ [lh_Tail l]) = Some b /\
  m !! lh_Head l = Some b /\ m !! lh_TailPred l = Some a.
Proof.
  intros [HL _ _ _]. destruct (last_exists ns l) as [a Ha]. destruct (head_exists ns l) as [b Hb]. exists a, b. split_and!; try done.
  - unfold chain in HL. destruct (ns ++ [lh_Tail l]); [done|]. injection Hb as ->. apply HL.
  - rewrite tailpred_eq. apply last_Some in Ha as [pre E]. unfold chain in HL. rewrite app_comm_cons, E, <- app_assoc in HL. cbn [app] in HL.
    apply links_app in HL as [_ HL]. apply links_cons in HL. apply HL.
Qed.
Lemma IsEmpty_spec m l ns : is_list m l ns -> MinList_IsEmpty l m = (Ok (bool_decide (ns = [])), m).
Proof.
  intros Hl. destruct (list_ends m l ns Hl) as (a & b & Ha & Hb & E1 & E2). unfold MinList_IsEmpty. erewrite load_bind by done. rewrite st_ret_eq. do 2 f_equal.
  destruct ns as [|x ns]; [injection Ha as <-; by rewrite Z.eqb_refl|]. rewrite bool_decide_false by done. apply Z.eqb_neq.
  apply (node_not_header m l (x :: ns)); [done|]. apply last_Some_elem_of. done.
Qed.
Lemma MinList_RemHead_spec l ns : takes (MinList_RemHead l) l ns (head ns) (tail ns).
Proof.
  intros m Hl. unfold MinList_RemHead. rewrite st_bind_eq, (IsEmpty_spec m l ns Hl). destruct ns as [|n ns].
  - exists m. rewrite bool_decide_true by done. done.
  - rewrite bool_decide_false by done. destruct (list_ends m l _ Hl) as (a & b & Ha & Hb & E1 & E2). injection Hb as <-. rewrite (load_bind _ _ _ _ E1).
    destruct (MinList_Remove_spec l [] ns n m Hl) as (m' & E & H1 & H2 & H3). rewrite st_bind_eq, E. exists m'. done.
Qed.
Lemma MinList_RemTail_spec l ns n : takes (MinList_RemTail l) l (ns ++ [n]) (Some n) ns.
Proof.
  intros m Hl. unfold MinList_RemTail. rewrite st_bind_eq, (IsEmpty_spec m l _ Hl). rewrite bool_decide_false by (by destruct ns).
  destruct (list_ends m l _ Hl) as (a & b & Ha & Hb & E1 & E2). rewrite app_comm_cons, last_snoc in Ha. injection Ha as <-. rewrite (load_bind _ _ _ _ E2).
  destruct (MinList_Remove_spec l ns [] n m Hl) as (m' & E & H1 & H2 & H3). rewrite app_nil_r in H1, H2. rewrite st_bind_eq, E. exists m'. done.
Qed.
Lemma MinList_RemTail_empty l : takes (MinList_RemTail l) l [] None [].
Proof. intros m Hl. unfold MinList_RemTail. rewrite st_bind_eq, (IsEmpty_spec m l _ Hl), bool_decide_true by done. by exists m. Qed.

Lemma list_nonnull m l ns x : is_list m l ns -> x ∈ chain l ns -> 0 < x.
Proof. intros [_ _ _ HZ] Hx. rewrite Forall_forall in HZ. by apply HZ. Qed.
Lemma head_in_chain l ns1 ns2 b : head (ns2 ++ [lh_Tail l]) = Some b -> b ∈ chain l (ns1 ++ ns2).
Proof.
  intros Hb. unfold chain. rewrite elem_of_cons, !elem_of_app. right. destruct ns2; injection Hb as <-; [right; left|left; right; left].
Qed.
Lemma last_in_chain l ns1 ns2 a : last (lh_Head l :: ns1) = Some a -> a ∈ chain l (ns1 ++ ns2).
Proof. intros Ha%last_Some_elem_of. unfold chain. rewrite elem_of_cons, !elem_of_app in *. set_solver. Qed.

Lemma Croi_Exec_RemHead_spec l ns : takes (Croi_Exec_RemHead l) l ns (head ns) (tail ns).
Proof.
  intros m Hl. destruct (list_ends m l _ Hl) as (a & b & Ha & Hb & E1 & E2). unfold Croi_Exec_RemHead. rewrite (load_bind _ _ _ _ E1). destruct ns as [|n ns].
  - injection Hb as <-. erewrite load_bind by apply Hl. by exists m.
  - injection Hb as <-. destruct (head_exists ns l) as [b Hb].
    destruct (remove_at m l [] ns n l b Hl eq_refl Hb) as [(H1 & H2 & H3 & H4) (F1 & F2 & F3 & F4 & F5 & F6) H6]. mem_run.
    rewrite (proj2 (Z.eqb_neq _ _)).
    + change (lh_Head l) with (ln_Succ l) in *. mem_run. eexists. split; [reflexivity|]. cbn [head tail]. destruct (H6 (<[ln_Pred b:=l]> (<[ln_Succ l:=b]> m))) as (R1 & R2 & R3); first [mem_frame|mem_look|done].
    + assert (0 < b); [|lia]. apply (list_nonnull m l (n :: ns)); [done|]. exact (head_in_chain l [n] ns b Hb).
Qed.
Lemma Croi_Exec_RemTail_spec l ns n : takes (Croi_Exec_RemTail l) l (ns ++ [n]) (Some n) ns.
Proof.
  intros m Hl. destruct (list_ends m l _ Hl) as (a0 & b & Ha & Hb & E1 & E2). rewrite app_comm_cons, last_snoc in Ha. injection Ha as <-.
  unfold Croi_Exec_RemTail. rewrite (load_bind _ _ _ _ E2). destruct (last_exists ns l) as [a Ha].
  destruct (remove_at m l ns [] n a _ Hl Ha eq_refl) as [(H1 & H2 & H3 & H4) (F1 & F2 & F3 & F4 & F5 & F6) H6]. rewrite app_nil_r in H6. mem_run.
  rewrite (proj2 (Z.eqb_neq _ _)).
  - rewrite tailpred_eq. mem_run. eexists. split; [reflexivity|].
    destruct (H6 (<[ln_Succ a:=lh_Tail l]> (<[ln_Pred (lh_Tail l):=a]> m))) as (R1 & R2 & R3); first [mem_frame|mem_look|done].
  - assert (0 < a); [|lia]. apply (list_nonnull m l (ns ++ [n])); [done|]. exact (last_in_chain l ns [n] a Ha).
Qed.
Lemma Croi_Exec_RemTail_empty l : takes (Croi_Exec_RemTail l) l [] None [].
Proof.
  intros m Hl. destruct (list_ends m l _ Hl) as (a & b & Ha & Hb & E1 & E2). injection Ha as <-. unfold Croi_Exec_RemTail.
  rewrite (load_bind _ _ _ _ E2). change (ln_Pred (lh_Head l)) with (lh_Tail l). erewrite load_bind by apply Hl. by exists m.
Qed.

Lemma Croi_Exec_Insert_head l ns n pred : pred = 0 \/ pred = lh_Tail l -> links_in (Croi_Exec_Insert l n pred) l [] ns n.
Proof.
  intros Hp m Hl Hs. assert (Croi_Exec_Insert l n pred m = Croi_Exec_AddHead l n m) as ->; [|by apply Croi_Exec_AddHead_spec].
  unfold Croi_Exec_Insert. destruct Hp as [->| ->]; [done|]. destruct (negb _); [|done]. by rewrite (load_bind _ _ _ _ (il_null _ _ _ Hl)).
Qed.
Lemma Croi_Exec_Insert_after l ns1 ns2 n pred : last (lh_Head l :: ns1) = Some pred -> links_in (Croi_Exec_Insert l n pred) l ns1 ns2 n.
Proof.
  intros Hp m Hl Hs. destruct (head_exists ns2 l) as [b Hb].
  destruct (insert_at m l ns1 ns2 n pred b Hl Hs Hp Hb) as [H1 H2 [H3 H4] (E1 & E2 & E3 & E4 & E5 & E6) H6]. unfold Croi_Exec_Insert.
  assert (0 < pred) by (apply (list_nonnull m l _ _ Hl), last_in_chain, Hp). assert (0 < b) by (apply (list_nonnull m l _ _ Hl), head_in_chain, Hb).
  rewrite (proj2 (Z.eqb_neq pred 0)) by lia. cbn [negb]. rewrite (load_bind _ _ _ _ H1). rewrite (proj2 (Z.eqb_neq b 0)) by lia. cbn [negb]. mem_run. finish H6.
Qed.

(** ** Priority order *)

(** The nodes of priority at least [p] that [ns] starts with, and the rest. *)
Fixpoint before (pri : Z -> Z) (p : Z) (ns : list Z) : list Z :=
  match ns with [] => [] | x :: t => if pri x <? p then [] else x :: before pri p t end.
Fixpoint after (pri : Z -> Z) (p : Z) (ns : list Z) : list Z :=
  match ns with [] => [] | x :: t => if pri x <? p then x :: t else after pri p t end.
Definition pri_sorted (pri : Z -> Z) (ns : list Z) : Prop := StronglySorted (fun x y => pri y <= pri x) ns.

Lemma before_after pri p ns : before pri p ns ++ after pri p ns = ns.
Proof. induction ns as [|x ns IH]; [done|]. cbn. destruct (_ <? _); [done|]. cbn. by rewrite IH. Qed.
Lemma before_spec pri p ns : Forall (fun x => p <= pri x) (before pri p ns).
Proof. induction ns as [|x ns IH]; cbn; [constructor|]. destruct (Z.ltb_spec (pri x) p); [constructor|]. constructor; [lia|done]. Qed.
Lemma after_spec pri p ns : pri_sorted pri ns -> Forall (fun x => pri x < p) (after pri p ns).
Proof.
  induction 1 as [|x ns Hs IH Hx]; cbn; [constructor|]. destruct (Z.ltb_spec (pri x) p); [|done]. constructor; [lia|].
  eapply Forall_impl; [exact Hx|]. cbn. intros; lia.
Qed.
Lemma sorted_insert pri ns1 ns2 n : pri_sorted pri (ns1 ++ ns2) -> Forall (fun x => pri n <= pri x) ns1 -> Forall (fun x => pri x <= pri n) ns2 ->
  pri_sorted pri (ns1 ++ n :: ns2).
Proof.
  intros Hs H1 H2. unfold pri_sorted in *. induction ns1 as [|x ns1 IH]; cbn in *; [by constructor|].
  apply StronglySorted_inv in Hs as [Hs Hx]. apply Forall_cons in H1 as [Hxn H1]. constructor; [by apply IH|].
  rewrite Forall_app in Hx |- *. destruct Hx. split; [done|]. by constructor.
Qed.

Lemma enqueue_walk_spec m l node pri fuel ns1 rest cur : is_list m l (ns1 ++ rest) -> last (lh_Head l :: ns1) = Some cur ->
  m !! ln_Pri node = Some (pri node) -> (forall x, x ∈ rest -> m !! ln_Pri x = Some (pri x)) -> (length rest < fuel)%nat ->
  exists a b, enqueue_walk fuel cur node m = (Ok (a, b), m) /\
    last (lh_Head l :: ns1 ++ before pri (pri node) rest) = Some a /\ head (after pri (pri node) rest ++ [lh_Tail l]) = Some b.
Proof.
  revert ns1 rest cur. induction fuel as [|fuel IH]; intros ns1 rest cur Hl Hc Hn Hp Hf; [lia|]. cbn [enqueue_walk].
  destruct (head_exists rest l) as [b Hb]. destruct (chain_split l ns1 rest cur b Hc Hb) as (pre & post & Ec & _).
  pose proof (il_links _ _ _ Hl) as HL. rewrite Ec in HL. apply links_app in HL as [_ HL]. apply links_cons in HL as (H1 & _ & HL).
  rewrite (load_bind _ _ _ _ H1). destruct rest as [|x rest].
  - injection Hb as <-. erewrite load_bind by apply Hl. rewrite Z.eqb_refl. exists cur, (lh_Tail l). cbn [before after]. by rewrite app_nil_r.
  - injection Hb as <-. destruct (head_exists rest l) as [b Hb].
    assert (last (lh_Head l :: ns1 ++ [x]) = Some x) as Hx by (rewrite app_comm_cons; apply last_snoc).
    assert (ns1 ++ x :: rest = (ns1 ++ [x]) ++ rest) as Eapp by (by rewrite <- app_assoc). rewrite Eapp in Hl.
    destruct (chain_split l (ns1 ++ [x]) rest x b Hx Hb) as (pre' & post' & Ec' & _).
    pose proof (il_links _ _ _ Hl) as HL'. rewrite Ec' in HL'. apply links_app in HL' as [_ HL']. apply links_cons in HL' as (H2 & _).
    rewrite (load_bind _ _ _ _ H2). rewrite (proj2 (Z.eqb_neq b 0)) by (assert (0 < b) by (apply (list_nonnull m l _ _ Hl), head_in_chain, Hb); lia).
    erewrite load_bind by (apply Hp; left). rewrite (load_bind _ _ _ _ Hn). cbn [before after]. destruct (pri x <? pri node).
    + exists cur, x. rewrite app_nil_r. done.
    + destruct (IH (ns1 ++ [x]) rest x Hl Hx Hn) as (a' & b' & E & Ha' & Hb'); [intros y Hy; apply Hp; by right|cbn [length] in Hf; lia|].
      exists a', b'. rewrite <- app_assoc in Ha'. done.
Qed.
Lemma Enqueue_spec m l ns node pri fuel : is_list m l ns -> spare m l ns node ->
  m !! ln_Pri node = Some (pri node) -> (forall x, x ∈ ns -> m !! ln_Pri x = Some (pri x)) -> (length ns < fuel)%nat ->
  exists m', Croi_Exec_Enqueue fuel l node m = (Ok tt, m') /\
    is_list m' l (before pri (pri node) ns ++ node :: after pri (pri node) ns) /\
    unchanged_but (list_cells l (before pri (pri node) ns ++ node :: after pri (pri node) ns)) m m'.
Proof.
  intros Hl Hs Hn Hp Hf. destruct (enqueue_walk_spec m l node pri fuel [] ns l Hl eq_refl Hn Hp Hf) as (a & b & E & Ha & Hb). cbn [app] in Ha.
  unfold Croi_Exec_Enqueue. rewrite st_bind_eq. change (lh_Head l) with l. rewrite E. clear E.
  rewrite <- (before_after pri (pri node) ns) in Hl, Hs. destruct (insert_at m l _ _ node a b Hl Hs Ha Hb) as [H1 H2 [H3 H4] (E1 & E2 & E3 & E4 & E5 & E6) H6].
  mem_run. finish H6.
Qed.

(** ** Names *)

(** The bytes [s], none of them zero, followed by a zero at [p]. *)
Fixpoint cstring (m : mem) (p : Z) (s : list Z) : Prop :=
  match s with [] => m !! p = Some 0 | c :: s => m !! p = Some c /\ c <> 0 /\ cstring m (p + 1) s end.

Lemma name_match_spec m fuel have want i s w : cstring m (have + i) s -> cstring m (want + i) w -> (length s < fuel)%nat ->
  name_match fuel have want i m = (Ok (bool_decide (s = w)), m).
Proof.
  revert i s w. induction fuel as [|fuel IH]; intros i s w Hs Hw Hf; [lia|]. cbn [name_match]. destruct s as [|c s].
  - erewrite load_bind by exact Hs. rewrite Z.eqb_refl. destruct w as [|d w].
    + erewrite load_bind by exact Hw. done.
    + destruct Hw as (H1 & H2 & _). erewrite load_bind by exact H1. rewrite (proj2 (Z.eqb_neq _ _)) by done. done.
  - destruct Hs as (H1 & Hc & Hs). erewrite load_bind by exact H1. rewrite (proj2 (Z.eqb_neq _ _)) by done. rewrite <- Z.add_assoc in Hs. destruct w as [|d w].
    + erewrite load_bind by exact Hw. rewrite (proj2 (Z.eqb_neq _ _)) by done. done.
    + destruct Hw as (H3 & Hd & Hw). rewrite <- Z.add_assoc in Hw. erewrite load_bind by exact H3. destruct (Z.eqb_spec c d) as [->|Hne].
      * rewrite (IH (i + 1) s w Hs Hw) by (cbn in Hf; lia). do 2 f_equal. apply bool_decide_ext. split; congruence.
      * rewrite bool_decide_false by congruence. done.
Qed.

(** Node [x] has the name [nm x], or none. *)
Definition named (m : mem) (nm : Z -> option (list Z)) (x : Z) : Prop :=
  match nm x with
  | None => m !! ln_Name x = Some 0
  | Some s => exists p, m !! ln_Name x = Some p /\ p <> 0 /\ cstring m p s
  end.
Definition is_named (nm : Z -> option (list Z)) (w : list Z) (x : Z) : bool := bool_decide (nm x = Some w).

Lemma find_name_loop_spec m l nm fuel len ns1 rest cur want w : is_list m l (ns1 ++ rest) -> head (rest ++ [lh_Tail l]) = Some cur ->
  cstring m want w -> (forall x, x ∈ rest -> named m nm x) -> (forall x s, x ∈ rest -> nm x = Some s -> (length s < len)%nat) -> (length rest < fuel)%nat ->
  find_name_loop fuel len cur want m = (Ok (List.find (is_named nm w) rest), m).
Proof.
  revert ns1 rest cur. induction fuel as [|fuel IH]; intros ns1 rest cur Hl Hc Hw Hn Hlen Hf; [lia|]. cbn [find_name_loop]. destruct rest as [|x rest].
  - injection Hc as <-. erewrite load_bind by apply Hl. done.
  - injection Hc as <-. destruct (head_exists rest l) as [b Hb].
    assert (last (lh_Head l :: ns1 ++ [x]) = Some x) as Hx by (rewrite app_comm_cons; apply last_snoc).
    assert (ns1 ++ x :: rest = (ns1 ++ [x]) ++ rest) as Eapp by (by rewrite <- app_assoc). rewrite Eapp in Hl.
    destruct (chain_split l (ns1 ++ [x]) rest x b Hx Hb) as (pre' & post' & Ec' & _).
    pose proof (il_links _ _ _ Hl) as HL'. rewrite Ec' in HL'. apply links_app in HL' as [_ HL']. apply links_cons in HL' as (H2 & _).
    rewrite (load_bind _ _ _ _ H2). rewrite (proj2 (Z.eqb_neq b 0)) by (assert (0 < b) by (apply (list_nonnull m l _ _ Hl), head_in_chain, Hb); lia).
    assert (find_name_loop fuel len b want m = (Ok (List.find (is_named nm w) rest), m)) as Hrec.
    { apply (IH (ns1 ++ [x]) rest b); try done; [intros y Hy; apply Hn; by right|intros y s Hy; apply Hlen; by right|cbn in Hf; lia]. }
    pose proof (Hn x ltac:(left)) as Hnx. unfold named in Hnx. cbn [List.find]. unfold is_named at 1. destruct (nm x) as [s|] eqn:En.
    + destruct Hnx as (p & Hp & Hp0 & Hs). rewrite (load_bind _ _ _ _ Hp). rewrite (proj2 (Z.eqb_neq p 0)) by done. rewrite st_bind_eq.
      rewrite (name_match_spec m len p want 0 s w); [|by rewrite Z.add_0_r|by rewrite Z.add_0_r|apply (Hlen x); [left|done]].
      destruct (decide (s = w)) as [->|Hne]; [by rewrite !bool_decide_true by done|]. rewrite !bool_decide_false by congruence. done.
    + rewrite (load_bind _ _ _ _ Hnx). rewrite bool_decide_false by done. done.
Qed.

(** * Properties *)

(** Linking and unlinking. For a list that holds [ns1 ++ ns2], adding a spare node at the head, at
    the tail or after a given node ([MinList_AddHead], [MinList_AddTail], [Croi_Exec_AddHead],
    [Croi_Exec_AddTail], [Croi_Exec_Insert], whose null or tail-sentinel predecessor means the head)
    yields the list with the node at that place; [MinList_Remove] and [Croi_Exec_Remove] take any
    node out and leave it spare. No access faults and no word outside the list and the node changes. *)
Theorem list_link_ops l ns ns1 ns2 n pred :
  links_in (MinList_AddHead l n) l [] ns n /\ links_in (MinList_AddTail l n) l ns [] n /\
  links_in (Croi_Exec_AddHead l n) l [] ns n /\ links_in (Croi_Exec_AddTail l n) l ns [] n /\
  (last (lh_Head l :: ns1) = Some pred -> links_in (Croi_Exec_Insert l n pred) l ns1 ns2 n) /\
  (pred = 0 \/ pred = lh_Tail l -> links_in (Croi_Exec_Insert l n pred) l [] ns n) /\
  links_out (MinList_Remove n) l ns1 ns2 n /\ links_out (Croi_Exec_Remove n) l ns1 ns2 n.
Proof.
  split_and!; auto using MinList_AddHead_spec, MinList_AddTail_spec, Croi_Exec_AddHead_spec, Croi_Exec_AddTail_spec,
    Croi_Exec_Insert_after, Croi_Exec_Insert_head, MinList_Remove_spec, Croi_Exec_Remove_spec.
Qed.

(** Queues. [MinList_RemHead] and [Croi_Exec_RemHead] take the first node, [MinList_RemTail] and
    [Croi_Exec_RemTail] the last one; on an empty list they return null and change nothing;
    [MinList_IsEmpty] tells the two apart. *)
Theorem list_take_ops l ns n :
  takes (MinList_RemHead l) l ns (head ns) (tail ns) /\ takes (Croi_Exec_RemHead l) l ns (head ns) (tail ns) /\
  takes (MinList_RemTail l) l (ns ++ [n]) (Some n) ns /\ takes (Croi_Exec_RemTail l) l (ns ++ [n]) (Some n) ns /\
  takes (MinList_RemTail l) l [] None [] /\ takes (Croi_Exec_RemTail l) l [] None [] /\
  (forall m, is_list m l ns -> MinList_IsEmpty l m = (Ok (bool_decide (ns = [])), m)).
Proof.
  split_and!; auto using MinList_RemHead_spec, Croi_Exec_RemHead_spec, MinList_RemTail_spec, Croi_Exec_RemTail_spec,
    MinList_RemTail_empty, Croi_Exec_RemTail_empty, IsEmpty_spec.
Qed.

(** [Croi_Exec_Enqueue] inserts by priority: it terminates, keeps a list that is in descending
    order of priority in order, and puts the node after every node of the same priority, so that
    equals leave in the order they came. *)
Theorem enqueue_keeps_priority_order m l ns node pri fuel :
  is_list m l ns -> spare m l ns node -> m !! ln_Pri node = Some (pri node) ->
  (forall x, x ∈ ns -> m !! ln_Pri x = Some (pri x)) -> (length ns < fuel)%nat -> pri_sorted pri ns ->
  exists m' ns1 ns2, Croi_Exec_Enqueue fuel l node m = (Ok tt, m') /\ ns = ns1 ++ ns2 /\ is_list m' l (ns1 ++ node :: ns2) /\
    pri_sorted pri (ns1 ++ node :: ns2) /\ Forall (fun x => pri node <= pri x) ns1 /\ Forall (fun x => pri x < pri node) ns2 /\
    unchanged_but (list_cells l (ns1 ++ node :: ns2)) m m'.
Proof.
  intros Hl Hs Hn Hp Hf Hso. destruct (Enqueue_spec m l ns node pri fuel Hl Hs Hn Hp Hf) as (m' & E & Hl' & Hu).
  exists m', (before pri (pri node) ns), (after pri (pri node) ns). pose proof (before_spec pri (pri node) ns) as Hb. pose proof (after_spec _ (pri node) _ Hso) as Ha.
  split_and!; try done; [by rewrite before_after|]. apply sorted_insert; [by rewrite before_after|done|].
  eapply Forall_impl; [exact Ha|]. cbn. intros; lia.
Qed.

(** [Croi_Exec_FindName] returns the first node of the list that has the name asked for (nodes
    without a name never match), or null if there is none, and changes nothing. *)
Theorem find_name_first m l ns nm fuel len want w : is_list m l ns -> cstring m want w ->
  (forall x, x ∈ ns -> named m nm x) -> (forall x s, x ∈ ns -> nm x = Some s -> (length s < len)%nat) -> (length ns < fuel)%nat ->
  Croi_Exec_FindName fuel len l want m = (Ok (List.find (is_named nm w) ns), m).
Proof.
  intros Hl Hw Hn Hlen Hf. unfold Croi_Exec_FindName. destruct (list_ends m l ns Hl) as (a & b & _ & Hb & E1 & _). rewrite (load_bind _ _ _ _ E1).
  by apply (find_name_loop_spec m l nm fuel len [] ns).
Qed.

Module ListExample.
(** A header at 100 and two spare nodes at 200 and 300 of priorities 5 and 9; the second one is
    called "A". *)
Definition pri (x : Z) : Z := if x =? 200 then 5 else 9.
Definition nm (x : Z) : option (list Z) := if x =? 300 then Some [65] else None.
Definition m0 : mem := list_to_map
  ([(100, 108); (108, 0); (116, 100); (200, 0); (208, 0); (217, 5); (224, 0); (300, 0); (308, 0); (317, 9); (324, 400); (400, 65); (401, 0)] : list (Z * Z)).
Lemma empty : is_list m0 100 [].
Proof. split; [repeat split; reflexivity|reflexivity| |repeat constructor; lia]. cbn. repeat (apply NoDup_cons; split; [set_solver|]). constructor. Qed.
Lemma spare200 : spare m0 100 [] 200.
Proof. unfold spare, list_cells. cbn. split_and!; [lia|set_solver|set_solver|by eexists|by eexists]. Qed.
Definition m1 : mem := snd (Croi_Exec_Enqueue 1 100 200 m0).
Lemma one : is_list m1 100 [200].
Proof. split; [repeat split; reflexivity|reflexivity| |repeat constructor; lia]. cbn. repeat (apply NoDup_cons; split; [set_solver|]). constructor. Qed.
Lemma spare300 : spare m1 100 [200] 300.
Proof. unfold spare, list_cells. cbn. split_and!; [lia|set_solver|set_solver|by eexists|by eexists]. Qed.
Lemma pri200 x : x ∈ [200] -> m1 !! ln_Pri x = Some (pri x).
Proof. by intros ->%list_elem_of_singleton. Qed.

Lemma enqueue_keeps_priority_order_witness : exists (m' : mem) (ns1 ns2 : list Z), Croi_Exec_Enqueue 2 100 300 m1 = (Ok tt, m') /\ ns1 ++ ns2 = [200] /\
  is_list m' 100 (ns1 ++ 300 :: ns2) /\ pri_sorted pri (ns1 ++ 300 :: ns2).
Proof.
  destruct (enqueue_keeps_priority_order m1 100 [200] 300 pri 2 one spare300 eq_refl pri200 ltac:(cbn; lia) ltac:(repeat constructor))
    as (m' & ns1 & ns2 & E & Es & Hl & Hso & _). exists m', ns1, ns2. split; [exact E|]. split; [exact (eq_sym Es)|]. split; [exact Hl|exact Hso].
Defined.

Definition m2 : mem := snd (Croi_Exec_Enqueue 2 100 300 m1).
Lemma two : is_list m2 100 [300; 200].
Proof. split; [repeat split; reflexivity|reflexivity| |repeat constructor; lia]. cbn. repeat (apply NoDup_cons; split; [set_solver|]). constructor. Qed.
Lemma names x : x ∈ [300; 200] -> named m2 nm x.
Proof.
  intros [-> | ->%list_elem_of_singleton]%elem_of_cons; [|reflexivity]. exists 400. repeat split; (reflexivity || lia).
Qed.
Lemma lens x s : x ∈ [300; 200] -> nm x = Some s -> (length s < 2)%nat.
Proof. intros [-> | ->%list_elem_of_singleton]%elem_of_cons; [|done]. intros [= <-]. cbn. lia. Qed.
Lemma find_name_first_witness : Croi_Exec_FindName 3 2 100 400 m2 = (Ok (Some 300), m2).
Proof.
  exact (find_name_first m2 100 [300; 200] nm 3 2 400 [65] two ltac:(repeat split; (reflexivity || lia)) names lens ltac:(cbn; lia)).
Defined.

Lemma list_link_ops_witness : (exists m', MinList_AddHead 100 200 m0 = (Ok tt, m') /\ is_list m' 100 [200]) /\
  (exists m', Croi_Exec_Insert 100 300 200 m1 = (Ok tt, m') /\ is_list m' 100 [200; 300]) /\
  (exists m', Croi_Exec_Remove 300 m2 = (Ok tt, m') /\ is_list m' 100 [200]).
Proof.
  destruct (list_link_ops 100 [] [] [200] 200 0) as (H1 & _). destruct (H1 m0 empty spare200) as (m' & E & Hl & _).
  split; [exists m'; split; [exact E|exact Hl]|].
  destruct (list_link_ops 100 [] [200] [] 300 200) as (_ & _ & _ & _ & H2 & _). destruct (H2 eq_refl m1 one spare300) as (m'' & E' & Hl' & _).
  split; [exists m''; split; [exact E'|exact Hl']|].
  destruct (list_link_ops 100 [] [] [200] 300 0) as (_ & _ & _ & _ & _ & _ & _ & H3). destruct (H3 m2 two) as (m3 & E3 & Hl3 & _).
  exists m3. split; [exact E3|exact Hl3].
Defined.
Lemma list_take_ops_witness : (exists m', Croi_Exec_RemHead 100 m2 = (Ok (Some 300), m') /\ is_list m' 100 [200]) /\
  MinList_IsEmpty 100 m2 = (Ok false, m2).
Proof.
  destruct (list_take_ops 100 [300; 200] 0) as (_ & H2 & _ & _ & _ & _ & H7). destruct (H2 m2 two) as (m' & E & Hl & _).
  split; [exists m'; split; [exact E|exact Hl]|exact (H7 m2 two)].
Defined.
End ListExample.
