(* ===== verification/Sched.v ===== *)
(** The cooperative scheduler and its signals ([src/croi/sched/sched.c]). A state is the set of
    tasks, the running one and the three queues; an operation is a function on states, made by the
    running task. The queues are sequences: that the code's linked lists implement them is shown in
    ExecList. The register switch itself is the architecture's; here a switch is the change of the
    running task. *)

From S2P Require Import Prelude ExecList.
From Stdlib Require Import Sorting.Sorted.

(** * Data *)

Definition TS_RUN : Z := 2.
Definition TS_READY : Z := 3.
Definition TS_WAIT : Z := 4.
Definition TS_REMOVED : Z := 6.

(** The fields of [struct Task] that the scheduler uses. *)
Record Task := mkTask {
  tc_Pri : Z; tc_State : Z; tc_IDNestCnt : Z; tc_TDNestCnt : Z; tc_SigAlloc : Z; tc_SigWait : Z; tc_SigRecvd : Z
}.
Definition set_pri (t : Task) (v : Z) := mkTask v (tc_State t) (tc_IDNestCnt t) (tc_TDNestCnt t) (tc_SigAlloc t) (tc_SigWait t) (tc_SigRecvd t).
Definition set_state (t : Task) (v : Z) := mkTask (tc_Pri t) v (tc_IDNestCnt t) (tc_TDNestCnt t) (tc_SigAlloc t) (tc_SigWait t) (tc_SigRecvd t).
Definition set_idnest (t : Task) (v : Z) := mkTask (tc_Pri t) (tc_State t) v (tc_TDNestCnt t) (tc_SigAlloc t) (tc_SigWait t) (tc_SigRecvd t).
Definition set_tdnest (t : Task) (v : Z) := mkTask (tc_Pri t) (tc_State t) (tc_IDNestCnt t) v (tc_SigAlloc t) (tc_SigWait t) (tc_SigRecvd t).
Definition set_sigalloc (t : Task) (v : Z) := mkTask (tc_Pri t) (tc_State t) (tc_IDNestCnt t) (tc_TDNestCnt t) v (tc_SigWait t) (tc_SigRecvd t).
Definition set_sigwait (t : Task) (v : Z) := mkTask (tc_Pri t) (tc_State t) (tc_IDNestCnt t) (tc_TDNestCnt t) (tc_SigAlloc t) v (tc_SigRecvd t).
Definition set_sigrecvd (t : Task) (v : Z) := mkTask (tc_Pri t) (tc_State t) (tc_IDNestCnt t) (tc_TDNestCnt t) (tc_SigAlloc t) (tc_SigWait t) v.

(** The globals of sched.c, and the tasks by address. *)
Record Sched := mkSched {
  g_tasks : gmap Z Task; g_current : option Z; g_runq : list Z; g_sleepers : list Z; g_dead : list Z; g_inited : bool
}.
Definition set_tasks (s : Sched) (v : gmap Z Task) := mkSched v (g_current s) (g_runq s) (g_sleepers s) (g_dead s) (g_inited s).
Definition set_current (s : Sched) (v : option Z) := mkSched (g_tasks s) v (g_runq s) (g_sleepers s) (g_dead s) (g_inited s).
Definition set_runq (s : Sched) (v : list Z) := mkSched (g_tasks s) (g_current s) v (g_sleepers s) (g_dead s) (g_inited s).
Definition set_sleepers (s : Sched) (v : list Z) := mkSched (g_tasks s) (g_current s) (g_runq s) v (g_dead s) (g_inited s).
Definition set_dead (s : Sched) (v : list Z) := mkSched (g_tasks s) (g_current s) (g_runq s) (g_sleepers s) v (g_inited s).

(** [t->field = ...] *)
Definition upd (t : Z) (f : Task -> Task) (s : Sched) : Sched := set_tasks s (alter f t (g_tasks s)).
Definition pri_of (s : Sched) (t : Z) : Z := match g_tasks s !! t with Some k => tc_Pri k | None => 0 end.
(** A [BYTE]. *)
Definition i8 (x : Z) : Z := (x + 128) mod 256 - 128.
Definition not_mask (x : Z) : Z := not32 x.

(** * Operations *)

Definition clamp_pri (pri : Z) : Z := if pri <? -128 then -128 else if 127 <? pri then 127 else pri.

Definition new_task (pri state : Z) : Task := mkTask pri state (-1) (-1) 0 0 0.

(** The loop looks for the first task of lower priority and inserts before it. *)
Fixpoint runq_insert (pri : Z -> Z) (t : Z) (q : list Z) : list Z :=
  match q with [] => [t] | p :: q' => if pri p <? pri t then t :: p :: q' else p :: runq_insert pri t q' end.
Definition runq_add (t : Z) (s : Sched) : Sched := set_runq s (runq_insert (pri_of s) t (g_runq s)).

(** [boot] is the task allocated for kmain, if the heap has room for it and its handle table. *)
Definition Sched_Init (boot : option Z) (s : Sched) : Sched :=
  if g_inited s then s
  else match boot with
       | None => mkSched (g_tasks s) (g_current s) [] [] [] false
       | Some b => mkSched (<[b := new_task 100 TS_RUN]> (g_tasks s)) (Some b) [] [] [] true
       end.
Definition Sched_Current (s : Sched) : option Z := g_current s.

(** [t] is the task allocated, unless an allocation fails; [entry] says that an entry function was
    given. *)
Definition Croi_SpawnKernelTask (pri : Z) (entry : bool) (t : option Z) (s : Sched) : option Z * Sched :=
  if negb (g_inited s) || negb entry then (None, s)
  else match t with
       | None => (None, s)
       | Some t => (Some t, runq_add t (set_tasks s (<[t := new_task (clamp_pri pri) TS_READY]> (g_tasks s))))
       end.

(** Take the first ready task and make it the running one. *)
Definition dispatch (n : Z) (s : Sched) : Sched := set_current (upd n (fun k => set_state k TS_RUN) s) (Some n).

Definition nested (s : Sched) : bool :=
  match g_current s with
  | Some c => match g_tasks s !! c with Some k => (0 <=? tc_TDNestCnt k) || (0 <=? tc_IDNestCnt k) | None => false end
  | None => false
  end.
Definition Croi_Yield (s : Sched) : Sched :=
  if negb (g_inited s) then s
  else if nested s then s
  else match g_runq s with
       | [] => s
       | head :: rest =>
           if match g_current s with Some old => pri_of s head <? pri_of s old | None => false end then s
           else
             let s := upd head (fun k => set_state k TS_RUN) (set_runq s rest) in
             let s := match g_current s with
                      | Some old => runq_add old (upd old (fun k => set_state k TS_READY) s)
                      | None => s
                      end in
             set_current s (Some head)
       end.

(** The machine goes on, or halts. *)
Inductive outcome := Go (s : Sched) | Halt (s : Sched).

Definition Croi_TaskExit (s : Sched) : outcome :=
  match g_current s with
  | None => Halt s
  | Some old =>
      let s := upd old (fun k => set_state k TS_REMOVED) s in
      let s := set_dead s (g_dead s ++ [old]) in
      match g_runq s with
      | [] => Halt s
      | n :: rest => Go (dispatch n (set_runq s rest))
      end
  end.

Definition on_current (f : Task -> Task) (s : Sched) : Sched :=
  match g_current s with Some c => upd c f s | None => s end.
Definition Croi_TaskSetSelfPriority (pri : Z) (s : Sched) : Sched := on_current (fun k => set_pri k (clamp_pri pri)) s.
Definition Croi_Forbid : Sched -> Sched := on_current (fun k => set_tdnest k (i8 (tc_TDNestCnt k + 1))).
Definition Croi_Permit : Sched -> Sched :=
  on_current (fun k => if 0 <=? tc_TDNestCnt k then set_tdnest k (i8 (tc_TDNestCnt k - 1)) else k).
Definition Croi_Disable : Sched -> Sched := on_current (fun k => set_idnest k (i8 (tc_IDNestCnt k + 1))).
Definition Croi_Enable : Sched -> Sched :=
  on_current (fun k => if 0 <=? tc_IDNestCnt k then set_idnest k (i8 (tc_IDNestCnt k - 1)) else k).

(** Free the dead tasks. *)
Definition Sched_ReapDead (s : Sched) : Sched :=
  set_dead (set_tasks s (foldl (fun ts t => delete t ts) (g_tasks s) (g_dead s))) [].

(** ** Signals *)

(** The loop over the bits from [b] on. *)
Fixpoint free_signal_bit (n : nat) (b alloc : Z) : option Z :=
  match n with
  | O => None
  | S n => if Z.land alloc (u32 (Z.shiftl 1 b)) =? 0 then Some b else free_signal_bit n (b + 1) alloc
  end.
Definition Croi_AllocSignal (s : Sched) : Z * Sched :=
  match g_current s with
  | None => (-1, s)
  | Some c =>
      match g_tasks s !! c with
      | None => (-1, s)
      | Some k =>
          match free_signal_bit 16 16 (tc_SigAlloc k) with
          | None => (-1, s)
          | Some b =>
              let mask := u32 (Z.shiftl 1 b) in
              (b, upd c (fun k => set_sigrecvd (set_sigalloc k (Z.lor (tc_SigAlloc k) mask)) (Z.land (tc_SigRecvd k) (not_mask mask))) s)
          end
      end
  end.
Definition Croi_FreeSignal (sig : Z) (s : Sched) : Sched :=
  if (sig <? 0) || (32 <=? sig) then s
  else let mask := u32 (Z.shiftl 1 sig) in
       on_current (fun k => set_sigrecvd (set_sigalloc k (Z.land (tc_SigAlloc k) (not_mask mask))) (Z.land (tc_SigRecvd k) (not_mask mask))) s.

(** [target] is null ([None]) or a task. *)
Definition Croi_Signal (target : option Z) (mask : Z) (s : Sched) : Sched :=
  match target with
  | None => s
  | Some t =>
      if mask =? 0 then s
      else
        let s := upd t (fun k => set_sigrecvd k (Z.lor (tc_SigRecvd k) mask)) s in
        match g_tasks s !! t with
        | None => s
        | Some k =>
            if (tc_State k =? TS_WAIT) && negb (Z.land (tc_SigRecvd k) (tc_SigWait k) =? 0) then
              let s := set_sleepers s (List.remove Z.eq_dec t (g_sleepers s)) in
              runq_add t (upd t (fun k => set_sigwait (set_state k TS_READY) 0) s)
            else s
        end
  end.
Definition Croi_SetSignal (new_signals mask : Z) (s : Sched) : Z * Sched :=
  match g_current s with
  | None => (0, s)
  | Some c =>
      match g_tasks s !! c with
      | None => (0, s)
      | Some k => (Z.land (tc_SigRecvd k) mask,
                   upd c (fun k => set_sigrecvd k (Z.lor (Z.land (tc_SigRecvd k) (not_mask mask)) (Z.land new_signals mask))) s)
      end
  end.

(** One round of the loop of [Croi_Wait]: a signal has arrived, or the task goes to sleep and another
    one runs; the loop goes round again when the task next runs. *)
Inductive wait_outcome := WaitHit (hit : Z) (s : Sched) | WaitBlock (s : Sched) | WaitHalt (s : Sched).
Definition Croi_Wait (mask : Z) (s : Sched) : wait_outcome :=
  match g_current s with
  | None => WaitHit 0 s
  | Some c =>
      if mask =? 0 then WaitHit 0 s
      else match g_tasks s !! c with
           | None => WaitHit 0 s
           | Some k =>
               let hit := Z.land (tc_SigRecvd k) mask in
               if negb (hit =? 0) then
                 WaitHit hit (upd c (fun k => set_sigwait (set_sigrecvd k (Z.land (tc_SigRecvd k) (not_mask hit))) 0) s)
               else
                 let s := upd c (fun k => set_state (set_sigwait k mask) TS_WAIT) s in
                 match g_runq s with
                 | [] => WaitHalt s
                 | n :: rest => WaitBlock (dispatch n (set_runq (set_sleepers s (g_sleepers s ++ [c])) rest))
                 end
           end
  end.

(** * The system: a sequence of operations by the running task *)

(** [waiting] records, for each task inside [Croi_Wait], the mask it waits for. *)
Record sys := mkSys { y_sched : Sched; y_waiting : gmap Z Z }.

(** The operations that do not end or block the caller. *)
Inductive plain_op : Sched -> Sched -> Prop :=
| op_yield s : plain_op s (Croi_Yield s)
| op_spawn s pri t s' : g_tasks s !! t = None -> Croi_SpawnKernelTask pri true (Some t) s = (Some t, s') -> plain_op s s'
| op_priority s pri : plain_op s (Croi_TaskSetSelfPriority pri s)
| op_forbid s : plain_op s (Croi_Forbid s)
| op_permit s : plain_op s (Croi_Permit s)
| op_disable s : plain_op s (Croi_Disable s)
| op_enable s : plain_op s (Croi_Enable s)
| op_alloc_signal s b s' : Croi_AllocSignal s = (b, s') -> plain_op s s'
| op_free_signal s sig : plain_op s (Croi_FreeSignal sig s)
| op_signal s t mask : is_Some (g_tasks s !! t) -> in_u32 mask -> plain_op s (Croi_Signal (Some t) mask s)
| op_set_signal s new mask r s' : Croi_SetSignal new mask s = (r, s') -> plain_op s s'
| op_reap s : plain_op s (Sched_ReapDead s).

Inductive sys_step : sys -> sys -> Prop :=
| y_plain s w s' c : g_current s = Some c -> w !! c = None -> plain_op s s' -> sys_step (mkSys s w) (mkSys s' w)
| y_exit s w s' c : g_current s = Some c -> w !! c = None -> Croi_TaskExit s = Go s' -> sys_step (mkSys s w) (mkSys s' w)
| y_wait_hit s w c mask hit s' : g_current s = Some c -> w !! c = None -> in_u32 mask -> Croi_Wait mask s = WaitHit hit s' -> sys_step (mkSys s w) (mkSys s' w)
| y_wait_block s w c mask s' : g_current s = Some c -> w !! c = None -> in_u32 mask -> Croi_Wait mask s = WaitBlock s' -> sys_step (mkSys s w) (mkSys s' (<[c := mask]> w))
| y_resume_hit s w c mask hit s' : g_current s = Some c -> w !! c = Some mask -> Croi_Wait mask s = WaitHit hit s' -> sys_step (mkSys s w) (mkSys s' (delete c w))
| y_resume_block s w c mask s' : g_current s = Some c -> w !! c = Some mask -> Croi_Wait mask s = WaitBlock s' -> sys_step (mkSys s w) (mkSys s' w).

Definition booted (b : Z) : sys := mkSys (Sched_Init (Some b) (mkSched ∅ None [] [] [] false)) ∅.
Definition reachable (y : sys) : Prop := exists b, rtc sys_step (booted b) y.

(** * Invariant *)

(** Where a task is says what it is doing; a sleeper has nothing to wake up for. *)
Definition placed (c : Z) (r sl d : list Z) (t : Z) (k : Task) : Prop :=
  (t = c /\ tc_State k = TS_RUN) \/ (t ∈ r /\ tc_State k = TS_READY) \/
  (t ∈ sl /\ tc_State k = TS_WAIT /\ Z.land (tc_SigRecvd k) (tc_SigWait k) = 0 /\ tc_SigWait k <> 0) \/ (t ∈ d /\ tc_State k = TS_REMOVED).

Definition pri_in (ts : gmap Z Task) (t : Z) : Z := match ts !! t with Some k => tc_Pri k | None => 0 end.

Record sok (ts : gmap Z Task) (c : Z) (r sl d : list Z) : Prop := {
  k_nodup : NoDup (c :: r ++ sl ++ d);
  k_exists : forall t, t ∈ c :: r ++ sl ++ d -> is_Some (ts !! t);
  k_placed : forall t k, ts !! t = Some k -> placed c r sl d t k;
  k_sorted : pri_sorted (pri_in ts) r
}.
Definition sched_ok (s : Sched) : Prop :=
  g_inited s = true /\ exists c, g_current s = Some c /\ sok (g_tasks s) c (g_runq s) (g_sleepers s) (g_dead s).

(** A task inside [Croi_Wait] sleeps on its mask, or has a signal of its mask. *)
Definition waits_ok (s : Sched) (w : gmap Z Z) : Prop :=
  (forall t, t ∈ g_sleepers s -> is_Some (w !! t)) /\
  forall t mask, w !! t = Some mask -> mask <> 0 /\ exists k, g_tasks s !! t = Some k /\
    ((t ∈ g_sleepers s /\ tc_SigWait k = mask) \/ ((t ∈ g_runq s \/ g_current s = Some t) /\ Z.land (tc_SigRecvd k) mask <> 0)).
Definition sys_ok (y : sys) : Prop := sched_ok (y_sched y) /\ waits_ok (y_sched y) (y_waiting y).

(** ** Queues *)

Lemma runq_insert_eq pri t q : runq_insert pri t q = before pri (pri t) q ++ t :: after pri (pri t) q.
Proof. induction q as [|x q IH]; cbn; [done|]. destruct (_ <? _); [done|]. by rewrite IH. Qed.
Lemma runq_insert_perm pri t q : runq_insert pri t q ≡ₚ t :: q.
Proof. rewrite runq_insert_eq, <- Permutation_middle, before_after. done. Qed.
Lemma runq_insert_elem pri t q x : x ∈ runq_insert pri t q <-> x = t \/ x ∈ q.
Proof. rewrite runq_insert_perm, elem_of_cons. done. Qed.
Lemma sorted_ext pri pri' q : (forall x, x ∈ q -> pri' x = pri x) -> pri_sorted pri q -> pri_sorted pri' q.
Proof.
  unfold pri_sorted. intros He Hs. induction Hs as [|x q Hs IH Hx]; [constructor|]. constructor; [apply IH; intros y Hy; apply He; by right|].
  rewrite Forall_forall in *. intros y Hy. rewrite !He; [by apply Hx|left|by right].
Qed.
Lemma before_ext pri pri' p q : (forall x, x ∈ q -> pri' x = pri x) -> before pri' p q = before pri p q /\ after pri' p q = after pri p q.
Proof.
  induction q as [|x q IH]; intros He; [done|]. cbn. rewrite He by left. destruct (_ <? _); [done|].
  destruct IH as [-> ->]; [|done]. intros y Hy. apply He. by right.
Qed.
Lemma runq_insert_sorted pri t q : pri_sorted pri q -> pri_sorted pri (runq_insert pri t q).
Proof.
  intros Hs. rewrite runq_insert_eq. apply sorted_insert; [by rewrite before_after|apply before_spec|].
  eapply Forall_impl; [by apply after_spec|]. cbn. intros; lia.
Qed.
Lemma pri_sorted_tail pri x q : pri_sorted pri (x :: q) -> pri_sorted pri q.
Proof. intros H. by apply StronglySorted_inv in H as [? _]. Qed.

(** ** Changing one task *)

Lemma pri_in_alter ts f t x : (forall k, tc_Pri (f k) = tc_Pri k) -> pri_in (alter f t ts) x = pri_in ts x.
Proof.
  intros Hf. unfold pri_in. destruct (decide (t = x)) as [->|Hne]; [rewrite lookup_alter_eq|by rewrite lookup_alter_ne]. by destruct (ts !! x); cbn; rewrite ?Hf.
Qed.
Lemma pri_in_alter_ne ts f t x : x <> t -> pri_in (alter f t ts) x = pri_in ts x.
Proof. intros Hne. unfold pri_in. by rewrite lookup_alter_ne. Qed.
Lemma alter_exists {A} (f : A -> A) (t : Z) (ts : gmap Z A) x : is_Some (alter f t ts !! x) <-> is_Some (ts !! x).
Proof. apply lookup_alter_is_Some. Qed.

(** Fields of the running task change. *)
Lemma sok_current ts c r sl d f : (forall k, tc_State (f k) = tc_State k) -> sok ts c r sl d -> sok (alter f c ts) c r sl d.
Proof.
  intros Hf [N E P S]. split; [done| | |].
  - intros t Ht. apply alter_exists. by apply E.
  - intros t k Hk. apply NoDup_cons in N as [Nc N]. destruct (decide (c = t)) as [<-|Hne].
    + rewrite lookup_alter_eq in Hk. destruct (ts !! c) as [k0|] eqn:E0; [|done]. injection Hk as <-.
      destruct (P c k0 E0) as [[_ H]|H]; [left; by rewrite Hf|]. rewrite !elem_of_app in Nc. unfold placed in H. tauto.
    + rewrite lookup_alter_ne in Hk by done. by apply P.
  - apply NoDup_cons in N as [Nc _]. eapply sorted_ext; [|exact S]. intros x Hx. apply pri_in_alter_ne. intros ->. apply Nc. rewrite !elem_of_app. tauto.
Qed.
Lemma alter_inv (ts : gmap Z Task) f t x k : alter f t ts !! x = Some k ->
  (x = t /\ exists k0, ts !! t = Some k0 /\ k = f k0) \/ (x <> t /\ ts !! x = Some k).
Proof.
  destruct (decide (t = x)) as [<-|Hne]; [|rewrite lookup_alter_ne by done; auto]. rewrite lookup_alter_eq. destruct (ts !! t) as [k0|]; [|done].
  intros [= <-]. eauto.
Qed.

Lemma alter_swap f g i j (ts : gmap Z Task) : i <> j -> alter f i (alter g j ts) = alter g j (alter f i ts).
Proof. intros H. unfold alter, map_alter. by apply partial_alter_partial_alter_ne. Qed.

(** A ready task takes over from the running one, which goes wherever [r'], [sl'] or [d'] has it. *)
Lemma sok_switch ts c n rest r' sl sl' d d' f :
  sok ts c (n :: rest) sl d ->
  r' ++ sl' ++ d' ≡ₚ c :: rest ++ sl ++ d ->
  (forall x, x ∈ rest -> x ∈ r') -> (forall x, x ∈ sl -> x ∈ sl') -> (forall x, x ∈ d -> x ∈ d') ->
  (forall k, ts !! c = Some k -> placed n r' sl' d' c (f k)) ->
  pri_sorted (pri_in (alter (fun k => set_state k TS_RUN) n (alter f c ts))) r' ->
  sok (alter (fun k => set_state k TS_RUN) n (alter f c ts)) n r' sl' d'.
Proof.
  intros [N E P S] Hperm Hr Hs Hd Hc Hsort.
  assert (n :: r' ++ sl' ++ d' ≡ₚ c :: (n :: rest) ++ sl ++ d) as Hp' by (rewrite Hperm; cbn [app]; apply Permutation_swap).
  pose proof N as N'. apply NoDup_cons in N' as [Nc N']. cbn [app] in N'. apply NoDup_cons in N' as [Nn N'].
  split; [by rewrite Hp'| | |done].
  - intros t Ht. rewrite !alter_exists. apply E. by rewrite <- Hp'.
  - intros t k [(-> & k0 & Hk & ->)|(Hne & Hk)]%alter_inv; [left; done|].
    apply alter_inv in Hk as [(-> & k0 & Hk & ->)|(Hnc & Hk)]; [by apply Hc|].
    destruct (P t k Hk) as [[? _]|[[Ht ?]|[(Ht & ?)|[Ht ?]]]]; [done| | |].
    + right. left. split; [|done]. apply Hr. apply elem_of_cons in Ht as [?|?]; done.
    + right. right. left. split; [by apply Hs|done].
    + right. right. right. split; [by apply Hd|done].
Qed.
Lemma sok_yield ts c n rest sl d : sok ts c (n :: rest) sl d ->
  let ts' := alter (fun k => set_state k TS_READY) c (alter (fun k => set_state k TS_RUN) n ts) in
  sok ts' n (runq_insert (pri_in ts') c rest) sl d.
Proof.
  intros Hs ts'. assert (c <> n) as Hne by (intros ->; pose proof (k_nodup _ _ _ _ _ Hs) as N; apply NoDup_cons in N as [N _]; apply N; left).
  unfold ts'. rewrite (alter_swap _ _ c n) by done. fold ts'.
  assert (pri_sorted (pri_in (alter (fun k => set_state k TS_RUN) n (alter (fun k => set_state k TS_READY) c ts))) rest) as Hso.
  { eapply sorted_ext; [|eapply pri_sorted_tail, (k_sorted _ _ _ _ _ Hs)]. intros x Hx. by rewrite !pri_in_alter. }
  apply (sok_switch ts c n rest _ sl sl d d); try done.
  - rewrite runq_insert_perm. done.
  - intros x Hx. apply runq_insert_elem. by right.
  - intros k Hk. right. left. split; [|done]. apply runq_insert_elem. by left.
  - by apply runq_insert_sorted.
Qed.
Lemma sok_exit ts c n rest sl d : sok ts c (n :: rest) sl d ->
  sok (alter (fun k => set_state k TS_RUN) n (alter (fun k => set_state k TS_REMOVED) c ts)) n rest sl (d ++ [c]).
Proof.
  intros Hs. apply (sok_switch ts c n rest rest sl sl d (d ++ [c])); try done.
  - rewrite !app_assoc, <- Permutation_cons_append. done.
  - intros x Hx. apply elem_of_app. by left.
  - intros k Hk. right. right. right. split; [apply elem_of_app; right; left|done].
  - eapply sorted_ext; [|eapply pri_sorted_tail, (k_sorted _ _ _ _ _ Hs)]. intros x Hx. by rewrite !pri_in_alter.
Qed.
Lemma sok_block ts c n rest sl d mask : sok ts c (n :: rest) sl d -> mask <> 0 ->
  (forall k, ts !! c = Some k -> Z.land (tc_SigRecvd k) mask = 0) ->
  sok (alter (fun k => set_state k TS_RUN) n (alter (fun k => set_state (set_sigwait k mask) TS_WAIT) c ts)) n rest (sl ++ [c]) d.
Proof.
  intros Hs Hm Hh. apply (sok_switch ts c n rest rest sl (sl ++ [c]) d d); try done.
  - rewrite <- app_assoc. cbn [app]. by rewrite <- (Permutation_middle sl d c), <- (Permutation_middle rest (sl ++ d) c).
  - intros x Hx. apply elem_of_app. by left.
  - intros k Hk. right. right. left. split_and!; [apply elem_of_app; right; left|done|exact (Hh k Hk)|exact Hm].
  - eapply sorted_ext; [|eapply pri_sorted_tail, (k_sorted _ _ _ _ _ Hs)]. intros x Hx. by rewrite !pri_in_alter.
Qed.
Lemma sok_spawn ts c r sl d t pri : sok ts c r sl d -> ts !! t = None ->
  sok (<[t := new_task pri TS_READY]> ts) c (runq_insert (pri_in (<[t := new_task pri TS_READY]> ts)) t r) sl d.
Proof.
  intros [N E P S] Hf. assert (t ∉ c :: r ++ sl ++ d) as Ht by (intros Ht; destruct (E t Ht); congruence).
  rewrite elem_of_cons, !elem_of_app in Ht. split.
  - rewrite runq_insert_perm. cbn [app]. rewrite Permutation_swap. apply NoDup_cons. split; [|done]. rewrite elem_of_cons, !elem_of_app. tauto.
  - intros x. rewrite elem_of_cons, !elem_of_app, runq_insert_elem. intros Hx. destruct (decide (t = x)) as [->|Hne]; [rewrite lookup_insert_eq; by eexists|].
    rewrite lookup_insert_ne by done. apply E. rewrite elem_of_cons, !elem_of_app. intuition congruence.
  - intros x k Hk. destruct (decide (t = x)) as [->|Hne].
    + rewrite lookup_insert_eq in Hk. injection Hk as <-. right. left. split; [apply runq_insert_elem; by left|done].
    + rewrite lookup_insert_ne in Hk by done. destruct (P x k Hk) as [H|[[H ?]|H]]; [by left| |by right; right].
      right. left. split; [apply runq_insert_elem; by right|done].
  - apply runq_insert_sorted. eapply sorted_ext; [|exact S]. intros x Hx. unfold pri_in. rewrite lookup_insert_ne; [done|]. intros ->. tauto.
Qed.
Lemma remove_perm t (l : list Z) : NoDup l -> t ∈ l -> l ≡ₚ t :: List.remove Z.eq_dec t l.
Proof.
  induction 1 as [|x l Hx N IH]; intros Ht; [by apply elem_of_nil in Ht|]. cbn. destruct (Z.eq_dec t x) as [->|Hne].
  - by rewrite notin_remove by (by rewrite <- list_elem_of_In).
  - apply elem_of_cons in Ht as [?|Ht]; [done|]. rewrite Permutation_swap. constructor. by apply IH.
Qed.
Lemma sok_wake ts c r sl d t h : sok ts c r sl d -> t ∈ sl -> (forall k, tc_State (h k) = TS_READY) -> (forall k, tc_Pri (h k) = tc_Pri k) ->
  sok (alter h t ts) c (runq_insert (pri_in (alter h t ts)) t r) (List.remove Z.eq_dec t sl) d.
Proof.
  intros [N E P S] Ht Hh Hp. assert (sl ≡ₚ t :: List.remove Z.eq_dec t sl) as Hperm.
  { apply remove_perm; [|done]. apply NoDup_cons in N as [_ N]. apply NoDup_app in N as (_ & _ & N). by apply NoDup_app in N as (N & _ & _). }
  assert (c :: runq_insert (pri_in (alter h t ts)) t r ++ List.remove Z.eq_dec t sl ++ d ≡ₚ c :: r ++ sl ++ d) as Hall.
  { rewrite runq_insert_perm. cbn [app]. constructor. rewrite Hperm at 2. cbn [app]. by rewrite <- Permutation_middle. }
  split; [by rewrite Hall| | |].
  - intros x Hx. rewrite alter_exists. apply E. by rewrite <- Hall.
  - intros x k [(-> & k0 & Hk & ->)|(Hne & Hk)]%alter_inv.
    + right. left. split; [apply runq_insert_elem; by left|apply Hh].
    + destruct (P x k Hk) as [H|[[H ?]|[(H & ?)|H]]]; [by left| | |by right; right; right].
      * right. left. split; [apply runq_insert_elem; by right|done].
      * right. right. left. split; [|done]. rewrite Hperm in H. by apply elem_of_cons in H as [?|H].
  - apply runq_insert_sorted. eapply sorted_ext; [|exact S]. intros x _. by apply pri_in_alter.
Qed.
Lemma sok_other ts c r sl d t f : sok ts c r sl d -> (forall k, tc_State (f k) = tc_State k) -> (forall k, tc_Pri (f k) = tc_Pri k) ->
  (forall k, ts !! t = Some k -> tc_State k = TS_WAIT -> Z.land (tc_SigRecvd (f k)) (tc_SigWait (f k)) = 0 /\ tc_SigWait (f k) <> 0) ->
  sok (alter f t ts) c r sl d.
Proof.
  intros [N E P S] Hs Hp Hw. split; [done| | |].
  - intros x Hx. rewrite alter_exists. by apply E.
  - intros x k [(-> & k0 & Hk & ->)|(Hne & Hk)]%alter_inv; [|by apply P].
    unfold placed. rewrite Hs. destruct (P t k0 Hk) as [H|[H|[(H & H2 & _)|H]]]; auto. right. right. left. split_and!; [done..| |]; by apply Hw.
  - eapply sorted_ext; [|exact S]. intros x _. by apply pri_in_alter.
Qed.
Lemma foldl_delete (d : list Z) (ts : gmap Z Task) x : foldl (fun ts t => delete t ts) ts d !! x = if decide (x ∈ d) then None else ts !! x.
Proof.
  revert ts. induction d as [|t d IH]; intros ts; [done|]. cbn [foldl]. rewrite IH.
  destruct (decide (x ∈ d)) as [H|H]; [by rewrite decide_True by (by right)|]. destruct (decide (x = t)) as [->|Hne].
  - rewrite lookup_delete_eq, decide_True by left. done.
  - rewrite lookup_delete_ne by done. rewrite decide_False; [done|]. intros [?|?]%elem_of_cons; done.
Qed.
Lemma sok_reap ts c r sl d : sok ts c r sl d -> sok (foldl (fun ts t => delete t ts) ts d) c r sl [].
Proof.
  intros [N E P S]. assert (forall x, x ∈ c :: r ++ sl -> x ∉ d) as Hd.
  { intros x Hx. rewrite app_assoc, app_comm_cons in N. apply NoDup_app in N as (_ & N & _). by apply N. }
  split.
  - rewrite app_nil_r. rewrite app_assoc, app_comm_cons in N. by apply NoDup_app in N as (N & _ & _).
  - intros x Hx. rewrite app_nil_r in Hx. rewrite foldl_delete, decide_False by (by apply Hd). apply E.
    rewrite app_assoc, app_comm_cons. apply elem_of_app. by left.
  - intros x k Hk. rewrite foldl_delete in Hk. destruct (decide (x ∈ d)) as [|Hx]; [done|]. destruct (P x k Hk) as [H|[H|[H|[H _]]]]; [by left|by right; left|by right; right; left|done].
  - eapply sorted_ext; [|exact S]. intros x Hx. unfold pri_in. rewrite foldl_delete, decide_False; [done|]. apply Hd. rewrite elem_of_cons, elem_of_app. tauto.
Qed.

(** ** Every operation keeps the scheduler well-formed *)

Lemma pri_of_in s t : pri_of s t = pri_in (g_tasks s) t.
Proof. done. Qed.
Lemma on_current_ok s f : (forall k, tc_State (f k) = tc_State k) -> sched_ok s -> sched_ok (on_current f s).
Proof.
  intros Hf (Hi & c & Hc & Hs). unfold on_current. rewrite Hc. split; [done|]. exists c. split; [done|]. by apply sok_current.
Qed.
Lemma yield_ok s : sched_ok s -> sched_ok (Croi_Yield s).
Proof.
  intros Hs. pose proof Hs as (Hi & c & Hc & Hk). unfold Croi_Yield. rewrite Hi. cbn [negb]. destruct (nested s); [done|]. destruct (g_runq s) as [|n rest] eqn:Er; [done|].
  rewrite Hc. destruct (_ <? _); [done|]. cbn [g_current upd set_tasks set_runq]. rewrite Hc. split; [done|]. exists n. split; [done|]. apply (sok_yield _ _ _ _ _ _ Hk).
Qed.
Lemma signal_ok s t mask : sched_ok s -> sched_ok (Croi_Signal (Some t) mask s).
Proof.
  intros Hs. pose proof Hs as (Hi & c & Hc & Hk). unfold Croi_Signal. destruct (mask =? 0); [done|].
  cbn [upd g_tasks set_tasks]. rewrite lookup_alter_eq. destruct (g_tasks s !! t) as [k|] eqn:Et; cbn [fmap option_fmap option_map].
  - cbn [tc_State set_sigrecvd tc_SigRecvd tc_SigWait]. destruct (_ && _) eqn:Ew.
    + zbool. split; [done|]. exists c. split; [done|]. unfold runq_add, upd, set_sleepers, set_tasks, set_runq, pri_of.
      cbn [g_tasks g_runq g_sleepers g_dead]. rewrite alter_alter_eq.
      apply (sok_wake _ _ _ _ _ t _ Hk); [|done|done]. destruct (k_placed _ _ _ _ _ Hk t k Et) as [[_ H']|[[_ H']|[(H' & _)|[_ H']]]]; [| |done|]; rewrite H' in *; done.
    + split; [done|]. exists c. split; [done|]. cbn. apply (sok_other _ _ _ _ _ t _ Hk); [done|done|]. intros k' Hk' Hw. rewrite Et in Hk'. injection Hk' as <-. cbn.
      rewrite Hw, Z.eqb_refl in Ew. zbool. split; [cbn in Ew; lia|]. destruct (k_placed _ _ _ _ _ Hk t k Et) as [[_ H']|[[_ H']|[(_ & _ & _ & H')|[_ H']]]]; [| |done|]; rewrite H' in Hw; done.
  - split; [done|]. exists c. split; [done|]. cbn. rewrite alter_id; [done|]. intros k' Hk'. congruence.
Qed.

Lemma plain_op_ok s s' : sched_ok s -> plain_op s s' -> sched_ok s'.
Proof.
  intros Hs Hop. destruct Hop as [s|s pri t s' Hf E|s pri|s|s|s|s|s b s' E|s sig|s t mask Ht Hm|s new mask r s' E|s].
  - by apply yield_ok.
  - unfold Croi_SpawnKernelTask in E. destruct (_ || _); [done|]. injection E as <-. destruct Hs as (Hi & c & Hc & Hk).
    split; [done|]. exists c. split; [done|]. by apply (sok_spawn _ _ _ _ _ t).
  - by apply on_current_ok.
  - by apply on_current_ok.
  - apply on_current_ok; [|done]. intros k. by destruct (_ <=? _).
  - by apply on_current_ok.
  - apply on_current_ok; [|done]. intros k. by destruct (_ <=? _).
  - pose proof Hs as (Hi & c & Hc & Hk). unfold Croi_AllocSignal in E. rewrite Hc in E. destruct (g_tasks s !! c) as [k|]; [|by injection E as _ <-].
    destruct (free_signal_bit _ _ _); injection E as _ <-; [|done]. split; [done|]. exists c. split; [done|]. by apply sok_current.
  - unfold Croi_FreeSignal. destruct (_ || _); [done|]. by apply on_current_ok.
  - by apply signal_ok.
  - pose proof Hs as (Hi & c & Hc & Hk). unfold Croi_SetSignal in E. rewrite Hc in E. destruct (g_tasks s !! c) as [k|]; injection E as _ <-; [|done].
    split; [done|]. exists c. split; [done|]. by apply sok_current.
  - destruct Hs as (Hi & c & Hc & Hk). split; [done|]. exists c. split; [done|]. by apply sok_reap.
Qed.
Lemma exit_ok s s' : sched_ok s -> Croi_TaskExit s = Go s' -> sched_ok s'.
Proof.
  intros (Hi & c & Hc & Hk) E. unfold Croi_TaskExit in E. rewrite Hc in E. cbn [g_runq set_dead upd set_tasks] in E.
  destruct (g_runq s) as [|n rest] eqn:Er; [done|]. injection E as <-. split; [done|]. exists n. split; [done|]. by apply sok_exit.
Qed.
Lemma wait_ok s mask :
  sched_ok s -> (forall hit s', Croi_Wait mask s = WaitHit hit s' -> sched_ok s') /\ (forall s', Croi_Wait mask s = WaitBlock s' -> sched_ok s').
Proof.
  intros Hs. pose proof Hs as (Hi & c & Hc & Hk). unfold Croi_Wait. rewrite Hc. destruct (Z.eqb_spec mask 0) as [->|Hm]; [split; intros *; [by intros [= _ <-]|done]|].
  destruct (g_tasks s !! c) as [k|] eqn:Ek; [|split; intros *; [by intros [= _ <-]|done]]. destruct (negb _) eqn:Eh.
  - split; intros *; [|done]. intros [= _ <-]. split; [done|]. exists c. split; [done|]. by apply sok_current.
  - zbool. split; intros *; cbn [g_runq upd set_tasks]; destruct (g_runq s) as [|n rest] eqn:Er; try done. intros [= <-].
    split; [done|]. exists n. split; [done|]. apply sok_block; [done|done|]. intros k' Hk'. congruence.
Qed.

(** ** Every step keeps the waiting tasks' promises *)

Lemma waits_frame s s' w : waits_ok s w -> (forall t, t ∈ g_sleepers s' <-> t ∈ g_sleepers s) ->
  (forall t k, is_Some (w !! t) -> g_tasks s !! t = Some k ->
     exists k', g_tasks s' !! t = Some k' /\ tc_SigWait k' = tc_SigWait k /\ tc_SigRecvd k' = tc_SigRecvd k) ->
  (forall t, is_Some (w !! t) -> t ∈ g_runq s \/ g_current s = Some t -> t ∈ g_runq s' \/ g_current s' = Some t) -> waits_ok s' w.
Proof.
  intros [H1 H2] Hsl Ht Hr. split; [intros t Hs; apply H1; by apply Hsl|]. intros t mask Hw. destruct (H2 t mask Hw) as (Hm & k & Hk & Hc).
  destruct (Ht t k ltac:(by eexists) Hk) as (k' & Hk' & E1 & E2). split; [done|]. exists k'. split; [done|]. rewrite E1, E2, Hsl. destruct Hc as [Hc|[Hc Hh]]; [by left|right].
  split; [|done]. apply Hr; [by eexists|done].
Qed.
Lemma alter_other (ts : gmap Z Task) f c t k : ts !! t = Some k -> (t = c -> tc_SigWait (f k) = tc_SigWait k /\ tc_SigRecvd (f k) = tc_SigRecvd k) ->
  exists k', alter f c ts !! t = Some k' /\ tc_SigWait k' = tc_SigWait k /\ tc_SigRecvd k' = tc_SigRecvd k.
Proof.
  intros Hk Hf. destruct (decide (c = t)) as [->|Hne]; [rewrite lookup_alter_eq, Hk; exists (f k); split; [done|by apply Hf]|].
  rewrite lookup_alter_ne by done. eauto.
Qed.
Lemma on_current_waits s w c f : waits_ok s w -> g_current s = Some c -> w !! c = None -> waits_ok (on_current f s) w.
Proof.
  intros Hw Hc Hn. unfold on_current. rewrite Hc. apply (waits_frame s); try done. intros t k [m Ht] Hk. apply alter_other; [done|]. intros ->. congruence.
Qed.
Lemma upd_current_waits s w c f : waits_ok s w -> g_current s = Some c -> w !! c = None -> waits_ok (upd c f s) w.
Proof. intros Hw Hc Hn. pose proof (on_current_waits s w c f Hw Hc Hn) as H. unfold on_current in H. by rewrite Hc in H. Qed.
Lemma yield_waits s w c : waits_ok s w -> g_current s = Some c -> w !! c = None -> waits_ok (Croi_Yield s) w.
Proof.
  intros Hw Hc Hn. unfold Croi_Yield. destruct (negb _); [done|]. destruct (nested s); [done|]. destruct (g_runq s) as [|n rest] eqn:Er; [done|].
  rewrite Hc. destruct (_ <? _); [done|]. cbn [g_current upd set_tasks set_runq]. rewrite Hc. apply (waits_frame s); try done.
  - intros t k Ht Hk. cbn. destruct (alter_other (g_tasks s) (fun k => set_state k TS_RUN) n t k Hk) as (k1 & Hk1 & E1 & E2); [done|].
    destruct (alter_other _ (fun k => set_state k TS_READY) c t k1 Hk1) as (k2 & Hk2 & E3 & E4); [done|]. exists k2. split_and!; congruence.
  - intros t [m Ht] H. cbn. rewrite runq_insert_elem. rewrite Er, elem_of_cons in H. destruct H as [[->|H]|H]; [by right|by left; right|congruence].
Qed.
Lemma signal_waits s w t mask : sched_ok s -> waits_ok s w -> in_u32 mask -> waits_ok (Croi_Signal (Some t) mask s) w.
Proof.
  intros (Hi & c & Hc & Hk) Hw Hm. unfold Croi_Signal. destruct (Z.eqb_spec mask 0); [done|].
  cbn [upd g_tasks set_tasks]. rewrite lookup_alter_eq. destruct (g_tasks s !! t) as [k|] eqn:Et; cbn [fmap option_fmap option_map]; cycle 1.
  { apply (waits_frame s); try done. intros x kx [m Hx] Hkx. cbn. apply alter_other; [done|]. intros ->. congruence. }
  cbn [tc_State set_sigrecvd tc_SigRecvd tc_SigWait]. destruct Hw as [W1 W2]. destruct (_ && _) eqn:Ew.
  - zbool. assert (t ∈ g_sleepers s) as Hts.
    { destruct (k_placed _ _ _ _ _ Hk t k Et) as [[_ H']|[[_ H']|[(H' & _)|[_ H']]]]; [| |done|]; rewrite H' in *; done. }
    assert (NoDup (g_sleepers s)) as Nsl.
    { pose proof (k_nodup _ _ _ _ _ Hk) as N. apply NoDup_cons in N as [_ N]. apply NoDup_app in N as (_ & _ & N). by apply NoDup_app in N as (N & _ & _). }
    pose proof (remove_perm t _ Nsl Hts) as Hp. assert (forall x, x ∈ List.remove Z.eq_dec t (g_sleepers s) <-> x ∈ g_sleepers s /\ x <> t) as Hrem.
    { intros x. pose proof Nsl as Nsl'. rewrite Hp in Nsl'. apply NoDup_cons in Nsl' as [Nt _]. rewrite Hp at 2. rewrite elem_of_cons. split; [|tauto].
      intros Hx. split; [by right|]. by intros ->. }
    split; cbn [g_sleepers g_tasks g_runq g_current runq_add set_runq upd set_tasks set_sleepers].
    + intros x Hx. apply W1. by apply Hrem in Hx as [? _].
    + intros x m Hx. destruct (W2 x m Hx) as (Hm0 & kx & Hkx & Hcase). split; [done|]. rewrite alter_alter_eq. destruct (decide (t = x)) as [<-|Hne].
      * rewrite lookup_alter_eq, Et. eexists. split; [reflexivity|]. right. split; [left; apply runq_insert_elem; by left|]. cbn.
        rewrite Et in Hkx. injection Hkx as <-. destruct Hcase as [[_ <-]|[[Hin|Hin] _]]; [done| |].
        -- pose proof (k_nodup _ _ _ _ _ Hk) as N. apply NoDup_cons in N as [_ N]. apply NoDup_app in N as (_ & N & _). destruct (N t Hin). apply elem_of_app. by left.
        -- pose proof (k_nodup _ _ _ _ _ Hk) as N. apply NoDup_cons in N as [N _]. destruct N. replace c with t by congruence. rewrite !elem_of_app. tauto.
      * rewrite lookup_alter_ne by done. exists kx. split; [done|]. destruct Hcase as [[Hin ?]|[Hin ?]]; [left; split; [apply Hrem; split; congruence|done]|].
        right. split; [|done]. destruct Hin; [left; apply runq_insert_elem; by right|by right].
  - split; [done|]. intros x m Hx. destruct (W2 x m Hx) as (Hm0 & kx & Hkx & Hcase). split; [done|]. cbn [g_tasks set_tasks upd]. destruct (decide (t = x)) as [<-|Hne].
    + rewrite lookup_alter_eq, Et. eexists. split; [reflexivity|]. rewrite Et in Hkx. injection Hkx as <-. destruct Hcase as [Hcase|[Hin Hh]]; [by left|right]. split; [done|]. cbn.
      rewrite Z.land_lor_distr_l. intros [E _]%Z.lor_eq_0_iff. done.
    + rewrite lookup_alter_ne by done. eauto.
Qed.
Lemma plain_op_waits s w s' c : sched_ok s -> waits_ok s w -> g_current s = Some c -> w !! c = None -> plain_op s s' -> waits_ok s' w.
Proof.
  intros Hs Hw Hc Hn Hop. destruct Hop as [s|s pri t s' Hf E|s pri|s|s|s|s|s b s' E|s sig|s t mask Ht Hm|s new mask r s' E|s].
  all: try (by eapply on_current_waits).
  - by eapply yield_waits.
  - unfold Croi_SpawnKernelTask in E. destruct (_ || _); [done|]. injection E as <-. apply (waits_frame s); try done.
    + intros x k _ Hk. cbn. rewrite lookup_insert_ne by congruence. eauto.
    + intros x _ [H|H]; cbn; [left; apply runq_insert_elem; by right|by right].
  - unfold Croi_AllocSignal in E. rewrite Hc in E. destruct (g_tasks s !! c) as [k|]; [|by injection E as _ <-].
    destruct (free_signal_bit _ _ _); injection E as _ <-; [|done]. by apply upd_current_waits.
  - unfold Croi_FreeSignal. destruct (_ || _); [done|]. by eapply on_current_waits.
  - by apply signal_waits.
  - unfold Croi_SetSignal in E. rewrite Hc in E. destruct (g_tasks s !! c) as [k|]; injection E as _ <-; [|done]. by apply upd_current_waits.
  - destruct Hs as (_ & c' & Hc' & Hk). pose proof (k_nodup _ _ _ _ _ Hk) as N. rewrite app_assoc, app_comm_cons in N. apply NoDup_app in N as (_ & N & _).
    apply (waits_frame s); try done. intros x k [m Hx] Hkx. exists k. cbn. rewrite foldl_delete, decide_False; [done|]. apply N.
    destruct (proj2 Hw x m Hx) as (_ & _ & _ & [[Hin _]|[[Hin|Hin] _]]); rewrite elem_of_cons, elem_of_app; [tauto|tauto|left; congruence].
Qed.
Lemma exit_waits s w s' c : sched_ok s -> waits_ok s w -> g_current s = Some c -> w !! c = None -> Croi_TaskExit s = Go s' -> waits_ok s' w.
Proof.
  intros _ Hw Hc Hn E. unfold Croi_TaskExit in E. rewrite Hc in E. cbn [g_runq set_dead upd set_tasks] in E.
  destruct (g_runq s) as [|n rest] eqn:Er; [done|]. injection E as <-. apply (waits_frame s); try done.
  - intros t k Ht Hk. cbn. destruct (alter_other (g_tasks s) (fun k => set_state k TS_REMOVED) c t k Hk) as (k1 & Hk1 & E1 & E2); [done|].
    destruct (alter_other _ (fun k => set_state k TS_RUN) n t k1 Hk1) as (k2 & Hk2 & E3 & E4); [done|]. exists k2. split_and!; congruence.
  - intros t [m Ht] H. cbn. rewrite Er, elem_of_cons in H. destruct H as [[->|H]|H]; [by right|by left|congruence].
Qed.
Lemma wait_block_waits s w s' c mask : sched_ok s -> waits_ok s w -> g_current s = Some c -> w !! c = None ->
  Croi_Wait mask s = WaitBlock s' -> waits_ok s' (<[c := mask]> w).
Proof.
  intros (_ & c' & Hc' & Hk) [W1 W2] Hc Hn E. unfold Croi_Wait in E. rewrite Hc in E. destruct (Z.eqb_spec mask 0); [done|].
  destruct (g_tasks s !! c) as [k|] eqn:Ek; [|done]. destruct (negb _); [done|]. cbn [g_runq upd set_tasks] in E.
  destruct (g_runq s) as [|m rest] eqn:Er; [done|]. injection E as <-. replace c' with c in * by congruence.
  assert (c <> m) as Hcm by (intros ->; pose proof (k_nodup _ _ _ _ _ Hk) as N; apply NoDup_cons in N as [N _]; apply N; left).
  split; cbn [g_sleepers g_tasks g_runq g_current dispatch set_current upd set_tasks set_runq set_sleepers].
  - intros t [Ht| ->%list_elem_of_singleton]%elem_of_app; [|rewrite lookup_insert_eq; by eexists].
    destruct (decide (c = t)) as [->|Hne]; [rewrite lookup_insert_eq; by eexists|]. rewrite lookup_insert_ne by done. by apply W1.
  - intros t mask' Ht. destruct (decide (c = t)) as [<-|Hne].
    + rewrite lookup_insert_eq in Ht. injection Ht as <-. split; [done|]. rewrite lookup_alter_ne by done. rewrite lookup_alter_eq, Ek. eexists. split; [reflexivity|].
      left. split; [apply elem_of_app; right; left|done].
    + rewrite lookup_insert_ne in Ht by done. destruct (W2 t mask' Ht) as (Hm0 & kx & Hkx & Hcase). split; [done|].
      destruct (alter_other (alter (fun k => set_state (set_sigwait k mask) TS_WAIT) c (g_tasks s)) (fun k => set_state k TS_RUN) m t kx) as (k2 & Hk2 & E1 & E2); [by rewrite lookup_alter_ne|done|].
      exists k2. split; [done|]. rewrite E1, E2. destruct Hcase as [[Hin ?]|[Hin ?]]; [left; split; [apply elem_of_app; by left|done]|right]. split; [|done].
      rewrite ?Er, elem_of_cons in Hin. destruct Hin as [[->|Hin]|Hin]; [by right|by left|congruence].
Qed.
(** A task that runs again inside [Croi_Wait] finds a signal of its mask. *)
Lemma resume_hits s w c mask : sched_ok s -> waits_ok s w -> g_current s = Some c -> w !! c = Some mask ->
  exists hit s', Croi_Wait mask s = WaitHit hit s' /\ hit <> 0 /\ Z.land hit mask = hit /\
    s' = upd c (fun k => set_sigwait (set_sigrecvd k (Z.land (tc_SigRecvd k) (not_mask hit))) 0) s.
Proof.
  intros (_ & c' & Hc' & Hk) [W1 W2] Hc Hw. replace c' with c in * by congruence. destruct (W2 c mask Hw) as (Hm0 & k & Ek & Hcase).
  assert (Z.land (tc_SigRecvd k) mask <> 0) as Hh.
  { destruct Hcase as [[Hin _]|[_ H]]; [|done]. pose proof (k_nodup _ _ _ _ _ Hk) as N. apply NoDup_cons in N as [N _]. destruct N. rewrite !elem_of_app. tauto. }
  unfold Croi_Wait. rewrite Hc, (proj2 (Z.eqb_neq mask 0)) by done. rewrite Ek, (proj2 (Z.eqb_neq _ 0)) by done. eexists _, _. split; [reflexivity|].
  split_and!; [done| |done]. by rewrite <- Z.land_assoc, Z.land_diag.
Qed.

Lemma sys_step_ok y y' : sys_ok y -> sys_step y y' -> sys_ok y'.
Proof.
  intros [Hs Hw] Hst. destruct Hst as [s w s' c Hc Hn Hop|s w s' c Hc Hn E|s w c mask hit s' Hc Hn Hm E|s w c mask s' Hc Hn Hm E|s w c mask hit s' Hc Hn E|s w c mask s' Hc Hn E];
    cbn [y_sched y_waiting] in *.
  - split; [by eapply plain_op_ok|by eapply plain_op_waits].
  - split; [by eapply exit_ok|by eapply exit_waits].
  - split; [exact (proj1 (wait_ok s mask Hs) _ _ E)|]. unfold Croi_Wait in E. rewrite Hc in E. destruct (mask =? 0); [by injection E as _ <-|].
    destruct (g_tasks s !! c) as [k|]; [|by injection E as _ <-]. destruct (negb _); [|cbn in E; by destruct (g_runq s)]. injection E as _ <-. by apply upd_current_waits.
  - split; [exact (proj2 (wait_ok s mask Hs) _ E)|by eapply wait_block_waits].
  - split; [exact (proj1 (wait_ok s mask Hs) _ _ E)|]. destruct (resume_hits s w c mask Hs Hw Hc Hn) as (hit' & s'' & E' & _ & _ & ->). rewrite E' in E. injection E as _ <-.
    apply (upd_current_waits s (delete c w)); [|done|by rewrite lookup_delete_eq]. destruct Hw as [W1 W2]. destruct Hs as (_ & c' & Hc' & Hk). replace c' with c in * by congruence. split.
    + intros t Ht. rewrite lookup_delete_ne; [by apply W1|]. intros <-. pose proof (k_nodup _ _ _ _ _ Hk) as N. apply NoDup_cons in N as [N _]. apply N. rewrite !elem_of_app. tauto.
    + intros t m [_ Ht]%lookup_delete_Some. by apply W2.
  - destruct (resume_hits s w c mask Hs Hw Hc Hn) as (hit' & s'' & E' & _). congruence.
Qed.
Lemma booted_ok b : sys_ok (booted b).
Proof.
  split.
  - split; [done|]. exists b. split; [done|]. split; cbn.
    + repeat constructor. by intros ?%elem_of_nil.
    + intros t ->%list_elem_of_singleton. rewrite lookup_insert_eq. by eexists.
    + intros t k Hk. destruct (decide (b = t)) as [->|Hne]; [|by rewrite lookup_insert_ne in Hk]. rewrite lookup_insert_eq in Hk. injection Hk as <-. by left.
    + constructor.
  - split; [intros t Ht; by apply elem_of_nil in Ht|]. intros t m Ht. cbn in Ht. by rewrite lookup_empty in Ht.
Qed.
Lemma reachable_ok y : reachable y -> sys_ok y.
Proof. intros [b Hr]. pose proof (booted_ok b) as Hb. induction Hr as [|y1 y2 y3 H1 _ IH]; [done|]. apply IH. by eapply sys_step_ok. Qed.

(** * Properties *)

(** C16: In every state the system can reach, each task is in exactly one place (running, ready,
    asleep or dead) and its state says so, no task is lost, and the ready queue is in descending
    order of priority. *)
Theorem sched_invariant y : reachable y -> exists c, g_current (y_sched y) = Some c /\
  let s := y_sched y in
  NoDup (c :: g_runq s ++ g_sleepers s ++ g_dead s) /\
  (forall t, is_Some (g_tasks s !! t) <-> t ∈ c :: g_runq s ++ g_sleepers s ++ g_dead s) /\
  (forall t k, g_tasks s !! t = Some k -> placed c (g_runq s) (g_sleepers s) (g_dead s) t k) /\
  pri_sorted (pri_of s) (g_runq s).
Proof.
  intros [(_ & c & Hc & [N E P S]) _]%reachable_ok. exists c. split; [done|]. cbn zeta. split_and!; [done| |done|done].
  intros t. split; [|apply E]. intros [k Hk]. rewrite elem_of_cons, !elem_of_app. destruct (P t k Hk) as [[? _]|[[? _]|[(? & _)|[? _]]]]; tauto.
Qed.

(** C17: No wake-up is lost and none is spurious. In every reachable state a sleeping task has none of
    the signals it waits for; sending it one makes it ready, with the signal recorded, and takes it
    off the sleepers; and a task that runs again inside [Croi_Wait] returns from it at once, with
    at least one of the signals it waited for and only those. *)
Theorem signals_not_lost y : reachable y ->
  let s := y_sched y in
  (forall t k, t ∈ g_sleepers s -> g_tasks s !! t = Some k -> Z.land (tc_SigRecvd k) (tc_SigWait k) = 0 /\
     forall mask, Z.land mask (tc_SigWait k) <> 0 -> exists k',
       let s' := Croi_Signal (Some t) mask s in
       g_tasks s' !! t = Some k' /\ tc_State k' = TS_READY /\ tc_SigRecvd k' = Z.lor (tc_SigRecvd k) mask /\ t ∈ g_runq s' /\ t ∉ g_sleepers s') /\
  (forall c mask, g_current s = Some c -> y_waiting y !! c = Some mask ->
     exists hit s', Croi_Wait mask s = WaitHit hit s' /\ hit <> 0 /\ Z.land hit mask = hit).
Proof.
  intros Hr s. destruct (reachable_ok y Hr) as [Hs Hw]. fold s in Hs, Hw. split.
  - intros t k Ht Hk. destruct Hs as (_ & c & Hc & Ok). pose proof (k_nodup _ _ _ _ _ Ok) as N. apply NoDup_cons in N as [Nc N].
    apply NoDup_app in N as (_ & Nr & N). apply NoDup_app in N as (_ & Nd & _).
    destruct (k_placed _ _ _ _ _ Ok t k Hk) as [[-> _]|[[Hin _]|[(_ & Hst & H0 & Hnz)|[Hin _]]]].
    + destruct Nc. rewrite !elem_of_app. tauto.
    + destruct (Nr t Hin). apply elem_of_app. by left.
    + split; [done|]. intros mask Hm. eexists. unfold Croi_Signal. rewrite (proj2 (Z.eqb_neq mask 0)) by (intros ->; by rewrite Z.land_0_l in Hm).
      cbn [upd g_tasks set_tasks]. rewrite lookup_alter_eq, Hk. cbn [fmap option_fmap option_map tc_State set_sigrecvd tc_SigRecvd tc_SigWait].
      rewrite Hst, Z.eqb_refl, Z.land_lor_distr_l, H0, Z.lor_0_l, (proj2 (Z.eqb_neq _ 0)) by done. cbn [negb andb runq_add set_runq g_tasks upd set_tasks set_sleepers g_runq g_sleepers].
      rewrite alter_alter_eq, lookup_alter_eq, Hk. split_and!; [reflexivity|done|done|apply runq_insert_elem; by left|].
      rewrite list_elem_of_In. apply remove_In.
    + by destruct (Nd t Ht).
  - intros c mask Hc Hwt. destruct (resume_hits s _ c mask Hs Hw Hc Hwt) as (hit & s' & E & H1 & H2 & _). eauto 10.
Qed.

(** ** Fairness *)

Definition yields (n : nat) (s : Sched) : Sched := Nat.iter n Croi_Yield s.
(** The running and the ready tasks all have priority [p] and no task has switching off. *)
Definition peers (p : Z) (s : Sched) : Prop := forall t k, g_tasks s !! t = Some k ->
  (g_current s = Some t \/ t ∈ g_runq s -> tc_Pri k = p) /\ tc_TDNestCnt k < 0 /\ tc_IDNestCnt k < 0.

Lemma peers_runq_insert pri t q : (forall x, x ∈ q -> pri x = pri t) -> runq_insert pri t q = q ++ [t].
Proof.
  induction q as [|x q IH]; intros Hp; [done|]. cbn. rewrite Hp by left. rewrite Z.ltb_irrefl, IH; [done|]. intros y Hy. apply Hp. by right.
Qed.
Lemma pri_in_peer s p t : sched_ok s -> peers p s -> g_current s = Some t \/ t ∈ g_runq s -> pri_in (g_tasks s) t = p.
Proof.
  intros (_ & c & Hc & Hk) Hp Ht. unfold pri_in. assert (is_Some (g_tasks s !! t)) as [k Ek].
  { apply (k_exists _ _ _ _ _ Hk). rewrite elem_of_cons, !elem_of_app. destruct Ht; [left; congruence|tauto]. }
  rewrite Ek. by apply (proj1 (Hp t k Ek)).
Qed.
Lemma yield_rotates s p c n rest : sched_ok s -> peers p s -> g_current s = Some c -> g_runq s = n :: rest ->
  g_current (Croi_Yield s) = Some n /\ g_runq (Croi_Yield s) = rest ++ [c] /\ peers p (Croi_Yield s).
Proof.
  intros Hs Hp Hc Hr. pose proof (fun t => pri_in_peer s p t Hs Hp) as Hpri. pose proof Hs as (Hi & c' & Hc' & Hk). replace c' with c in * by congruence.
  assert (nested s = false) as Hnest.
  { unfold nested. rewrite Hc. destruct (g_tasks s !! c) as [k|] eqn:Ek; [|done]. destruct (proj2 (Hp c k Ek)). apply orb_false_iff. split; apply Z.leb_gt; lia. }
  unfold Croi_Yield. rewrite Hi, Hnest, Hr, Hc. cbn [negb]. rewrite !pri_of_in, (Hpri n) by (right; rewrite Hr; left). rewrite (Hpri c) by (by left). rewrite Z.ltb_irrefl.
  cbn [g_current upd set_tasks set_runq]. rewrite Hc. cbn [g_current g_runq set_current runq_add set_runq upd set_tasks g_tasks].
  assert (forall x, pri_of (set_tasks s (alter (fun k => set_state k TS_READY) c (alter (fun k => set_state k TS_RUN) n (g_tasks s)))) x = pri_in (g_tasks s) x) as Hsame.
  { intros x. rewrite pri_of_in. cbn [g_tasks set_tasks]. by rewrite !pri_in_alter. }
  split_and!; [done| |].
  - apply peers_runq_insert. intros x Hx. etransitivity; [apply Hsame|]. etransitivity; [|symmetry; apply Hsame].
    rewrite !Hpri; [done|by left|right; rewrite Hr; by right].
  - intros t k Hk'. cbn in Hk' |- *. assert (exists k0, g_tasks s !! t = Some k0 /\ tc_Pri k = tc_Pri k0 /\ tc_TDNestCnt k = tc_TDNestCnt k0 /\ tc_IDNestCnt k = tc_IDNestCnt k0) as (k0 & E0 & E1 & E2 & E3).
    { apply alter_inv in Hk' as [(-> & k1 & Hk1 & ->)|[_ Hk1]]; apply alter_inv in Hk1 as [(-> & k2 & Hk2 & ->)|[_ Hk2]]; eauto. }
    rewrite E1, E2, E3. destruct (Hp t k0 E0) as [P1 P2]. split; [|done]. intros Ht. apply P1. rewrite Hr. rewrite runq_insert_elem in Ht. rewrite elem_of_cons.
    destruct Ht as [[= <-]|[->|?]]; tauto.
Qed.

(** C18: Yielding is fair. A yield that is not forbidden leaves a task of the highest priority running:
    no ready task has a higher one. And among tasks of equal priority it is round robin: the [k]-th
    task of the ready queue runs after [k] yields, whatever [k], so no such task starves. *)
Theorem yield_fair s : sched_ok s ->
  (nested s = false -> forall c t, g_current (Croi_Yield s) = Some c -> t ∈ g_runq (Croi_Yield s) -> pri_of (Croi_Yield s) t <= pri_of (Croi_Yield s) c) /\
  (forall p c k t, peers p s -> g_current s = Some c -> (c :: g_runq s) !! k = Some t -> g_current (yields k s) = Some t).
Proof.
  intros Hs. split.
  - intros Hn c t Hc Ht. pose proof (yield_ok s Hs) as (_ & c1 & Hc1 & Hk1). destruct Hs as (Hi & c0 & Hc0 & Hk0).
    unfold Croi_Yield in *. rewrite Hi, Hn, Hc0 in *. cbn [negb] in *. destruct (g_runq s) as [|n rest] eqn:Er; [rewrite Er in Ht; by apply elem_of_nil in Ht|].
    destruct (Z.ltb_spec (pri_of s n) (pri_of s c0)) as [Hlt|Hge].
    + rewrite Hc0 in Hc. injection Hc as <-. rewrite Er in Ht. pose proof (k_sorted _ _ _ _ _ Hk0) as S. apply StronglySorted_inv in S as [_ S]. rewrite Forall_forall in S.
      apply elem_of_cons in Ht as [->|Ht]; [lia|]. specialize (S t Ht). cbn beta in S. rewrite !pri_of_in in *. lia.
    + clear Hk1 Hc1. cbn [g_current upd set_tasks set_runq] in *. rewrite Hc0 in *. cbn [g_current g_runq set_current runq_add set_runq upd set_tasks g_tasks] in *. injection Hc as <-.
      rewrite !pri_of_in. cbn [g_tasks set_current runq_add set_runq upd set_tasks]. rewrite !pri_in_alter by done. rewrite !pri_of_in in Hge.
      apply runq_insert_elem in Ht as [->|Ht]; [done|]. pose proof (k_sorted _ _ _ _ _ Hk0) as S. apply StronglySorted_inv in S as [_ S]. rewrite Forall_forall in S. by apply S.
  - intros p c k. revert s c Hs. induction k as [|k IH]; intros s c Hs t Hp Hc Ht; [cbn in Ht |- *; congruence|].
    cbn [lookup list_lookup] in Ht. destruct (g_runq s) as [|n rest] eqn:Er; [done|].
    destruct (yield_rotates s p c n rest Hs Hp Hc Er) as (R1 & R2 & R3). unfold yields. rewrite Nat.iter_succ_r. apply (IH (Croi_Yield s) n); [by apply yield_ok|done|done|].
    rewrite R2. change (n :: rest ++ [c]) with ((n :: rest) ++ [c]). by apply lookup_app_l_Some.
Qed.

Module SchedExample.
(** kmain is task 1; it spawns task 2 at its own priority and then waits for signal bit 16. *)
Definition s1 : Sched := y_sched (booted 1).
Definition s2 : Sched := snd (Croi_SpawnKernelTask 100 true (Some 2) s1).
Definition s3 : Sched := match Croi_Wait 65536 s2 with WaitBlock s => s | WaitHit _ s | WaitHalt s => s end.
Definition y3 : sys := mkSys s3 {[ 1 := 65536 ]}.
Lemma s1_reachable : reachable (mkSys s1 ∅).
Proof. exists 1. apply rtc_refl. Qed.
Lemma s2_step : sys_step (mkSys s1 ∅) (mkSys s2 ∅).
Proof. apply (y_plain s1 ∅ s2 1); [reflexivity|reflexivity|]. apply (op_spawn s1 100 2); reflexivity. Qed.
Lemma s3_step : sys_step (mkSys s2 ∅) y3.
Proof. apply (y_wait_block s2 ∅ 1 65536 s3); [reflexivity|reflexivity|unfold in_u32; lia|vm_compute; reflexivity]. Qed.
Lemma y3_reachable : reachable y3.
Proof. exists 1. apply (rtc_l _ _ (mkSys s2 ∅)); [exact s2_step|]. apply rtc_once. exact s3_step. Qed.

Lemma sched_invariant_witness : exists c, g_current (y_sched y3) = Some c /\ NoDup (c :: g_runq s3 ++ g_sleepers s3 ++ g_dead s3).
Proof. destruct (sched_invariant y3 y3_reachable) as (c & Hc & N & _). exists c. split; [exact Hc|exact N]. Defined.

Lemma signals_not_lost_witness : exists k k', g_tasks s3 !! 1 = Some k /\ tc_State k = TS_WAIT /\
  g_tasks (Croi_Signal (Some 1) 65536 s3) !! 1 = Some k' /\ tc_State k' = TS_READY.
Proof.
  destruct (signals_not_lost y3 y3_reachable) as [H _].
  destruct (H 1 (mkTask 100 TS_WAIT (-1) (-1) 0 65536 0)) as [_ H']; [vm_compute; left|vm_compute; reflexivity|].
  destruct (H' 65536 ltac:(vm_compute; done)) as (k' & E1 & E2 & _). exists (mkTask 100 TS_WAIT (-1) (-1) 0 65536 0), k'.
  split; [vm_compute; reflexivity|]. split; [reflexivity|]. split; [exact E1|exact E2].
Defined.

Lemma s2_ok : sched_ok s2.
Proof.
  assert (sys_ok (mkSys s2 ∅)) as [H _]; [|exact H]. apply reachable_ok. exists 1. apply rtc_once. exact s2_step.
Qed.
Lemma s2_peers : peers 100 s2.
Proof.
  intros t k Hk. unfold s2 in Hk. cbn in Hk. destruct (decide (t = 2)) as [->|H2]; [vm_compute in Hk; injection Hk as <-; done|].
  rewrite lookup_insert_ne in Hk by done. destruct (decide (t = 1)) as [->|H1]; [vm_compute in Hk; injection Hk as <-; done|].
  by rewrite lookup_insert_ne in Hk by done.
Qed.
Lemma yield_fair_witness : g_current (yields 1 s2) = Some 2.
Proof. exact (proj2 (yield_fair s2 s2_ok) 100 1 1%nat 2 s2_peers eq_refl eq_refl). Defined.
End SchedExample.

(** The nesting counters are signed bytes: after 129 calls of [Croi_Forbid] the counter is negative
    again and yielding switches tasks. *)
Example forbid_nesting_overflows :
  g_current (Croi_Yield (Nat.iter 128 Croi_Forbid SchedExample.s2)) = Some 1 /\
  g_current (Croi_Yield (Nat.iter 129 Croi_Forbid SchedExample.s2)) = Some 2.
Proof. split; vm_compute; reflexivity. Qed.
