(* ===== verification/Sem.v ===== *)
(** Signal semaphores ([src/croi/exec_lib/sem.c]) on top of the scheduler of [Sched]: a contended
    [ObtainSemaphore] queues the caller and waits for SIGF_SINGLE, [ReleaseSemaphore] hands the
    semaphore to the first waiter and signals it. The wait queue is the list of the waiters' requests
    (its links are the [MinList] of [ExecList]). *)

From S2P Require Import Prelude ExecList Sched.

(** * The operations *)

Definition SIGF_SINGLE : Z := 16.
(** A [WORD]. *)
Definition i16 (x : Z) : Z := (x + 32768) mod 65536 - 32768.

Record SignalSemaphore := mkSem { ss_Link : Z * Z * option Z; ss_NestCount : Z; ss_QueueCount : Z; ss_Owner : option Z; ss_WaitQueue : list (option Z) }.

(** [ss_Link]'s type, priority and name. *)
Definition NT_SIGNALSEM : Z := 15.
Definition Croi_InitSemaphore_Impl (sem : option SignalSemaphore) : option SignalSemaphore :=
  match sem with None => None | Some _ => Some (mkSem (NT_SIGNALSEM, 0, None) 0 (-1) None []) end.

(** The caller has the semaphore, or it went to sleep and another task runs: it will go round the loop
    of [Croi_Wait] and return when it next runs. *)
Inductive obtain_outcome := Obtained (sem : option SignalSemaphore) (s : Sched) | Queued (sem : option SignalSemaphore) (s : Sched) | Stuck (sem : option SignalSemaphore) (s : Sched).
Definition Croi_ObtainSemaphore_Impl (sem : option SignalSemaphore) (s : Sched) : obtain_outcome :=
  match sem with
  | None => Obtained None s
  | Some m =>
      let me := Sched_Current s in
      match ss_Owner m with
      | None => Obtained (Some (mkSem (ss_Link m) 1 (ss_QueueCount m) me (ss_WaitQueue m))) s
      | Some o =>
          if bool_decide (Some o = me) then Obtained (Some (mkSem (ss_Link m) (i16 (ss_NestCount m + 1)) (ss_QueueCount m) (Some o) (ss_WaitQueue m))) s
          else
            let m := mkSem (ss_Link m) (ss_NestCount m) (i16 (ss_QueueCount m + 1)) (Some o) (ss_WaitQueue m ++ [me]) in
            let s := snd (Croi_SetSignal 0 SIGF_SINGLE s) in
            match Croi_Wait SIGF_SINGLE s with
            | WaitHit _ s => Obtained (Some m) s
            | WaitBlock s => Queued (Some m) s
            | WaitHalt s => Stuck (Some m) s
            end
      end
  end.
Definition Croi_ReleaseSemaphore_Impl (sem : option SignalSemaphore) (s : Sched) : option SignalSemaphore * Sched :=
  match sem with
  | None => (None, s)
  | Some m =>
      let nest := if 0 <? ss_NestCount m then i16 (ss_NestCount m - 1) else ss_NestCount m in
      if negb (nest =? 0) then (Some (mkSem (ss_Link m) nest (ss_QueueCount m) (ss_Owner m) (ss_WaitQueue m)), s)
      else match ss_WaitQueue m with
           | t :: rest => (Some (mkSem (ss_Link m) 1 (i16 (ss_QueueCount m - 1)) t rest), Croi_Signal t SIGF_SINGLE s)
           | [] => (Some (mkSem (ss_Link m) nest (ss_QueueCount m) None []), s)
           end
  end.
Definition Croi_AttemptSemaphore_Impl (sem : option SignalSemaphore) (s : Sched) : bool * option SignalSemaphore :=
  match sem with
  | None => (false, None)
  | Some m =>
      let me := Sched_Current s in
      match ss_Owner m with
      | None => (true, Some (mkSem (ss_Link m) 1 (ss_QueueCount m) me (ss_WaitQueue m)))
      | Some o =>
          if bool_decide (Some o = me) then (true, Some (mkSem (ss_Link m) (i16 (ss_NestCount m + 1)) (ss_QueueCount m) (Some o) (ss_WaitQueue m)))
          else (false, Some m)
      end
  end.

(** * The system *)

(** The operations of a running task that leave the reserved signal alone. *)
Inductive quiet_op : Sched -> Sched -> Prop :=
| q_yield s : quiet_op s (Croi_Yield s)
| q_spawn s pri t s' : g_tasks s !! t = None -> Croi_SpawnKernelTask pri true (Some t) s = (Some t, s') -> quiet_op s s'
| q_priority s pri : quiet_op s (Croi_TaskSetSelfPriority pri s)
| q_forbid s : quiet_op s (Croi_Forbid s)
| q_permit s : quiet_op s (Croi_Permit s)
| q_disable s : quiet_op s (Croi_Disable s)
| q_enable s : quiet_op s (Croi_Enable s)
| q_alloc_signal s b s' : Croi_AllocSignal s = (b, s') -> quiet_op s s'
| q_free_signal s sig : quiet_op s (Croi_FreeSignal sig s)
| q_signal s t mask : is_Some (g_tasks s !! t) -> in_u32 mask -> Z.land mask SIGF_SINGLE = 0 -> quiet_op s (Croi_Signal (Some t) mask s)
| q_set_signal s new mask r s' : Croi_SetSignal new mask s = (r, s') -> quiet_op s s'
| q_reap s : quiet_op s (Sched_ReapDead s).
Lemma quiet_plain s s' : quiet_op s s' -> plain_op s s'.
Proof.
  destruct 1 as [s|s pri t s' Hf E|s pri|s|s|s|s|s b s' E|s sig|s t mask Ht Hm Hq|s new mask r s' E|s];
    [apply op_yield|exact (op_spawn _ pri t _ Hf E)|apply op_priority|apply op_forbid|apply op_permit|apply op_disable|apply op_enable|exact (op_alloc_signal _ b _ E)|apply op_free_signal|
     exact (op_signal _ t mask Ht Hm)|exact (op_set_signal _ new mask r _ E)|apply op_reap].
Qed.

(** The scheduler, one semaphore, how often each task holds it, and the tasks inside a contended
    [ObtainSemaphore]. *)
Record ssys := mkSS { x_sched : Sched; x_waiting : gmap Z Z; x_sem : SignalSemaphore; x_held : gmap Z Z; x_in : gset Z }.
Definition depth (held : gmap Z Z) (t : Z) : Z := default 0 (held !! t).
Inductive sem_step : ssys -> ssys -> Prop :=
| x_op s w m h i c s' : g_current s = Some c -> w !! c = None -> quiet_op s s' -> sem_step (mkSS s w m h i) (mkSS s' w m h i)
| x_exit s w m h i c s' : g_current s = Some c -> w !! c = None -> h !! c = None -> Croi_TaskExit s = Go s' -> sem_step (mkSS s w m h i) (mkSS s' w m h i)
| x_wait_hit s w m h i c mask hit s' : g_current s = Some c -> w !! c = None -> in_u32 mask -> Croi_Wait mask s = WaitHit hit s' ->
    sem_step (mkSS s w m h i) (mkSS s' w m h i)
| x_wait_block s w m h i c mask s' : g_current s = Some c -> w !! c = None -> in_u32 mask -> Croi_Wait mask s = WaitBlock s' ->
    sem_step (mkSS s w m h i) (mkSS s' (<[c := mask]> w) m h i)
| x_resume s w m h i c mask hit s' : g_current s = Some c -> w !! c = Some mask -> c ∉ i -> Croi_Wait mask s = WaitHit hit s' ->
    sem_step (mkSS s w m h i) (mkSS s' (delete c w) m h i)
| x_obtain s w m h i c m' s' : g_current s = Some c -> w !! c = None -> depth h c < 32767 -> Croi_ObtainSemaphore_Impl (Some m) s = Obtained (Some m') s' ->
    sem_step (mkSS s w m h i) (mkSS s' w m' (<[c := depth h c + 1]> h) i)
| x_queue s w m h i c m' s' : g_current s = Some c -> w !! c = None -> Z.of_nat (length (ss_WaitQueue m)) < 32767 -> Croi_ObtainSemaphore_Impl (Some m) s = Queued (Some m') s' ->
    sem_step (mkSS s w m h i) (mkSS s' (<[c := SIGF_SINGLE]> w) m' h ({[c]} ∪ i))
| x_obtained s w m h i c mask hit s' : g_current s = Some c -> w !! c = Some mask -> c ∈ i -> Croi_Wait mask s = WaitHit hit s' ->
    sem_step (mkSS s w m h i) (mkSS s' (delete c w) m (<[c := depth h c + 1]> h) (i ∖ {[c]}))
| x_attempt s w m h i c b m' : g_current s = Some c -> w !! c = None -> depth h c < 32767 -> Croi_AttemptSemaphore_Impl (Some m) s = (b, Some m') ->
    sem_step (mkSS s w m h i) (mkSS s w m' (if b then <[c := depth h c + 1]> h else h) i)
| x_release s w m h i c d m' s' : g_current s = Some c -> w !! c = None -> h !! c = Some d -> Croi_ReleaseSemaphore_Impl (Some m) s = (Some m', s') ->
    sem_step (mkSS s w m h i) (mkSS s' w m' (if d =? 1 then delete c h else <[c := d - 1]> h) i).
Definition sem_reachable (x : ssys) : Prop :=
  exists y raw m, reachable y /\ Croi_InitSemaphore_Impl (Some raw) = Some m /\ rtc sem_step (mkSS (y_sched y) (y_waiting y) m ∅ ∅) x.

(** * Signals of the waiters *)

Definition single (s : Sched) (t : Z) : Z := match g_tasks s !! t with Some k => Z.land (tc_SigRecvd k) SIGF_SINGLE | None => 0 end.
(** What a step does to the signals of the tasks that wait. *)
Definition calm (w : gmap Z Z) (s s' : Sched) : Prop := forall t, is_Some (w !! t) -> single s' t = single s t.

Lemma alter_single s s' f c t : g_tasks s' = alter f c (g_tasks s) -> (t = c -> forall k, tc_SigRecvd (f k) = tc_SigRecvd k) -> single s' t = single s t.
Proof.
  intros E Hf. unfold single. rewrite E. destruct (decide (c = t)) as [->|Hne]; [|by rewrite lookup_alter_ne].
  rewrite lookup_alter_eq. destruct (g_tasks s !! t); [|done]. simpl. by rewrite Hf.
Qed.
Lemma on_current_calm s w c f : g_current s = Some c -> w !! c = None -> calm w s (on_current f s).
Proof. intros Hc Hn t [m Ht]. unfold on_current. rewrite Hc. apply (alter_single _ _ f c); [done|]. intros ->. congruence. Qed.
Lemma upd_calm s w c f : w !! c = None -> calm w s (upd c f s).
Proof. intros Hn t [m Ht]. apply (alter_single _ _ f c); [done|]. intros ->. congruence. Qed.
Lemma yield_calm s w : calm w s (Croi_Yield s).
Proof.
  intros t _. unfold Croi_Yield. destruct (negb _); [done|]. destruct (nested s); [done|]. destruct (g_runq s) as [|n rest] eqn:Er; [done|].
  destruct (match g_current s with Some _ => _ | None => _ end); [done|]. cbn [g_current upd set_tasks set_runq].
  transitivity (single (upd n (fun k => set_state k TS_RUN) s) t); [|by apply (alter_single _ _ (fun k => set_state k TS_RUN) n)].
  destruct (g_current s) as [old|]; [|done]. by apply (alter_single _ _ (fun k => set_state k TS_READY) old).
Qed.
Lemma signal_single s x mask t : Z.land mask SIGF_SINGLE = 0 \/ t <> x -> single (Croi_Signal (Some x) mask s) t = single s t.
Proof.
  intros H. unfold Croi_Signal. destruct (mask =? 0); [done|]. set (s1 := upd x _ s). assert (single s1 t = single s t) as E1.
  { unfold single, s1. cbn [upd set_tasks g_tasks]. destruct (decide (x = t)) as [->|Hne]; [|by rewrite lookup_alter_ne]. rewrite lookup_alter_eq. destruct (g_tasks s !! t); [|done]. simpl.
    destruct H as [H|H]; [|done]. by rewrite Z.land_lor_distr_l, H, Z.lor_0_r. }
  destruct (g_tasks s1 !! x); [|done]. destruct (_ && _); [|done]. rewrite <- E1. by apply (alter_single _ _ (fun k => set_sigwait (set_state k TS_READY) 0) x).
Qed.
Lemma signalled s t : is_Some (g_tasks s !! t) -> single (Croi_Signal (Some t) SIGF_SINGLE s) t <> 0.
Proof.
  intros [k Ek]. unfold Croi_Signal. change (SIGF_SINGLE =? 0) with false. cbn iota. set (s1 := upd t _ s).
  assert (g_tasks s1 !! t = Some (set_sigrecvd k (Z.lor (tc_SigRecvd k) SIGF_SINGLE))) as E1 by (unfold s1; cbn; by rewrite lookup_alter_eq, Ek).
  assert (single s1 t <> 0) as H1 by (unfold single; rewrite E1; cbn [tc_SigRecvd set_sigrecvd]; rewrite Z.land_lor_distr_l; intros [_ E]%Z.lor_eq_0_iff; done).
  rewrite E1. destruct (_ && _); [|done]. intros E. apply H1. rewrite <- E. symmetry. by apply (alter_single _ _ (fun k => set_sigwait (set_state k TS_READY) 0) t).
Qed.
Lemma quiet_calm s w s' c : sched_ok s -> waits_ok s w -> g_current s = Some c -> w !! c = None -> quiet_op s s' -> calm w s s'.
Proof.
  intros Hs Hw Hc Hn Hop. destruct Hop as [s|s pri t s' Hf E|s pri|s|s|s|s|s b s' E|s sig|s t mask Ht Hm Hq|s new mask r s' E|s].
  all: try (by eapply on_current_calm).
  - apply yield_calm.
  - unfold Croi_SpawnKernelTask in E. destruct (_ || _); [done|]. injection E as <-. intros x [m Hx]. destruct (proj2 Hw x m Hx) as (_ & k & Hk & _).
    unfold single. cbn. rewrite lookup_insert_ne by congruence. done.
  - unfold Croi_AllocSignal in E. rewrite Hc in E. destruct (g_tasks s !! c) as [k|]; [|by injection E as _ <-].
    destruct (free_signal_bit _ _ _); injection E as _ <-; [by apply upd_calm|done].
  - unfold Croi_FreeSignal. destruct (_ || _); [done|]. by eapply on_current_calm.
  - intros x _. apply signal_single. by left.
  - unfold Croi_SetSignal in E. rewrite Hc in E. destruct (g_tasks s !! c) as [k|]; injection E as _ <-; [by apply upd_calm|done].
  - intros x [m Hx]. destruct Hs as (_ & c' & Hc' & Hk). pose proof (k_nodup _ _ _ _ _ Hk) as N. rewrite app_assoc, app_comm_cons in N. apply NoDup_app in N as (_ & N & _).
    unfold single. cbn. rewrite foldl_delete, decide_False; [done|]. apply N.
    destruct (proj2 Hw x m Hx) as (_ & _ & _ & [[Hin _]|[[Hin|Hin] _]]); rewrite elem_of_cons, elem_of_app; [tauto|tauto|left; congruence].
Qed.
Lemma exit_calm s w s' c : g_current s = Some c -> Croi_TaskExit s = Go s' -> calm w s s'.
Proof.
  intros Hc E t _. unfold Croi_TaskExit in E. rewrite Hc in E. cbn [g_runq set_dead upd set_tasks] in E. destruct (g_runq s) as [|n rest]; [done|]. injection E as <-.
  transitivity (single (upd c (fun k => set_state k TS_REMOVED) s) t); [by apply (alter_single _ _ (fun k => set_state k TS_RUN) n)|by apply (alter_single _ _ (fun k => set_state k TS_REMOVED) c)].
Qed.
(** [Croi_Wait] by [c] leaves the signals of every other task. *)
Lemma wait_single s c mask t s' : g_current s = Some c -> t <> c -> (exists hit, Croi_Wait mask s = WaitHit hit s') \/ Croi_Wait mask s = WaitBlock s' -> single s' t = single s t.
Proof.
  intros Hc Hne E. unfold Croi_Wait in E. rewrite Hc in E. destruct (mask =? 0); [destruct E as [[? E]|E]; [by injection E as _ <-|done]|].
  destruct (g_tasks s !! c) as [k|]; [|destruct E as [[? E]|E]; [by injection E as _ <-|done]]. destruct (negb _).
  - destruct E as [[? E]|E]; [|done]. injection E as _ <-. by eapply alter_single.
  - cbn [g_runq upd set_tasks] in E. destruct (g_runq s) as [|n rest]; [by destruct E as [[? E]|E]|]. destruct E as [[? E]|E]; [done|]. injection E as <-.
    transitivity (single (upd c (fun k => set_state (set_sigwait k mask) TS_WAIT) s) t); [by apply (alter_single _ _ (fun k => set_state k TS_RUN) n)|by eapply alter_single].
Qed.

(** * The invariant *)

(** Who has the semaphore: nobody, a task that returned from its [Obtain] or [Attempt], or the waiter it
    was handed to, which has yet to run. *)
Definition owner_ok (m : SignalSemaphore) (h : gmap Z Z) (i : gset Z) (q : list Z) : Prop :=
  match ss_Owner m with
  | None => ss_NestCount m = 0 /\ q = [] /\ i = ∅ /\ h = ∅
  | Some o => (o ∉ i /\ h = {[o := ss_NestCount m]} /\ 1 <= ss_NestCount m <= 32767 /\ i = list_to_set q) \/
              (o ∉ q /\ h = ∅ /\ ss_NestCount m = 1 /\ i = {[o]} ∪ list_to_set q)
  end.
Record sem_ok (x : ssys) : Prop := {
  so_sys : sys_ok (mkSys (x_sched x) (x_waiting x));
  so_in t : t ∈ x_in x -> x_waiting x !! t = Some SIGF_SINGLE;
  so_queue : exists q, ss_WaitQueue (x_sem x) = Some <$> q /\ NoDup q /\ ss_QueueCount (x_sem x) = Z.of_nat (length q) - 1 /\ Z.of_nat (length q) <= 32767 /\
    (forall t, t ∈ q -> single (x_sched x) t = 0) /\ owner_ok (x_sem x) (x_held x) (x_in x) q;
  so_handed o : ss_Owner (x_sem x) = Some o -> o ∈ x_in x -> single (x_sched x) o <> 0
}.

Lemma queue_in m h i q t : owner_ok m h i q -> t ∈ q -> t ∈ i.
Proof. unfold owner_ok. destruct (ss_Owner m); [intros [(_ & _ & _ & ->)|(_ & _ & _ & ->)]; set_solver|intros (_ & -> & _); set_solver]. Qed.
Lemma asleep s w t c : sched_ok s -> waits_ok s w -> w !! t = Some SIGF_SINGLE -> single s t = 0 -> g_current s = Some c -> t <> c.
Proof.
  intros (_ & c' & Hc' & Hk) [_ W2] Hw Hz Hc ->. replace c' with c in * by congruence. destruct (W2 c _ Hw) as (_ & k & Ek & Hcase). unfold single in Hz. rewrite Ek in Hz.
  destruct Hcase as [[Hin _]|[_ H]]; [|done]. pose proof (k_nodup _ _ _ _ _ Hk) as N. apply NoDup_cons in N as [N _]. apply N. rewrite !elem_of_app. tauto.
Qed.
Lemma i16_small x : -32768 <= x <= 32767 -> i16 x = x.
Proof. intros H. unfold i16. rewrite Z.mod_small; lia. Qed.

(** Steps that concern neither the semaphore nor the tasks inside it. *)
Lemma sem_frame s w m h i s' w' : sem_ok (mkSS s w m h i) -> sys_ok (mkSys s' w') -> (forall t, t ∈ i -> w' !! t = w !! t /\ single s' t = single s t) ->
  sem_ok (mkSS s' w' m h i).
Proof.
  intros [_ Hi (q & Hq & Hn & Hc & Hl & Hz & Ho) Hh] Hs Hf.
  split; [done|intros t Ht; cbn; rewrite (proj1 (Hf t Ht)); by apply Hi| |intros o Eo Hoi; cbn; rewrite (proj2 (Hf o Hoi)); by apply Hh].
  exists q. split_and!; try done. intros t Ht. cbn. rewrite (proj2 (Hf t (queue_in _ _ _ _ _ Ho Ht))). by apply Hz.
Qed.
Lemma not_in s w m h i c : sem_ok (mkSS s w m h i) -> w !! c = None -> c ∉ i.
Proof. intros [_ Hi _ _] Hn Hc. specialize (Hi c Hc). cbn in Hi. congruence. Qed.
(** The running task, when it is inside a contended [Obtain], is the one the semaphore was handed to. *)
Lemma running_inside s w m h i c : sem_ok (mkSS s w m h i) -> g_current s = Some c -> c ∈ i ->
  ss_Owner m = Some c /\ h = ∅ /\ ss_NestCount m = 1 /\ exists q, ss_WaitQueue m = Some <$> q /\ c ∉ q /\ i = {[c]} ∪ list_to_set q.
Proof.
  intros [[Hs Hw] Hi (q & Hq & _ & _ & _ & Hz & Ho) _] Hc Hin. cbn in *. assert (c ∉ q) as Hnq by (intros Hcq; by apply (asleep s w c c Hs Hw (Hi c Hin) (Hz c Hcq) Hc)).
  unfold owner_ok in Ho. destruct (ss_Owner m) as [o|]; [|destruct Ho as (_ & _ & -> & _); set_solver].
  destruct Ho as [(_ & _ & _ & Ei)|(Hoq & -> & -> & Ei)]; [rewrite Ei, elem_of_list_to_set in Hin; done|].
  rewrite Ei, elem_of_union, elem_of_singleton, elem_of_list_to_set in Hin. destruct Hin as [->|Hin]; [|done]. split_and!; try done. by exists q.
Qed.
(** A task that runs outside and owns the semaphore holds it as deep as the count says. *)
Lemma owner_holds s w m h i c : sem_ok (mkSS s w m h i) -> w !! c = None -> ss_Owner m = Some c -> h = {[c := ss_NestCount m]} /\ 1 <= ss_NestCount m <= 32767.
Proof.
  intros Hok Hn Eo. pose proof (not_in _ _ _ _ _ _ Hok Hn) as Hni. destruct Hok as [_ _ (q & _ & _ & _ & _ & _ & Ho) _]. cbn in *. unfold owner_ok in Ho. rewrite Eo in Ho.
  destruct Ho as [(_ & -> & H & _)|(_ & _ & _ & ->)]; [done|set_solver].
Qed.
Lemma set_single_wait s w c : sys_ok (mkSys s w) -> g_current s = Some c -> w !! c = None ->
  let s1 := snd (Croi_SetSignal 0 SIGF_SINGLE s) in
  sys_ok (mkSys s1 w) /\ g_current s1 = Some c /\ (forall t, t <> c -> single s1 t = single s t) /\ (forall hit s', Croi_Wait SIGF_SINGLE s1 <> WaitHit hit s') /\
  (forall s', Croi_Wait SIGF_SINGLE s1 = WaitBlock s' -> single s' c = 0).
Proof.
  intros Hy Hc Hn s1. pose proof Hy as [(_ & c' & Hc' & Hk) _]. cbn in Hc', Hk. replace c' with c in * by congruence. destruct (k_exists _ _ _ _ _ Hk c) as [k Ek]; [left|].
  assert (exists v, Z.land v SIGF_SINGLE = 0 /\ s1 = upd c (fun k => set_sigrecvd k (Z.lor (Z.land (tc_SigRecvd k) (not_mask SIGF_SINGLE)) (Z.land 0 SIGF_SINGLE))) s /\
    v = Z.lor (Z.land (tc_SigRecvd k) (not_mask SIGF_SINGLE)) (Z.land 0 SIGF_SINGLE)) as (v & Hv & E1 & Ev).
  { unfold s1, Croi_SetSignal. rewrite Hc, Ek. eexists. split; [|split; reflexivity]. rewrite Z.land_0_l, Z.lor_0_r, <- Z.land_assoc. change (Z.land (not_mask SIGF_SINGLE) SIGF_SINGLE) with 0. apply Z.land_0_r. }
  assert (g_tasks s1 !! c = Some (set_sigrecvd k v)) as Ek1 by (rewrite E1, Ev; cbn; by rewrite lookup_alter_eq, Ek).
  assert (g_current s1 = Some c) as Hc1 by (by rewrite E1). split_and!.
  - apply (sys_step_ok (mkSys s w)); [done|]. apply (y_plain s w s1 c); [done|done|]. apply (op_set_signal s 0 SIGF_SINGLE (fst (Croi_SetSignal 0 SIGF_SINGLE s))). unfold s1. apply surjective_pairing.
  - done.
  - intros t Hne. rewrite E1. by eapply alter_single.
  - intros hit s'. unfold Croi_Wait. rewrite Hc1, Ek1. cbn [tc_SigRecvd set_sigrecvd]. rewrite Hv. change (SIGF_SINGLE =? 0) with false. cbn iota. change (negb (0 =? 0)) with false. cbn iota.
    cbn [g_runq upd set_tasks]. by destruct (g_runq s1).
  - intros s'. unfold Croi_Wait. rewrite Hc1, Ek1. cbn [tc_SigRecvd set_sigrecvd]. rewrite Hv. change (SIGF_SINGLE =? 0) with false. cbn iota. change (negb (0 =? 0)) with false. cbn iota.
    cbn [g_runq upd set_tasks]. destruct (g_runq s1) as [|n rest]; [done|]. intros [= <-]. unfold single. cbn. rewrite lookup_alter. destruct (decide _) as [->|]; rewrite lookup_alter_eq, Ek1; simpl; apply Hv.
Qed.

(** ** Every step keeps it *)

Section Step.
Context (s : Sched) (w : gmap Z Z) (m : SignalSemaphore) (h : gmap Z Z) (i : gset Z) (c : Z).
Hypothesis (Hok : sem_ok (mkSS s w m h i)) (Hc : g_current s = Some c).

Lemma step_op s' : w !! c = None -> quiet_op s s' -> sem_ok (mkSS s' w m h i).
Proof.
  intros Hn Hop. pose proof (so_sys _ Hok) as Hy. apply (sem_frame s w m h i); [done|apply (sys_step_ok _ _ Hy); apply (y_plain _ _ _ c); [done|done|by apply quiet_plain]|].
  intros t Ht. split; [done|]. apply (quiet_calm s w s' c); try done; [apply Hy|apply Hy|]. pose proof (so_in _ Hok t Ht) as Hi. cbn in Hi. rewrite Hi. by eexists.
Qed.
Lemma step_exit s' : w !! c = None -> Croi_TaskExit s = Go s' -> sem_ok (mkSS s' w m h i).
Proof.
  intros Hn E. apply (sem_frame s w m h i); [done|apply (sys_step_ok _ _ (so_sys _ Hok)); by apply (y_exit _ _ _ c)|].
  intros t Ht. split; [done|]. apply (exit_calm s w s' c); try done. pose proof (so_in _ Hok t Ht) as Hi. cbn in Hi. rewrite Hi. by eexists.
Qed.
Lemma step_wait_hit mask hit s' : w !! c = None -> in_u32 mask -> Croi_Wait mask s = WaitHit hit s' -> sem_ok (mkSS s' w m h i).
Proof.
  intros Hn Hm E. pose proof (not_in _ _ _ _ _ _ Hok Hn). apply (sem_frame s w m h i); [done|apply (sys_step_ok _ _ (so_sys _ Hok)); by apply (y_wait_hit _ _ c mask hit)|].
  intros t Ht. split; [done|]. apply (wait_single s c mask t s'); [done|congruence|eauto].
Qed.
Lemma step_wait_block mask s' : w !! c = None -> in_u32 mask -> Croi_Wait mask s = WaitBlock s' -> sem_ok (mkSS s' (<[c := mask]> w) m h i).
Proof.
  intros Hn Hm E. pose proof (not_in _ _ _ _ _ _ Hok Hn). apply (sem_frame s w m h i); [done|apply (sys_step_ok _ _ (so_sys _ Hok)); by apply y_wait_block|].
  intros t Ht. split; [apply lookup_insert_ne; congruence|]. apply (wait_single s c mask t s'); [done|congruence|eauto].
Qed.
Lemma step_resume mask hit s' : w !! c = Some mask -> c ∉ i -> Croi_Wait mask s = WaitHit hit s' -> sem_ok (mkSS s' (delete c w) m h i).
Proof.
  intros Hn Hm E. apply (sem_frame s w m h i); [done|apply (sys_step_ok _ _ (so_sys _ Hok)); by apply (y_resume_hit _ _ c mask hit)|].
  intros t Ht. split; [apply lookup_delete_ne; congruence|]. apply (wait_single s c mask t s'); [done|congruence|eauto].
Qed.
(** Taking a free or own semaphore. *)
Lemma step_take nest' : w !! c = None -> depth h c < 32767 ->
  (ss_Owner m = None /\ nest' = 1) \/ (ss_Owner m = Some c /\ nest' = i16 (ss_NestCount m + 1)) ->
  sem_ok (mkSS s w (mkSem (ss_Link m) nest' (ss_QueueCount m) (Some c) (ss_WaitQueue m)) (<[c := depth h c + 1]> h) i).
Proof.
  intros Hn Hd H. pose proof (not_in _ _ _ _ _ _ Hok Hn) as Hni. destruct H as [[Eo ->]|[Eo ->]].
  - destruct Hok as [H1 H2 (q & Hq & Hnd & Hqc & Hl & Hz & Ho) _]. split; [done|done| |by intros o [= <-]]. exists q. split_and!; try done. cbn in Ho |- *. unfold owner_ok in Ho. rewrite Eo in Ho.
    destruct Ho as (_ & -> & -> & ->). left. cbn. split_and!; [set_solver|by unfold depth|lia|lia|done].
  - destruct (owner_holds _ _ _ _ _ _ Hok Hn Eo) as [Eh Hr]. destruct Hok as [H1 H2 (q & Hq & Hnd & Hqc & Hl & Hz & Ho) _]. split; [done|done| |by intros o [= <-]]. exists q. split_and!; try done.
    cbn in Ho |- *. unfold owner_ok in Ho. rewrite Eo in Ho. rewrite Eh in *. unfold depth in *. rewrite lookup_singleton_eq in *. cbn [default] in *.
    destruct Ho as [(_ & _ & _ & Ei)|(_ & Eh2 & _)]; [|by apply map_non_empty_singleton in Eh2]. left. cbn.
    simpl in Hd. rewrite i16_small by lia. split_and!; [done| |lia|lia|done]. by rewrite insert_singleton_eq.
Qed.
Lemma step_obtain m' s' : w !! c = None -> depth h c < 32767 -> Croi_ObtainSemaphore_Impl (Some m) s = Obtained (Some m') s' -> sem_ok (mkSS s' w m' (<[c := depth h c + 1]> h) i).
Proof.
  intros Hn Hd E. unfold Croi_ObtainSemaphore_Impl, Sched_Current in E. rewrite Hc in E. destruct (ss_Owner m) as [o|] eqn:Eo.
  - destruct (bool_decide_reflect (Some o = Some c)) as [Ec|Ec]; [injection Ec as ->; injection E as <- <-; apply step_take; auto|].
    destruct (set_single_wait s w c (so_sys _ Hok) Hc Hn) as (_ & _ & _ & Hno & _). destruct (Croi_Wait SIGF_SINGLE _) as [hit s1|s1|s1] eqn:Ew; [by destruct (Hno hit s1)|done|done].
  - injection E as <- <-. apply step_take; auto.
Qed.
Lemma step_attempt b m' : w !! c = None -> depth h c < 32767 -> Croi_AttemptSemaphore_Impl (Some m) s = (b, Some m') -> sem_ok (mkSS s w m' (if b then <[c := depth h c + 1]> h else h) i).
Proof.
  intros Hn Hd E. unfold Croi_AttemptSemaphore_Impl, Sched_Current in E. rewrite Hc in E. destruct (ss_Owner m) as [o|] eqn:Eo; [|injection E as <- <-; apply step_take; auto].
  destruct (bool_decide_reflect (Some o = Some c)) as [Ec|Ec]; injection E as <- <-; [injection Ec as ->; apply step_take; auto|done].
Qed.
Lemma step_queue m' s' : w !! c = None -> Z.of_nat (length (ss_WaitQueue m)) < 32767 -> Croi_ObtainSemaphore_Impl (Some m) s = Queued (Some m') s' ->
  sem_ok (mkSS s' (<[c := SIGF_SINGLE]> w) m' h ({[c]} ∪ i)).
Proof.
  intros Hn Hl E. pose proof (not_in _ _ _ _ _ _ Hok Hn) as Hni. unfold Croi_ObtainSemaphore_Impl, Sched_Current in E. rewrite Hc in E. destruct (ss_Owner m) as [o|] eqn:Eo; [|done].
  destruct (bool_decide_reflect (Some o = Some c)) as [Ec|Ec]; [done|]. destruct (set_single_wait s w c (so_sys _ Hok) Hc Hn) as (Hy1 & Hc1 & Hs1 & _ & Hb).
  set (s1 := snd _) in *. destruct (Croi_Wait SIGF_SINGLE s1) as [hit s2|s2|s2] eqn:Ew; [done| |done]. injection E as <- <-.
  destruct Hok as [_ Hi (q & Hq & Hnd & Hqc & Hlq & Hz & Ho) Hh]. cbn in *. pose proof (fun t => queue_in _ _ _ _ t Ho) as Hqi. rewrite Hq, length_fmap in Hl. split; cbn.
  - apply (sys_step_ok (mkSys s1 w)); [done|]. apply y_wait_block; [done|done|done|done].
  - intros t [->%elem_of_singleton|Ht]%elem_of_union; [apply lookup_insert_eq|]. rewrite lookup_insert_ne by congruence. by apply Hi.
  - exists (q ++ [c]). split_and!.
    + by rewrite Hq, fmap_app.
    + apply NoDup_app. split_and!; [done| |apply NoDup_singleton]. intros t Ht ->%list_elem_of_singleton. by apply Hni, Hqi.
    + rewrite Hqc, length_app, i16_small by lia. simpl. lia.
    + rewrite length_app. simpl. lia.
    + intros t [Ht| ->%list_elem_of_singleton]%elem_of_app; [|by apply Hb]. assert (t <> c) as Htc by (intros ->; by apply Hni, Hqi).
      rewrite (wait_single s1 c SIGF_SINGLE t s2 Hc1 Htc (or_intror Ew)), Hs1 by done. by apply Hz.
    + unfold owner_ok in *. rewrite Eo in Ho. cbn. destruct Ho as [(H1 & H2 & H3 & H4)|(H1 & H2 & H3 & H4)]; [left|right]; split_and!; try done; try lia.
      * set_solver.
      * rewrite list_to_set_app_L, H4. set_solver.
      * intros [?| ->%list_elem_of_singleton]%elem_of_app; [done|congruence].
      * rewrite list_to_set_app_L, H4. set_solver.
  - intros o' [= <-] Hoi. rewrite (wait_single s1 c SIGF_SINGLE o s2), Hs1; [|congruence|done|congruence|auto]. apply Hh; [done|]. set_solver.
Qed.
Lemma step_obtained mask hit s' : w !! c = Some mask -> c ∈ i -> Croi_Wait mask s = WaitHit hit s' -> sem_ok (mkSS s' (delete c w) m (<[c := depth h c + 1]> h) (i ∖ {[c]})).
Proof.
  intros Hn Hin E. destruct (running_inside _ _ _ _ _ _ Hok Hc Hin) as (Eo & -> & Enest & q' & Eq' & Hcq & Ei).
  assert (sys_ok (mkSys s' (delete c w))) as Hy by (apply (sys_step_ok _ _ (so_sys _ Hok)); by apply (y_resume_hit _ _ c mask hit)).
  destruct Hok as [_ Hi (q & Hq & Hnd & Hqc & Hlq & Hz & Ho) _]. cbn in *. assert (q = q') as -> by (apply (inj (fmap Some)); congruence). split; cbn; [done| | |intros o Eo' Hoi; rewrite Eo in Eo'; injection Eo' as <-; set_solver].
  - intros t [Ht Hne]%elem_of_difference. rewrite lookup_delete_ne by set_solver. by apply Hi.
  - exists q'. split_and!; try done.
    + intros t Ht. rewrite (wait_single s c mask t s'); [by apply Hz|done|congruence|eauto].
    + unfold owner_ok. rewrite Eo, Enest. left. split_and!; [set_solver|by unfold depth|lia|lia|]. rewrite Ei. apply set_eq. intros x. rewrite elem_of_difference, elem_of_union, elem_of_list_to_set, elem_of_singleton.
      split; [tauto|]. intros Hx. split; [tauto|]. by intros ->.
Qed.
Lemma step_release d m' s' : w !! c = None -> h !! c = Some d -> Croi_ReleaseSemaphore_Impl (Some m) s = (Some m', s') ->
  sem_ok (mkSS s' w m' (if d =? 1 then delete c h else <[c := d - 1]> h) i).
Proof.
  intros Hn Hd E. destruct Hok as [Hy Hi (q & Hq & Hnd & Hqc & Hlq & Hz & Ho) _]. cbn in *. unfold owner_ok in Ho. destruct (ss_Owner m) as [o|] eqn:Eo; [|destruct Ho as (_ & _ & _ & ->); by rewrite lookup_empty in Hd].
  destruct Ho as [(H1 & -> & H3 & Ei)|(_ & -> & _)]; [|by rewrite lookup_empty in Hd]. apply lookup_singleton_Some in Hd as [<- <-]. unfold Croi_ReleaseSemaphore_Impl in E.
  rewrite (proj2 (Z.ltb_lt _ _)), i16_small in E by lia. destruct (Z.eqb_spec (ss_NestCount m) 1) as [E1|E1].
  - rewrite E1 in *. change (1 - 1) with 0 in *. cbn [Z.eqb negb] in E. rewrite delete_singleton_eq. rewrite Hq in E. destruct q as [|t q]; [injection E as <- <-|rewrite fmap_cons in E; apply pair_eq in E as [Em <-]; injection Em as <-].
    + split; [done|done| |done]. cbn. exists []. split_and!; try done.
    + assert (t ∈ i) as Hti by (rewrite Ei; set_solver). apply NoDup_cons in Hnd as [Htq Hnd]. destruct (proj2 (proj2 Hy) t _ (Hi t Hti)) as (_ & k & Ek & _). split; cbn [x_sched x_waiting x_sem x_held x_in].
      * apply (sys_step_ok _ _ Hy). apply (y_plain _ _ _ o); [done|done|]. apply op_signal; [by eexists|done].
      * done.
      * exists q. cbn [length] in Hqc, Hlq. cbn [ss_WaitQueue ss_QueueCount]. split_and!; [done|done|rewrite Hqc, i16_small by lia; lia|lia| |].
        -- intros x Hx. rewrite signal_single; [apply Hz; set_solver|]. right. by intros ->.
        -- unfold owner_ok. cbn. right. split_and!; try done.
      * cbn [ss_Owner]. intros o' [= <-] _. apply (signalled s t). by eexists.
  - rewrite (proj2 (Z.eqb_neq _ 0)) in E by lia. cbn [negb] in E. injection E as <- <-. split; [done|done| |cbn; intros o' [= <-]; done]. cbn. exists q. split_and!; try done. unfold owner_ok. cbn. left.
    split_and!; [done|by rewrite insert_singleton_eq|lia|lia|done].
Qed.
End Step.

Lemma sem_step_ok x x' : sem_ok x -> sem_step x x' -> sem_ok x'.
Proof.
  intros Hok Hst. destruct Hst; [by eapply step_op|by eapply step_exit|by eapply step_wait_hit|by eapply step_wait_block|by eapply step_resume|by eapply step_obtain|by eapply step_queue|
    by eapply step_obtained|by eapply step_attempt|by eapply step_release].
Qed.
Lemma sem_reachable_ok x : sem_reachable x -> sem_ok x.
Proof.
  intros (y & raw & m & Hy & [= <-] & Hr). match type of Hr with rtc _ ?a _ => assert (sem_ok a) as H0 end.
  { split; [destruct y; by apply reachable_ok|set_solver| |done]. exists []. split_and!; try done; [constructor|intros t Ht; by apply elem_of_nil in Ht]. }
  clear Hy. revert H0. induction Hr as [|x1 x2 x3 H1 _ IH]; [done|]. intros H0. apply IH. by eapply sem_step_ok.
Qed.

Lemma awake s w t : sched_ok s -> waits_ok s w -> w !! t = Some SIGF_SINGLE -> single s t <> 0 -> t ∈ g_runq s \/ g_current s = Some t.
Proof.
  intros (_ & c & Hc & Hk) [_ W2] Hw Hz. destruct (W2 t _ Hw) as (_ & k & Ek & [[Hin Hm]|[H _]]); [|done]. unfold single in Hz. rewrite Ek in Hz.
  pose proof (k_nodup _ _ _ _ _ Hk) as N. rewrite app_assoc, app_comm_cons in N. assert (t ∉ c :: g_runq s /\ t ∉ g_dead s) as [N1 N2].
  { rewrite <- app_comm_cons, <- app_assoc in N. rewrite app_comm_cons in N. apply NoDup_app in N as (_ & Nd & N). apply NoDup_app in N as (_ & N & _). split; [intros H; apply (Nd t H); set_solver|by apply N]. }
  destruct (k_placed _ _ _ _ _ Hk t k Ek) as [[-> _]|[[H _]|[(_ & _ & H & _)|[H _]]]]; [set_solver|set_solver|congruence|done].
Qed.


Module SemExample.
Import SchedExample.
(** kmain (task 1) obtains the semaphore and yields; task 2 obtains it in vain and sleeps; task 1 releases it: task 2 owns it and is ready. *)
Definition raw : SignalSemaphore := mkSem (0, 0, None) 0 0 None [].
Definition m0 : SignalSemaphore := mkSem (NT_SIGNALSEM, 0, None) 0 (-1) None [].
Definition m1 : SignalSemaphore := mkSem (NT_SIGNALSEM, 0, None) 1 (-1) (Some 1) [].
Definition m2 : SignalSemaphore := mkSem (NT_SIGNALSEM, 0, None) 1 0 (Some 1) [Some 2].
Definition m3 : SignalSemaphore := mkSem (NT_SIGNALSEM, 0, None) 1 (-1) (Some 2) [].
Definition t3 : Sched := Croi_Yield s2.
Definition t4 : Sched := match Croi_ObtainSemaphore_Impl (Some m1) t3 with Queued _ s => s | Obtained _ s | Stuck _ s => s end.
Definition t5 : Sched := snd (Croi_ReleaseSemaphore_Impl (Some m2) t4).
Definition x5 : ssys := mkSS t5 {[ 2 := SIGF_SINGLE ]} m3 ∅ {[ 2 ]}.
Lemma x5_reachable : sem_reachable x5.
Proof.
  exists (mkSys s2 ∅), raw, m0. split; [exists 1; apply rtc_once; exact s2_step|]. split; [reflexivity|].
  apply (rtc_l _ _ (mkSS s2 ∅ m1 {[ 1 := 1 ]} ∅)); [exact (x_obtain s2 ∅ m0 ∅ ∅ 1 m1 s2 eq_refl eq_refl eq_refl eq_refl)|].
  apply (rtc_l _ _ (mkSS t3 ∅ m1 {[ 1 := 1 ]} ∅)); [apply (x_op s2 ∅ m1 {[ 1 := 1 ]} ∅ 1); [reflexivity|reflexivity|apply q_yield]|].
  apply (rtc_l _ _ (mkSS t4 {[ 2 := SIGF_SINGLE ]} m2 {[ 1 := 1 ]} {[ 2 ]})).
  { assert ({[2]} = ({[2]} ∪ ∅ : gset Z)) as -> by set_solver. apply (x_queue t3 ∅ m1 {[ 1 := 1 ]} ∅ 2 m2 t4); [vm_compute; reflexivity|reflexivity|reflexivity|vm_compute; reflexivity]. }
  apply rtc_once. unfold x5. replace (∅ : gmap Z Z) with (if 1 =? 1 then delete 1 {[ 1 := 1 ]} else <[1 := 1 - 1]> {[ 1 := 1 ]} : gmap Z Z) by reflexivity.
  apply (x_release t4 {[ 2 := SIGF_SINGLE ]} m2 {[ 1 := 1 ]} {[ 2 ]} 1 1 m3 t5); [vm_compute; reflexivity|reflexivity|reflexivity|vm_compute; reflexivity].
Qed.

(** A signal with the reserved bit from any task wakes a waiter that the semaphore was not handed to: it
    returns from [ObtainSemaphore] while task 1 holds the semaphore. *)
Example stray_single_breaks_mutex :
  let s := Croi_Yield (Croi_Signal (Some 2) SIGF_SINGLE t4) in
  g_current s = Some 2 /\ (exists s', Croi_Wait SIGF_SINGLE s = WaitHit SIGF_SINGLE s') /\ ss_Owner m2 = Some 1.
Proof. cbn zeta. split; [vm_compute; reflexivity|]. split; [eexists; vm_compute; reflexivity|reflexivity]. Qed.
(** The nesting count is a signed word: the 32768th nested obtain makes it negative, and then
    releasing the semaphore changes nothing. *)
Example sem_nesting_overflows :
  exists m s, Croi_ObtainSemaphore_Impl (Some (mkSem (NT_SIGNALSEM, 0, None) 32767 (-1) (Some 1) [])) s2 = Obtained (Some m) s /\
    ss_NestCount m = -32768 /\ Croi_ReleaseSemaphore_Impl (Some m) s = (Some m, s).
Proof. eexists _, _. split; [vm_compute; reflexivity|]. split; vm_compute; reflexivity. Qed.
End SemExample.
