(* ===== verification/HandleTable.v ===== *)
(** Kernel objects and per-task handle tables ([include/cara/kobj.h], [src/croi/kobj/kobj.c],
    [src/croi/kobj/handle_table.c]). A handle is a slot index and the slot's generation; the
    theorems show that a table is a finite map from handles to objects, that the objects' reference
    counts follow it, and for how long a closed handle stays invalid. *)

From S2P Require Import Prelude.

(** * Kernel objects *)

Definition KOBJ_NONE : Z := 0.
Definition HANDLE_INVALID : Z := 0xFFFFFFFF.

Record Kobj := mkKobj { ko_type : Z; ko_refcount : Z; ko_id : Z; ko_destroy : bool }.
(** The objects by address, the next id to give out, and the destroy callbacks made so far. *)
Record Kstate := mkKstate { g_kobjs : gmap Z Kobj; g_next_kobj_id : Z; g_destroyed : list Z }.

Definition Kobj_Init (p type : Z) (destroy : bool) (s : Kstate) : Kstate :=
  if p =? 0 then s
  else mkKstate (<[p := mkKobj type 1 (g_next_kobj_id s) destroy]> (g_kobjs s)) (u64 (g_next_kobj_id s + 1)) (g_destroyed s).
Definition set_refcount (v : Z) (k : Kobj) : Kobj := mkKobj (ko_type k) v (ko_id k) (ko_destroy k).
Definition Kobj_Retain (p : Z) (s : Kstate) : Kstate :=
  if p =? 0 then s
  else mkKstate (alter (fun k => set_refcount (u32 (ko_refcount k + 1)) k) p (g_kobjs s)) (g_next_kobj_id s) (g_destroyed s).
Definition Kobj_Release (p : Z) (s : Kstate) : Kstate :=
  if p =? 0 then s
  else match g_kobjs s !! p with
  | None => s
  | Some k =>
      mkKstate (<[p := set_refcount (u32 (ko_refcount k - 1)) k]> (g_kobjs s)) (g_next_kobj_id s)
        (if (ko_refcount k =? 1) && ko_destroy k then g_destroyed s ++ [p] else g_destroyed s)
  end.

(** * Handle tables *)

(** A null target is 0. *)
Record HandleSlot := mkSlot { sl_target : Z; sl_generation : Z; sl_next_free : Z }.
#[export] Instance HandleSlot_inhabited : Inhabited HandleSlot := populate (mkSlot 0 0 0).
Record HandleTable := mkHT { ht_slots : list HandleSlot; ht_cap : Z; ht_free_head : Z }.

(** The state the operations work on. *)
Definition hstate : Type := HandleTable * Kstate.
Definition slot (t : HandleTable) (i : Z) : HandleSlot := ht_slots t !!! Z.to_nat i.
Definition put_slot (t : HandleTable) (i : Z) (s : HandleSlot) (free_head : Z) : HandleTable :=
  mkHT (<[Z.to_nat i := s]> (ht_slots t)) (ht_cap t) free_head.

Definition SLOT_INDEX_MASK : Z := 0xFFFF.
Definition GEN_SHIFT : Z := 16.
Definition handle_index (h : Z) : Z := Z.land h SLOT_INDEX_MASK.
Definition handle_gen (h : Z) : Z := Z.shiftr h GEN_SHIFT.

(** [room] says whether the heap has room for the slots. *)
Definition HandleTable_Init (cap : Z) (room : bool) : result HandleTable :=
  if (cap =? 0) || (0xFFFF <? cap) then Err CARA_EINVAL
  else if negb room then Err CARA_ENOMEM
  else Ok (mkHT (map (fun i => mkSlot 0 0 (if i + 1 <? cap then i + 1 else HANDLE_INVALID)) (seqZ 0 cap)) cap 0).

Definition HandleTable_Open (target : Z) : ST hstate Z := fun '(t, ks) =>
  if target =? 0 then (Err CARA_EINVAL, (t, ks))
  else if ht_free_head t =? HANDLE_INVALID then (Err CARA_ENOMEM, (t, ks))
  else
    let idx := ht_free_head t in
    let s := slot t idx in
    (Ok (Z.lor (u32 (Z.shiftl (sl_generation s) GEN_SHIFT)) (Z.land idx SLOT_INDEX_MASK)),
     (put_slot t idx (mkSlot target (sl_generation s) (sl_next_free s)) (sl_next_free s), Kobj_Retain target ks)).

Definition HandleTable_Lookup (st : hstate) (h expected : Z) : result Z :=
  let '(t, ks) := st in
  let idx := handle_index h in
  let gen := handle_gen h in
  if ht_cap t <=? idx then Err CARA_EBADF
  else let s := slot t idx in
    if sl_target s =? 0 then Err CARA_EBADF
    else if negb (gen =? sl_generation s) then Err CARA_EBADF
    else if negb (expected =? KOBJ_NONE) &&
            negb (match g_kobjs ks !! sl_target s with Some k => ko_type k =? expected | None => false end) then Err CARA_EBADF
    else Ok (sl_target s).

Definition HandleTable_Close (h : Z) : ST hstate unit := fun '(t, ks) =>
  let idx := handle_index h in
  let gen := handle_gen h in
  if ht_cap t <=? idx then (Err CARA_EBADF, (t, ks))
  else let s := slot t idx in
    if (sl_target s =? 0) || negb (gen =? sl_generation s) then (Err CARA_EBADF, (t, ks))
    else (Ok tt, (put_slot t idx (mkSlot 0 (u16 (sl_generation s + 1)) (ht_free_head t)) idx, Kobj_Release (sl_target s) ks)).

(** The references still held are released in slot order. *)
Definition HandleTable_Destroy (st : hstate) : hstate :=
  let '(t, ks) := st in
  (mkHT [] 0 HANDLE_INVALID,
   foldl (fun ks s => if sl_target s =? 0 then ks else Kobj_Release (sl_target s) ks) ks (ht_slots t)).

(** * Invariant *)

(** The free list: the slots [fl], in order, from [i]. *)
Fixpoint free_chain (t : HandleTable) (i : Z) (fl : list Z) : Prop :=
  match fl with
  | [] => i = HANDLE_INVALID
  | x :: fl => i = x /\ 0 <= x < ht_cap t /\ free_chain t (sl_next_free (slot t x)) fl
  end.
Record ht_ok (t : HandleTable) (fl : list Z) : Prop := {
  hk_cap : 0 < ht_cap t <= 0xFFFF;
  hk_len : Z.of_nat (length (ht_slots t)) = ht_cap t;
  hk_chain : free_chain t (ht_free_head t) fl;
  hk_nodup : NoDup fl;
  hk_free : forall i, 0 <= i < ht_cap t -> (i ∈ fl <-> sl_target (slot t i) = 0);
  hk_gen : forall i, 0 <= i < ht_cap t -> in_u16 (sl_generation (slot t i))
}.
(** What the table maps a handle to. *)
Definition handle_target (t : HandleTable) (h : Z) : option Z :=
  if ht_cap t <=? handle_index h then None
  else let s := slot t (handle_index h) in
    if (sl_target s =? 0) || negb (handle_gen h =? sl_generation s) then None else Some (sl_target s).
(** How many slots refer to [p]. *)
Definition refs_to (t : HandleTable) (p : Z) : Z := Z.of_nat (length (filter (fun s => sl_target s = p) (ht_slots t))).

Lemma encode_handle gen idx : in_u16 gen -> 0 <= idx < 2 ^ 16 ->
  let h := Z.lor (u32 (Z.shiftl gen GEN_SHIFT)) (Z.land idx SLOT_INDEX_MASK) in
  h = gen * 2 ^ 16 + idx /\ handle_index h = idx /\ handle_gen h = gen.
Proof.
  unfold in_u16, handle_index, handle_gen, GEN_SHIFT, SLOT_INDEX_MASK. intros Hg Hi. change 0xFFFF with (Z.ones 16). cbn zeta.
  rewrite (Z.land_ones idx), (Z.mod_small idx) by lia. rewrite Z.shiftl_mul_pow2 by lia. rewrite u32_small by (unfold in_u32; lia).
  assert (Z.lor (gen * 2 ^ 16) idx = gen * 2 ^ 16 + idx) as ->.
  { rewrite <- Z.add_lor_land. assert (Z.land (gen * 2 ^ 16) idx = 0) as ->; [|lia]. apply Z.bits_inj'. intros n Hn. rewrite Z.land_spec, Z.bits_0.
    destruct (Z.lt_ge_cases n 16); [rewrite Z.mul_pow2_bits_low by lia; done|]. rewrite (bits_above 16 idx n) by lia. by rewrite andb_false_r. }
  rewrite Z.land_ones, Z.shiftr_div_pow2 by lia. split; [done|]. split; [rewrite Z.add_comm, Z_mod_plus_full; apply Z.mod_small; lia|].
  rewrite Z.div_add_l by lia. rewrite Z.div_small by lia. lia.
Qed.
Lemma decode_handle h : in_u32 h -> 0 <= handle_index h < 2 ^ 16 /\ 0 <= handle_gen h < 2 ^ 16 /\ h = handle_gen h * 2 ^ 16 + handle_index h.
Proof.
  unfold in_u32, handle_index, handle_gen, SLOT_INDEX_MASK, GEN_SHIFT. intros Hh. change 0xFFFF with (Z.ones 16). rewrite Z.land_ones, Z.shiftr_div_pow2 by lia. dmlia.
Qed.

Lemma slot_put_same t i s fh : 0 <= i < Z.of_nat (length (ht_slots t)) -> slot (put_slot t i s fh) i = s.
Proof. intros Hi. unfold slot, put_slot. cbn. apply list_lookup_total_insert_eq. lia. Qed.
Lemma slot_put_other t i j s fh : 0 <= i -> 0 <= j -> i <> j -> slot (put_slot t i s fh) j = slot t j.
Proof. intros Hi Hj Hn. unfold slot, put_slot. cbn. apply list_lookup_total_insert_ne. lia. Qed.
Lemma free_chain_put t x s fh fl i : x ∉ fl -> 0 <= x -> free_chain t i fl -> free_chain (put_slot t x s fh) i fl.
Proof.
  revert i. induction fl as [|y fl IH]; intros i Hx Hx0; [done|]. apply not_elem_of_cons in Hx as [Hne Hx]. intros (-> & Hy & Hc). split; [done|]. split; [exact Hy|].
  rewrite slot_put_other by lia. by apply IH.
Qed.

(** Replacing the contents of one slot changes what its handles map to, and nothing else. *)
Lemma handle_target_other t i s fh h : 0 <= i -> 0 <= handle_index h -> handle_index h <> i -> handle_target (put_slot t i s fh) h = handle_target t h.
Proof. intros Hi Hh Hn. unfold handle_target. rewrite slot_put_other by congruence. done. Qed.
Lemma handle_target_at t i s fh h : 0 <= i < ht_cap t -> Z.of_nat (length (ht_slots t)) = ht_cap t -> handle_index h = i ->
  handle_target (put_slot t i s fh) h = if (sl_target s =? 0) || negb (handle_gen h =? sl_generation s) then None else Some (sl_target s).
Proof.
  intros Hi Hl <-. unfold handle_target. rewrite slot_put_same by lia. cbn [ht_cap put_slot]. by rewrite (proj2 (Z.leb_gt _ _)) by lia.
Qed.
Lemma count_insert p (l : list HandleSlot) n s x : l !! n = Some x ->
  (length (filter (fun s => sl_target s = p) (<[n := s]> l)) + (if decide (sl_target x = p) then 1 else 0) =
   length (filter (fun s => sl_target s = p) l) + (if decide (sl_target s = p) then 1 else 0))%nat.
Proof.
  revert n. induction l as [|y l IH]; intros [|n] Hn; try done; cbn in Hn.
  - injection Hn as ->. change (<[0%nat := s]> (x :: l)) with (s :: l). rewrite !filter_cons. destruct (decide _), (decide _); cbn; lia.
  - specialize (IH n Hn). change (<[S n := s]> (y :: l)) with (y :: <[n := s]> l). rewrite !filter_cons. destruct (decide (sl_target y = p)); cbn; lia.
Qed.
Lemma refs_put t i s fh p : 0 <= i < Z.of_nat (length (ht_slots t)) ->
  refs_to (put_slot t i s fh) p = refs_to t p - (if decide (sl_target (slot t i) = p) then 1 else 0) + (if decide (sl_target s = p) then 1 else 0).
Proof.
  intros Hi. unfold refs_to, slot, put_slot. cbn [ht_slots].
  pose proof (count_insert p (ht_slots t) (Z.to_nat i) s (ht_slots t !!! Z.to_nat i)) as Hc.
  rewrite list_lookup_lookup_total_lt in Hc by lia. specialize (Hc eq_refl). destruct (decide _), (decide _); lia.
Qed.

(** [ext p] references to [p] are held outside the table. *)
Definition counted (ext : Z -> Z) (st : hstate) : Prop :=
  forall p k, p <> 0 -> g_kobjs (snd st) !! p = Some k -> ko_refcount k = u32 (ext p + refs_to (fst st) p).

Lemma retain_lookup p s q k : p <> 0 -> g_kobjs (Kobj_Retain p s) !! q = Some k ->
  exists k0, g_kobjs s !! q = Some k0 /\ ko_refcount k = u32 (ko_refcount k0 + (if decide (p = q) then 1 else 0)) \/ (p <> q /\ g_kobjs s !! q = Some k).
Proof.
  intros Hp. unfold Kobj_Retain. rewrite (proj2 (Z.eqb_neq p 0)) by done. cbn. destruct (decide (p = q)) as [->|Hne].
  - rewrite lookup_alter_eq. destruct (g_kobjs s !! q) as [k0|]; [|done]. intros [= <-]. exists k0. by left.
  - rewrite lookup_alter_ne by done. intros E. exists k. by right.
Qed.
Lemma release_lookup p s q k : p <> 0 -> g_kobjs (Kobj_Release p s) !! q = Some k ->
  exists k0, g_kobjs s !! q = Some k0 /\ (p = q /\ ko_refcount k = u32 (ko_refcount k0 - 1) \/ p <> q /\ k = k0).
Proof.
  intros Hp. unfold Kobj_Release. rewrite (proj2 (Z.eqb_neq p 0)) by done. destruct (g_kobjs s !! p) as [k0|] eqn:Ep.
  - cbn. destruct (decide (p = q)) as [->|Hne]; [rewrite lookup_insert_eq; intros [= <-]; eauto|]. rewrite lookup_insert_ne by done. eauto.
  - intros E. exists k. split; [done|]. right. split; [|done]. intros ->. congruence.
Qed.
Lemma u32_plus a b : u32 (u32 a + b) = u32 (a + b).
Proof. unfold u32. by rewrite Zplus_mod_idemp_l. Qed.
Lemma u32_minus a b : u32 (u32 a - b) = u32 (a - b).
Proof. unfold u32. by rewrite Zminus_mod_idemp_l. Qed.

(** * Operations *)

Lemma ht_init_ok cap t : HandleTable_Init cap true = Ok t -> 0 <= cap -> ht_ok t (seqZ 0 cap) /\ ht_cap t = cap /\ forall h, handle_target t h = None.
Proof.
  intros E Hc. unfold HandleTable_Init in E. destruct (_ || _) eqn:Ec; [done|]. zbool. cbn [negb] in E. injection E as <-.
  set (f := fun i : Z => mkSlot 0 0 (if i + 1 <? cap then i + 1 else HANDLE_INVALID)).
  assert (forall i, 0 <= i < cap -> slot (mkHT (map f (seqZ 0 cap)) cap 0) i = f i) as Hs.
  { intros i Hi. unfold slot. cbn. apply list_lookup_total_correct. change (map f) with (fmap f : list Z -> list HandleSlot). rewrite list_lookup_fmap, lookup_seqZ_lt by lia. cbn. f_equal. f_equal. lia. }
  split_and!; [|done|].
  - split; cbn; try lia.
    + rewrite length_map, length_seqZ. lia.
    + assert (forall n i, 0 <= i -> i + Z.of_nat n = cap -> free_chain (mkHT (map f (seqZ 0 cap)) cap 0) (if i <? cap then i else HANDLE_INVALID) (seqZ i (Z.of_nat n))) as Hch.
      { induction n as [|n IH]; intros i Hi En; [rewrite (proj2 (Z.ltb_ge _ _)) by lia; done|]. rewrite (seqZ_cons i) by lia. rewrite (proj2 (Z.ltb_lt i cap)) by lia.
        cbn [free_chain]. split; [done|]. split; [cbn; lia|]. rewrite Hs by lia. cbn. replace (Z.pred (Z.of_nat (S n))) with (Z.of_nat n) by lia. apply (IH (Z.succ i)); lia. }
      specialize (Hch (Z.to_nat cap) 0 ltac:(lia) ltac:(lia)). rewrite (proj2 (Z.ltb_lt 0 cap)), Z2Nat.id in Hch by lia. done.
    + apply NoDup_seqZ.
    + intros i Hi. rewrite Hs by done. cbn. rewrite elem_of_seqZ. split; [done|lia].
    + intros i Hi. rewrite Hs by done. cbn. unfold in_u16. lia.
  - intros h. unfold handle_target. cbn [ht_cap]. destruct (Z.leb_spec cap (handle_index h)); [done|]. rewrite Hs; [done|]. split; [|done].
    unfold handle_index, SLOT_INDEX_MASK. apply Z.land_nonneg. right. lia.
Qed.

Lemma open_spec t ks fl target ext : ht_ok t fl -> target <> 0 -> counted ext (t, ks) ->
  match fl with
  | [] => HandleTable_Open target (t, ks) = (Err CARA_ENOMEM, (t, ks)) /\ forall i, 0 <= i < ht_cap t -> sl_target (slot t i) <> 0
  | x :: fl' => exists h t' ks', HandleTable_Open target (t, ks) = (Ok h, (t', ks')) /\ ht_ok t' fl' /\ ht_cap t' = ht_cap t /\ in_u32 h /\ handle_index h = x /\
      handle_gen h = sl_generation (slot t x) /\ (forall i, 0 <= i < ht_cap t -> sl_generation (slot t' i) = sl_generation (slot t i)) /\
      handle_target t h = None /\ handle_target t' h = Some target /\
      (forall h', in_u32 h' -> h' <> h -> handle_target t' h' = handle_target t h') /\ counted ext (t', ks')
  end.
Proof.
  intros [Hc Hl Hch Hnd Hf Hg] Ht Hcnt. unfold HandleTable_Open. rewrite (proj2 (Z.eqb_neq target 0)) by done. destruct fl as [|x fl].
  - cbn in Hch. rewrite Hch, Z.eqb_refl. split; [done|]. intros i Hi E. apply Hf in E; [|done]. by apply elem_of_nil in E.
  - destruct Hch as (Hh & Hx & Hch). apply NoDup_cons in Hnd as [Hnx Hnd]. rewrite Hh. rewrite (proj2 (Z.eqb_neq x HANDLE_INVALID)) by (unfold HANDLE_INVALID; lia).
    destruct (encode_handle (sl_generation (slot t x)) x (Hg x Hx) ltac:(lia)) as (E1 & E2 & E3). set (h := Z.lor _ _) in *.
    assert (sl_target (slot t x) = 0) as Hx0 by (apply Hf; [done|left]). pose proof (Hg x Hx) as Hgx. unfold in_u16 in Hgx.
    assert (in_u32 h) as Hhu by (unfold in_u32; rewrite E1; lia).
    assert (forall i, 0 <= i < ht_cap t -> sl_generation (slot (put_slot t x (mkSlot target (sl_generation (slot t x)) (sl_next_free (slot t x))) (sl_next_free (slot t x))) i) = sl_generation (slot t i)) as Hgen.
    { intros i Hi. destruct (decide (i = x)) as [->|Hne]; [rewrite slot_put_same by lia; done|rewrite slot_put_other by lia; done]. }
    eexists h, _, _. split_and!; [reflexivity| |done|done|done|done|done| | | |].
    + split; cbn [ht_cap put_slot ht_free_head ht_slots]; [done|by rewrite length_insert|apply free_chain_put; [done|lia|done]|done| |by intros i Hi; rewrite Hgen; [apply Hg|]].
      intros i Hi. destruct (decide (i = x)) as [->|Hne]; [rewrite slot_put_same by lia; cbn; tauto|].
      rewrite slot_put_other, <- Hf by lia. rewrite elem_of_cons. tauto.
    + unfold handle_target. rewrite E2, (proj2 (Z.leb_gt _ _)), Hx0 by lia. done.
    + rewrite handle_target_at by (done || lia). cbn. rewrite (proj2 (Z.eqb_neq target 0)), E3, Z.eqb_refl by done. done.
    + intros h' Hh' Hne. destruct (decode_handle h' Hh') as (D1 & D2 & D3). destruct (decide (handle_index h' = x)) as [Ei|Ei]; [|apply handle_target_other; lia].
      rewrite handle_target_at by (done || lia). cbn. rewrite (proj2 (Z.eqb_neq target 0)), (proj2 (Z.eqb_neq (handle_gen h') _)) by (done || congruence). cbn.
      unfold handle_target. rewrite Ei, (proj2 (Z.leb_gt _ _)), Hx0 by lia. done.
    + intros p k Hp Hk. cbn [snd fst] in *. rewrite refs_put by lia. rewrite Hx0. cbn [sl_target]. rewrite (decide_False (P := 0 = p)) by congruence.
      destruct (retain_lookup _ _ _ _ Ht Hk) as (k0 & [[Hk0 ->]|[Hne Hk0]]); rewrite (Hcnt p _ Hp Hk0), ?u32_plus; cbn [fst]; f_equal; [destruct (decide _); lia|].
      rewrite decide_False by done. lia.
Qed.

Lemma close_spec t ks fl h ext : ht_ok t fl -> in_u32 h -> counted ext (t, ks) ->
  match handle_target t h with
  | None => HandleTable_Close h (t, ks) = (Err CARA_EBADF, (t, ks))
  | Some p => exists t' ks', HandleTable_Close h (t, ks) = (Ok tt, (t', ks')) /\ ht_ok t' (handle_index h :: fl) /\ ht_cap t' = ht_cap t /\
      (forall i, 0 <= i < ht_cap t -> sl_generation (slot t' i) = if i =? handle_index h then u16 (sl_generation (slot t i) + 1) else sl_generation (slot t i)) /\
      handle_target t' h = None /\ (forall h', in_u32 h' -> h' <> h -> handle_target t' h' = handle_target t h') /\ counted ext (t', ks') /\ ks' = Kobj_Release p ks
  end.
Proof.
  intros [Hc Hl Hch Hnd Hf Hg] Hh Hcnt. destruct (decode_handle h Hh) as (D1 & D2 & D3). unfold HandleTable_Close, handle_target. set (x := handle_index h) in *.
  destruct (Z.leb_spec (ht_cap t) x); [done|]. assert (0 <= x < ht_cap t) as Hx by lia. destruct (_ || _) eqn:Ev; [done|]. zbool. set (p := sl_target (slot t x)) in *.
  assert (x ∉ fl) as Hnx by (intros Hin; apply Hf in Hin; [done|lia]).
  assert (forall i, 0 <= i < ht_cap t -> sl_generation (slot (put_slot t x (mkSlot 0 (u16 (sl_generation (slot t x) + 1)) (ht_free_head t)) x) i) =
     if i =? x then u16 (sl_generation (slot t i) + 1) else sl_generation (slot t i)) as Hgen.
  { intros i Hi. destruct (Z.eqb_spec i x) as [->|Hne]; [rewrite slot_put_same by lia; done|rewrite slot_put_other by lia; done]. }
  eexists _, _. split_and!; [reflexivity| |done|done| | | |done].
  - split; cbn [ht_cap put_slot ht_free_head ht_slots]; [done|by rewrite length_insert| |by constructor| |].
    + split; [done|]. split; [done|]. rewrite slot_put_same by lia. apply free_chain_put; [done|lia|done].
    + intros i Hi. rewrite elem_of_cons. destruct (decide (i = x)) as [->|Hne]; [rewrite slot_put_same by lia; cbn; tauto|]. rewrite slot_put_other, <- Hf by lia. tauto.
    + intros i Hi. rewrite Hgen by done. destruct (_ =? _); [apply u16_range|by apply Hg].
  - change (handle_target (put_slot t x (mkSlot 0 (u16 (sl_generation (slot t x) + 1)) (ht_free_head t)) x) h = None). rewrite handle_target_at by done. done.
  - intros h' Hh' Hne. destruct (decode_handle h' Hh') as (D1' & D2' & D3').
    change (handle_target (put_slot t x (mkSlot 0 (u16 (sl_generation (slot t x) + 1)) (ht_free_head t)) x) h' = handle_target t h').
    destruct (decide (handle_index h' = x)) as [Ei|Ei]; [|apply handle_target_other; lia]. rewrite handle_target_at by done. cbn.
    unfold handle_target. rewrite Ei, (proj2 (Z.leb_gt _ _)) by lia. fold p. rewrite (proj2 (Z.eqb_neq (handle_gen h') _)) by (intros E; apply Hne; rewrite D3, D3'; congruence). by rewrite orb_true_r.
  - intros q k Hq Hk. cbn [snd fst] in *. rewrite refs_put by lia. fold p. cbn [sl_target]. rewrite (decide_False (P := 0 = q)) by congruence.
    assert (p <> 0) as Hp0 by done. destruct (release_lookup p ks q k Hp0 Hk) as (k0 & Hk0 & [[Epq ->]|[Hne ->]]); rewrite (Hcnt q _ Hq Hk0), ?u32_minus; cbn [fst]; f_equal.
    + rewrite decide_True by done. lia.
    + rewrite decide_False by done. lia.
Qed.

(** * Properties *)

Lemma lookup_target t ks h expected : HandleTable_Lookup (t, ks) h expected =
  match handle_target t h with
  | None => Err CARA_EBADF
  | Some p => if (expected =? KOBJ_NONE) || match g_kobjs ks !! p with Some k => ko_type k =? expected | None => false end then Ok p else Err CARA_EBADF
  end.
Proof.
  unfold HandleTable_Lookup, handle_target. destruct (_ <=? _); [done|]. destruct (sl_target _ =? 0); [done|]. cbn [orb]. destruct (negb (_ =? sl_generation _)); [done|].
  by destruct (expected =? KOBJ_NONE), (match g_kobjs ks !! _ with Some _ => _ | None => _ end).
Qed.

(** C19: A handle table is a finite map from handles to objects. [HandleTable_Lookup] returns what the
    map says, or EBADF for a handle that is not in it or whose object has another type.
    [HandleTable_Open] adds a new handle for the object and leaves every other handle as it was, and
    fails only when no slot is free; [HandleTable_Close] removes exactly the handle given, and
    changes nothing if it is not valid. Both keep the free list intact and every reference count
    equal to the references held outside plus the slots that refer to the object. *)
Theorem handle_table_is_map t ks fl ext : ht_ok t fl -> counted ext (t, ks) ->
  (forall h expected, HandleTable_Lookup (t, ks) h expected =
     match handle_target t h with
     | None => Err CARA_EBADF
     | Some p => if (expected =? KOBJ_NONE) || match g_kobjs ks !! p with Some k => ko_type k =? expected | None => false end then Ok p else Err CARA_EBADF
     end) /\
  (forall target, target <> 0 ->
     HandleTable_Open target (t, ks) = (Err CARA_ENOMEM, (t, ks)) /\ (forall i, 0 <= i < ht_cap t -> sl_target (slot t i) <> 0) \/
     exists h t' ks' fl', HandleTable_Open target (t, ks) = (Ok h, (t', ks')) /\ ht_ok t' fl' /\ counted ext (t', ks') /\
       handle_target t h = None /\ handle_target t' h = Some target /\ forall h', in_u32 h' -> h' <> h -> handle_target t' h' = handle_target t h') /\
  (forall h, in_u32 h ->
     match handle_target t h with
     | None => HandleTable_Close h (t, ks) = (Err CARA_EBADF, (t, ks))
     | Some p => exists t' fl', HandleTable_Close h (t, ks) = (Ok tt, (t', Kobj_Release p ks)) /\ ht_ok t' fl' /\ counted ext (t', Kobj_Release p ks) /\
         handle_target t' h = None /\ forall h', in_u32 h' -> h' <> h -> handle_target t' h' = handle_target t h'
     end).
Proof.
  intros Hok Hc. split_and!.
  - intros h expected. apply lookup_target.
  - intros target Ht. pose proof (open_spec t ks fl target ext Hok Ht Hc) as H. destruct fl as [|x fl]; [by left|right].
    destruct H as (h & t' & ks' & E & H1 & _ & _ & _ & _ & _ & H2 & H3 & H4 & H5). exists h, t', ks', fl. auto 10.
  - intros h Hh. pose proof (close_spec t ks fl h ext Hok Hh Hc) as H. destruct (handle_target t h) as [p|]; [|done].
    destruct H as (t' & ks' & E & H1 & _ & _ & H2 & H3 & H4 & ->). exists t', (handle_index h :: fl). auto 10.
Qed.

(** A sequence of calls, whatever their results. *)
Inductive hop := HOpen (target : Z) | HClose (h : Z).
Definition do_hop (st : hstate) (o : hop) : hstate :=
  match o with HOpen target => snd (HandleTable_Open target st) | HClose h => snd (HandleTable_Close h st) end.
Definition hop_ok (o : hop) : Prop := match o with HOpen target => target <> 0 | HClose h => in_u32 h end.
Fixpoint closes (ops : list hop) : Z := match ops with [] => 0 | HOpen _ :: ops => closes ops | HClose _ :: ops => 1 + closes ops end.

Lemma u16_plus a b : u16 (u16 a + b) = u16 (a + b).
Proof. unfold u16. by rewrite Zplus_mod_idemp_l. Qed.
Lemma do_hop_ok o t ks fl ext i : hop_ok o -> ht_ok t fl -> counted ext (t, ks) -> 0 <= i < ht_cap t ->
  exists t' ks' fl' m, do_hop (t, ks) o = (t', ks') /\ ht_ok t' fl' /\ counted ext (t', ks') /\ ht_cap t' = ht_cap t /\
    0 <= m <= closes [o] /\ sl_generation (slot t' i) = u16 (sl_generation (slot t i) + m).
Proof.
  intros Ho Hok Hc Hi. pose proof (hk_gen _ _ Hok i Hi) as Hg.
  assert (sl_generation (slot t i) = u16 (sl_generation (slot t i) + 0)) as Hsame by (rewrite Z.add_0_r, u16_small; done).
  destruct o as [target|h]; cbn in Ho; cbn [do_hop closes].
  - pose proof (open_spec t ks fl target ext Hok Ho Hc) as H. destruct fl as [|x fl].
    + destruct H as [-> _]. exists t, ks, [], 0. split_and!; (done || lia).
    + destruct H as (h & t' & ks' & -> & H1 & H2 & _ & _ & _ & H3 & _ & _ & _ & H4). exists t', ks', fl, 0. rewrite H3 by done. split_and!; (done || lia).
  - pose proof (close_spec t ks fl h ext Hok Ho Hc) as H. destruct (handle_target t h) as [p|].
    + destruct H as (t' & ks' & -> & H1 & H2 & H3 & _ & _ & H4 & _). eexists t', ks', _, (if i =? handle_index h then 1 else 0). rewrite H3 by done.
      split_and!; try done; destruct (_ =? _); (done || lia).
    + rewrite H. exists t, ks, fl, 0. split_and!; (done || lia).
Qed.
Lemma run_hops ops t ks fl ext i : Forall hop_ok ops -> ht_ok t fl -> counted ext (t, ks) -> 0 <= i < ht_cap t ->
  exists t' ks' m, foldl do_hop (t, ks) ops = (t', ks') /\ ht_cap t' = ht_cap t /\ 0 <= m <= closes ops /\ sl_generation (slot t' i) = u16 (sl_generation (slot t i) + m).
Proof.
  intros Ho. revert t ks fl. induction Ho as [|o ops Ho Hos IH]; intros t ks fl Hok Hc Hi.
  - exists t, ks, 0. pose proof (hk_gen _ _ Hok i Hi). split_and!; try (done || lia). by rewrite Z.add_0_r, u16_small.
  - destruct (do_hop_ok o t ks fl ext i Ho Hok Hc Hi) as (t1 & ks1 & fl1 & m1 & E1 & K1 & C1 & P1 & M1 & G1). cbn [foldl]. rewrite E1.
    destruct (IH t1 ks1 fl1 K1 C1 ltac:(lia)) as (t2 & ks2 & m2 & E2 & P2 & M2 & G2). exists t2, ks2, (m1 + m2). split_and!; [done|congruence|lia|destruct o; cbn in *; lia|].
    rewrite G2, G1, u16_plus. f_equal. lia.
Qed.

(** A closed handle stays invalid: whatever is opened and closed afterwards, as long as fewer than
    65,535 handles are closed, looking it up gives EBADF. *)
Theorem closed_handle_stays_invalid t ks fl ext h st ops expected : ht_ok t fl -> counted ext (t, ks) -> in_u32 h ->
  HandleTable_Close h (t, ks) = (Ok tt, st) -> Forall hop_ok ops -> closes ops < 65535 ->
  HandleTable_Lookup (foldl do_hop st ops) h expected = Err CARA_EBADF.
Proof.
  intros Hok Hc Hh E Ho Hn. pose proof (close_spec t ks fl h ext Hok Hh Hc) as H. unfold handle_target in H.
  destruct (Z.leb_spec (ht_cap t) (handle_index h)) as [|Hlt]; [by rewrite H in E|]. destruct (_ || _) eqn:Ev; [by rewrite H in E|]. zbool.
  destruct H as (t' & ks' & E' & K & Hcap & Hg & _ & _ & C & _). rewrite E' in E. injection E as <-.
  destruct (decode_handle h Hh) as (D1 & D2 & _). assert (0 <= handle_index h < ht_cap t) as Hi by lia.
  destruct (run_hops ops t' ks' _ ext (handle_index h) Ho K C ltac:(lia)) as (t2 & ks2 & m & -> & P2 & M2 & G2).
  rewrite lookup_target. unfold handle_target. destruct (_ <=? _); [done|]. rewrite G2, Hg, Z.eqb_refl by done.
  assert ((handle_gen h =? u16 (u16 (sl_generation (slot t (handle_index h)) + 1) + m)) = false) as ->; [|by rewrite orb_true_r].
  apply Z.eqb_neq. rewrite u16_plus. match goal with Eg : handle_gen h = _ |- _ => rewrite <- Eg end. unfold u16. intros Hmod. change (2 ^ 16) with 65536 in *.
  assert ((handle_gen h + 1 + m) / 65536 = 0 \/ (handle_gen h + 1 + m) / 65536 = 1) as Hq by dmlia. dmlia.
Qed.

Module HandleExample.
Definition objs : Kstate := Kobj_Init 16 3 true (Kobj_Init 8 2 true (mkKstate ∅ 1 [])).
Definition t0 : HandleTable := mkHT [mkSlot 0 0 HANDLE_INVALID] 1 0.
Lemma t0_ok : ht_ok t0 [0].
Proof. exact (proj1 (ht_init_ok 1 t0 eq_refl ltac:(lia))). Qed.
Definition ext (p : Z) : Z := 1.
Lemma objs_counted : counted ext (t0, objs).
Proof.
  intros p k Hp Hk. cbn in Hk. destruct (decide (p = 16)) as [->|H1]; [vm_compute in Hk; injection Hk as <-; done|].
  rewrite lookup_insert_ne in Hk by done. destruct (decide (p = 8)) as [->|H2]; [vm_compute in Hk; injection Hk as <-; done|].
  by rewrite lookup_insert_ne in Hk by done.
Qed.
Lemma handle_table_is_map_witness : HandleTable_Lookup (t0, objs) 0 0 = Err CARA_EBADF /\
  exists h t' ks', HandleTable_Open 8 (t0, objs) = (Ok h, (t', ks')) /\ handle_target t' h = Some 8.
Proof.
  destruct (handle_table_is_map t0 objs [0] ext t0_ok objs_counted) as (H1 & H2 & _). split; [exact (H1 0 0)|].
  destruct (H2 8 ltac:(lia)) as [[E _]|(h & t' & ks' & fl' & E & _ & _ & _ & Hh & _)]; [discriminate E|]. exists h, t', ks'. split; [exact E|exact Hh].
Defined.

Definition st1 : hstate := snd (HandleTable_Open 8 (t0, objs)).
Lemma st1_ok : ht_ok (fst st1) [] /\ counted ext st1.
Proof.
  pose proof (open_spec t0 objs [0] 8 ext t0_ok ltac:(lia) objs_counted) as (h & t' & ks' & E & H1 & _ & _ & _ & _ & _ & _ & _ & _ & H2).
  unfold st1. rewrite E. split; [exact H1|exact H2].
Qed.
Lemma closed_handle_stays_invalid_witness :
  HandleTable_Lookup (foldl do_hop (snd (HandleTable_Close 0 st1)) [HOpen 16; HClose 65536; HOpen 16]) 0 0 = Err CARA_EBADF.
Proof.
  apply (closed_handle_stays_invalid (fst st1) (snd st1) [] ext 0 (snd (HandleTable_Close 0 st1)) _ 0 (proj1 st1_ok) (proj2 st1_ok)).
  - unfold in_u32. lia.
  - vm_compute. reflexivity.
  - repeat constructor; cbn; unfold in_u32; lia.
  - cbn. lia.
Defined.

(** Close the handle of slot 0 that [n] stands for and open another. *)
Fixpoint churn (n : nat) (gen : Z) (st : hstate) : hstate :=
  match n with O => st | S n => churn n (u16 (gen + 1)) (do_hop (do_hop st (HClose (gen * 65536))) (HOpen 16)) end.
End HandleExample.

(** After 65,536 closings of a slot its generation is back where it was, and a handle closed long ago
    names another object. (The comment in [HandleTable_Close] says that a stale handle is never
    silently used.) *)
Example stale_handle_revives :
  HandleTable_Lookup HandleExample.st1 0 KOBJ_NONE = Ok 8 /\
  HandleTable_Lookup (HandleExample.churn 1 0 HandleExample.st1) 0 KOBJ_NONE = Err CARA_EBADF /\
  HandleTable_Lookup (HandleExample.churn (Z.to_nat 65536) 0 HandleExample.st1) 0 KOBJ_NONE = Ok 16.
Proof. split_and!; vm_compute; reflexivity. Qed.
