(* ===== verification/MsgPort.v ===== *)
(** Message ports ([src/croi/ipc/msgport.c], [msgport_impl.h], [src/croi/exec_lib/ipc.c]): a ring of message
    pointers with an owner that is signalled when the ring stops being empty. The ports stand on the ring,
    the scheduler's signals and the kernel objects; the theorem is on their composition. *)

From S2P Require Import Prelude HandleTable Ring ExecList Sched.

(** * Data *)

Definition KOBJ_MSGPORT : Z := 2.
Definition NT_MSGPORT : Z := 4.
Definition NT_MESSAGE : Z := 5.
Definition NT_REPLYMSG : Z := 7.
Definition PA_SIGNAL : Z := 0.
Definition CARA_PORT_RING_CAP : Z := 32.

(** The fields of [struct MsgPort] that the code sets. *)
Record MsgPort := mkMsgPort { mp_ln_Type : Z; mp_Flags : Z; mp_SigBit : Z; mp_SigTask : Z }.
Record CroiMsgPort := mkPort { port_pub : MsgPort; port_ring : RingHeader; port_capacity : Z; port_owner : Z; port_signal_bit : Z }.
Definition set_ring (r : RingHeader) (p : CroiMsgPort) : CroiMsgPort := mkPort (port_pub p) r (port_capacity p) (port_owner p) (port_signal_bit p).
Record Message := mkMessage { mn_ln_Type : Z; mn_ReplyPort : Z; mn_Length : Z }.
(** The scheduler, the ports and the messages by address, and the kernel objects. *)
Record Ipc := mkIpc { i_sched : Sched; i_ports : gmap Z CroiMsgPort; i_msgs : gmap Z Message; i_kobjs : Kstate }.
Definition with_sched (s : Sched) (w : Ipc) : Ipc := mkIpc s (i_ports w) (i_msgs w) (i_kobjs w).
Definition with_ports (ps : gmap Z CroiMsgPort) (w : Ipc) : Ipc := mkIpc (i_sched w) ps (i_msgs w) (i_kobjs w).
Definition with_msgs (ms : gmap Z Message) (w : Ipc) : Ipc := mkIpc (i_sched w) (i_ports w) ms (i_kobjs w).
Definition with_kobjs (ks : Kstate) (w : Ipc) : Ipc := mkIpc (i_sched w) (i_ports w) (i_msgs w) ks.

(** The public part is at offset 0 of the port, the kernel object at 80. *)
Definition hdr_of (p : Z) : Z := p + 80.
Definition forget_kobj (k : Z) (ks : Kstate) : Kstate := mkKstate (delete k (g_kobjs ks)) (g_next_kobj_id ks) (g_destroyed ks).

(** * Operations *)

Definition msgport_destroy (p : Z) (w : Ipc) : Ipc := with_ports (delete p (i_ports w)) (with_kobjs (forget_kobj (hdr_of p) (i_kobjs w)) w).

(** [wrapper] and [block] are what the shared heap returns for the port and for its ring. *)
Definition Croi_CreateMsgPort (owner : option Z) (signal_bit capacity : Z) (wrapper block : option Z) (w : Ipc) : option Z * Ipc :=
  match owner with
  | None => (None, w)
  | Some owner =>
      if (32 <=? signal_bit) || (capacity =? 0) then (None, w)
      else if negb (Z.land capacity (u32 (capacity - 1)) =? 0) then (None, w)
      else match wrapper with
           | None => (None, w)
           | Some p =>
               let w := with_kobjs (Kobj_Init (hdr_of p) KOBJ_MSGPORT true (i_kobjs w)) w in
               match block with
               | None => (None, with_kobjs (forget_kobj (hdr_of p) (i_kobjs w)) w)
               | Some _ =>
                   match Ring_Init (mkRing 0 0 0 0 0 (replicate (Z.to_nat capacity) (Ring.mkSlot 0 0 0 0))) capacity 0 with
                   | Err _ => (None, with_kobjs (forget_kobj (hdr_of p) (i_kobjs w)) w)
                   | Ok r => (Some p, with_ports (<[p := mkPort (mkMsgPort NT_MSGPORT PA_SIGNAL (u8 signal_bit) owner) r capacity owner signal_bit]> (i_ports w)) w)
                   end
               end
           end
  end.
(** The callback runs when the last reference goes. *)
Definition Croi_DestroyMsgPort (p : Z) (w : Ipc) : Ipc :=
  if p =? 0 then w
  else
    let ks := Kobj_Release (hdr_of p) (i_kobjs w) in
    if (length (g_destroyed (i_kobjs w)) <? length (g_destroyed ks))%nat then msgport_destroy p (with_kobjs ks w) else with_kobjs ks w.

Definition port_mask (port : CroiMsgPort) : Z := u32 (Z.shiftl 1 (port_signal_bit port)).
Definition Croi_PutMsg (p : Z) (msg : RingSlot) (w : Ipc) : bool * Ipc :=
  if p =? 0 then (false, w)
  else match i_ports w !! p with
       | None => (false, w)
       | Some port =>
           let '(ok, need_signal, r) := Ring_Enqueue (port_ring port) msg in
           if negb ok then (false, w)
           else
             let w := with_ports (<[p := set_ring r port]> (i_ports w)) w in
             (true, if need_signal : bool then with_sched (Croi_Signal (Some (port_owner port)) (port_mask port) (i_sched w)) w else w)
       end.
Definition Croi_GetMsg (p : Z) (w : Ipc) : option RingSlot * Ipc :=
  if p =? 0 then (None, w)
  else match i_ports w !! p with
       | None => (None, w)
       | Some port => let '(x, r) := Ring_Dequeue (port_ring port) in (x, with_ports (<[p := set_ring r port]> (i_ports w)) w)
       end.
Definition Croi_WaitPort (p : Z) (w : Ipc) : wait_outcome :=
  if p =? 0 then WaitHit 0 (i_sched w)
  else match i_ports w !! p with None => WaitHit 0 (i_sched w) | Some port => Croi_Wait (port_mask port) (i_sched w) end.

(** ** exec.library *)

Definition Croi_PutMsg_Impl (port msg : Z) (w : Ipc) : Ipc :=
  if (port =? 0) || (msg =? 0) then w
  else match i_msgs w !! msg with
       | None => w
       | Some m => snd (Croi_PutMsg port (Ring.mkSlot NT_MESSAGE (mn_Length m) msg 0) w)
       end.
(** A message's address, 0 for none. *)
Definition Croi_GetMsg_Impl (port : Z) (w : Ipc) : Z * Ipc :=
  if port =? 0 then (0, w)
  else match Croi_GetMsg port w with (None, w) => (0, w) | (Some slot, w) => (rs_payload slot, w) end.
(** Returns null when the wait is over. *)
Definition Croi_WaitPort_Impl (port : Z) (w : Ipc) : wait_outcome := if port =? 0 then WaitHit 0 (i_sched w) else Croi_WaitPort port w.
Definition Croi_ReplyMsg_Impl (msg : Z) (w : Ipc) : Ipc :=
  if msg =? 0 then w
  else
    let w := with_msgs (alter (fun m => mkMessage NT_REPLYMSG (mn_ReplyPort m) (mn_Length m)) msg (i_msgs w)) w in
    match i_msgs w !! msg with
    | None => w
    | Some m => if negb (mn_ReplyPort m =? 0) then Croi_PutMsg_Impl (mn_ReplyPort m) msg w else w
    end.
Definition Croi_CreateMsgPort_Impl (wrapper block : option Z) (w : Ipc) : option Z * Ipc :=
  match Sched_Current (i_sched w) with
  | None => (None, w)
  | Some me =>
      let '(sig, s) := Croi_AllocSignal (i_sched w) in
      let w := with_sched s w in
      if sig <? 0 then (None, w)
      else match Croi_CreateMsgPort (Some me) sig CARA_PORT_RING_CAP wrapper block w with
           | (None, w) => (None, with_sched (Croi_FreeSignal sig (i_sched w)) w)
           | (Some p, w) => (Some p, w)
           end
  end.
Definition Croi_DeleteMsgPort_Impl (port : Z) (w : Ipc) : Ipc :=
  if port =? 0 then w
  else match i_ports w !! port with
       | None => w
       | Some cmp => let w := Croi_DestroyMsgPort port w in with_sched (Croi_FreeSignal (port_signal_bit cmp) (i_sched w)) w
       end.

(** * A port in use *)

(** The state, the tasks inside [Croi_Wait] with their masks, and three facts of the port's history: whether
    its owner has been woken and has not since found the port empty, the messages that the port has
    taken, and the messages that the owner has got. *)
Record use := mkUse { u_ipc : Ipc; u_waiting : gmap Z Z; u_awake : bool; u_sent : list Z; u_got : list Z }.
(** The port takes a message unless its ring is full. *)
Definition takes (w : Ipc) (p : Z) : bool := match i_ports w !! p with Some port => negb (Ring_IsFull (port_ring port)) | None => false end.
(** The owner's signal, if it is pending, stays so. *)
Definition keeps_signal (o bit : Z) (s s' : Sched) : Prop :=
  forall k, g_tasks s !! o = Some k -> Z.testbit (tc_SigRecvd k) bit = true -> exists k', g_tasks s' !! o = Some k' /\ Z.testbit (tc_SigRecvd k') bit = true.

(** What happens to the port [p] of the task [o] with the signal [bit]. Any task puts messages. The owner gets them, and
    waits for the port only after it found it empty. Other tasks do anything else that leaves the port alone, and the owner
    anything else that leaves the port and its signal alone. *)
Inductive use_step (p o bit : Z) : use -> use -> Prop :=
| us_put w wt aw sent got c m : Sched_Current (i_sched w) = Some c -> wt !! c = None -> m <> 0 -> is_Some (i_msgs w !! m) ->
    use_step p o bit (mkUse w wt aw sent got) (mkUse (Croi_PutMsg_Impl p m w) wt aw (if takes w p then sent ++ [m] else sent) got)
| us_get w wt aw sent got m w' : Sched_Current (i_sched w) = Some o -> wt !! o = None -> Croi_GetMsg_Impl p w = (m, w') ->
    use_step p o bit (mkUse w wt aw sent got) (if m =? 0 then mkUse w' wt false sent got else mkUse w' wt aw sent (got ++ [m]))
| us_wait w wt sent got hit s' : Sched_Current (i_sched w) = Some o -> wt !! o = None -> Croi_WaitPort_Impl p w = WaitHit hit s' ->
    use_step p o bit (mkUse w wt false sent got) (mkUse (with_sched s' w) wt true sent got)
| us_block w wt sent got s' : Sched_Current (i_sched w) = Some o -> wt !! o = None -> Croi_WaitPort_Impl p w = WaitBlock s' ->
    use_step p o bit (mkUse w wt false sent got) (mkUse (with_sched s' w) (<[o := u32 (Z.shiftl 1 bit)]> wt) false sent got)
| us_resume w wt aw sent got hit s' : Sched_Current (i_sched w) = Some o -> wt !! o = Some (u32 (Z.shiftl 1 bit)) -> Croi_WaitPort_Impl p w = WaitHit hit s' ->
    use_step p o bit (mkUse w wt aw sent got) (mkUse (with_sched s' w) (delete o wt) true sent got)
| us_other w w' wt wt' aw sent got : Sched_Current (i_sched w) <> Some o -> i_ports w' !! p = i_ports w !! p -> sys_step (mkSys (i_sched w) wt) (mkSys (i_sched w') wt') ->
    use_step p o bit (mkUse w wt aw sent got) (mkUse w' wt' aw sent got)
| us_own w w' wt aw sent got : Sched_Current (i_sched w) = Some o -> wt !! o = None -> i_ports w' !! p = i_ports w !! p -> plain_op (i_sched w) (i_sched w') -> keeps_signal o bit (i_sched w) (i_sched w') ->
    use_step p o bit (mkUse w wt aw sent got) (mkUse w' wt aw sent got).

(** * Invariant *)

(** ** The owner under the scheduler's operations *)

Lemma bit_mask_test bit v : 0 <= bit < 32 -> (Z.land v (u32 (Z.shiftl 1 bit)) =? 0) = negb (Z.testbit v bit).
Proof.
  intros Hb. rewrite Z.shiftl_1_l. assert (2 ^ bit < 2 ^ 32) by (apply Z.pow_lt_mono_r; lia). rewrite u32_small by (unfold in_u32; lia). destruct (Z.testbit v bit) eqn:E; cbn [negb].
  - apply Z.eqb_neq. intros H0. assert (Z.testbit (Z.land v (2 ^ bit)) bit = true) as H1 by (rewrite Z.land_spec, E, Z.pow2_bits_true by lia; done). rewrite H0, Z.testbit_0_l in H1. done.
  - apply Z.eqb_eq. apply Z.bits_inj_0. intros i. rewrite Z.land_spec. destruct (decide (i = bit)) as [->|Hne]; [by rewrite E|]. rewrite Z.pow2_bits_false by lia. by rewrite andb_false_r.
Qed.
Lemma mask_pos bit : 0 <= bit < 32 -> in_u32 (u32 (Z.shiftl 1 bit)) /\ u32 (Z.shiftl 1 bit) <> 0 /\ Z.testbit (u32 (Z.shiftl 1 bit)) bit = true.
Proof.
  intros Hb. rewrite Z.shiftl_1_l. assert (0 < 2 ^ bit < 2 ^ 32) by (split; [lia|apply Z.pow_lt_mono_r; lia]). rewrite u32_small by (unfold in_u32; lia). split; [unfold in_u32; lia|]. split; [lia|]. apply Z.pow2_bits_true; lia.
Qed.

(** A live task stays alive and keeps its pending signals. *)
Definition keeps_all (o : Z) (s s' : Sched) : Prop :=
  forall k, g_tasks s !! o = Some k -> o ∉ g_dead s -> exists k', g_tasks s' !! o = Some k' /\ o ∉ g_dead s' /\ (g_current s <> Some o -> forall i, Z.testbit (tc_SigRecvd k) i = true -> Z.testbit (tc_SigRecvd k') i = true).
Lemma keeps_refl o s : keeps_all o s s.
Proof. intros k Hk Hd. exists k. split_and!; [done|done|]. by intros _ i. Qed.
Lemma upd_keeps o c f s : (c = o -> g_current s = Some o) -> keeps_all o s (upd c f s).
Proof.
  intros Hc k Hk Hd. cbn [upd g_tasks set_tasks g_dead]. destruct (decide (c = o)) as [->|Hne]; [rewrite lookup_alter_eq, Hk; eexists; split; [done|]; split; [done|]; intros Hcu; exfalso; apply Hcu; by apply Hc|]. rewrite lookup_alter_ne by done. exists k. split_and!; [done|done|]. by intros _ i.
Qed.
Lemma on_current_keeps o f s : keeps_all o s (on_current f s).
Proof. unfold on_current. destruct (g_current s) as [c|] eqn:Ec; [|by apply keeps_refl]. apply upd_keeps. by intros ->. Qed.
Lemma recvd_alter (ts : gmap Z Task) f t o k : ts !! o = Some k -> (forall x, tc_SigRecvd (f x) = tc_SigRecvd x) -> exists k', alter f t ts !! o = Some k' /\ tc_SigRecvd k' = tc_SigRecvd k.
Proof. intros Hk Hf. destruct (decide (t = o)) as [->|Hne]; [rewrite lookup_alter_eq, Hk; eexists; split; [done|apply Hf]|]. rewrite lookup_alter_ne by done. by exists k. Qed.
Lemma signal_recvd s t mask o k : g_tasks s !! o = Some k -> exists k', g_tasks (Croi_Signal (Some t) mask s) !! o = Some k' /\ g_dead (Croi_Signal (Some t) mask s) = g_dead s /\
  g_current (Croi_Signal (Some t) mask s) = g_current s /\ tc_SigRecvd k' = if decide (t = o) then Z.lor (tc_SigRecvd k) mask else tc_SigRecvd k.
Proof.
  intros Hk. unfold Croi_Signal. destruct (Z.eqb_spec mask 0) as [->|Hm]; [exists k; split_and!; [done|done|done|]; destruct (decide _); [by rewrite Z.lor_0_r|done]|]. cbn [upd g_tasks set_tasks].
  set (f := fun k => set_sigrecvd k (Z.lor (tc_SigRecvd k) mask)). assert (exists k1, alter f t (g_tasks s) !! o = Some k1 /\ tc_SigRecvd k1 = if decide (t = o) then Z.lor (tc_SigRecvd k) mask else tc_SigRecvd k) as (k1 & Hk1 & E1).
  { destruct (decide (t = o)) as [->|Hne]; [rewrite lookup_alter_eq, Hk; by eexists|rewrite lookup_alter_ne by done; by exists k]. }
  destruct (alter f t (g_tasks s) !! t) as [kt|]; [|by exists k1]. destruct (_ && _); [|by exists k1]. cbn [runq_add set_runq g_tasks g_dead g_current upd set_tasks set_sleepers].
  destruct (recvd_alter _ (fun k => set_sigwait (set_state k TS_READY) 0) t o k1 Hk1) as (k2 & Hk2 & E2); [done|]. exists k2. split_and!; [done|done|done|congruence].
Qed.
Lemma yield_keeps o s : keeps_all o s (Croi_Yield s).
Proof.
  intros k Hk Hd. unfold Croi_Yield. destruct (negb _); [by exists k|]. destruct (nested s); [by exists k|]. destruct (g_runq s) as [|n rest]; [by exists k|]. destruct (match g_current s with Some old => _ | None => false end); [by exists k|].
  cbn [g_current upd set_tasks set_runq]. destruct (recvd_alter (g_tasks s) (fun k => set_state k TS_RUN) n o k Hk) as (k1 & Hk1 & E1); [done|]. destruct (g_current s) as [old|]; cbn [set_current g_tasks g_dead runq_add set_runq upd set_tasks].
  - destruct (recvd_alter _ (fun k => set_state k TS_READY) old o k1 Hk1) as (k2 & Hk2 & E2); [done|]. exists k2. split; [done|]. split; [done|]. intros _ i. by rewrite E2, E1.
  - exists k1. split; [done|]. split; [done|]. intros _ i. by rewrite E1.
Qed.
Lemma plain_keeps o s s' : plain_op s s' -> keeps_all o s s'.
Proof.
  intros Hop. destruct Hop as [s|s pri t s' Hf E|s pri|s|s|s|s|s b s' E|s sig|s t mask Ht Hm|s new mask r s' E|s]; try apply on_current_keeps; [apply yield_keeps| | | | | |].
  - intros k Hk Hd. unfold Croi_SpawnKernelTask in E. destruct (_ || _); [done|]. injection E as <-. cbn [runq_add set_runq g_tasks g_dead set_tasks]. rewrite lookup_insert_ne by congruence. by exists k.
  - unfold Croi_AllocSignal in E. destruct (g_current s) as [c|] eqn:Ec; [|injection E as _ <-; by apply keeps_refl]. destruct (g_tasks s !! c) as [kc|]; [|injection E as _ <-; by apply keeps_refl]. destruct (free_signal_bit _ _ _); injection E as _ <-; [|by apply keeps_refl].
    apply upd_keeps. by intros ->.
  - unfold Croi_FreeSignal. destruct (_ || _); [intros k Hk Hd; by exists k|]. apply on_current_keeps.
  - intros k Hk Hd. destruct (signal_recvd s t mask o k Hk) as (k' & Hk' & Ed & _ & Er). exists k'. split; [done|]. rewrite Ed. split; [done|]. intros _ i Hi. rewrite Er. destruct (decide _); [by rewrite Z.lor_spec, Hi|done].
  - unfold Croi_SetSignal in E. destruct (g_current s) as [c|] eqn:Ec; [|injection E as _ <-; by apply keeps_refl]. destruct (g_tasks s !! c) as [kc|]; injection E as _ <-; [|by apply keeps_refl]. apply upd_keeps. by intros ->.
  - intros k Hk Hd. unfold Sched_ReapDead. cbn [set_dead set_tasks g_tasks g_dead]. rewrite foldl_delete, decide_False by done. exists k. split; [done|]. split; [by intros ?%elem_of_nil|done].
Qed.
(** Steps of other tasks: the owner is as it was, but for more signals. *)
Lemma other_keeps o s w s' w' k : sys_step (mkSys s w) (mkSys s' w') -> g_current s <> Some o -> g_tasks s !! o = Some k -> o ∉ g_dead s ->
  w' !! o = w !! o /\ exists k', g_tasks s' !! o = Some k' /\ o ∉ g_dead s' /\ forall i, Z.testbit (tc_SigRecvd k) i = true -> Z.testbit (tc_SigRecvd k') i = true.
Proof.
  intros Hst Hne Hk Hd. assert (forall c mask, g_current s = Some c -> (forall hit, Croi_Wait mask s = WaitHit hit s' \/ Croi_Wait mask s = WaitBlock s' -> exists k', g_tasks s' !! o = Some k' /\ o ∉ g_dead s' /\ forall i, Z.testbit (tc_SigRecvd k) i = true -> Z.testbit (tc_SigRecvd k') i = true)) as Hwait.
  { intros c mask Hc hit E. assert (c <> o) as Hco by congruence. unfold Croi_Wait in E. rewrite Hc in E. destruct (mask =? 0); [destruct E as [E|E]; [injection E as _ <-; by exists k|done]|]. destruct (g_tasks s !! c) as [kc|] eqn:Ekc; [|destruct E as [E|E]; [injection E as _ <-; by exists k|done]].
    destruct (negb _); [destruct E as [E|E]; [injection E as _ <-|done]; cbn [upd g_tasks set_tasks g_dead]; rewrite lookup_alter_ne by done; by exists k|]. cbn [g_runq upd set_tasks] in E. destruct (g_runq s) as [|n rest]; [by destruct E|]. destruct E as [E|E]; [done|]. injection E as <-.
    cbn [dispatch set_current upd set_tasks set_runq set_sleepers g_tasks g_dead]. destruct (recvd_alter (alter (fun k => set_state (set_sigwait k mask) TS_WAIT) c (g_tasks s)) (fun k => set_state k TS_RUN) n o k) as (k' & Hk' & E'); [by rewrite lookup_alter_ne|done|]. exists k'. split; [done|]. split; [done|]. intros i. by rewrite E'. }
  inversion Hst as [? ? ? c Hc Hn Hop|? ? ? c Hc Hn E|? ? c mask hit ? Hc Hn Hm E|? ? c mask ? Hc Hn Hm E|? ? c mask hit ? Hc Hn E|? ? c mask ? Hc Hn E]; subst.
  - split; [done|]. destruct (plain_keeps o s s' Hop k Hk Hd) as (k' & Hk' & Hd' & Hb). exists k'. split; [done|]. split; [done|]. by apply Hb.
  - split; [done|]. unfold Croi_TaskExit in E. rewrite Hc in E. cbn [g_runq upd set_tasks set_dead] in E. destruct (g_runq s) as [|n rest]; [done|]. injection E as <-. assert (c <> o) as Hco by congruence. cbn [dispatch set_current upd set_tasks set_runq set_dead g_tasks g_dead].
    destruct (recvd_alter (alter (fun k => set_state k TS_REMOVED) c (g_tasks s)) (fun k => set_state k TS_RUN) n o k) as (k' & Hk' & E'); [by rewrite lookup_alter_ne|done|]. exists k'. split; [done|]. split; [intros [?|Hi%list_elem_of_singleton]%elem_of_app; [done|congruence]|]. intros i. by rewrite E'.
  - split; [done|]. by apply (Hwait c mask Hc hit); left.
  - split; [apply lookup_insert_ne; congruence|]. by apply (Hwait c mask Hc 0); right.
  - split; [apply lookup_delete_ne; congruence|]. by apply (Hwait c mask Hc hit); left.
  - split; [done|]. by apply (Hwait c mask Hc 0); right.
Qed.

(** ** The port *)

Definition pending (s : Sched) (o bit : Z) : Prop := exists k, g_tasks s !! o = Some k /\ Z.testbit (tc_SigRecvd k) bit = true.
(** The port holds the messages of [q]; unless its owner is up and at it, a port with messages has its signal pending. *)
Record use_inv (p o bit : Z) (u : use) (q : list RingSlot) : Prop := {
  ui_port : exists port nt, i_ports (u_ipc u) !! p = Some port /\ port_owner port = o /\ port_signal_bit port = bit /\ r_capacity (port_ring port) = CARA_PORT_RING_CAP /\ holds (port_ring port) nt q;
  ui_bit : p <> 0 /\ 0 <= bit < 32;
  ui_hist : u_got u ++ map rs_payload q = u_sent u /\ Forall (fun x => rs_payload x <> 0) q;
  ui_sys : sys_ok (mkSys (i_sched (u_ipc u)) (u_waiting u));
  ui_live : is_Some (g_tasks (i_sched (u_ipc u)) !! o) /\ o ∉ g_dead (i_sched (u_ipc u));
  ui_signal : u_awake u = false -> q <> [] -> pending (i_sched (u_ipc u)) o bit;
  ui_wait : forall m, u_waiting u !! o = Some m -> u_awake u = false /\ m = u32 (Z.shiftl 1 bit)
}.
Section Use.
Context (p o bit : Z).
Lemma put_slot_spec w port nt q m mm : i_ports w !! p = Some port -> holds (port_ring port) nt q -> p <> 0 -> m <> 0 -> i_msgs w !! m = Some mm ->
  let x := Ring.mkSlot NT_MESSAGE (mn_Length mm) m 0 in exists r, holds r nt (if bool_decide (Z.of_nat (length q) < r_capacity (port_ring port)) then q ++ [x] else q) /\ r_capacity r = r_capacity (port_ring port) /\
  takes w p = bool_decide (Z.of_nat (length q) < r_capacity (port_ring port)) /\
  Croi_PutMsg_Impl p m w = (if bool_decide (Z.of_nat (length q) < r_capacity (port_ring port)) then
     let w' := with_ports (<[p := set_ring r port]> (i_ports w)) w in if bool_decide (q = []) then with_sched (Croi_Signal (Some (port_owner port)) (port_mask port) (i_sched w)) w' else w' else w).
Proof.
  intros Hp Hh Hp0 Hm Hmm x. destruct (ring_ops_fifo _ _ _ x Hh) as ((r & E & _ & Hr) & _ & _ & Hfull). exists r. split; [done|]. assert (r_capacity r = r_capacity (port_ring port)) as Hcap.
  { unfold Ring_Enqueue in E. destruct (_ <=? _); by injection E as _ _ <-. }
  split; [done|]. split; [unfold takes; rewrite Hp, Hfull; pose proof (h_size _ _ _ Hh); destruct (bool_decide_reflect (Z.of_nat (length q) = r_capacity (port_ring port))), (bool_decide_reflect (Z.of_nat (length q) < r_capacity (port_ring port))); try done; lia|].
  unfold Croi_PutMsg_Impl, Croi_PutMsg. rewrite (proj2 (Z.eqb_neq p 0)), (proj2 (Z.eqb_neq m 0)) by done. cbn [orb]. rewrite Hmm, Hp. fold x. rewrite E. destruct (bool_decide (Z.of_nat (length q) < _)); cbn [negb snd]; [|done]. by destruct (bool_decide (q = [])).
Qed.
Lemma signal_pending s k mask : g_tasks s !! o = Some k -> Z.testbit mask bit = true -> pending (Croi_Signal (Some o) mask s) o bit.
Proof. intros Hk Hb. destruct (signal_recvd s o mask o k Hk) as (k' & Hk' & _ & _ & E). exists k'. split; [done|]. rewrite E, decide_True by done. by rewrite Z.lor_spec, Hb, orb_true_r. Qed.
Lemma put_inv w wt aw sent got q c m : use_inv p o bit (mkUse w wt aw sent got) q -> Sched_Current (i_sched w) = Some c -> wt !! c = None -> m <> 0 -> is_Some (i_msgs w !! m) ->
  exists q', use_inv p o bit (mkUse (Croi_PutMsg_Impl p m w) wt aw (if takes w p then sent ++ [m] else sent) got) q'.
Proof.
  intros [(port & nt & Hp & Ho & Hbit & Hcap & Hh) [Hp0 Hb] [Hh1 Hh2] Hsys [[k Hk] Hd] Hsig Hw] Hc Hwc Hm [mm Hmm]. cbn [u_ipc u_waiting u_awake u_sent u_got] in *. destruct (put_slot_spec w port nt q m mm Hp Hh Hp0 Hm Hmm) as (r & Hr & Hrc & -> & ->).
  destruct (bool_decide_reflect (Z.of_nat (length q) < r_capacity (port_ring port))) as [Hlt|Hge]; [|exists q; split; cbn [u_ipc u_waiting u_awake u_sent u_got]; [exists port, nt; done|done|done|done|by split; [eexists|]|done|done]].
  exists (q ++ [Ring.mkSlot NT_MESSAGE (mn_Length mm) m 0]). destruct (mask_pos bit Hb) as (Hmu & Hm0 & Hmb). assert (port_mask port = u32 (Z.shiftl 1 bit)) as Hpm by (unfold port_mask; by rewrite Hbit). cbn zeta.
  assert (forall s', sys_ok (mkSys s' wt) -> is_Some (g_tasks s' !! o) -> o ∉ g_dead s' -> (aw = false -> pending s' o bit) ->
    use_inv p o bit (mkUse (with_sched s' (with_ports (<[p := set_ring r port]> (i_ports w)) w)) wt aw (sent ++ [m]) got) (q ++ [Ring.mkSlot NT_MESSAGE (mn_Length mm) m 0])) as Hgen.
  { intros s' Hs' Hl' Hd' Hp'. split; cbn [u_ipc u_waiting u_awake u_sent u_got with_sched with_ports i_ports i_sched]; [|done| |done|done|by intros Ha _; apply Hp'|done].
    - exists (set_ring r port), nt. rewrite lookup_insert_eq. cbn [set_ring port_owner port_signal_bit port_ring]. split_and!; [done|done|done|congruence|done].
    - rewrite map_app, app_assoc, Hh1. split; [done|]. apply Forall_app. by split; [|repeat constructor]. }
  destruct (bool_decide_reflect (q = [])) as [->|Hq].
  - rewrite Ho, Hpm. destruct (signal_recvd (i_sched w) o (u32 (Z.shiftl 1 bit)) o k Hk) as (k' & Hk' & Ed & _ & _). apply Hgen; [|by eexists|by rewrite Ed|intros _; by apply (signal_pending _ k)].
    destruct Hsys as [Hs Hwt]. split; [eapply plain_op_ok; [exact Hs|]; apply op_signal; [by eexists|done]|]. eapply plain_op_waits; [exact Hs|exact Hwt|exact Hc|exact Hwc|]. apply op_signal; [by eexists|done].
  - apply Hgen; [done|by eexists|done|]. intros Ha. by apply Hsig.
Qed.
Lemma get_inv w wt aw sent got q m w' : use_inv p o bit (mkUse w wt aw sent got) q -> wt !! o = None -> Croi_GetMsg_Impl p w = (m, w') ->
  exists q', use_inv p o bit (if m =? 0 then mkUse w' wt false sent got else mkUse w' wt aw sent (got ++ [m])) q'.
Proof.
  intros [(port & nt & Hp & Ho & Hbit & Hcap & Hh) [Hp0 Hb] [Hh1 Hh2] Hsys [[k Hk] Hd] Hsig Hw] Hwo E. cbn [u_ipc u_waiting u_awake u_sent u_got] in *. destruct (dequeue_spec _ _ _ Hh) as (r & nt' & Er & Hr). unfold Croi_GetMsg_Impl, Croi_GetMsg in E. rewrite (proj2 (Z.eqb_neq p 0)) in E by done.
  rewrite Hp, Er in E. assert (r_capacity r = r_capacity (port_ring port)) as Hrc by (unfold Ring_Dequeue in Er; destruct (_ =? _); by injection Er as _ <-).
  assert (forall x l, l = tail q -> got ++ x ++ map rs_payload l = sent -> forall aw', (aw' = false -> l <> [] -> pending (i_sched w) o bit) -> use_inv p o bit (mkUse (with_ports (<[p := set_ring r port]> (i_ports w)) w) wt aw' sent (got ++ x)) l) as Hgen.
  { intros x l -> Hx aw' Hs. split; cbn [u_ipc u_waiting u_awake u_sent u_got with_ports i_ports i_sched]; [|done| |done|by split; [eexists|]|done|intros m' Hm'; congruence].
    - exists (set_ring r port), nt'. rewrite lookup_insert_eq. cbn [set_ring port_owner port_signal_bit port_ring]. split_and!; [done|done|done|congruence|done].
    - split; [by rewrite <- app_assoc|]. by destruct Hh2. }
  destruct q as [|x q]; cbn [head] in E; injection E as <- <-.
  - cbn [Z.eqb]. exists []. rewrite <- (app_nil_r got). apply (Hgen [] []); [done|by rewrite app_nil_l|done].
  - apply Forall_cons in Hh2 as [Hx _]. rewrite (proj2 (Z.eqb_neq _ 0)) by done. exists q. apply (Hgen [rs_payload x] q); [done|done|]. intros Ha _. by apply Hsig.
Qed.
Lemma wait_port_eq w wt aw sent got q : use_inv p o bit (mkUse w wt aw sent got) q -> Croi_WaitPort_Impl p w = Croi_Wait (u32 (Z.shiftl 1 bit)) (i_sched w).
Proof.
  intros [(port & nt & Hp & Ho & Hbit & _) [Hp0 Hb] _ _ _ _ _]. cbn [u_ipc] in Hp. unfold Croi_WaitPort_Impl, Croi_WaitPort. rewrite (proj2 (Z.eqb_neq p 0)) by done. rewrite Hp. unfold port_mask. by rewrite Hbit.
Qed.
Lemma with_sched_inv w wt aw sent got q s' wt' aw' : use_inv p o bit (mkUse w wt aw sent got) q -> sys_ok (mkSys s' wt') -> is_Some (g_tasks s' !! o) -> o ∉ g_dead s' ->
  (aw' = false -> q <> [] -> pending s' o bit) -> (forall m, wt' !! o = Some m -> aw' = false /\ m = u32 (Z.shiftl 1 bit)) -> use_inv p o bit (mkUse (with_sched s' w) wt' aw' sent got) q.
Proof. intros [Hp Hb Hh _ _ _ _] Hs Hl Hd Hsig Hw. by split. Qed.
Lemma wait_task s mask : g_current s = Some o -> is_Some (g_tasks s !! o) -> o ∉ g_dead s -> forall s', (exists hit, Croi_Wait mask s = WaitHit hit s') \/ Croi_Wait mask s = WaitBlock s' -> is_Some (g_tasks s' !! o) /\ o ∉ g_dead s'.
Proof.
  intros Hc [k Hk] Hd s' E. unfold Croi_Wait in E. rewrite Hc in E. destruct (mask =? 0); [destruct E as [[h E]|E]; [injection E as _ <-; by split; [eexists|]|done]|]. rewrite Hk in E. destruct (negb _).
  - destruct E as [[h E]|E]; [injection E as _ <-|done]. cbn [upd g_tasks set_tasks g_dead]. split; [apply alter_exists; by eexists|done].
  - cbn [g_runq upd set_tasks] in E. destruct (g_runq s) as [|n rest]; [by destruct E as [[h E]|E]|]. destruct E as [[h E]|E]; [done|]. injection E as <-. cbn [dispatch set_current upd set_tasks set_runq set_sleepers g_tasks g_dead]. split; [do 2 apply alter_exists; by eexists|done].
Qed.
Lemma wait_block_empty s s' : 0 <= bit < 32 -> g_current s = Some o -> Croi_Wait (u32 (Z.shiftl 1 bit)) s = WaitBlock s' -> ~ pending s o bit.
Proof.
  intros Hb Hc E (k & Hk & Ht). unfold Croi_Wait in E. rewrite Hc, (proj2 (Z.eqb_neq _ 0)), Hk in E by apply (mask_pos bit Hb). rewrite (bit_mask_test bit _ Hb), Ht in E. done.
Qed.
Lemma pending_hit s : 0 <= bit < 32 -> g_current s = Some o -> pending s o bit -> exists hit s', Croi_Wait (u32 (Z.shiftl 1 bit)) s = WaitHit hit s' /\ Z.testbit hit bit = true.
Proof.
  intros Hb Hc (k & Hk & Ht). unfold Croi_Wait. rewrite Hc, (proj2 (Z.eqb_neq _ 0)), Hk by apply (mask_pos bit Hb). rewrite (bit_mask_test bit _ Hb), Ht. cbn [negb]. eexists _, _. split; [done|]. rewrite Z.land_spec, Ht. by rewrite (proj2 (proj2 (mask_pos bit Hb))).
Qed.
Lemma use_step_inv u u' q : use_inv p o bit u q -> use_step p o bit u u' -> exists q', use_inv p o bit u' q'.
Proof.
  intros Hi Hst. destruct Hst as [w wt aw sent got c m Hc Hwc Hm Hmm|w wt aw sent got m w' Hc Hwo E|w wt sent got hit s' Hc Hwo E|w wt sent got s' Hc Hwo E|w wt aw sent got hit s' Hc Hwo E|w w' wt wt' aw sent got Hc Hp Hs|w w' wt aw sent got Hc Hwo Hp Hop Hks].
  - by apply (put_inv w wt aw sent got q c m).
  - by apply (get_inv w wt aw sent got q m w').
  - rewrite (wait_port_eq _ _ _ _ _ _ Hi) in E. pose proof Hi as [_ [_ Hb] _ Hsys [Hl Hd] _ _]. cbn [u_ipc u_waiting] in *. destruct (wait_task _ (u32 (Z.shiftl 1 bit)) Hc Hl Hd s') as [Hl' Hd']; [left; by eexists|]. exists q. eapply with_sched_inv; [exact Hi| |done|done|done|intros m Hm; congruence].
    eapply sys_step_ok; [exact Hsys|]. eapply y_wait_hit; [exact Hc|exact Hwo|apply (mask_pos bit Hb)|exact E].
  - rewrite (wait_port_eq _ _ _ _ _ _ Hi) in E. pose proof Hi as [_ [_ Hb] _ Hsys [Hl Hd] Hsig _]. cbn [u_ipc u_waiting u_awake] in *. destruct (wait_task _ (u32 (Z.shiftl 1 bit)) Hc Hl Hd s') as [Hl' Hd']; [by right|]. pose proof (wait_block_empty _ _ Hb Hc E) as Hnp.
    assert (q = []) as -> by (destruct q; [done|]; exfalso; apply Hnp; by apply Hsig). exists []. eapply with_sched_inv; [exact Hi| |done|done|done|].
    + eapply sys_step_ok; [exact Hsys|]. eapply y_wait_block; [exact Hc|exact Hwo|apply (mask_pos bit Hb)|exact E].
    + intros m. rewrite lookup_insert_eq. by intros [= <-].
  - rewrite (wait_port_eq _ _ _ _ _ _ Hi) in E. pose proof Hi as [_ [_ Hb] _ Hsys [Hl Hd] _ _]. cbn [u_ipc u_waiting] in *. destruct (wait_task _ (u32 (Z.shiftl 1 bit)) Hc Hl Hd s') as [Hl' Hd']; [left; by eexists|]. exists q. eapply with_sched_inv; [exact Hi| |done|done|done|intros m Hm; by rewrite lookup_delete_eq in Hm].
    eapply sys_step_ok; [exact Hsys|]. eapply y_resume_hit; [exact Hc|exact Hwo|exact E].
  - exists q. destruct Hi as [(port & nt & Hport) Hb Hh Hsys [[k Hk] Hd] Hsig Hw]. cbn [u_ipc u_waiting u_awake u_sent u_got] in *. destruct (other_keeps o _ _ _ _ k Hs Hc Hk Hd) as (Ew & k' & Hk' & Hd' & Hbits).
    split; cbn [u_ipc u_waiting u_awake u_sent u_got]; [exists port, nt; by rewrite Hp|done|done|by eapply sys_step_ok|split; [by eexists|done]| |by rewrite Ew]. intros Ha Hq. destruct (Hsig Ha Hq) as (k0 & Hk0 & Ht). exists k'. split; [done|]. apply Hbits. congruence.
  - exists q. destruct Hi as [(port & nt & Hport) Hb Hh Hsys [[k Hk] Hd] Hsig Hw]. cbn [u_ipc u_waiting u_awake u_sent u_got] in *. destruct (plain_keeps o _ _ Hop k Hk Hd) as (k' & Hk' & Hd' & _).
    split; cbn [u_ipc u_waiting u_awake u_sent u_got]; [exists port, nt; by rewrite Hp|done|done| |split; [by eexists|done]| |done].
    + eapply sys_step_ok; [exact Hsys|]. eapply y_plain; [exact Hc|exact Hwo|exact Hop].
    + intros Ha Hq. destruct (Hsig Ha Hq) as (k0 & Hk0 & Ht). by apply (Hks k0).
Qed.
Lemma use_steps_inv u u' q : use_inv p o bit u q -> rtc (use_step p o bit) u u' -> exists q', use_inv p o bit u' q'.
Proof. intros Hi Hr. revert q Hi. induction Hr as [|u1 u2 u3 H1 _ IH]; intros q Hi; [by exists q|]. destruct (use_step_inv _ _ _ Hi H1) as [q' Hi']. by apply (IH q'). Qed.
End Use.

Lemma free_signal_range n b alloc r : free_signal_bit n b alloc = Some r -> b <= r < b + Z.of_nat n.
Proof. revert b. induction n as [|n IH]; intros b E; [done|]. cbn [free_signal_bit] in E. destruct (_ =? _); [injection E as <-; lia|]. apply IH in E. lia. Qed.
Lemma alloc_signal_spec s c sig s' : sched_ok s -> g_current s = Some c -> Croi_AllocSignal s = (sig, s') -> 0 <= sig -> 16 <= sig < 32 /\ g_current s' = Some c /\ is_Some (g_tasks s' !! c) /\ c ∉ g_dead s'.
Proof.
  intros (_ & c' & Hc' & Hk) Hc E Hs. replace c' with c in * by congruence. unfold Croi_AllocSignal in E. rewrite Hc in E. destruct (k_exists _ _ _ _ _ Hk c ltac:(left)) as [k Ek]. rewrite Ek in E. destruct (free_signal_bit _ _ _) as [b|] eqn:Eb; [|injection E as <- _; lia]. injection E as <- <-.
  apply free_signal_range in Eb. split; [lia|]. cbn [upd set_tasks g_current g_tasks g_dead]. split; [done|]. split; [apply alter_exists; by eexists|]. pose proof (k_nodup _ _ _ _ _ Hk) as N. apply NoDup_cons in N as [N _]. rewrite !elem_of_app in N. tauto.
Qed.
Lemma create_inv wrapper block w wt o p w0 : sys_ok (mkSys (i_sched w) wt) -> Sched_Current (i_sched w) = Some o -> wt !! o = None -> Croi_CreateMsgPort_Impl wrapper block w = (Some p, w0) -> p <> 0 ->
  exists port, i_ports w0 !! p = Some port /\ port_owner port = o /\ 16 <= port_signal_bit port < 32 /\ mp_SigBit (port_pub port) = port_signal_bit port /\ use_inv p o (port_signal_bit port) (mkUse w0 wt false [] []) [].
Proof.
  intros Hsys Hc Hwo E Hp0. pose proof Hsys as [Hs Hw]. cbn [y_sched y_waiting] in *. unfold Croi_CreateMsgPort_Impl in E. rewrite Hc in E. destruct (Croi_AllocSignal (i_sched w)) as [sig s'] eqn:Ea. destruct (Z.ltb_spec sig 0); [done|].
  destruct (alloc_signal_spec _ _ _ _ Hs Hc Ea ltac:(lia)) as (Hr & Hc' & Hl & Hd). unfold Croi_CreateMsgPort in E. rewrite (proj2 (Z.leb_gt 32 sig)) in E by lia. change (CARA_PORT_RING_CAP =? 0) with false in E. change (negb (Z.land CARA_PORT_RING_CAP (u32 (CARA_PORT_RING_CAP - 1)) =? 0)) with false in E. cbn [orb] in E.
  destruct wrapper as [p'|]; [|done]. destruct block as [b|]; [|done]. cbn [with_kobjs with_sched i_sched i_kobjs] in E. destruct (Ring_Init _ _ _) as [r|e] eqn:Er; [|done]. apply init_inv in Er as [Hh Hcap]; [|done|vm_compute; reflexivity]. injection E as <- <-.
  eexists. cbn [with_ports with_kobjs with_sched i_ports i_sched]. rewrite lookup_insert_eq. split; [done|]. cbn [port_owner port_signal_bit port_pub mp_SigBit]. split; [done|]. split; [done|]. split; [apply u8_small; unfold in_u8; lia|].
  split; cbn [u_ipc u_waiting u_awake u_sent u_got with_ports with_kobjs with_sched i_ports i_sched]; [|split; [done|lia]|done| |done|done|intros m Hm; congruence].
  - eexists _, 0. rewrite lookup_insert_eq. split; [done|]. cbn [port_owner port_signal_bit port_ring]. done.
  - eapply sys_step_ok; [exact Hsys|]. eapply y_plain; [exact Hc|exact Hwo|]. by eapply op_alloc_signal.
Qed.

(** * Properties *)

(** C40: A message port delivers. Take any state the system can reach, and a port that a task then creates. Whatever tasks put on it, and
    however their calls, the owner's calls and everything else in the system interleave, as long as the owner waits for the port only
    after it found it empty: the messages the owner has got and those still in the port are together exactly those the
    port took, in order; the port refuses a message exactly when 32 are waiting; the owner never sleeps on a port that has messages;
    and a wait on a port that has messages returns at once. *)
Theorem msgport_delivers w wt o wrapper block p w0 u :
  reachable (mkSys (i_sched w) wt) -> Sched_Current (i_sched w) = Some o -> wt !! o = None -> Croi_CreateMsgPort_Impl wrapper block w = (Some p, w0) -> p <> 0 ->
  exists port, i_ports w0 !! p = Some port /\ port_owner port = o /\ 16 <= port_signal_bit port < 32 /\
  (rtc (use_step p o (port_signal_bit port)) (mkUse w0 wt false [] []) u ->
   exists waiting, u_got u ++ waiting = u_sent u /\ takes (u_ipc u) p = bool_decide (length waiting < 32)%nat /\
     (o ∈ g_sleepers (i_sched (u_ipc u)) -> waiting = []) /\
     (Sched_Current (i_sched (u_ipc u)) = Some o -> u_awake u = false -> waiting <> [] -> exists hit s', Croi_WaitPort_Impl p (u_ipc u) = WaitHit hit s' /\ Z.testbit hit (port_signal_bit port) = true)).
Proof.
  intros Hreach Hc Hwo E Hp0. destruct (create_inv wrapper block w wt o p w0 (reachable_ok _ Hreach) Hc Hwo E Hp0) as (port & Hp & Ho & Hb & _ & Hi). exists port. split; [done|]. split; [done|]. split; [done|]. intros Hr.
  destruct (use_steps_inv _ _ _ _ _ _ Hi Hr) as [q Hq]. pose proof Hq as [(port' & nt & Hp' & _ & _ & Hcap & Hh) _ [Hhist _] [Hs Hw] [[k Hk] Hd] Hsig Hwait]. destruct u as [w' wt' aw sent got]. cbn [u_ipc u_waiting u_awake u_sent u_got y_sched y_waiting] in *.
  exists (map rs_payload q). split; [done|]. split; [|split].
  - unfold takes. rewrite Hp'. destruct (ring_ops_fifo _ _ _ inhabitant Hh) as (_ & _ & _ & ->). rewrite Hcap, length_map. pose proof (h_size _ _ _ Hh) as Hsz. rewrite Hcap in Hsz. unfold CARA_PORT_RING_CAP in *. destruct (bool_decide_reflect (Z.of_nat (length q) = 32)), (bool_decide_reflect (length q < 32)%nat); try done; lia.
  - intros Hsl. destruct Hw as [W1 W2]. destruct (W1 o Hsl) as [m Hm]. destruct (Hwait m Hm) as [-> ->]. destruct (W2 o _ Hm) as (_ & k' & Hk' & Hcase). destruct q as [|x q]; [done|]. exfalso. destruct (Hsig eq_refl ltac:(done)) as (k0 & Hk0 & Ht).
    destruct Hs as (_ & c & Hcur & Hsok). pose proof (k_placed _ _ _ _ _ Hsok o k Hk) as Hpl. assert (tc_State k = TS_WAIT /\ Z.land (tc_SigRecvd k) (tc_SigWait k) = 0) as [_ Hz].
    { pose proof (k_nodup _ _ _ _ _ Hsok) as N. destruct Hpl as [[-> _]|[[Hr' _]|[(_ & H1 & H2 & _)|[Hd' _]]]]; [|exfalso|done|done].
      - exfalso. apply NoDup_cons in N as [N _]. apply N. rewrite !elem_of_app. tauto.
      - apply NoDup_cons in N as [_ N]. apply NoDup_app in N as (_ & N & _). apply (N o Hr'). apply elem_of_app. by left. }
    assert (tc_SigWait k = u32 (Z.shiftl 1 (port_signal_bit port))) as Hwm.
    { destruct Hcase as [[_ Hx]|[[Hr'|Hcu] _]]; [congruence| |]; exfalso; pose proof (k_nodup _ _ _ _ _ Hsok) as N.
      - apply NoDup_cons in N as [_ N]. apply NoDup_app in N as (_ & N & _). apply (N o Hr'). apply elem_of_app. by left.
      - rewrite Hcur in Hcu. injection Hcu as ->. apply NoDup_cons in N as [N _]. apply N. rewrite !elem_of_app. tauto. }
    rewrite Hwm in Hz. apply Z.eqb_eq in Hz. rewrite bit_mask_test in Hz by lia. replace k with k0 in Hz by congruence. by rewrite Ht in Hz.
  - intros Hcur -> Hne. rewrite (wait_port_eq _ _ _ _ _ _ _ _ _ Hq). apply (pending_hit o); [lia|done|]. apply Hsig; [done|]. by destruct q.
Qed.

Module MsgPortExample.
(** Task 1 makes a port and waits for it; task 2 puts a message on it. *)
Definition msgs : gmap Z Message := {[ 0x2000 := mkMessage NT_MESSAGE 0 32; 0x3000 := mkMessage NT_MESSAGE 0 32 ]}.
Definition before_port : Ipc := mkIpc SchedExample.s2 ∅ msgs (mkKstate ∅ 1 []).
Definition made : Ipc := snd (Croi_CreateMsgPort_Impl (Some 0x1000) (Some 0x1100) before_port).
Definition slept : Ipc := with_sched (match Croi_WaitPort_Impl 0x1000 made with WaitBlock s => s | WaitHit _ s | WaitHalt s => s end) made.
Definition put1 : Ipc := Croi_PutMsg_Impl 0x1000 0x2000 slept.
Definition u1 : use := mkUse put1 (<[1 := u32 (Z.shiftl 1 16)]> ∅) false [0x2000] [].
Lemma s2_reachable : reachable (mkSys SchedExample.s2 ∅).
Proof. exists 1. apply rtc_once. exact SchedExample.s2_step. Qed.
Lemma port_made : Croi_CreateMsgPort_Impl (Some 0x1000) (Some 0x1100) before_port = (Some 0x1000, made).
Proof. unfold made. vm_compute. reflexivity. Qed.
Lemma port_used : rtc (use_step 0x1000 1 16) (mkUse made ∅ false [] []) u1.
Proof.
  apply (rtc_l _ _ (mkUse slept (<[1 := u32 (Z.shiftl 1 16)]> ∅) false [] [])).
  - apply us_block; [vm_compute; reflexivity|reflexivity|]. unfold slept. vm_compute. reflexivity.
  - apply rtc_once. apply (us_put 0x1000 1 16 slept _ false [] [] 2 0x2000); [vm_compute; reflexivity|vm_compute; reflexivity|done|]. exists (mkMessage NT_MESSAGE 0 32). vm_compute. reflexivity.
Qed.
Lemma msgport_delivers_witness : exists waiting, u_got u1 ++ waiting = [0x2000] /\ takes (u_ipc u1) 0x1000 = bool_decide (length waiting < 32)%nat.
Proof.
  destruct (msgport_delivers before_port ∅ 1 (Some 0x1000) (Some 0x1100) 0x1000 made u1 s2_reachable) as (port & Hp & _ & _ & H); [vm_compute; reflexivity|reflexivity|apply port_made|lia|].
  assert (port_signal_bit port = 16) as E by (vm_compute in Hp; injection Hp as <-; reflexivity). rewrite E in H. destruct (H port_used) as (waiting & H1 & H2 & _). exists waiting. split; [exact H1|exact H2].
Defined.
(** The signal is taken by the first wait: an owner that gets only one of two messages and waits again sleeps, with a message in the port. *)
Definition put2 : Ipc := Croi_PutMsg_Impl 0x1000 0x3000 put1.
Definition woken : Ipc := let w := with_sched (Croi_Yield (i_sched put2)) put2 in with_sched (match Croi_WaitPort_Impl 0x1000 w with WaitHit _ s => s | WaitBlock s | WaitHalt s => s end) w.
Lemma wait_port_sleeps_on_messages : exists w s, Croi_GetMsg_Impl 0x1000 woken = (0x2000, w) /\ Croi_WaitPort_Impl 0x1000 w = WaitBlock s /\ 1 ∈ g_sleepers s /\ fst (Croi_GetMsg_Impl 0x1000 (with_sched s w)) = 0x3000.
Proof.
  exists (snd (Croi_GetMsg_Impl 0x1000 woken)). eexists. split; [vm_compute; reflexivity|]. split; [vm_compute; reflexivity|]. split; [left|vm_compute; reflexivity].
Qed.
End MsgPortExample.
