(* ===== verification/Fdt.v ===== *)
(** The device tree parser ([src/croi/fdt/fdt.c], [fdt_props.c], [fdt_path.c], [include/cara/fdt.h]). The
    blob is a list of bytes; a read outside of it is a fault. Every function is shown to end without a fault
    on any blob that [Fdt_Open] accepts, and to decode the trees that the format encodes. *)

From Stdlib Require Import String Ascii.
From S2P Require Import Prelude.
#[local] Close Scope string_scope.
#[local] Open Scope Z_scope.

(** * Reading the blob *)

(** [None]: the code has read outside the blob, or has not ended. *)
Definition fd (A : Type) : Type := option (result A).
#[global] Instance fd_ret : MRet fd := fun A a => Some (Ok a).
#[global] Instance fd_bind : MBind fd := fun A B f c => match c with None => None | Some (Err e) => Some (Err e) | Some (Ok a) => f a end.
Definition fd_err {A} (e : Z) : fd A := Some (Err e).
(** Continue with the outcome of a call, whatever it is. *)
Definition fd_case {A B} (c : fd A) (f : result A -> fd B) : fd B := match c with None => None | Some r => f r end.
Definition fd_read {A} (o : option A) : fd A := match o with None => None | Some a => Some (Ok a) end.
Notation "'check!' b 'else' e ; k" := (if b then k else fd_err e) (at level 200, b at level 99, e at level 99, k at level 200, right associativity).

Definition byte_at (blob : list Z) (i : Z) : option Z := if 0 <=? i then blob !! Z.to_nat i else None.
Definition fdt_be32 (blob : list Z) (p : Z) : fd Z :=
  b0 ← fd_read (byte_at blob p); b1 ← fd_read (byte_at blob (p + 1)); b2 ← fd_read (byte_at blob (p + 2)); b3 ← fd_read (byte_at blob (p + 3));
  mret (Z.lor (Z.lor (Z.lor (Z.shiftl b0 24) (Z.shiftl b1 16)) (Z.shiftl b2 8)) b3).
Definition fdt_be64 (blob : list Z) (p : Z) : fd Z := hi ← fdt_be32 blob p; lo ← fdt_be32 blob (p + 4); mret (Z.lor (Z.shiftl hi 32) lo).
Definition fdt_align4 (x : Z) : Z := Z.land (u32 (x + 3)) (not32 3).

(** * The code *)

Definition FDT_MAGIC : Z := 0xD00DFEED.
Definition FDT_BEGIN_NODE : Z := 1.
Definition FDT_END_NODE : Z := 2.
Definition FDT_PROP : Z := 3.
Definition FDT_NOP : Z := 4.
Definition FDT_END : Z := 9.
Definition FDT_REQUIRED_VERSION : Z := 17.
Definition FDT_MAX_LAST_COMP : Z := 16.
Definition FdtRawHeader_size : Z := 40.

Record Fdt := mkFdt { blob : list Z; totalsize : Z; off_struct : Z; size_struct : Z; off_strings : Z; size_strings : Z; off_rsvmap : Z; version : Z; boot_cpuid_phys : Z }.

(** The address of the blob (0 for null) and the memory from there on. *)
Definition Fdt_Open (addr : Z) (bytes : list Z) : fd Fdt :=
  check! negb (addr =? 0) else CARA_EINVAL;
  check! Z.land addr 3 =? 0 else CARA_EINVAL;
  magic ← fdt_be32 bytes 0;
  totalsize ← fdt_be32 bytes 4;
  off_struct ← fdt_be32 bytes 8;
  off_strings ← fdt_be32 bytes 12;
  off_rsvmap ← fdt_be32 bytes 16;
  version ← fdt_be32 bytes 20;
  last_comp ← fdt_be32 bytes 24;
  boot_cpu ← fdt_be32 bytes 28;
  size_strings ← fdt_be32 bytes 32;
  size_struct ← fdt_be32 bytes 36;
  check! magic =? FDT_MAGIC else CARA_EBADMAGIC;
  check! negb (version <? FDT_REQUIRED_VERSION) else CARA_EBADVERSION;
  check! negb (FDT_MAX_LAST_COMP <? last_comp) else CARA_EBADVERSION;
  check! negb (totalsize <? FdtRawHeader_size) else CARA_EINVAL;
  check! negb ((totalsize <? off_struct) || (u32 (totalsize - off_struct) <? size_struct)) else CARA_ERANGE;
  check! negb ((totalsize <? off_strings) || (u32 (totalsize - off_strings) <? size_strings)) else CARA_ERANGE;
  check! negb (totalsize <? off_rsvmap) else CARA_ERANGE;
  check! negb (negb (Z.land off_struct 3 =? 0) || (size_struct <? 4)) else CARA_ERANGE;
  check! negb (negb (Z.land off_rsvmap 7 =? 0) || (totalsize <? u32 (off_rsvmap + 16))) else CARA_ERANGE;
  mret (mkFdt bytes totalsize off_struct size_struct off_strings size_strings off_rsvmap version boot_cpu).

(** The first [i] from [i] on with [payload + i] past the end or at a NUL. *)
Fixpoint name_end (fuel : nat) (fdt : Fdt) (payload i : Z) : fd Z :=
  match fuel with
  | O => None
  | S fuel =>
      if u32 (payload + i) <? size_struct fdt then
        c ← fd_read (byte_at (blob fdt) (off_struct fdt + u32 (payload + i)));
        if negb (c =? 0) then name_end fuel fdt payload (u32 (i + 1)) else mret i
      else mret i
  end.
Definition struct_steps (fdt : Fdt) : nat := S (Z.to_nat (size_struct fdt)).
(** Token, payload and the offset of the next token. *)
Definition fdt_read_token (fdt : Fdt) (off : Z) : fd (Z * Z * Z) :=
  check! negb ((size_struct fdt <? off) || (u32 (size_struct fdt - off) <? 4)) else CARA_ERANGE;
  check! Z.land off 3 =? 0 else CARA_EINVAL;
  token ← fdt_be32 (blob fdt) (off_struct fdt + off);
  let payload := u32 (off + 4) in
  if token =? FDT_BEGIN_NODE then
    i ← name_end (struct_steps fdt) fdt payload 0;
    check! negb (size_struct fdt <=? u32 (payload + i)) else CARA_ERANGE;
    let next := fdt_align4 (u32 (u32 (payload + i) + 1)) in
    check! negb (size_struct fdt <? next) else CARA_ERANGE;
    mret (token, payload, next)
  else if token =? FDT_PROP then
    check! negb (u32 (size_struct fdt - payload) <? 8) else CARA_ERANGE;
    len ← fdt_be32 (blob fdt) (off_struct fdt + payload);
    let data_off := u32 (payload + 8) in
    let padded := fdt_align4 len in
    check! negb (padded <? len) else CARA_EOVERFLOW;
    check! negb ((size_struct fdt <? data_off) || (u32 (size_struct fdt - data_off) <? padded)) else CARA_ERANGE;
    mret (token, payload, u32 (data_off + padded))
  else if (token =? FDT_END_NODE) || (token =? FDT_NOP) || (token =? FDT_END) then mret (token, payload, payload)
  else fd_err CARA_EINVAL.

Fixpoint skip_from (fuel : nat) (fdt : Fdt) (off depth : Z) : fd Z :=
  match fuel with
  | O => None
  | S fuel =>
      if 0 <? depth then
        '(token, _, next) ← fdt_read_token fdt off;
        if token =? FDT_BEGIN_NODE then skip_from fuel fdt next (depth + 1)
        else if token =? FDT_END_NODE then skip_from fuel fdt next (depth - 1)
        else if token =? FDT_END then fd_err CARA_ERANGE
        else skip_from fuel fdt next depth
      else mret off
  end.
Definition fdt_skip_node (fdt : Fdt) (node_off : Z) : fd Z :=
  '(token, _, next) ← fdt_read_token fdt node_off;
  check! token =? FDT_BEGIN_NODE else CARA_EINVAL;
  skip_from (struct_steps fdt) fdt next 1.

(** The scan for the NUL from [i] on. *)
Fixpoint nul_from (fuel : nat) (fdt : Fdt) (i : Z) : fd bool :=
  match fuel with
  | O => None
  | S fuel =>
      if i <? size_strings fdt then
        c ← fd_read (byte_at (blob fdt) (off_strings fdt + i));
        if c =? 0 then mret true else nul_from fuel fdt (u32 (i + 1))
      else mret false
  end.
(** The string as its place in the blob, or null. *)
Definition fdt_strings_get (fdt : Fdt) (nameoff : Z) : fd (option Z) :=
  if size_strings fdt <=? nameoff then mret None
  else
    b ← nul_from (S (Z.to_nat (size_strings fdt))) fdt nameoff;
    mret (if b : bool then Some (off_strings fdt + nameoff) else None).

Fixpoint root_from (fuel : nat) (fdt : Fdt) (off : Z) : fd Z :=
  match fuel with
  | O => None
  | S fuel =>
      if off <? size_struct fdt then
        fd_case (fdt_read_token fdt off) (fun r =>
          match r with
          | Err _ => mret 0
          | Ok (token, _, next) => if token =? FDT_BEGIN_NODE then mret off else if negb (token =? FDT_NOP) then mret 0 else root_from fuel fdt next
          end)
      else mret 0
  end.
Definition Fdt_Root (fdt : Fdt) : fd Z := root_from (struct_steps fdt) fdt 0.
Definition Fdt_NodeName (fdt : Fdt) (node : Z) : fd (option Z) :=
  fd_case (fdt_read_token fdt node) (fun r =>
    match r with
    | Err _ => mret None
    | Ok (token, payload, _) => mret (if token =? FDT_BEGIN_NODE then Some (off_struct fdt + payload) else None)
    end).
(** Base, size and the next cursor. *)
Definition Fdt_RsvIter (fdt : Fdt) (cursor : Z) : fd (Z * Z * Z) :=
  let entry_off := u32 (off_rsvmap fdt + u32 (cursor * 16)) in
  check! negb (totalsize fdt <? u32 (entry_off + 16)) else CARA_ERANGE;
  base ← fdt_be64 (blob fdt) entry_off;
  size ← fdt_be64 (blob fdt) (entry_off + 8);
  check! negb ((base =? 0) && (size =? 0)) else CARA_ENOTFOUND;
  mret (base, size, u32 (cursor + 1)).

(** ** Properties *)

(** C strings of the code, without the NUL. *)
Definition cstr (s : string) : list Z := map (fun c => Z.of_N (N_of_ascii c)) (list_ascii_of_string s).
(** The blob's string at [a] against [b]. *)
Fixpoint fdt_strcmp (blob : list Z) (a : Z) (b : list Z) : fd Z :=
  x ← fd_read (byte_at blob a);
  match b with
  | [] => mret (x - 0)
  | y :: b => if negb (x =? 0) && negb (y =? 0) && (x =? y) then fdt_strcmp blob (a + 1) b else mret (x - y)
  end.

Fixpoint find_prop_from (fuel : nat) (fdt : Fdt) (name : list Z) (off : Z) : fd (Z * Z) :=
  match fuel with
  | O => None
  | S fuel =>
      if off <? size_struct fdt then
        '(token, payload, next) ← fdt_read_token fdt off;
        if token =? FDT_PROP then
          len ← fdt_be32 (blob fdt) (off_struct fdt + payload);
          nameoff ← fdt_be32 (blob fdt) (off_struct fdt + payload + 4);
          prop_name ← fdt_strings_get fdt nameoff;
          match prop_name with
          | None => fd_err CARA_EINVAL
          | Some s =>
              c ← fdt_strcmp (blob fdt) s name;
              if c =? 0 then mret (u32 (payload + 8), len) else find_prop_from fuel fdt name next
          end
        else if (token =? FDT_BEGIN_NODE) || (token =? FDT_END_NODE) then fd_err CARA_ENOTFOUND
        else if token =? FDT_END then fd_err CARA_ENOTFOUND
        else find_prop_from fuel fdt name next
      else fd_err CARA_ENOTFOUND
  end.
Definition fdt_find_prop (fdt : Fdt) (node_off : Z) (name : list Z) : fd (Z * Z) :=
  '(token, _, next) ← fdt_read_token fdt node_off;
  check! token =? FDT_BEGIN_NODE else CARA_EINVAL;
  find_prop_from (struct_steps fdt) fdt name next.
(** The bytes as their place in the blob, and their number. *)
Definition Fdt_PropRaw (fdt : Fdt) (node : Z) (name : list Z) : fd (Z * Z) :=
  '(data_off, len) ← fdt_find_prop fdt node name;
  mret (off_struct fdt + data_off, len).
Definition Fdt_PropU32 (fdt : Fdt) (node : Z) (name : list Z) : fd Z :=
  '(bytes, len) ← Fdt_PropRaw fdt node name;
  check! len =? 4 else CARA_EINVAL;
  fdt_be32 (blob fdt) bytes.
Definition Fdt_PropU64 (fdt : Fdt) (node : Z) (name : list Z) : fd Z :=
  '(bytes, len) ← Fdt_PropRaw fdt node name;
  check! len =? 8 else CARA_EINVAL;
  fdt_be64 (blob fdt) bytes.
Definition Fdt_PropStr (fdt : Fdt) (node : Z) (name : list Z) : fd (option Z) :=
  fd_case (Fdt_PropRaw fdt node name) (fun r =>
    match r with
    | Err _ => mret None
    | Ok (bytes, len) =>
        if len =? 0 then mret None
        else c ← fd_read (byte_at (blob fdt) (bytes + u32 (len - 1)));
             mret (if negb (c =? 0) then None else Some bytes)
    end).

Fixpoint str_end (fuel : nat) (blob : list Z) (base len i : Z) : fd Z :=
  match fuel with
  | O => None
  | S fuel => if i <? len then c ← fd_read (byte_at blob (base + i)); if negb (c =? 0) then str_end fuel blob base len (u32 (i + 1)) else mret i else mret i
  end.
(** The string and the next cursor. *)
Definition Fdt_PropStrIter (fdt : Fdt) (node : Z) (name : list Z) (cursor : Z) : fd (Z * Z) :=
  '(base, len) ← Fdt_PropRaw fdt node name;
  check! negb (len <=? cursor) else CARA_ENOTFOUND;
  last ← fd_read (byte_at (blob fdt) (base + u32 (len - 1)));
  check! last =? 0 else CARA_EINVAL;
  i ← str_end (S (Z.to_nat len)) (blob fdt) base len cursor;
  check! negb (len <=? i) else CARA_EINVAL;
  mret (base + cursor, u32 (i + 1)).
Fixpoint compatible_from (fuel : nat) (fdt : Fdt) (node : Z) (compat : list Z) (cursor : Z) : fd bool :=
  match fuel with
  | O => None
  | S fuel =>
      fd_case (Fdt_PropStrIter fdt node (cstr "compatible") cursor) (fun r =>
        match r with
        | Err _ => mret false
        | Ok (s, cursor) => c ← fdt_strcmp (blob fdt) s compat; if c =? 0 then mret true else compatible_from fuel fdt node compat cursor
        end)
  end.
Definition Fdt_NodeIsCompatible (fdt : Fdt) (node : Z) (compat : list Z) : fd bool := compatible_from (struct_steps fdt) fdt node compat 0.

Definition MAX_DEPTH : Z := 16.
(** The ancestors are a stack, the innermost first; [depth] is one less than its height. *)
Fixpoint parent_from (fuel : nat) (fdt : Fdt) (child_off off : Z) (ancestors : list Z) : fd Z :=
  match fuel with
  | O => None
  | S fuel =>
      if off <? size_struct fdt then
        '(token, _, next) ← fdt_read_token fdt off;
        if token =? FDT_BEGIN_NODE then
          if off =? child_off then match ancestors with [] => fd_err CARA_ENOTFOUND | p :: _ => mret p end
          else if MAX_DEPTH <=? Z.of_nat (length ancestors) then fd_err CARA_ERANGE
          else parent_from fuel fdt child_off next (off :: ancestors)
        else if token =? FDT_END_NODE then
          match ancestors with [] => fd_err CARA_EINVAL | _ :: ancestors => parent_from fuel fdt child_off next ancestors end
        else if token =? FDT_END then fd_err CARA_ENOTFOUND
        else parent_from fuel fdt child_off next ancestors
      else fd_err CARA_ENOTFOUND
  end.
Definition fdt_find_parent (fdt : Fdt) (child_off : Z) : fd Z := parent_from (struct_steps fdt) fdt child_off 0 [].
Definition fdt_get_parent_cells (fdt : Fdt) (node_off : Z) : fd (Z * Z) :=
  fd_case (fdt_find_parent fdt node_off) (fun r =>
    match r with
    | Err _ => mret (2, 1)
    | Ok parent =>
        fd_case (Fdt_PropU32 fdt parent (cstr "#address-cells")) (fun ra =>
        fd_case (Fdt_PropU32 fdt parent (cstr "#size-cells")) (fun rs =>
          mret (match ra with Ok v => v | Err _ => 2 end, match rs with Ok v => v | Err _ => 1 end)))
    end).
(** [n] cells from [p] on, as one number. *)
Definition cells (blob : list Z) (p : Z) (n : Z) : fd Z :=
  foldl (fun acc i => v ← acc; c ← fdt_be32 blob (p + i * 4); mret (Z.lor (u64 (Z.shiftl v 32)) c)) (mret 0 : fd Z) (seqZ 0 n).
Definition Fdt_PropReg (fdt : Fdt) (node index : Z) : fd (Z * Z) :=
  '(addr_cells, size_cells) ← fdt_get_parent_cells fdt node;
  check! negb ((addr_cells =? 0) || (2 <? addr_cells) || (2 <? size_cells)) else CARA_EINVAL;
  '(bytes, len) ← Fdt_PropRaw fdt node (cstr "reg");
  let cell_bytes := u32 (u32 (addr_cells + size_cells) * 4) in
  check! negb (cell_bytes =? 0) else CARA_EINVAL;
  check! len mod cell_bytes =? 0 else CARA_EINVAL;
  let entries := len / cell_bytes in
  check! negb (entries <=? index) else CARA_ENOTFOUND;
  let p := bytes + u32 (index * cell_bytes) in
  base ← cells (blob fdt) p addr_cells;
  size ← cells (blob fdt) (p + addr_cells * 4) size_cells;
  mret (base, size).

(** ** Navigation *)

Fixpoint fdt_segment_matches (blob : list Z) (segment : list Z) (name : Z) : fd bool :=
  x ← fd_read (byte_at blob name);
  match segment with
  | [] => mret ((x =? 0) || (x =? 64))
  | y :: segment => if negb (x =? 0) && (x =? y) then fdt_segment_matches blob segment (name + 1) else mret false
  end.
Definition fdt_node_body (fdt : Fdt) (node_off : Z) : fd Z :=
  '(token, _, next) ← fdt_read_token fdt node_off;
  check! token =? FDT_BEGIN_NODE else CARA_EINVAL;
  mret next.
(** The child and the next cursor. *)
Fixpoint child_from (fuel : nat) (fdt : Fdt) (off : Z) : fd (Z * Z) :=
  match fuel with
  | O => None
  | S fuel =>
      if off <? size_struct fdt then
        '(token, _, next) ← fdt_read_token fdt off;
        if (token =? FDT_PROP) || (token =? FDT_NOP) then child_from fuel fdt next
        else if token =? FDT_BEGIN_NODE then after ← fdt_skip_node fdt off; mret (off, after)
        else if (token =? FDT_END_NODE) || (token =? FDT_END) then fd_err CARA_ENOTFOUND
        else fd_err CARA_EINVAL
      else fd_err CARA_ENOTFOUND
  end.
Definition Fdt_ChildIter (fdt : Fdt) (parent cursor : Z) : fd (Z * Z) :=
  off ← (if cursor =? 0 then fdt_node_body fdt parent else mret cursor);
  child_from (struct_steps fdt) fdt off.
Fixpoint segment_from (fuel : nat) (fdt : Fdt) (parent : Z) (seg : list Z) (cursor : Z) : fd Z :=
  match fuel with
  | O => None
  | S fuel =>
      fd_case (Fdt_ChildIter fdt parent cursor) (fun r =>
        match r with
        | Err _ => fd_err CARA_ENOTFOUND
        | Ok (child, cursor) =>
            name ← Fdt_NodeName fdt child;
            match name with
            | None => segment_from fuel fdt parent seg cursor
            | Some s => b ← fdt_segment_matches (blob fdt) seg s; if b : bool then mret child else segment_from fuel fdt parent seg cursor
            end
        end)
  end.
Definition fdt_resolve_segment (fdt : Fdt) (parent : Z) (seg : list Z) : fd Z := segment_from (struct_steps fdt) fdt parent seg 0.
(** The path up to the next slash, and the rest. *)
Fixpoint cut_segment (path : list Z) : list Z * list Z :=
  match path with
  | [] => ([], [])
  | c :: path' => if c =? 47 then ([], path) else let '(seg, rest) := cut_segment path' in (c :: seg, rest)
  end.
Fixpoint resolve_from (fuel : nat) (fdt : Fdt) (cur : Z) (path : list Z) : fd Z :=
  match fuel with
  | O => None
  | S fuel =>
      match path with
      | [] => mret cur
      | _ =>
          let '(seg, rest) := cut_segment path in
          check! negb (Z.of_nat (length seg) =? 0) else CARA_EINVAL;
          next ← fdt_resolve_segment fdt cur seg;
          resolve_from fuel fdt next (match rest with [] => [] | _ :: rest => rest end)
      end
  end.
Definition Fdt_ResolvePath (fdt : Fdt) (path : list Z) : fd Z :=
  match path with
  | 47 :: path =>
      cur ← Fdt_Root fdt;
      match path with [] => mret cur | _ => resolve_from (S (length path)) fdt cur path end
  | _ => fd_err CARA_EINVAL
  end.
Fixpoint search_from (fuel : nat) (fdt : Fdt) (compat : list Z) (off : Z) : fd Z :=
  match fuel with
  | O => None
  | S fuel =>
      if off <? size_struct fdt then
        '(token, _, next) ← fdt_read_token fdt off;
        if token =? FDT_BEGIN_NODE then
          b ← Fdt_NodeIsCompatible fdt off compat;
          if b : bool then mret off else search_from fuel fdt compat next
        else if token =? FDT_END then fd_err CARA_ENOTFOUND
        else search_from fuel fdt compat next
      else fd_err CARA_ENOTFOUND
  end.
Definition Fdt_FindByCompatible (fdt : Fdt) (compat : list Z) (start : Z) : fd Z :=
  off ← (if start =? 0 then mret 0 else fdt_skip_node fdt start);
  search_from (struct_steps fdt) fdt compat off.

(** * Safety *)

(** The computation ends without a fault; when it succeeds its result satisfies [P]. *)
Definition runs {A} (c : fd A) (P : A -> Prop) : Prop := exists r, c = Some r /\ forall a, r = Ok a -> P a.
Lemma runs_ret {A} (a : A) (P : A -> Prop) : P a -> runs (mret a : fd A) P.
Proof. intros H. exists (Ok a). split; [done|]. by intros ? [= <-]. Qed.
Lemma runs_err {A} e (P : A -> Prop) : runs (fd_err e) P.
Proof. by exists (Err e). Qed.
Lemma runs_bind {A B} (c : fd A) (f : A -> fd B) P Q : runs c P -> (forall a, P a -> runs (f a) Q) -> runs (c ≫= f) Q.
Proof. intros ([a|e] & -> & HP) Hf; [|by exists (Err e)]. apply (Hf a). by apply HP. Qed.
Lemma runs_case {A B} (c : fd A) (f : result A -> fd B) P Q : runs c P -> (forall r, (forall a, r = Ok a -> P a) -> runs (f r) Q) -> runs (fd_case c f) Q.
Proof. intros (r & -> & HP) Hf. by apply Hf. Qed.
Lemma runs_impl {A} (c : fd A) (P Q : A -> Prop) : runs c P -> (forall a, P a -> Q a) -> runs c Q.
Proof. intros (r & E & HP) H. exists r. split; [done|]. auto. Qed.
Lemma runs_check {A} (b : bool) e (k : fd A) P : (b = true -> runs k P) -> runs (if b then k else fd_err e) P.
Proof. intros H. destruct b; [by apply H|apply runs_err]. Qed.

Record fdt_ok (fdt : Fdt) : Prop := {
  fo_bytes : bytes_ok (blob fdt);
  fo_len : totalsize fdt <= Z.of_nat (length (blob fdt)) /\ totalsize fdt < 2 ^ 31;
  fo_struct : 0 <= off_struct fdt /\ 4 <= size_struct fdt /\ off_struct fdt + size_struct fdt <= totalsize fdt;
  fo_strings : 0 <= off_strings fdt /\ 0 <= size_strings fdt /\ off_strings fdt + size_strings fdt <= totalsize fdt;
  fo_rsv : 0 <= off_rsvmap fdt /\ off_rsvmap fdt + 16 <= totalsize fdt /\ off_rsvmap fdt mod 8 = 0
}.

Lemma byte_runs b p : bytes_ok b -> 0 <= p < Z.of_nat (length b) -> runs (fd_read (byte_at b p)) (fun x => in_u8 x /\ byte_at b p = Some x).
Proof.
  intros Hb Hp. unfold byte_at. rewrite (proj2 (Z.leb_le 0 p)) by lia. destruct (lookup_lt_is_Some_2 b (Z.to_nat p)) as [x Hx]; [lia|]. rewrite Hx. exists (Ok x). split; [done|]. intros ? [= <-].
  split; [|done]. unfold bytes_ok in Hb. rewrite Forall_forall in Hb. apply Hb. by apply list_elem_of_lookup_2 in Hx.
Qed.
Lemma be_value b0 b1 b2 b3 : in_u8 b0 -> in_u8 b1 -> in_u8 b2 -> in_u8 b3 ->
  Z.lor (Z.lor (Z.lor (Z.shiftl b0 24) (Z.shiftl b1 16)) (Z.shiftl b2 8)) b3 = ((b0 * 256 + b1) * 256 + b2) * 256 + b3.
Proof.
  intros H0 H1 H2 H3. unfold in_u8 in *. assert (forall k a b, 0 <= k -> 0 <= b < 2 ^ k -> Z.lor (a * 2 ^ k) b = a * 2 ^ k + b) as Hl.
  { intros k a b Hk Hb. assert (Z.land (a * 2 ^ k) b = 0) as E.
    { apply Z.bits_inj_0. intros i. rewrite Z.land_spec. destruct (Z.lt_ge_cases i k); [by rewrite Z.mul_pow2_bits_low|]. rewrite (bits_above k b i) by lia. by rewrite andb_false_r. }
    rewrite <- Z.lxor_lor by done. symmetry. by apply Z.add_nocarry_lxor. }
  rewrite !Z.shiftl_mul_pow2 by lia. rewrite (Hl 24 b0 (b1 * 2 ^ 16)) by lia. replace (b0 * 2 ^ 24 + b1 * 2 ^ 16) with ((b0 * 256 + b1) * 2 ^ 16) by lia.
  rewrite (Hl 16 _ (b2 * 2 ^ 8)) by lia. replace ((b0 * 256 + b1) * 2 ^ 16 + b2 * 2 ^ 8) with (((b0 * 256 + b1) * 256 + b2) * 2 ^ 8) by lia. rewrite (Hl 8 _ b3) by lia. lia.
Qed.
Lemma be32_runs b p : bytes_ok b -> 0 <= p -> p + 4 <= Z.of_nat (length b) -> runs (fdt_be32 b p) (fun x => in_u32 x /\ fdt_be32 b p = Some (Ok x)).
Proof.
  intros Hb H0 Hp. destruct (byte_runs b p Hb ltac:(lia)) as ([x0|e] & E0 & P0); [|by destruct (byte_at b p)]. destruct (byte_runs b (p + 1) Hb ltac:(lia)) as ([x1|e] & E1 & P1); [|by destruct (byte_at b (p + 1))].
  destruct (byte_runs b (p + 2) Hb ltac:(lia)) as ([x2|e] & E2 & P2); [|by destruct (byte_at b (p + 2))]. destruct (byte_runs b (p + 3) Hb ltac:(lia)) as ([x3|e] & E3 & P3); [|by destruct (byte_at b (p + 3))].
  assert (fdt_be32 b p = Some (Ok (Z.lor (Z.lor (Z.lor (Z.shiftl x0 24) (Z.shiftl x1 16)) (Z.shiftl x2 8)) x3))) as E.
  { unfold fdt_be32. rewrite E0. cbn. rewrite E1. cbn. rewrite E2. cbn. rewrite E3. done. }
  destruct (P0 _ eq_refl) as [U0 _], (P1 _ eq_refl) as [U1 _], (P2 _ eq_refl) as [U2 _], (P3 _ eq_refl) as [U3 _].
  exists (Ok (Z.lor (Z.lor (Z.lor (Z.shiftl x0 24) (Z.shiftl x1 16)) (Z.shiftl x2 8)) x3)). split; [done|]. intros ? [= <-]. split; [|done]. rewrite be_value by done. unfold in_u8, in_u32 in *. lia.
Qed.
Lemma be64_runs b p : bytes_ok b -> 0 <= p -> p + 8 <= Z.of_nat (length b) -> runs (fdt_be64 b p) (fun _ => True).
Proof.
  intros Hb H0 Hp. unfold fdt_be64. eapply runs_bind; [apply be32_runs; [done|lia|lia]|]. intros hi _. eapply runs_bind; [apply be32_runs; [done|lia|lia]|]. intros lo _. by apply runs_ret.
Qed.
Lemma align4_eq x : 0 <= x -> x + 3 < 2 ^ 32 -> fdt_align4 x = (x + 3) / 4 * 4.
Proof.
  intros H0 H. unfold fdt_align4. rewrite u32_small by (unfold in_u32; lia). replace ((x + 3) / 4 * 4) with (Z.shiftl (Z.shiftr (x + 3) 2) 2) by (rewrite Z.shiftr_div_pow2, Z.shiftl_mul_pow2 by lia; done).
  apply Z.bits_inj'. intros n Hn. rewrite Z.land_spec, not32_spec by lia.
  rewrite Z.shiftl_spec by lia. destruct (Z.lt_ge_cases n 2).
  - rewrite (Z.testbit_neg_r _ (n - 2)) by lia. assert (n = 0 \/ n = 1) as [-> | ->] by lia; cbn; by rewrite andb_false_r.
  - rewrite Z.shiftr_spec by lia. replace (n - 2 + 2) with n by lia. rewrite (bits_above 2 3 n) by lia. destruct (Z.ltb_spec n 32); cbn [andb negb]; [by rewrite andb_true_r|]. rewrite (bits_above 32 (x + 3) n) by lia. done.
Qed.

(** A string that starts at [a] ends inside the blob. *)
Definition terminated (b : list Z) (a : Z) : Prop := exists e, 0 <= a <= e /\ byte_at b e = Some 0.
Lemma byte_at_lt b p x : byte_at b p = Some x -> 0 <= p < Z.of_nat (length b).
Proof. unfold byte_at. destruct (Z.leb_spec 0 p); [|done]. intros H1%lookup_lt_Some. lia. Qed.
(** What [fdt_read_token] returns. *)
Definition token_post (fdt : Fdt) (off : Z) (r : Z * Z * Z) : Prop :=
  let '(token, payload, next) := r in
  payload = off + 4 /\ off + 4 <= next <= size_struct fdt /\ next mod 4 = 0 /\
  (token = FDT_BEGIN_NODE -> terminated (blob fdt) (off_struct fdt + payload)) /\
  (token = FDT_PROP -> payload + 8 <= size_struct fdt /\ exists len, in_u32 len /\ fdt_be32 (blob fdt) (off_struct fdt + payload) = Some (Ok len) /\ payload + 8 + len <= next).

Section Safe.
Context (fdt : Fdt) (Hok : fdt_ok fdt).
Let Hb := fo_bytes _ Hok.

Lemma struct_in p : 0 <= p < size_struct fdt -> 0 <= off_struct fdt + p < Z.of_nat (length (blob fdt)).
Proof. destruct (fo_len _ Hok), (fo_struct _ Hok) as (? & ? & ?). lia. Qed.
Lemma struct_byte p : 0 <= p < size_struct fdt -> runs (fd_read (byte_at (blob fdt) (off_struct fdt + p))) (fun x => in_u8 x /\ byte_at (blob fdt) (off_struct fdt + p) = Some x).
Proof. intros H. apply byte_runs; [done|]. by apply struct_in. Qed.
Lemma struct_be32 p : 0 <= p -> p + 4 <= size_struct fdt -> runs (fdt_be32 (blob fdt) (off_struct fdt + p)) (fun x => in_u32 x /\ fdt_be32 (blob fdt) (off_struct fdt + p) = Some (Ok x)).
Proof. intros H1 H2. destruct (fo_len _ Hok), (fo_struct _ Hok) as (? & ? & ?). apply be32_runs; [done|lia|lia]. Qed.
Lemma size_small : size_struct fdt < 2 ^ 31.
Proof. destruct (fo_len _ Hok), (fo_struct _ Hok) as (? & ? & ?). lia. Qed.

Lemma name_end_runs fuel payload i : 0 <= i -> 0 <= payload <= size_struct fdt -> payload + i <= size_struct fdt -> size_struct fdt - (payload + i) < Z.of_nat fuel ->
  runs (name_end fuel fdt payload i) (fun j => i <= j /\ payload + j <= size_struct fdt /\ (payload + j < size_struct fdt -> byte_at (blob fdt) (off_struct fdt + (payload + j)) = Some 0)).
Proof.
  pose proof size_small. revert i. induction fuel as [|fuel IH]; intros i Hi Hp Hs Hf; [lia|]. cbn [name_end]. rewrite (u32_small (payload + i)) by (unfold in_u32; lia). destruct (Z.ltb_spec (payload + i) (size_struct fdt)).
  - eapply runs_bind; [apply struct_byte; lia|]. intros c [_ Hc]. destruct (Z.eqb_spec c 0) as [->|Hc0]; cbn [negb]; [apply runs_ret; split_and!; [lia|lia|done]|].
    rewrite (u32_small (i + 1)) by (unfold in_u32; lia). eapply runs_impl; [apply IH; lia|]. intros j (H1 & H2 & H3). split_and!; [lia|done|done].
  - apply runs_ret. split_and!; lia.
Qed.
Lemma mask3 x : 0 <= x -> Z.land x 3 = x mod 4.
Proof. intros H. change 3 with (Z.ones 2). by rewrite Z.land_ones by lia. Qed.
Lemma token_runs off : in_u32 off -> runs (fdt_read_token fdt off) (token_post fdt off).
Proof.
  intros Ho. unfold in_u32 in Ho. pose proof size_small as Hsm. destruct (fo_struct _ Hok) as (_ & Hs4 & _). unfold fdt_read_token. apply runs_check. intros E. apply negb_true_iff, orb_false_iff in E as [E1 E2]. apply Z.ltb_ge in E1, E2.
  rewrite u32_small in E2 by (unfold in_u32; lia). apply runs_check. rewrite mask3 by lia. intros Hal%Z.eqb_eq. eapply runs_bind; [apply struct_be32; lia|]. intros token [Ht _]. cbn zeta.
  rewrite (u32_small (off + 4)) by (unfold in_u32; lia). destruct (Z.eqb_spec token FDT_BEGIN_NODE) as [->|Hnb].
  { eapply runs_bind; [apply (name_end_runs _ (off + 4) 0); unfold struct_steps; lia|]. intros i (Hi & Hsi & Hz). rewrite (u32_small (off + 4 + i)) by (unfold in_u32; lia). apply runs_check. intros Hlt%negb_true_iff%Z.leb_gt.
    rewrite (u32_small (off + 4 + i + 1)), align4_eq by (unfold in_u32; lia). apply runs_check. intros Hle%negb_true_iff%Z.ltb_ge. apply runs_ret. unfold token_post. split_and!; [done|dmlia|done|dmlia| |done].
    intros _. exists (off_struct fdt + (off + 4 + i)). split; [destruct (fo_struct _ Hok) as (? & _); lia|]. by apply Hz. }
  destruct (Z.eqb_spec token FDT_PROP) as [->|Hnp].
  { apply runs_check. rewrite (u32_small (size_struct fdt - (off + 4))) by (unfold in_u32; lia). intros H8%negb_true_iff%Z.ltb_ge. eapply runs_bind; [apply struct_be32; lia|]. intros len [Hl El]. unfold in_u32 in Hl.
    rewrite (u32_small (off + 4 + 8)) by (unfold in_u32; lia). apply runs_check. intros Hpad%negb_true_iff%Z.ltb_ge. apply runs_check. intros E. apply negb_true_iff, orb_false_iff in E as [E3 E4]. apply Z.ltb_ge in E3, E4.
    rewrite (u32_small (size_struct fdt - _)) in E4 by (unfold in_u32; lia). assert (len + 3 < 2 ^ 32) as Hl3.
    { destruct (Z.lt_ge_cases (len + 3) (2 ^ 32)) as [?|Hge]; [done|]. lia. }
    rewrite align4_eq in * by lia. rewrite (u32_small (off + 4 + 8 + _)) by (unfold in_u32; dmlia). apply runs_ret. unfold token_post. split_and!; [done|dmlia|lia|dmlia|done|].
    intros _. split; [lia|]. exists len. split; [done|]. split; [done|]. dmlia. }
  destruct (_ || _); [|apply runs_err]. apply runs_ret. unfold token_post. split_and!; [done|lia|lia|dmlia|done|done].
Qed.

(** Loops over tokens: the fuel left exceeds the bytes left. *)
Definition enough (fuel : nat) (off : Z) : Prop := 0 <= off < 2 ^ 32 /\ Z.max 0 (size_struct fdt - off) < Z.of_nat fuel.
Lemma enough_steps off : 0 <= off < 2 ^ 32 -> enough (struct_steps fdt) off.
Proof. intros H. unfold enough, struct_steps. destruct (fo_struct _ Hok) as (? & ? & ?). lia. Qed.
Lemma enough_next fuel off r : enough (S fuel) off -> token_post fdt off r -> enough fuel (snd r).
Proof.
  destruct r as [[token payload] next]. intros [H1 H2] (_ & H3 & _). pose proof size_small. unfold enough. cbn [snd]. lia.
Qed.
Lemma next_range off r : token_post fdt off r -> 0 <= off -> 0 <= snd r < 2 ^ 32.
Proof. destruct r as [[token payload] next]. intros (_ & H3 & _) H. pose proof size_small. cbn [snd]. lia. Qed.
#[local] Ltac weaken := let H := fresh in intros ? H; cbn beta in H |- *; lia.
#[local] Ltac token := eapply runs_bind; [apply token_runs; try assumption; try (unfold in_u32; lia)|]; intros [[token payload] next] Hpost; cbn beta iota.

Lemma skip_from_runs fuel off depth : enough fuel off -> off <= size_struct fdt -> runs (skip_from fuel fdt off depth) (fun after => off <= after <= size_struct fdt).
Proof.
  revert off depth. induction fuel as [|fuel IH]; intros off depth He Hs; [destruct He; lia|]. pose proof (proj1 He) as Hr. cbn [skip_from]. destruct (0 <? depth); [|apply runs_ret; lia].
  token. pose proof (enough_next fuel off _ He Hpost) as Hn. cbn [snd] in Hn. destruct Hpost as (_ & Hx & _).
  destruct (_ =? _); [eapply runs_impl; [apply IH; [done|lia]|weaken]|]. destruct (_ =? _); [eapply runs_impl; [apply IH; [done|lia]|weaken]|]. destruct (_ =? _); [apply runs_err|]. eapply runs_impl; [apply IH; [done|lia]|weaken].
Qed.
Lemma skip_node_runs off : in_u32 off -> runs (fdt_skip_node fdt off) (fun after => off + 4 <= after <= size_struct fdt).
Proof.
  intros Ho. unfold fdt_skip_node. token. unfold in_u32 in Ho. pose proof (next_range off _ Hpost ltac:(lia)) as Hn. cbn [snd] in Hn. destruct Hpost as (_ & Hx & _). apply runs_check. intros _.
  eapply runs_impl; [apply skip_from_runs; [by apply enough_steps|lia]|weaken].
Qed.
Lemma strings_in p : 0 <= p < size_strings fdt -> 0 <= off_strings fdt + p < Z.of_nat (length (blob fdt)).
Proof. destruct (fo_len _ Hok), (fo_strings _ Hok) as (? & ? & ?). lia. Qed.
Lemma nul_from_runs fuel i : 0 <= i < 2 ^ 31 -> Z.max 0 (size_strings fdt - i) < Z.of_nat fuel -> runs (nul_from fuel fdt i) (fun b => b = true -> terminated (blob fdt) (off_strings fdt + i)).
Proof.
  destruct (fo_len _ Hok), (fo_strings _ Hok) as (? & ? & ?). revert i. induction fuel as [|fuel IH]; intros i Hi Hf; [lia|]. cbn [nul_from]. destruct (Z.ltb_spec i (size_strings fdt)); [|by apply runs_ret].
  eapply runs_bind; [apply byte_runs; [done|lia]|]. intros c [_ Hc]. destruct (Z.eqb_spec c 0) as [->|Hc0]; [apply runs_ret; intros _; exists (off_strings fdt + i); split; [lia|done]|].
  rewrite u32_small by (unfold in_u32; lia). eapply runs_impl; [apply IH; lia|]. intros b Hb' E. destruct (Hb' E) as (e & He & Hz). exists e. split; [lia|done].
Qed.
Lemma strings_get_runs nameoff : in_u32 nameoff -> runs (fdt_strings_get fdt nameoff) (fun o => forall s, o = Some s -> terminated (blob fdt) s).
Proof.
  intros Hn. unfold in_u32 in Hn. destruct (fo_len _ Hok), (fo_strings _ Hok) as (? & ? & ?). unfold fdt_strings_get. destruct (Z.leb_spec (size_strings fdt) nameoff); [by apply runs_ret|].
  eapply runs_bind; [apply nul_from_runs; lia|]. intros b Hb'. apply runs_ret. intros s. destruct b; [|done]. intros [= <-]. by apply Hb'.
Qed.
Lemma terminated_byte b a : bytes_ok b -> terminated b a -> runs (fd_read (byte_at b a)) (fun x => in_u8 x /\ byte_at b a = Some x).
Proof. intros Hb' (e & He & Hz). apply byte_at_lt in Hz. apply byte_runs; [done|lia]. Qed.
Lemma terminated_next b a x : terminated b a -> byte_at b a = Some x -> x <> 0 -> terminated b (a + 1).
Proof. intros (e & He & Hz) Hx Hne. exists e. split; [|done]. assert (a <> e) by congruence. lia. Qed.
Lemma strcmp_runs s name : terminated (blob fdt) s -> runs (fdt_strcmp (blob fdt) s name) (fun _ => True).
Proof.
  revert s. induction name as [|y name IH]; intros s Hs; cbn [fdt_strcmp]; (eapply runs_bind; [by apply terminated_byte|]); intros x [_ Hx]; [by apply runs_ret|].
  destruct (Z.eqb_spec x 0); cbn [negb andb]; [by apply runs_ret|]. destruct (_ && _); [|by apply runs_ret]. apply IH. by apply (terminated_next _ _ x).
Qed.
Lemma segment_runs seg s : terminated (blob fdt) s -> runs (fdt_segment_matches (blob fdt) seg s) (fun _ => True).
Proof.
  revert s. induction seg as [|y seg IH]; intros s Hs; cbn [fdt_segment_matches]; (eapply runs_bind; [by apply terminated_byte|]); intros x [_ Hx]; [by apply runs_ret|].
  destruct (Z.eqb_spec x 0); cbn [negb andb]; [by apply runs_ret|]. destruct (x =? y); [|by apply runs_ret]. apply IH. by apply (terminated_next _ _ x).
Qed.
Lemma root_from_runs fuel off : enough fuel off -> runs (root_from fuel fdt off) (fun r => in_u32 r).
Proof.
  revert off. induction fuel as [|fuel IH]; intros off He; [destruct He; lia|]. pose proof (proj1 He) as Hr. cbn [root_from]. destruct (off <? _); [|by apply runs_ret].
  eapply runs_case; [by apply token_runs|]. intros [[[token payload] next]|e] Hp; [|by apply runs_ret]. specialize (Hp _ eq_refl). destruct (_ =? _); [by apply runs_ret|]. destruct (negb _); [by apply runs_ret|].
  apply IH. exact (enough_next fuel off _ He Hp).
Qed.
(** The data of a property lies in the structure block. *)
Definition prop_post (r : Z * Z) : Prop := let '(data_off, len) := r in 0 <= data_off /\ 0 <= len /\ data_off + len <= size_struct fdt.
Lemma find_prop_from_runs fuel name off : enough fuel off -> runs (find_prop_from fuel fdt name off) prop_post.
Proof.
  pose proof size_small as Hsm. revert off. induction fuel as [|fuel IH]; intros off He; [destruct He; lia|]. pose proof (proj1 He) as Hr. cbn [find_prop_from]. destruct (off <? _); [|apply runs_err].
  token. pose proof (enough_next fuel off _ He Hpost) as Hn. cbn [snd] in Hn. destruct Hpost as (-> & Hx & _ & _ & Hprop). destruct (Z.eqb_spec token FDT_PROP) as [->|].
  - destruct (Hprop eq_refl) as (H8 & len & Hl & El & Hle). unfold in_u32 in Hl. rewrite El. cbn [mbind fd_bind]. eapply runs_bind; [replace (off_struct fdt + (off + 4) + 4) with (off_struct fdt + (off + 8)) by lia; apply struct_be32; lia|].
    intros nameoff [Hno _]. eapply runs_bind; [by apply strings_get_runs|]. intros [s|] Hs; [|apply runs_err]. eapply runs_bind; [apply strcmp_runs; by apply Hs|]. intros c _. destruct (c =? 0); [|by apply IH].
    apply runs_ret. unfold prop_post. rewrite u32_small by (unfold in_u32; lia). lia.
  - destruct (_ || _); [apply runs_err|]. destruct (_ =? _); [apply runs_err|]. by apply IH.
Qed.
Lemma find_prop_runs node name : in_u32 node -> runs (fdt_find_prop fdt node name) prop_post.
Proof.
  intros Ho. unfold fdt_find_prop. token. unfold in_u32 in Ho. pose proof (next_range node _ Hpost ltac:(lia)) as Hn. apply runs_check. intros _. apply find_prop_from_runs. by apply enough_steps.
Qed.
Definition raw_post (r : Z * Z) : Prop := let '(bytes, len) := r in 0 <= bytes /\ 0 <= len < 2 ^ 31 /\ bytes + len <= Z.of_nat (length (blob fdt)).
Lemma prop_raw_runs node name : in_u32 node -> runs (Fdt_PropRaw fdt node name) raw_post.
Proof.
  intros Ho. unfold Fdt_PropRaw. eapply runs_bind; [by apply find_prop_runs|]. intros [data_off len] (H1 & H2 & H3). apply runs_ret. unfold raw_post. pose proof size_small. destruct (fo_len _ Hok), (fo_struct _ Hok) as (? & ? & ?). lia.
Qed.

Lemma prop_u32_runs node name : in_u32 node -> runs (Fdt_PropU32 fdt node name) in_u32.
Proof.
  intros Ho. unfold Fdt_PropU32. eapply runs_bind; [by apply prop_raw_runs|]. intros [bytes len] (H1 & H2 & H3). apply runs_check. intros Hl%Z.eqb_eq. eapply runs_impl; [apply be32_runs; [done|done|lia]|]. by intros x [H _].
Qed.
Lemma prop_u64_runs node name : in_u32 node -> runs (Fdt_PropU64 fdt node name) (fun _ => True).
Proof.
  intros Ho. unfold Fdt_PropU64. eapply runs_bind; [by apply prop_raw_runs|]. intros [bytes len] (H1 & H2 & H3). apply runs_check. intros Hl%Z.eqb_eq. apply be64_runs; [done|done|lia].
Qed.
Lemma prop_str_runs node name : in_u32 node -> runs (Fdt_PropStr fdt node name) (fun o => forall s, o = Some s -> terminated (blob fdt) s).
Proof.
  intros Ho. unfold Fdt_PropStr. eapply runs_case; [by apply prop_raw_runs|]. intros [[bytes len]|e] Hp; [|by apply runs_ret]. destruct (Hp _ eq_refl) as (H1 & H2 & H3). destruct (Z.eqb_spec len 0); [by apply runs_ret|].
  rewrite u32_small by (unfold in_u32; lia). eapply runs_bind; [apply byte_runs; [done|lia]|]. intros c [_ Hc]. apply runs_ret. intros s. destruct (Z.eqb_spec c 0) as [->|]; cbn [negb]; [|done]. intros [= <-]. exists (bytes + (len - 1)). split; [lia|done].
Qed.
Lemma str_end_runs fuel base len i : 0 <= base -> base + len <= Z.of_nat (length (blob fdt)) -> len < 2 ^ 31 -> 0 <= i < 2 ^ 31 -> Z.max 0 (len - i) < Z.of_nat fuel ->
  runs (str_end fuel (blob fdt) base len i) (fun j => i <= j /\ (j < len -> byte_at (blob fdt) (base + j) = Some 0)).
Proof.
  intros H0 H1 H2. revert i. induction fuel as [|fuel IH]; intros i Hi Hf; [lia|]. cbn [str_end]. destruct (Z.ltb_spec i len); [|apply runs_ret; split; lia]. eapply runs_bind; [apply byte_runs; [done|lia]|].
  intros c [_ Hc]. destruct (Z.eqb_spec c 0) as [->|]; cbn [negb]; [apply runs_ret; split; [lia|done]|]. rewrite u32_small by (unfold in_u32; lia). eapply runs_impl; [apply IH; lia|]. intros j [? ?]. split; [lia|done].
Qed.
(** The data of a property as a place in the blob, inside the structure block. *)
Definition data_post (r : Z * Z) : Prop := let '(bytes, len) := r in off_struct fdt <= bytes /\ 0 <= len /\ bytes + len <= off_struct fdt + size_struct fdt.
Lemma prop_data_runs node name : in_u32 node -> runs (Fdt_PropRaw fdt node name) data_post.
Proof. intros Ho. unfold Fdt_PropRaw. eapply runs_bind; [by apply find_prop_runs|]. intros [data_off len] (H1 & H2 & H3). apply runs_ret. unfold data_post. lia. Qed.
Lemma str_iter_runs node name cursor : in_u32 node -> 0 <= cursor -> runs (Fdt_PropStrIter fdt node name cursor) (fun '(s, cursor') => terminated (blob fdt) s /\ cursor < cursor' <= size_struct fdt).
Proof.
  intros Ho Hc. unfold Fdt_PropStrIter. pose proof size_small. destruct (fo_len _ Hok), (fo_struct _ Hok) as (? & ? & ?). eapply runs_bind; [by apply prop_data_runs|]. intros [base len] (H1' & H2' & H3').
  apply runs_check. intros Hlt%negb_true_iff%Z.leb_gt. rewrite (u32_small (len - 1)) by (unfold in_u32; lia). eapply runs_bind; [apply byte_runs; [done|lia]|]. intros last [_ Hlast]. apply runs_check. intros ->%Z.eqb_eq.
  eapply runs_bind; [apply str_end_runs; lia|]. intros i [Hi Hz]. apply runs_check. intros Hil%negb_true_iff%Z.leb_gt. rewrite u32_small by (unfold in_u32; lia). apply runs_ret. split; [|lia]. exists (base + i). split; [lia|by apply Hz].
Qed.
Lemma compatible_from_runs fuel node compat cursor : in_u32 node -> 0 <= cursor -> Z.max 0 (size_struct fdt - cursor) < Z.of_nat fuel -> runs (compatible_from fuel fdt node compat cursor) (fun _ => True).
Proof.
  intros Ho. revert cursor. induction fuel as [|fuel IH]; intros cursor Hc Hf; [lia|]. cbn [compatible_from]. eapply runs_case; [by apply str_iter_runs|]. intros [[s cursor']|e] Hp; [|by apply runs_ret]. destruct (Hp _ eq_refl) as [Hs Hc'].
  eapply runs_bind; [by apply strcmp_runs|]. intros c _. destruct (c =? 0); [by apply runs_ret|]. apply IH; lia.
Qed.
Lemma compatible_runs node compat : in_u32 node -> runs (Fdt_NodeIsCompatible fdt node compat) (fun _ => True).
Proof. intros Ho. apply compatible_from_runs; [done|lia|]. unfold struct_steps. destruct (fo_struct _ Hok) as (? & ? & ?). lia. Qed.
Lemma parent_from_runs fuel child off anc : enough fuel off -> Forall in_u32 anc -> runs (parent_from fuel fdt child off anc) in_u32.
Proof.
  revert off anc. induction fuel as [|fuel IH]; intros off anc He Ha; [destruct He; lia|]. pose proof (proj1 He) as Hr. cbn [parent_from]. destruct (off <? _); [|apply runs_err].
  token. pose proof (enough_next fuel off _ He Hpost) as Hn. cbn [snd] in Hn. destruct (token =? FDT_BEGIN_NODE).
  - destruct (off =? child); [destruct anc as [|p anc]; [apply runs_err|apply runs_ret; by apply Forall_cons in Ha as [? _]]|]. destruct (_ <=? _); [apply runs_err|]. apply IH; [done|]. by constructor.
  - destruct (_ =? _); [destruct anc as [|p anc]; [apply runs_err|apply IH; [done|by apply Forall_cons in Ha as [_ ?]]]|]. destruct (_ =? _); [apply runs_err|]. by apply IH.
Qed.
Lemma parent_cells_runs node : runs (fdt_get_parent_cells fdt node) (fun '(a, s) => in_u32 a /\ in_u32 s).
Proof.
  unfold fdt_get_parent_cells, fdt_find_parent. eapply runs_case; [apply parent_from_runs; [by apply enough_steps|constructor]|]. intros [p|e] Hp; [|by apply runs_ret]. specialize (Hp _ eq_refl).
  eapply runs_case; [by apply prop_u32_runs|]. intros ra Ha. eapply runs_case; [by apply prop_u32_runs|]. intros rs Hs. apply runs_ret. destruct ra, rs; (split; [(by apply Ha) || (unfold in_u32; lia)|(by apply Hs) || (unfold in_u32; lia)]).
Qed.
Lemma cells_runs p n : 0 <= n <= 2 -> 0 <= p -> p + n * 4 <= Z.of_nat (length (blob fdt)) -> runs (cells (blob fdt) p n) (fun _ => True).
Proof.
  intros Hn Hp Hl. unfold cells. assert (forall l acc, (forall i, i ∈ l -> 0 <= i < n) -> runs acc (fun _ => True) ->
    runs (foldl (fun acc i => v ← acc; c ← fdt_be32 (blob fdt) (p + i * 4); mret (Z.lor (u64 (Z.shiftl v 32)) c)) (acc : fd Z) l) (fun _ => True)) as H.
  { induction l as [|i l IH]; intros acc Hi Ha; [done|]. cbn [foldl]. apply IH; [intros j Hj; apply Hi; by right|]. specialize (Hi i ltac:(left)). eapply runs_bind; [exact Ha|]. intros v _.
    eapply runs_bind; [apply be32_runs; [done|lia|lia]|]. intros c _. by apply runs_ret. }
  apply H; [intros i Hi%elem_of_seqZ; lia|by apply runs_ret].
Qed.
Lemma prop_reg_runs node index : in_u32 node -> 0 <= index -> runs (Fdt_PropReg fdt node index) (fun _ => index < size_struct fdt).
Proof.
  intros Ho Hix. unfold Fdt_PropReg. eapply runs_bind; [apply parent_cells_runs|]. intros [ac sc] [Ha Hs]. unfold in_u32 in Ha, Hs. apply runs_check. intros E. apply negb_true_iff, orb_false_iff in E as [E E3]. apply orb_false_iff in E as [E1 E2].
  apply Z.eqb_neq in E1. apply Z.ltb_ge in E2, E3. destruct (fo_struct _ Hok) as (F1 & F2 & F3). destruct (fo_len _ Hok) as [F4 _]. eapply runs_bind; [by apply prop_data_runs|]. intros [bytes len] (H1 & H2 & H3). rewrite (u32_small (ac + sc)), (u32_small ((ac + sc) * 4)) by (unfold in_u32; lia). cbn zeta.
  apply runs_check. intros _. apply runs_check. intros Hm%Z.eqb_eq. apply runs_check. intros Hlt%negb_true_iff%Z.leb_gt.
  assert (index * ((ac + sc) * 4) + (ac + sc) * 4 <= len) as Hle by (pose proof (Z.div_mod len ((ac + sc) * 4) ltac:(lia)); nia). pose proof size_small. assert (0 <= index * ((ac + sc) * 4) /\ index * 4 <= index * ((ac + sc) * 4)) as [Hi0 Hi4] by nia.
  rewrite (u32_small (index * _)) by (unfold in_u32; lia). eapply runs_bind; [apply cells_runs; lia|]. intros base _. eapply runs_bind; [apply cells_runs; lia|]. intros size _. apply runs_ret. lia.
Qed.
Lemma node_name_runs node : in_u32 node -> runs (Fdt_NodeName fdt node) (fun o => forall s, o = Some s -> terminated (blob fdt) s).
Proof.
  intros Ho. unfold Fdt_NodeName. eapply runs_case; [by apply token_runs|]. intros [[[token payload] next]|e] Hp; [|by apply runs_ret]. destruct (Hp _ eq_refl) as (_ & _ & _ & Ht & _). apply runs_ret.
  intros s. destruct (Z.eqb_spec token FDT_BEGIN_NODE) as [->|]; [|done]. intros [= <-]. by apply Ht.
Qed.
Lemma child_from_runs fuel off : enough fuel off -> runs (child_from fuel fdt off) (fun '(child, after) => in_u32 child /\ off + 4 <= after <= size_struct fdt).
Proof.
  revert off. induction fuel as [|fuel IH]; intros off He; [destruct He; lia|]. pose proof (proj1 He) as Hr. cbn [child_from]. destruct (off <? _); [|apply runs_err].
  token. pose proof (enough_next fuel off _ He Hpost) as Hn. cbn [snd] in Hn. destruct Hpost as (_ & Hx & _). destruct (_ || _).
  - eapply runs_impl; [by apply IH|]. intros [child after] [? ?]. split; [done|lia].
  - destruct (_ =? _); [|destruct (_ || _); apply runs_err]. eapply runs_bind; [by apply skip_node_runs|]. intros after Ha. by apply runs_ret.
Qed.
Lemma child_iter_runs parent cursor : in_u32 parent -> 0 <= cursor < 2 ^ 32 -> runs (Fdt_ChildIter fdt parent cursor) (fun '(child, cursor') => in_u32 child /\ cursor + 4 <= cursor' <= size_struct fdt).
Proof.
  intros Ho Hc. unfold Fdt_ChildIter. eapply runs_bind with (P := fun off => cursor <= off < 2 ^ 32 /\ 0 <= off).
  - destruct (Z.eqb_spec cursor 0) as [->|]; [|apply runs_ret; lia]. unfold fdt_node_body. token. pose proof (next_range parent _ Hpost ltac:(unfold in_u32 in Ho; lia)) as Hn. cbn [snd] in Hn. apply runs_check. intros _. apply runs_ret. lia.
  - intros off Hoff. eapply runs_impl; [apply child_from_runs, enough_steps; lia|]. intros [child after] [? ?]. split; [done|lia].
Qed.
Lemma segment_from_runs fuel parent seg cursor : in_u32 parent -> enough fuel cursor -> runs (segment_from fuel fdt parent seg cursor) in_u32.
Proof.
  intros Ho. pose proof size_small. revert cursor. induction fuel as [|fuel IH]; intros cursor He; [destruct He; lia|]. cbn [segment_from]. eapply runs_case; [apply child_iter_runs; [done|apply He]|]. intros [[child cursor']|e] Hp; [|apply runs_err].
  destruct (Hp _ eq_refl) as [Hch Hcu]. assert (enough fuel cursor') as He' by (destruct He; unfold enough; lia). eapply runs_bind; [by apply node_name_runs|]. intros [s|] Hs; [|by apply IH].
  eapply runs_bind; [apply segment_runs; by apply Hs|]. intros [] _; [by apply runs_ret|by apply IH].
Qed.
Lemma cut_segment_length path : (length (fst (cut_segment path)) + length (snd (cut_segment path)) = length path)%nat.
Proof. induction path as [|c path IH]; [done|]. cbn [cut_segment]. destruct (c =? 47); [done|]. destruct (cut_segment path) as [seg rest]. cbn in *. lia. Qed.
Lemma resolve_from_runs fuel cur path : in_u32 cur -> (length path < fuel)%nat -> runs (resolve_from fuel fdt cur path) in_u32.
Proof.
  revert cur path. induction fuel as [|fuel IH]; intros cur path Hc Hl; [lia|]. cbn [resolve_from]. destruct path as [|c path]; [by apply runs_ret|]. pose proof (cut_segment_length (c :: path)) as Hlen. destruct (cut_segment (c :: path)) as [seg rest].
  cbn [fst snd] in Hlen. apply runs_check. intros Hs%negb_true_iff%Z.eqb_neq. eapply runs_bind; [apply segment_from_runs; [done|by apply enough_steps]|]. intros next Hn. apply IH; [done|]. destruct rest; cbn [length] in *; lia.
Qed.
Lemma resolve_path_runs path : runs (Fdt_ResolvePath fdt path) in_u32.
Proof.
  unfold Fdt_ResolvePath. destruct path as [|c path]; [apply runs_err|]. assert (runs (cur ← Fdt_Root fdt; match path with [] => mret cur | _ => resolve_from (S (length path)) fdt cur path end) in_u32) as H.
  { eapply runs_bind; [apply root_from_runs; by apply enough_steps|]. intros cur Hc. destruct path as [|d path]; [by apply runs_ret|]. apply resolve_from_runs; [done|lia]. }
  repeat (destruct c as [|c|c]; try apply runs_err; try exact H).
Qed.
Lemma search_from_runs fuel compat off : enough fuel off -> runs (search_from fuel fdt compat off) in_u32.
Proof.
  revert off. induction fuel as [|fuel IH]; intros off He; [destruct He; lia|]. pose proof (proj1 He) as Hr. cbn [search_from]. destruct (off <? _); [|apply runs_err].
  token. pose proof (enough_next fuel off _ He Hpost) as Hn. cbn [snd] in Hn. destruct (_ =? _); [|destruct (_ =? _); [apply runs_err|by apply IH]].
  eapply runs_bind; [by apply compatible_runs|]. intros [] _; [by apply runs_ret|by apply IH].
Qed.
Lemma find_compatible_runs compat start : in_u32 start -> runs (Fdt_FindByCompatible fdt compat start) in_u32.
Proof.
  intros Ho. unfold Fdt_FindByCompatible. pose proof size_small. eapply runs_bind with (P := fun off => 0 <= off < 2 ^ 32); [destruct (start =? 0); [by apply runs_ret|]; eapply runs_impl; [by apply skip_node_runs|]; unfold in_u32 in Ho; weaken|].
  intros off Hoff. by apply search_from_runs, enough_steps.
Qed.
Lemma rsv_iter_runs cursor : 0 <= cursor -> off_rsvmap fdt + cursor * 16 + 16 < 2 ^ 32 -> runs (Fdt_RsvIter fdt cursor) (fun '(_, _, cursor') => cursor' = cursor + 1 /\ off_rsvmap fdt + cursor * 16 + 16 <= totalsize fdt).
Proof.
  intros Hc Hle. destruct (fo_len _ Hok), (fo_rsv _ Hok) as (? & ? & _). unfold Fdt_RsvIter. rewrite (u32_small (cursor * 16)), (u32_small (off_rsvmap fdt + cursor * 16)), (u32_small (_ + 16)) by (unfold in_u32; lia). cbn zeta.
  apply runs_check. intros Ht%negb_true_iff%Z.ltb_ge. eapply runs_bind; [apply be64_runs; [done|lia|lia]|]. intros base _. eapply runs_bind; [apply be64_runs; [done|lia|lia]|]. intros size _. apply runs_check. intros _. apply runs_ret.
  rewrite u32_small by (unfold in_u32; lia). lia.
Qed.
End Safe.

(** ** Opening *)

Lemma open_runs addr bytes : bytes_ok bytes -> 40 <= Z.of_nat (length bytes) ->
  runs (Fdt_Open addr bytes) (fun fdt => blob fdt = bytes /\ (totalsize fdt <= Z.of_nat (length bytes) -> totalsize fdt < 2 ^ 31 -> fdt_ok fdt)).
Proof.
  intros Hb Hl. unfold Fdt_Open. do 2 (apply runs_check; intros _).
  do 10 (eapply runs_bind; [apply be32_runs; [done|lia|lia]|]; let x := fresh "x" in let H := fresh "R" in intros x [H _]; unfold in_u32 in H).
  do 4 (apply runs_check; let E := fresh "E" in intros E). apply runs_check; intros E4. apply runs_check; intros E5. apply runs_check; intros E6. apply runs_check; intros E7. apply runs_check; intros E8.
  apply negb_true_iff, orb_false_iff in E4 as [A1 A2], E5 as [B1 B2], E7 as [D1 D2], E8 as [F1 F2]. apply negb_true_iff in E6. apply negb_false_iff in D1, F1. apply Z.eqb_eq in D1, F1. apply Z.ltb_ge in A1, A2, B1, B2, D2, F2, E6.
  apply runs_ret. split; [done|]. cbn [totalsize]. intros Ht H31. rewrite u32_small in A2, B2 by (unfold in_u32; lia). rewrite u32_small in F2 by (unfold in_u32; lia). split; cbn [blob totalsize off_struct size_struct off_strings size_strings off_rsvmap]; [done|lia|lia|lia|].
  split; [lia|]. split; [lia|]. change 7 with (Z.ones 3) in F1. by rewrite Z.land_ones in F1 by lia.
Qed.

(** * Reading back a tree *)

(** What stands in a node: properties, sub-nodes, and no-operation tokens anywhere between them. *)
Inductive tree :=
  | Leaf
  | Nop (rest : tree)
  | Prop_ (name data : list Z) (rest : tree)
  | Node (name : list Z) (body rest : tree).

Definition word (v : Z) : list Z := [v / 2 ^ 24 mod 256; v / 2 ^ 16 mod 256; v / 2 ^ 8 mod 256; v mod 256].
Definition pad4 (l : list Z) : list Z := l ++ replicate (Z.to_nat ((- Z.of_nat (length l)) mod 4)) 0.
Definition begin_bytes (name : list Z) : list Z := word FDT_BEGIN_NODE ++ pad4 (name ++ [0]).
Section Encode.
(** Where the strings block has a property's name. *)
Context (noff : list Z -> Z).
Definition prop_bytes (name data : list Z) : list Z := word FDT_PROP ++ word (Z.of_nat (length data)) ++ word (noff name) ++ pad4 data.
(** The structure block, per the Devicetree Specification. *)
Fixpoint encode (t : tree) : list Z :=
  match t with
  | Leaf => []
  | Nop rest => word FDT_NOP ++ encode rest
  | Prop_ name data rest => prop_bytes name data ++ encode rest
  | Node name body rest => (begin_bytes name ++ encode body ++ word FDT_END_NODE) ++ encode rest
  end.
Definition node_bytes (name : list Z) (body : tree) : list Z := begin_bytes name ++ encode body ++ word FDT_END_NODE.
Definition zlen (l : list Z) : Z := Z.of_nat (length l).
(** The sub-nodes with their offsets, for a body at [off]. *)
Fixpoint kids (off : Z) (t : tree) : list (Z * (list Z * tree)) :=
  match t with
  | Leaf => []
  | Nop rest => kids (off + 4) rest
  | Prop_ name data rest => kids (off + zlen (prop_bytes name data)) rest
  | Node name body rest => (off, (name, body)) :: kids (off + zlen (node_bytes name body)) rest
  end.
(** The place and the data of the named property, which is looked for up to the first sub-node. *)
Fixpoint prop_of (off : Z) (t : tree) (name : list Z) : option (Z * list Z) :=
  match t with
  | Leaf => None
  | Nop rest => prop_of (off + 4) rest name
  | Prop_ n data rest => if decide (n = name) then Some (off + 12, data) else prop_of (off + zlen (prop_bytes n data)) rest name
  | Node _ _ _ => None
  end.
(** Every sub-node at every level with its parent's offset, for a body at [off] of the node at [parent]. *)
Fixpoint parents (off : Z) (t : tree) (parent : Z) : list (Z * Z) :=
  match t with
  | Leaf => []
  | Nop rest => parents (off + 4) rest parent
  | Prop_ name data rest => parents (off + zlen (prop_bytes name data)) rest parent
  | Node name body rest => (off, parent) :: parents (off + zlen (begin_bytes name)) body off ++ parents (off + zlen (node_bytes name body)) rest parent
  end.
(** A one-cell property, or its default. *)
Definition cell_of (off : Z) (t : tree) (name : list Z) (default : Z) : Z :=
  match prop_of off t name with Some (_, [a; b; c; d]) => ((a * 256 + b) * 256 + c) * 256 + d | _ => default end.
End Encode.
Fixpoint levels (t : tree) : nat := match t with Leaf => 0 | Nop rest => levels rest | Prop_ _ _ rest => levels rest | Node _ body rest => Nat.max (S (levels body)) (levels rest) end.
(** A number in [n] cells. *)
Definition cell_bytes (n : Z) (v : Z) : list Z := if n =? 0 then [] else if n =? 1 then word v else word (v / 2 ^ 32) ++ word (v mod 2 ^ 32).
Definition reg_bytes (ac sc : Z) (e : Z * Z) : list Z := cell_bytes ac (fst e) ++ cell_bytes sc (snd e).
Definition reg_ok (ac sc : Z) (e : Z * Z) : Prop := 0 <= fst e < 2 ^ (32 * ac) /\ 0 <= snd e < 2 ^ (32 * sc).
(** A path segment may leave out the unit address. *)
Fixpoint seg_match (seg name : list Z) : bool :=
  match seg, name with
  | [], [] => true
  | [], c :: _ => c =? 64
  | _ :: _, [] => false
  | y :: seg, x :: name => (x =? y) && seg_match seg name
  end.
(** The node that a list of segments leads to. *)
Fixpoint walk (noff : list Z -> Z) (segs : list (list Z)) (node : Z * (list Z * tree)) : option (Z * (list Z * tree)) :=
  match segs with
  | [] => Some node
  | seg :: segs =>
      let '(off, (name, body)) := node in
      k ← snd <$> list_find (fun k => seg_match seg (fst (snd k)) = true) (kids noff (off + zlen (begin_bytes name)) body);
      walk noff segs k
  end.
Fixpoint join (segs : list (list Z)) : list Z := match segs with [] => [] | [s] => s | s :: segs => s ++ 47 :: join segs end.
Definition path_of (segs : list (list Z)) : list Z := 47 :: join segs.
(** A caller's loop over the children, to the first error. *)
Fixpoint child_list (fuel : nat) (fdt : Fdt) (parent cursor : Z) : fd (list Z) :=
  match fuel with
  | O => None
  | S fuel => fd_case (Fdt_ChildIter fdt parent cursor) (fun r => match r with Err _ => mret [] | Ok (child, cursor) => l ← child_list fuel fdt parent cursor; mret (child :: l) end)
  end.

Definition text (l : list Z) : Prop := Forall (fun c => 0 < c < 256) l.
(** The bytes [bs] stand at [p]. *)
Definition bytes_at (b : list Z) (p : Z) (bs : list Z) : Prop := 0 <= p /\ forall i x, bs !! i = Some x -> byte_at b (p + Z.of_nat i) = Some x.
Definition in_struct (fdt : Fdt) (off : Z) (bs : list Z) : Prop := 0 <= off /\ off mod 4 = 0 /\ off + zlen bs <= size_struct fdt /\ bytes_at (blob fdt) (off_struct fdt + off) bs.
Definition string_at (fdt : Fdt) (nameoff : Z) (s : list Z) : Prop := 0 <= nameoff /\ nameoff + zlen s < size_strings fdt /\ bytes_at (blob fdt) (off_strings fdt + nameoff) (s ++ [0]).
Fixpoint tree_ok (noff : list Z -> Z) (fdt : Fdt) (t : tree) : Prop :=
  match t with
  | Leaf => True
  | Nop rest => tree_ok noff fdt rest
  | Prop_ name data rest => text name /\ string_at fdt (noff name) name /\ tree_ok noff fdt rest
  | Node name body rest => text name /\ tree_ok noff fdt body /\ tree_ok noff fdt rest
  end.

Lemma zlen_app l k : zlen (l ++ k) = zlen l + zlen k.
Proof. unfold zlen. rewrite length_app. lia. Qed.
Lemma zlen_word v : zlen (word v) = 4.
Proof. done. Qed.
Lemma zlen_pos l : 0 <= zlen l.
Proof. unfold zlen. lia. Qed.
Lemma zlen_pad4 l : zlen (pad4 l) = (zlen l + 3) / 4 * 4.
Proof. unfold pad4. rewrite zlen_app. unfold zlen. rewrite length_replicate, Z2Nat.id by dmlia. dmlia. Qed.
Lemma bytes_at_app b p l k : bytes_at b p (l ++ k) <-> bytes_at b p l /\ bytes_at b (p + zlen l) k.
Proof.
  unfold bytes_at, zlen. split.
  - intros [H0 H]. split; split; [done| |lia|]; intros i x Hi.
    + apply H. by apply lookup_app_l_Some.
    + replace (p + Z.of_nat (length l) + Z.of_nat i) with (p + Z.of_nat (length l + i)) by lia. apply H. rewrite lookup_app_r by lia. by replace (length l + i - length l)%nat with i by lia.
  - intros [[H0 H1] [_ H2]]. split; [done|]. intros i x [Hi|[Hge Hi]]%lookup_app_Some; [by apply H1|]. apply H2 in Hi. by replace (p + Z.of_nat i) with (p + Z.of_nat (length l) + Z.of_nat (i - length l)) by lia.
Qed.
Lemma be32_at b p v : in_u32 v -> bytes_at b p (word v) -> fdt_be32 b p = Some (Ok v).
Proof.
  intros Hv [Hp H]. pose proof (H 0%nat _ eq_refl) as H0. pose proof (H 1%nat _ eq_refl) as H1. pose proof (H 2%nat _ eq_refl) as H2. pose proof (H 3%nat _ eq_refl) as H3.
  change (Z.of_nat 0) with 0 in H0. change (Z.of_nat 1) with 1 in H1. change (Z.of_nat 2) with 2 in H2. change (Z.of_nat 3) with 3 in H3. rewrite Z.add_0_r in H0.
  unfold fdt_be32. rewrite H0. cbn [fd_read mbind fd_bind]. rewrite H1. cbn [fd_read mbind fd_bind]. rewrite H2. cbn [fd_read mbind fd_bind]. rewrite H3. cbn [fd_read mbind fd_bind]. unfold mret, fd_ret. do 2 f_equal.
  unfold in_u32 in Hv. rewrite be_value by (unfold in_u8; dmlia). dmlia.
Qed.

Section Decode.
Context (fdt : Fdt) (Hok : fdt_ok fdt) (noff : list Z -> Z).

Lemma in_struct_app off l k : zlen l mod 4 = 0 -> in_struct fdt off (l ++ k) <-> in_struct fdt off l /\ in_struct fdt (off + zlen l) k.
Proof.
  clear Hok noff. intros Hm. unfold in_struct. rewrite bytes_at_app, zlen_app. pose proof (zlen_pos l). pose proof (zlen_pos k). replace (off_struct fdt + (off + zlen l)) with (off_struct fdt + off + zlen l) by lia. split.
  - intros (? & ? & ? & ? & ?). split; (split; [lia|]; split; [dmlia|]; split; [lia|done]).
  - intros ((? & ? & ? & ?) & ? & ? & ? & ?). split; [lia|]; split; [done|]; split; [lia|done].
Qed.
Lemma word_at off v : in_u32 v -> in_struct fdt off (word v) -> fdt_be32 (blob fdt) (off_struct fdt + off) = Some (Ok v).
Proof. intros Hv (_ & _ & _ & H). by apply be32_at. Qed.
Lemma token_guards off bs (k : fd (Z * Z * Z)) : in_struct fdt off bs -> 4 <= zlen bs ->
  (check! negb ((size_struct fdt <? off) || (u32 (size_struct fdt - off) <? 4)) else CARA_ERANGE; check! Z.land off 3 =? 0 else CARA_EINVAL; k) = k.
Proof.
  intros (H0 & Hm & Hl & _) H4. pose proof (size_small _ Hok). rewrite u32_small by (unfold in_u32; lia). rewrite (proj2 (Z.ltb_ge _ _)), (proj2 (Z.ltb_ge _ _)) by lia. cbn [orb negb]. rewrite mask3 by lia. by rewrite Hm.
Qed.
Lemma token_plain off t : t = FDT_END_NODE \/ t = FDT_NOP \/ t = FDT_END -> in_struct fdt off (word t) -> fdt_read_token fdt off = Some (Ok (t, off + 4, off + 4)).
Proof.
  intros Ht Hin. pose proof Hin as (? & ? & Hl & _). rewrite zlen_word in Hl. pose proof (size_small _ Hok). unfold fdt_read_token. rewrite (token_guards off (word t)) by done. rewrite (word_at off t) by (done || (unfold in_u32; destruct Ht as [->|[->| ->]]; done)).
  cbn [mbind fd_bind]. cbn zeta. rewrite u32_small by (unfold in_u32; lia). by destruct Ht as [->|[->| ->]].
Qed.
Lemma zlen_prop name data : zlen (prop_bytes noff name data) = 12 + zlen (pad4 data).
Proof. unfold prop_bytes. rewrite !zlen_app, !zlen_word. lia. Qed.
Lemma zlen_begin name : zlen (begin_bytes name) = 4 + zlen (pad4 (name ++ [0])).
Proof. unfold begin_bytes. by rewrite zlen_app, zlen_word. Qed.
Lemma prop_parts off name data : in_u32 (zlen data) -> in_u32 (noff name) -> in_struct fdt off (prop_bytes noff name data) ->
  fdt_be32 (blob fdt) (off_struct fdt + off) = Some (Ok FDT_PROP) /\ fdt_be32 (blob fdt) (off_struct fdt + (off + 4)) = Some (Ok (zlen data)) /\
  fdt_be32 (blob fdt) (off_struct fdt + (off + 4) + 4) = Some (Ok (noff name)) /\ bytes_at (blob fdt) (off_struct fdt + (off + 12)) data.
Proof.
  intros Hd Hn Hin. unfold prop_bytes in Hin. fold (zlen data) in Hin. apply in_struct_app in Hin as [H1 H2]; [|done]. rewrite zlen_word in H2. apply in_struct_app in H2 as [H2 H3]; [|done]. rewrite zlen_word in H3.
  apply in_struct_app in H3 as [H3 H4]; [|done]. rewrite zlen_word in H4. split; [by apply word_at|]. split; [by apply word_at|]. split.
  - replace (off_struct fdt + (off + 4) + 4) with (off_struct fdt + (off + 4 + 4)) by lia. by apply word_at.
  - destruct H4 as (_ & _ & _ & H4). unfold pad4 in H4. apply bytes_at_app in H4 as [H4 _]. by replace (off + 12) with (off + 4 + 4 + 4) by lia.
Qed.
Lemma token_prop off name data : in_u32 (noff name) -> in_struct fdt off (prop_bytes noff name data) -> fdt_read_token fdt off = Some (Ok (FDT_PROP, off + 4, off + zlen (prop_bytes noff name data))).
Proof.
  intros Hn Hin. pose proof Hin as (H0 & Hm & Hl & _). rewrite zlen_prop in *. rewrite zlen_pad4 in *. pose proof (zlen_pos data). pose proof (size_small _ Hok).
  destruct (prop_parts off name data) as (E1 & E2 & _); [unfold in_u32; dmlia|done|done|]. unfold fdt_read_token. rewrite (token_guards off (prop_bytes noff name data)) by (done || (rewrite zlen_prop, zlen_pad4; dmlia)).
  rewrite E1. cbn [mbind fd_bind]. cbn zeta. rewrite (u32_small (off + 4)) by (unfold in_u32; dmlia). change (FDT_PROP =? FDT_BEGIN_NODE) with false. change (FDT_PROP =? FDT_PROP) with true. cbn iota. rewrite (u32_small (size_struct fdt - (off + 4))) by (unfold in_u32; dmlia).
  rewrite (proj2 (Z.ltb_ge _ 8)) by dmlia. cbn [negb]. rewrite E2. cbn [mbind fd_bind]. rewrite (u32_small (off + 4 + 8)) by (unfold in_u32; dmlia). rewrite align4_eq by dmlia. rewrite (proj2 (Z.ltb_ge _ (zlen data))) by dmlia. cbn [negb].
  rewrite (u32_small (size_struct fdt - _)) by (unfold in_u32; dmlia). rewrite (proj2 (Z.ltb_ge _ (off + 4 + 8))), (proj2 (Z.ltb_ge _ ((zlen data + 3) / 4 * 4))) by dmlia. cbn [negb orb]. rewrite u32_small by (unfold in_u32; dmlia). unfold mret, fd_ret. do 3 f_equal. lia.
Qed.
Lemma name_end_at fuel payload i rest : 0 <= i -> 0 <= payload -> text rest -> bytes_at (blob fdt) (off_struct fdt + (payload + i)) (rest ++ [0]) -> payload + i + zlen rest < size_struct fdt -> zlen rest < Z.of_nat fuel ->
  name_end fuel fdt payload i = Some (Ok (i + zlen rest)).
Proof.
  pose proof (size_small _ Hok). intros Hi Hp. revert i Hi fuel. induction rest as [|c rest IH]; intros i Hi fuel Ht Hb Hs Hf; (destruct fuel as [|fuel]; [unfold zlen in Hf; cbn in Hf; lia|]); cbn [name_end];
    [change (zlen []) with 0 in *|pose proof (zlen_pos rest) as Hzp; change (zlen (c :: rest)) with (zlen ([c] ++ rest)) in *; rewrite zlen_app in *; change (zlen [c]) with 1 in *]; rewrite (u32_small (payload + i)) by (unfold in_u32; lia); rewrite (proj2 (Z.ltb_lt _ _)) by lia;
    pose proof (proj2 Hb 0%nat _ eq_refl) as Hx; change (Z.of_nat 0) with 0 in Hx; rewrite Z.add_0_r in Hx; rewrite Hx; cbn [fd_read mbind fd_bind].
  - cbn [Z.eqb negb]. unfold mret, fd_ret. do 2 f_equal. lia.
  - apply Forall_cons in Ht as [Hc Ht]. rewrite (proj2 (Z.eqb_neq c 0)) by lia. cbn [negb]. rewrite u32_small by (unfold in_u32; lia). rewrite IH; [do 2 f_equal; lia|lia|done| |lia|lia].
    change ((c :: rest) ++ [0]) with ([c] ++ (rest ++ [0])) in Hb. apply bytes_at_app in Hb as [_ Hb]. change (zlen [c]) with 1 in Hb. by replace (off_struct fdt + (payload + (i + 1))) with (off_struct fdt + (payload + i) + 1) by lia.
Qed.
Lemma begin_name off name : in_struct fdt off (begin_bytes name) -> bytes_at (blob fdt) (off_struct fdt + (off + 4)) (name ++ [0]).
Proof. intros Hin. unfold begin_bytes in Hin. apply in_struct_app in Hin as [_ H2]; [|done]. rewrite zlen_word in H2. destruct H2 as (_ & _ & _ & H2). unfold pad4 in H2. by apply bytes_at_app in H2 as [H2 _]. Qed.
Lemma token_begin off name : text name -> in_struct fdt off (begin_bytes name) -> fdt_read_token fdt off = Some (Ok (FDT_BEGIN_NODE, off + 4, off + zlen (begin_bytes name))).
Proof.
  intros Ht Hin. pose proof Hin as (H0 & Hm & Hl & _). rewrite zlen_begin, zlen_pad4, zlen_app in *. change (zlen [0]) with 1 in *. pose proof (zlen_pos name). pose proof (size_small _ Hok). pose proof (begin_name off name Hin) as Hname.
  unfold begin_bytes in Hin. unfold fdt_read_token. rewrite (token_guards off (begin_bytes name)) by (done || (rewrite zlen_begin, zlen_pad4, zlen_app; change (zlen [0]) with 1; dmlia)). apply in_struct_app in Hin as [Hw _]; [|done].
  rewrite (word_at off FDT_BEGIN_NODE) by done. cbn [mbind fd_bind]. cbn zeta. rewrite (u32_small (off + 4)) by (unfold in_u32; dmlia). change (FDT_BEGIN_NODE =? FDT_BEGIN_NODE) with true. cbn iota.
  rewrite (name_end_at _ (off + 4) 0 name) by (done || (rewrite ?Z.add_0_r; done) || (unfold struct_steps; dmlia)). cbn [mbind fd_bind]. rewrite (u32_small (off + 4 + _)) by (unfold in_u32; dmlia). rewrite (proj2 (Z.leb_gt _ _)) by dmlia. cbn [negb].
  rewrite (u32_small (_ + 1)), align4_eq by (unfold in_u32; dmlia). rewrite (proj2 (Z.ltb_ge _ _)) by dmlia. cbn [negb]. unfold mret, fd_ret. do 3 f_equal. dmlia.
Qed.

Fixpoint ntok (t : tree) : nat := match t with Leaf => 0 | Nop rest => S (ntok rest) | Prop_ _ _ rest => S (ntok rest) | Node _ body rest => S (ntok body + S (ntok rest)) end.
Lemma prop_mod name data : zlen (prop_bytes noff name data) mod 4 = 0.
Proof. rewrite zlen_prop, zlen_pad4. dmlia. Qed.
Lemma begin_mod name : zlen (begin_bytes name) mod 4 = 0.
Proof. rewrite zlen_begin, zlen_pad4. dmlia. Qed.
Lemma encode_mod t : zlen (encode noff t) mod 4 = 0.
Proof.
  induction t as [|r IH|n d r IH|n b IHb r IHr]; cbn [encode]; [done| | |]; rewrite !zlen_app, ?zlen_word; [dmlia|pose proof (prop_mod n d); dmlia|pose proof (begin_mod n); dmlia].
Qed.
Lemma node_mod name body : zlen (node_bytes noff name body) mod 4 = 0.
Proof. unfold node_bytes. rewrite !zlen_app, zlen_word. pose proof (begin_mod name). pose proof (encode_mod body). dmlia. Qed.
Lemma ntok_len t : Z.of_nat (ntok t) * 4 <= zlen (encode noff t).
Proof.
  induction t as [|r IH|n d r IH|n b IHb r IHr]; cbn [encode ntok]; [done| | |]; rewrite !zlen_app, ?zlen_word, ?zlen_prop, ?zlen_begin; [lia|pose proof (zlen_pos (pad4 d)); lia|pose proof (zlen_pos (pad4 (n ++ [0]))); lia].
Qed.
Lemma noff_range name : string_at fdt (noff name) name -> in_u32 (noff name).
Proof. intros (? & ? & _). pose proof (zlen_pos name). destruct (fo_len _ Hok), (fo_strings _ Hok) as (? & ? & ?). unfold in_u32. lia. Qed.
(** The parts of a node, and what follows it. *)
Lemma node_parts off name body rest : in_struct fdt off ((begin_bytes name ++ encode noff body ++ word FDT_END_NODE) ++ rest) ->
  in_struct fdt off (begin_bytes name) /\ in_struct fdt (off + zlen (begin_bytes name)) (encode noff body ++ word FDT_END_NODE) /\ in_struct fdt (off + zlen (begin_bytes name)) (encode noff body) /\
  in_struct fdt (off + zlen (begin_bytes name) + zlen (encode noff body)) (word FDT_END_NODE) /\ in_struct fdt (off + zlen (node_bytes noff name body)) rest.
Proof.
  intros Hin. apply in_struct_app in Hin as [Hin Hr]; [|apply node_mod]. apply in_struct_app in Hin as [Hb He]; [|apply begin_mod]. split; [done|]. split; [done|]. apply in_struct_app in He as [He Hw]; [|apply encode_mod]. by split_and!.
Qed.
Lemma zlen_node name body : zlen (node_bytes noff name body) = zlen (begin_bytes name) + zlen (encode noff body) + 4.
Proof. unfold node_bytes. rewrite !zlen_app, zlen_word. lia. Qed.

Lemma skip_tree t off d fuel : 0 < d -> tree_ok noff fdt t -> in_struct fdt off (encode noff t) -> skip_from (ntok t + fuel) fdt off d = skip_from fuel fdt (off + zlen (encode noff t)) d.
Proof.
  revert off d fuel. induction t as [|r IH|n v r IH|n b IHb r IHr]; intros off d fuel Hd Hw Hin; cbn [encode ntok] in *.
  - by rewrite Z.add_0_r.
  - apply in_struct_app in Hin as [H1 H2]; [|done]. rewrite zlen_word in H2. cbn [Nat.add skip_from]. rewrite (proj2 (Z.ltb_lt _ _)) by done. rewrite (token_plain off FDT_NOP) by auto. cbn [mbind fd_bind]. cbn beta iota zeta delta [Z.eqb FDT_NOP FDT_BEGIN_NODE FDT_END_NODE FDT_END Pos.eqb].
    rewrite IH by done. by rewrite zlen_app, zlen_word, Z.add_assoc.
  - destruct Hw as (Hn & Hs & Hw). apply in_struct_app in Hin as [H1 H2]; [|apply prop_mod]. cbn [Nat.add skip_from]. rewrite (proj2 (Z.ltb_lt _ _)) by done. rewrite (token_prop off n v) by (done || by apply noff_range). cbn [mbind fd_bind].
    cbn beta iota zeta delta [Z.eqb FDT_PROP FDT_BEGIN_NODE FDT_END_NODE FDT_END Pos.eqb]. rewrite IH by done. by rewrite zlen_app, Z.add_assoc.
  - destruct Hw as (Hn & Hb & Hr). apply node_parts in Hin as (H1 & _ & H2 & H3 & H4). cbn [Nat.add skip_from]. rewrite (proj2 (Z.ltb_lt _ _)) by done. rewrite (token_begin off n) by done. cbn [mbind fd_bind].
    cbn beta iota zeta delta [Z.eqb FDT_BEGIN_NODE Pos.eqb]. rewrite <- Nat.add_assoc. rewrite IHb by (done || lia). cbn [Nat.add skip_from]. rewrite (proj2 (Z.ltb_lt _ _)) by lia. rewrite (token_plain _ FDT_END_NODE) by auto. cbn [mbind fd_bind].
    cbn beta iota zeta delta [Z.eqb FDT_BEGIN_NODE FDT_END_NODE Pos.eqb]. replace (d + 1 - 1) with d by lia. replace (off + zlen (begin_bytes n) + zlen (encode noff b) + 4) with (off + zlen (node_bytes noff n b)) by (rewrite zlen_node; lia).
    rewrite IHr by done. f_equal. rewrite !zlen_app, zlen_node, zlen_word. lia.
Qed.
Lemma skip_node_at off name body rest : text name -> tree_ok noff fdt body -> in_struct fdt off ((begin_bytes name ++ encode noff body ++ word FDT_END_NODE) ++ rest) ->
  fdt_skip_node fdt off = Some (Ok (off + zlen (node_bytes noff name body))).
Proof.
  intros Hn Hw Hin. apply node_parts in Hin as (H1 & _ & H2 & H3 & _). unfold fdt_skip_node. rewrite (token_begin off name) by done. cbn [mbind fd_bind]. change (FDT_BEGIN_NODE =? FDT_BEGIN_NODE) with true. cbn iota.
  pose proof (ntok_len body) as Hl. destruct H2 as (? & ? & Hs & ?) eqn:E2. pose proof (zlen_pos (begin_bytes name)). replace (struct_steps fdt) with (ntok body + S (S (Z.to_nat (size_struct fdt) - ntok body - 1)))%nat.
  - rewrite skip_tree by (done || lia). cbn [skip_from]. change (0 <? 1) with true. cbn iota. rewrite (token_plain _ FDT_END_NODE) by auto. cbn [mbind fd_bind]. cbn beta iota zeta delta [Z.eqb FDT_BEGIN_NODE FDT_END_NODE Pos.eqb]. change (0 <? 1 - 1) with false. cbn iota.
    unfold mret, fd_ret. do 2 f_equal. rewrite zlen_node. lia.
  - unfold struct_steps. destruct H3 as (? & ? & Hs3 & _). rewrite zlen_word in Hs3. lia.
Qed.

(** A body with the token that ends it. *)
Definition body_at (off : Z) (t : tree) : Prop := tree_ok noff fdt t /\ in_struct fdt off (encode noff t ++ word FDT_END_NODE).
Lemma body_lt off t : body_at off t -> 0 <= off < size_struct fdt.
Proof. intros (_ & H0 & _ & Hl & _). rewrite zlen_app, zlen_word in Hl. pose proof (zlen_pos (encode noff t)). lia. Qed.
Lemma body_nop off r : body_at off (Nop r) -> in_struct fdt off (word FDT_NOP) /\ body_at (off + 4) r.
Proof. intros [Hw Hin]. cbn [encode] in Hin. rewrite <- app_assoc in Hin. by apply in_struct_app in Hin as [H1 H2]. Qed.
Lemma body_prop off n v r : body_at off (Prop_ n v r) -> text n /\ string_at fdt (noff n) n /\ in_struct fdt off (prop_bytes noff n v) /\ body_at (off + zlen (prop_bytes noff n v)) r.
Proof. intros [(Hn & Hs & Hw) Hin]. cbn [encode] in Hin. rewrite <- app_assoc in Hin. apply in_struct_app in Hin as [H1 H2]; [|apply prop_mod]. by split_and!. Qed.
(** A whole node. *)
Definition node_at (off : Z) (node : list Z * tree) : Prop := text (fst node) /\ in_struct fdt off (begin_bytes (fst node)) /\ body_at (off + zlen (begin_bytes (fst node))) (snd node).
Lemma node_intro off n b rest : text n -> tree_ok noff fdt b -> in_struct fdt off (node_bytes noff n b ++ rest) -> node_at off (n, b).
Proof. intros Hn Hb Hin. apply node_parts in Hin as (H1 & H2 & _). by split_and!. Qed.
Lemma body_node off n b r : body_at off (Node n b r) -> node_at off (n, b) /\ body_at (off + zlen (node_bytes noff n b)) r.
Proof.
  intros [(Hn & Hb & Hr) Hin]. cbn [encode] in Hin. rewrite <- app_assoc in Hin. split; [by apply (node_intro _ _ _ _ Hn Hb Hin)|]. apply node_parts in Hin as (_ & _ & _ & _ & Hin). done.
Qed.
Lemma node_token off node : node_at off node -> fdt_read_token fdt off = Some (Ok (FDT_BEGIN_NODE, off + 4, off + zlen (begin_bytes (fst node)))).
Proof. intros (Hn & H1 & _). by apply token_begin. Qed.
Lemma node_skip off node : node_at off node -> fdt_skip_node fdt off = Some (Ok (off + zlen (node_bytes noff (fst node) (snd node)))).
Proof.
  destruct node as [n b]. intros (Hn & H1 & Hw & H2). cbn [fst snd] in *. apply (skip_node_at off n b []); [done|done|]. rewrite app_nil_r. apply in_struct_app; [apply begin_mod|done].
Qed.
#[local] Ltac tokens := cbn [mbind fd_bind mret fd_ret]; cbn beta iota zeta delta [Z.eqb FDT_NOP FDT_PROP FDT_BEGIN_NODE FDT_END_NODE FDT_END Pos.eqb orb].

Lemma child_from_at t off fuel : body_at off t -> (ntok t < fuel)%nat ->
  child_from fuel fdt off = Some (match kids noff off t with [] => Err CARA_ENOTFOUND | (o, (n, b)) :: _ => Ok (o, o + zlen (node_bytes noff n b)) end).
Proof.
  revert off fuel. induction t as [|r IH|n v r IH|n b IHb r IHr]; intros off fuel Hbo Hf; (destruct fuel as [|fuel]; [lia|]); pose proof (body_lt _ _ Hbo) as Hlt; cbn [child_from ntok kids] in *; rewrite (proj2 (Z.ltb_lt _ _)) by lia.
  - destruct Hbo as [_ Hin]. rewrite (token_plain off FDT_END_NODE) by auto. by tokens.
  - apply body_nop in Hbo as [H1 H2]. rewrite (token_plain off FDT_NOP) by auto. tokens. apply IH; [done|lia].
  - apply body_prop in Hbo as (Hn & Hs & H1 & H2). rewrite (token_prop off n v) by (done || by apply noff_range). tokens. apply IH; [done|lia].
  - apply body_node in Hbo as [H1 _]. rewrite (node_token off _ H1). tokens. by rewrite (node_skip off _ H1).
Qed.
Lemma kids_cons t off o node ks : body_at off t -> kids noff off t = (o, node) :: ks ->
  node_at o node /\ exists t', body_at (o + zlen (node_bytes noff (fst node) (snd node))) t' /\ ks = kids noff (o + zlen (node_bytes noff (fst node) (snd node))) t'.
Proof.
  revert off. induction t as [|r IH|n v r IH|n b IHb r IHr]; intros off Hbo Hk; cbn [kids] in Hk.
  - done.
  - apply body_nop in Hbo as [_ H2]. by apply (IH (off + 4)).
  - apply body_prop in Hbo as (_ & _ & _ & H2). by apply (IH _ H2).
  - injection Hk as <- <- <-. apply body_node in Hbo as [H1 H2]. split; [done|]. by exists r.
Qed.
Lemma ntok_steps off t : body_at off t -> (ntok t < struct_steps fdt)%nat.
Proof. intros (_ & H0 & _ & Hl & _). rewrite zlen_app, zlen_word in Hl. pose proof (ntok_len t). unfold struct_steps. lia. Qed.
Lemma kids_ntok t off : (length (kids noff off t) <= ntok t)%nat.
Proof. revert off. induction t as [|r IH|n v r IH|n b IHb r IHr]; intros off; cbn [kids ntok length]; [lia|specialize (IH (off + 4)); lia|specialize (IH (off + zlen (prop_bytes noff n v))); lia|specialize (IHr (off + zlen (node_bytes noff n b))); lia]. Qed.
Lemma child_iter_at parent cursor off t : (if cursor =? 0 then fdt_node_body fdt parent else mret cursor) = Some (Ok off) -> body_at off t ->
  Fdt_ChildIter fdt parent cursor = Some (match kids noff off t with [] => Err CARA_ENOTFOUND | (o, (n, b)) :: _ => Ok (o, o + zlen (node_bytes noff n b)) end).
Proof. intros E Hbo. unfold Fdt_ChildIter. rewrite E. cbn [mbind fd_bind]. apply child_from_at; [done|]. by apply (ntok_steps off). Qed.
Lemma cursor_pos off node : node_at off node -> (off + zlen (node_bytes noff (fst node) (snd node)) =? 0) = false.
Proof. intros (_ & (H0 & _) & _). apply Z.eqb_neq. rewrite zlen_node. pose proof (zlen_pos (begin_bytes (fst node))). pose proof (zlen_pos (encode noff (snd node))). lia. Qed.
Lemma child_list_at fuel parent cursor off t : (if cursor =? 0 then fdt_node_body fdt parent else mret cursor) = Some (Ok off) -> body_at off t -> (length (kids noff off t) < fuel)%nat ->
  child_list fuel fdt parent cursor = Some (Ok (map fst (kids noff off t))).
Proof.
  revert cursor off t. induction fuel as [|fuel IH]; intros cursor off t Hc Hbo Hf; [lia|]. cbn [child_list]. rewrite (child_iter_at _ _ _ _ Hc Hbo). cbn [fd_case]. destruct (kids noff off t) as [|[o [n b]] ks] eqn:Ek; [done|].
  destruct (kids_cons _ _ _ _ _ Hbo Ek) as (Hn & t' & Hbo' & ->). cbn [fst snd] in *. rewrite (IH _ (o + zlen (node_bytes noff n b)) t'); [done| |done|cbn [length] in Hf; lia]. pose proof (cursor_pos o (n, b) Hn) as Ep. cbn [fst snd] in Ep. by rewrite Ep.
Qed.

Lemma text_head b p c l : bytes_at b p (c :: l) -> byte_at b p = Some c /\ bytes_at b (p + 1) l.
Proof.
  intros H. pose proof (proj2 H 0%nat _ eq_refl) as H0. rewrite Z.add_0_r in H0. split; [done|]. change (c :: l) with ([c] ++ l) in H. by apply bytes_at_app in H as [_ H].
Qed.
Lemma segment_at seg name s : text name -> bytes_at (blob fdt) s (name ++ [0]) -> fdt_segment_matches (blob fdt) seg s = Some (Ok (seg_match seg name)).
Proof.
  revert name s. induction seg as [|y seg IH]; intros name s Hn Hb; cbn [fdt_segment_matches]; (destruct name as [|x name]; cbn [app] in Hb; apply text_head in Hb as [Hx Hb]; rewrite Hx; cbn [fd_read mbind fd_bind]); [done| |done|].
  - apply Forall_cons in Hn as [Hc _]. cbn [seg_match]. by rewrite (proj2 (Z.eqb_neq x 0)) by lia.
  - apply Forall_cons in Hn as [Hc Hn]. cbn [seg_match]. rewrite (proj2 (Z.eqb_neq x 0)) by lia. cbn [negb andb]. destruct (x =? y); [|done]. by apply IH.
Qed.
Lemma strcmp_at name x s : text x -> text name -> bytes_at (blob fdt) s (x ++ [0]) -> exists c, fdt_strcmp (blob fdt) s name = Some (Ok c) /\ (c = 0 <-> x = name).
Proof.
  revert x s. induction name as [|y name IH]; intros x s Hx Hy Hb; cbn [fdt_strcmp]; (destruct x as [|c x]; cbn [app] in Hb; apply text_head in Hb as [Hc Hb]; rewrite Hc; cbn [fd_read mbind fd_bind]).
  - by exists 0.
  - apply Forall_cons in Hx as [Hr _]. exists (c - 0). split; [done|]. split; [lia|done].
  - apply Forall_cons in Hy as [Hr _]. cbn [Z.eqb negb andb]. exists (0 - y). split; [done|]. split; [lia|done].
  - apply Forall_cons in Hx as [Hr Hx]. apply Forall_cons in Hy as [Hr' Hy]. rewrite (proj2 (Z.eqb_neq c 0)), (proj2 (Z.eqb_neq y 0)) by lia. cbn [negb andb]. destruct (Z.eqb_spec c y) as [->|Hne].
    + destruct (IH x (s + 1) Hx Hy Hb) as (d & E & Hd). exists d. split; [done|]. rewrite Hd. split; [by intros ->|by intros [= ->]].
    + exists (c - y). split; [done|]. split; [lia|intros [= ? ?]; lia].
Qed.
Lemma segment_from_at fuel parent seg cursor off t : (if cursor =? 0 then fdt_node_body fdt parent else mret cursor) = Some (Ok off) -> body_at off t -> (length (kids noff off t) < fuel)%nat ->
  segment_from fuel fdt parent seg cursor = Some (match list_find (fun k => seg_match seg (fst (snd k)) = true) (kids noff off t) with Some (_, (o, _)) => Ok o | None => Err CARA_ENOTFOUND end).
Proof.
  revert cursor off t. induction fuel as [|fuel IH]; intros cursor off t Hc Hbo Hf; [lia|]. cbn [segment_from]. rewrite (child_iter_at _ _ _ _ Hc Hbo). cbn [fd_case]. destruct (kids noff off t) as [|[o [n b]] ks] eqn:Ek; [done|].
  destruct (kids_cons _ _ _ _ _ Hbo Ek) as (Hn & t' & Hbo' & ->). pose proof (cursor_pos o (n, b) Hn) as Ep. pose proof (node_token o (n, b) Hn) as Et. destruct Hn as (Hn & Hn1 & _). cbn [fst snd] in *. unfold Fdt_NodeName. rewrite Et. cbn [fd_case]. tokens.
  rewrite (segment_at seg n) by (done || by apply begin_name). cbn [mbind fd_bind list_find fst snd]. destruct (seg_match seg n) eqn:Es; [by rewrite decide_True by done|]. rewrite decide_False by done.
  rewrite (IH _ (o + zlen (node_bytes noff n b)) t'); [|by rewrite Ep|done|cbn [length] in Hf; lia]. destruct (list_find _ _) as [[i [o' nb]]|]; done.
Qed.
Lemma node_body_at off node : node_at off node -> fdt_node_body fdt off = Some (Ok (off + zlen (begin_bytes (fst node)))).
Proof. intros Hn. unfold fdt_node_body. rewrite (node_token off node Hn). by tokens. Qed.
Lemma resolve_segment_at off n b seg : node_at off (n, b) ->
  fdt_resolve_segment fdt off seg = Some (match list_find (fun k => seg_match seg (fst (snd k)) = true) (kids noff (off + zlen (begin_bytes n)) b) with Some (_, (o, _)) => Ok o | None => Err CARA_ENOTFOUND end).
Proof.
  intros Hn. unfold fdt_resolve_segment. apply segment_from_at; [apply (node_body_at off (n, b) Hn)|apply Hn|]. pose proof (ntok_steps _ _ (proj2 (proj2 Hn))). pose proof (kids_ntok b (off + zlen (begin_bytes n))). cbn [snd] in *. lia.
Qed.
Lemma kids_node t off k : body_at off t -> k ∈ kids noff off t -> node_at (fst k) (snd k).
Proof.
  remember (kids noff off t) as ks eqn:Ek. revert off t Ek. induction ks as [|[o node] ks IH]; intros off t Ek Hbo Hin; [by apply not_elem_of_nil in Hin|]. destruct (kids_cons _ _ _ _ _ Hbo (eq_sym Ek)) as (Hn & t' & Hbo' & Eks).
  apply elem_of_cons in Hin as [->|Hin]; [done|]. by apply (IH _ t' Eks).
Qed.

Definition seg_ok (seg : list Z) : Prop := seg <> [] /\ 47 ∉ seg.
Lemma cut_at seg rest : 47 ∉ seg -> cut_segment (seg ++ 47 :: rest) = (seg, 47 :: rest) /\ cut_segment seg = (seg, []).
Proof.
  induction seg as [|c seg IH]; intros Hn; [done|]. apply not_elem_of_cons in Hn as [Hc Hn]. destruct (IH Hn) as [E1 E2]. cbn [app cut_segment]. rewrite (proj2 (Z.eqb_neq c 47)) by congruence. by rewrite E1, E2.
Qed.
Lemma walk_node segs k k' : node_at (fst k) (snd k) -> walk noff segs k = Some k' -> node_at (fst k') (snd k').
Proof.
  revert k. induction segs as [|seg segs IH]; intros [off [n b]] Hn Hw; cbn [walk] in Hw; [by injection Hw as <-|]. destruct (list_find _ _) as [[i k]|] eqn:Ef; [|done]. cbn in Hw. apply (IH k); [|done].
  apply list_find_Some in Ef as (Hk & _). apply (kids_node b (off + zlen (begin_bytes n))); [apply Hn|]. by apply list_elem_of_lookup_2 in Hk.
Qed.
Definition found (r : option (Z * (list Z * tree))) : result Z := match r with Some (o, _) => Ok o | None => Err CARA_ENOTFOUND end.
Lemma resolve_unfold fuel cur path : path <> [] -> resolve_from (S fuel) fdt cur path =
  (let '(seg, rest) := cut_segment path in check! negb (Z.of_nat (length seg) =? 0) else CARA_EINVAL; next ← fdt_resolve_segment fdt cur seg; resolve_from fuel fdt next (match rest with [] => [] | _ :: rest => rest end)).
Proof. by destruct path. Qed.
Lemma resolve_step seg segs fuel cur n b rest : node_at cur (n, b) -> seg <> [] -> cut_segment (seg ++ rest) = (seg, rest) ->
  (forall k, node_at (fst k) (snd k) -> resolve_from fuel fdt (fst k) (match rest with [] => [] | _ :: r => r end) = Some (found (walk noff segs k))) ->
  resolve_from (S fuel) fdt cur (seg ++ rest) = Some (found (walk noff (seg :: segs) (cur, (n, b)))).
Proof.
  intros Hn Hne Hcut Hk. rewrite resolve_unfold by (intros [? _]%app_nil; done). rewrite Hcut. destruct seg as [|c' seg']; [done|]. set (seg := c' :: seg') in *. change (Z.of_nat (length seg) =? 0) with false. cbn [negb].
  rewrite (resolve_segment_at cur n b seg Hn). cbn [walk]. destruct (list_find _ _) as [[i [o node]]|] eqn:Ef; [|done]. cbn [mbind fd_bind option_bind fmap option_fmap option_map snd]. apply (Hk (o, node)).
  apply list_find_Some in Ef as (Hi & _). apply (kids_node b (cur + zlen (begin_bytes n))); [apply Hn|]. by apply list_elem_of_lookup_2 in Hi.
Qed.
Lemma resolve_join segs fuel k : node_at (fst k) (snd k) -> Forall seg_ok segs -> (length (join segs) < fuel)%nat -> resolve_from fuel fdt (fst k) (join segs) = Some (found (walk noff segs k)).
Proof.
  revert fuel k. induction segs as [|seg segs IH]; intros fuel [cur [n b]] Hn Hs Hf; (destruct fuel as [|fuel]; [lia|]); [done|]. apply Forall_cons in Hs as [[Hne H47] Hs]. cbn [fst] in *. destruct segs as [|seg2 segs].
  - cbn [join] in *. rewrite <- (app_nil_r seg) at 1. apply resolve_step; [done|done|rewrite app_nil_r; by apply (cut_at seg [])|]. intros [o node] Ho. apply IH; [done|done|]. cbn [join length] in *. destruct seg; [done|cbn in Hf; lia].
  - change (join (seg :: seg2 :: segs)) with (seg ++ 47 :: join (seg2 :: segs)) in *. apply resolve_step; [done|done|by apply cut_at|]. intros k' Hk'. apply IH; [done|done|]. rewrite length_app in Hf. cbn [length] in Hf. lia.
Qed.

Lemma nul_from_at fuel i s : 0 <= i -> text s -> i + zlen s < size_strings fdt -> bytes_at (blob fdt) (off_strings fdt + i) (s ++ [0]) -> (length s < fuel)%nat -> nul_from fuel fdt i = Some (Ok true).
Proof.
  destruct (fo_len _ Hok), (fo_strings _ Hok) as (? & ? & ?). revert i fuel. induction s as [|c s IH]; intros i fuel Hi Ht Hs Hb Hf; (destruct fuel as [|fuel]; [cbn in Hf; lia|]); cbn [nul_from]; cbn [app] in Hb; apply text_head in Hb as [Hx Hb].
  - change (zlen []) with 0 in Hs. rewrite (proj2 (Z.ltb_lt _ _)) by lia. by rewrite Hx.
  - apply Forall_cons in Ht as [Hc Ht]. change (zlen (c :: s)) with (zlen ([c] ++ s)) in Hs. rewrite zlen_app in Hs. change (zlen [c]) with 1 in Hs. pose proof (zlen_pos s). rewrite (proj2 (Z.ltb_lt _ _)) by lia. rewrite Hx. cbn [fd_read mbind fd_bind].
    rewrite (proj2 (Z.eqb_neq c 0)) by lia. rewrite u32_small by (unfold in_u32; lia). apply IH; [lia|done|lia|by rewrite Z.add_assoc|cbn in Hf; lia].
Qed.
Lemma strings_get_at nameoff s : text s -> string_at fdt nameoff s -> fdt_strings_get fdt nameoff = Some (Ok (Some (off_strings fdt + nameoff))).
Proof.
  intros Ht (H0 & Hl & Hb). pose proof (zlen_pos s). unfold fdt_strings_get. rewrite (proj2 (Z.leb_gt _ _)) by lia. rewrite (nul_from_at _ nameoff s); [done|done|done|lia|done|unfold zlen in *; lia].
Qed.
Lemma find_prop_from_at t off fuel name : text name -> body_at off t -> (ntok t < fuel)%nat ->
  find_prop_from fuel fdt name off = Some (match prop_of noff off t name with Some (o, d) => Ok (o, zlen d) | None => Err CARA_ENOTFOUND end).
Proof.
  intros Hname. pose proof (size_small _ Hok). revert off fuel. induction t as [|r IH|n v r IH|n b IHb r IHr]; intros off fuel Hbo Hf; (destruct fuel as [|fuel]; [lia|]); pose proof (body_lt _ _ Hbo) as Hlt; cbn [find_prop_from ntok prop_of] in *; rewrite (proj2 (Z.ltb_lt _ _)) by lia.
  - destruct Hbo as [_ Hin]. rewrite (token_plain off FDT_END_NODE) by auto. by tokens.
  - apply body_nop in Hbo as [H1 H2]. rewrite (token_plain off FDT_NOP) by auto. tokens. apply IH; [done|lia].
  - apply body_prop in Hbo as (Hn & Hs & H1 & H2). rewrite (token_prop off n v) by (done || by apply noff_range). tokens. pose proof H1 as (_ & _ & Hl & _). rewrite zlen_prop, zlen_pad4 in Hl. pose proof (zlen_pos v).
    destruct (prop_parts off n v) as (_ & E2 & E3 & _); [unfold in_u32; dmlia|by apply noff_range|done|]. rewrite E2. cbn [mbind fd_bind]. rewrite E3. cbn [mbind fd_bind]. rewrite (strings_get_at _ n) by done. cbn [mbind fd_bind].
    destruct (strcmp_at name n (off_strings fdt + noff n)) as (c & Ec & Hc); [done|done|apply Hs|]. rewrite Ec. cbn [mbind fd_bind]. destruct (decide (n = name)) as [->|Hne].
    + rewrite (proj2 (Z.eqb_eq c 0)) by tauto. rewrite u32_small by (unfold in_u32; dmlia). unfold mret, fd_ret. do 3 f_equal. lia.
    + rewrite (proj2 (Z.eqb_neq c 0)) by tauto. apply IH; [done|lia].
  - apply body_node in Hbo as [H1 _]. rewrite (node_token off _ H1). by tokens.
Qed.
Lemma prop_of_at t off name o d : body_at off t -> prop_of noff off t name = Some (o, d) -> bytes_at (blob fdt) (off_struct fdt + o) d.
Proof.
  pose proof (size_small _ Hok). revert off. induction t as [|r IH|n v r IH|n b IHb r IHr]; intros off Hbo Hp; cbn [prop_of] in Hp; [done| | |done].
  - apply body_nop in Hbo as [_ H2]. by apply (IH (off + 4)).
  - apply body_prop in Hbo as (Hn & Hs & H1 & H2). destruct (decide (n = name)) as [->|Hne]; [|by apply (IH _ H2)]. injection Hp as <- <-. pose proof H1 as (? & _ & Hl & _). rewrite zlen_prop, zlen_pad4 in Hl. pose proof (zlen_pos v).
    apply (prop_parts off name v); [unfold in_u32; dmlia|by apply noff_range|done].
Qed.
Lemma prop_raw_at off n b name : text name -> node_at off (n, b) ->
  Fdt_PropRaw fdt off name = Some (match prop_of noff (off + zlen (begin_bytes n)) b name with Some (o, d) => Ok (off_struct fdt + o, zlen d) | None => Err CARA_ENOTFOUND end).
Proof.
  intros Hname Hn. unfold Fdt_PropRaw, fdt_find_prop. rewrite (node_token off _ Hn). tokens. destruct Hn as (_ & _ & Hbo). cbn [fst snd] in *. rewrite (find_prop_from_at b) by (done || by apply (ntok_steps (off + zlen (begin_bytes n)))). by destruct (prop_of _ _ _ _) as [[o d]|].
Qed.

Lemma parents_range t off p c q : body_at off t -> (c, q) ∈ parents noff off t p -> off <= c < off + zlen (encode noff t).
Proof.
  revert off p. induction t as [|r IH|n v r IH|n b IHb r IHr]; intros off p Hbo Hin; cbn [parents encode] in *; rewrite ?zlen_app.
  - by apply elem_of_nil in Hin.
  - apply body_nop in Hbo as [_ H2]. apply (IH _ _ H2) in Hin. rewrite zlen_word. lia.
  - apply body_prop in Hbo as (_ & _ & _ & H2). apply (IH _ _ H2) in Hin. pose proof (zlen_pos (prop_bytes noff n v)). lia.
  - apply body_node in Hbo as [(_ & _ & H1) H2]. cbn [fst snd] in *. rewrite zlen_word. pose proof (zlen_pos (encode noff r)). pose proof (zlen_pos (begin_bytes n)). pose proof (zlen_pos (encode noff b)). rewrite zlen_node in *. apply elem_of_cons in Hin as [[= -> ->]|Hin]; [lia|].
    apply elem_of_app in Hin as [Hin|Hin]; [apply (IHb _ _ H1) in Hin; lia|apply (IHr _ _ H2) in Hin; lia].
Qed.
Lemma parent_pop off n b child p anc fuel : body_at (off + zlen (begin_bytes n)) b ->
  parent_from (S fuel) fdt child (off + zlen (begin_bytes n) + zlen (encode noff b)) (p :: anc) = parent_from fuel fdt child (off + zlen (node_bytes noff n b)) anc.
Proof.
  intros [_ Hin]. apply in_struct_app in Hin as [_ Hw]; [|apply encode_mod]. pose proof Hw as (? & _ & Hl & _). rewrite zlen_word in Hl. cbn [parent_from]. rewrite (proj2 (Z.ltb_lt _ _)) by lia. rewrite (token_plain _ FDT_END_NODE) by auto. tokens. f_equal. rewrite zlen_node. lia.
Qed.
(** Scanning past a body: the stack of ancestors is as before. *)
Lemma parent_skip t off child anc fuel : body_at off t -> off + zlen (encode noff t) <= child -> Z.of_nat (length anc + levels t) <= MAX_DEPTH -> (0 < length anc)%nat ->
  parent_from (ntok t + fuel) fdt child off anc = parent_from fuel fdt child (off + zlen (encode noff t)) anc.
Proof.
  revert off anc fuel. induction t as [|r IH|n v r IH|n b IHb r IHr]; intros off anc fuel Hbo Hni Hd Ha; pose proof (body_lt _ _ Hbo) as Hlt; cbn [ntok encode levels] in *; [by rewrite Z.add_0_r| | |]; cbn [Nat.add parent_from]; rewrite (proj2 (Z.ltb_lt _ _)) by lia; rewrite ?zlen_app, ?zlen_word in *.
  - apply body_nop in Hbo as [H1 H2]. rewrite (token_plain off FDT_NOP) by auto. tokens. rewrite IH by (done || lia). by rewrite Z.add_assoc.
  - apply body_prop in Hbo as (Hn & Hs & H1 & H2). rewrite (token_prop off n v) by (done || by apply noff_range). tokens. rewrite IH by (done || lia). by rewrite Z.add_assoc.
  - apply body_node in Hbo as [H1 H2]. rewrite (node_token off _ H1). tokens. destruct H1 as (_ & _ & H1). cbn [fst snd] in *. pose proof (zlen_pos (encode noff r)). pose proof (zlen_pos (begin_bytes n)). pose proof (zlen_pos (encode noff b)). rewrite (proj2 (Z.eqb_neq off child)) by lia. rewrite (proj2 (Z.leb_gt _ _)) by lia.
    rewrite <- Nat.add_assoc. rewrite IHb by (done || (cbn [length]; lia)). cbn [Nat.add]. rewrite (parent_pop off n b) by done. rewrite IHr by (done || (rewrite zlen_node; lia) || lia). f_equal. rewrite zlen_node. lia.
Qed.
Lemma parent_find t off child q p anc fuel : body_at off t -> (child, q) ∈ parents noff off t p -> Z.of_nat (S (length anc) + levels t) <= MAX_DEPTH -> parent_from (ntok t + fuel) fdt child off (p :: anc) = Some (Ok q).
Proof.
  revert off p anc fuel. induction t as [|r IH|n v r IH|n b IHb r IHr]; intros off p anc fuel Hbo Hin Hd; pose proof (body_lt _ _ Hbo) as Hlt; cbn [ntok parents levels] in *; [by apply elem_of_nil in Hin| | |]; cbn [Nat.add parent_from]; rewrite (proj2 (Z.ltb_lt _ _)) by lia.
  - apply body_nop in Hbo as [H1 H2]. rewrite (token_plain off FDT_NOP) by auto. tokens. by apply IH.
  - apply body_prop in Hbo as (Hn & Hs & H1 & H2). rewrite (token_prop off n v) by (done || by apply noff_range). tokens. by apply IH.
  - apply body_node in Hbo as [H1 H2]. rewrite (node_token off _ H1). tokens. destruct H1 as (_ & _ & H1). cbn [fst snd] in *. pose proof (zlen_pos (encode noff b)). pose proof (zlen_begin n). pose proof (zlen_pos (pad4 (n ++ [0]))). apply elem_of_cons in Hin as [[= -> ->]|Hin]; [by rewrite Z.eqb_refl|].
    apply elem_of_app in Hin as [Hin|Hin]; [pose proof (parents_range _ _ _ _ _ H1 Hin)|pose proof (parents_range _ _ _ _ _ H2 Hin); pose proof (zlen_node n b)]; rewrite (proj2 (Z.eqb_neq off child)) by lia; rewrite (proj2 (Z.leb_gt _ _)) by (cbn [length] in *; lia); rewrite <- Nat.add_assoc.
    + apply IHb; [done|done|cbn [length]; lia].
    + rewrite parent_skip by (done || lia || (cbn [length]; lia)). cbn [Nat.add]. rewrite (parent_pop off n b) by done. apply IHr; [done|done|lia].
Qed.

Definition nops (n : nat) : list Z := concat (replicate n (word FDT_NOP)).
Lemma zlen_nops n : zlen (nops n) = 4 * Z.of_nat n.
Proof. unfold nops. induction n as [|n IH]; [done|]. cbn [replicate concat]. rewrite zlen_app, IH, zlen_word. lia. Qed.
Lemma nops_S off n : in_struct fdt off (nops (S n)) -> in_struct fdt off (word FDT_NOP) /\ in_struct fdt (off + 4) (nops n) /\ off + zlen (nops (S n)) = off + 4 + zlen (nops n).
Proof. intros Hin. unfold nops in Hin. cbn [replicate concat] in Hin. apply in_struct_app in Hin as [H1 H2]; [|done]. split; [done|]. split; [done|]. rewrite !zlen_nops. lia. Qed.
Lemma parent_nops n off child anc fuel : in_struct fdt off (nops n) -> parent_from (n + fuel) fdt child off anc = parent_from fuel fdt child (off + zlen (nops n)) anc.
Proof.
  revert off. induction n as [|n IH]; intros off Hin; [by rewrite Z.add_0_r|]. destruct (nops_S _ _ Hin) as (H1 & H2 & E). pose proof H1 as (_ & _ & Hl & _). rewrite zlen_word in Hl. cbn [Nat.add parent_from]. rewrite (proj2 (Z.ltb_lt _ _)) by lia. rewrite (token_plain off FDT_NOP) by auto. tokens.
  rewrite IH by done. by rewrite E.
Qed.
Lemma kids_parent t off p k : k ∈ kids noff off t -> (fst k, p) ∈ parents noff off t p.
Proof.
  revert off. induction t as [|r IH|n v r IH|n b IHb r IHr]; intros off Hin; cbn [kids parents] in *; [by apply elem_of_nil in Hin|by apply IH|by apply IH|]. apply elem_of_cons in Hin as [->|Hin]; [by left|]. right. apply elem_of_app. right. by apply IHr.
Qed.
Lemma kid_below t off p o n b x : (o, (n, b)) ∈ kids noff off t -> x ∈ parents noff (o + zlen (begin_bytes n)) b o -> x ∈ parents noff off t p.
Proof.
  intros Hk Hx. revert off Hk. induction t as [|r IH|n' v r IH|n' b' IHb r IHr]; intros off Hk; cbn [kids parents] in *; [by apply elem_of_nil in Hk|by apply IH|by apply IH|]. apply elem_of_cons in Hk as [[= -> -> ->]|Hk]; right; apply elem_of_app; [by left|right; by apply IHr].
Qed.
Lemma walk_parent segs root n b off nm body k : walk noff segs (root, (n, b)) = Some (off, (nm, body)) -> k ∈ kids noff (off + zlen (begin_bytes nm)) body -> (fst k, off) ∈ parents noff (root + zlen (begin_bytes n)) b root.
Proof.
  revert root n b. induction segs as [|seg segs IH]; intros root n b Hw Hk; cbn [walk] in Hw; [injection Hw as <- <- <-; by apply kids_parent|]. destruct (list_find _ _) as [[i [o [n' b']]]|] eqn:Ef; [|done]. cbn in Hw. apply list_find_Some in Ef as (Hi & _). apply list_elem_of_lookup_2 in Hi.
  apply (kid_below _ _ _ o n' b' _ Hi). by apply (IH o n' b').
Qed.
Lemma find_parent_at n name body child q : in_struct fdt 0 (nops n) -> node_at (zlen (nops n)) (name, body) -> (child, q) ∈ parents noff (zlen (nops n) + zlen (begin_bytes name)) body (zlen (nops n)) -> Z.of_nat (levels body) < MAX_DEPTH ->
  fdt_find_parent fdt child = Some (Ok q).
Proof.
  intros Hn0 Hr Hin Hd. pose proof Hr as (_ & _ & Hbo). cbn [fst snd] in Hbo. pose proof (body_lt _ _ Hbo). pose proof (zlen_nops n). pose proof (zlen_pos (begin_bytes name)). pose proof (parents_range _ _ _ _ _ Hbo Hin). pose proof (zlen_begin name). pose proof (zlen_pos (pad4 (name ++ [0]))).
  pose proof (ntok_len body). destruct Hbo as [Hw Hbi]. pose proof Hbi as (_ & _ & Hl & _). rewrite zlen_app, zlen_word in Hl. unfold fdt_find_parent. replace (struct_steps fdt) with (n + S (ntok body + (Z.to_nat (size_struct fdt) - n - ntok body)))%nat by (unfold struct_steps; lia).
  rewrite parent_nops by done. rewrite Z.add_0_l. cbn [parent_from]. rewrite (proj2 (Z.ltb_lt _ _)) by lia. rewrite (node_token _ _ Hr). tokens. rewrite (proj2 (Z.eqb_neq _ child)) by lia. change (MAX_DEPTH <=? Z.of_nat (length [])) with false. cbn iota.
  apply (parent_find body _ child q); [done|done|cbn [length]; lia].
Qed.
Lemma byte_u8 p x : byte_at (blob fdt) p = Some x -> in_u8 x.
Proof. intros E. pose proof (byte_at_lt _ _ _ E). destruct (byte_runs (blob fdt) p (fo_bytes _ Hok) ltac:(lia)) as (r & Er & Hr). rewrite E in Er. injection Er as <-. by apply (Hr _ eq_refl). Qed.
Lemma cell_at p n b name d : text name -> node_at p (n, b) -> exists r, Fdt_PropU32 fdt p name = Some r /\ (match r with Ok v => v | Err _ => d end) = cell_of noff (p + zlen (begin_bytes n)) b name d.
Proof.
  intros Ht Hn. unfold Fdt_PropU32, cell_of. rewrite (prop_raw_at p n b name Ht Hn). destruct (prop_of _ _ _ _) as [[o data]|] eqn:Ep; cbn [mbind fd_bind]; [|by eexists]. pose proof (prop_of_at _ _ _ _ _ (proj2 (proj2 Hn)) Ep) as Hd. unfold zlen.
  destruct data as [|x0 [|x1 [|x2 [|x3 [|x4 data]]]]]; cbn [length]; [by eexists..| |].
  - change (Z.of_nat 4 =? 4) with true. cbn iota. destruct Hd as [_ Hd]. pose proof (Hd 0%nat _ eq_refl) as H0. pose proof (Hd 1%nat _ eq_refl) as H1. pose proof (Hd 2%nat _ eq_refl) as H2. pose proof (Hd 3%nat _ eq_refl) as H3.
    change (Z.of_nat 0) with 0 in H0. change (Z.of_nat 1) with 1 in H1. change (Z.of_nat 2) with 2 in H2. change (Z.of_nat 3) with 3 in H3. rewrite Z.add_0_r in H0. unfold fdt_be32. rewrite H0. cbn [fd_read mbind fd_bind]. rewrite H1. cbn [fd_read mbind fd_bind]. rewrite H2. cbn [fd_read mbind fd_bind]. rewrite H3. cbn [fd_read mbind fd_bind].
    eexists. split; [done|]. cbn iota. rewrite be_value by (by eapply byte_u8). done.
  - rewrite (proj2 (Z.eqb_neq _ 4)) by lia. by eexists.
Qed.
Lemma parent_cells_at child p n b : fdt_find_parent fdt child = Some (Ok p) -> node_at p (n, b) ->
  fdt_get_parent_cells fdt child = Some (Ok (cell_of noff (p + zlen (begin_bytes n)) b (cstr "#address-cells") 2, cell_of noff (p + zlen (begin_bytes n)) b (cstr "#size-cells") 1)).
Proof.
  intros Ep Hn. unfold fdt_get_parent_cells. rewrite Ep. cbn [fd_case]. destruct (cell_at p n b (cstr "#address-cells") 2) as (ra & -> & <-); [repeat constructor|done|]. destruct (cell_at p n b (cstr "#size-cells") 1) as (rs & -> & <-); [repeat constructor|done|]. done.
Qed.
Lemma cells_at p n v : 0 <= n <= 2 -> 0 <= v < 2 ^ (32 * n) -> bytes_at (blob fdt) p (cell_bytes n v) -> cells (blob fdt) p n = Some (Ok v).
Proof.
  intros Hn Hv Hb. assert (n = 0 \/ n = 1 \/ n = 2) as [->|[->| ->]] by lia; unfold cells; change (seqZ 0 0) with (@nil Z); change (seqZ 0 1) with [0]; change (seqZ 0 2) with [0; 1]; cbn [foldl]; cbn [cell_bytes Z.eqb Pos.eqb] in Hb.
  - unfold mret, fd_ret. do 2 f_equal. change (2 ^ (32 * 0)) with 1 in Hv. lia.
  - change (2 ^ (32 * 1)) with (2 ^ 32) in Hv. cbn [mbind fd_bind mret fd_ret]. rewrite Z.mul_0_l, Z.add_0_r. rewrite (be32_at _ _ v) by done. done.
  - change (2 ^ (32 * 2)) with (2 ^ 64) in Hv. change (cell_bytes 2 v) with (word (v / 2 ^ 32) ++ word (v mod 2 ^ 32)) in Hb. apply bytes_at_app in Hb as [H1 H2]. rewrite zlen_word in H2. assert (in_u32 (v / 2 ^ 32) /\ in_u32 (v mod 2 ^ 32)) as [U1 U2] by (unfold in_u32; clear -Hv; dmlia). cbn [mbind fd_bind mret fd_ret]. rewrite Z.mul_0_l, Z.add_0_r. rewrite (be32_at _ _ _ U1 H1). cbn [mbind fd_bind mret fd_ret].
    change (1 * 4) with 4. rewrite (be32_at _ _ _ U2 H2). cbn [mbind fd_bind mret fd_ret]. do 2 f_equal. change (u64 (Z.shiftl 0 32)) with 0. rewrite Z.lor_0_l. rewrite Z.shiftl_mul_pow2 by lia. rewrite u64_small by (unfold in_u64; clear -Hv; dmlia).
    assert (Z.land (v / 2 ^ 32 * 2 ^ 32) (v mod 2 ^ 32) = 0) as E. { apply Z.bits_inj_0. intros i. rewrite Z.land_spec. destruct (Z.lt_ge_cases i 32); [by rewrite Z.mul_pow2_bits_low|]. rewrite (bits_above 32 (v mod 2 ^ 32) i) by dmlia. by rewrite andb_false_r. }
    rewrite <- Z.lxor_lor by done. rewrite <- Z.add_nocarry_lxor by done. unfold mret, fd_ret. do 2 f_equal. rewrite (Z.mul_comm (v / 2 ^ 32)). symmetry. by apply Z.div_mod.
Qed.
Lemma prop_of_fits t off name o d : body_at off t -> prop_of noff off t name = Some (o, d) -> zlen d <= size_struct fdt.
Proof.
  revert off. induction t as [|r IH|n v r IH|n b IHb r IHr]; intros off Hbo Hp; cbn [prop_of] in Hp; [done| | |done].
  - apply body_nop in Hbo as [_ H2]. by apply (IH (off + 4)).
  - apply body_prop in Hbo as (Hn & Hs & H1 & H2). destruct (decide (n = name)) as [->|Hne]; [|by apply (IH _ H2)]. injection Hp as <- <-. pose proof H1 as (? & _ & Hl & _). rewrite zlen_prop, zlen_pad4 in Hl. pose proof (zlen_pos v). dmlia.
Qed.

Lemma zlen_cell n v : 0 <= n <= 2 -> zlen (cell_bytes n v) = n * 4.
Proof. intros Hn. by assert (n = 0 \/ n = 1 \/ n = 2) as [->|[->| ->]] by lia. Qed.
Lemma zlen_regs ac sc es : 0 <= ac <= 2 -> 0 <= sc <= 2 -> zlen (concat (map (reg_bytes ac sc) es)) = Z.of_nat (length es) * ((ac + sc) * 4).
Proof. intros Ha Hs. induction es as [|e es IH]; [done|]. cbn [map concat length]. rewrite zlen_app, IH. unfold reg_bytes. rewrite zlen_app, !zlen_cell by done. lia. Qed.
Lemma regs_entry b p ac sc es i e : 0 <= ac <= 2 -> 0 <= sc <= 2 -> bytes_at b p (concat (map (reg_bytes ac sc) es)) -> es !! i = Some e ->
  bytes_at b (p + Z.of_nat i * ((ac + sc) * 4)) (cell_bytes ac (fst e)) /\ bytes_at b (p + Z.of_nat i * ((ac + sc) * 4) + ac * 4) (cell_bytes sc (snd e)).
Proof.
  intros Ha Hs Hb Hi. rewrite <- (take_drop_middle es i e Hi) in Hb. rewrite map_app, concat_app in Hb. cbn [map concat] in Hb. apply bytes_at_app in Hb as [_ Hb]. apply bytes_at_app in Hb as [Hb _]. rewrite zlen_regs in Hb by done. rewrite length_take_le in Hb by (apply lookup_lt_Some in Hi; lia).
  unfold reg_bytes in Hb. apply bytes_at_app in Hb as [H1 H2]. by rewrite zlen_cell in H2.
Qed.
Lemma prop_reg_at child n b ac sc o es i : node_at child (n, b) -> fdt_get_parent_cells fdt child = Some (Ok (ac, sc)) -> 1 <= ac <= 2 -> 0 <= sc <= 2 ->
  prop_of noff (child + zlen (begin_bytes n)) b (cstr "reg") = Some (o, concat (map (reg_bytes ac sc) es)) -> Forall (reg_ok ac sc) es -> 0 <= i ->
  Fdt_PropReg fdt child i = Some (match es !! Z.to_nat i with Some e => Ok e | None => Err CARA_ENOTFOUND end).
Proof.
  intros Hn Hc Ha Hs Hp Hes Hi. pose proof (size_small _ Hok). unfold Fdt_PropReg. rewrite Hc. cbn [mbind fd_bind]. rewrite (proj2 (Z.eqb_neq ac 0)), (proj2 (Z.ltb_ge 2 ac)), (proj2 (Z.ltb_ge 2 sc)) by lia. cbn [orb negb]. rewrite (prop_raw_at child n b) by first [done | repeat constructor]. rewrite Hp. cbn [mbind fd_bind].
  pose proof (prop_of_at _ _ _ _ _ (proj2 (proj2 Hn)) Hp) as Hb. assert (zlen (concat (map (reg_bytes ac sc) es)) <= size_struct fdt) as Hfit by (by apply (prop_of_fits b (child + zlen (begin_bytes n)) (cstr "reg") o); [apply Hn|]). rewrite zlen_regs in * by lia. cbn zeta. rewrite (u32_small (ac + sc)), (u32_small ((ac + sc) * 4)) by (unfold in_u32; lia).
  rewrite (proj2 (Z.eqb_neq _ 0)) by lia. cbn [negb]. rewrite Z.mod_mul by lia. change (0 =? 0) with true. cbn iota. rewrite Z.div_mul by lia. destruct (es !! Z.to_nat i) as [e|] eqn:Ee.
  - pose proof (lookup_lt_Some _ _ _ Ee). rewrite (proj2 (Z.leb_gt _ _)) by lia. cbn [negb]. rewrite u32_small by (unfold in_u32; nia). apply (regs_entry _ _ ac sc es (Z.to_nat i) e) in Hb as [H1 H2]; [|lia|lia|done]. rewrite Z2Nat.id in H1, H2 by lia. rewrite Forall_forall in Hes. destruct (Hes e) as [R1 R2]; [by apply list_elem_of_lookup_2 in Ee|].
    rewrite (cells_at _ ac (fst e)) by (done || lia). cbn [mbind fd_bind]. rewrite (cells_at _ sc (snd e)) by (done || lia). by destruct e.
  - apply lookup_ge_None in Ee. by rewrite (proj2 (Z.leb_le _ _)) by lia.
Qed.

Definition strlist (ss : list (list Z)) : list Z := concat (map (fun s => s ++ [0]) ss).
Lemma strlist_last ss s : exists l, strlist (ss ++ [s]) = l ++ [0].
Proof. exists (strlist ss ++ s). unfold strlist. rewrite map_app, concat_app. cbn [map concat]. by rewrite app_nil_r, app_assoc. Qed.
Lemma str_end_at fuel base len i s : 0 <= i -> len < 2 ^ 31 -> text s -> bytes_at (blob fdt) (base + i) (s ++ [0]) -> i + zlen s < len -> (length s < fuel)%nat -> str_end fuel (blob fdt) base len i = Some (Ok (i + zlen s)).
Proof.
  revert fuel i. induction s as [|c s IH]; intros fuel i Hi Hl Ht Hb Hs Hf; (destruct fuel as [|fuel]; [cbn in Hf; lia|]); cbn [str_end]; cbn [app] in Hb; apply text_head in Hb as [Hx Hb].
  - change (zlen []) with 0 in *. rewrite (proj2 (Z.ltb_lt _ _)) by lia. rewrite Hx, Z.add_0_r. done.
  - apply Forall_cons in Ht as [Hc Ht]. change (zlen (c :: s)) with (zlen ([c] ++ s)) in *. rewrite zlen_app in *. change (zlen [c]) with 1 in *. pose proof (zlen_pos s). rewrite (proj2 (Z.ltb_lt _ _)) by lia. rewrite Hx. cbn [fd_read mbind fd_bind].
    rewrite (proj2 (Z.eqb_neq c 0)) by lia. cbn [negb]. rewrite u32_small by (unfold in_u32; lia). rewrite IH; [do 2 f_equal; lia|lia|done|done|by rewrite Z.add_assoc|lia|cbn in Hf; lia].
Qed.
Section Strings.
Context (node base : Z) (prop : list Z) (ss : list (list Z)).
Context (Hraw : Fdt_PropRaw fdt node prop = Some (Ok (base, zlen (strlist ss)))) (Hbs : bytes_at (blob fdt) base (strlist ss)) (Hsm : zlen (strlist ss) < 2 ^ 31) (Htext : Forall text ss).
Lemma str_iter_end cursor : zlen (strlist ss) <= cursor -> Fdt_PropStrIter fdt node prop cursor = Some (Err CARA_ENOTFOUND).
Proof. intros H. unfold Fdt_PropStrIter. rewrite Hraw. cbn [mbind fd_bind]. by rewrite (proj2 (Z.leb_le _ _)) by lia. Qed.
Lemma str_iter_at pre s post : ss = pre ++ s :: post -> Fdt_PropStrIter fdt node prop (zlen (strlist pre)) = Some (Ok (base + zlen (strlist pre), zlen (strlist (pre ++ [s])))) /\ bytes_at (blob fdt) (base + zlen (strlist pre)) (s ++ [0]).
Proof.
  intros Ess. assert (strlist ss = strlist pre ++ (s ++ [0]) ++ strlist post) as Esp by (rewrite Ess; unfold strlist; by rewrite map_app, concat_app). pose proof Hbs as Hb. rewrite Esp in Hb. apply bytes_at_app in Hb as [_ Hb]. apply bytes_at_app in Hb as [Hb _].
  assert (exists l, strlist ss = l ++ [0]) as [l El] by (rewrite Ess; destruct (exists_last (l := s :: post)) as (q & x & ->); [done|]; rewrite app_assoc; apply strlist_last). assert (text s) as Hts by (rewrite Ess in Htext; apply Forall_app in Htext as [_ Ht]; by apply Forall_cons in Ht as [? _]).
  pose proof (f_equal zlen Esp) as Hlen. rewrite !zlen_app in Hlen. change (zlen [0]) with 1 in Hlen. pose proof (zlen_pos (strlist pre)). pose proof (zlen_pos s). pose proof (zlen_pos (strlist post)). split; [|done]. unfold Fdt_PropStrIter. rewrite Hraw. cbn [mbind fd_bind].
  rewrite (proj2 (Z.leb_gt _ _)) by lia. cbn [negb]. rewrite u32_small by (unfold in_u32; lia). assert (byte_at (blob fdt) (base + (zlen (strlist ss) - 1)) = Some 0) as E0.
  { pose proof Hbs as Hb'. rewrite El in Hb'. apply bytes_at_app in Hb' as [_ Hb']. apply text_head in Hb' as [Hb' _]. pose proof (f_equal zlen El) as Hl. rewrite zlen_app in Hl. change (zlen [0]) with 1 in Hl. by replace (zlen (strlist ss) - 1) with (zlen l) by lia. }
  rewrite E0. cbn [fd_read mbind fd_bind Z.eqb]. rewrite (str_end_at _ _ _ _ s) by (done || lia || (unfold zlen in *; lia)). cbn [mbind fd_bind]. rewrite (proj2 (Z.leb_gt _ _)) by lia. cbn [negb]. rewrite u32_small by (unfold in_u32; lia). unfold mret, fd_ret. do 3 f_equal.
  unfold strlist. rewrite map_app, concat_app, zlen_app. cbn [map concat]. rewrite app_nil_r, zlen_app. change (zlen [0]) with 1. lia.
Qed.
End Strings.
Lemma compatible_at node base ss compat pre post fuel : text compat -> Fdt_PropRaw fdt node (cstr "compatible") = Some (Ok (base, zlen (strlist ss))) -> bytes_at (blob fdt) base (strlist ss) -> zlen (strlist ss) < 2 ^ 31 -> Forall text ss ->
  ss = pre ++ post -> (length post < fuel)%nat -> compatible_from fuel fdt node compat (zlen (strlist pre)) = Some (Ok (bool_decide (compat ∈ post))).
Proof.
  intros Hc Hraw Hbs Hsm Ht. revert pre post. induction fuel as [|fuel IH]; intros pre post Ess Hf; [lia|]. cbn [compatible_from]. destruct post as [|s post].
  - rewrite app_nil_r in Ess. subst pre. by rewrite (str_iter_end node base _ ss Hraw) by lia.
  - destruct (str_iter_at node base _ ss Hraw Hbs Hsm Ht pre s post Ess) as [-> Hb]. cbn [fd_case]. assert (text s) as Hts by (rewrite Ess in Ht; apply Forall_app in Ht as [_ Ht]; by apply Forall_cons in Ht as [? _]).
    destruct (strcmp_at compat s _ Hts Hc Hb) as (c & -> & Hc0). cbn [mbind fd_bind]. destruct (decide (s = compat)) as [->|Hne].
    + rewrite (proj2 (Z.eqb_eq c 0)) by tauto. rewrite bool_decide_eq_true_2; [done|]. by left.
    + rewrite (proj2 (Z.eqb_neq c 0)) by tauto. rewrite (IH (pre ++ [s]) post); [|by rewrite <- app_assoc|cbn in Hf; lia]. do 2 f_equal. apply bool_decide_ext. rewrite elem_of_cons. split; [by right|by intros [->|?]].
Qed.
Lemma strlist_length ss : (length ss <= length (strlist ss))%nat.
Proof. unfold strlist. induction ss as [|s ss IH]; [done|]. cbn [map concat length]. rewrite !length_app. cbn [length]. lia. Qed.
Lemma is_compatible_at off n b o ss compat : text compat -> node_at off (n, b) -> prop_of noff (off + zlen (begin_bytes n)) b (cstr "compatible") = Some (o, strlist ss) -> Forall text ss ->
  Fdt_NodeIsCompatible fdt off compat = Some (Ok (bool_decide (compat ∈ ss))).
Proof.
  intros Hc Hn Hp Ht. assert (text (cstr "compatible")) as Htc by (repeat constructor). pose proof (prop_raw_at off n b _ Htc Hn) as Hraw. rewrite Hp in Hraw. pose proof (prop_of_at b _ _ _ _ (proj2 (proj2 Hn)) Hp) as Hb. pose proof (prop_of_fits b _ _ _ _ (proj2 (proj2 Hn)) Hp) as Hs.
  pose proof (size_small _ Hok). unfold Fdt_NodeIsCompatible. apply (compatible_at off (off_struct fdt + o) ss compat [] ss); [done|done|done|lia|done|done|]. pose proof (strlist_length ss). unfold struct_steps, zlen in *. lia.
Qed.
Lemma root_at n off node fuel : in_struct fdt off (nops n) -> node_at (off + zlen (nops n)) node -> (n < fuel)%nat -> root_from fuel fdt off = Some (Ok (off + zlen (nops n))).
Proof.
  revert off fuel. induction n as [|n IH]; intros off fuel Hin Hn Hf; (destruct fuel as [|fuel]; [lia|]); cbn [root_from].
  - rewrite Z.add_0_r in *. assert (off < size_struct fdt) as Hlt by (destruct (body_lt _ _ (proj2 (proj2 Hn))); pose proof (zlen_pos (begin_bytes (fst node))); lia). rewrite (proj2 (Z.ltb_lt _ _)) by done. rewrite (node_token off node Hn). cbn [fd_case]. by tokens.
  - unfold nops in Hin. cbn [replicate concat] in Hin. apply in_struct_app in Hin as [H1 H2]; [|done]. fold (nops n) in H2. rewrite zlen_word in H2. replace (off + zlen (nops (S n))) with (off + 4 + zlen (nops n)) in * by (rewrite !zlen_nops; lia).
    pose proof H1 as (_ & _ & Hl & _). rewrite zlen_word in Hl. rewrite (proj2 (Z.ltb_lt _ _)) by lia. rewrite (token_plain off FDT_NOP) by auto. cbn [fd_case]. tokens. cbn [negb]. apply IH; [done|done|lia].
Qed.
Lemma resolve_path_at root node segs : Fdt_Root fdt = Some (Ok root) -> node_at root node -> Forall seg_ok segs -> Fdt_ResolvePath fdt (path_of segs) = Some (found (walk noff segs (root, node))).
Proof.
  intros Hr Hn Hs. unfold Fdt_ResolvePath, path_of. rewrite Hr. cbn [mbind fd_bind]. pose proof (resolve_join segs (S (length (join segs))) (root, node) Hn Hs ltac:(lia)) as E. destruct (join segs) as [|c p] eqn:Ej; [|done].
  destruct segs as [|seg segs]; [done|]. apply Forall_cons in Hs as [[Hne _] _]. destruct segs; cbn [join] in Ej; [done|]. by apply app_nil in Ej as [? _].
Qed.
End Decode.


(** * A small device tree *)

Lemma bytes_at_slice b p bs : take (length bs) (drop (Z.to_nat p) b) = bs -> 0 <= p -> bytes_at b p bs.
Proof.
  intros E Hp. split; [done|]. intros i x Hi. rewrite <- E in Hi. apply lookup_take_Some in Hi as [Hi _]. rewrite lookup_drop in Hi. unfold byte_at. rewrite (proj2 (Z.leb_le _ _)) by lia. by replace (Z.to_nat (p + Z.of_nat i)) with (Z.to_nat p + i)%nat by lia.
Qed.
Module FdtExample.
Definition noff (name : list Z) : Z := if decide (name = cstr "reg") then 11 else 0.
Definition uart : tree := Prop_ (cstr "compatible") (strlist [cstr "sifive,uart0"; cstr "ns16550a"]) (Prop_ (cstr "reg") (word 0x10000000 ++ word 0x100) Leaf).
Definition dt_body : tree := Prop_ (cstr "compatible") (strlist [cstr "cara,board"]) (Nop (Node (cstr "soc") (Node (cstr "uart@10000000") uart (Node (cstr "rtc@101000") Leaf Leaf)) Leaf)).
Definition struct_block : list Z := nops 1 ++ encode noff (Node [] dt_body Leaf) ++ word FDT_END.
Definition strings_block : list Z := cstr "compatible" ++ [0] ++ cstr "reg" ++ [0].
Definition dtb : list Z :=
  word FDT_MAGIC ++ word (56 + zlen struct_block + 15) ++ word 56 ++ word (56 + zlen struct_block) ++ word 40 ++ word 17 ++ word 16 ++ word 0 ++ word 15 ++ word (zlen struct_block) ++
  replicate 16 0 ++ struct_block ++ strings_block.
Definition the_fdt : Fdt := mkFdt dtb (56 + zlen struct_block + 15) 56 (zlen struct_block) (56 + zlen struct_block) 15 40 17 0.
Lemma dtb_opens : Fdt_Open 0x80000000 dtb = Some (Ok the_fdt).
Proof. vm_compute. reflexivity. Qed.
Lemma dtb_bytes : bytes_ok dtb.
Proof. unfold bytes_ok. apply (bool_decide_unpack (Forall in_u8 dtb)). vm_compute. exact I. Qed.
Definition uart_off : Z := 48.
Lemma uart_found : walk noff [cstr "soc"; cstr "uart"] (zlen (nops 1), ([], dt_body)) = Some (uart_off, (cstr "uart@10000000", uart)).
Proof. vm_compute. reflexivity. Qed.
Lemma uart_compatible : prop_of noff (uart_off + zlen (begin_bytes (cstr "uart@10000000"))) uart (cstr "compatible") = Some (80, strlist [cstr "sifive,uart0"; cstr "ns16550a"]).
Proof. vm_compute. reflexivity. Qed.
Lemma text_cstr (s : string) : forallb (fun c => (0 <? c) && (c <? 256)) (cstr s) = true -> text (cstr s).
Proof. intros H. apply Forall_forall. intros c Hc. rewrite forallb_forall in H. apply list_elem_of_In in Hc. apply H in Hc. apply andb_true_iff in Hc as [H1%Z.ltb_lt H2%Z.ltb_lt]. done. Qed.
Lemma dtb_tree : tree_ok noff the_fdt (Node [] dt_body Leaf).
Proof.
  assert (string_at the_fdt (noff (cstr "compatible")) (cstr "compatible")) as H1 by (split; [done|]; split; [done|]; apply bytes_at_slice; [vm_compute; reflexivity|done]).
  assert (string_at the_fdt (noff (cstr "reg")) (cstr "reg")) as H2 by (split; [done|]; split; [done|]; apply bytes_at_slice; [vm_compute; reflexivity|done]).
  cbn [tree_ok dt_body uart]. repeat match goal with |- _ /\ _ => split | |- text [] => constructor | |- text _ => apply text_cstr; vm_compute; reflexivity | |- True => exact I | _ => assumption end.
Qed.
Lemma dtb_struct : in_struct the_fdt 0 (nops 1 ++ encode noff (Node [] dt_body Leaf) ++ word FDT_END).
Proof. split; [done|]. split; [done|]. split; [vm_compute; discriminate|]. apply bytes_at_slice; [vm_compute; reflexivity|done]. Qed.
Lemma segs_ok : Forall seg_ok [cstr "soc"; cstr "uart"].
Proof. repeat constructor; try discriminate; apply (bool_decide_unpack (_ ∉ _)); vm_compute; exact I. Qed.

(** A match at offset 0 starts the search again, and a match inside a match is passed over. *)
Definition bus : tree := Prop_ (cstr "compatible") (strlist [cstr "b"]) (Node (cstr "x") (Prop_ (cstr "compatible") (strlist [cstr "b"; cstr "c"]) (Node (cstr "y") (Prop_ (cstr "compatible") (strlist [cstr "c"]) Leaf) Leaf)) Leaf).
Definition bus_block : list Z := encode noff (Node [] bus Leaf) ++ word FDT_END.
Definition bus_dtb : list Z :=
  word FDT_MAGIC ++ word (56 + zlen bus_block + 15) ++ word 56 ++ word (56 + zlen bus_block) ++ word 40 ++ word 17 ++ word 16 ++ word 0 ++ word 15 ++ word (zlen bus_block) ++ replicate 16 0 ++ bus_block ++ strings_block.
Definition bus_search (compat : list Z) (start : Z) : fd Z := fdt ← Fdt_Open 0x80000000 bus_dtb; Fdt_FindByCompatible fdt compat start.
Lemma find_compatible_repeats_root : bus_search (cstr "b") 0 = Some (Ok 0).
Proof. vm_compute. reflexivity. Qed.
Lemma find_compatible_misses_nested : bus_search (cstr "c") 0 = Some (Ok 24) /\ bus_search (cstr "c") 24 = Some (Err CARA_ENOTFOUND) /\ (fdt ← Fdt_Open 0x80000000 bus_dtb; Fdt_NodeIsCompatible fdt 48 (cstr "c")) = Some (Ok true).
Proof. vm_compute. repeat split. Qed.
End FdtExample.

