(* ===== verification/PageAlloc.v ===== *)
(** Physical memory: the map of usable runs ([src/croi/mm/physmap.c]) and the bitmap page allocator on
    it ([src/croi/mm/page_alloc.c], [include/cara/mm.h]). Memory is a function from physical addresses to
    bytes; the kernel reaches it through a direct map, so an address in the code is a physical address
    plus a constant. The bitmap of a run lies in the first pages of the run itself. *)

From S2P Require Import Prelude.

(** * Data *)

Definition CARA_PAGE_SIZE : Z := 4096.
Definition CARA_MAX_PHYS_BANKS : Z := 8.
Definition CARA_MAX_PHYS_RUNS : Z := 32.
Definition MAX_RESERVED : Z := 32.

Record PhysRun := mkRun { run_base : Z; run_size : Z }.
Record PageRun := mkPageRun { pr_base : Z; pr_n_pages : Z; pr_bitmap_pages : Z; pr_data_pages : Z; pr_free_pages : Z }.
Record PageAllocator := mkPA { pa_runs : list PageRun; pa_total : Z; pa_free : Z; pa_peak : Z }.
(** The bitmap of a run starts at its base. *)
Definition pr_bitmap (r : PageRun) : Z := pr_base r.
Definition memory := Z -> Z.
Definition poke (m : memory) (a v : Z) : memory := fun x => if x =? a then v else m x.

(** * The physical memory map *)

Definition run_end (r : PhysRun) : Z := u64 (run_base r + run_size r).

Definition reserved_add (rl : list PhysRun) (base size : Z) : result (list PhysRun) :=
  if size =? 0 then Ok rl
  else if MAX_RESERVED <=? Z.of_nat (length rl) then Err CARA_ERANGE
  else Ok (rl ++ [mkRun base size]).

(** At most two pieces. *)
Definition subtract_one (bank rsv : PhysRun) : list PhysRun :=
  let b_lo := run_base bank in
  let b_hi := run_end bank in
  let r_lo := run_base rsv in
  let r_hi := run_end rsv in
  if (r_hi <=? b_lo) || (b_hi <=? r_lo) then [bank]
  else (if b_lo <? r_lo then [mkRun b_lo (u64 (r_lo - b_lo))] else []) ++
       (if r_hi <? b_hi then [mkRun r_hi (u64 (b_hi - r_hi))] else []).

Definition page_align_up (v : Z) : Z := Z.land (u64 (u64 (v + CARA_PAGE_SIZE) - 1)) (u64 (Z.lnot (CARA_PAGE_SIZE - 1))).
Definition page_align_down (v : Z) : Z := Z.land v (u64 (Z.lnot (CARA_PAGE_SIZE - 1))).

(** The reservations, collected in order: memreserve entries and reserved-memory nodes, then the
    kernel and the device tree. *)
Fixpoint collect_reserved (rl regions : list PhysRun) : result (list PhysRun) :=
  match regions with
  | [] => Ok rl
  | r :: regions => match reserved_add rl (run_base r) (run_size r) with Ok rl => collect_reserved rl regions | Err e => Err e end
  end.
Definition image_region (start end_ : Z) : list PhysRun := if start <? end_ then [mkRun start (end_ - start)] else [].

(** One reservation taken out of every run; the working array holds 64. *)
Definition subtract_from (work : list PhysRun) (rsv : PhysRun) : result (list PhysRun) :=
  let next := concat (map (fun w => subtract_one w rsv) work) in
  if CARA_MAX_PHYS_RUNS * 2 <? Z.of_nat (length next) then Err CARA_ERANGE else Ok next.
Fixpoint subtract_reserved (work rl : list PhysRun) : result (list PhysRun) :=
  match rl with
  | [] => Ok work
  | r :: rl => match subtract_from work r with Ok work => subtract_reserved work rl | Err e => Err e end
  end.

Definition align_run (w : PhysRun) : list PhysRun :=
  let lo := page_align_up (run_base w) in
  let hi := page_align_down (u64 (run_base w + run_size w)) in
  if hi <=? lo then [] else [mkRun lo (hi - lo)].
Definition usable_runs (work : list PhysRun) : result (list PhysRun) :=
  let out := concat (map align_run work) in
  if CARA_MAX_PHYS_RUNS <? Z.of_nat (length out) then Err CARA_ERANGE else Ok out.

(** What [Mm_PhysMapFromFdt] makes of the memory banks and the reserved regions that the device tree delivers. *)
Definition physmap_of (banks regions : list PhysRun) (kernel_start kernel_end dtb_start dtb_end : Z) : result (list PhysRun) :=
  if CARA_MAX_PHYS_BANKS <? Z.of_nat (length banks) then Err CARA_ERANGE
  else if (length banks =? 0)%nat then Err CARA_ENOTFOUND
  else match collect_reserved [] (regions ++ image_region kernel_start kernel_end ++ image_region dtb_start dtb_end) with
       | Err e => Err e
       | Ok rl => match subtract_reserved banks rl with Err e => Err e | Ok work => usable_runs work end
       end.

(** * The page allocator *)

Definition bit_at (m : memory) (bm i : Z) : bool := negb (Z.land (Z.shiftr (m (bm + Z.shiftr i 3)) (Z.land i 7)) 1 =? 0).
Definition bit_mark (m : memory) (bm i : Z) : memory :=
  poke m (bm + Z.shiftr i 3) (Z.lor (m (bm + Z.shiftr i 3)) (u8 (Z.shiftl 1 (Z.land i 7)))).
Definition bit_clr (m : memory) (bm i : Z) : memory :=
  poke m (bm + Z.shiftr i 3) (Z.land (m (bm + Z.shiftr i 3)) (u8 (Z.lnot (Z.shiftl 1 (Z.land i 7))))).
Definition zero_bytes (m : memory) (p n : Z) : memory := fun x => if (p <=? x) && (x <? p + n) then 0 else m x.
Definition zero_pages_at (m : memory) (phys n_pages : Z) : memory := zero_bytes m phys (n_pages * CARA_PAGE_SIZE).

(** One usable run: [Err] for a misaligned one, [Ok None] for one too small to hold a page. *)
Definition init_run (src : PhysRun) : result (option PageRun) :=
  if negb (Z.land (run_base src) (CARA_PAGE_SIZE - 1) =? 0) || negb (Z.land (run_size src) (CARA_PAGE_SIZE - 1) =? 0) then Err CARA_EINVAL
  else
    let n_pages := u32 (run_size src / CARA_PAGE_SIZE) in
    if n_pages <? 2 then Ok None
    else
      let bitmap_bytes := u32 (u32 (n_pages + 8) - 1) / 8 in
      let bitmap_pages := u32 (page_align_up bitmap_bytes) / CARA_PAGE_SIZE in
      if n_pages <=? bitmap_pages then Ok None
      else Ok (Some (mkPageRun (run_base src) n_pages bitmap_pages (n_pages - bitmap_pages) (n_pages - bitmap_pages))).
Fixpoint init_runs (usable : list PhysRun) (pa : PageAllocator) (m : memory) : result (PageAllocator * memory) :=
  match usable with
  | [] => Ok (pa, m)
  | src :: usable =>
      if CARA_MAX_PHYS_RUNS <=? Z.of_nat (length (pa_runs pa)) then Err CARA_ERANGE
      else match init_run src with
           | Err e => Err e
           | Ok None => init_runs usable pa m
           | Ok (Some r) =>
               init_runs usable (mkPA (pa_runs pa ++ [r]) (pa_total pa + pr_data_pages r) (pa_free pa + pr_data_pages r) (pa_peak pa))
                 (zero_bytes m (pr_bitmap r) (pr_bitmap_pages r * CARA_PAGE_SIZE))
           end
  end.
Definition Page_Init (usable : list PhysRun) (m : memory) : result (PageAllocator * memory) :=
  match init_runs usable (mkPA [] 0 0 0) m with
  | Err e => Err e
  | Ok (pa, m) => if (0 <? length (pa_runs pa))%nat then Ok (pa, m) else Err CARA_ENOTFOUND
  end.

(** The first-fit scan for [n] clear bits in a row, from bit [i] on. *)
Fixpoint scan_run (fuel : nat) (m : memory) (bm i run_start run_len n : Z) : option Z :=
  match fuel with
  | O => None
  | S fuel =>
      if negb (bit_at m bm i) then
        let run_start := if run_len =? 0 then i else run_start in
        if u32 (run_len + 1) =? n then Some run_start else scan_run fuel m bm (i + 1) run_start (u32 (run_len + 1)) n
      else scan_run fuel m bm (i + 1) run_start 0 n
  end.
Fixpoint set_bits (k : nat) (m : memory) (bm i : Z) : memory :=
  match k with O => m | S k => set_bits k (bit_mark m bm i) bm (i + 1) end.
Fixpoint clr_bits (k : nat) (m : memory) (bm i : Z) : memory :=
  match k with O => m | S k => clr_bits k (bit_clr m bm i) bm (u32 (i + 1)) end.

Definition data_start (r : PageRun) : Z := pr_base r + pr_bitmap_pages r * CARA_PAGE_SIZE.
Definition take_pages (r : PageRun) (n : Z) : PageRun :=
  mkPageRun (pr_base r) (pr_n_pages r) (pr_bitmap_pages r) (pr_data_pages r) (u32 (pr_free_pages r - n)).
Definition give_pages (r : PageRun) (n : Z) : PageRun :=
  mkPageRun (pr_base r) (pr_n_pages r) (pr_bitmap_pages r) (pr_data_pages r) (u32 (pr_free_pages r + n)).

(** Allocation from one run. *)
Definition run_alloc (r : PageRun) (m : memory) (n : Z) : option (Z * PageRun * memory) :=
  if pr_free_pages r <? n then None
  else match scan_run (Z.to_nat (pr_data_pages r)) m (pr_bitmap r) 0 0 0 n with
       | None => None
       | Some s =>
           let m := set_bits (Z.to_nat n) m (pr_bitmap r) s in
           let phys := u64 (pr_base r + u64 ((pr_bitmap_pages r + s) * CARA_PAGE_SIZE)) in
           Some (phys, take_pages r n, zero_pages_at m phys n)
       end.
Fixpoint alloc_in (runs : list PageRun) (m : memory) (n : Z) : option (Z * list PageRun * memory) :=
  match runs with
  | [] => None
  | r :: runs =>
      match run_alloc r m n with
      | Some (phys, r', m') => Some (phys, r' :: runs, m')
      | None => match alloc_in runs m n with Some (phys, runs', m') => Some (phys, r :: runs', m') | None => None end
      end
  end.
(** 0 is the failure value. *)
Definition Page_Alloc (pa : PageAllocator) (m : memory) (n : Z) : Z * PageAllocator * memory :=
  if n =? 0 then (0, pa, m)
  else match alloc_in (pa_runs pa) m n with
       | None => (0, pa, m)
       | Some (phys, runs', m') =>
           let free := u64 (pa_free pa - n) in
           let in_flight := u64 (pa_total pa - free) in
           (phys, mkPA runs' (pa_total pa) free (if pa_peak pa <? in_flight then in_flight else pa_peak pa), m')
       end.

Definition run_owns (r : PageRun) (phys : Z) : bool :=
  negb ((phys <? u64 (pr_base r + u64 (pr_bitmap_pages r * CARA_PAGE_SIZE))) ||
        (u64 (pr_base r + u64 (pr_n_pages r * CARA_PAGE_SIZE)) <=? phys)).
Fixpoint free_in (runs : list PageRun) (m : memory) (phys n : Z) : option (list PageRun * memory) :=
  match runs with
  | [] => None
  | r :: runs =>
      if run_owns r phys then
        let off := u32 ((phys - u64 (pr_base r + u64 (pr_bitmap_pages r * CARA_PAGE_SIZE))) / CARA_PAGE_SIZE) in
        Some (give_pages r n :: runs, clr_bits (Z.to_nat n) m (pr_bitmap r) off)
      else match free_in runs m phys n with Some (runs', m') => Some (r :: runs', m') | None => None end
  end.
Definition Page_Free (pa : PageAllocator) (m : memory) (phys n : Z) : PageAllocator * memory :=
  if (phys =? 0) || (n =? 0) then (pa, m)
  else match free_in (pa_runs pa) m phys n with
       | None => (pa, m)
       | Some (runs', m') => (mkPA runs' (pa_total pa) (u64 (pa_free pa + n)) (pa_peak pa), m')
       end.

(** * The memory map *)

Definition in_run (r : PhysRun) (a : Z) : Prop := run_base r <= a < run_base r + run_size r.
Definition covers (rs : list PhysRun) (a : Z) : Prop := exists r, r ∈ rs /\ in_run r a.
(** The page at [p] lies in one run. *)
Definition covers_page (rs : list PhysRun) (p : Z) : Prop := exists r, r ∈ rs /\ run_base r <= p /\ p + CARA_PAGE_SIZE <= run_base r + run_size r.
Definition run_wf (r : PhysRun) : Prop := 0 <= run_base r /\ 0 <= run_size r /\ run_base r + run_size r < 2 ^ 64 - CARA_PAGE_SIZE.
Definition page_avoids (p : Z) (r : PhysRun) : Prop := forall a, p <= a < p + CARA_PAGE_SIZE -> ~ in_run r a.

Lemma run_end_eq r : run_wf r -> run_end r = run_base r + run_size r.
Proof. intros (H1 & H2 & H3). apply u64_small. unfold in_u64, CARA_PAGE_SIZE in *. lia. Qed.

Lemma subtract_one_spec bank rsv : run_wf bank -> run_wf rsv -> 0 < run_size rsv ->
  Forall run_wf (subtract_one bank rsv) /\
  (forall a, covers (subtract_one bank rsv) a -> in_run bank a /\ ~ in_run rsv a) /\
  (forall p, covers_page [bank] p -> page_avoids p rsv -> covers_page (subtract_one bank rsv) p).
Proof.
  intros Hb Hr Hpos. unfold subtract_one. rewrite (run_end_eq bank Hb), (run_end_eq rsv Hr). pose proof Hb as (B1 & B2 & B3). pose proof Hr as (R1 & R2 & R3).
  unfold CARA_PAGE_SIZE in *. destruct (_ || _) eqn:E.
  - apply orb_true_iff in E. split_and!; [by constructor| |done]. intros a (r & ->%list_elem_of_singleton & Ha). split; [done|]. unfold in_run in *. destruct E; zbool; lia.
  - zbool. assert (forall x y, 0 <= x <= y -> y < 2 ^ 64 - 4096 -> u64 (y - x) = y - x) as Hu by (intros; apply u64_small; unfold in_u64; lia). split_and!.
    + apply Forall_app. split; (destruct (_ <? _) eqn:?; zbool; constructor; [|constructor]); unfold run_wf, CARA_PAGE_SIZE; cbn; rewrite Hu by lia; lia.
    + intros a (r & Hin & Ha). apply elem_of_app in Hin as [Hin|Hin]; (destruct (_ <? _) eqn:?; zbool; [apply list_elem_of_singleton in Hin as ->|by apply elem_of_nil in Hin]);
        unfold in_run in *; cbn in Ha; rewrite Hu in Ha by lia; lia.
    + intros p (r & ->%list_elem_of_singleton & P1 & P2) Hav. unfold page_avoids, in_run, covers_page, CARA_PAGE_SIZE in *.
      destruct (Z.le_gt_cases (p + 4096) (run_base rsv)) as [Hlo|Hlo].
      * exists (mkRun (run_base bank) (u64 (run_base rsv - run_base bank))). rewrite (proj2 (Z.ltb_lt _ _)) by lia. split; [left|]. cbn. rewrite Hu by lia. lia.
      * assert (run_base rsv + run_size rsv <= p) as Hhi.
        { destruct (Z.le_gt_cases (run_base rsv + run_size rsv) p); [done|]. exfalso. apply (Hav (Z.max p (run_base rsv))); lia. }
        exists (mkRun (run_base rsv + run_size rsv) (u64 (run_base bank + run_size bank - (run_base rsv + run_size rsv)))).
        rewrite (proj2 (Z.ltb_lt (run_base rsv + run_size rsv) _)) by lia. split; [apply elem_of_app; right; left|]. cbn. rewrite Hu by lia. lia.
Qed.

Lemma covers_concat (f : PhysRun -> list PhysRun) rs a : covers (concat (map f rs)) a <-> exists r, r ∈ rs /\ covers (f r) a.
Proof.
  unfold covers. setoid_rewrite list_elem_of_In. setoid_rewrite List.in_concat. setoid_rewrite List.in_map_iff. split.
  - intros (r & (l & (x & <- & Hx) & Hr) & Ha). eauto 10.
  - intros (x & Hx & r & Hr & Ha). eauto 10.
Qed.
Lemma covers_page_concat (f : PhysRun -> list PhysRun) rs r p : r ∈ rs -> covers_page (f r) p -> covers_page (concat (map f rs)) p.
Proof.
  intros Hr (x & Hx & H). exists x. split; [|done]. rewrite list_elem_of_In in *. apply List.in_concat. exists (f r). split; [by apply List.in_map|done].
Qed.
Definition rsv_wf (r : PhysRun) : Prop := run_wf r /\ 0 < run_size r.

Lemma subtract_from_spec work rsv next : Forall run_wf work -> rsv_wf rsv -> subtract_from work rsv = Ok next ->
  Forall run_wf next /\ (forall a, covers next a -> covers work a /\ ~ in_run rsv a) /\ (forall p, covers_page work p -> page_avoids p rsv -> covers_page next p).
Proof.
  intros Hw [Hr Hp] E. unfold subtract_from in E. destruct (_ <? _); [done|]. injection E as <-. split_and!.
  - apply List.Forall_concat. rewrite Forall_forall in Hw. apply Forall_forall. intros l Hl. apply list_elem_of_In, List.in_map_iff in Hl as (w & <- & Hw').
    apply subtract_one_spec; [|done|done]. apply Hw. by apply list_elem_of_In.
  - intros a (w & Hw' & Ha)%covers_concat. rewrite Forall_forall in Hw. destruct (subtract_one_spec w rsv (Hw w Hw') Hr Hp) as (_ & H & _). destruct (H a Ha). split; [by exists w|done].
  - intros p (w & Hw' & Hin) Hav. rewrite Forall_forall in Hw. apply (covers_page_concat _ _ w); [done|]. apply subtract_one_spec; [by apply Hw|done|done| |done]. exists w. split; [left|done].
Qed.
Lemma subtract_reserved_spec rl work out : Forall run_wf work -> Forall rsv_wf rl -> subtract_reserved work rl = Ok out ->
  Forall run_wf out /\ (forall a, covers out a -> covers work a /\ forall r, r ∈ rl -> ~ in_run r a) /\
  (forall p, covers_page work p -> (forall r, r ∈ rl -> page_avoids p r) -> covers_page out p).
Proof.
  intros Hw Hrl. revert work Hw. induction Hrl as [|r rl Hr Hrl IH]; intros work Hw E; cbn in E.
  - injection E as <-. split_and!; [done| |done]. intros a Ha. split; [done|]. intros r Hr. by apply elem_of_nil in Hr.
  - destruct (subtract_from work r) as [next|e] eqn:En; [|done]. destruct (subtract_from_spec _ _ _ Hw Hr En) as (N1 & N2 & N3).
    destruct (IH next N1 E) as (O1 & O2 & O3). split_and!; [done| |].
    + intros a Ha. destruct (O2 a Ha) as [Hc Hrest]. destruct (N2 a Hc) as [Hc' Hnr]. split; [done|]. intros r' [->|Hr']%elem_of_cons; [done|by apply Hrest].
    + intros p Hp Hav. apply O3; [apply N3; [done|apply Hav; left]|]. intros r' Hr'. apply Hav. by right.
Qed.
Lemma collect_reserved_spec regions rl out : Forall run_wf regions -> Forall rsv_wf rl -> collect_reserved rl regions = Ok out ->
  Forall rsv_wf out /\ (forall r, r ∈ out <-> r ∈ rl \/ (r ∈ regions /\ run_size r <> 0)).
Proof.
  intros Hw. revert rl. induction Hw as [|r regions Hr Hw IH]; intros rl Hrl E; cbn in E.
  - injection E as <-. split; [done|]. intros r. rewrite elem_of_nil. tauto.
  - unfold reserved_add in E. destruct (Z.eqb_spec (run_size r) 0) as [Ez|Ez].
    + destruct (IH rl Hrl E) as [O1 O2]. split; [done|]. intros x. rewrite O2, elem_of_cons. split; [tauto|]. intros [?|[[->|?] ?]]; tauto.
    + destruct (_ <=? _); [done|]. destruct r as [b sz]. cbn in *. destruct (IH (rl ++ [mkRun b sz])) as [O1 O2]; [|done|].
      { apply Forall_app. split; [done|]. constructor; [|constructor]. split; [done|]. destruct Hr as (_ & H & _). cbn in *. lia. }
      split; [done|]. intros x. rewrite O2, elem_of_app, list_elem_of_singleton, elem_of_cons. split; [intros [[?| ->]|?]; tauto|]. intros [?|[[->|?] ?]]; tauto.
Qed.

(** ** Page alignment *)

Lemma page_mask v : 0 <= v < 2 ^ 64 -> Z.land v (u64 (Z.lnot (CARA_PAGE_SIZE - 1))) = v - v mod CARA_PAGE_SIZE.
Proof.
  intros Hv. unfold CARA_PAGE_SIZE. assert (v - v mod 4096 = Z.ldiff v (Z.ones 12)) as ->.
  { rewrite Z.ldiff_ones_r, Z.shiftl_mul_pow2, Z.shiftr_div_pow2 by lia. change (2 ^ 12) with 4096. pose proof (Z.div_mod v 4096 ltac:(lia)). lia. }
  apply Z.bits_inj'. intros n Hn. unfold u64. rewrite Z.land_spec, Z.ldiff_spec.
  destruct (Z.lt_ge_cases n 64).
  - rewrite Z.mod_pow2_bits_low by lia. rewrite Z.lnot_spec by lia. done.
  - rewrite (bits_above 64 v n) by lia. done.
Qed.
Lemma page_align_up_spec v : 0 <= v < 2 ^ 64 - CARA_PAGE_SIZE -> v <= page_align_up v < v + CARA_PAGE_SIZE /\ page_align_up v mod CARA_PAGE_SIZE = 0.
Proof.
  intros Hv. unfold page_align_up. rewrite (u64_small (v + _)), u64_small by (unfold in_u64, CARA_PAGE_SIZE in *; lia).
  rewrite page_mask by (unfold CARA_PAGE_SIZE in *; lia). unfold CARA_PAGE_SIZE in *. dmlia.
Qed.
Lemma align_down_spec v : 0 <= v < 2 ^ 64 -> v - CARA_PAGE_SIZE < page_align_down v <= v /\ page_align_down v mod CARA_PAGE_SIZE = 0.
Proof. intros Hv. unfold page_align_down. rewrite page_mask by done. unfold CARA_PAGE_SIZE. dmlia. Qed.

Lemma align_run_spec w : run_wf w ->
  (forall r, r ∈ align_run w -> run_base r mod CARA_PAGE_SIZE = 0 /\ run_size r mod CARA_PAGE_SIZE = 0 /\ 0 < run_size r /\ run_wf r) /\
  (forall a, covers (align_run w) a -> in_run w a) /\
  (forall p, p mod CARA_PAGE_SIZE = 0 -> covers_page [w] p -> covers_page (align_run w) p).
Proof.
  intros Hw. pose proof Hw as (W1 & W2 & W3). unfold align_run. rewrite (u64_small (_ + _)) by (unfold in_u64, CARA_PAGE_SIZE in *; lia).
  destruct (page_align_up_spec (run_base w)) as [U1 U2]; [unfold CARA_PAGE_SIZE in *; lia|]. destruct (align_down_spec (run_base w + run_size w)) as [D1 D2]; [unfold CARA_PAGE_SIZE in *; lia|].
  set (lo := page_align_up _) in *. set (hi := page_align_down _) in *. unfold CARA_PAGE_SIZE in *. split_and!.
  - intros r Hr. destruct (Z.leb_spec hi lo); [by apply elem_of_nil in Hr|]. apply list_elem_of_singleton in Hr as ->. unfold run_wf, CARA_PAGE_SIZE. cbn.
    split_and!; try lia. dmlia.
  - intros a (r & Hr & Ha). destruct (Z.leb_spec hi lo); [by apply elem_of_nil in Hr|]. apply list_elem_of_singleton in Hr as ->. unfold in_run in *. cbn in Ha. lia.
  - intros p Hp (r & ->%list_elem_of_singleton & P1 & P2). unfold CARA_PAGE_SIZE in P2. assert (lo <= p /\ p + 4096 <= hi) as [A1 A2] by dmlia.
    exists (mkRun lo (hi - lo)). rewrite (proj2 (Z.leb_gt _ _)) by lia. split; [left|]. cbn. unfold CARA_PAGE_SIZE. lia.
Qed.

(** The memory map. Every usable run is page-aligned; every usable byte is memory of some bank and
    lies in no reserved region, not in the kernel image and not in the device tree; and no page is
    wasted: a page that lies in one bank and avoids all of those is usable. *)
Theorem physmap_exact banks regions ks ke ds de usable :
  Forall run_wf banks -> Forall run_wf regions -> 0 <= ks -> ke < 2 ^ 63 -> 0 <= ds -> de < 2 ^ 63 ->
  physmap_of banks regions ks ke ds de = Ok usable ->
  (forall r, r ∈ usable -> run_base r mod CARA_PAGE_SIZE = 0 /\ run_size r mod CARA_PAGE_SIZE = 0 /\ 0 < run_size r) /\
  (forall a, covers usable a -> covers banks a /\ (forall r, r ∈ regions -> ~ in_run r a) /\ ~ (ks <= a < ke) /\ ~ (ds <= a < de)) /\
  (forall p, p mod CARA_PAGE_SIZE = 0 -> covers_page banks p -> (forall r, r ∈ regions -> page_avoids p r) ->
     page_avoids p (mkRun ks (ke - ks)) -> page_avoids p (mkRun ds (de - ds)) -> covers_page usable p).
Proof.
  intros Hb Hr K1 K2 D1 D2 E. unfold physmap_of in E. destruct (_ <? _); [done|]. destruct (_ =? _)%nat; [done|].
  destruct (collect_reserved _ _) as [rl|e] eqn:Ec; [|done]. destruct (subtract_reserved _ _) as [work|e] eqn:Es; [|done].
  assert (forall s e, 0 <= s -> e < 2 ^ 63 -> Forall run_wf (image_region s e)) as Hi.
  { intros s e ??. unfold image_region. destruct (_ <? _) eqn:?; zbool; constructor; [|constructor]. unfold run_wf, CARA_PAGE_SIZE. cbn. lia. }
  assert (forall s e r, r ∈ image_region s e -> r = mkRun s (e - s)) as Himg.
  { intros s e r. unfold image_region. destruct (_ <? _); [by intros ->%list_elem_of_singleton|by intros ?%elem_of_nil]. }
  apply collect_reserved_spec in Ec as [R1 R2]; [|rewrite !Forall_app; auto|constructor].
  destruct (subtract_reserved_spec rl banks work Hb R1 Es) as (S1 & S2 & S3). unfold usable_runs in E. destruct (_ <? _); [done|]. injection E as <-.
  rewrite Forall_forall in S1. split_and!.
  - intros r Hin. apply list_elem_of_In, List.in_concat in Hin as (l & Hl & Hin). apply List.in_map_iff in Hl as (w & <- & Hw). rewrite <- list_elem_of_In in *.
    destruct (proj1 (align_run_spec w (S1 w Hw)) r Hin) as (A1 & A2 & A3 & _). done.
  - intros a (w & Hw & Ha)%covers_concat. destruct (align_run_spec w (S1 w Hw)) as (_ & A2 & _). destruct (S2 a (ex_intro _ w (conj Hw (A2 a Ha)))) as [C1 C2].
    split_and!; [done| | |].
    + intros r Hin Hra. destruct (decide (run_size r = 0)) as [Ez|Ez]; [unfold in_run in Hra; lia|]. apply (C2 r); [|done]. apply R2. right. split; [|done]. apply elem_of_app. by left.
    + intros Hk. apply (C2 (mkRun ks (ke - ks))); [|unfold in_run; cbn; lia]. apply R2. right. rewrite !elem_of_app. unfold image_region at 1. rewrite (proj2 (Z.ltb_lt _ _)) by lia.
      split; [right; left; left|cbn; lia].
    + intros Hk. apply (C2 (mkRun ds (de - ds))); [|unfold in_run; cbn; lia]. apply R2. right. rewrite !elem_of_app. unfold image_region at 2. rewrite (proj2 (Z.ltb_lt _ _)) by lia.
      split; [right; right; left|cbn; lia].
  - intros p Hp Hc Hav Hk Hd. destruct (S3 p Hc) as (w & Hw & Hin).
    + intros r [Hin|[Hin _]]%R2; [by apply elem_of_nil in Hin|]. rewrite !elem_of_app in Hin. destruct Hin as [Hin|[Hin|Hin]]; [by apply Hav|by apply Himg in Hin as ->|by apply Himg in Hin as ->].
    + apply (covers_page_concat _ _ w); [done|]. apply align_run_spec; [by apply S1|done|]. exists w. split; [left|done].
Qed.

(** * The page allocator *)

(** Page [i] of the data area of a run. *)
Definition page_addr (r : PageRun) (i : Z) : Z := data_start r + i * CARA_PAGE_SIZE.
Definition run_top (r : PageRun) : Z := pr_base r + pr_n_pages r * CARA_PAGE_SIZE.
Definition page_bit (m : memory) (r : PageRun) (i : Z) : bool := bit_at m (pr_bitmap r) i.
Record run_ok (r : PageRun) (m : memory) : Prop := {
  ro_base : 0 < pr_base r;
  ro_top : run_top r < 2 ^ 63;
  ro_pages : 0 < pr_bitmap_pages r /\ 0 < pr_data_pages r /\ pr_n_pages r = pr_bitmap_pages r + pr_data_pages r /\ pr_n_pages r < 2 ^ 31;
  ro_bits : pr_data_pages r <= 8 * (pr_bitmap_pages r * CARA_PAGE_SIZE);
  ro_bytes : forall a, pr_bitmap r <= a < data_start r -> in_u8 (m a);
  ro_free : pr_free_pages r = clear_count (page_bit m r) (pr_data_pages r)
}.

Lemma bit_at_testbit m bm i : 0 <= i -> bit_at m bm i = Z.testbit (m (bm + i / 8)) (i mod 8).
Proof.
  intros Hi. unfold bit_at. rewrite (Z.shiftr_div_pow2 i) by lia. change (2 ^ 3) with 8. change 7 with (Z.ones 3). rewrite Z.land_ones by lia. change (2 ^ 3) with 8.
  assert (0 <= i mod 8) by (apply Z.mod_pos_bound; lia). rewrite Z.testbit_eqb, Z.shiftr_div_pow2 by lia. change 1 with (Z.ones 1) at 1. rewrite Z.land_ones by lia.
  change (2 ^ 1) with 2. set (x := m _ / _). pose proof (Z.mod_pos_bound x 2 ltac:(lia)). destruct (Z.eqb_spec (x mod 2) 0), (Z.eqb_spec (x mod 2) 1); done || lia.
Qed.
Lemma bit_index i j : 0 <= i -> 0 <= j -> i / 8 = j / 8 -> i mod 8 = j mod 8 -> i = j.
Proof. intros. pose proof (Z.div_mod i 8 ltac:(lia)). pose proof (Z.div_mod j 8 ltac:(lia)). lia. Qed.
Lemma shift_bit k : 0 <= k < 8 -> u8 (Z.shiftl 1 k) = 2 ^ k /\ u8 (Z.lnot (Z.shiftl 1 k)) = 255 - 2 ^ k.
Proof.
  intros Hk. rewrite Z.shiftl_mul_pow2, Z.mul_1_l by lia. assert (2 ^ k <= 2 ^ 7) by (apply Z.pow_le_mono_r; lia). assert (0 < 2 ^ k) by lia.
  split; [apply u8_small; unfold in_u8; lia|]. unfold u8, Z.lnot. change (2 ^ 8) with 256. symmetry. apply Z.mod_unique with (-1); lia.
Qed.
(** Setting and clearing one bit. *)
Lemma bit_mark_spec m bm i j : 0 <= i -> 0 <= j -> bit_at (bit_mark m bm i) bm j = (j =? i) || bit_at m bm j.
Proof.
  intros Hi Hj. rewrite !bit_at_testbit by done. unfold bit_mark. rewrite (Z.shiftr_div_pow2 i) by lia. change (2 ^ 3) with 8. change 7 with (Z.ones 3). rewrite Z.land_ones by lia. change (2 ^ 3) with 8.
  pose proof (Z.mod_pos_bound i 8 ltac:(lia)). pose proof (Z.mod_pos_bound j 8 ltac:(lia)). unfold poke. destruct (Z.eqb_spec (bm + j / 8) (bm + i / 8)) as [E|E].
  - replace (j / 8) with (i / 8) by lia. rewrite (proj1 (shift_bit (i mod 8) ltac:(lia))), Z.lor_spec, Z.pow2_bits_eqb by lia. rewrite orb_comm. f_equal.
    destruct (Z.eqb_spec (i mod 8) (j mod 8)), (Z.eqb_spec j i); try done; [|congruence]. exfalso. apply n. apply bit_index; lia.
  - rewrite (proj2 (Z.eqb_neq j i)); [done|]. intros ->. lia.
Qed.
Lemma bit_clr_spec m bm i j : 0 <= i -> 0 <= j -> in_u8 (m (bm + i / 8)) -> bit_at (bit_clr m bm i) bm j = negb (j =? i) && bit_at m bm j.
Proof.
  intros Hi Hj Hb. rewrite !bit_at_testbit by done. unfold bit_clr. rewrite (Z.shiftr_div_pow2 i) by lia. change (2 ^ 3) with 8. change 7 with (Z.ones 3). rewrite Z.land_ones by lia. change (2 ^ 3) with 8.
  pose proof (Z.mod_pos_bound i 8 ltac:(lia)). pose proof (Z.mod_pos_bound j 8 ltac:(lia)). unfold poke. destruct (Z.eqb_spec (bm + j / 8) (bm + i / 8)) as [E|E].
  - replace (j / 8) with (i / 8) by lia. rewrite (proj2 (shift_bit (i mod 8) ltac:(lia))), Z.land_spec. rewrite andb_comm. f_equal.
    replace (255 - 2 ^ (i mod 8)) with (Z.ldiff (Z.ones 8) (2 ^ (i mod 8))).
    + rewrite Z.ldiff_spec, Z.ones_spec_low, Z.pow2_bits_eqb by lia. cbn [andb]. f_equal.
      destruct (Z.eqb_spec (i mod 8) (j mod 8)), (Z.eqb_spec j i); try done; [|congruence]. exfalso. apply n. apply bit_index; lia.
    + rewrite <- Z.sub_nocarry_ldiff; [done|]. apply Z.bits_inj'. intros n Hn. rewrite Z.ldiff_spec, Z.bits_0, Z.pow2_bits_eqb by lia.
      destruct (Z.eqb_spec (i mod 8) n) as [<-|]; [rewrite Z.ones_spec_low by lia; done|done].
  - rewrite (proj2 (Z.eqb_neq j i)); [done|]. intros ->. lia.
Qed.

(** Runs of bits; [B] bytes of bitmap. *)
Lemma poke_frame m bm i v (B a : Z) : 0 <= i < 8 * B -> ~ (bm <= a < bm + B) -> poke m (bm + Z.shiftr i 3) v a = m a.
Proof.
  intros Hi Ha. unfold poke. rewrite Z.shiftr_div_pow2 by lia. change (2 ^ 3) with 8. rewrite (proj2 (Z.eqb_neq _ _)); [done|]. intros ->. apply Ha. dmlia.
Qed.
Lemma set_bits_spec k m bm i B : 0 <= i -> i + Z.of_nat k <= 8 * B ->
  (forall j, 0 <= j -> bit_at (set_bits k m bm i) bm j = ((i <=? j) && (j <? i + Z.of_nat k)) || bit_at m bm j) /\
  (forall a, ~ (bm <= a < bm + B) -> set_bits k m bm i a = m a) /\
  ((forall a, bm <= a < bm + B -> in_u8 (m a)) -> forall a, bm <= a < bm + B -> in_u8 (set_bits k m bm i a)).
Proof.
  revert m i. induction k as [|k IH]; intros m i Hi Hk; cbn [set_bits].
  - split_and!; try done. intros j Hj. destruct (Z.leb_spec i j), (Z.ltb_spec j (i + Z.of_nat 0)); done || lia.
  - destruct (IH (bit_mark m bm i) (i + 1)) as (H1 & H2 & H3); [lia|lia|]. split_and!.
    + intros j Hj. rewrite H1, bit_mark_spec by lia. destruct (Z.leb_spec i j), (Z.leb_spec (i + 1) j), (Z.ltb_spec j (i + 1 + Z.of_nat k)), (Z.ltb_spec j (i + Z.of_nat (S k))), (Z.eqb_spec j i); try lia; done.
    + intros a Ha. rewrite H2 by done. apply (poke_frame _ _ _ _ B); [lia|done].
    + intros Hb. apply H3. intros a Ha. unfold bit_mark, poke. destruct (_ =? _); [|by apply Hb]. apply lor_range; [lia| |apply u8_range]. apply Hb.
      rewrite Z.shiftr_div_pow2 by lia. change (2 ^ 3) with 8. dmlia.
Qed.
Lemma clr_bits_spec k m bm i B : 0 <= i -> i + Z.of_nat k <= 8 * B -> i + Z.of_nat k < 2 ^ 32 -> (forall a, bm <= a < bm + B -> in_u8 (m a)) ->
  (forall j, 0 <= j -> bit_at (clr_bits k m bm i) bm j = negb ((i <=? j) && (j <? i + Z.of_nat k)) && bit_at m bm j) /\
  (forall a, ~ (bm <= a < bm + B) -> clr_bits k m bm i a = m a) /\ (forall a, bm <= a < bm + B -> in_u8 (clr_bits k m bm i a)).
Proof.
  revert m i. induction k as [|k IH]; intros m i Hi Hk Hw Hb; cbn [clr_bits].
  - split_and!; try done. intros j Hj. destruct (Z.leb_spec i j), (Z.ltb_spec j (i + Z.of_nat 0)); done || lia.
  - rewrite u32_small by (unfold in_u32; lia). assert (in_u8 (m (bm + i / 8))) as Hbi by (apply Hb; dmlia).
    destruct (IH (bit_clr m bm i) (i + 1)) as (H1 & H2 & H3); [lia|lia|lia| |].
    { intros a Ha. unfold bit_clr, poke. destruct (_ =? _); [|by apply Hb]. apply land_range; [lia|]. rewrite Z.shiftr_div_pow2 by lia. done. }
    split_and!.
    + intros j Hj. rewrite H1, bit_clr_spec by (done || lia). destruct (Z.leb_spec i j), (Z.leb_spec (i + 1) j), (Z.ltb_spec j (i + 1 + Z.of_nat k)), (Z.ltb_spec j (i + Z.of_nat (S k))), (Z.eqb_spec j i); try lia; done.
    + intros a Ha. rewrite H2 by done. apply (poke_frame _ _ _ _ B); [lia|done].
    + done.
Qed.
Lemma bit_at_ext m m' bm B j : (forall a, bm <= a < bm + B -> m' a = m a) -> 0 <= j < 8 * B -> bit_at m' bm j = bit_at m bm j.
Proof. intros H Hj. rewrite !bit_at_testbit by lia. rewrite H; [done|]. dmlia. Qed.

Definition window (m : memory) (bm s n : Z) : Prop := forall j, s <= j < s + n -> bit_at m bm j = false.
Lemma scan_run_spec fuel m bm i run_start run_len n : 0 < n < 2 ^ 32 -> 0 <= run_len <= i -> run_len < n ->
  window m bm (i - run_len) run_len -> (0 < run_len -> run_start = i - run_len) -> (i - run_len = 0 \/ bit_at m bm (i - run_len - 1) = true) ->
  (forall s, 0 <= s -> s + n <= i -> ~ window m bm s n) ->
  match scan_run fuel m bm i run_start run_len n with
  | Some s => 0 <= s /\ s + n <= i + Z.of_nat fuel /\ window m bm s n
  | None => forall s, 0 <= s -> s + n <= i + Z.of_nat fuel -> ~ window m bm s n
  end.
Proof.
  intros Hn. revert i run_start run_len. induction fuel as [|fuel IH]; intros i rs rl Hrl Hlt Hw Hrs Hmax Hno; cbn [scan_run].
  { intros s Hs Hle. apply Hno; lia. }
  replace (i + Z.of_nat (S fuel)) with (i + 1 + Z.of_nat fuel) by lia. destruct (bit_at m bm i) eqn:Eb; cbn [negb].
  - apply IH; try lia; [intros j Hj; lia|right; by replace (i + 1 - 0 - 1) with i by lia|].
    intros s Hs Hle Hwin. destruct (Z.le_gt_cases (s + n) i) as [Hle'|Hgt]; [by apply (Hno s)|]. specialize (Hwin i ltac:(lia)). congruence.
  - rewrite u32_small by (unfold in_u32; lia). set (rs' := if rl =? 0 then i else rs).
    assert (rs' = i - rl) as Hrs' by (unfold rs'; destruct (Z.eqb_spec rl 0); [lia|apply Hrs; lia]).
    assert (window m bm (i - rl) (rl + 1)) as Hw' by (intros j Hj; destruct (Z.eq_dec j i) as [->|]; [done|apply Hw; lia]).
    destruct (Z.eqb_spec (rl + 1) n) as [<-|Hne]; [rewrite Hrs'; split_and!; [lia|lia|done]|]. apply IH; try lia.
    + by replace (i + 1 - (rl + 1)) with (i - rl) by lia.
    + by replace (i + 1 - (rl + 1)) with (i - rl) by lia.
    + intros s Hs Hle Hwin. destruct (Z.le_gt_cases (s + n) i) as [Hle'|Hgt]; [by apply (Hno s)|].
      destruct Hmax as [Hz|Hb]; [lia|]. specialize (Hwin (i - rl - 1) ltac:(lia)). congruence.
Qed.

(** What an allocation or a release does to its run: the pages [s .. s+n-1] change to [b]. *)
Record run_change (r r' : PageRun) (m m' : memory) (s n : Z) (b : bool) : Prop := {
  rc_range : 0 <= s /\ 0 < n /\ s + n <= pr_data_pages r;
  rc_same : pr_base r' = pr_base r /\ pr_n_pages r' = pr_n_pages r /\ pr_bitmap_pages r' = pr_bitmap_pages r /\ pr_data_pages r' = pr_data_pages r;
  rc_before : forall j, s <= j < s + n -> page_bit m r j = negb b;
  rc_after : forall j, s <= j < s + n -> page_bit m' r' j = b;
  rc_others : forall j, 0 <= j < pr_data_pages r -> ~ (s <= j < s + n) -> page_bit m' r' j = page_bit m r j;
  rc_ok : run_ok r' m'
}.
Lemma run_alloc_spec r m n : run_ok r m -> 0 < n < 2 ^ 32 ->
  match run_alloc r m n with
  | None => forall s, 0 <= s -> s + n <= pr_data_pages r -> ~ window m (pr_bitmap r) s n
  | Some (phys, r', m') => exists s, phys = page_addr r s /\ run_change r r' m m' s n true /\ pr_free_pages r' = pr_free_pages r - n /\
      (forall a, phys <= a < phys + n * CARA_PAGE_SIZE -> m' a = 0) /\
      (forall a, ~ (pr_bitmap r <= a < data_start r) -> ~ (phys <= a < phys + n * CARA_PAGE_SIZE) -> m' a = m a)
  end.
Proof.
  intros [Hb0 Htop (Hbp & Hdp & Hnp & Hn31) Hbits Hbytes Hfree] Hn. unfold run_alloc. unfold run_top, data_start, CARA_PAGE_SIZE in *. set (bm := pr_bitmap r) in *.
  pose proof (clear_count_range (page_bit m r) (pr_data_pages r) ltac:(lia)) as Hcr.
  pose proof (scan_run_spec (Z.to_nat (pr_data_pages r)) m bm 0 0 0 n Hn) as Hscan.
  destruct (Z.ltb_spec (pr_free_pages r) n) as [Hlt|Hge].
  { intros s Hs Hle Hwin. assert (n <= clear_count (page_bit m r) (pr_data_pages r)); [|lia].
    pose proof (clear_count_run (fun j => negb ((s <=? j) && (j <? s + n)) && page_bit m r j || (s <=? j) && (j <? s + n)) (page_bit m r) (pr_data_pages r) s n true ltac:(lia) ltac:(lia) ltac:(lia)) as Hc.
    rewrite Hc; [pose proof (clear_count_range (fun j => negb ((s <=? j) && (j <? s + n)) && page_bit m r j || (s <=? j) && (j <? s + n)) (pr_data_pages r) ltac:(lia)); lia| |].
    - intros j Hj. rewrite (proj2 (Z.leb_le _ _)), (proj2 (Z.ltb_lt _ _)) by lia. split; [done|]. by apply Hwin.
    - intros j Hj Hnj. assert ((s <=? j) && (j <? s + n) = false) as ->; [|by rewrite orb_false_r].
      destruct (Z.leb_spec s j), (Z.ltb_spec j (s + n)); done || lia. }
  rewrite Z2Nat.id in Hscan by lia. destruct (scan_run _ _ _ _ _ _ _) as [s|].
  2:{ intros s Hs Hle. apply Hscan; try lia; try (intros j Hj; lia). }
  destruct Hscan as (Hs & Hle & Hwin); try lia; try (intros j Hj; lia).
  destruct (set_bits_spec (Z.to_nat n) m bm s (pr_bitmap_pages r * 4096)) as (B1 & B2 & B3); [lia|lia|]. rewrite Z2Nat.id in B1 by lia. set (m1 := set_bits _ m bm s) in *.
  rewrite (u64_small ((pr_bitmap_pages r + s) * 4096)), u64_small by (unfold in_u64; lia).
  assert (pr_base r + (pr_bitmap_pages r + s) * 4096 = page_addr r s) as -> by (unfold page_addr, data_start, CARA_PAGE_SIZE; lia).
  assert (bm + pr_bitmap_pages r * 4096 <= page_addr r s) as Hphys by (unfold page_addr, data_start, CARA_PAGE_SIZE, bm, pr_bitmap; lia).
  assert (forall a, a < page_addr r s -> zero_pages_at m1 (page_addr r s) n a = m1 a) as Hz.
  { intros a Ha. unfold zero_pages_at, zero_bytes. by rewrite (proj2 (Z.leb_gt _ _)) by lia. }
  assert (forall j, 0 <= j < pr_data_pages r -> page_bit (zero_pages_at m1 (page_addr r s) n) (take_pages r n) j = (s <=? j) && (j <? s + n) || page_bit m r j) as Hbit.
  { intros j Hj. unfold page_bit. change (pr_bitmap (take_pages r n)) with bm. fold bm. rewrite <- B1 by lia. apply (bit_at_ext _ _ _ (pr_bitmap_pages r * 4096)); [|lia]. intros a Ha. apply Hz. lia. }
  assert (clear_count (page_bit (zero_pages_at m1 (page_addr r s) n) (take_pages r n)) (pr_data_pages r) = pr_free_pages r - n) as Hcount.
  { rewrite Hfree. apply (clear_count_run _ _ _ s n false); try lia.
    - intros j Hj. split; [by apply Hwin|]. rewrite Hbit by lia. rewrite (proj2 (Z.leb_le _ _)), (proj2 (Z.ltb_lt _ _)) by lia. done.
    - intros j Hj Hnj. rewrite Hbit by lia. assert ((s <=? j) && (j <? s + n) = false) as ->; [|done]. destruct (Z.leb_spec s j), (Z.ltb_spec j (s + n)); done || lia. }
  exists s. split; [done|]. assert (u32 (pr_free_pages r - n) = pr_free_pages r - n) as Hu by (apply u32_small; unfold in_u32; lia). split_and!.
  - split; [lia|done|exact Hwin| | |].
    + intros j Hj. rewrite Hbit by lia. rewrite (proj2 (Z.leb_le _ _)), (proj2 (Z.ltb_lt _ _)) by lia. done.
    + intros j Hj Hnj. rewrite Hbit by lia. assert ((s <=? j) && (j <? s + n) = false) as ->; [|done]. destruct (Z.leb_spec s j), (Z.ltb_spec j (s + n)); done || lia.
    + split; [exact Hb0|exact Htop|exact (conj Hbp (conj Hdp (conj Hnp Hn31)))|exact Hbits| |].
      * intros a Ha. change (bm <= a < bm + pr_bitmap_pages r * 4096) in Ha. rewrite Hz by lia. apply B3; [exact Hbytes|exact Ha].
      * cbn [pr_free_pages take_pages pr_data_pages]. rewrite Hu. by rewrite <- Hcount.
  - done.
  - intros a Ha. unfold zero_pages_at, zero_bytes, CARA_PAGE_SIZE. rewrite (proj2 (Z.leb_le _ _)), (proj2 (Z.ltb_lt _ _)) by lia. done.
  - intros a Hna Ha. unfold zero_pages_at, zero_bytes, CARA_PAGE_SIZE. assert ((page_addr r s <=? a) && (a <? page_addr r s + n * 4096) = false) as ->.
    { destruct (Z.leb_spec (page_addr r s) a), (Z.ltb_spec a (page_addr r s + n * 4096)); done || lia. }
    apply B2. exact Hna.
Qed.
Lemma run_free_spec r m s n : run_ok r m -> 0 <= s -> 0 < n -> s + n <= pr_data_pages r -> (forall j, s <= j < s + n -> page_bit m r j = true) ->
  run_owns r (page_addr r s) = true /\
  let off := u32 ((page_addr r s - u64 (pr_base r + u64 (pr_bitmap_pages r * CARA_PAGE_SIZE))) / CARA_PAGE_SIZE) in
  let m' := clr_bits (Z.to_nat n) m (pr_bitmap r) off in
  run_change r (give_pages r n) m m' s n false /\ pr_free_pages (give_pages r n) = pr_free_pages r + n /\
  (forall a, ~ (pr_bitmap r <= a < data_start r) -> m' a = m a).
Proof.
  intros [Hb0 Htop (Hbp & Hdp & Hnp & Hn31) Hbits Hbytes Hfree] Hs Hn Hle Hset. unfold run_owns, run_top, page_addr, data_start, CARA_PAGE_SIZE in *. set (bm := pr_bitmap r) in *.
  rewrite (u64_small (pr_bitmap_pages r * 4096)), (u64_small (pr_n_pages r * 4096)), !(u64_small (pr_base r + _)) by (unfold in_u64; lia). split.
  { rewrite (proj2 (Z.ltb_ge _ _)), (proj2 (Z.leb_gt _ _)) by lia. done. }
  cbn zeta. replace ((pr_base r + pr_bitmap_pages r * 4096 + s * 4096 - (pr_base r + pr_bitmap_pages r * 4096)) / 4096) with s by (apply Z.div_unique_exact; lia).
  rewrite (u32_small s) by (unfold in_u32; lia).
  destruct (clr_bits_spec (Z.to_nat n) m bm s (pr_bitmap_pages r * 4096)) as (B1 & B2 & B3); [lia|lia|lia|exact Hbytes|]. rewrite Z2Nat.id in B1 by lia. set (m1 := clr_bits _ m bm s) in *.
  assert (forall j, 0 <= j < pr_data_pages r -> page_bit m1 (give_pages r n) j = negb ((s <=? j) && (j <? s + n)) && page_bit m r j) as Hbit by (intros j Hj; exact (B1 j ltac:(lia))).
  assert (forall j, s <= j < s + n -> page_bit m1 (give_pages r n) j = false) as Hin.
  { intros j Hj. rewrite Hbit by lia. rewrite (proj2 (Z.leb_le _ _)), (proj2 (Z.ltb_lt _ _)) by lia. done. }
  assert (forall j, 0 <= j < pr_data_pages r -> ~ (s <= j < s + n) -> page_bit m1 (give_pages r n) j = page_bit m r j) as Hout.
  { intros j Hj Hnj. rewrite Hbit by lia. assert ((s <=? j) && (j <? s + n) = false) as ->; [|done]. destruct (Z.leb_spec s j), (Z.ltb_spec j (s + n)); done || lia. }
  assert (clear_count (page_bit m1 (give_pages r n)) (pr_data_pages r) = pr_free_pages r + n) as Hcount.
  { rewrite Hfree. apply (clear_count_run _ _ _ s n true); try lia; [|done]. intros j Hj. split; [by apply Hset|by apply Hin]. }
  pose proof (clear_count_range (page_bit m1 (give_pages r n)) (pr_data_pages r) ltac:(lia)) as Hcr.
  pose proof (clear_count_range (page_bit m r) (pr_data_pages r) ltac:(lia)) as Hcr0.
  assert (u32 (pr_free_pages r + n) = pr_free_pages r + n) as Hu by (apply u32_small; unfold in_u32; lia). split_and!.
  - split; [lia|done|exact Hset|exact Hin|exact Hout|]. split; [exact Hb0|exact Htop|exact (conj Hbp (conj Hdp (conj Hnp Hn31)))|exact Hbits|exact B3|].
    cbn [pr_free_pages give_pages pr_data_pages]. rewrite Hu. by rewrite <- Hcount.
  - exact Hu.
  - exact B2.
Qed.

(** ** All runs *)

Definition apart (r r' : PageRun) : Prop := run_top r <= pr_base r' \/ run_top r' <= pr_base r.
Record alloc_ok (pa : PageAllocator) (m : memory) : Prop := {
  ao_runs : Forall (fun r => run_ok r m) (pa_runs pa);
  ao_apart : ForallOrdPairs apart (pa_runs pa);
  ao_free : pa_free pa = foldr (fun r x => pr_free_pages r + x) 0 (pa_runs pa);
  ao_total : pa_total pa = foldr (fun r x => pr_data_pages r + x) 0 (pa_runs pa) /\ pa_total pa < 2 ^ 63
}.
(** The page at address [p] is allocated ([b = true]) or free. *)
Definition page_is (pa : PageAllocator) (m : memory) (b : bool) (p : Z) : Prop :=
  exists r i, r ∈ pa_runs pa /\ 0 <= i < pr_data_pages r /\ p = page_addr r i /\ page_bit m r i = b.

Lemma run_frame_bits r m m' : run_ok r m -> (forall a, pr_bitmap r <= a < data_start r -> m' a = m a) ->
  run_ok r m' /\ forall i, 0 <= i < pr_data_pages r -> page_bit m' r i = page_bit m r i.
Proof.
  intros [Hb0 Htop Hp Hbits Hbytes Hfree] Hbm.
  assert (forall i, 0 <= i < pr_data_pages r -> page_bit m' r i = page_bit m r i) as Hbit.
  { intros i Hi. apply (bit_at_ext _ _ _ (pr_bitmap_pages r * CARA_PAGE_SIZE)); [|lia]. intros a Ha. apply Hbm. unfold data_start, pr_bitmap in *. lia. }
  split; [|exact Hbit]. split; [done..| |]; [intros a Ha; rewrite Hbm by done; by apply Hbytes|]. rewrite Hfree. symmetry. by apply clear_count_ext.
Qed.
Lemma run_frame r m m' : run_ok r m -> (forall a, pr_base r <= a < run_top r -> m' a = m a) ->
  run_ok r m' /\ forall i, 0 <= i < pr_data_pages r -> page_bit m' r i = page_bit m r i.
Proof.
  intros Hr Hm. apply run_frame_bits; [done|]. intros a Ha. apply Hm. pose proof (ro_pages _ _ Hr). unfold run_top, data_start, pr_bitmap, CARA_PAGE_SIZE in *. lia.
Qed.
Lemma apart_split pre r post x : ForallOrdPairs apart (pre ++ r :: post) -> x ∈ pre \/ x ∈ post -> apart r x.
Proof.
  induction pre as [|y pre IH]; cbn [app]; intros Hp Hx.
  - destruct Hx as [Hx|Hx]; [by apply elem_of_nil in Hx|]. inversion Hp as [|? ? Hf _]; subst. rewrite List.Forall_forall in Hf. apply Hf. by apply list_elem_of_In.
  - inversion Hp as [|? ? Hf Hp']; subst. rewrite elem_of_cons in Hx. destruct Hx as [[->|Hx]|Hx]; [|by apply IH; auto..].
    rewrite List.Forall_forall in Hf. assert (apart y r) as [H|H] by (apply Hf, List.in_or_app; right; left; done); [by right|by left].
Qed.
Lemma apart_replace pre r r' post : pr_base r' = pr_base r -> run_top r' = run_top r -> ForallOrdPairs apart (pre ++ r :: post) -> ForallOrdPairs apart (pre ++ r' :: post).
Proof.
  intros Hb Ht. induction pre as [|y pre IH]; cbn [app]; intros Hp; inversion Hp as [|? ? Hf Hp']; subst.
  - constructor; [|done]. eapply List.Forall_impl; [|exact Hf]. intros x. unfold apart. by rewrite Hb, Ht.
  - constructor; [|by apply IH]. rewrite List.Forall_app in *. destruct Hf as [F1 F2]. split; [done|]. inversion F2 as [|? ? Hyr Hy]; subst. constructor; [|done].
    unfold apart in *. by rewrite Hb, Ht.
Qed.
Lemma page_addr_in r i : pr_n_pages r = pr_bitmap_pages r + pr_data_pages r -> 0 < pr_bitmap_pages r -> 0 <= i < pr_data_pages r ->
  pr_base r <= page_addr r i /\ page_addr r i + CARA_PAGE_SIZE <= run_top r.
Proof. intros Hn Hb Hi. unfold page_addr, data_start, run_top, CARA_PAGE_SIZE. lia. Qed.

(** One run changes, the others stay. *)
Lemma change_one pa pre r r' post m m' s n b runs' : alloc_ok pa m -> pa_runs pa = pre ++ r :: post -> runs' = pre ++ r' :: post ->
  run_change r r' m m' s n b -> (forall a, ~ (pr_base r <= a < run_top r) -> m' a = m a) ->
  Forall (fun x => run_ok x m') runs' /\ ForallOrdPairs apart runs' /\
  foldr (fun r x => pr_data_pages r + x) 0 runs' = pa_total pa /\
  foldr (fun r x => pr_free_pages r + x) 0 runs' = pa_free pa - pr_free_pages r + pr_free_pages r' /\
  forall tot fr pk p, let pa' := mkPA runs' tot fr pk in
    (forall k, 0 <= k < n -> page_is pa m (negb b) (page_addr r s + k * CARA_PAGE_SIZE) /\ page_is pa' m' b (page_addr r s + k * CARA_PAGE_SIZE)) /\
    (~ (page_addr r s <= p < page_addr r s + n * CARA_PAGE_SIZE) -> forall c, page_is pa' m' c p <-> page_is pa m c p).
Proof.
  intros [Aruns Aapart Afree [Atotal _]] Epa -> [Hrange (E1 & E2 & E3 & E4) Hbef Haft Hoth Hok] Hm. rewrite Epa in *.
  apply Forall_app in Aruns as [Apre Apost]. apply Forall_cons in Apost as [Ar Apost].
  assert (run_top r' = run_top r) as Etop by (unfold run_top; congruence). assert (forall i, page_addr r' i = page_addr r i) as Eaddr by (intros i; unfold page_addr, data_start; congruence).
  assert (forall x, x ∈ pre \/ x ∈ post -> run_ok x m -> run_ok x m' /\ forall i, 0 <= i < pr_data_pages x -> page_bit m' x i = page_bit m x i) as Hframe.
  { intros x Hx Hxok. apply run_frame; [done|]. intros a Ha. apply Hm. destruct (apart_split _ _ _ _ Aapart Hx); lia. }
  split_and!.
  - rewrite Forall_forall in Apre, Apost. apply Forall_app. split; [|constructor; [done|]]; apply Forall_forall; intros x Hx; apply Hframe; auto.
  - by apply (apart_replace _ r).
  - rewrite Atotal, ?Epa, !foldr_app. cbn [foldr]. by rewrite E4.
  - rewrite Afree, ?Epa, !foldr_app. cbn [foldr]. clear. induction pre as [|y pre IH]; cbn [foldr]; lia.
  - intros tot fr pk p. cbn zeta. split.
    + intros k Hk. split; [exists r, (s + k)|exists r', (s + k)]; cbn [pa_runs]; rewrite ?Epa; (split; [apply elem_of_app; right; left|]); rewrite ?E4, ?Eaddr;
        (split; [lia|]); (split; [unfold page_addr; lia|]); [apply Hbef|apply Haft]; lia.
    + intros Hp c. rewrite Forall_forall in Apre, Apost. split; intros (x & i & Hx & Hi & Ep & Hb); cbn [pa_runs] in *; rewrite ?Epa in *.
      * apply elem_of_app in Hx as [Hx|[->|Hx]%elem_of_cons].
        -- exists x, i. rewrite Epa. split; [apply elem_of_app; by left|]. split_and!; try done; try lia. rewrite <- Hb. symmetry. apply Hframe; auto.
        -- exists r, i. rewrite Epa. split; [apply elem_of_app; right; left|]. rewrite E4 in Hi. rewrite Eaddr in Ep. split; [done|]. split; [done|]. rewrite <- Hb. symmetry.
           apply Hoth; [done|]. intros Hin. apply Hp. unfold page_addr, CARA_PAGE_SIZE in *. lia.
        -- exists x, i. rewrite Epa. split; [apply elem_of_app; right; by right|]. split_and!; try done; try lia. rewrite <- Hb. symmetry. apply Hframe; auto.
      * apply elem_of_app in Hx as [Hx|[->|Hx]%elem_of_cons].
        -- exists x, i. cbn [pa_runs]. split; [apply elem_of_app; by left|]. split_and!; try done; try lia. rewrite <- Hb. apply Hframe; auto.
        -- exists r', i. cbn [pa_runs]. split; [apply elem_of_app; right; left|]. rewrite E4, Eaddr. split; [done|]. split; [done|]. rewrite <- Hb.
           apply Hoth; [done|]. intros Hin. apply Hp. unfold page_addr, CARA_PAGE_SIZE in *. lia.
        -- exists x, i. cbn [pa_runs]. split; [apply elem_of_app; right; by right|]. split_and!; try done; try lia. rewrite <- Hb. apply Hframe; auto.
Qed.
Lemma alloc_in_spec runs m n : Forall (fun r => run_ok r m) runs -> 0 < n < 2 ^ 32 ->
  match alloc_in runs m n with
  | None => forall r s, r ∈ runs -> 0 <= s -> s + n <= pr_data_pages r -> ~ window m (pr_bitmap r) s n
  | Some (phys, runs', m') => exists pre r r' post, runs = pre ++ r :: post /\ runs' = pre ++ r' :: post /\ run_alloc r m n = Some (phys, r', m')
  end.
Proof.
  intros Hok Hn. induction Hok as [|r runs Hr Hok IH]; cbn [alloc_in]; [intros r s Hr; by apply elem_of_nil in Hr|].
  destruct (run_alloc r m n) as [[[phys r'] m']|] eqn:Er; [by exists [], r, r', runs|].
  pose proof (run_alloc_spec r m n Hr Hn) as Hspec. rewrite Er in Hspec. destruct (alloc_in runs m n) as [[[phys runs'] m']|].
  - destruct IH as (pre & r0 & r' & post & -> & -> & E). by exists (r :: pre), r0, r', post.
  - intros x s [->|Hx]%elem_of_cons; [apply Hspec|by apply IH].
Qed.

Lemma sum_range (f g : PageRun -> Z) runs : (forall r, r ∈ runs -> 0 <= f r <= g r) ->
  0 <= foldr (fun r x => f r + x) 0 runs <= foldr (fun r x => g r + x) 0 runs.
Proof.
  induction runs as [|r runs IH]; intros H; cbn [foldr]; [lia|]. pose proof (H r ltac:(left)). specialize (IH ltac:(intros x Hx; apply H; by right)). lia.
Qed.
Lemma free_range r m : run_ok r m -> 0 <= pr_free_pages r <= pr_data_pages r.
Proof. intros H. rewrite (ro_free _ _ H). apply clear_count_range. pose proof (ro_pages _ _ H). lia. Qed.

Lemma page_alloc_spec pa m n phys pa' m' : alloc_ok pa m -> 0 < n < 2 ^ 32 -> Page_Alloc pa m n = (phys, pa', m') ->
  (phys = 0 /\ pa' = pa /\ m' = m /\ (forall r s, r ∈ pa_runs pa -> 0 <= s -> s + n <= pr_data_pages r -> ~ window m (pr_bitmap r) s n)) \/
  (phys <> 0 /\ alloc_ok pa' m' /\ pa_free pa' = pa_free pa - n /\
   (forall k, 0 <= k < n -> page_is pa m false (phys + k * CARA_PAGE_SIZE) /\ page_is pa' m' true (phys + k * CARA_PAGE_SIZE)) /\
   (forall p, ~ (phys <= p < phys + n * CARA_PAGE_SIZE) -> forall b, page_is pa' m' b p <-> page_is pa m b p) /\
   (forall a, phys <= a < phys + n * CARA_PAGE_SIZE -> m' a = 0) /\
   (forall p b a, page_is pa m b p -> p <= a < p + CARA_PAGE_SIZE -> ~ (phys <= p < phys + n * CARA_PAGE_SIZE) -> m' a = m a)).
Proof.
  intros Hok Hn E. unfold Page_Alloc in E. rewrite (proj2 (Z.eqb_neq n 0)) in E by lia. pose proof (alloc_in_spec _ m n (ao_runs _ _ Hok) Hn) as Hin.
  destruct (alloc_in (pa_runs pa) m n) as [[[phys0 runs'] m0]|]; [right|left; injection E as <- <- <-; done].
  destruct Hin as (pre & r & r' & post & Epa & Er' & Era). injection E as <- <- <-.
  assert (run_ok r m) as Hr. { pose proof (ao_runs _ _ Hok) as H. rewrite Epa, Forall_app, Forall_cons in H. apply H. }
  pose proof (run_alloc_spec r m n Hr Hn) as Hspec. rewrite Era in Hspec. destruct Hspec as (s & -> & Hch & Hfree & Hzero & Hother).
  pose proof (rc_range _ _ _ _ _ _ _ Hch) as Hrg. destruct (ro_pages _ _ Hr) as (Hbp & Hdp & Hnp & _).
  assert (pr_base r + CARA_PAGE_SIZE <= data_start r /\ data_start r <= page_addr r s /\ page_addr r s + n * CARA_PAGE_SIZE <= run_top r) as (G1 & G2 & G3) by (unfold run_top, data_start, page_addr, data_start, CARA_PAGE_SIZE in *; lia).
  destruct (change_one pa pre r r' post m m0 s n true runs' Hok Epa Er' Hch) as (C1 & C2 & C3 & C4 & C5).
  { intros a Ha. apply Hother; unfold pr_bitmap, CARA_PAGE_SIZE in *; lia. }
  assert (0 <= pa_free pa <= pa_total pa) as Hfr.
  { rewrite (ao_free _ _ Hok), (proj1 (ao_total _ _ Hok)). apply sum_range. intros x Hx. apply (free_range _ m). pose proof (ao_runs _ _ Hok) as H. rewrite Forall_forall in H. by apply H. }
  assert (n <= pa_free pa) as Hnf.
  { pose proof (sum_range (fun _ => 0) pr_free_pages runs') as Hs. assert (forall x, x ∈ runs' -> 0 <= 0 <= pr_free_pages x) as Hx.
    { intros x Hx. rewrite Forall_forall in C1. pose proof (free_range _ _ (C1 x Hx)). lia. } specialize (Hs Hx). rewrite C4, Hfree in Hs. lia. }
  pose proof (proj2 (ao_total _ _ Hok)) as Htot. rewrite (u64_small (pa_free pa - n)) by (unfold in_u64; lia).
  split; [pose proof (ro_base _ _ Hr); unfold CARA_PAGE_SIZE in *; lia|]. split_and!.
  - split; cbn [pa_runs pa_free pa_total]; [done|done|rewrite C4; lia|]. rewrite C3. split; [done|apply Hok].
  - done.
  - intros k Hk. apply (C5 _ _ _ 0). done.
  - intros p Hp b. by apply (C5 _ _ _ p).
  - done.
  - intros p b a (x & i & Hx & Hi & -> & Hb) Ha Hp. pose proof (ao_runs _ _ Hok) as Hall. rewrite Epa, Forall_forall in Hall. pose proof (ao_apart _ _ Hok) as Hap. rewrite Epa in Hap, Hx.
    destruct (ro_pages _ _ (Hall x Hx)) as (X1 & X2 & X3 & _). pose proof (page_addr_in x i X3 X1 Hi).
    apply elem_of_app in Hx as [Hx|[->|Hx]%elem_of_cons].
    + destruct (apart_split _ _ _ _ Hap (or_introl Hx)); apply Hother; unfold pr_bitmap, CARA_PAGE_SIZE in *; lia.
    + apply Hother; unfold pr_bitmap, page_addr, CARA_PAGE_SIZE in *; lia.
    + destruct (apart_split _ _ _ _ Hap (or_intror Hx)); apply Hother; unfold pr_bitmap, CARA_PAGE_SIZE in *; lia.
Qed.

(** C20: Allocation. [Page_Alloc] either fails, with nothing changed, and then no run has that many free
    pages in a row; or it returns that many consecutive pages which were free, marks exactly those
    allocated, keeps the allocator's books exact, hands the pages out zeroed, and changes no byte
    of any other page: in particular not of a page handed out before, whose contents survive. *)
Theorem page_alloc_correct pa m n phys pa' m' : alloc_ok pa m -> 0 < n < 2 ^ 32 -> Page_Alloc pa m n = (phys, pa', m') ->
  (phys = 0 /\ pa' = pa /\ m' = m /\ (forall r s, r ∈ pa_runs pa -> 0 <= s -> s + n <= pr_data_pages r -> ~ window m (pr_bitmap r) s n)) \/
  (phys <> 0 /\ alloc_ok pa' m' /\ pa_free pa' = pa_free pa - n /\
   (forall k, 0 <= k < n -> page_is pa m false (phys + k * CARA_PAGE_SIZE) /\ page_is pa' m' true (phys + k * CARA_PAGE_SIZE)) /\
   (forall p, ~ (phys <= p < phys + n * CARA_PAGE_SIZE) -> forall b, page_is pa' m' b p <-> page_is pa m b p) /\
   (forall a, phys <= a < phys + n * CARA_PAGE_SIZE -> m' a = 0) /\
   (forall p b a, page_is pa m b p -> p <= a < p + CARA_PAGE_SIZE -> ~ (phys <= p < phys + n * CARA_PAGE_SIZE) -> m' a = m a)).
Proof. apply page_alloc_spec. Qed.

Lemma free_in_spec pre r post m s n : run_owns r (page_addr r s) = true -> (forall x, x ∈ pre -> run_owns x (page_addr r s) = false) ->
  free_in (pre ++ r :: post) m (page_addr r s) n =
    Some (pre ++ give_pages r n :: post,
      clr_bits (Z.to_nat n) m (pr_bitmap r) (u32 ((page_addr r s - u64 (pr_base r + u64 (pr_bitmap_pages r * CARA_PAGE_SIZE))) / CARA_PAGE_SIZE))).
Proof.
  intros Hr. induction pre as [|x pre IH]; intros Hp; cbn [app free_in]; [by rewrite Hr|]. rewrite Hp by left. rewrite IH; [done|]. intros y Hy. apply Hp. by right.
Qed.

(** Release. Freeing pages that are allocated in a row marks exactly those free and keeps the
    books exact; every other page, and every byte outside the bitmaps, is as before. So a page
    returned by [Page_Alloc] can be given back, and what was allocated then is free again. *)
Theorem page_free_correct pa m r s n pa' m' : alloc_ok pa m -> r ∈ pa_runs pa -> 0 <= s -> 0 < n -> s + n <= pr_data_pages r ->
  (forall j, s <= j < s + n -> page_bit m r j = true) -> Page_Free pa m (page_addr r s) n = (pa', m') ->
  alloc_ok pa' m' /\ pa_free pa' = pa_free pa + n /\
  (forall k, 0 <= k < n -> page_is pa' m' false (page_addr r s + k * CARA_PAGE_SIZE)) /\
  (forall p, ~ (page_addr r s <= p < page_addr r s + n * CARA_PAGE_SIZE) -> forall b, page_is pa' m' b p <-> page_is pa m b p) /\
  (forall a, ~ (pr_bitmap r <= a < data_start r) -> m' a = m a).
Proof.
  intros Hok Hin Hs Hn Hle Hset E. apply list_elem_of_split in Hin as (pre & post & Epa).
  pose proof (ao_runs _ _ Hok) as Hall. rewrite Epa, Forall_app, Forall_cons in Hall. destruct Hall as (Hpre & Hr & _).
  destruct (run_free_spec r m s n Hr Hs Hn Hle Hset) as (Hown & Hch & Hfree & Hother). destruct (ro_pages _ _ Hr) as (Hbp & Hdp & Hnp & _).
  pose proof (page_addr_in r s Hnp Hbp ltac:(lia)) as Hpin. pose proof (ro_base _ _ Hr) as Hb0. pose proof (ro_top _ _ Hr) as Htop.
  unfold Page_Free in E. rewrite (proj2 (Z.eqb_neq (page_addr r s) 0)), (proj2 (Z.eqb_neq n 0)) in E by lia. cbn [orb] in E. rewrite Epa, free_in_spec in E; [|done|].
  2:{ intros x Hx. pose proof (ao_apart _ _ Hok) as Hap. rewrite Epa in Hap. rewrite Forall_forall in Hpre. pose proof (Hpre x Hx) as Hxok. destruct (ro_pages _ _ Hxok) as (X1 & X2 & X3 & X4).
      pose proof (ro_base _ _ Hxok). pose proof (ro_top _ _ Hxok). unfold run_owns. unfold run_top, CARA_PAGE_SIZE in *.
      rewrite (u64_small (pr_bitmap_pages x * 4096)), (u64_small (pr_n_pages x * 4096)), !(u64_small (pr_base x + _)) by (unfold in_u64; lia).
      apply negb_false_iff, orb_true_iff. destruct (apart_split _ _ _ _ Hap (or_introl Hx)); unfold run_top, CARA_PAGE_SIZE in *; [left; apply Z.ltb_lt; lia|right; apply Z.leb_le; lia]. }
  injection E as <- <-. set (m1 := clr_bits _ m _ _) in *.
  destruct (change_one pa pre r (give_pages r n) post m m1 s n false _ Hok Epa eq_refl Hch) as (C1 & C2 & C3 & C4 & C5).
  { intros a Ha. apply Hother. unfold pr_bitmap, data_start, run_top, CARA_PAGE_SIZE in *. lia. }
  assert (0 <= pa_free pa /\ pa_free pa + n <= pa_total pa) as [Hf0 Hf].
  { pose proof (sum_range pr_free_pages pr_data_pages (pre ++ give_pages r n :: post)) as Hsum. rewrite C3, C4, Hfree in Hsum. split.
    - rewrite (ao_free _ _ Hok). apply (sum_range pr_free_pages pr_data_pages). intros x Hx. apply (free_range _ m). pose proof (ao_runs _ _ Hok) as H. rewrite Forall_forall in H. by apply H.
    - assert (pa_free pa - pr_free_pages r + (pr_free_pages r + n) <= pa_total pa); [|lia]. apply Hsum. intros x Hx. apply (free_range _ m1). rewrite Forall_forall in C1. by apply C1. }
  pose proof (proj2 (ao_total _ _ Hok)) as Htot. rewrite (u64_small (pa_free pa + n)) by (unfold in_u64; lia). split_and!.
  - split; cbn [pa_runs pa_free pa_total]; [done|done|rewrite C4, Hfree; lia|]. rewrite C3. split; [done|apply Hok].
  - done.
  - intros k Hk. by apply (C5 _ _ _ 0).
  - intros p Hp b. by apply (C5 _ _ _ p).
  - exact Hother.
Qed.

(** ** Initialisation *)

Definition usable_ok (r : PhysRun) : Prop := 0 < run_base r /\ 0 < run_size r /\ run_base r + run_size r < 2 ^ 63 /\ run_size r < 2 ^ 43.
Definition runs_apart (r r' : PhysRun) : Prop := run_base r + run_size r <= run_base r' \/ run_base r' + run_size r' <= run_base r.

Lemma init_run_spec src r : usable_ok src -> init_run src = Ok (Some r) ->
  pr_base r = run_base src /\ run_top r <= run_base src + run_size src /\ pr_free_pages r = pr_data_pages r /\
  0 < pr_bitmap_pages r /\ 0 < pr_data_pages r /\ pr_n_pages r = pr_bitmap_pages r + pr_data_pages r /\ pr_n_pages r < 2 ^ 31 /\ pr_data_pages r <= 8 * (pr_bitmap_pages r * CARA_PAGE_SIZE).
Proof.
  intros (U1 & U2 & U3 & U4) E. unfold init_run in E. destruct (_ || _); [done|]. unfold CARA_PAGE_SIZE in *.
  set (n := run_size src / 4096) in *. assert (0 <= n < 2 ^ 31 /\ n * 4096 <= run_size src) as [Hn Hn'] by (unfold n; dmlia).
  rewrite (u32_small n) in E by (unfold in_u32; lia). destruct (Z.ltb_spec n 2); [done|]. rewrite (u32_small (n + 8)), (u32_small (n + 8 - 1)) in E by (unfold in_u32; lia).
  set (bb := (n + 8 - 1) / 8) in *. assert (n <= 8 * bb /\ 0 < bb < 2 ^ 29) as [Hbb Hbb'] by (unfold bb; dmlia).
  destruct (page_align_up_spec bb) as [A1 A2]; [unfold CARA_PAGE_SIZE; lia|]. unfold CARA_PAGE_SIZE in A1, A2. rewrite (u32_small (page_align_up bb)) in E by (unfold in_u32; lia).
  set (bp := page_align_up bb / 4096) in *. assert (bp * 4096 = page_align_up bb) as Hbp by (unfold bp; pose proof (Z.div_mod (page_align_up bb) 4096 ltac:(lia)); lia).
  destruct (Z.leb_spec n bp); [done|]. injection E as <-. unfold run_top, CARA_PAGE_SIZE. cbn [pr_base pr_n_pages pr_bitmap_pages pr_data_pages pr_free_pages]. split_and!; lia.
Qed.
Lemma init_run_ok src r m : usable_ok src -> init_run src = Ok (Some r) ->
  let m' := zero_bytes m (pr_bitmap r) (pr_bitmap_pages r * CARA_PAGE_SIZE) in
  run_ok r m' /\ (forall i, 0 <= i < pr_data_pages r -> page_bit m' r i = false) /\ (forall a, ~ (pr_base r <= a < run_top r) -> m' a = m a).
Proof.
  intros Hu E. pose proof Hu as (U1 & U2 & U3 & U4). destruct (init_run_spec src r Hu E) as (E1 & E2 & E3 & E4 & E5 & E6 & E7 & E8). cbn zeta. unfold CARA_PAGE_SIZE in *.
  assert (forall a, pr_bitmap r <= a < pr_bitmap r + pr_bitmap_pages r * 4096 -> zero_bytes m (pr_bitmap r) (pr_bitmap_pages r * 4096) a = 0) as Hz.
  { intros a Ha. unfold zero_bytes. by rewrite (proj2 (Z.leb_le _ _)), (proj2 (Z.ltb_lt _ _)) by lia. }
  assert (forall i, 0 <= i < pr_data_pages r -> page_bit (zero_bytes m (pr_bitmap r) (pr_bitmap_pages r * 4096)) r i = false) as Hbit.
  { intros i Hi. unfold page_bit. rewrite bit_at_testbit, Hz by dmlia. apply Z.testbit_0_l. }
  split_and!; [|done|].
  - split; unfold CARA_PAGE_SIZE in *; try lia.
    + intros a Ha. rewrite Hz by (unfold data_start, pr_bitmap, CARA_PAGE_SIZE in *; lia). done.
    + rewrite E3. unfold clear_count. rewrite (filter_len_all _ _ true); [rewrite length_seqZ; lia|]. intros x Hx%elem_of_seqZ. by rewrite Hbit by lia.
  - intros a Ha. unfold zero_bytes. assert ((pr_bitmap r <=? a) && (a <? pr_bitmap r + pr_bitmap_pages r * 4096) = false) as ->; [|done].
    unfold run_top, pr_bitmap, CARA_PAGE_SIZE in *. destruct (Z.leb_spec (pr_base r) a), (Z.ltb_spec a (pr_base r + pr_bitmap_pages r * 4096)); done || lia.
Qed.
Lemma init_runs_ok usable pa m pa' m' : Forall usable_ok usable -> ForallOrdPairs runs_apart usable -> alloc_ok pa m ->
  (forall r src, r ∈ pa_runs pa -> src ∈ usable -> run_top r <= run_base src \/ run_base src + run_size src <= pr_base r) ->
  pa_total pa + 2 ^ 31 * Z.of_nat (length usable) < 2 ^ 63 ->
  init_runs usable pa m = Ok (pa', m') -> alloc_ok pa' m'.
Proof.
  intros Hu. revert pa m. induction Hu as [|src usable Hsrc Hu IH]; intros pa m Hap Hok Hsep Htot E; cbn [init_runs] in E; [by injection E as <- <-|].
  destruct (_ <=? _); [done|]. inversion Hap as [|? ? Hf Hap']; subst. rewrite List.Forall_forall in Hf. setoid_rewrite <- list_elem_of_In in Hf.
  destruct (init_run src) as [[r|]|] eqn:Er; [|by apply (IH pa m); [done|done|intros; apply Hsep; [done|by right]|cbn [length] in Htot; lia|]|done].
  destruct (init_run_spec src r Hsrc Er) as (E1 & E2 & E3 & E4 & E5 & E6 & E7 & _). destruct (init_run_ok src r m Hsrc Er) as (R1 & R2 & R3). set (m1 := zero_bytes m _ _) in *.
  assert (forall x, x ∈ pa_runs pa -> apart x r) as Hapart.
  { intros x Hx. destruct (Hsep x src Hx ltac:(left)); [left|right]; lia. }
  revert E. apply IH; [done| | |].
  - destruct Hok as [O1 O2 O3 [O4 O5]]. rewrite Forall_forall in O1. split; cbn [pa_runs pa_free pa_total].
    + apply Forall_app. split; [|by constructor]. apply Forall_forall. intros x Hx. apply (run_frame x m); [by apply O1|]. intros a Ha. apply R3. destruct (Hapart x Hx); lia.
    + clear -O2 Hapart. induction (pa_runs pa) as [|y l IHl]; cbn [app]; [constructor; constructor|]. inversion O2 as [|? ? F1 F2]; subst. constructor.
      * apply List.Forall_app. split; [done|]. constructor; [|constructor]. apply Hapart. left.
      * apply IHl; [done|]. intros x Hx. apply Hapart. by right.
    + rewrite O3, foldr_app. cbn [foldr]. rewrite E3. clear. induction (pa_runs pa); cbn [foldr]; lia.
    + split; [|cbn [length] in Htot; lia]. rewrite O4, foldr_app. cbn [foldr]. clear. induction (pa_runs pa); cbn [foldr]; lia.
  - intros x s2 Hx Hs2. cbn [pa_runs] in Hx. apply elem_of_app in Hx as [Hx| ->%list_elem_of_singleton]; [apply Hsep; [done|by right]|].
    destruct (Hf s2 Hs2); [left|right]; lia.
  - cbn [pa_total length] in *. lia.
Qed.
Lemma page_init_ok usable m pa m' : Forall usable_ok usable -> ForallOrdPairs runs_apart usable -> (length usable <= 32)%nat ->
  Page_Init usable m = Ok (pa, m') -> alloc_ok pa m'.
Proof.
  intros Hu Hap Hl E. unfold Page_Init in E. destruct (init_runs _ _ _) as [[pa0 m0]|] eqn:Ei; [|done]. destruct (_ <? _)%nat; [|done]. injection E as <- <-.
  apply (init_runs_ok usable (mkPA [] 0 0 0) m); try done; [split; try done; constructor|intros r src Hr; by apply elem_of_nil in Hr|cbn; lia].
Qed.

Module PageExample.
(** One bank of 8 MiB less a page at 2 GiB, with the kernel in its first 2 MiB. *)
Definition banks : list PhysRun := [mkRun 0x80000000 0x800000].
Definition usable : list PhysRun := [mkRun 0x80200000 0x600000].
Lemma banks_wf : Forall run_wf banks.
Proof. repeat constructor; done. Qed.
Lemma physmap_exact_witness : covers_page usable 0x80300000 /\ (forall a, covers usable a -> ~ (0x80000000 <= a < 0x80200000)).
Proof.
  destruct (physmap_exact banks [] 0x80000000 0x80200000 0 0 usable banks_wf ltac:(constructor) ltac:(lia) ltac:(lia) ltac:(lia) ltac:(lia) eq_refl) as (_ & H2 & H3). split.
  - apply H3; [reflexivity| | | |].
    + exists (mkRun 0x80000000 0x800000). split; [left|]. unfold CARA_PAGE_SIZE. cbn. lia.
    + intros r Hr. apply elem_of_nil in Hr. destruct Hr.
    + intros a Ha. unfold in_run. unfold CARA_PAGE_SIZE in Ha. cbn. lia.
    + intros a Ha. unfold in_run. cbn. unfold CARA_PAGE_SIZE in Ha. lia.
  - intros a Ha. apply H2 in Ha. apply Ha.
Defined.

Definition init : PageAllocator := mkPA [mkPageRun 0x80200000 1536 1 1535 1535] 1535 1535 0.
Definition m0 : memory := zero_bytes (fun _ => 7) 0x80200000 4096.
Lemma init_ok : alloc_ok init m0.
Proof.
  apply (page_init_ok usable (fun _ => 7)); [repeat constructor; done|repeat constructor|cbn; lia|reflexivity].
Qed.
Lemma page_alloc_correct_witness : exists phys pa' m', Page_Alloc init m0 3 = (phys, pa', m') /\ phys = 0x80201000 /\ alloc_ok pa' m' /\ page_is pa' m' true 0x80201000.
Proof.
  destruct (Page_Alloc init m0 3) as [[phys pa'] m'] eqn:E. exists phys, pa', m'. split; [reflexivity|].
  assert (phys = 0x80201000) as Hp by (pose proof (f_equal (fun x => fst (fst x)) E) as H; vm_compute in H; symmetry; exact H). split; [exact Hp|].
  destruct (page_alloc_correct init m0 3 phys pa' m' init_ok ltac:(lia) E) as [[H _]|(_ & H1 & _ & H2 & _)]; [rewrite Hp in H; discriminate H|]. split; [exact H1|].
  rewrite Hp in H2. exact (proj2 (H2 0 ltac:(lia))).
Defined.

Definition st1 : Z * PageAllocator * memory := Page_Alloc init m0 3.
Definition pa1 : PageAllocator := snd (fst st1).
Definition m1 : memory := snd st1.
Definition r1 : PageRun := mkPageRun 0x80200000 1536 1 1535 1532.
Lemma pa1_ok : alloc_ok pa1 m1.
Proof.
  destruct (page_alloc_spec init m0 3 0x80201000 pa1 m1 init_ok ltac:(lia)) as [[H _]|(_ & H1 & _)]; [|discriminate H|exact H1].
  unfold pa1, m1, st1. destruct (Page_Alloc init m0 3) as [[phys pa'] m'] eqn:E. cbn. f_equal. f_equal.
  pose proof (f_equal (fun x => fst (fst x)) E) as H. vm_compute in H. symmetry. exact H.
Qed.
Lemma bits_set j : 0 <= j < 0 + 3 -> page_bit m1 r1 j = true.
Proof. intros Hj. assert (j = 0 \/ j = 1 \/ j = 2) as [-> | [-> | ->]] by lia; vm_compute; reflexivity. Qed.
Lemma page_free_correct_witness : exists pa' m', Page_Free pa1 m1 (page_addr r1 0) 3 = (pa', m') /\ alloc_ok pa' m' /\ page_is pa' m' false (page_addr r1 0 + 0 * CARA_PAGE_SIZE).
Proof.
  destruct (Page_Free pa1 m1 (page_addr r1 0) 3) as [pa' m'] eqn:E. exists pa', m'. split; [reflexivity|].
  assert (r1 ∈ pa_runs pa1) as Hin by (vm_compute; left).
  destruct (page_free_correct pa1 m1 r1 0 3 pa' m' pa1_ok Hin ltac:(lia) ltac:(lia) ltac:(vm_compute; discriminate) bits_set E) as (H1 & _ & H2 & _).
  split; [exact H1|exact (H2 0 ltac:(lia))].
Defined.
End PageExample.
