(* ===== verification/PhysMap.v ===== *)
(** The boot memory map: [Mm_PhysMapFromFdt] ([src/croi/mm/physmap.c]) on the device tree. The walk over the
    tree collects the banks and the reservations; [PageAlloc] has the arithmetic on them. *)

From Stdlib Require Import String.
From S2P Require Import Prelude Fdt PageAlloc.
#[local] Close Scope string_scope.
#[local] Open Scope Z_scope.

(** * The code *)

Record PhysMap := mkPhysMap { pm_bank : list PhysRun; pm_usable : list PhysRun; pm_total_bytes : Z; pm_usable_bytes : Z }.
Definition lift_result {A} (r : result A) : fd A := Some r.

(** The blob's string at [a] against [b]. *)
Fixpoint str_eq (blob : list Z) (a : Z) (b : list Z) : fd bool :=
  x ← fd_read (byte_at blob a);
  match b with
  | [] => mret (x =? 0)
  | y :: b => if negb (x =? 0) && (x =? y) then str_eq blob (a + 1) b else mret ((x =? 0) && (y =? 0))
  end.
Fixpoint bank_regs (fuel : nat) (fdt : Fdt) (child idx : Z) (banks : list PhysRun) : fd (list PhysRun) :=
  match fuel with
  | O => None
  | S fuel =>
      fd_case (Fdt_PropReg fdt child idx) (fun r =>
        match r with
        | Err _ => mret banks
        | Ok (base, size) =>
            check! negb (CARA_MAX_PHYS_BANKS <=? Z.of_nat (length banks)) else CARA_ERANGE;
            bank_regs fuel fdt child (u32 (idx + 1)) (banks ++ [mkRun base size])
        end)
  end.
Definition is_memory (fdt : Fdt) (child : Z) : fd bool :=
  dtype ← Fdt_PropStr fdt child (cstr "device_type");
  match dtype with None => mret false | Some s => str_eq (blob fdt) s (cstr "memory") end.
Definition bank_child (fdt : Fdt) (child : Z) (banks : list PhysRun) : fd (list PhysRun) :=
  m ← is_memory fdt child;
  if m : bool then bank_regs (struct_steps fdt) fdt child 0 banks else mret banks.
Fixpoint rsv_entries (fuel : nat) (fdt : Fdt) (rcur : Z) (rl : list PhysRun) : fd (list PhysRun) :=
  match fuel with
  | O => None
  | S fuel =>
      fd_case (Fdt_RsvIter fdt rcur) (fun r =>
        match r with
        | Err _ => mret rl
        | Ok (rb, rs, rcur) => rl ← lift_result (reserved_add rl rb rs); rsv_entries fuel fdt rcur rl
        end)
  end.
Fixpoint rsv_regs (fuel : nat) (fdt : Fdt) (child ridx : Z) (rl : list PhysRun) : fd (list PhysRun) :=
  match fuel with
  | O => None
  | S fuel =>
      fd_case (Fdt_PropReg fdt child ridx) (fun r =>
        match r with
        | Err _ => mret rl
        | Ok (rb, rs) => rl ← lift_result (reserved_add rl rb rs); rsv_regs fuel fdt child (u32 (ridx + 1)) rl
        end)
  end.
(** The loop over the children of [node] from [cur] on, with [step] for each. *)
Fixpoint each_child (fuel : nat) (fdt : Fdt) (node cur : Z) (step : Z -> list PhysRun -> fd (list PhysRun)) (acc : list PhysRun) : fd (list PhysRun) :=
  match fuel with
  | O => None
  | S fuel =>
      fd_case (Fdt_ChildIter fdt node cur) (fun r =>
        match r with
        | Err _ => mret acc
        | Ok (child, cur) => acc ← step child acc; each_child fuel fdt node cur step acc
        end)
  end.
Definition sum_sizes (l : list PhysRun) : Z := foldl (fun acc r => u64 (acc + run_size r)) 0 l.
Definition Mm_PhysMapFromFdt (fdt : Fdt) (kernel_start kernel_end dtb_start dtb_end : Z) : fd PhysMap :=
  root ← Fdt_Root fdt;
  banks ← each_child (struct_steps fdt) fdt root 0 (bank_child fdt) [];
  check! negb (length banks =? 0)%nat else CARA_ENOTFOUND;
  rl ← rsv_entries (S (Z.to_nat (totalsize fdt))) fdt 0 [];
  rl ← fd_case (Fdt_ResolvePath fdt (cstr "/reserved-memory")) (fun r =>
         match r with
         | Err _ => mret rl
         | Ok reserved_node => each_child (struct_steps fdt) fdt reserved_node 0 (fun child => rsv_regs (struct_steps fdt) fdt child 0) rl
         end);
  rl ← (if kernel_start <? kernel_end then lift_result (reserved_add rl kernel_start (kernel_end - kernel_start)) else mret rl);
  rl ← (if dtb_start <? dtb_end then lift_result (reserved_add rl dtb_start (dtb_end - dtb_start)) else mret rl);
  work ← lift_result (subtract_reserved banks rl);
  usable ← lift_result (usable_runs work);
  mret (mkPhysMap banks usable (sum_sizes banks) (sum_sizes usable)).

(** * What the tree says *)

(** The entries of the [reg] property, from [idx] on. *)
Fixpoint reg_list (fuel : nat) (fdt : Fdt) (node idx : Z) : fd (list PhysRun) :=
  match fuel with
  | O => None
  | S fuel => fd_case (Fdt_PropReg fdt node idx) (fun r => match r with Err _ => mret [] | Ok (base, size) => l ← reg_list fuel fdt node (idx + 1); mret (mkRun base size :: l) end)
  end.
(** The memory reservation block, from entry [i] on. *)
Fixpoint rsv_list (fuel : nat) (fdt : Fdt) (i : Z) : fd (list PhysRun) :=
  match fuel with
  | O => None
  | S fuel => fd_case (Fdt_RsvIter fdt i) (fun r => match r with Err _ => mret [] | Ok (base, size, _) => l ← rsv_list fuel fdt (i + 1); mret (mkRun base size :: l) end)
  end.
Fixpoint gather {A} (f : Z -> fd (list A)) (nodes : list Z) : fd (list A) :=
  match nodes with [] => mret [] | node :: nodes => a ← f node; b ← gather f nodes; mret (a ++ b) end.
Definition node_regs (fdt : Fdt) (node : Z) : fd (list PhysRun) := reg_list (struct_steps fdt) fdt node 0.
(** All the entries of the root's children whose [device_type] is [memory]. *)
Definition memory_banks (fdt : Fdt) : fd (list PhysRun) :=
  root ← Fdt_Root fdt;
  kids ← child_list (struct_steps fdt) fdt root 0;
  gather (fun child => m ← is_memory fdt child; if m : bool then node_regs fdt child else mret []) kids.
(** All the entries of the reservation block and of the children of [/reserved-memory]. *)
Definition reserved_regions (fdt : Fdt) : fd (list PhysRun) :=
  entries ← rsv_list (S (Z.to_nat (totalsize fdt))) fdt 0;
  nodes ← fd_case (Fdt_ResolvePath fdt (cstr "/reserved-memory")) (fun r =>
            match r with Err _ => mret [] | Ok node => kids ← child_list (struct_steps fdt) fdt node 0; gather (node_regs fdt) kids end);
  mret (entries ++ nodes).

Section Walk.
Context (fdt : Fdt) (Hok : fdt_ok fdt).

Lemma str_eq_total s name : terminated (blob fdt) s -> exists r, str_eq (blob fdt) s name = Some (Ok r).
Proof.
  revert s. induction name as [|y name IH]; intros s Hs; cbn [str_eq]; destruct (terminated_byte (blob fdt) s (fo_bytes _ Hok) Hs) as ([x|e] & Ex & Hx); try (by destruct (byte_at (blob fdt) s)); rewrite Ex; cbn [mbind fd_bind]; [by eexists|].
  destruct (Z.eqb_spec x 0); cbn [negb andb]; [by eexists|]. destruct (x =? y); [|by eexists]. apply IH. apply (terminated_next _ _ x); [done|by apply Hx|done].
Qed.
Lemma is_memory_total child : in_u32 child -> exists r, is_memory fdt child = Some (Ok r).
Proof.
  intros Hc. unfold is_memory, Fdt_PropStr. destruct (prop_data_runs fdt Hok child (cstr "device_type") Hc) as (r & E & _). pose proof (prop_str_runs fdt Hok child (cstr "device_type") Hc) as (r' & E' & Hs). unfold Fdt_PropStr in E'. rewrite E' in *.
  destruct r' as [[s|]|e]; cbn [mbind fd_bind]; [apply str_eq_total; by apply (Hs _ eq_refl)|by eexists|].
  exfalso. rewrite E in E'. cbn [fd_case] in E'. destruct r as [[b l]|]; [|done]. destruct (l =? 0); [done|]. by destruct (byte_at (blob fdt) (b + u32 (l - 1))).
Qed.
Lemma reg_list_total fuel node idx : in_u32 node -> 0 <= idx -> Z.max 0 (size_struct fdt - idx) < Z.of_nat fuel -> exists l, reg_list fuel fdt node idx = Some (Ok l).
Proof.
  intros Hn. revert idx. induction fuel as [|fuel IH]; intros idx Hi Hf; [lia|]. cbn [reg_list]. destruct (prop_reg_runs fdt Hok node idx Hn Hi) as ([[b s]|e] & -> & Hp); cbn [fd_case]; [|by eexists]. specialize (Hp _ eq_refl). cbn beta in Hp.
  destruct (IH (idx + 1)) as [l ->]; [lia|lia|]. by eexists.
Qed.
Lemma node_regs_total node : in_u32 node -> exists l, node_regs fdt node = Some (Ok l).
Proof. intros Hn. apply reg_list_total; [done|lia|]. destruct (fo_struct _ Hok) as (? & ? & ?). unfold struct_steps. lia. Qed.
Lemma rsv_step i : 0 <= i -> off_rsvmap fdt + i * 16 <= totalsize fdt -> runs (Fdt_RsvIter fdt i) (fun '(_, _, next) => next = i + 1 /\ off_rsvmap fdt + next * 16 <= totalsize fdt).
Proof. intros Hi Hl. destruct (fo_len _ Hok), (fo_rsv _ Hok) as (? & ? & _). eapply runs_impl; [apply rsv_iter_runs; [done|lia|lia]|]. intros [[b s] next] [-> ?]. lia. Qed.
Lemma rsv_list_total fuel i : 0 <= i -> off_rsvmap fdt + i * 16 <= totalsize fdt -> totalsize fdt - (off_rsvmap fdt + i * 16) < Z.of_nat fuel -> exists l, rsv_list fuel fdt i = Some (Ok l).
Proof.
  revert i. induction fuel as [|fuel IH]; intros i Hi Hl Hf; [lia|]. cbn [rsv_list]. destruct (rsv_step i Hi Hl) as ([[[b s] next]|e] & -> & Hp); cbn [fd_case]; [|by eexists]. destruct (Hp _ eq_refl) as [-> Hn]. destruct (IH (i + 1)) as [l ->]; [lia|lia|lia|]. by eexists.
Qed.
Lemma child_list_total fuel node cursor : in_u32 node -> enough fdt fuel cursor -> exists l, child_list fuel fdt node cursor = Some (Ok l) /\ Forall in_u32 l.
Proof.
  intros Hn. pose proof (size_small fdt Hok). revert cursor. induction fuel as [|fuel IH]; intros cursor He; [destruct He; lia|]. cbn [child_list]. destruct (child_iter_runs fdt Hok node cursor Hn (proj1 He)) as ([[child next]|e] & -> & Hp); cbn [fd_case]; [|exists []; by split].
  destruct (Hp _ eq_refl) as [Hc Hx]. destruct (IH next) as (l & -> & Hl); [destruct He; unfold enough; lia|]. exists (child :: l). split; [done|by constructor].
Qed.
Lemma gather_total (f : Z -> fd (list PhysRun)) l : Forall in_u32 l -> (forall c, in_u32 c -> exists g, f c = Some (Ok g)) -> exists g, gather f l = Some (Ok g).
Proof. intros Hl Hf. induction Hl as [|c l Hc _ [g IH]]; [by eexists|]. cbn [gather]. destruct (Hf c Hc) as [a ->]. cbn [mbind fd_bind]. rewrite IH. by eexists. Qed.

(** The loops of the code against the lists. *)
Definition capped (banks : list PhysRun) : fd (list PhysRun) := if CARA_MAX_PHYS_BANKS <? Z.of_nat (length banks) then fd_err CARA_ERANGE else mret banks.
Lemma bank_regs_eq fuel child idx banks l : in_u32 child -> 0 <= idx -> Z.of_nat (length banks) <= CARA_MAX_PHYS_BANKS -> reg_list fuel fdt child idx = Some (Ok l) -> bank_regs fuel fdt child idx banks = capped (banks ++ l).
Proof.
  intros Hc. revert idx banks l. induction fuel as [|fuel IH]; intros idx banks l Hi Hb E; [done|]. cbn [reg_list bank_regs] in *. destruct (prop_reg_runs fdt Hok child idx Hc Hi) as (r & Er & Hp). rewrite Er in *. cbn [fd_case] in *. destruct r as [[b s]|e].
  - specialize (Hp _ eq_refl). cbn beta in Hp. pose proof (size_small fdt Hok). destruct (reg_list fuel fdt child (idx + 1)) as [[l'|]|] eqn:El; try done. injection E as <-. destruct (Z.leb_spec CARA_MAX_PHYS_BANKS (Z.of_nat (length banks))); cbn [negb].
    + unfold capped. rewrite (proj2 (Z.ltb_lt _ _)); [done|]. rewrite length_app. cbn [length]. lia.
    + rewrite u32_small by (unfold in_u32; lia). rewrite (IH (idx + 1) _ l'); [by rewrite <- app_assoc|lia|rewrite length_app; cbn [length]; lia|done].
  - injection E as <-. rewrite app_nil_r. unfold capped. by rewrite (proj2 (Z.ltb_ge _ _)) by lia.
Qed.
Lemma rsv_regs_eq fuel child idx rl l : in_u32 child -> 0 <= idx -> reg_list fuel fdt child idx = Some (Ok l) -> rsv_regs fuel fdt child idx rl = Some (collect_reserved rl l).
Proof.
  intros Hc. revert idx rl l. induction fuel as [|fuel IH]; intros idx rl l Hi E; [done|]. cbn [reg_list rsv_regs] in *. destruct (prop_reg_runs fdt Hok child idx Hc Hi) as (r & Er & Hp). rewrite Er in *. cbn [fd_case] in *. destruct r as [[b s]|e]; [|by injection E as <-].
  specialize (Hp _ eq_refl). cbn beta in Hp. pose proof (size_small fdt Hok). destruct (reg_list fuel fdt child (idx + 1)) as [[l'|]|] eqn:El; try done. injection E as <-. cbn [collect_reserved run_base run_size]. unfold lift_result. destruct (reserved_add rl b s); cbn [mbind fd_bind]; [|done].
  rewrite u32_small by (unfold in_u32; lia). apply IH; [lia|done].
Qed.
Lemma rsv_entries_eq fuel i rl l : 0 <= i -> off_rsvmap fdt + i * 16 <= totalsize fdt -> rsv_list fuel fdt i = Some (Ok l) -> rsv_entries fuel fdt i rl = Some (collect_reserved rl l).
Proof.
  revert i rl l. induction fuel as [|fuel IH]; intros i rl l Hi Hl E; [done|]. cbn [rsv_list rsv_entries] in *. destruct (rsv_step i Hi Hl) as (r & Er & Hp). rewrite Er in *. cbn [fd_case] in *. destruct r as [[[b s] next]|e]; [|by injection E as <-].
  destruct (Hp _ eq_refl) as [-> Hn]. destruct (rsv_list fuel fdt (i + 1)) as [[l'|]|] eqn:El; try done. injection E as <-. cbn [collect_reserved run_base run_size]. unfold lift_result. destruct (reserved_add rl b s); cbn [mbind fd_bind]; [|done]. apply IH; [lia|lia|done].
Qed.
Fixpoint run_steps (step : Z -> list PhysRun -> fd (list PhysRun)) (l : list Z) (acc : list PhysRun) : fd (list PhysRun) :=
  match l with [] => mret acc | c :: l => acc ← step c acc; run_steps step l acc end.
Lemma each_child_eq fuel node cur step acc l : child_list fuel fdt node cur = Some (Ok l) -> each_child fuel fdt node cur step acc = run_steps step l acc.
Proof.
  revert cur acc l. induction fuel as [|fuel IH]; intros cur acc l E; [done|]. cbn [child_list each_child] in *. destruct (Fdt_ChildIter fdt node cur) as [[[child next]|e]|]; cbn [fd_case] in *; [|by injection E as <-|done].
  destruct (child_list fuel fdt node next) as [[l'|]|] eqn:El; try done. injection E as <-. cbn [run_steps]. destruct (step child acc) as [[a|]|]; cbn [mbind fd_bind]; [|done|done]. by apply IH.
Qed.
Lemma capped_bind banks (k : list PhysRun -> fd (list PhysRun)) : capped banks ≫= k = if CARA_MAX_PHYS_BANKS <? Z.of_nat (length banks) then fd_err CARA_ERANGE else k banks.
Proof. unfold capped. by destruct (_ <? _). Qed.
Lemma bank_steps l g banks : Forall in_u32 l -> Z.of_nat (length banks) <= CARA_MAX_PHYS_BANKS -> gather (fun child => m ← is_memory fdt child; if m : bool then node_regs fdt child else mret []) l = Some (Ok g) ->
  run_steps (bank_child fdt) l banks = capped (banks ++ g).
Proof.
  intros Hl. revert g banks. induction Hl as [|c l Hc Hl IH]; intros g banks Hb E; cbn [gather run_steps] in *; [injection E as <-; rewrite app_nil_r; unfold capped; by rewrite (proj2 (Z.ltb_ge _ _)) by lia|].
  unfold bank_child. destruct (is_memory_total c Hc) as [m Em]. rewrite Em in *. cbn [mbind fd_bind] in *. destruct (node_regs_total c Hc) as [r Er]. assert (exists a, (if m then node_regs fdt c else mret []) = Some (Ok a) /\ (if m then bank_regs (struct_steps fdt) fdt c 0 banks else mret banks) = capped (banks ++ a)) as (a & Ea & ->).
  { destruct m; [exists r; split; [done|by apply bank_regs_eq]|]. exists []. split; [done|]. rewrite app_nil_r. unfold capped. by rewrite (proj2 (Z.ltb_ge _ _)) by lia. }
  rewrite Ea in E. cbn [mbind fd_bind] in E. destruct (gather _ l) as [[g'|]|] eqn:Eg; try done. injection E as <-. rewrite app_assoc. change (match capped (banks ++ a) with Some (Ok x) => run_steps (bank_child fdt) l x | Some (Err e) => Some (Err e) | None => None end) with (capped (banks ++ a) ≫= run_steps (bank_child fdt) l).
  rewrite capped_bind. destruct (Z.ltb_spec CARA_MAX_PHYS_BANKS (Z.of_nat (length (banks ++ a)))); [|by apply IH]. unfold capped. rewrite (proj2 (Z.ltb_lt _ _)); [done|]. rewrite !length_app in *. lia.
Qed.
Lemma collect_app rl a b : collect_reserved rl (a ++ b) = match collect_reserved rl a with Ok rl => collect_reserved rl b | Err e => Err e end.
Proof. revert rl. induction a as [|r a IH]; intros rl; [done|]. cbn [app collect_reserved]. destruct (reserved_add _ _ _); [apply IH|done]. Qed.
Lemma rsv_steps l g rl : Forall in_u32 l -> gather (node_regs fdt) l = Some (Ok g) -> run_steps (fun child => rsv_regs (struct_steps fdt) fdt child 0) l rl = Some (collect_reserved rl g).
Proof.
  intros Hl. revert g rl. induction Hl as [|c l Hc Hl IH]; intros g rl E; cbn [gather run_steps] in *; [by injection E as <-|]. destruct (node_regs_total c Hc) as [r Er]. rewrite Er in E. cbn [mbind fd_bind] in E. destruct (gather _ l) as [[g'|]|] eqn:Eg; try done. injection E as <-.
  rewrite (rsv_regs_eq _ c 0 rl r Hc ltac:(lia) Er), collect_app. destruct (collect_reserved rl r); cbn [mbind fd_bind]; [by apply IH|done].
Qed.
Lemma image_region_collect rl s e : collect_reserved rl (image_region s e) = (if s <? e then reserved_add rl s (e - s) else Ok rl).
Proof. unfold image_region. destruct (s <? e); [|done]. cbn [collect_reserved run_base run_size]. by destruct (reserved_add rl s (e - s)). Qed.
Lemma root_no_error fuel off e : root_from fuel fdt off <> Some (Err e).
Proof.
  revert off. induction fuel as [|fuel IH]; intros off; [done|]. cbn [root_from]. destruct (off <? _); [|done]. destruct (fdt_read_token fdt off) as [[[[t p] n]|]|]; cbn [fd_case]; [|done|done]. destruct (_ =? _); [done|]. destruct (negb _); [done|]. apply IH.
Qed.
Lemma root_total : exists root, Fdt_Root fdt = Some (Ok root) /\ in_u32 root.
Proof.
  destruct (root_from_runs fdt Hok (struct_steps fdt) 0 (enough_steps fdt Hok 0 ltac:(lia))) as ([root|e] & Er & Hr); [exists root; split; [done|by apply Hr]|]. by apply root_no_error in Er.
Qed.
Lemma banks_walk : exists banks root, memory_banks fdt = Some (Ok banks) /\ Fdt_Root fdt = Some (Ok root) /\ each_child (struct_steps fdt) fdt root 0 (bank_child fdt) [] = capped banks.
Proof.
  destruct root_total as (root & Er & Hr). destruct (child_list_total (struct_steps fdt) root 0 Hr (enough_steps fdt Hok 0 ltac:(lia))) as (kids & Ek & Hk).
  destruct (gather_total (fun child => m ← is_memory fdt child; if m : bool then node_regs fdt child else mret []) kids Hk) as [g Eg].
  { intros c Hc. destruct (is_memory_total c Hc) as [m ->]. cbn [mbind fd_bind]. destruct m; [by apply node_regs_total|by eexists]. }
  exists g, root. unfold memory_banks. rewrite Er. cbn [mbind fd_bind]. rewrite Ek. split; [exact Eg|]. split; [done|]. rewrite (each_child_eq _ _ _ _ _ _ Ek). by apply (bank_steps kids g []).
Qed.
Lemma rsv_walk : exists entries, rsv_list (S (Z.to_nat (totalsize fdt))) fdt 0 = Some (Ok entries) /\ forall rl, rsv_entries (S (Z.to_nat (totalsize fdt))) fdt 0 rl = Some (collect_reserved rl entries).
Proof.
  destruct (fo_rsv _ Hok) as (? & ? & _). destruct (rsv_list_total (S (Z.to_nat (totalsize fdt))) 0) as [l El]; [lia|lia|lia|]. exists l. split; [done|]. intros rl. apply rsv_entries_eq; [lia|lia|done].
Qed.
Lemma reserved_walk : exists nodes,
  fd_case (Fdt_ResolvePath fdt (cstr "/reserved-memory")) (fun r => match r with Err _ => mret [] | Ok node => kids ← child_list (struct_steps fdt) fdt node 0; gather (node_regs fdt) kids end) = Some (Ok nodes) /\
  forall rl, fd_case (Fdt_ResolvePath fdt (cstr "/reserved-memory")) (fun r =>
     match r with Err _ => mret rl | Ok node => each_child (struct_steps fdt) fdt node 0 (fun child => rsv_regs (struct_steps fdt) fdt child 0) rl end) = Some (collect_reserved rl nodes).
Proof.
  destruct (resolve_path_runs fdt Hok (cstr "/reserved-memory")) as ([node|e] & -> & Hn); cbn [fd_case]; [|by exists []]. specialize (Hn _ eq_refl). destruct (child_list_total (struct_steps fdt) node 0 Hn (enough_steps fdt Hok 0 ltac:(lia))) as (kids & Ek & Hk).
  destruct (gather_total (node_regs fdt) kids Hk node_regs_total) as [g Eg]. exists g. rewrite Ek. split; [exact Eg|]. intros rl. rewrite (each_child_eq _ _ _ _ _ _ Ek). by apply rsv_steps.
Qed.
(** The walk and the checks that it interleaves come to [physmap_of] on the lists. *)
Lemma physmap_walk ks ke ds de : exists banks regions, memory_banks fdt = Some (Ok banks) /\ reserved_regions fdt = Some (Ok regions) /\
  Mm_PhysMapFromFdt fdt ks ke ds de = Some (match physmap_of banks regions ks ke ds de with Ok usable => Ok (mkPhysMap banks usable (sum_sizes banks) (sum_sizes usable)) | Err e => Err e end).
Proof.
  destruct banks_walk as (banks & root & Eb & Er & Ec), rsv_walk as (entries & El & Ee), reserved_walk as (nodes & En & Ew). exists banks, (entries ++ nodes). split; [done|]. split; [unfold reserved_regions; rewrite El; cbn [mbind fd_bind]; by rewrite En|].
  unfold Mm_PhysMapFromFdt, physmap_of. rewrite Er. cbn [mbind fd_bind]. rewrite Ec. unfold capped. destruct (CARA_MAX_PHYS_BANKS <? _); [done|]. cbn [mbind fd_bind mret fd_ret]. destruct (length banks =? 0)%nat; [done|]. cbn [negb].
  rewrite Ee, <- app_assoc, collect_app. destruct (collect_reserved [] entries) as [rl1|e]; cbn [mbind fd_bind]; [|done]. rewrite Ew, collect_app. destruct (collect_reserved rl1 nodes) as [rl2|e]; cbn [mbind fd_bind]; [|done].
  rewrite collect_app, image_region_collect. unfold lift_result. assert (forall (b : bool) (r : result (list PhysRun)) (rl : list PhysRun), (if b then Some r else (mret rl : fd (list PhysRun))) = Some (if b then r else Ok rl)) as Hif by (intros []; reflexivity). rewrite Hif. destruct (if ks <? ke then _ else _) as [rl3|e]; cbn [mbind fd_bind]; [|done].
  rewrite image_region_collect, Hif. destruct (if ds <? de then _ else _) as [rl4|e]; cbn [mbind fd_bind]; [|done]. destruct (subtract_reserved banks rl4) as [work|e]; cbn [mbind fd_bind]; [|done]. by destruct (usable_runs work).
Qed.
End Walk.


(** * A board *)

Module PhysMapExample.
Definition names : list (list Z) := [cstr "device_type"; cstr "reg"; cstr "#address-cells"; cstr "#size-cells"].
Definition strings_block : list Z := concat (map (fun s => s ++ [0]) names).
Fixpoint name_offset (l : list (list Z)) (name : list Z) : Z := match l with [] => 0 | s :: l => if decide (s = name) then 0 else zlen s + 1 + name_offset l name end.
Definition cells2 (rest : tree) : tree := Prop_ (cstr "#address-cells") (word 2) (Prop_ (cstr "#size-cells") (word 2) rest).
Definition run (base size : Z) : list Z := word 0 ++ word base ++ word 0 ++ word size.
(** 128 MiB at 2 GiB; one region reserved in the tree and one in the reservation block. *)
Definition board : tree :=
  cells2 (Node (cstr "memory@80000000") (Prop_ (cstr "device_type") (cstr "memory" ++ [0]) (Prop_ (cstr "reg") (run 0x80000000 0x8000000) Leaf))
         (Node (cstr "reserved-memory") (cells2 (Node (cstr "fw@87000000") (Prop_ (cstr "reg") (run 0x87000000 0x1000000) Leaf) Leaf)) Leaf)).
Definition struct_block : list Z := encode (name_offset names) (Node [] board Leaf) ++ word FDT_END.
Definition rsv_block : list Z := word 0 ++ word 0x80000000 ++ word 0 ++ word 0x20000 ++ replicate 16 0.
Definition board_dtb : list Z :=
  word FDT_MAGIC ++ word (72 + zlen struct_block + zlen strings_block) ++ word 72 ++ word (72 + zlen struct_block) ++ word 40 ++ word 17 ++ word 16 ++ word 0 ++ word (zlen strings_block) ++ word (zlen struct_block) ++
  rsv_block ++ struct_block ++ strings_block.
Definition board_fdt : Fdt := mkFdt board_dtb (72 + zlen struct_block + zlen strings_block) 72 (zlen struct_block) (72 + zlen struct_block) (zlen strings_block) 40 17 0.
Lemma board_opens : Fdt_Open 0x82000000 board_dtb = Some (Ok board_fdt).
Proof. vm_compute. reflexivity. Qed.
Lemma board_bytes : bytes_ok board_dtb.
Proof. apply (bool_decide_unpack (Forall in_u8 board_dtb)). vm_compute. exact I. Qed.
Definition the_map : PhysMap := mkPhysMap [mkRun 0x80000000 0x8000000] [mkRun 0x80020000 0x1E0000; mkRun 0x80400000 0x1C00000; mkRun 0x82001000 0x4FFF000] 0x8000000 0x6DDF000.
Lemma map_built : Mm_PhysMapFromFdt board_fdt 0x80200000 0x80400000 0x82000000 0x82000200 = Some (Ok the_map).
Proof. vm_compute. reflexivity. Qed.
Lemma board_banks : memory_banks board_fdt = Some (Ok [mkRun 0x80000000 0x8000000]) /\ reserved_regions board_fdt = Some (Ok [mkRun 0x80000000 0x20000; mkRun 0x87000000 0x1000000]).
Proof. split; vm_compute; reflexivity. Qed.
End PhysMapExample.
