(* ===== verification/PageTable.v ===== *)
(** Sv39 page tables ([src/croi/mm/pt.c], the encoding of [arch/riscv64/arch_pte.h]) on the page allocator
    and the physical memory of [PageAlloc]. A table is reached through its address in the direct map.
    The specification is the address translation the hardware makes of the tables in memory. *)

From S2P Require Import Prelude PageAlloc.

(** * The code *)

Definition CARA_KERNEL_VA_OFFSET : Z := 0xFFFFFFC000000000.
Definition Mm_PhysToVirt (phys : Z) : Z := u64 (phys + CARA_KERNEL_VA_OFFSET).
Definition Mm_VirtToPhys (virt : Z) : Z := u64 (virt - CARA_KERNEL_VA_OFFSET).

Definition PTE_V : Z := 0x001.
Definition PTE_R : Z := 0x002.
Definition PTE_W : Z := 0x004.
Definition PTE_X : Z := 0x008.
Definition PTE_U : Z := 0x010.
Definition PTE_G : Z := 0x020.
Definition PTE_A : Z := 0x040.
Definition PTE_D : Z := 0x080.
Definition PTE_KERNEL_RWX : Z := Z.lor (Z.lor (Z.lor (Z.lor (Z.lor (Z.lor PTE_V PTE_R) PTE_W) PTE_X) PTE_G) PTE_A) PTE_D.
Definition PTE_KERNEL_RW : Z := Z.lor (Z.lor (Z.lor (Z.lor (Z.lor PTE_V PTE_R) PTE_W) PTE_G) PTE_A) PTE_D.
Definition PTE_USER_RW : Z := Z.lor (Z.lor (Z.lor (Z.lor (Z.lor PTE_V PTE_R) PTE_W) PTE_U) PTE_A) PTE_D.
Definition PTE_USER_RX : Z := Z.lor (Z.lor (Z.lor (Z.lor PTE_V PTE_R) PTE_X) PTE_U) PTE_A.

Definition arch_pte_leaf (pa prot : Z) : Z := Z.lor (u64 (Z.shiftl (Z.shiftr pa 12) 10)) prot.
Definition arch_pte_table (child_pa : Z) : Z := Z.lor (u64 (Z.shiftl (Z.shiftr child_pa 12) 10)) PTE_V.
Definition arch_pte_valid (pte : Z) : bool := negb (Z.land pte PTE_V =? 0).
Definition arch_pte_is_leaf (pte : Z) : bool := negb (Z.land pte (Z.lor (Z.lor PTE_R PTE_W) PTE_X) =? 0).
Definition arch_pte_child_pa (pte : Z) : Z := u64 (Z.shiftl (Z.land (Z.shiftr pte 10) 0x0FFFFFFFFFFF) 12).

(** Little-endian loads and stores, at physical addresses. *)
Definition peekn (n : nat) (m : memory) (p : Z) : Z := le_get (map (fun k => m (p + k)) (seqZ 0 (Z.of_nat n))).
Definition poken (n : nat) (m : memory) (p v : Z) : memory := fun x => if (p <=? x) && (x <? p + Z.of_nat n) then nth_z (le_put n v) (x - p) 0 else m x.
Definition peek64 : memory -> Z -> Z := peekn 8.
Definition poke64 : memory -> Z -> Z -> memory := poken 8.

(** The page allocator [g_page_alloc], memory, and the ASID counter. *)
Record World := mkW { g_page_alloc : PageAllocator; w_mem : memory; g_next_asid : Z }.
(** [table[i]] for a table at a direct-map address. *)
Definition slot_addr (table i : Z) : Z := Mm_VirtToPhys (u64 (table + 8 * i)).
Definition pt_load (table i : Z) (w : World) : Z := peek64 (w_mem w) (slot_addr table i).
Definition pt_store (table i v : Z) (w : World) : World := mkW (g_page_alloc w) (poke64 (w_mem w) (slot_addr table i) v) (g_next_asid w).

(** Pointers to tables; 0 is the null pointer. *)
Definition alloc_pt_page (w : World) : Z * World :=
  let '(phys, pa, m) := Page_Alloc (g_page_alloc w) (w_mem w) 1 in
  (if phys =? 0 then 0 else Mm_PhysToVirt phys, mkW pa m (g_next_asid w)).
Definition free_pt_page (page : Z) (w : World) : World :=
  if page =? 0 then w
  else let '(pa, m) := Page_Free (g_page_alloc w) (w_mem w) (Mm_VirtToPhys page) 1 in mkW pa m (g_next_asid w).
Definition make_leaf (pa flags : Z) : Z := arch_pte_leaf pa flags.
Definition make_intermediate (child_pa : Z) : Z := arch_pte_table child_pa.
Definition pte_child (pte : Z) : Z := Mm_PhysToVirt (arch_pte_child_pa pte).
Definition pte_present (pte : Z) : bool := arch_pte_valid pte.
Definition pte_is_leaf (pte : Z) : bool := arch_pte_is_leaf pte.

Record PageTable := mkPT { pt_root : Z; pt_asid : Z }.

(** [got] says that the heap had room for the descriptor. *)
Definition Croi_NewKernelPT (got : bool) (w : World) : option PageTable * World :=
  if negb got then (None, w)
  else
    let '(root, w) := alloc_pt_page w in
    if root =? 0 then (None, w)
    else
      let pt := mkPT root (g_next_asid w) in
      let w := mkW (g_page_alloc w) (w_mem w) (u16 (g_next_asid w + 1)) in
      let w := pt_store root 256 (make_leaf 0x00000000 PTE_KERNEL_RW) w in
      let w := pt_store root 257 (make_leaf 0x40000000 PTE_KERNEL_RW) w in
      let w := pt_store root 258 (make_leaf 0x80000000 PTE_KERNEL_RWX) w in
      let w := pt_store root 259 (make_leaf 0xC0000000 PTE_KERNEL_RW) w in
      (Some pt, w).

Definition ENTRIES_PER_TABLE : Z := 512.
Definition CARA_SHARED_L2_INDEX : Z := 4.
Fixpoint free_subtable (level : nat) (table : Z) (w : World) : World :=
  match level with
  | O => w
  | S level =>
      foldl (fun w i =>
        let pte := pt_load table i w in
        if negb (pte_present pte) || pte_is_leaf pte then w
        else let child := pte_child pte in free_pt_page child (free_subtable level child w)) w (seqZ 0 ENTRIES_PER_TABLE)
  end.
(** One root entry of [Croi_DestroyPT]. *)
Definition free_slot (root : Z) (w : World) (i : Z) : World :=
  if i =? CARA_SHARED_L2_INDEX then w
  else
    let pte := pt_load root i w in
    if pte_present pte && negb (pte_is_leaf pte) then
      let child := pte_child pte in free_pt_page child (free_subtable 1 child w)
    else w.
Definition Croi_DestroyPT (pt : option PageTable) (w : World) : World :=
  match pt with
  | None => w
  | Some pt => if pt_root pt =? 0 then w else free_pt_page (pt_root pt) (foldl (free_slot (pt_root pt)) w (seqZ 0 256))
  end.

(** One step of the walk of [Page_Map]: the table below entry [i], made when the entry is empty. *)
Definition next_table (table i : Z) : ST World Z := fun w =>
  let pte := pt_load table i w in
  if negb (pte_present pte) then
    let '(page, w) := alloc_pt_page w in
    if page =? 0 then (Err CARA_ENOMEM, w) else (Ok page, pt_store table i (make_intermediate (Mm_VirtToPhys page)) w)
  else if pte_is_leaf pte then (Err CARA_EINVAL, w)
  else (Ok (pte_child pte), w).
Definition va_i2 (va : Z) : Z := Z.land (Z.shiftr va 30) 0x1FF.
Definition va_i1 (va : Z) : Z := Z.land (Z.shiftr va 21) 0x1FF.
Definition va_i0 (va : Z) : Z := Z.land (Z.shiftr va 12) 0x1FF.
Definition Page_Map (pt : option PageTable) (va pa prot : Z) : ST World unit :=
  match pt with
  | None => st_err CARA_EINVAL
  | Some pt =>
      assert! negb (pt_root pt =? 0) else CARA_EINVAL;
      assert! (Z.land va (CARA_PAGE_SIZE - 1) =? 0) && (Z.land pa (CARA_PAGE_SIZE - 1) =? 0) else CARA_EINVAL;
      assert! negb (Z.land prot PTE_V =? 0) else CARA_EINVAL;
      l1 ← next_table (pt_root pt) (va_i2 va);
      l0 ← next_table l1 (va_i1 va);
      pte ← st_gets (pt_load l0 (va_i0 va));
      assert! negb (pte_present pte) else CARA_EINVAL;
      st_mod (pt_store l0 (va_i0 va) (make_leaf pa prot))
  end.
(** [root] is the table in SATP; [arch_mmu_fence_va] has no effect on memory. *)
Definition Croi_Mm_InstallBootPT_1GiBLeaf (root va phys prot : Z) : ST World unit :=
  assert! (Z.land va (Z.shiftl 1 30 - 1) =? 0) && (Z.land phys (Z.shiftl 1 30 - 1) =? 0) else CARA_EINVAL;
  assert! negb (Z.land prot PTE_V =? 0) else CARA_EINVAL;
  pte ← st_gets (pt_load root (va_i2 va));
  assert! negb (pte_present pte) else CARA_EINVAL;
  st_mod (pt_store root (va_i2 va) (make_leaf phys prot)).
Definition Sv39_Satp (pt : PageTable) : Z :=
  Z.lor (Z.lor (u64 (Z.shiftl 8 60)) (u64 (Z.shiftl (pt_asid pt) 44))) (Z.shiftr (Mm_VirtToPhys (pt_root pt)) 12).

(** * The translation *)

(** The walk of the Sv39 MMU from the table at physical address [p], for the virtual page number [vpn]
    (27 bits) at level [l]: the physical page number and the flags of the leaf. *)
Definition hw_bad (pte : Z) : bool := negb (Z.testbit pte 0) || (negb (Z.testbit pte 1) && Z.testbit pte 2).
Definition hw_leaf (pte : Z) : bool := Z.testbit pte 1 || Z.testbit pte 3.
Definition hw_ppn (pte : Z) : Z := Z.land (Z.shiftr pte 10) (2 ^ 44 - 1).
Definition vpn_index (l : nat) (vpn : Z) : Z := Z.land (Z.shiftr vpn (9 * Z.of_nat l)) 511.
Fixpoint hw_walk (m : memory) (l : nat) (p vpn : Z) : option (Z * Z) :=
  let pte := peek64 m (p + 8 * vpn_index l vpn) in
  if hw_bad pte then None
  else if hw_leaf pte then
    if hw_ppn pte mod 2 ^ (9 * Z.of_nat l) =? 0 then Some (hw_ppn pte + vpn mod 2 ^ (9 * Z.of_nat l), Z.land pte 1023) else None
  else match l with O => None | S l => hw_walk m l (hw_ppn pte * 4096) vpn end.
Definition canonical (va : Z) : Prop := 0 <= va < 2 ^ 38 \/ 2 ^ 64 - 2 ^ 38 <= va < 2 ^ 64.
Definition translate (m : memory) (root va : Z) : option (Z * Z) :=
  '(ppn, flags) ← hw_walk m 2 root (Z.land (Z.shiftr va 12) (2 ^ 27 - 1)); Some (ppn * 4096 + va mod 4096, flags).

(** * Loads and stores *)

Lemma peekn_ext n m m' p : (forall a, p <= a < p + Z.of_nat n -> m' a = m a) -> peekn n m' p = peekn n m p.
Proof. intros H. unfold peekn. f_equal. apply map_ext_in. intros k Hk%list_elem_of_In%elem_of_seqZ. apply H. lia. Qed.
Lemma peekn_poken n m p v : 0 <= v < 2 ^ (8 * Z.of_nat n) -> peekn n (poken n m p v) p = v.
Proof.
  intros Hv. unfold peekn. replace (map _ _) with (le_put n v); [rewrite le_get_put; by apply Z.mod_small|].
  apply list_eq. intros i. rewrite list_lookup_fmap. destruct (decide (i < n)%nat) as [Hi|Hi].
  - rewrite lookup_seqZ_lt by lia. simpl fmap. unfold poken. rewrite (proj2 (Z.leb_le _ _)), (proj2 (Z.ltb_lt _ _)) by lia. cbn [andb]. rewrite nth_z_nth.
    replace (Z.to_nat _) with i by lia. destruct (lookup_lt_is_Some_2 (le_put n v) i) as [x Hx]; [by rewrite length_le_put|]. by rewrite (nth_lookup_Some _ _ 0 _ Hx).
  - rewrite lookup_seqZ_ge by lia. apply lookup_ge_None_2. rewrite length_le_put. lia.
Qed.
Lemma poken_frame n m p v a : ~ (p <= a < p + Z.of_nat n) -> poken n m p v a = m a.
Proof. intros H. unfold poken. destruct (Z.leb_spec p a), (Z.ltb_spec a (p + Z.of_nat n)); try done. lia. Qed.
Lemma peekn_other n m p k q v : p + Z.of_nat n <= q \/ q + Z.of_nat k <= p -> peekn n (poken k m q v) p = peekn n m p.
Proof. intros H. apply peekn_ext. intros a Ha. apply poken_frame. lia. Qed.

(** * Pages *)

Definition is_page (w : World) (p : Z) : Prop := exists b, page_is (g_page_alloc w) (w_mem w) b p.
Definition page_live (w : World) (p : Z) : Prop := page_is (g_page_alloc w) (w_mem w) true p.
(** The allocator is consistent and its pages are pages of the first 4 GiB, which the direct map
    covers. *)
Record phys_ok (w : World) : Prop := {
  ph_alloc : alloc_ok (g_page_alloc w) (w_mem w);
  ph_page p : is_page w p -> p mod 4096 = 0 /\ 0 < p < 2 ^ 32
}.
(** Same pages with the same contents. *)
Definition same_pages (w w' : World) : Prop :=
  (forall p, is_page w' p <-> is_page w p) /\ forall p a, is_page w p -> p <= a < p + 4096 -> w_mem w' a = w_mem w a.

Lemma live_page w p : page_live w p -> is_page w p.
Proof. by exists true. Qed.
Lemma same_refl w : same_pages w w.
Proof. done. Qed.
Lemma same_trans w1 w2 w3 : same_pages w1 w2 -> same_pages w2 w3 -> same_pages w1 w3.
Proof.
  intros [P1 M1] [P2 M2]. split; [intros p; by rewrite P2|]. intros p a Hp Ha. rewrite (M2 p a) by (by rewrite ?P1). by apply (M1 p).
Qed.

(** A page belongs to one run, at one index; two pages are the same or disjoint. *)
Lemma runs_split pa m r r' : alloc_ok pa m -> r ∈ pa_runs pa -> r' ∈ pa_runs pa -> r' = r \/ apart r r'.
Proof.
  intros Hok Hr Hr'. apply list_elem_of_split in Hr as (pre & post & E). pose proof (ao_apart _ _ Hok) as Hap. rewrite E in Hap, Hr'.
  apply elem_of_app in Hr' as [H|[->|H]%elem_of_cons]; [right|by left|right]; apply (apart_split _ _ _ _ Hap); auto.
Qed.
Lemma page_unique pa m r r' i i' : alloc_ok pa m -> r ∈ pa_runs pa -> r' ∈ pa_runs pa -> 0 <= i < pr_data_pages r -> 0 <= i' < pr_data_pages r' ->
  page_addr r i < page_addr r' i' + 4096 -> page_addr r' i' < page_addr r i + 4096 -> r' = r /\ i' = i.
Proof.
  intros Hok Hr Hr' Hi Hi' H1 H2. pose proof (ao_runs _ _ Hok) as Hall. rewrite Forall_forall in Hall.
  destruct (runs_split _ _ _ _ Hok Hr Hr') as [->|Hap]; [split; [done|unfold page_addr, CARA_PAGE_SIZE in *; lia]|exfalso].
  destruct (ro_pages _ _ (Hall r Hr)) as (B1 & _ & N1 & _), (ro_pages _ _ (Hall r' Hr')) as (B2 & _ & N2 & _).
  pose proof (page_addr_in r i N1 B1 Hi). pose proof (page_addr_in r' i' N2 B2 Hi'). unfold CARA_PAGE_SIZE in *. destruct Hap; lia.
Qed.
Lemma page_apart pa m b b' p q : alloc_ok pa m -> page_is pa m b p -> page_is pa m b' q -> (p = q /\ b = b') \/ p + 4096 <= q \/ q + 4096 <= p.
Proof.
  intros Hok (r & i & Hr & Hi & -> & Eb) (r' & i' & Hr' & Hi' & -> & Eb'). destruct (Z.le_gt_cases (page_addr r i + 4096) (page_addr r' i')); [by right; left|].
  destruct (Z.le_gt_cases (page_addr r' i' + 4096) (page_addr r i)); [by right; right|]. left.
  destruct (page_unique _ _ r r' i i' Hok Hr Hr' Hi Hi') as [-> ->]; [lia|lia|]. split; [done|congruence].
Qed.
Lemma pages_apart w p q : phys_ok w -> is_page w p -> is_page w q -> p <> q -> p + 4096 <= q \/ q + 4096 <= p.
Proof. intros Hw [b Hp] [b' Hq] Hne. destruct (page_apart _ _ _ _ _ _ (ph_alloc _ Hw) Hp Hq) as [[? _]|?]; [done|done]. Qed.

Lemma virt_phys p : 0 < p < 2 ^ 32 -> Mm_VirtToPhys (Mm_PhysToVirt p) = p /\ Mm_PhysToVirt p <> 0.
Proof. intros H. unfold Mm_VirtToPhys, Mm_PhysToVirt, CARA_KERNEL_VA_OFFSET, u64. rewrite (Z.mod_small (p + _)), Z.mod_small; lia. Qed.
(** The pages from [p] on, [n] of them. *)
Definition span (p n q : Z) : Prop := p <= q < p + n * 4096 /\ (q - p) mod 4096 = 0.
#[global] Instance span_dec p n q : Decision (span p n q).
Proof. unfold span. apply _. Defined.
Lemma span_index p n q : (exists k, 0 <= k < n /\ q = p + k * 4096) <-> span p n q.
Proof.
  unfold span. split; [intros (k & Hk & ->); replace (p + k * 4096 - p) with (k * 4096) by lia; rewrite Z.mod_mul by lia; lia|]. intros [H1 H2]. exists ((q - p) / 4096). dmlia.
Qed.
Lemma span_one p q : span p 1 q <-> q = p.
Proof. rewrite <- span_index. split; [intros (k & Hk & ->); lia|intros ->; exists 0; lia]. Qed.
(** Pages in a row are in one run: a run starts with its bitmap. *)
Lemma run_of_pages w b n p : phys_ok w -> 0 < n -> (forall k, 0 <= k < n -> page_is (g_page_alloc w) (w_mem w) b (p + k * 4096)) ->
  exists r s, r ∈ pa_runs (g_page_alloc w) /\ 0 <= s /\ s + n <= pr_data_pages r /\ p = page_addr r s /\ forall j, s <= j < s + n -> page_bit (w_mem w) r j = b.
Proof.
  intros Hw Hn Hk. pose proof (ao_runs _ _ (ph_alloc _ Hw)) as Hall. rewrite Forall_forall in Hall. pose proof (Hk 0 ltac:(lia)) as (r & s & Hr & Hs & Ep & _). rewrite Z.mul_0_l, Z.add_0_r in Ep.
  destruct (ro_pages _ _ (Hall r Hr)) as (B1 & _ & N1 & _). assert (s + n <= pr_data_pages r) as Hsn.
  { destruct (Z.le_gt_cases (s + n) (pr_data_pages r)) as [?|Hgt]; [done|exfalso]. pose proof (Hk (pr_data_pages r - s) ltac:(lia)) as (r' & i & Hr' & Hi & Ep' & _).
    destruct (ro_pages _ _ (Hall r' Hr')) as (B2 & _ & N2 & _). pose proof (page_addr_in r' i N2 B2 Hi). pose proof (page_addr_in r s N1 B1 Hs).
    destruct (runs_split _ _ _ _ (ph_alloc _ Hw) Hr Hr') as [->|Hap]; unfold apart, run_top, page_addr, data_start, CARA_PAGE_SIZE in *; [lia|]. assert (0 < pr_bitmap_pages r' + i) by lia. lia. }
  exists r, s. split_and!; [done|lia|done|done|]. intros j Hj. pose proof (Hk (j - s) ltac:(lia)) as (r' & i & Hr' & Hi & Ep' & Hb).
  destruct (page_unique _ _ r r' j i (ph_alloc _ Hw) Hr Hr' ltac:(lia) Hi) as [-> ->]; [unfold page_addr, CARA_PAGE_SIZE in *; lia..|done].
Qed.
(** What changing the state of [n] pages to [b] does to the set of pages. *)
Lemma flip_pages pa m pa' m' p n b : alloc_ok pa m -> alloc_ok pa' m' -> (forall k, 0 <= k < n -> page_is pa m (negb b) (p + k * 4096)) -> (forall k, 0 <= k < n -> page_is pa' m' b (p + k * 4096)) ->
  (forall q, ~ (p <= q < p + n * 4096) -> forall c, page_is pa' m' c q <-> page_is pa m c q) ->
  forall q c, page_is pa' m' c q <-> (span p n q /\ c = b) \/ (~ span p n q /\ page_is pa m c q).
Proof.
  intros Hok Hok' Hf Ht Hoth q c. assert (forall pa m b c, alloc_ok pa m -> (forall k, 0 <= k < n -> page_is pa m b (p + k * 4096)) -> page_is pa m c q -> ~ span p n q -> ~ (p <= q < p + n * 4096)) as Hin.
  { intros pa0 m0 b0 c0 H0 Hk Hq Hns Hin. destruct (page_apart _ _ _ _ _ _ H0 Hq (Hk ((q - p) / 4096) ltac:(dmlia))) as [[E _]|?]; [|dmlia]. apply Hns, span_index. exists ((q - p) / 4096). split; [dmlia|done]. }
  destruct (decide (span p n q)) as [Hs|Hs].
  - apply span_index in Hs as Hs'. destruct Hs' as (k & Hk & Eq). split; [intros H; left; split; [done|]|intros [[_ ->]|[? _]]; [rewrite Eq; by apply Ht|done]].
    rewrite Eq in H. destruct (page_apart _ _ _ _ _ _ Hok' H (Ht k Hk)) as [[_ ?]|?]; [done|lia].
  - split; [intros H; right; split; [done|]; apply Hoth; [by eapply (Hin pa' m')|done]|intros [[? _]|[_ H]]; [done|]; apply Hoth; [by eapply (Hin pa m)|done]].
Qed.
Lemma flip_is_page w pa' m' a p n b : (forall q c, page_is pa' m' c q <-> (span p n q /\ c = b) \/ (~ span p n q /\ page_is (g_page_alloc w) (w_mem w) c q)) ->
  (forall q, span p n q -> is_page w q) -> forall q, is_page (mkW pa' m' a) q <-> is_page w q.
Proof.
  intros Hpi Hsp q. unfold is_page. cbn. setoid_rewrite Hpi. destruct (decide (span p n q)) as [H|H]; [split; [intros _; by apply Hsp|intros _; exists b; auto]|]. split; intros [c Hc]; exists c; tauto.
Qed.

Section Alloc.
Context (w : World) (Hw : phys_ok w).

(** A store into a page. *)
Lemma store_page p m' : is_page w p -> (forall a, ~ (p <= a < p + 4096) -> m' a = w_mem w a) ->
  let w' := mkW (g_page_alloc w) m' (g_next_asid w) in
  phys_ok w' /\ (forall q, is_page w' q <-> is_page w q) /\ forall q, page_live w' q <-> page_live w q.
Proof.
  intros (b & r0 & i0 & Hr0 & Hi0 & -> & _) Hm w'. pose proof (ao_runs _ _ (ph_alloc _ Hw)) as Hall. rewrite Forall_forall in Hall.
  assert (forall r, r ∈ pa_runs (g_page_alloc w) -> run_ok r m' /\ forall i, 0 <= i < pr_data_pages r -> page_bit m' r i = page_bit (w_mem w) r i) as Hrun.
  { intros r Hr. apply run_frame_bits; [by apply Hall|]. intros a Ha. apply Hm. destruct (ro_pages _ _ (Hall r Hr)) as (B1 & B2 & B3 & _), (ro_pages _ _ (Hall r0 Hr0)) as (C1 & C2 & C3 & _).
    pose proof (page_addr_in r0 i0 C3 C1 Hi0). destruct (runs_split _ _ r0 r (ph_alloc _ Hw) Hr0 Hr) as [->|Hap]; [|unfold pr_bitmap, data_start, run_top, CARA_PAGE_SIZE, apart in *; destruct Hap; unfold run_top, CARA_PAGE_SIZE in *; lia].
    unfold page_addr, pr_bitmap, CARA_PAGE_SIZE in *. lia. }
  assert (forall b q, page_is (g_page_alloc w) m' b q <-> page_is (g_page_alloc w) (w_mem w) b q) as Hpi.
  { intros b' q. split; intros (r & i & Hr & Hi & Eq & Eb); exists r, i; split_and!; try done; try lia; [by rewrite <- (proj2 (Hrun r Hr))|by rewrite (proj2 (Hrun r Hr))]. }
  assert (forall q, is_page w' q <-> is_page w q) as Hip by (intros q; unfold is_page; cbn; setoid_rewrite Hpi; done).
  split; [|split; [done|intros q; apply Hpi]]. destruct (ph_alloc _ Hw) as [A1 A2 A3 A4]. split; [split; try done|].
  - apply Forall_forall. intros r Hr. by apply Hrun.
  - intros q Hq. apply Hip in Hq. by apply Hw.
Qed.

(** Allocation and release of [n] pages in a row. *)
Lemma alloc_pages n p pa' m' : 0 < n < 2 ^ 32 -> Page_Alloc (g_page_alloc w) (w_mem w) n = (p, pa', m') -> let w' := mkW pa' m' (g_next_asid w) in
  (p = 0 /\ w' = w /\ (forall q, ~ forall k, 0 <= k < n -> page_is (g_page_alloc w) (w_mem w) false (q + k * 4096))) \/
  (p <> 0 /\ phys_ok w' /\ (forall q, span p n q -> is_page w q /\ ~ page_live w q) /\ (forall q, is_page w' q <-> is_page w q) /\ (forall q, page_live w' q <-> page_live w q \/ span p n q) /\
    (forall a, p <= a < p + n * 4096 -> w_mem w' a = 0) /\ (forall q a, is_page w q -> ~ span p n q -> q <= a < q + 4096 -> w_mem w' a = w_mem w a)).
Proof.
  intros Hn Ea. cbn zeta. destruct (page_alloc_spec _ _ n _ _ _ (ph_alloc _ Hw) Hn Ea) as [(-> & -> & -> & Hno)|(Hp0 & Hok & _ & Hk & Hoth & Hz & Hm)].
  - left. destruct w as [pa m a]. split_and!; [done|done|]. intros q Hq. destruct (run_of_pages _ _ n q Hw ltac:(lia) Hq) as (r & s & Hr & Hs & Hsn & -> & Hb). by apply (Hno r s Hr Hs Hsn).
  - right. unfold CARA_PAGE_SIZE in *. pose proof (fun k Hk' => proj1 (Hk k Hk')) as Hf. pose proof (fun k Hk' => proj2 (Hk k Hk')) as Ht.
    pose proof (flip_pages _ _ _ _ p n true (ph_alloc _ Hw) Hok Hf Ht Hoth) as Hpi.
    assert (forall q, span p n q -> is_page w q /\ ~ page_live w q) as Hsp.
    { intros q Hq. pose proof (proj2 (span_index p n q) Hq) as (k & Hk' & ->). split; [exists false; by apply Hf|]. intros Hl. destruct (page_apart _ _ _ _ _ _ (ph_alloc _ Hw) Hl (Hf k Hk')) as [[_ ?]|?]; [done|lia]. }
    assert (forall q, is_page (mkW pa' m' (g_next_asid w)) q <-> is_page w q) as Hip by (apply flip_is_page with (p := p) (n := n) (b := true); [exact Hpi|intros q Hq; by apply Hsp]).
    split_and!; [done|split; [done|intros q Hq; by apply Hw, Hip]|done|done| |done|].
    + intros q. unfold page_live. cbn. rewrite Hpi. destruct (decide (span p n q)) as [H|H]; [tauto|]. tauto.
    + intros q a Hq Hne Ha. pose proof Hq as [b Hb]. apply (Hm q b a Hb Ha). intros Hin. apply Hne. split; [done|].
      pose proof (Hf 0 ltac:(lia)) as Hp. rewrite Z.mul_0_l, Z.add_0_r in Hp. destruct (ph_page _ Hw q Hq), (ph_page _ Hw p ltac:(by exists false)). dmlia.
Qed.
Lemma free_pages n p pa' m' : 0 < n -> (forall q, span p n q -> page_live w q) -> Page_Free (g_page_alloc w) (w_mem w) p n = (pa', m') -> let w' := mkW pa' m' (g_next_asid w) in
  phys_ok w' /\ same_pages w w' /\ forall q, page_live w' q <-> page_live w q /\ ~ span p n q.
Proof.
  intros Hn Hl Ef. cbn zeta. assert (forall k, 0 <= k < n -> page_live w (p + k * 4096)) as Hlk by (intros k Hk; apply Hl, span_index; by exists k).
  destruct (run_of_pages _ _ n p Hw Hn Hlk) as (r & s & Hrun & Hs & Hsn & Ep & Hb). rewrite Ep in Ef.
  pose proof (page_free_correct _ _ r s n pa' m' (ph_alloc _ Hw) Hrun Hs Hn Hsn Hb Ef) as (Hok & _ & Hk & Hoth & Hm). rewrite <- Ep in *. unfold CARA_PAGE_SIZE in *.
  pose proof (flip_pages _ _ _ _ p n false (ph_alloc _ Hw) Hok Hlk Hk Hoth) as Hpi.
  assert (forall q, is_page (mkW pa' m' (g_next_asid w)) q <-> is_page w q) as Hip by (apply flip_is_page with (p := p) (n := n) (b := false); [exact Hpi|intros q Hq; by apply live_page, Hl]).
  split_and!; [split; [done|intros q Hq; by apply Hw, Hip]|split; [done|]|].
  - intros q a Hq Ha. apply Hm. intros Hin. destruct Hq as (b & r' & i' & Hr' & Hi' & Eq & _). pose proof (ao_runs _ _ (ph_alloc _ Hw)) as Hall. rewrite Forall_forall in Hall.
    destruct (ro_pages _ _ (Hall r Hrun)) as (B1 & _ & N1 & _), (ro_pages _ _ (Hall r' Hr')) as (B2 & _ & N2 & _). pose proof (page_addr_in r' i' N2 B2 Hi').
    destruct (runs_split _ _ _ _ (ph_alloc _ Hw) Hrun Hr') as [->|Hap]; [unfold pr_bitmap, page_addr, CARA_PAGE_SIZE in *; lia|].
    unfold apart, run_top, pr_bitmap, data_start, CARA_PAGE_SIZE in *. lia.
  - intros q. unfold page_live. cbn. rewrite Hpi. destruct (decide (span p n q)) as [H|H]; [|tauto]. split; [intros [[_ ?]|?]; [done|tauto]|tauto].
Qed.
Lemma alloc_page v w' : alloc_pt_page w = (v, w') ->
  (v = 0 /\ w' = w /\ forall p, ~ page_is (g_page_alloc w) (w_mem w) false p) \/
  (exists p, v = Mm_PhysToVirt p /\ v <> 0 /\ phys_ok w' /\ ~ page_live w p /\ is_page w p /\ (forall q, is_page w' q <-> is_page w q) /\ (forall q, page_live w' q <-> page_live w q \/ q = p) /\
    (forall a, p <= a < p + 4096 -> w_mem w' a = 0) /\ (forall q a, is_page w q -> q <> p -> q <= a < q + 4096 -> w_mem w' a = w_mem w a)).
Proof.
  unfold alloc_pt_page. destruct (Page_Alloc _ _ 1) as [[p pa'] m'] eqn:Ea. intros [= <- <-].
  destruct (alloc_pages 1 p pa' m' ltac:(lia) Ea) as [(-> & -> & Hno)|(Hp0 & Hok & Hsp & Hip & Hlv & Hz & Hm)].
  - left. split_and!; [done|done|]. intros p Hp. apply (Hno p). intros k Hk. by replace (p + k * 4096) with p by lia.
  - right. rewrite (proj2 (Z.eqb_neq p 0)) by done. destruct (Hsp p (proj2 (span_one p p) eq_refl)) as [Hpg Hnl]. destruct (ph_page _ Hw p Hpg) as [Hal Hr].
    exists p. split_and!; [done|unfold Mm_PhysToVirt, CARA_KERNEL_VA_OFFSET, u64; rewrite Z.mod_small; lia|done|done|done|done| | |].
    + intros q. rewrite Hlv, span_one. done.
    + intros a Ha. apply Hz. lia.
    + intros q a Hq Hne. apply (Hm q a Hq). by rewrite span_one.
Qed.
Lemma free_page p : page_live w p -> let w' := free_pt_page (Mm_PhysToVirt p) w in
  phys_ok w' /\ same_pages w w' /\ forall q, page_live w' q <-> page_live w q /\ q <> p.
Proof.
  intros Hl w'. destruct (ph_page _ Hw p (live_page _ _ Hl)) as [_ Hr]. destruct (virt_phys p Hr) as [Ev Hv0].
  unfold w', free_pt_page. rewrite (proj2 (Z.eqb_neq _ 0)) by done. rewrite Ev. destruct (Page_Free _ _ p 1) as [pa' m'] eqn:Ef.
  destruct (free_pages 1 p pa' m' ltac:(lia) ltac:(intros q Hq; apply span_one in Hq; by rewrite Hq) Ef) as (H1 & H2 & H3). split_and!; [done|done|]. intros q. by rewrite H3, span_one.
Qed.
End Alloc.

(** * Entries *)

Definition entry (w : World) (p i : Z) : Z := peek64 (w_mem w) (p + 8 * i).
(** The table below entry [i] of the table at [p]. *)
Definition child (w : World) (p i : Z) : option Z :=
  let e := entry w p i in if pte_present e && negb (pte_is_leaf e) then Some (arch_pte_child_pa e) else None.

Lemma slot_addr_eq p i : 0 < p < 2 ^ 32 -> 0 <= i < 512 -> slot_addr (Mm_PhysToVirt p) i = p + 8 * i.
Proof. intros H Hi. unfold slot_addr, Mm_VirtToPhys, Mm_PhysToVirt, CARA_KERNEL_VA_OFFSET, u64. rewrite (Z.mod_small (p + _)), (Z.mod_small (_ + 8 * i)), Z.mod_small; lia. Qed.
Lemma peek64_ext m m' p : (forall a, p <= a < p + 8 -> m' a = m a) -> peek64 m' p = peek64 m p.
Proof. apply (peekn_ext 8). Qed.
Lemma peek64_poke64 m p v : in_u64 v -> peek64 (poke64 m p v) p = v.
Proof. intros Hv. apply (peekn_poken 8). exact Hv. Qed.
Lemma poke64_frame m p v a : ~ (p <= a < p + 8) -> poke64 m p v a = m a.
Proof. apply (poken_frame 8). Qed.

(** A store into entry [i] of a page. *)
Lemma store_entry w p i v : phys_ok w -> is_page w p -> 0 <= i < 512 -> in_u64 v -> let w' := pt_store (Mm_PhysToVirt p) i v w in
  phys_ok w' /\ (forall q, is_page w' q <-> is_page w q) /\ (forall q, page_live w' q <-> page_live w q) /\ entry w' p i = v /\
  (forall q j, is_page w q -> 0 <= j < 512 -> ~ (q = p /\ j = i) -> entry w' q j = entry w q j) /\
  (forall q a, is_page w q -> q <> p -> q <= a < q + 4096 -> w_mem w' a = w_mem w a).
Proof.
  intros Hw Hp Hi Hv w'. destruct (ph_page _ Hw p Hp) as [_ Hr]. assert (w_mem w' = poke64 (w_mem w) (p + 8 * i) v) as Em by (unfold w'; cbn; by rewrite slot_addr_eq).
  destruct (store_page w Hw p (w_mem w') Hp) as (H1 & H2 & H3). { intros a Ha. rewrite Em. apply poke64_frame. lia. }
  split_and!; [exact H1|exact H2|exact H3| | |].
  - unfold entry. rewrite Em. by apply peek64_poke64.
  - intros q j Hq Hj Hne. unfold entry. rewrite Em. apply peek64_ext. intros a Ha. apply poke64_frame. intros Ha'. destruct (decide (q = p)) as [->|Hn]; [apply Hne; split; [done|lia]|].
    destruct (pages_apart w q p Hw Hq Hp Hn); lia.
  - intros q a Hq Hn Ha. rewrite Em. apply poke64_frame. destruct (pages_apart w q p Hw Hq Hp Hn); lia.
Qed.

(** ** Encoding *)

Lemma lor_shift a b : 0 <= b < 1024 -> Z.lor (a * 1024) b = a * 1024 + b.
Proof.
  intros Hb. assert (Z.land (a * 1024) b = 0) as Hl.
  { apply Z.bits_inj_0. intros i. rewrite Z.land_spec. destruct (Z.lt_trichotomy i 0) as [Hi|Hi]; [by rewrite !Z.testbit_neg_r|]. destruct (Z.lt_ge_cases i 10).
    - change 1024 with (2 ^ 10). rewrite Z.mul_pow2_bits_low by lia. done.
    - rewrite (bits_above 10 b i) by lia. by rewrite andb_false_r. }
  rewrite <- Z.lxor_lor by done. symmetry. by apply Z.add_nocarry_lxor.
Qed.
Lemma leaf_value pa prot : 0 <= pa < 2 ^ 56 -> 0 <= prot < 1024 -> arch_pte_leaf pa prot = pa / 4096 * 1024 + prot /\ in_u64 (arch_pte_leaf pa prot).
Proof.
  intros Hp Hr. unfold arch_pte_leaf. rewrite Z.shiftr_div_pow2, Z.shiftl_mul_pow2 by lia. change (2 ^ 12) with 4096. change (2 ^ 10) with 1024.
  assert (0 <= pa / 4096 < 2 ^ 44) as Hq by dmlia. rewrite u64_small by (unfold in_u64; lia). rewrite lor_shift by done. split; [done|]. unfold in_u64. lia.
Qed.
Lemma ppn_value a b : 0 <= a < 2 ^ 44 -> 0 <= b < 1024 -> hw_ppn (a * 1024 + b) = a.
Proof.
  intros Ha Hb. unfold hw_ppn. change (2 ^ 44 - 1) with (Z.ones 44). rewrite Z.shiftr_div_pow2, Z.land_ones by lia. change (2 ^ 10) with 1024. rewrite Z.div_add_l, (Z.div_small b) by lia. rewrite Z.add_0_r. by apply Z.mod_small.
Qed.
Lemma flags_value a b : 0 <= b < 1024 -> Z.land (a * 1024 + b) 1023 = b.
Proof. intros Hb. change 1023 with (Z.ones 10). rewrite Z.land_ones by lia. change (2 ^ 10) with 1024. rewrite Z.add_comm, Z.mod_add by lia. by apply Z.mod_small. Qed.
Lemma flag_bit a b i : 0 <= b < 1024 -> 0 <= i < 10 -> Z.testbit (a * 1024 + b) i = Z.testbit b i.
Proof.
  intros Hb Hi. rewrite <- (flags_value a b Hb) at 2. rewrite Z.land_spec. change 1023 with (Z.ones 10). rewrite Z.ones_spec_low by lia. by rewrite andb_true_r.
Qed.
Lemma present_bit e : pte_present e = Z.testbit e 0.
Proof. unfold pte_present, arch_pte_valid, PTE_V. change 1 with (Z.ones 1). rewrite Z.land_ones by lia. change (2 ^ 1) with 2. rewrite Zmod_odd, Z.bit0_odd. by destruct (Z.odd e). Qed.
Lemma leaf_bits e : pte_is_leaf e = Z.testbit e 1 || Z.testbit e 2 || Z.testbit e 3.
Proof.
  unfold pte_is_leaf, arch_pte_is_leaf. change (Z.lor (Z.lor PTE_R PTE_W) PTE_X) with 14. destruct (Z.eqb_spec (Z.land e 14) 0) as [E|E]; cbn [negb]; symmetry.
  - assert (forall i, Z.testbit e i && Z.testbit 14 i = false) as H by (intros i; rewrite <- Z.land_spec, E; apply Z.bits_0).
    pose proof (H 1) as H1. pose proof (H 2) as H2. pose proof (H 3) as H3. change (Z.testbit 14 1) with true in H1. change (Z.testbit 14 2) with true in H2. change (Z.testbit 14 3) with true in H3.
    rewrite andb_true_r in H1, H2, H3. by rewrite H1, H2, H3.
  - destruct (Z.testbit e 1) eqn:E1; [done|]. destruct (Z.testbit e 2) eqn:E2; [done|]. destruct (Z.testbit e 3) eqn:E3; [done|]. destruct E. apply Z.bits_inj_0. intros i. rewrite Z.land_spec.
    destruct (decide (i = 1)) as [->|]; [by rewrite E1|]. destruct (decide (i = 2)) as [->|]; [by rewrite E2|]. destruct (decide (i = 3)) as [->|]; [by rewrite E3|].
    destruct (Z.lt_ge_cases i 0); [by rewrite Z.testbit_neg_r|]. destruct (decide (i = 0)) as [->|]; [by rewrite andb_false_r|]. rewrite (bits_above 4 14 i) by lia. by rewrite andb_false_r.
Qed.
Lemma child_pa_ppn e : arch_pte_child_pa e = hw_ppn e * 4096.
Proof.
  unfold arch_pte_child_pa, hw_ppn. change 0x0FFFFFFFFFFF with (Z.ones 44). change (2 ^ 44 - 1) with (Z.ones 44). rewrite Z.land_ones, Z.shiftl_mul_pow2 by lia. change (2 ^ 12) with 4096.
  pose proof (Z.mod_pos_bound (Z.shiftr e 10) (2 ^ 44) ltac:(lia)). apply u64_small. unfold in_u64. lia.
Qed.
(** An entry that points at a table. *)
Lemma table_entry w p i q : entry w p i = make_intermediate q -> q mod 4096 = 0 -> 0 < q < 2 ^ 32 -> child w p i = Some q.
Proof.
  intros E Hal Hq. destruct (leaf_value q PTE_V ltac:(lia) ltac:(unfold PTE_V; lia)) as [Hv _]. unfold child. rewrite E.
  change (make_intermediate q) with (arch_pte_leaf q PTE_V). rewrite present_bit, leaf_bits, child_pa_ppn, Hv, !flag_bit, ppn_value by (unfold PTE_V; dmlia). cbn [Z.testbit Z.odd PTE_V Pos.testbit andb orb negb].
  f_equal. dmlia.
Qed.
Lemma child_hw w p i q : child w p i = Some q -> hw_bad (entry w p i) = false /\ hw_leaf (entry w p i) = false /\ hw_ppn (entry w p i) * 4096 = q.
Proof.
  unfold child. rewrite present_bit, leaf_bits, child_pa_ppn. unfold hw_bad, hw_leaf. destruct (Z.testbit _ 0), (Z.testbit _ 1), (Z.testbit _ 2), (Z.testbit _ 3); cbn; intros [=]; done.
Qed.

(** * Tables *)

(** [p] is a table of level [l], below the entries [path] (innermost first) of the root [R]. *)
Inductive table_at (w : World) (R : Z) : nat -> Z -> list Z -> Prop :=
| ta_root : table_at w R 2 R []
| ta_child l p path i q : table_at w R (S l) p path -> 0 <= i < 512 -> child w p i = Some q -> table_at w R l q (i :: path).
(** A present entry of level [l] is one the hardware accepts. *)
Definition proper (l : nat) (e : Z) : Prop :=
  hw_bad e = false /\ (hw_leaf e = true -> hw_ppn e mod 2 ^ (9 * Z.of_nat l) = 0) /\ (l = 0%nat -> hw_leaf e = true).
(** The tables are allocated pages, each in one place, with proper entries. *)
Record pt_ok (w : World) (R : Z) : Prop := {
  po_phys : phys_ok w;
  po_live l p path : table_at w R l p path -> page_live w p;
  po_once l p path l' path' : table_at w R l p path -> table_at w R l' p path' -> l' = l /\ path' = path;
  po_proper l p path i : table_at w R l p path -> 0 <= i < 512 -> pte_present (entry w p i) = true -> proper l (entry w p i)
}.

Definition leaf_result (l : nat) (e vpn : Z) : option (Z * Z) :=
  if hw_bad e then None
  else if hw_leaf e then if hw_ppn e mod 2 ^ (9 * Z.of_nat l) =? 0 then Some (hw_ppn e + vpn mod 2 ^ (9 * Z.of_nat l), Z.land e 1023) else None
  else None.
(** The slot at which the walk ends. *)
Fixpoint walk_end (w : World) (l : nat) (p vpn : Z) : nat * Z * Z :=
  let k := vpn_index l vpn in
  match l, child w p k with S l, Some q => walk_end w l q vpn | _, _ => (l, p, k) end.
Fixpoint vpath (l : nat) (vpn : Z) : list Z := match l with O => [vpn_index 0 vpn] | S l' => vpath l' vpn ++ [vpn_index l vpn] end.

Lemma vpn_index_range l vpn : 0 <= vpn_index l vpn < 512.
Proof. unfold vpn_index. change 511 with (Z.ones 9). rewrite Z.land_ones by lia. change (2 ^ 9) with 512. apply Z.mod_pos_bound. lia. Qed.
Lemma bad_absent e : pte_present e = false -> hw_bad e = true.
Proof. rewrite present_bit. unfold hw_bad. by intros ->. Qed.

Section Walk.
Context (w : World) (R : Z) (Hok : pt_ok w R).
Lemma root_range l p path : table_at w R l p path -> p mod 4096 = 0 /\ 0 < p < 2 ^ 32.
Proof. intros H. apply (ph_page _ (po_phys _ _ Hok)). by apply live_page, (po_live _ _ Hok l p path). Qed.
Lemma level0_leafless p path i : table_at w R 0 p path -> 0 <= i < 512 -> child w p i = None.
Proof.
  intros Ht Hi. destruct (child w p i) as [q|] eqn:E; [|done]. destruct (child_hw _ _ _ _ E) as (_ & Hl & _). destruct (pte_present (entry w p i)) eqn:Ep; [|by unfold child in E; rewrite Ep in E].
  destruct (po_proper _ _ Hok 0 p path i Ht Hi Ep) as (_ & _ & H). rewrite H in Hl; done.
Qed.
Lemma walk_eq l p path vpn : table_at w R l p path -> hw_walk (w_mem w) l p vpn = let '(l', q, k) := walk_end w l p vpn in leaf_result l' (entry w q k) vpn.
Proof.
  revert p path. induction l as [|l IH]; intros p path Ht; cbn [hw_walk walk_end].
  - done.
  - change (peek64 (w_mem w) (p + 8 * vpn_index (S l) vpn)) with (entry w p (vpn_index (S l) vpn)). destruct (child w p (vpn_index (S l) vpn)) as [q|] eqn:Ec.
    + destruct (child_hw _ _ _ _ Ec) as (-> & -> & ->). apply (IH q (vpn_index (S l) vpn :: path)). apply (ta_child _ _ l p); [done|apply vpn_index_range|done].
    + unfold leaf_result. destruct (hw_bad _) eqn:Eb; [done|]. destruct (hw_leaf _) eqn:El; [done|]. exfalso. unfold child in Ec. rewrite present_bit, leaf_bits in Ec. unfold hw_bad, hw_leaf in Eb, El.
      by destruct (Z.testbit _ 0), (Z.testbit _ 1), (Z.testbit _ 2), (Z.testbit _ 3).
Qed.
Lemma walk_end_at l p path vpn : table_at w R l p path ->
  let '(l', q, k) := walk_end w l p vpn in 0 <= k < 512 /\ exists path', table_at w R l' q path' /\ (l' = 0%nat -> k :: path' = vpath l vpn ++ path) /\ (l' <> 0%nat -> child w q k = None).
Proof.
  revert p path. induction l as [|l IH]; intros p path Ht; cbn [walk_end vpath].
  - split; [apply vpn_index_range|]. exists path. split_and!; [done|done|done].
  - destruct (child w p (vpn_index (S l) vpn)) as [q|] eqn:Ec.
    + pose proof (ta_child _ _ l p path _ q Ht (vpn_index_range _ _) Ec) as Hq. specialize (IH q _ Hq). destruct (walk_end w l q vpn) as [[l' q'] k]. destruct IH as (Hk & path' & H1 & H2 & H3).
      split; [done|]. exists path'. split_and!; try done. intros H. rewrite H2 by done. by rewrite <- app_assoc.
    + split; [apply vpn_index_range|]. exists path. split_and!; [done|done|done].
Qed.
End Walk.

(** ** Changing an entry *)

(** [w'] has the tables of [w] except for entry [i] of the table [t] of level [l], at [path]. *)
Section Change.
Context (w w' : World) (R t i : Z) (l : nat) (path : list Z).
Hypothesis (Hok : pt_ok w R) (Ht : table_at w R l t path) (Hi : 0 <= i < 512).
Hypothesis Hsame : forall q j, page_live w q -> 0 <= j < 512 -> ~ (q = t /\ j = i) -> entry w' q j = entry w q j.
Hypothesis Hfree : pte_present (entry w t i) = false.

Lemma free_child : child w t i = None.
Proof. unfold child. by rewrite Hfree. Qed.
Lemma same_child q j : page_live w q -> 0 <= j < 512 -> ~ (q = t /\ j = i) -> child w' q j = child w q j.
Proof. intros H1 H2 H3. unfold child. by rewrite Hsame. Qed.
Lemma old_tables l' q path' : table_at w R l' q path' -> table_at w' R l' q path'.
Proof.
  induction 1 as [|l1 p1 path1 j q1 H1 IH Hj Hc]; [constructor|]. apply (ta_child _ _ _ p1); [done|done|]. rewrite same_child; [done|by apply (po_live _ _ Hok _ _ _ H1)|done|].
  intros [-> ->]. by rewrite free_child in Hc.
Qed.
End Change.

(** A new table below an empty entry. *)
Section AddTable.
Context (w w' : World) (R t i p : Z) (l : nat) (path : list Z).
Hypothesis (Hok : pt_ok w R) (Ht : table_at w R (S l) t path) (Hi : 0 <= i < 512).
Hypothesis Hsame : forall q j, page_live w q -> 0 <= j < 512 -> ~ (q = t /\ j = i) -> entry w' q j = entry w q j.
Hypothesis Hfree : pte_present (entry w t i) = false.
Hypothesis (Hw' : phys_ok w') (Hnew : ~ page_live w p) (Hlive : forall q, page_live w' q <-> page_live w q \/ q = p).
Hypothesis (Hent : entry w' t i = make_intermediate p) (Hzero : forall j, 0 <= j < 512 -> entry w' p j = 0).

Let Hp : p mod 4096 = 0 /\ 0 < p < 2 ^ 32.
Proof. apply (ph_page _ Hw'), live_page, Hlive. by right. Qed.
Let Hchild : child w' t i = Some p.
Proof. destruct Hp as [Ha Hb]. by apply table_entry. Qed.
Lemma new_leafless j : 0 <= j < 512 -> child w' p j = None.
Proof. intros Hj. unfold child. by rewrite Hzero. Qed.
Lemma added_tables l' q path' : table_at w' R l' q path' <-> table_at w R l' q path' \/ (l' = l /\ q = p /\ path' = i :: path).
Proof.
  pose proof (old_tables w w' R t i Hok Hsame Hfree) as Hold. split.
  - induction 1 as [|l1 p1 path1 j q1 H1 IH Hj Hc]; [left; constructor|]. destruct IH as [Hp1|(_ & -> & _)]; [|by rewrite new_leafless in Hc].
    destruct (decide (p1 = t /\ j = i)) as [[-> ->]|Hne].
    + right. rewrite Hchild in Hc. injection Hc as <-. destruct (po_once _ _ Hok _ _ _ _ _ Ht Hp1) as [[= ->] ->]. done.
    + left. rewrite (same_child w w' t i Hsame) in Hc; [by apply (ta_child _ _ _ p1)|by apply (po_live _ _ Hok _ _ _ Hp1)|done|done].
  - intros [H|(-> & -> & ->)]; [by apply Hold|]. apply (ta_child _ _ l t); [by apply Hold|done|done].
Qed.
Lemma add_table_ok : pt_ok w' R.
Proof.
  assert (forall l' q path', table_at w R l' q path' -> q <> p) as Hne by (intros l' q path' H ->; by apply Hnew, (po_live _ _ Hok _ _ _ H)). split; [done| | |].
  - intros l' q path' [H|(_ & -> & _)]%added_tables; apply Hlive; [left; by apply (po_live _ _ Hok _ _ _ H)|by right].
  - intros l1 q path1 l2 path2 [H1|(-> & -> & ->)]%added_tables [H2|(-> & E & ->)]%added_tables; [by apply (po_once _ _ Hok l1 q)|subst; by destruct (Hne _ _ _ H1)|by destruct (Hne _ _ _ H2)|done].
  - intros l1 q path1 j [H1|(-> & -> & ->)]%added_tables Hj Hpres; [|by rewrite Hzero in Hpres]. destruct (decide (q = t /\ j = i)) as [[-> ->]|Hn].
    + destruct (po_once _ _ Hok _ _ _ _ _ Ht H1) as [-> _]. destruct (child_hw _ _ _ _ Hchild) as (E1 & E2 & _). split; [done|]. rewrite E2. split; [done|done].
    + rewrite Hsame in Hpres |- *; try done; try (by apply (po_live _ _ Hok _ _ _ H1)). by apply (po_proper _ _ Hok _ _ path1).
Qed.
Lemma added_walk_end l' q path' vpn : table_at w R l' q path' ->
  walk_end w' l' q vpn = if decide (walk_end w l' q vpn = (S l, t, i)) then (l, p, vpn_index l vpn) else walk_end w l' q vpn.
Proof.
  revert q path'. induction l' as [|l' IH]; intros q path' Hq; cbn [walk_end]; [by rewrite decide_False|].
  destruct (decide (q = t /\ vpn_index (S l') vpn = i)) as [[-> Ei]|Hne].
  - destruct (po_once _ _ Hok _ _ _ _ _ Ht Hq) as [[= ->] ->]. rewrite Ei, Hchild, (free_child w t i Hfree), decide_True by done.
    destruct l as [|l0]; cbn [walk_end]; [done|]. by rewrite new_leafless by apply vpn_index_range.
  - rewrite (same_child w w' t i Hsame); [|by apply (po_live _ _ Hok _ _ _ Hq)|apply vpn_index_range|done]. destruct (child w q (vpn_index (S l') vpn)) as [q'|] eqn:Ec.
    + apply (IH q' (vpn_index (S l') vpn :: path')). apply (ta_child _ _ l' q); [done|apply vpn_index_range|done].
    + rewrite decide_False; [done|]. intros [= _ -> E]. by apply Hne.
Qed.
Lemma added_walk vpn : hw_walk (w_mem w') 2 R vpn = hw_walk (w_mem w) 2 R vpn.
Proof.
  rewrite (walk_eq w' R 2 R [] vpn (ta_root _ _)), (walk_eq w R 2 R [] vpn (ta_root _ _)), (added_walk_end 2 R [] vpn (ta_root _ _)).
  pose proof (walk_end_at w R 2 R [] vpn (ta_root _ _)) as Hat. destruct (walk_end w 2 R vpn) as [[l1 q] k]. destruct Hat as (Hk & path1 & H1 & _). destruct (decide _) as [[= -> -> ->]|Hne].
  - unfold leaf_result. rewrite (bad_absent _ Hfree), Hzero by apply vpn_index_range. done.
  - rewrite Hsame; [done|by apply (po_live _ _ Hok _ _ _ H1)|done|]. intros [-> ->]. apply Hne. by destruct (po_once _ _ Hok _ _ _ _ _ Ht H1) as [-> _].
Qed.
End AddTable.

(** A leaf in an empty entry. *)
Section AddLeaf.
Context (w w' : World) (R t i : Z) (l : nat) (path : list Z).
Hypothesis (Hok : pt_ok w R) (Ht : table_at w R l t path) (Hi : 0 <= i < 512).
Hypothesis Hsame : forall q j, page_live w q -> 0 <= j < 512 -> ~ (q = t /\ j = i) -> entry w' q j = entry w q j.
Hypothesis Hfree : pte_present (entry w t i) = false.
Hypothesis (Hw' : phys_ok w') (Hlive : forall q, page_live w' q <-> page_live w q).
Hypothesis (Hent : proper l (entry w' t i)) (Hleaf : hw_leaf (entry w' t i) = true).

Let Hchild : child w' t i = None.
Proof.
  destruct (child w' t i) eqn:E; [|done]. destruct (child_hw _ _ _ _ E) as (_ & E' & _). congruence.
Qed.
Lemma leaf_same_child q j : page_live w q -> 0 <= j < 512 -> child w' q j = child w q j.
Proof.
  intros Hq Hj. destruct (decide (q = t /\ j = i)) as [[-> ->]|Hne]; [by rewrite Hchild, (free_child w t i Hfree)|]. by apply (same_child w w' t i).
Qed.
Lemma leaf_tables l' q path' : table_at w' R l' q path' <-> table_at w R l' q path'.
Proof.
  split; [|by apply (old_tables w w' R t i Hok Hsame Hfree)]. induction 1 as [|l1 p1 path1 j q1 H1 IH Hj Hc]; [constructor|].
  apply (ta_child _ _ _ p1); [done|done|]. rewrite <- leaf_same_child; [done|by apply (po_live _ _ Hok _ _ _ IH)|done].
Qed.
Lemma add_leaf_ok : pt_ok w' R.
Proof.
  split; [done| | |].
  - intros l' q path' H%leaf_tables. apply Hlive. by apply (po_live _ _ Hok _ _ _ H).
  - intros l1 q path1 l2 path2 H1%leaf_tables H2%leaf_tables. by apply (po_once _ _ Hok l1 q).
  - intros l1 q path1 j H1%leaf_tables Hj Hpres. destruct (decide (q = t /\ j = i)) as [[-> ->]|Hn]; [by destruct (po_once _ _ Hok _ _ _ _ _ Ht H1) as [-> _]|].
    rewrite Hsame in Hpres |- *; try done; try (by apply (po_live _ _ Hok _ _ _ H1)). by apply (po_proper _ _ Hok _ _ path1).
Qed.
Lemma leaf_walk_end l' q path' vpn : table_at w R l' q path' -> walk_end w' l' q vpn = walk_end w l' q vpn.
Proof.
  revert q path'. induction l' as [|l' IH]; intros q path' Hq; cbn [walk_end]; [done|]. rewrite leaf_same_child; [|by apply (po_live _ _ Hok _ _ _ Hq)|apply vpn_index_range].
  destruct (child w q (vpn_index (S l') vpn)) as [q'|] eqn:Ec; [|done]. apply (IH q' (vpn_index (S l') vpn :: path')). apply (ta_child _ _ l' q); [done|apply vpn_index_range|done].
Qed.
Lemma leaf_walk vpn : hw_walk (w_mem w') 2 R vpn = if decide (walk_end w 2 R vpn = (l, t, i)) then leaf_result l (entry w' t i) vpn else hw_walk (w_mem w) 2 R vpn.
Proof.
  rewrite (walk_eq w' R 2 R [] vpn (ta_root _ _)), (walk_eq w R 2 R [] vpn (ta_root _ _)), (leaf_walk_end 2 R [] vpn (ta_root _ _)).
  pose proof (walk_end_at w R 2 R [] vpn (ta_root _ _)) as Hat. destruct (walk_end w 2 R vpn) as [[l1 q] k]. destruct Hat as (Hk & path1 & H1 & _). destruct (decide _) as [[= -> -> ->]|Hne]; [done|].
  rewrite Hsame; [done|by apply (po_live _ _ Hok _ _ _ H1)|done|]. intros [-> ->]. apply Hne. by destruct (po_once _ _ Hok _ _ _ _ _ Ht H1) as [-> _].
Qed.
End AddLeaf.

(** ** The walk of [Page_Map] *)

(** What mapping a page leaves alone: live pages stay live, no live page becomes a table, and the
    contents of the live pages that are not tables of [R]. *)
Record rest_kept (w w' : World) (R : Z) : Prop := {
  ok_live q : page_live w q -> page_live w' q;
  ok_tables l q path : table_at w' R l q path -> page_live w q -> table_at w R l q path;
  ok_bytes q a : page_live w q -> (forall l path, ~ table_at w R l q path) -> q <= a < q + 4096 -> w_mem w' a = w_mem w a
}.
Lemma others_refl w R : rest_kept w w R.
Proof. by split. Qed.
Lemma others_trans w1 w2 w3 R : rest_kept w1 w2 R -> rest_kept w2 w3 R -> rest_kept w1 w3 R.
Proof.
  intros [L1 T1 B1] [L2 T2 B2]. split; [auto|auto|]. intros q a Hq Hn Ha. rewrite (B2 q a); [by apply (B1 q)|auto| |done]. intros l path H. apply (Hn l path). auto.
Qed.
Definition no_free_page (w : World) : Prop := forall p, ~ page_is (g_page_alloc w) (w_mem w) false p.

Lemma pt_load_eq w p i : 0 < p < 2 ^ 32 -> 0 <= i < 512 -> pt_load (Mm_PhysToVirt p) i w = entry w p i.
Proof. intros Hp Hi. unfold pt_load, entry. by rewrite slot_addr_eq. Qed.
Lemma peek64_zero m p : (forall a, p <= a < p + 8 -> m a = 0) -> peek64 m p = 0.
Proof. intros H. rewrite (peek64_ext (fun _ => 0) m p) by done. reflexivity. Qed.

Lemma next_table_spec w R t path l i : pt_ok w R -> table_at w R (S l) t path -> 0 <= i < 512 ->
  match next_table (Mm_PhysToVirt t) i w with
  | (Ok v, w') => exists p, v = Mm_PhysToVirt p /\ pt_ok w' R /\ table_at w' R l p (i :: path) /\ (forall vpn, hw_walk (w_mem w') 2 R vpn = hw_walk (w_mem w) 2 R vpn) /\ rest_kept w w' R
  | (Err e, w') => w' = w /\ ((e = CARA_EINVAL /\ pte_present (entry w t i) = true /\ pte_is_leaf (entry w t i) = true) \/ (e = CARA_ENOMEM /\ pte_present (entry w t i) = false /\ no_free_page w))
  end.
Proof.
  intros Hok Ht Hi. destruct (root_range w R Hok _ _ _ Ht) as [Hal Hr]. pose proof (po_phys _ _ Hok) as Hw. unfold next_table. rewrite (pt_load_eq w t i Hr Hi). destruct (pte_present (entry w t i)) eqn:Ep; cbn [negb].
  - destruct (pte_is_leaf (entry w t i)) eqn:El; [by split; [|left]|]. exists (arch_pte_child_pa (entry w t i)). split_and!; [done|done| |done|apply others_refl].
    apply (ta_child _ _ l t); [done|done|]. unfold child. by rewrite Ep, El.
  - destruct (alloc_pt_page w) as [v w1] eqn:Ea. destruct (alloc_page w Hw v w1 Ea) as [(-> & -> & Hno)|(p & -> & Hv0 & Hw1 & Hnl & Hpg & Hip & Hlv & Hz & Hsm)]; [by split; [|right]|].
    rewrite (proj2 (Z.eqb_neq _ 0)) by done. destruct (ph_page _ Hw p Hpg) as [Hpal Hpr]. rewrite (proj1 (virt_phys p Hpr)).
    pose proof (po_live _ _ Hok _ _ _ Ht) as Hlt. assert (t <> p) as Htp by (by intros ->).
    destruct (leaf_value p PTE_V ltac:(lia) ltac:(unfold PTE_V; lia)) as [_ Hin]. change (arch_pte_leaf p PTE_V) with (make_intermediate p) in Hin.
    destruct (store_entry w1 t i (make_intermediate p) Hw1 ltac:(apply Hip; by apply live_page) Hi Hin) as (Hw2 & Hip2 & Hlv2 & Hent & Hoth & Hsm2).
    set (w2 := pt_store _ _ _ w1) in *.
    assert (forall q j, page_live w q -> 0 <= j < 512 -> ~ (q = t /\ j = i) -> entry w2 q j = entry w q j) as Hsame.
    { intros q j Hq Hj Hne. rewrite Hoth; [|apply Hip; by apply live_page|done|done]. apply peek64_ext. intros a Ha. apply (Hsm q); [by apply live_page|by intros ->|lia]. }
    assert (forall q, page_live w2 q <-> page_live w q \/ q = p) as Hlive by (intros q; by rewrite Hlv2, Hlv).
    assert (forall j, 0 <= j < 512 -> entry w2 p j = 0) as Hzero.
    { intros j Hj. rewrite Hoth; [|by apply Hip|done|by intros [-> _]]. apply peek64_zero. intros a Ha. apply Hz. lia. }
    pose proof (added_tables w w2 R t i p l path Hok Ht Hi Hsame Ep Hw2 Hlive Hent Hzero) as Htab.
    exists p. split_and!; [done|by apply (add_table_ok w w2 R t i p l path)|apply Htab; by right|by apply (added_walk w w2 R t i p l path)|]. split.
    + intros q Hq. apply Hlive. by left.
    + intros l' q path' [H|(_ & -> & _)]%Htab Hq; done.
    + intros q a Hq Hnt Ha. rewrite (Hsm2 q a); [apply (Hsm q); [by apply live_page|by intros ->|done]|apply Hip; by apply live_page|intros ->; by apply (Hnt _ _ Ht)|done].
Qed.

(** ** Virtual page numbers *)

Definition vpn_of (va : Z) : Z := Z.land (Z.shiftr va 12) (2 ^ 27 - 1).
Lemma vpn_index_of (l : nat) va : (l <= 2)%nat -> vpn_index l (vpn_of va) = Z.land (Z.shiftr va (12 + 9 * Z.of_nat l)) 511.
Proof.
  intros Hl. unfold vpn_index, vpn_of. apply Z.bits_inj'. intros n Hn. change 511 with (Z.ones 9). change (2 ^ 27 - 1) with (Z.ones 27). rewrite !Z.land_spec, !Z.shiftr_spec, Z.land_spec, Z.shiftr_spec by lia.
  replace (n + 9 * Z.of_nat l + 12) with (n + (12 + 9 * Z.of_nat l)) by lia. destruct (Z.lt_ge_cases n 9).
  - rewrite (Z.ones_spec_low 27) by lia. by rewrite andb_true_r.
  - rewrite (Z.ones_spec_high 9) by lia. by rewrite !andb_false_r.
Qed.
Lemma vpn_of_mod va : vpn_of va = (va / 4096) mod 2 ^ 27.
Proof. unfold vpn_of. change (2 ^ 27 - 1) with (Z.ones 27). by rewrite Z.land_ones, Z.shiftr_div_pow2 by lia. Qed.
Lemma vpath_inj vpn vpn' : 0 <= vpn < 2 ^ 27 -> 0 <= vpn' < 2 ^ 27 -> vpath 2 vpn = vpath 2 vpn' -> vpn = vpn'.
Proof.
  intros H H' E. assert (forall v, vpath 2 v = [v mod 512; (v / 512) mod 512; (v / 2 ^ 18) mod 512]) as Ev.
  { intros v. unfold vpath, vpn_index. change 511 with (Z.ones 9). rewrite !Z.land_ones, !Z.shiftr_div_pow2 by lia. change (9 * Z.of_nat 0) with 0. change (9 * Z.of_nat 1) with 9. change (9 * Z.of_nat 2) with 18.
    by rewrite Z.pow_0_r, Z.div_1_r. }
  rewrite !Ev in E. injection E as E0 E1 E2. change (2 ^ 18) with (512 * 512) in *. rewrite <- !Z.div_div in E2 by lia. dmlia.
Qed.
Lemma canonical_page va va' : canonical va -> canonical va' -> vpn_of va = vpn_of va' -> va / 4096 = va' / 4096.
Proof. unfold canonical. rewrite !vpn_of_mod. change (2 ^ 38) with (2 ^ 26 * 4096). change (2 ^ 64) with (2 ^ 52 * 4096). intros H H' E. dmlia. Qed.
Lemma vpn_of_range va : 0 <= vpn_of va < 2 ^ 27.
Proof. rewrite vpn_of_mod. apply Z.mod_pos_bound. lia. Qed.

(** ** Mapping a page *)

(** The slot of a page whose tables exist. *)
Lemma slot_of w R t vpn : table_at w R 0 t [vpn_index 1 vpn; vpn_index 2 vpn] -> walk_end w 2 R vpn = (0%nat, t, vpn_index 0 vpn).
Proof.
  inversion_clear 1 as [|? p1 ? ? ? H1 _ E1]. inversion H1 as [|? p2 ? ? ? H2 _ E2]; subst. inversion H2; subst. cbn [walk_end]. by rewrite E2, E1.
Qed.
Lemma slot_of1 w R t vpn : table_at w R 1 t [vpn_index 2 vpn] -> child w t (vpn_index 1 vpn) = None -> walk_end w 2 R vpn = (1%nat, t, vpn_index 1 vpn).
Proof. intros H Hc. inversion H as [|? p2 ? ? ? H2 _ E2]; subst. inversion H2; subst. cbn [walk_end]. by rewrite E2, Hc. Qed.
(** An entry that ends the walk decides the translation. *)
Lemma absent_walk w R l t k vpn : walk_end w 2 R vpn = (l, t, k) -> pte_present (entry w t k) = false -> hw_walk (w_mem w) 2 R vpn = None.
Proof. intros E Ha. rewrite (walk_eq w R 2 R [] vpn (ta_root _ _)), E. unfold leaf_result. by rewrite bad_absent. Qed.
Lemma leaf_walk_some w R l t path k vpn : pt_ok w R -> table_at w R l t path -> 0 <= k < 512 -> walk_end w 2 R vpn = (l, t, k) ->
  pte_present (entry w t k) = true -> pte_is_leaf (entry w t k) = true -> is_Some (hw_walk (w_mem w) 2 R vpn).
Proof.
  intros Hok Ht Hk E Hp Hl. rewrite (walk_eq w R 2 R [] vpn (ta_root _ _)), E. destruct (po_proper _ _ Hok l t path k Ht Hk Hp) as (Hb & Hm & _). unfold leaf_result. rewrite Hb.
  assert (hw_leaf (entry w t k) = true) as Hh. { rewrite leaf_bits in Hl. unfold hw_bad in Hb. unfold hw_leaf. by destruct (Z.testbit _ 0), (Z.testbit _ 1), (Z.testbit _ 2), (Z.testbit _ 3). }
  rewrite Hh, (Hm Hh). by eexists.
Qed.
Lemma leaf_no_child w p i : pte_present (entry w p i) = false \/ pte_is_leaf (entry w p i) = true -> child w p i = None.
Proof. unfold child. intros [-> | ->]; [done|]. by rewrite andb_false_r. Qed.

(** Flags with which a page can be mapped. *)
Definition prot_ok (prot : Z) : Prop := 0 <= prot < 1024 /\ (Z.testbit prot 0 = true -> hw_bad prot = false /\ hw_leaf prot = true).

(** The last store of [Page_Map]. *)
Lemma map_leaf w R t vpn pa prot : pt_ok w R -> table_at w R 0 t [vpn_index 1 vpn; vpn_index 2 vpn] -> 0 <= vpn < 2 ^ 27 ->
  0 <= pa < 2 ^ 56 -> pa mod 4096 = 0 -> prot_ok prot -> Z.testbit prot 0 = true -> pte_present (entry w t (vpn_index 0 vpn)) = false ->
  let w' := pt_store (Mm_PhysToVirt t) (vpn_index 0 vpn) (make_leaf pa prot) w in
  pt_ok w' R /\ rest_kept w w' R /\ forall v, 0 <= v < 2 ^ 27 -> hw_walk (w_mem w') 2 R v = if decide (v = vpn) then Some (pa / 4096, prot) else hw_walk (w_mem w) 2 R v.
Proof.
  intros Hok Ht Hvpn Hpa Hal [Hpr Hp] Hv Hfree w'. destruct (Hp Hv) as [Hb Hl]. destruct (leaf_value pa prot Hpa Hpr) as [Elv Hin]. change (arch_pte_leaf pa prot) with (make_leaf pa prot) in *.
  assert (0 <= pa / 4096 < 2 ^ 44) as Hppn by dmlia. pose proof (po_live _ _ Hok _ _ _ Ht) as Hlt. pose proof (vpn_index_range 0 vpn) as Hk.
  destruct (store_entry w t (vpn_index 0 vpn) (make_leaf pa prot) (po_phys _ _ Hok) (live_page _ _ Hlt) Hk Hin) as (Hw2 & _ & Hlv & Hent & Hoth & Hsm). fold w' in Hw2, Hlv, Hent, Hoth, Hsm.
  assert (hw_bad (make_leaf pa prot) = false /\ hw_leaf (make_leaf pa prot) = true) as [Hb' Hl'].
  { rewrite Elv. unfold hw_bad, hw_leaf in *. rewrite !flag_bit by lia. done. }
  assert (proper 0 (entry w' t (vpn_index 0 vpn))) as Hprop by (rewrite Hent; split; [done|]; split; [intros _; apply Z.mod_1_r|done]).
  assert (forall q j, page_live w q -> 0 <= j < 512 -> ~ (q = t /\ j = vpn_index 0 vpn) -> entry w' q j = entry w q j) as Hsame by (intros; apply Hoth; [by apply live_page|done|done]).
  assert (hw_leaf (entry w' t (vpn_index 0 vpn)) = true) as Hleaf by (by rewrite Hent).
  pose proof (leaf_tables w w' R t (vpn_index 0 vpn) Hok Hsame Hfree Hleaf) as Htab.
  split_and!; [by apply (add_leaf_ok w w' R t (vpn_index 0 vpn) 0 [vpn_index 1 vpn; vpn_index 2 vpn])|split|].
  - intros q. by rewrite Hlv.
  - intros l' q path' H%Htab _. done.
  - intros q a Hq Hn Ha. apply (Hsm q); [by apply live_page|intros ->; by apply (Hn _ _ Ht)|done].
  - intros v Hv'. rewrite (leaf_walk w w' R t (vpn_index 0 vpn) 0 [vpn_index 1 vpn; vpn_index 2 vpn]) by done. pose proof (slot_of w R t vpn Ht) as Hslot.
    destruct (decide (v = vpn)) as [->|Hne].
    + rewrite decide_True by done. unfold leaf_result. rewrite Hent, Hb', Hl', Elv, ppn_value, flags_value by done. change (2 ^ (9 * Z.of_nat 0)) with 1. rewrite !Z.mod_1_r. cbn [Z.eqb]. by rewrite Z.add_0_r.
    + rewrite decide_False; [done|]. intros E. apply Hne, vpath_inj; [done|done|]. pose proof (walk_end_at w R 2 R [] v (ta_root _ _)) as Hat. rewrite E in Hat. destruct Hat as (_ & path' & H1 & H2 & _).
      destruct (po_once _ _ Hok _ _ _ _ _ Ht H1) as [_ ->]. specialize (H2 eq_refl). rewrite app_nil_r in H2. rewrite <- H2. done.
Qed.

(** [Page_Map] after its checks. *)
Definition map_page (root vpn pa prot : Z) : ST World unit :=
  l1 ← next_table root (vpn_index 2 vpn);
  l0 ← next_table l1 (vpn_index 1 vpn);
  pte ← st_gets (pt_load l0 (vpn_index 0 vpn));
  assert! negb (pte_present pte) else CARA_EINVAL;
  st_mod (pt_store l0 (vpn_index 0 vpn) (make_leaf pa prot)).
Lemma map_page_spec w R vpn pa prot r w' : pt_ok w R -> 0 <= vpn < 2 ^ 27 -> 0 <= pa < 2 ^ 56 -> pa mod 4096 = 0 -> prot_ok prot -> Z.testbit prot 0 = true ->
  map_page (Mm_PhysToVirt R) vpn pa prot w = (r, w') -> pt_ok w' R /\ rest_kept w w' R /\
  match r with
  | Ok _ => hw_walk (w_mem w) 2 R vpn = None /\ forall v, 0 <= v < 2 ^ 27 -> hw_walk (w_mem w') 2 R v = if decide (v = vpn) then Some (pa / 4096, prot) else hw_walk (w_mem w) 2 R v
  | Err e => (forall v, hw_walk (w_mem w') 2 R v = hw_walk (w_mem w) 2 R v) /\
      ((e = CARA_EINVAL /\ is_Some (hw_walk (w_mem w) 2 R vpn)) \/ (e = CARA_ENOMEM /\ hw_walk (w_mem w) 2 R vpn = None /\ no_free_page w'))
  end.
Proof.
  intros Hok Hvpn Hpa Hal Hprot Hv E. unfold map_page in E. rewrite st_bind_eq in E.
  pose proof (next_table_spec w R R [] 1 (vpn_index 2 vpn) Hok (ta_root _ _) (vpn_index_range _ _)) as H1. destruct (next_table (Mm_PhysToVirt R) _ w) as [[v1|e1] w1].
  2:{ destruct H1 as [-> H1]. injection E as <- <-. assert (child w R (vpn_index 2 vpn) = None) as Hc by (apply leaf_no_child; destruct H1 as [(_ & _ & Hl)|(_ & Hp & _)]; auto).
      assert (walk_end w 2 R vpn = (2%nat, R, vpn_index 2 vpn)) as Hs by (cbn [walk_end]; by rewrite Hc). split_and!; [done|apply others_refl|done|].
      destruct H1 as [(-> & Hp & Hl)|(-> & Hp & Hn)]; [left|right]; split; [done| |done|]; [by apply (leaf_walk_some w R 2 R [] (vpn_index 2 vpn)); [|constructor|apply vpn_index_range|..]|].
      split; [by apply (absent_walk w R 2 R (vpn_index 2 vpn))|done]. }
  destruct H1 as (p1 & -> & Hok1 & Ht1 & Hw1 & Ho1). cbn beta iota in E. rewrite st_bind_eq in E.
  pose proof (next_table_spec w1 R p1 [vpn_index 2 vpn] 0 (vpn_index 1 vpn) Hok1 Ht1 (vpn_index_range _ _)) as H2. destruct (next_table (Mm_PhysToVirt p1) _ w1) as [[v2|e2] w2].
  2:{ destruct H2 as [-> H2]. injection E as <- <-. assert (child w1 p1 (vpn_index 1 vpn) = None) as Hc by (apply leaf_no_child; destruct H2 as [(_ & _ & Hl)|(_ & Hp & _)]; auto).
      pose proof (slot_of1 w1 R p1 vpn Ht1 Hc) as Hs. split_and!; [done|done|done|]. rewrite <- Hw1.
      destruct H2 as [(-> & Hp & Hl)|(-> & Hp & Hn)]; [left|right]; split; [done| |done|]; [by apply (leaf_walk_some w1 R 1 p1 [vpn_index 2 vpn] (vpn_index 1 vpn)); [..|apply vpn_index_range| | |]|].
      split; [by apply (absent_walk w1 R 1 p1 (vpn_index 1 vpn))|done]. }
  destruct H2 as (p0 & -> & Hok2 & Ht2 & Hw2 & Ho2). cbn beta iota in E. rewrite st_bind_gets in E. destruct (root_range w2 R Hok2 _ _ _ Ht2) as [_ Hr2]. pose proof (vpn_index_range 0 vpn) as Hk.
  rewrite (pt_load_eq w2 p0 _ Hr2 Hk) in E. pose proof (slot_of w2 R p0 vpn Ht2) as Hs. pose proof (others_trans _ _ _ _ Ho1 Ho2) as Ho. assert (forall v, hw_walk (w_mem w2) 2 R v = hw_walk (w_mem w) 2 R v) as Hw by (intros; by rewrite Hw2).
  destruct (pte_present (entry w2 p0 (vpn_index 0 vpn))) eqn:Ep; cbn [negb] in E.
  - injection E as <- <-. split_and!; [done|done|done|]. left. split; [done|]. rewrite <- Hw. apply (leaf_walk_some w2 R 0 p0 _ (vpn_index 0 vpn) vpn Hok2 Ht2 Hk Hs Ep).
    pose proof (level0_leafless w2 R Hok2 p0 _ (vpn_index 0 vpn) Ht2 Hk) as Hc. unfold child in Hc. rewrite Ep in Hc. by destruct (pte_is_leaf _).
  - injection E as <- <-. destruct (map_leaf w2 R p0 vpn pa prot Hok2 Ht2 Hvpn Hpa Hal Hprot Hv Ep) as (H1 & H2 & H3). split_and!; [done|by apply (others_trans _ w2)|rewrite <- Hw; by apply (absent_walk w2 R 0 p0 (vpn_index 0 vpn))|].
    intros v Hv'. rewrite H3 by done. by rewrite Hw.
Qed.
Lemma page_map_eq R asid va pa prot w : Mm_PhysToVirt R <> 0 -> 0 <= va -> 0 <= pa ->
  Page_Map (Some (mkPT (Mm_PhysToVirt R) asid)) va pa prot w =
    if bool_decide (va mod 4096 = 0 /\ pa mod 4096 = 0 /\ Z.testbit prot 0 = true) then map_page (Mm_PhysToVirt R) (vpn_of va) pa prot w else (Err CARA_EINVAL, w).
Proof.
  intros HR Hva Hpa. assert (forall x, 0 <= x -> Z.land x (CARA_PAGE_SIZE - 1) = x mod 4096) as Hmask.
  { intros x Hx. change (CARA_PAGE_SIZE - 1) with (Z.ones 12). by rewrite Z.land_ones by lia. }
  unfold Page_Map, map_page. cbn [pt_root]. rewrite (proj2 (Z.eqb_neq _ 0) HR). cbn [negb]. rewrite !Hmask by lia. pose proof (present_bit prot) as Hp. unfold pte_present, arch_pte_valid in Hp. rewrite Hp.
  rewrite !vpn_index_of by lia. change (12 + 9 * Z.of_nat 2) with 30. change (12 + 9 * Z.of_nat 1) with 21. change (12 + 9 * Z.of_nat 0) with 12.
  destruct (Z.eqb_spec (va mod 4096) 0), (Z.eqb_spec (pa mod 4096) 0), (Z.testbit prot 0); cbn [andb]; (rewrite bool_decide_true by done) || (rewrite bool_decide_false by naive_solver); done.
Qed.

(** C34: Mapping a page changes the translation of that page and of no other. On success the page was
    unmapped, its addresses now translate to the physical page with the flags given, and every other
    canonical address translates as before; refusing a request (misaligned, without the valid flag, or for an address
    that already translates) and running out of pages for tables (only when none is free) leave every translation as
    it was; and whatever happens, the tables stay well formed and no live page but the tables of this
    address space is touched. *)
Theorem page_map_translates w R asid va pa prot r w' : pt_ok w R -> canonical va -> 0 <= pa < 2 ^ 56 -> prot_ok prot ->
  Page_Map (Some (mkPT (Mm_PhysToVirt R) asid)) va pa prot w = (r, w') ->
  pt_ok w' R /\ rest_kept w w' R /\
  match r with
  | Ok _ => va mod 4096 = 0 /\ pa mod 4096 = 0 /\ translate (w_mem w) R va = None /\
      forall va', canonical va' -> translate (w_mem w') R va' = if decide (va' / 4096 = va / 4096) then Some (pa + va' mod 4096, prot) else translate (w_mem w) R va'
  | Err e => (forall va', translate (w_mem w') R va' = translate (w_mem w) R va') /\
      ((e = CARA_EINVAL /\ (va mod 4096 <> 0 \/ pa mod 4096 <> 0 \/ Z.testbit prot 0 = false \/ is_Some (translate (w_mem w) R va))) \/
       (e = CARA_ENOMEM /\ translate (w_mem w) R va = None /\ no_free_page w'))
  end.
Proof.
  intros Hok Hcan Hpa Hprot E. destruct (root_range w R Hok _ _ _ (ta_root _ _)) as [_ HRr]. rewrite page_map_eq in E by (try apply virt_phys; unfold canonical in Hcan; lia).
  destruct (bool_decide_reflect (va mod 4096 = 0 /\ pa mod 4096 = 0 /\ Z.testbit prot 0 = true)) as [(Hva & Hal & Hv)|Hbad].
  - destruct (map_page_spec w R (vpn_of va) pa prot r w' Hok (vpn_of_range va) Hpa Hal Hprot Hv E) as (H1 & H2 & H3). split; [done|]. split; [done|]. unfold translate. fold (vpn_of va).
    destruct r as [u|e].
    + destruct H3 as [Hnone Hmap]. rewrite Hnone. split_and!; try done. intros va' Hcan'. fold (vpn_of va'). rewrite Hmap by apply vpn_of_range. destruct (decide (va' / 4096 = va / 4096)) as [Ep|Ep].
      * rewrite decide_True by (by rewrite !vpn_of_mod, Ep). cbn. do 2 f_equal. dmlia.
      * rewrite decide_False by (intros Ev; by apply Ep, canonical_page). done.
    + destruct H3 as [Hsame Hcase]. split; [intros va'; by rewrite Hsame|]. destruct Hcase as [[-> [[ppn fl] Hs]]|(-> & Hn & Hf)]; [left; split; [done|]; do 3 right|right]; [rewrite Hs; by eexists|rewrite Hn; done].
  - injection E as <- <-. split_and!; [done|apply others_refl|done|]. left. split; [done|]. destruct (decide (va mod 4096 = 0)); [|tauto]. destruct (decide (pa mod 4096 = 0)); [|tauto]. destruct (Z.testbit prot 0) eqn:?; tauto.
Qed.

(** * Destruction *)

(** A loop whose steps free the pages [dead i], once each. *)
Lemma fold_frees (body : World -> Z -> World) (dead : Z -> Z -> Prop) l w0 :
  (forall i w, i ∈ l -> phys_ok w -> same_pages w0 w -> (forall q, dead i q -> page_live w q) ->
    phys_ok (body w i) /\ same_pages w (body w i) /\ forall q, page_live (body w i) q <-> page_live w q /\ ~ dead i q) ->
  (forall i j q, i ∈ l -> j ∈ l -> dead i q -> dead j q -> i = j) -> NoDup l ->
  forall w, phys_ok w -> same_pages w0 w -> (forall i q, i ∈ l -> dead i q -> page_live w q) ->
  phys_ok (foldl body w l) /\ same_pages w (foldl body w l) /\ forall q, page_live (foldl body w l) q <-> page_live w q /\ ~ exists i, i ∈ l /\ dead i q.
Proof.
  intros Hbody Hinj Hnd. induction l as [|i l IH]; intros w Hw Hs Hl; cbn [foldl].
  - split_and!; [done|apply same_refl|]. intros q. split; [intros H; split; [done|intros (i & Hi & _); by apply elem_of_nil in Hi]|tauto].
  - apply NoDup_cons in Hnd as [Hni Hnd]. destruct (Hbody i w ltac:(left) Hw Hs) as (H1 & H2 & H3); [intros q Hq; apply (Hl i); [left|done]|].
    destruct (IH ltac:(intros; apply Hbody; [by right|done..]) ltac:(intros j k q Hj Hk; apply Hinj; by right) Hnd (body w i) H1 ltac:(by eapply same_trans)) as (G1 & G2 & G3).
    { intros j q Hj Hq. apply H3. split; [apply (Hl j); [by right|done]|]. intros Hi. apply Hni. by rewrite (Hinj i j q ltac:(left) ltac:(by right) Hi Hq). }
    split_and!; [done|by eapply same_trans|]. intros q. rewrite G3, H3. split.
    + intros [[Hq Hi] Hn]. split; [done|]. intros (j & [->|Hj]%elem_of_cons & Hd); [done|]. apply Hn. eauto.
    + intros [Hq Hn]. split; [split; [done|]|]; [intros Hi; apply Hn; exists i; split; [left|done]|]. intros (j & Hj & Hd). apply Hn. exists j. split; [by right|done].
Qed.
Lemma same_entry w w' p i : same_pages w w' -> is_page w p -> 0 <= i < 512 -> entry w' p i = entry w p i.
Proof. intros [_ H] Hp Hi. apply peek64_ext. intros a Ha. apply (H p); [done|lia]. Qed.
Lemma same_child_eq w w' p i : same_pages w w' -> is_page w p -> 0 <= i < 512 -> child w' p i = child w p i.
Proof. intros Hs Hp Hi. unfold child. by rewrite (same_entry w w'). Qed.
(** The entry a loop tests: a table below it, or nothing to do. *)
Lemma child_case w p i : 0 < p < 2 ^ 32 -> 0 <= i < 512 -> let pte := pt_load (Mm_PhysToVirt p) i w in
  (exists q, child w p i = Some q /\ pte_present pte = true /\ pte_is_leaf pte = false /\ pte_child pte = Mm_PhysToVirt q) \/
  (child w p i = None /\ (pte_present pte = false \/ pte_is_leaf pte = true)).
Proof.
  intros Hp Hi pte. unfold pte. rewrite (pt_load_eq w p i Hp Hi). unfold child. destruct (pte_present (entry w p i)); [|by right; auto]. destruct (pte_is_leaf (entry w p i)); [by right; auto|]. left. eauto.
Qed.

Section Destroy.
Context (w0 : World) (R : Z) (Hok : pt_ok w0 R).
Let Hph := po_phys _ _ Hok.

Lemma free_subtable_spec i p w : 0 <= i < 512 -> child w0 R i = Some p -> phys_ok w -> same_pages w0 w -> (forall j q, 0 <= j < 512 -> child w0 p j = Some q -> page_live w q) ->
  let w' := free_subtable 1 (Mm_PhysToVirt p) w in
  phys_ok w' /\ same_pages w w' /\ forall q, page_live w' q <-> page_live w q /\ ~ exists j, 0 <= j < 512 /\ child w0 p j = Some q.
Proof.
  intros Hi Hc Hw Hs Hl. pose proof (ta_child _ _ 1 R [] i p (ta_root _ _) Hi Hc) as Ht. destruct (root_range w0 R Hok _ _ _ Ht) as [_ Hr]. pose proof (live_page _ _ (po_live _ _ Hok _ _ _ Ht)) as Hpg.
  cbn [free_subtable]. change ENTRIES_PER_TABLE with 512.
  destruct (fold_frees (fun w i => let pte := pt_load (Mm_PhysToVirt p) i w in if negb (pte_present pte) || pte_is_leaf pte then w else free_pt_page (pte_child pte) w)
    (fun j q => child w0 p j = Some q) (seqZ 0 512) w0) with (w := w) as (H1 & H2 & H3); [| |apply NoDup_seqZ|done|done| |].
  - intros j w1 Hj%elem_of_seqZ Hw1 Hs1 Hd. assert (0 <= j < 512) as Hj' by lia. cbn zeta.
    destruct (child_case w1 p j Hr Hj') as [(q & Eq & -> & -> & ->)|[Eq Hcase]]; rewrite (same_child_eq w0 w1) in Eq by done.
    + cbn [negb orb]. destruct (free_page w1 Hw1 q ltac:(by apply Hd)) as (G1 & G2 & G3). split_and!; [done|done|]. intros x. rewrite G3, Eq. naive_solver.
    + assert (negb (pte_present (pt_load (Mm_PhysToVirt p) j w1)) || pte_is_leaf (pt_load (Mm_PhysToVirt p) j w1) = true) as -> by (destruct Hcase as [-> | ->]; [done|by rewrite orb_true_r]).
      split_and!; [done|apply same_refl|]. intros x. rewrite Eq. naive_solver.
  - intros j k q Hj%elem_of_seqZ Hk%elem_of_seqZ H1 H2. destruct (po_once _ _ Hok 0 q (j :: [i]) 0 (k :: [i])) as [_ [= ->]]; [apply (ta_child _ _ 0 p); [done|lia|done]..|done].
  - intros j q Hj%elem_of_seqZ Hq. apply (Hl j q); [lia|done].
  - split_and!; [exact H1|exact H2|]. intros q. rewrite H3. setoid_rewrite elem_of_seqZ. done.
Qed.

(** The tables freed for root entry [i]. *)
Definition slot_tables (i q : Z) : Prop := i <> CARA_SHARED_L2_INDEX /\ exists p, child w0 R i = Some p /\ (q = p \/ exists j, 0 <= j < 512 /\ child w0 p j = Some q).
Lemma slot_tables_at i q : 0 <= i < 512 -> slot_tables i q -> exists l path, table_at w0 R l q (path ++ [i]) /\ (length path + l = 1)%nat.
Proof.
  intros Hi [_ (p & Hc & [->|(j & Hj & Hq)])]; pose proof (ta_child _ _ 1 R [] i p (ta_root _ _) Hi Hc) as Ht; [exists 1%nat, []; done|]. exists 0%nat, [j]. split; [|done]. by apply (ta_child _ _ 0 p).
Qed.
Lemma free_slot_spec i w : 0 <= i < 512 -> phys_ok w -> same_pages w0 w -> (forall q, slot_tables i q -> page_live w q) -> let w' := free_slot (Mm_PhysToVirt R) w i in
  phys_ok w' /\ same_pages w w' /\ forall q, page_live w' q <-> page_live w q /\ ~ slot_tables i q.
Proof.
  intros Hi Hw Hs Hl. destruct (root_range w0 R Hok _ _ _ (ta_root _ _)) as [_ Hr]. pose proof (live_page _ _ (po_live _ _ Hok _ _ _ (ta_root _ _))) as Hpg. unfold free_slot, slot_tables in *.
  destruct (Z.eqb_spec i CARA_SHARED_L2_INDEX) as [->|Hn]; [split_and!; [done|apply same_refl|naive_solver]|].
  destruct (child_case w R i Hr Hi) as [(p & Ep & -> & -> & ->)|[Ep Hcase]]; rewrite (same_child_eq w0 w) in Ep by done.
  - cbn [negb andb]. destruct (free_subtable_spec i p w Hi Ep Hw Hs) as (H1 & H2 & H3); [intros j q Hj Hq; apply Hl; split; [done|]; exists p; eauto|].
    assert (page_live (free_subtable 1 (Mm_PhysToVirt p) w) p) as Hlp.
    { apply H3. split; [apply Hl; split; [done|]; eauto|]. intros (j & Hj & Hq). pose proof (ta_child _ _ 1 R [] i p (ta_root _ _) Hi Ep) as Ht.
      by destruct (po_once _ _ Hok 1 p [i] 0 [j; i] Ht) as [? _]; [apply (ta_child _ _ 0 p)|]. }
    destruct (free_page _ H1 p Hlp) as (G1 & G2 & G3). split_and!; [done|by eapply same_trans|]. intros q. rewrite G3, H3, Ep. split; [intros [[Hq H] Hne]; split; [done|]; intros (_ & p1 & [= <-] & [->|Hj]); [done|by apply H]|].
    intros [Hq H]. split; [split; [done|]|]; [intros Hj; apply H; eauto 6|intros ->; apply H; eauto 6].
  - assert (pte_present (pt_load (Mm_PhysToVirt R) i w) && negb (pte_is_leaf (pt_load (Mm_PhysToVirt R) i w)) = false) as -> by (destruct Hcase as [-> | ->]; [done|by rewrite andb_false_r]).
    split_and!; [done|apply same_refl|]. intros q. rewrite Ep. naive_solver.
Qed.
End Destroy.

(** C35: Destroying an address space gives back its root and exactly the tables below the lower half of it,
    each once, except those of the shared window; every other page stays allocated or free as it was,
    and the contents of no page, in particular of the shared tables and of the mapped pages, change. *)
Theorem pt_destroy_frees w R asid : pt_ok w R -> let w' := Croi_DestroyPT (Some (mkPT (Mm_PhysToVirt R) asid)) w in
  phys_ok w' /\ same_pages w w' /\ forall q, page_live w' q <-> page_live w q /\ q <> R /\
    ~ exists i p, 0 <= i < 256 /\ i <> CARA_SHARED_L2_INDEX /\ child w R i = Some p /\ (q = p \/ exists j, 0 <= j < 512 /\ child w p j = Some q).
Proof.
  intros Hok. pose proof (po_phys _ _ Hok) as Hph. destruct (root_range w R Hok _ _ _ (ta_root _ _)) as [_ Hr]. cbn zeta. unfold Croi_DestroyPT. cbn [pt_root]. rewrite (proj2 (Z.eqb_neq _ 0) (proj2 (virt_phys R Hr))).
  destruct (fold_frees (free_slot (Mm_PhysToVirt R)) (slot_tables w R) (seqZ 0 256) w) with (w := w) as (H1 & H2 & H3); [| |apply NoDup_seqZ|done|apply same_refl| |].
  - intros i w1 Hi%elem_of_seqZ Hw1 Hs Hd. apply (free_slot_spec w R Hok); [lia|done..].
  - intros i j q Hi%elem_of_seqZ Hj%elem_of_seqZ Hd1 Hd2. destruct (slot_tables_at w R i q ltac:(lia) Hd1) as (l1 & path1 & T1 & _), (slot_tables_at w R j q ltac:(lia) Hd2) as (l2 & path2 & T2 & _).
    destruct (po_once _ _ Hok _ _ _ _ _ T1 T2) as [_ E]. by apply app_inj_tail in E as [_ ->].
  - intros i q Hi%elem_of_seqZ Hd. destruct (slot_tables_at w R i q ltac:(lia) Hd) as (l1 & path1 & T1 & _). by apply (po_live _ _ Hok _ _ _ T1).
  - assert (page_live (foldl (free_slot (Mm_PhysToVirt R)) w (seqZ 0 256)) R) as HlR.
    { apply H3. split; [by apply (po_live _ _ Hok _ _ _ (ta_root _ _))|]. intros (i & Hi%elem_of_seqZ & Hd). destruct (slot_tables_at w R i R ltac:(lia) Hd) as (l1 & path1 & T1 & _).
      destruct (po_once _ _ Hok _ _ _ _ _ (ta_root _ _) T1) as [_ E]. by destruct path1. }
    destruct (free_page _ H1 R HlR) as (G1 & G2 & G3). split_and!; [done|by eapply same_trans|]. intros q. rewrite G3, H3. unfold slot_tables. setoid_rewrite elem_of_seqZ. split.
    + intros [[Hq Hn] Hne]. split_and!; [done|done|]. intros (i & p & Hi & Hi4 & Hc & Hcase). apply Hn. exists i. split; [lia|]. split; [done|]. by exists p.
    + intros (Hq & Hne & Hn). split; [split; [done|]|done]. intros (i & Hi & Hi4 & p & Hc & Hcase). apply Hn. exists i, p. split_and!; [lia|lia|done|done|done].
Qed.

(** * A new address space *)

Lemma store_root w R i v (f : Z -> Z) : phys_ok w -> page_live w R -> 0 <= i < 512 -> in_u64 v -> (forall j, 0 <= j < 512 -> entry w R j = f j) -> let w' := pt_store (Mm_PhysToVirt R) i v w in
  phys_ok w' /\ page_live w' R /\ (forall j, 0 <= j < 512 -> entry w' R j = if decide (j = i) then v else f j) /\
  (forall q, is_page w' q <-> is_page w q) /\ (forall q, page_live w' q <-> page_live w q) /\ (forall q a, is_page w q -> q <> R -> q <= a < q + 4096 -> w_mem w' a = w_mem w a).
Proof.
  intros Hw HR Hi Hv Hf. destruct (store_entry w R i v Hw (live_page _ _ HR) Hi Hv) as (H1 & H2 & H3 & H4 & H5 & H6). cbn zeta. split_and!; [done|by apply H3| |done|done|done].
  intros j Hj. destruct (decide (j = i)) as [->|Hne]; [done|]. rewrite H5; [by apply Hf|by apply live_page|done|tauto].
Qed.
Definition kernel_flags (i : Z) : Z := if i =? 258 then PTE_KERNEL_RWX else PTE_KERNEL_RW.
Definition kernel_entry (i : Z) : Z := if (256 <=? i) && (i <? 260) then make_leaf (2 ^ 30 * (i - 256)) (kernel_flags i) else 0.
Lemma new_pt_stores w R n : phys_ok w -> page_live w R -> (forall j, 0 <= j < 512 -> entry w R j = 0) ->
  let w' := pt_store (Mm_PhysToVirt R) 259 (make_leaf 0xC0000000 PTE_KERNEL_RW) (pt_store (Mm_PhysToVirt R) 258 (make_leaf 0x80000000 PTE_KERNEL_RWX)
    (pt_store (Mm_PhysToVirt R) 257 (make_leaf 0x40000000 PTE_KERNEL_RW) (pt_store (Mm_PhysToVirt R) 256 (make_leaf 0x00000000 PTE_KERNEL_RW) (mkW (g_page_alloc w) (w_mem w) n)))) in
  phys_ok w' /\ (forall j, 0 <= j < 512 -> entry w' R j = kernel_entry j) /\ (forall q, is_page w' q <-> is_page w q) /\ (forall q, page_live w' q <-> page_live w q) /\
  (forall q a, is_page w q -> q <> R -> q <= a < q + 4096 -> w_mem w' a = w_mem w a).
Proof.
  intros [Ha Hp] HR Hz. set (w0 := mkW (g_page_alloc w) (w_mem w) n). assert (phys_ok w0) as Hw0 by (split; [done|exact Hp]).
  destruct (store_root w0 R 256 (make_leaf 0x00000000 PTE_KERNEL_RW) (fun _ => 0) Hw0 HR ltac:(lia) ltac:(done) Hz) as (A1 & A2 & A3 & A4 & A5 & A6).
  destruct (store_root _ R 257 (make_leaf 0x40000000 PTE_KERNEL_RW) _ A1 A2 ltac:(lia) ltac:(done) A3) as (B1 & B2 & B3 & B4 & B5 & B6).
  destruct (store_root _ R 258 (make_leaf 0x80000000 PTE_KERNEL_RWX) _ B1 B2 ltac:(lia) ltac:(done) B3) as (C1 & C2 & C3 & C4 & C5 & C6).
  destruct (store_root _ R 259 (make_leaf 0xC0000000 PTE_KERNEL_RW) _ C1 C2 ltac:(lia) ltac:(done) C3) as (D1 & D2 & D3 & D4 & D5 & D6). cbn zeta. split_and!; [done| | | |].
  - intros j Hj. rewrite D3 by done. unfold kernel_entry, kernel_flags. repeat (destruct (decide (j = _)) as [->|]; [reflexivity|]).
    destruct (Z.leb_spec 256 j), (Z.ltb_spec j 260); try done; lia.
  - intros q. by rewrite D4, C4, B4, A4.
  - intros q. by rewrite D5, C5, B5, A5.
  - intros q a Hq Hne Hq'. rewrite (D6 q a), (C6 q a), (B6 q a), (A6 q a); try done; rewrite ?C4, ?B4, ?A4; done.
Qed.
Lemma kernel_leaf i : 256 <= i < 260 -> let e := kernel_entry i in
  pte_is_leaf e = true /\ hw_bad e = false /\ hw_leaf e = true /\ hw_ppn e = 2 ^ 18 * (i - 256) /\ Z.land e 1023 = kernel_flags i.
Proof. intros Hi. assert (i = 256 \/ i = 257 \/ i = 258 \/ i = 259) as [-> | [-> | [-> | ->]]] by lia; vm_compute; done. Qed.
Lemma kernel_absent i : ~ (256 <= i < 260) -> kernel_entry i = 0.
Proof. intros Hi. unfold kernel_entry. destruct (Z.leb_spec 256 i), (Z.ltb_spec i 260); try done; lia. Qed.
Section KernelRoot.
Context (w : World) (R : Z).
Hypothesis (Hw : phys_ok w) (HR : page_live w R) (He : forall j, 0 <= j < 512 -> entry w R j = kernel_entry j).
Lemma kernel_no_child j : 0 <= j < 512 -> child w R j = None.
Proof.
  intros Hj. unfold child. rewrite He by done. destruct (decide (256 <= j < 260)) as [H|H]; [|by rewrite kernel_absent]. destruct (kernel_leaf j H) as [-> _]. by rewrite andb_false_r.
Qed.
Lemma kernel_tables l p path : table_at w R l p path -> l = 2%nat /\ p = R /\ path = [].
Proof. induction 1 as [|l1 p1 path1 j q1 H1 IH Hj Hc]; [done|]. destruct IH as (_ & -> & _). by rewrite kernel_no_child in Hc. Qed.
Lemma kernel_root_ok : pt_ok w R.
Proof.
  split; [done| | |].
  - by intros l p path (_ & -> & _)%kernel_tables.
  - by intros l p path l' path' (-> & _ & ->)%kernel_tables (-> & _ & ->)%kernel_tables.
  - intros l p path i (-> & -> & _)%kernel_tables Hi. rewrite He by done. destruct (decide (256 <= i < 260)) as [H|H]; [|by rewrite kernel_absent].
    destruct (kernel_leaf i H) as (_ & H2 & H3 & H4 & _). intros _. split; [done|]. split; [|done]. intros _. rewrite H4. change (2 ^ (9 * Z.of_nat 2)) with (2 ^ 18). rewrite Z.mul_comm. by apply Z.mod_mul.
Qed.
Lemma kernel_walk vpn : 0 <= vpn < 2 ^ 27 -> hw_walk (w_mem w) 2 R vpn = let i := vpn / 2 ^ 18 in
  if decide (256 <= i < 260) then Some (2 ^ 18 * (i - 256) + vpn mod 2 ^ 18, kernel_flags i) else None.
Proof.
  intros Hv. rewrite (walk_eq w R 2 R [] vpn (ta_root _ _)). cbn [walk_end]. rewrite kernel_no_child by apply vpn_index_range. rewrite He by apply vpn_index_range.
  assert (vpn_index 2 vpn = vpn / 2 ^ 18) as ->.
  { unfold vpn_index. change 511 with (Z.ones 9). rewrite Z.land_ones, Z.shiftr_div_pow2 by lia. change (9 * Z.of_nat 2) with 18. apply Z.mod_small. dmlia. }
  cbn zeta. unfold leaf_result. destruct (decide _) as [H|H]; [|by rewrite kernel_absent]. destruct (kernel_leaf _ H) as (_ & -> & -> & -> & ->). change (2 ^ (9 * Z.of_nat 2)) with (2 ^ 18).
  rewrite (Z.mul_comm (2 ^ 18)), Z.mod_mul by done. done.
Qed.
Lemma kernel_translate va : canonical va -> translate (w_mem w) R va =
  if decide (CARA_KERNEL_VA_OFFSET <= va < CARA_KERNEL_VA_OFFSET + 2 ^ 32) then Some (Mm_VirtToPhys va, kernel_flags (256 + Mm_VirtToPhys va / 2 ^ 30)) else None.
Proof.
  intros Hc. unfold translate. fold (vpn_of va). rewrite kernel_walk by apply vpn_of_range. cbn zeta. rewrite vpn_of_mod. unfold Mm_VirtToPhys, CARA_KERNEL_VA_OFFSET, canonical in *.
  destruct (decide (0xFFFFFFC000000000 <= va < 0xFFFFFFC000000000 + 2 ^ 32)) as [H|H].
  - rewrite u64_small by (unfold in_u64; lia). assert ((va / 4096) mod 2 ^ 27 = 2 ^ 26 + (va - 0xFFFFFFC000000000) / 4096) as E by dmlia. rewrite E.
    assert ((2 ^ 26 + (va - 0xFFFFFFC000000000) / 4096) / 2 ^ 18 = 256 + (va - 0xFFFFFFC000000000) / 2 ^ 30) as -> by dmlia.
    rewrite decide_True by dmlia. cbn. do 2 f_equal. dmlia.
  - rewrite decide_False; [done|]. dmlia.
Qed.
End KernelRoot.

(** C?: A new address space is the kernel's direct map and nothing else: the lower 4 GiB at
    [CARA_KERNEL_VA_OFFSET], executable only in the RAM gigabyte; every other canonical address is unmapped.
    Its one table is a page that was free; no other page changes. It is made whenever the heap has room
    and a page is free. *)
Theorem new_kernel_pt_direct_map w opt w' : phys_ok w -> Croi_NewKernelPT true w = (opt, w') ->
  match opt with
  | None => w' = w /\ no_free_page w
  | Some pt => exists R, pt = mkPT (Mm_PhysToVirt R) (g_next_asid w) /\ pt_ok w' R /\ ~ page_live w R /\ (forall q, page_live w' q <-> page_live w q \/ q = R) /\
      (forall q a, is_page w q -> q <> R -> q <= a < q + 4096 -> w_mem w' a = w_mem w a) /\
      forall va, canonical va -> translate (w_mem w') R va =
        if decide (CARA_KERNEL_VA_OFFSET <= va < CARA_KERNEL_VA_OFFSET + 2 ^ 32) then Some (Mm_VirtToPhys va, kernel_flags (256 + Mm_VirtToPhys va / 2 ^ 30)) else None
  end.
Proof.
  intros Hw E. unfold Croi_NewKernelPT in E. cbn [negb] in E. destruct (alloc_pt_page w) as [v w1] eqn:Ea.
  assert (g_next_asid w1 = g_next_asid w) as En by (unfold alloc_pt_page in Ea; destruct (Page_Alloc _ _ _) as [[? ?] ?]; by injection Ea as _ <-).
  destruct (alloc_page w Hw v w1 Ea) as [(-> & -> & Hno)|(R & -> & Hv0 & Hw1 & Hnl & Hpg & Hip & Hlv & Hz & Hsm)]; [by injection E as <- <-|].
  rewrite (proj2 (Z.eqb_neq _ 0)) in E by done. injection E as <- Ew. rewrite En in *.
  destruct (new_pt_stores w1 R (u16 (g_next_asid w + 1)) Hw1) as (H1 & H2 & H3 & H4 & H5); [apply Hlv; by right|intros j Hj; apply peek64_zero; intros a Ha'; apply Hz; lia|]. rewrite Ew in *.
  assert (page_live w' R) as HlR by (apply H4, Hlv; by right). exists R. split_and!; [done|by apply kernel_root_ok|done|intros q; by rewrite H4| |intros va; by apply kernel_translate].
  intros q a Hq Hne Hqa. rewrite (H5 q a); [by apply (Hsm q)|by apply Hip|done|done].
Qed.

Module PtExample.
(** A new address space in a machine with 1535 free pages, and one page mapped in it. *)
Definition w0 : World := mkW PageExample.init PageExample.m0 1.
Definition R : Z := 0x80201000.
Definition pt : PageTable := mkPT (Mm_PhysToVirt R) 1.
Definition w1 : World := snd (Croi_NewKernelPT true w0).
Definition w2 : World := snd (Page_Map (Some pt) 0x10000 0x80400000 PTE_USER_RW w1).
Lemma w0_ok : phys_ok w0.
Proof.
  split; [exact PageExample.init_ok|]. intros p (b & r & i & Hr & Hi & -> & _). cbn in Hr. apply list_elem_of_singleton in Hr as ->. unfold page_addr, data_start, CARA_PAGE_SIZE. cbn in Hi |- *. dmlia.
Qed.
Lemma w1_eq : Croi_NewKernelPT true w0 = (Some pt, w1).
Proof. unfold w1. rewrite (surjective_pairing (Croi_NewKernelPT true w0)) at 1. f_equal. Qed.
Lemma root_inj p : 0 < p < 2 ^ 32 -> Mm_PhysToVirt R = Mm_PhysToVirt p -> p = R.
Proof. intros Hp E. rewrite <- (proj1 (virt_phys p Hp)), <- E. reflexivity. Qed.
Lemma w1_ok : pt_ok w1 R.
Proof.
  destruct (new_kernel_pt_direct_map w0 (Some pt) w1 w0_ok w1_eq) as (R' & E & Hok & _). destruct (root_range w1 R' Hok _ _ _ (ta_root _ _)) as [_ Hr]. injection E as E. by rewrite <- (root_inj R' Hr E).
Qed.
Lemma w2_eq : Page_Map (Some pt) 0x10000 0x80400000 PTE_USER_RW w1 = (Ok tt, w2).
Proof. unfold w2. rewrite (surjective_pairing (Page_Map _ _ _ _ w1)) at 1. f_equal. Qed.
Lemma user_rw_ok : prot_ok PTE_USER_RW.
Proof. split; [vm_compute; split; [discriminate|reflexivity]|done]. Qed.
Lemma page_map_translates_witness : translate (w_mem w2) R 0x10abc = Some (0x80400abc, PTE_USER_RW).
Proof.
  assert (canonical 0x10000 /\ canonical 0x10abc) as [C1 C2] by (unfold canonical; lia).
  destruct (page_map_translates w1 R 1 0x10000 0x80400000 PTE_USER_RW (Ok tt) w2 w1_ok C1 ltac:(lia) user_rw_ok w2_eq) as (_ & _ & _ & _ & _ & H). exact (H 0x10abc C2).
Defined.
Lemma w2_ok : pt_ok w2 R.
Proof.
  assert (map_page (Mm_PhysToVirt R) (vpn_of 0x10000) 0x80400000 PTE_USER_RW w1 = (Ok tt, w2)) as E.
  { rewrite <- w2_eq. unfold pt. rewrite (page_map_eq R 1 0x10000 0x80400000 PTE_USER_RW w1); [reflexivity|vm_compute; discriminate|lia|lia]. }
  by apply (map_page_spec w1 R (vpn_of 0x10000) 0x80400000 PTE_USER_RW (Ok tt) w2 w1_ok (vpn_of_range _) ltac:(lia) eq_refl user_rw_ok eq_refl E).
Qed.
Lemma pt_destroy_frees_witness : ~ page_live (Croi_DestroyPT (Some pt) w2) R /\ ~ page_live (Croi_DestroyPT (Some pt) w2) 0x80202000.
Proof.
  destruct (pt_destroy_frees w2 R 1 w2_ok) as (_ & _ & H). split; intros (_ & Hn & Hc)%H; [by apply Hn|]. apply Hc. exists 0, 0x80202000. split; [lia|]. split; [done|]. split; [vm_compute; reflexivity|]. by left.
Defined.
(** Bits 39 to 63 of the address are ignored: mapping a page at an address that no access can use maps
    the page at its lower 39 bits. *)
Example page_map_ignores_high_bits : let w := snd (Page_Map (Some pt) (2 ^ 40 + 0x10000) 0x80400000 PTE_USER_RW w1) in
  ~ canonical (2 ^ 40 + 0x10000) /\ translate (w_mem w) R 0x10000 = Some (0x80400000, PTE_USER_RW).
Proof. cbn zeta. split; [unfold canonical; lia|vm_compute; reflexivity]. Qed.
End PtExample.
