(* ===== verification/Heap.v ===== *)
(** The kernel heap ([src/croi/mm/heap.c], [include/cara/alloc.h]): eight size classes carved out of slab
    pages, larger requests on pages of their own, both found again from a bare pointer through the header of
    the page. The specification is a set of disjoint blocks. *)

From S2P Require Import Prelude PageAlloc PageTable.

(** * The code *)

Definition SLAB_MAGIC : Z := 0x534C4142.
Definition LARGE_MAGIC : Z := 0x4C415247.
(** The sizes of [struct SlabHeader] (magic, class, two list links) and [struct LargeHeader]. *)
Definition SlabHeader_size : Z := 24.
Definition LargeHeader_size : Z := 8.
Definition CARA_HEAP_NUM_CLASSES : Z := 8.
Definition g_class_sizes : list Z := [16; 32; 64; 128; 256; 512; 1024; 2048].

(** Pointers are addresses, 0 is null. [slab_pages] lists the slab pages in the order of the list; its
    links, in the headers, are not read by this code. *)
Record HeapClass := mkClass { obj_size : Z; in_flight : Z; peak_in_flight : Z; free_head : Z; slab_pages : list Z }.
(** The heap with the allocator it draws its pages from. *)
Record Heap := mkHeap { h_pa : PageAllocator; classes : list HeapClass; large_in_flight : Z; large_peak : Z; bytes_in_flight : Z; peak_bytes_in_flight : Z; va_base : Z; pa_base : Z }.

Definition heap_p2v (h : Heap) (phys : Z) : Z := if negb (va_base h =? 0) then u64 (va_base h + u64 (phys - pa_base h)) else Mm_PhysToVirt phys.
Definition heap_v2p (h : Heap) (va : Z) : Z := if negb (va_base h =? 0) then u64 (pa_base h + u64 (va - va_base h)) else Mm_VirtToPhys va.

Definition Heap_Init (h : option Heap) (pa : option PageAllocator) : result Heap :=
  match h, pa with
  | Some _, Some pa => Ok (mkHeap pa (map (fun size => mkClass size 0 0 0 []) g_class_sizes) 0 0 0 0 0 0)
  | _, _ => Err CARA_EINVAL
  end.
Definition Heap_InitArena (h : option Heap) (pa : option PageAllocator) (va_base pa_base : Z) : result Heap :=
  match Heap_Init h pa with
  | Err e => Err e
  | Ok h => Ok (mkHeap (h_pa h) (classes h) (large_in_flight h) (large_peak h) (bytes_in_flight h) (peak_bytes_in_flight h) va_base pa_base)
  end.

Fixpoint class_from (sizes : list Z) (i size : Z) : Z :=
  match sizes with [] => CARA_HEAP_NUM_CLASSES | s :: sizes => if size <=? s then i else class_from sizes (i + 1) size end.
Definition size_to_class (size : Z) : Z := class_from g_class_sizes 0 size.

Definition no_class : HeapClass := mkClass 0 0 0 0 [].
Definition heap_class (h : Heap) (cid : Z) : HeapClass := nth (Z.to_nat cid) (classes h) no_class.
Definition set_class (h : Heap) (cid : Z) (c : HeapClass) : Heap :=
  mkHeap (h_pa h) (<[Z.to_nat cid := c]> (classes h)) (large_in_flight h) (large_peak h) (bytes_in_flight h) (peak_bytes_in_flight h) (va_base h) (pa_base h).
Definition set_pa (h : Heap) (pa : PageAllocator) : Heap :=
  mkHeap pa (classes h) (large_in_flight h) (large_peak h) (bytes_in_flight h) (peak_bytes_in_flight h) (va_base h) (pa_base h).
Definition set_bytes (h : Heap) (b : Z) : Heap :=
  mkHeap (h_pa h) (classes h) (large_in_flight h) (large_peak h) b (if peak_bytes_in_flight h <? b then b else peak_bytes_in_flight h) (va_base h) (pa_base h).

(** Where the objects of a slab start, and how many there are. *)
Definition first_off (size : Z) : Z :=
  if negb (Z.land SlabHeader_size (size - 1) =? 0) then Z.land (u32 (u32 (SlabHeader_size + size) - 1)) (u32 (Z.lnot (size - 1))) else SlabHeader_size.
Definition n_objs (size : Z) : Z := u32 (CARA_PAGE_SIZE - first_off size) / size.
(** The loop that links the objects of a fresh slab. *)
Definition carve_slab (h : Heap) (page size : Z) (m : memory) : memory * Z :=
  foldl (fun '(m, prev) i => let obj := u64 (page + first_off size + i * size) in (poke64 m (heap_v2p h obj) prev, obj)) (m, 0) (seqZ 0 (n_objs size)).
Definition slab_grow (h : Heap) (cid : Z) (m : memory) : Z * Heap * memory :=
  let '(phys, pa, m) := Page_Alloc (h_pa h) m 1 in
  let h := set_pa h pa in
  if phys =? 0 then (CARA_ENOMEM, h, m)
  else
    let sh := heap_p2v h phys in
    let m := poken 4 m (heap_v2p h sh) SLAB_MAGIC in
    let m := poken 1 m (heap_v2p h (u64 (sh + 4))) (u8 cid) in
    let c := heap_class h cid in
    let '(m, prev) := carve_slab h sh (obj_size c) m in
    (CARA_EOK, set_class h cid (mkClass (obj_size c) (in_flight c) (peak_in_flight c) prev (slab_pages c ++ [sh])), m).

(** Taking the first free object of a class, which is not empty. *)
Definition slab_take (h : Heap) (cid : Z) (m : memory) : Z * Heap * memory :=
  let c := heap_class h cid in
  let obj := free_head c in
  let next := peek64 m (heap_v2p h obj) in
  let n := u32 (in_flight c + 1) in
  let h := set_class h cid (mkClass (obj_size c) n (if peak_in_flight c <? n then n else peak_in_flight c) next (slab_pages c)) in
  let h := set_bytes h (u64 (bytes_in_flight h + obj_size c)) in
  (obj, h, zero_bytes m (heap_v2p h obj) (obj_size c)).
Definition large_alloc (h : Heap) (size : Z) (m : memory) : Z * Heap * memory :=
  let total := u64 (size + LargeHeader_size) in
  let n_pages := u32 (u64 (u64 (total + CARA_PAGE_SIZE) - 1) / CARA_PAGE_SIZE) in
  let '(phys, pa, m) := Page_Alloc (h_pa h) m n_pages in
  let h := set_pa h pa in
  if phys =? 0 then (0, h, m)
  else
    let lh := heap_p2v h phys in
    let m := poken 4 m (heap_v2p h lh) LARGE_MAGIC in
    let m := poken 4 m (heap_v2p h (u64 (lh + 4))) n_pages in
    let n := u32 (large_in_flight h + 1) in
    let h := mkHeap (h_pa h) (classes h) n (if large_peak h <? n then n else large_peak h) (bytes_in_flight h) (peak_bytes_in_flight h) (va_base h) (pa_base h) in
    (u64 (lh + LargeHeader_size), set_bytes h (u64 (bytes_in_flight h + u64 (n_pages * CARA_PAGE_SIZE))), m).
Definition alloc_from (h : option Heap) (size : Z) (m : memory) : Z * option Heap * memory :=
  match h with
  | None => (0, None, m)
  | Some h =>
      if size =? 0 then (0, Some h, m)
      else
        let cid := size_to_class size in
        if cid <? CARA_HEAP_NUM_CLASSES then
          if free_head (heap_class h cid) =? 0 then
            let '(rc, h, m) := slab_grow h cid m in
            if negb (rc =? CARA_EOK) then (0, Some h, m)
            else let '(obj, h, m) := slab_take h cid m in (obj, Some h, m)
          else let '(obj, h, m) := slab_take h cid m in (obj, Some h, m)
        else let '(p, h, m) := large_alloc h size m in (p, Some h, m)
  end.

(** [Croi_Free] once it knows the heap. A class id is read from memory; one out of range writes outside
    the array in the code. *)
Definition free_to (h : Heap) (ptr : Z) (m : memory) : Heap * memory :=
  let page := Z.land ptr (u64 (Z.lnot (CARA_PAGE_SIZE - 1))) in
  let magic := peekn 4 m (heap_v2p h page) in
  if magic =? SLAB_MAGIC then
    let cid := peekn 1 m (heap_v2p h (u64 (page + 4))) in
    let c := heap_class h cid in
    let m := poke64 m (heap_v2p h ptr) (free_head c) in
    let h := set_class h cid (mkClass (obj_size c) (u32 (in_flight c - 1)) (peak_in_flight c) ptr (slab_pages c)) in
    (mkHeap (h_pa h) (classes h) (large_in_flight h) (large_peak h) (u64 (bytes_in_flight h - obj_size c)) (peak_bytes_in_flight h) (va_base h) (pa_base h), m)
  else if magic =? LARGE_MAGIC then
    let n_pages := peekn 4 m (heap_v2p h (u64 (page + 4))) in
    let '(pa, m) := Page_Free (h_pa h) m (heap_v2p h page) n_pages in
    (mkHeap pa (classes h) (u32 (large_in_flight h - 1)) (large_peak h) (u64 (bytes_in_flight h - u64 (n_pages * CARA_PAGE_SIZE))) (peak_bytes_in_flight h) (va_base h) (pa_base h), m)
  else (h, m).

(** The two heaps and the window of the shared one. *)
Record Heaps := mkHeaps { g_active_heap : option Heap; g_shared_heap : option Heap; g_shared_lo : Z; g_shared_hi : Z }.
Definition Heap_SetActive (h : option Heap) (g : Heaps) : Heaps := mkHeaps h (g_shared_heap g) (g_shared_lo g) (g_shared_hi g).
Definition Heap_RegisterShared (h : option Heap) (lo hi : Z) (g : Heaps) : Heaps := mkHeaps (g_active_heap g) h lo hi.
Definition Croi_Alloc (size : Z) (g : Heaps) (m : memory) : Z * Heaps * memory :=
  let '(p, h, m) := alloc_from (g_active_heap g) size m in (p, mkHeaps h (g_shared_heap g) (g_shared_lo g) (g_shared_hi g), m).
Definition Croi_HeapAlloc (h : option Heap) (size : Z) (m : memory) : Z * option Heap * memory := alloc_from h size m.
Definition Croi_Free (ptr : Z) (g : Heaps) (m : memory) : Heaps * memory :=
  if ptr =? 0 then (g, m)
  else match g_shared_heap g, (g_shared_lo g <=? ptr) && (ptr <? g_shared_hi g) with
       | Some h, true => let '(h, m) := free_to h ptr m in (mkHeaps (g_active_heap g) (Some h) (g_shared_lo g) (g_shared_hi g), m)
       | _, _ => match g_active_heap g with
                 | None => (g, m)
                 | Some h => let '(h, m) := free_to h ptr m in (mkHeaps (Some h) (g_shared_heap g) (g_shared_lo g) (g_shared_hi g), m)
                 end
       end.

(** * The invariant *)

Definition hw (h : Heap) (m : memory) : World := mkW (h_pa h) m 0.
(** The constant between the addresses of the heap and physical addresses. *)
Definition delta (h : Heap) : Z := if negb (va_base h =? 0) then va_base h - pa_base h else CARA_KERNEL_VA_OFFSET.
Definition va_ok (h : Heap) (m : memory) : Prop := delta h mod 4096 = 0 /\ forall p, is_page (hw h m) p -> 0 < p + delta h /\ p + delta h + 4096 <= 2 ^ 64.

Definition size_of (c : nat) : Z := nth c g_class_sizes 0.
Definition objs (c : nat) (pg : Z) : list Z := map (fun i => pg + first_off (size_of c) + i * size_of c) (seqZ 0 (n_objs (size_of c))).
(** The slab pages and the objects in use of each class, and the large blocks with their pages; all
    addresses physical. *)
Record Ghost := mkG { slabs : nat -> list Z; used : nat -> list Z; large : list (Z * Z) }.
(** The free objects of a class, linked through their first words. *)
Fixpoint chain (h : Heap) (m : memory) (head : Z) (fl : list Z) : Prop :=
  match fl with [] => head = 0 | o :: fl => head = o + delta h /\ chain h m (peek64 m o) fl end.
Definition owned (G : Ghost) (q : Z) : Prop := (exists c, (c < 8)%nat /\ q ∈ slabs G c) \/ exists p n, (p, n) ∈ large G /\ span p n q.
Definition class_ok (h : Heap) (m : memory) (G : Ghost) (c : nat) : Prop :=
  let k := heap_class h (Z.of_nat c) in
  obj_size k = size_of c /\ in_flight k = u32 (Z.of_nat (length (used G c))) /\ NoDup (slabs G c) /\
  exists fl, chain h m (free_head k) fl /\ fl ++ used G c ≡ₚ concat (map (objs c) (slabs G c)).
Definition bytes (G : Ghost) : Z :=
  foldr (fun c x => Z.of_nat (length (used G c)) * size_of c + x) 0 (seq 0 8) + foldr (fun '(_, n) x => n * 4096 + x) 0 (large G).
Record heap_ok (h : Heap) (m : memory) (G : Ghost) : Prop := {
  ho_phys : phys_ok (hw h m);
  ho_va : va_ok h m;
  ho_len : length (classes h) = 8%nat;
  ho_live q : owned G q -> page_live (hw h m) q;
  ho_slab c pg : (c < 8)%nat -> pg ∈ slabs G c -> peekn 4 m pg = SLAB_MAGIC /\ peekn 1 m (pg + 4) = Z.of_nat c;
  ho_slab_one c c' pg : (c < 8)%nat -> (c' < 8)%nat -> pg ∈ slabs G c -> pg ∈ slabs G c' -> c = c';
  ho_large p n : (p, n) ∈ large G -> 0 < n < 2 ^ 32 /\ peekn 4 m p = LARGE_MAGIC /\ peekn 4 m (p + 4) = n;
  ho_large_slab c pg p n : (c < 8)%nat -> pg ∈ slabs G c -> (p, n) ∈ large G -> ~ span p n pg;
  ho_large_one p n p' n' q : (p, n) ∈ large G -> (p', n') ∈ large G -> span p n q -> span p' n' q -> (p, n) = (p', n');
  ho_large_nodup : NoDup (large G);
  ho_class c : (c < 8)%nat -> class_ok h m G c;
  ho_bytes : bytes_in_flight h = u64 (bytes G);
  ho_larges : large_in_flight h = u32 (Z.of_nat (length (large G)))
}.

(** The blocks in use. *)
Definition block (G : Ghost) (a len : Z) : Prop :=
  (exists c, (c < 8)%nat /\ a ∈ used G c /\ len = size_of c) \/ (exists p n, (p, n) ∈ large G /\ a = p + 8 /\ len = n * 4096 - 8).

(** ** Classes *)

Lemma class_facts c : (c < 8)%nat -> 16 <= size_of c <= 2048 /\ 24 <= first_off (size_of c) /\ 0 < n_objs (size_of c) /\ first_off (size_of c) + n_objs (size_of c) * size_of c <= 4096 /\ size_of c mod 16 = 0 /\ first_off (size_of c) mod 16 = 0.
Proof. intros Hc. do 8 (destruct c as [|c]; [vm_compute; split_and!; first [done|discriminate|reflexivity]|]). lia. Qed.
Lemma size_to_class_spec size : 0 < size -> (2048 < size /\ size_to_class size = 8) \/ exists c, (c < 8)%nat /\ size_to_class size = Z.of_nat c /\ size <= size_of c.
Proof.
  intros Hs. unfold size_to_class, g_class_sizes. cbn [class_from].
  let rec go n := (case Z.leb_spec; intros ?; [right; exists n; split; [lia|]; split; [done|unfold size_of; cbn; lia]|go (S n)]) || (left; split; [lia|done]) in go 0%nat.
Qed.
Lemma objs_in c pg o : (c < 8)%nat -> o ∈ objs c pg -> pg + 24 <= o /\ o + size_of c <= pg + 4096 /\ (o - pg) mod 16 = 0.
Proof.
  intros Hc (i & -> & Hi%elem_of_seqZ)%list_elem_of_fmap. destruct (class_facts c Hc) as (H1 & H2 & H3 & H4 & H5 & H6). split; [nia|]. split; [nia|].
  replace (pg + first_off (size_of c) + i * size_of c - pg) with (first_off (size_of c) + i * size_of c) by lia. rewrite Z.add_mod, Z.mul_mod, H5, H6 by lia. by rewrite Z.mul_0_r.
Qed.
Lemma objs_apart c pg o o' : (c < 8)%nat -> o ∈ objs c pg -> o' ∈ objs c pg -> o <> o' -> o + size_of c <= o' \/ o' + size_of c <= o.
Proof.
  intros Hc (i & -> & _)%list_elem_of_fmap (j & -> & _)%list_elem_of_fmap Hne. destruct (class_facts c Hc) as (H1 & _). assert (i < j \/ j < i) as [?|?] by (destruct (Z.lt_trichotomy i j) as [?|[->|?]]; [by left|done|by right]); [left|right]; nia.
Qed.
Lemma objs_nodup c pg : (c < 8)%nat -> NoDup (objs c pg).
Proof. intros Hc. destruct (class_facts c Hc) as (H1 & _). apply NoDup_fmap_2; [intros i j; nia|apply NoDup_seqZ]. Qed.

(** ** Addresses *)

Section Addr.
Context (h : Heap) (m : memory) (Hw : phys_ok (hw h m)) (Hva : va_ok h m).
Lemma p2v_eq p : is_page (hw h m) p -> heap_p2v h p = p + delta h.
Proof.
  intros Hp. destruct (proj2 Hva p Hp). unfold heap_p2v, delta, Mm_PhysToVirt in *. destruct (negb _); [|apply u64_small; unfold in_u64; lia].
  unfold u64 at 1 2. rewrite Zplus_mod_idemp_r. rewrite Z.mod_small; lia.
Qed.
Lemma v2p_eq p off : is_page (hw h m) p -> 0 <= off < 4096 -> heap_v2p h (p + delta h + off) = p + off /\ u64 (p + delta h + off) = p + delta h + off.
Proof.
  intros Hp Ho. destruct (proj2 Hva p Hp). destruct (ph_page _ Hw p Hp) as [_ Hr]. split; [|apply u64_small; unfold in_u64; lia].
  unfold heap_v2p, delta, Mm_VirtToPhys in *. destruct (negb _); [|rewrite u64_small; unfold in_u64; lia].
  unfold u64 at 1 2. rewrite Zplus_mod_idemp_r. rewrite Z.mod_small; lia.
Qed.
Lemma page_of_ptr p off : is_page (hw h m) p -> 0 <= off < 4096 -> Z.land (p + delta h + off) (u64 (Z.lnot (CARA_PAGE_SIZE - 1))) = p + delta h.
Proof.
  intros Hp Ho. destruct (proj2 Hva p Hp). destruct (ph_page _ Hw p Hp) as [Hal _]. rewrite page_mask by lia. unfold CARA_PAGE_SIZE. destruct Hva as [Hd _]. dmlia.
Qed.
End Addr.

(** ** Ghost updates *)

Definition on_class {A} (f : nat -> A) (c : nat) (x : A) : nat -> A := fun c' => if (c' =? c)%nat then x else f c'.
Lemma on_class_eq {A} (f : nat -> A) c x : on_class f c x c = x.
Proof. unfold on_class. by rewrite Nat.eqb_refl. Qed.
Lemma on_class_ne {A} (f : nat -> A) c c' x : c' <> c -> on_class f c x c' = f c'.
Proof. intros H. unfold on_class. by rewrite (proj2 (Nat.eqb_neq c' c) H). Qed.
Definition set_used (G : Ghost) (c : nat) (l : list Z) : Ghost := mkG (slabs G) (on_class (used G) c l) (large G).
Lemma bytes_set_used G c l : (c < 8)%nat -> bytes (set_used G c l) = bytes G + (Z.of_nat (length l) - Z.of_nat (length (used G c))) * size_of c.
Proof. intros Hc. unfold bytes, set_used, on_class. cbn [used large seq foldr]. do 8 (destruct c as [|c]; [cbn [Nat.eqb]; lia|]). lia. Qed.
Lemma class_set h c c' k : length (classes h) = 8%nat -> (c < 8)%nat -> heap_class (set_class h (Z.of_nat c) k) (Z.of_nat c') = if (c' =? c)%nat then k else heap_class h (Z.of_nat c').
Proof.
  intros Hl Hc. unfold heap_class, set_class. cbn [classes]. rewrite !Nat2Z.id. destruct (Nat.eqb_spec c' c) as [->|Hne].
  - apply nth_lookup_Some. rewrite list_lookup_insert_eq; [done|lia].
  - rewrite !nth_lookup. by rewrite list_lookup_insert_ne by done.
Qed.
Lemma chain_ext h h' m m' head fl : delta h' = delta h -> (forall o, o ∈ fl -> peek64 m' o = peek64 m o) -> chain h m head fl -> chain h' m' head fl.
Proof.
  intros Hd. revert head. induction fl as [|o fl IH]; intros head Hm; cbn; [done|]. rewrite Hd. intros [-> Hc]. split; [done|]. rewrite Hm by left. apply IH; [|done]. intros o' Ho'. apply Hm. by right.
Qed.

(** ** Objects *)

Section Objects.
Context (h : Heap) (m : memory) (G : Ghost) (Hok : heap_ok h m G).
Definition object (c : nat) (o : Z) : Prop := exists pg, pg ∈ slabs G c /\ o ∈ objs c pg.
Lemma slab_live c pg : (c < 8)%nat -> pg ∈ slabs G c -> page_live (hw h m) pg.
Proof. intros Hc Hp. apply (ho_live _ _ _ Hok). left. eauto. Qed.
Lemma large_live p n q : (p, n) ∈ large G -> span p n q -> page_live (hw h m) q.
Proof. intros Hp Hs. apply (ho_live _ _ _ Hok). right. eauto. Qed.
Lemma objects_of c fl : fl ++ used G c ≡ₚ concat (map (objs c) (slabs G c)) -> forall o, o ∈ fl \/ o ∈ used G c -> object c o.
Proof.
  intros Hp o Ho. assert (o ∈ concat (map (objs c) (slabs G c))) as Hin by (rewrite <- Hp; by apply elem_of_app). rewrite list_elem_of_In in Hin. apply in_concat in Hin as (l & (pg & <- & Hpg)%in_map_iff & Ho').
  exists pg. split; by apply list_elem_of_In.
Qed.
Lemma objects_apart c o c' o' : (c < 8)%nat -> (c' < 8)%nat -> object c o -> object c' o' -> (c = c' /\ o = o') \/ o + size_of c <= o' \/ o' + size_of c' <= o.
Proof.
  intros Hc Hc' (pg & Hp & Ho) (pg' & Hp' & Ho'). destruct (objs_in c pg o Hc Ho) as (A1 & A2 & _), (objs_in c' pg' o' Hc' Ho') as (B1 & B2 & _). destruct (decide (pg = pg')) as [<-|Hne].
  - assert (c = c') as <- by (by apply (ho_slab_one _ _ _ Hok c c' pg)). destruct (decide (o = o')) as [<-|Hn]; [by left|]. right. by apply (objs_apart c pg).
  - destruct (pages_apart (hw h m) pg pg' (ho_phys _ _ _ Hok)) as [?|?]; [apply live_page; by apply (slab_live c)|apply live_page; by apply (slab_live c')|done| |]; lia.
Qed.
Lemma objects_nodup c : (c < 8)%nat -> NoDup (slabs G c) -> NoDup (concat (map (objs c) (slabs G c))).
Proof.
  intros Hc Hn. assert (forall pg, pg ∈ slabs G c -> is_page (hw h m) pg) as Hpg by (intros pg H; apply live_page; by apply (slab_live c)). revert Hn Hpg. generalize (slabs G c). intros l. induction l as [|pg l IH]; intros Hn Hpg; cbn; [constructor|].
  apply NoDup_cons in Hn as [Hpl Hn]. apply NoDup_app. split_and!; [by apply objs_nodup| |apply IH; [done|intros; apply Hpg; by right]].
  intros o Ho Hin. rewrite list_elem_of_In in Hin. apply in_concat in Hin as (l' & (pg' & <- & Hpg'%list_elem_of_In)%in_map_iff & Ho'%list_elem_of_In).
  destruct (objs_in c pg o Hc Ho) as (A1 & A2 & _), (objs_in c pg' o Hc Ho') as (B1 & B2 & _). destruct (class_facts c Hc) as (S1 & _).
  destruct (pages_apart (hw h m) pg pg' (ho_phys _ _ _ Hok)) as [?|?]; [apply Hpg; left|apply Hpg; by right|by intros ->|lia|lia].
Qed.
(** A page of a large block is apart from an object. *)
Lemma large_apart c o p n : (c < 8)%nat -> object c o -> (p, n) ∈ large G -> o + size_of c <= p \/ p + n * 4096 <= o.
Proof.
  intros Hc (pg & Hp & Ho) Hl. destruct (objs_in c pg o Hc Ho) as (A1 & A2 & _). destruct (class_facts c Hc) as (S1 & _). pose proof (live_page _ _ (slab_live c pg Hc Hp)) as Hpg.
  destruct (proj1 (ho_large _ _ _ Hok p n Hl)) as [Hn _].
  destruct (Z.le_gt_cases (pg + 4096) p); [lia|]. destruct (Z.le_gt_cases (p + n * 4096) pg); [lia|]. exfalso. apply (ho_large_slab _ _ _ Hok c pg p n Hc Hp Hl).
  assert (is_page (hw h m) p) as Hpp by (apply live_page, (large_live p n); [done|apply span_index; exists 0; lia]). destruct (ph_page _ (ho_phys _ _ _ Hok) pg Hpg), (ph_page _ (ho_phys _ _ _ Hok) p Hpp). unfold span. dmlia.
Qed.

(** A store inside an object. *)
Lemma object_store c o m' : (c < 8)%nat -> object c o -> (forall a, ~ (o <= a < o + size_of c) -> m' a = m a) ->
  phys_ok (hw h m') /\ va_ok h m' /\ (forall q, page_live (hw h m') q <-> page_live (hw h m) q) /\
  (forall c pg, (c < 8)%nat -> pg ∈ slabs G c -> peekn 4 m' pg = SLAB_MAGIC /\ peekn 1 m' (pg + 4) = Z.of_nat c) /\
  (forall p n, (p, n) ∈ large G -> 0 < n < 2 ^ 32 /\ peekn 4 m' p = LARGE_MAGIC /\ peekn 4 m' (p + 4) = n) /\
  (forall c' o', (c' < 8)%nat -> object c' o' -> o' <> o -> peek64 m' o' = peek64 m o').
Proof.
  intros Hc Ho Hm. pose proof Ho as (pg & Hpg & Hop). destruct (objs_in c pg o Hc Hop) as (A1 & A2 & _). pose proof (slab_live c pg Hc Hpg) as Hlp.
  destruct (store_page (hw h m) (ho_phys _ _ _ Hok) pg m' (live_page _ _ Hlp)) as (H1 & H2 & H3); [intros a Ha; apply Hm; lia|].
  change (mkW (g_page_alloc (hw h m)) m' (g_next_asid (hw h m))) with (hw h m') in *. split_and!; [done| |done| | |].
  - split; [apply (ho_va _ _ _ Hok)|]. intros p Hp. apply (ho_va _ _ _ Hok). by apply H2.
  - intros c' pg' Hc' Hpg'. destruct (ho_slab _ _ _ Hok c' pg' Hc' Hpg') as [E1 E2]. rewrite <- E1, <- E2. split; apply peekn_ext; intros a Ha; apply Hm;
      (destruct (decide (pg = pg')) as [<-|Hne]; [lia|destruct (pages_apart (hw h m) pg pg' (ho_phys _ _ _ Hok)) as [?|?]; [by apply live_page|apply live_page; by apply (slab_live c')|done|lia|lia]]).
  - intros p n Hl. destruct (ho_large _ _ _ Hok p n Hl) as (Hn & E1 & E2). split; [done|]. split; [transitivity (peekn 4 m p); [|done]|transitivity (peekn 4 m (p + 4)); [|done]]; apply peekn_ext; intros a Ha; apply Hm; destruct (large_apart c o p n Hc Ho Hl); lia.
  - intros c' o' Hc' Ho' Hne. apply peek64_ext. intros a Ha. apply Hm. destruct (class_facts c' Hc') as (S1 & _). destruct (objects_apart c o c' o' Hc Hc' Ho Ho') as [[_ ?]|?]; [congruence|lia].
Qed.
End Objects.

(** ** Small objects *)

(** Changing a class and one of its objects. *)
Lemma class_change h m G c o m' h' k l : heap_ok h m G -> (c < 8)%nat -> object G c o -> (forall a, ~ (o <= a < o + size_of c) -> m' a = m a) ->
  h_pa h' = h_pa h -> va_base h' = va_base h -> pa_base h' = pa_base h -> classes h' = <[c := k]> (classes h) -> large_in_flight h' = large_in_flight h ->
  bytes_in_flight h' = u64 (bytes (set_used G c l)) -> obj_size k = size_of c -> in_flight k = u32 (Z.of_nat (length l)) ->
  (exists fl, chain h' m' (free_head k) fl /\ fl ++ l ≡ₚ concat (map (objs c) (slabs G c))) ->
  (forall c' fl, (c' < 8)%nat -> c' <> c -> fl ++ used G c' ≡ₚ concat (map (objs c') (slabs G c')) -> o ∉ fl) -> heap_ok h' m' (set_used G c l).
Proof.
  intros Hok Hc Ho Hm Epa Eva Epb Ecl Elg Eby Esz Ein Hfl Hother. assert (hw h' m' = hw h m') as Ew by (unfold hw; by rewrite Epa). assert (delta h' = delta h) as Ed by (unfold delta; by rewrite Eva, Epb).
  destruct (object_store h m G Hok c o m' Hc Ho Hm) as (P1 & P2 & P3 & P4 & P5 & P6). assert (forall c', heap_class h' (Z.of_nat c') = if (c' =? c)%nat then k else heap_class h (Z.of_nat c')) as Ek.
  { intros c'. rewrite <- (class_set h c c' k (ho_len _ _ _ Hok) Hc). unfold heap_class, set_class. cbn [classes]. by rewrite Ecl, !Nat2Z.id. }
  split; rewrite ?Ew; try done; try apply Hok.
  - unfold va_ok. rewrite Ed, Ew. done.
  - rewrite Ecl, length_insert. apply Hok.
  - intros q Hq. apply P3. by apply (ho_live _ _ _ Hok).
  - intros c' Hc'. unfold class_ok. rewrite Ek. cbn [slabs used set_used]. destruct (Nat.eqb_spec c' c) as [->|Hne].
    + rewrite on_class_eq. split_and!; [done|done|apply (ho_class _ _ _ Hok c Hc)|done].
    + rewrite on_class_ne by done. destruct (ho_class _ _ _ Hok c' Hc') as (H1 & H2 & H3 & fl & H4 & H5). split_and!; [done|done|done|]. exists fl. split; [|done].
      apply (chain_ext h h' m m'); [done| |done]. intros o' Ho'. apply (P6 c'); [done|by apply (objects_of G c' fl H5); left|]. intros ->. by apply (Hother c' fl Hc' Hne H5).
  - rewrite Elg. apply Hok.
Qed.
(** Objects of different classes differ. *)
Lemma other_class h m G c o : heap_ok h m G -> (c < 8)%nat -> object G c o -> forall c' fl, (c' < 8)%nat -> c' <> c -> fl ++ used G c' ≡ₚ concat (map (objs c') (slabs G c')) -> o ∉ fl.
Proof.
  intros Hok Hc Ho c' fl Hc' Hne Hp Hin. pose proof (objects_of G c' fl Hp o (or_introl Hin)) as Ho'. destruct (class_facts c Hc) as (S1 & _), (class_facts c' Hc') as (S2 & _).
  destruct (objects_apart h m G Hok c o c' o Hc Hc' Ho Ho') as [[? _]|?]; [congruence|lia].
Qed.
Lemma object_addr h m G c o : heap_ok h m G -> (c < 8)%nat -> object G c o ->
  exists pg, pg ∈ slabs G c /\ o ∈ objs c pg /\ is_page (hw h m) pg /\ heap_v2p h (o + delta h) = o /\ Z.land (o + delta h) (u64 (Z.lnot (CARA_PAGE_SIZE - 1))) = pg + delta h /\ 0 < o + delta h < 2 ^ 64.
Proof.
  intros Hok Hc (pg & Hpg & Hop). destruct (objs_in c pg o Hc Hop) as (A1 & A2 & _). destruct (class_facts c Hc) as (S1 & _). pose proof (live_page _ _ (slab_live h m G Hok c pg Hc Hpg)) as Hp.
  destruct (v2p_eq h m (ho_phys _ _ _ Hok) (ho_va _ _ _ Hok) pg (o - pg) Hp ltac:(lia)) as [E1 E2]. pose proof (page_of_ptr h m (ho_phys _ _ _ Hok) (ho_va _ _ _ Hok) pg (o - pg) Hp ltac:(lia)) as E3.
  destruct (proj2 (ho_va _ _ _ Hok) pg Hp). replace (pg + delta h + (o - pg)) with (o + delta h) in * by lia. exists pg. split_and!; [done|done|done|rewrite E1; lia|done|lia|lia].
Qed.
Lemma zero_bytes_spec m p n a : (p <= a < p + n -> zero_bytes m p n a = 0) /\ (~ (p <= a < p + n) -> zero_bytes m p n a = m a).
Proof. unfold zero_bytes. destruct (Z.leb_spec p a), (Z.ltb_spec a (p + n)); cbn [andb]; split; (done || lia). Qed.

Lemma slab_take_spec h m G c ptr h' m' : heap_ok h m G -> (c < 8)%nat -> free_head (heap_class h (Z.of_nat c)) <> 0 -> slab_take h (Z.of_nat c) m = (ptr, h', m') ->
  exists o, ptr = o + delta h /\ 0 < ptr /\ object G c o /\ o ∉ used G c /\ heap_ok h' m' (set_used G c (o :: used G c)) /\ delta h' = delta h /\ h_pa h' = h_pa h /\
    (forall a, ~ (o <= a < o + size_of c) -> m' a = m a) /\ (forall a, o <= a < o + size_of c -> m' a = 0).
Proof.
  intros Hok Hc Hne E. destruct (ho_class _ _ _ Hok c Hc) as (Hsz & Hin & Hnd & fl & Hch & Hp). destruct fl as [|o fl]; [done|]. destruct Hch as [Ehead Hch].
  pose proof (objects_of G c _ Hp o ltac:(left; left)) as Ho. destruct (object_addr h m G c o Hok Hc Ho) as (pg & Hpg & Hop & Hpage & Ev & _ & Hpos).
  assert (NoDup ((o :: fl) ++ used G c)) as Hnd' by (rewrite Hp; by apply (objects_nodup h m G Hok c)). cbn [app] in Hnd'. apply NoDup_cons in Hnd' as [Hno _]. rewrite elem_of_app in Hno.
  unfold slab_take in E. rewrite Hsz, Ehead, Ev in E. injection E as <- Eh <-. change (heap_v2p _ (o + delta h)) with (heap_v2p h (o + delta h)) in *. rewrite Ev in *.
  exists o. split_and!; [done|lia|done|tauto| |by rewrite <- Eh|by rewrite <- Eh|intros a; apply zero_bytes_spec|intros a; apply zero_bytes_spec].
  assert (forall a, ~ (o <= a < o + size_of c) -> zero_bytes m o (size_of c) a = m a) as Hm by (intros a; apply zero_bytes_spec).
  rewrite <- Eh. match goal with |- heap_ok (set_bytes (set_class _ _ ?k) _) _ _ => apply (class_change h m G c o _ _ k (o :: used G c) Hok Hc Ho Hm); try reflexivity end.
  - unfold set_bytes, set_class. cbn [classes]. by rewrite Nat2Z.id.
  - cbn [bytes_in_flight set_bytes set_class]. rewrite bytes_set_used, (ho_bytes _ _ _ Hok) by done. unfold u64. rewrite Zplus_mod_idemp_l. f_equal. cbn [length]. lia.
  - cbn [in_flight length]. rewrite Hin. unfold u32. rewrite Zplus_mod_idemp_l. cbn [length]. f_equal; lia.
  - cbn [free_head]. exists fl. split; [|by rewrite <- Hp, <- Permutation_middle]. apply (chain_ext h _ m); [reflexivity| |done]. intros o' Ho'.
    destruct (object_store h m G Hok c o _ Hc Ho Hm) as (_ & _ & _ & _ & _ & P6). apply (P6 c); [done|by apply (objects_of G c _ Hp o'); left; right|]. intros ->. tauto.
  - by apply (other_class h m).
Qed.

Lemma chain_head h m G c head fl : heap_ok h m G -> (c < 8)%nat -> (forall o, o ∈ fl -> object G c o) -> chain h m head fl -> in_u64 head /\ (fl <> [] -> head <> 0).
Proof.
  intros Hok Hc Ho. destruct fl as [|o fl]; cbn; [intros ->; done|]. intros [-> _]. destruct (object_addr h m G c o Hok Hc ltac:(apply Ho; left)) as (_ & _ & _ & _ & _ & _ & H). unfold in_u64. split; [lia|intros _; lia].
Qed.
Lemma slab_free_spec h m G c o h' m' : heap_ok h m G -> (c < 8)%nat -> o ∈ used G c -> free_to h (o + delta h) m = (h', m') ->
  exists rest, used G c ≡ₚ o :: rest /\ heap_ok h' m' (set_used G c rest) /\ h_pa h' = h_pa h /\ delta h' = delta h /\ (forall a, ~ (o <= a < o + size_of c) -> m' a = m a).
Proof.
  intros Hok Hc Hu E. destruct (ho_class _ _ _ Hok c Hc) as (Hsz & Hin & Hnd & fl & Hch & Hp). pose proof (objects_of G c _ Hp o (or_intror Hu)) as Ho. destruct (class_facts c Hc) as (S1 & _).
  destruct (object_addr h m G c o Hok Hc Ho) as (pg & Hpg & Hop & Hpage & Ev & Epage & Hpos). destruct (ho_slab _ _ _ Hok c pg Hc Hpg) as [Emag Ecid].
  destruct (v2p_eq h m (ho_phys _ _ _ Hok) (ho_va _ _ _ Hok) pg 0 Hpage ltac:(lia)) as [E0 _]. destruct (v2p_eq h m (ho_phys _ _ _ Hok) (ho_va _ _ _ Hok) pg 4 Hpage ltac:(lia)) as [E4 U4]. rewrite !Z.add_0_r in E0.
  unfold free_to in E. rewrite Epage, E0, Emag in E. change (SLAB_MAGIC =? SLAB_MAGIC) with true in E. cbn iota in E. rewrite U4, E4, Ecid, Ev, Hsz in E.
  apply list_elem_of_split in Hu as (l1 & l2 & El). exists (l1 ++ l2). assert (used G c ≡ₚ o :: l1 ++ l2) as Hperm by (rewrite El; by rewrite <- Permutation_middle).
  injection E as Eh <-. assert (forall a, ~ (o <= a < o + size_of c) -> poke64 m o (free_head (heap_class h (Z.of_nat c))) a = m a) as Hm by (intros a Ha; apply poke64_frame; lia).
  assert (NoDup (fl ++ used G c)) as Hnd' by (rewrite Hp; by apply (objects_nodup h m G Hok c)). assert (o ∉ fl) as Hnf.
  { intros Hf. apply NoDup_app in Hnd' as (_ & H & _). apply (H o Hf). rewrite El. apply elem_of_app. right. left. }
  destruct (chain_head h m G c (free_head (heap_class h (Z.of_nat c))) fl Hok Hc) as [Hu64 _]; [intros o' Ho'; apply (objects_of G c fl Hp); by left|exact Hch|].
  split_and!; [done| |by rewrite <- Eh|by rewrite <- Eh|done]. rewrite <- Eh.
  match goal with |- heap_ok (mkHeap _ (<[_ := ?k]> _) _ _ _ _ _ _) _ _ => apply (class_change h m G c o _ _ k (l1 ++ l2) Hok Hc Ho Hm); try reflexivity end.
  - cbn [classes set_class]. by rewrite Nat2Z.id.
  - cbn [bytes_in_flight set_class]. rewrite bytes_set_used, (ho_bytes _ _ _ Hok) by done. unfold u64. rewrite Zminus_mod_idemp_l. f_equal. rewrite Hperm. cbn [length]. lia.
  - cbn [in_flight]. rewrite Hin, Hperm. unfold u32. rewrite Zminus_mod_idemp_l. f_equal. cbn [length]. lia.
  - cbn [free_head]. exists (o :: fl). split.
    + split; [reflexivity|]. rewrite peek64_poke64 by done. apply (chain_ext h _ m); [reflexivity| |done]. intros o' Ho'. destruct (object_store h m G Hok c o _ Hc Ho Hm) as (_ & _ & _ & _ & _ & P6).
      apply (P6 c); [done|by apply (objects_of G c _ Hp o'); left|]. by intros ->.
    + rewrite <- Hp, Hperm. cbn [app]. by rewrite Permutation_middle.
  - by apply (other_class h m).
Qed.

(** ** A new slab *)

Definition obj_at (c : nat) (pg i : Z) : Z := pg + first_off (size_of c) + i * size_of c.
Lemma carve_fold h c pg l m prev fl : (c < 8)%nat -> (forall i, 0 <= i < n_objs (size_of c) -> heap_v2p h (obj_at c pg i + delta h) = obj_at c pg i /\ 0 < obj_at c pg i + delta h < 2 ^ 64) ->
  (forall i, i ∈ l -> 0 <= i < n_objs (size_of c)) -> NoDup l -> (forall i, i ∈ l -> obj_at c pg i ∉ fl) -> (forall o, o ∈ fl -> o ∈ objs c pg) -> chain h m prev fl -> in_u64 prev ->
  let '(m', prev') := foldl (fun '(m, prev) i => let obj := u64 (pg + delta h + first_off (size_of c) + i * size_of c) in (poke64 m (heap_v2p h obj) prev, obj)) (m, prev) l in
  chain h m' prev' (rev (map (obj_at c pg) l) ++ fl) /\ in_u64 prev' /\ (forall a, ~ (pg + 24 <= a < pg + 4096) -> m' a = m a).
Proof.
  intros Hc Hv. revert m prev fl. induction l as [|i l IH]; intros m prev fl Hi Hnd Hnf Hfl Hch Hprev; cbn [foldl]; [done|].
  destruct (Hv i ltac:(apply Hi; left)) as [Ev Hr]. replace (pg + delta h + first_off (size_of c) + i * size_of c) with (obj_at c pg i + delta h) by (unfold obj_at; lia).
  rewrite (u64_small (obj_at c pg i + delta h)) by (unfold in_u64; lia). rewrite Ev. apply NoDup_cons in Hnd as [Hil Hnd]. destruct (class_facts c Hc) as (S1 & _).
  assert (obj_at c pg i ∈ objs c pg) as Hob by (apply list_elem_of_fmap; exists i; split; [done|]; apply elem_of_seqZ; specialize (Hi i ltac:(left)); lia). destruct (objs_in c pg _ Hc Hob) as (O1 & O2 & _).
  specialize (IH (poke64 m (obj_at c pg i) prev) (obj_at c pg i + delta h) (obj_at c pg i :: fl)).
  destruct (foldl _ _ l) as [m' prev']. destruct IH as (H1 & H2 & H3).
  - intros j Hj. apply Hi. by right.
  - done.
  - intros j Hj [E|Hin]%elem_of_cons; [|by apply (Hnf j); [right|]]. assert (j = i) as -> by (unfold obj_at in E; nia). done.
  - intros o [->|Ho]%elem_of_cons; [done|by apply Hfl].
  - split; [done|]. rewrite peek64_poke64 by done. apply (chain_ext h h m); [done| |done]. intros o Ho. apply peek64_ext. intros a Ha. apply poke64_frame.
    destruct (objs_apart c pg o (obj_at c pg i) Hc (Hfl o Ho) Hob) as [?|?]; [intros ->; by apply (Hnf i); [left|]|lia|lia].
  - unfold in_u64. lia.
  - split_and!; [|done|].
    + cbn [map rev]. rewrite <- app_assoc. exact H1.
    + intros a Ha. rewrite H3 by done. apply poke64_frame. lia.
Qed.

(** What stays when the pages the heap owns keep their contents. *)
Lemma old_kept h m G h1 m1 : heap_ok h m G -> delta h1 = delta h -> (forall q, is_page (hw h1 m1) q <-> is_page (hw h m) q) -> (forall q a, owned G q -> q <= a < q + 4096 -> m1 a = m a) ->
  va_ok h1 m1 /\ (forall c pg, (c < 8)%nat -> pg ∈ slabs G c -> peekn 4 m1 pg = SLAB_MAGIC /\ peekn 1 m1 (pg + 4) = Z.of_nat c) /\
  (forall p n, (p, n) ∈ large G -> 0 < n < 2 ^ 32 /\ peekn 4 m1 p = LARGE_MAGIC /\ peekn 4 m1 (p + 4) = n) /\
  (forall c fl head, (c < 8)%nat -> (forall o, o ∈ fl -> object G c o) -> chain h m head fl -> chain h1 m1 head fl).
Proof.
  intros Hok Hd Hpg Hm. split_and!.
  - split; rewrite Hd; [apply (ho_va _ _ _ Hok)|]. intros p Hp. apply (ho_va _ _ _ Hok). by apply Hpg.
  - intros c pg Hc Hp. destruct (ho_slab _ _ _ Hok c pg Hc Hp) as [E1 E2]. split; [transitivity (peekn 4 m pg); [|done]|transitivity (peekn 1 m (pg + 4)); [|done]]; apply peekn_ext; intros a Ha; (apply (Hm pg); [left; eauto|lia]).
  - intros p n Hl. destruct (ho_large _ _ _ Hok p n Hl) as (Hn & E1 & E2). split; [done|]. assert (owned G p) as Ho by (right; exists p, n; split; [done|apply span_index; exists 0; lia]).
    split; [transitivity (peekn 4 m p); [|done]|transitivity (peekn 4 m (p + 4)); [|done]]; apply peekn_ext; intros a Ha; apply (Hm p); (done || lia).
  - intros c fl head Hc Hfl. apply chain_ext; [done|]. intros o Ho. destruct (Hfl o Ho) as (pg & Hp & Hop). destruct (objs_in c pg o Hc Hop) as (A1 & A2 & _). destruct (class_facts c Hc) as (S1 & _).
    apply peek64_ext. intros a Ha. apply (Hm pg); [left; eauto|lia].
Qed.
Definition add_slab (G : Ghost) (c : nat) (pg : Z) : Ghost := mkG (on_class (slabs G) c (slabs G c ++ [pg])) (used G) (large G).
Lemma add_slab_in G c pg c' q : q ∈ slabs (add_slab G c pg) c' <-> q ∈ slabs G c' \/ (c' = c /\ q = pg).
Proof.
  cbn. unfold on_class. destruct (Nat.eqb_spec c' c) as [->|Hne]; [rewrite elem_of_app, list_elem_of_singleton; tauto|tauto].
Qed.
(** What an allocation of pages gives the heap. *)
Definition pages_added (w w' : World) (p n : Z) : Prop :=
  phys_ok w' /\ (forall q, is_page w' q <-> is_page w q) /\ (forall q, page_live w' q <-> page_live w q \/ span p n q) /\ (forall q, span p n q -> is_page w q /\ ~ page_live w q) /\
  (forall q a, page_live w q -> q <= a < q + 4096 -> w_mem w' a = w_mem w a).

Lemma slab_added h m G c pg h' m' k : heap_ok h m G -> (c < 8)%nat -> pages_added (hw h m) (hw h' m') pg 1 -> va_base h' = va_base h -> pa_base h' = pa_base h ->
  classes h' = <[c := k]> (classes h) -> large_in_flight h' = large_in_flight h -> bytes_in_flight h' = bytes_in_flight h ->
  obj_size k = obj_size (heap_class h (Z.of_nat c)) -> in_flight k = in_flight (heap_class h (Z.of_nat c)) -> free_head (heap_class h (Z.of_nat c)) = 0 ->
  peekn 4 m' pg = SLAB_MAGIC -> peekn 1 m' (pg + 4) = Z.of_nat c -> chain h' m' (free_head k) (rev (objs c pg)) -> heap_ok h' m' (add_slab G c pg).
Proof.
  intros Hok Hc (P1 & P2 & P3 & P4 & P5) Eva Epb Ecl Elg Eby Esz Ein Ehead Emag Ecid Hch. assert (delta h' = delta h) as Ed by (unfold delta; by rewrite Eva, Epb).
  assert (forall c', heap_class h' (Z.of_nat c') = if (c' =? c)%nat then k else heap_class h (Z.of_nat c')) as Ek.
  { intros c'. rewrite <- (class_set h c c' k (ho_len _ _ _ Hok) Hc). unfold heap_class, set_class. cbn [classes]. by rewrite Ecl, !Nat2Z.id. }
  destruct (old_kept h m G h' m' Hok Ed P2) as (K1 & K2 & K3 & K4); [intros q a Hq Ha; apply (P5 q a); [by apply (ho_live _ _ _ Hok)|done]|].
  destruct (P4 pg ltac:(by apply span_one)) as [Hpg Hnl]. assert (forall c', (c' < 8)%nat -> pg ∉ slabs G c') as Hnew by (intros c' Hc' H; by apply Hnl, (slab_live h m G Hok c')).
  split; try done; try apply Hok.
  - rewrite Ecl, length_insert. apply Hok.
  - intros q [(c' & Hc' & [Hq|[-> ->]]%add_slab_in)|Hl]; apply P3; [left; by apply (slab_live h m G Hok c')|right; by apply span_one|left; apply (ho_live _ _ _ Hok); by right].
  - intros c' q Hc' [Hq|[-> ->]]%add_slab_in; [by apply K2|done].
  - intros c1 c2 q H1 H2 [A|[-> ->]]%add_slab_in [B|[E1 E2]]%add_slab_in; [by apply (ho_slab_one _ _ _ Hok c1 c2 q)|subst; by destruct (Hnew c1 H1)|by destruct (Hnew c2 H2)|done].
  - intros c' q p n Hc' [Hq|[-> ->]]%add_slab_in Hl; [by apply (ho_large_slab _ _ _ Hok c')|]. intros Hs. by apply Hnl, (large_live h m G Hok p n).
  - intros c' Hc'. destruct (ho_class _ _ _ Hok c' Hc') as (H1 & H2 & H3 & fl & H4 & H5). unfold class_ok. rewrite Ek. cbn [slabs used add_slab]. unfold on_class. destruct (Nat.eqb_spec c' c) as [->|Hne].
    + rewrite Esz, Ein. split_and!; [done|done|apply NoDup_app; split_and!; [done|intros q Hq ->%list_elem_of_singleton; by apply (Hnew c)|apply NoDup_singleton]|]. exists (rev (objs c pg)). split; [done|].
      assert (fl = []) as -> by (destruct fl as [|o fl]; [done|]; destruct (chain_head h m G c _ _ Hok Hc (fun o' Ho' => objects_of G c _ H5 o' (or_introl Ho')) H4) as [_ H]; by destruct (H ltac:(done))).
      rewrite map_app, concat_app. cbn [map concat]. rewrite app_nil_r. cbn [app] in H5. rewrite H5, <- (Permutation_rev (objs c pg)). apply Permutation_app_comm.
    + split_and!; [done|done|done|]. exists fl. split; [|done]. apply (K4 c'); [done| |done]. intros o Ho. apply (objects_of G c' fl H5). by left.
  - rewrite Eby. apply Hok.
  - rewrite Elg. apply Hok.
Qed.

Lemma added_store w w1 p n m2 : pages_added w w1 p n -> 0 < n -> (forall a, ~ (p <= a < p + 4096) -> m2 a = w_mem w1 a) -> pages_added w (mkW (g_page_alloc w1) m2 (g_next_asid w1)) p n.
Proof.
  intros (P1 & P2 & P3 & P4 & P5) Hn Hm. assert (span p n p) as Hs by (apply span_index; exists 0; lia). destruct (P4 p Hs) as [Hp Hnl].
  destruct (store_page w1 P1 p m2 ltac:(by apply P2) Hm) as (S1 & S2 & S3). split_and!; [done|intros q; by rewrite S2|intros q; by rewrite S3|done|].
  intros q a Hq Ha. cbn. rewrite Hm; [by apply (P5 q)|]. assert (q <> p) as Hne by (by intros ->). destruct (pages_apart w1 q p P1 ltac:(apply P2; by apply live_page) ltac:(by apply P2) Hne); lia.
Qed.
Lemma heap_pages h m n p pa' m' : phys_ok (hw h m) -> 0 < n < 2 ^ 32 -> Page_Alloc (h_pa h) m n = (p, pa', m') ->
  (p = 0 /\ pa' = h_pa h /\ m' = m /\ (forall q, ~ forall k, 0 <= k < n -> page_is (h_pa h) m false (q + k * 4096))) \/
  (p <> 0 /\ pages_added (hw h m) (hw (set_pa h pa') m') p n /\ forall a, p <= a < p + n * 4096 -> m' a = 0).
Proof.
  intros Hw Hn E. destruct (alloc_pages (hw h m) Hw n p pa' m' Hn E) as [(-> & Ew & Hno)|(Hp0 & Hok & Hsp & Hip & Hlv & Hz & Hm)]; [left|right].
  - injection Ew as -> ->. done.
  - split_and!; [done| |done]. split_and!; [done|done|done|done|]. intros q a Hq Ha. apply (Hm q a); [by apply live_page|intros Hs; by apply (Hsp q Hs)|done].
Qed.
Lemma set_pa_same h : set_pa h (h_pa h) = h.
Proof. by destruct h. Qed.

Lemma slab_grow_spec h m G c rc h' m' : heap_ok h m G -> (c < 8)%nat -> free_head (heap_class h (Z.of_nat c)) = 0 -> slab_grow h (Z.of_nat c) m = (rc, h', m') ->
  (rc = CARA_ENOMEM /\ h' = h /\ m' = m /\ forall q, ~ page_is (h_pa h) m false q) \/
  (rc = CARA_EOK /\ exists pg, heap_ok h' m' (add_slab G c pg) /\ free_head (heap_class h' (Z.of_nat c)) <> 0 /\ delta h' = delta h /\ pages_added (hw h m) (hw h' m') pg 1).
Proof.
  intros Hok Hc Hz E. unfold slab_grow in E. destruct (Page_Alloc (h_pa h) m 1) as [[pg pa'] m1] eqn:Ea.
  destruct (heap_pages h m 1 pg pa' m1 (ho_phys _ _ _ Hok) ltac:(lia) Ea) as [(-> & -> & -> & Hno)|(Hp0 & Hadd & Hzero)].
  { left. cbn [Z.eqb] in E. rewrite set_pa_same in E. injection E as <- <- <-. split_and!; [done|done|done|]. intros q Hq. apply (Hno q). intros k Hk. by replace (q + k * 4096) with q by lia. }
  right. rewrite (proj2 (Z.eqb_neq pg 0)) in E by done. set (h1 := set_pa h pa') in *. pose proof Hadd as (P1 & P2 & P3 & P4 & P5). destruct (P4 pg ltac:(by apply span_one)) as [Hpg Hnl].
  assert (va_ok h m) as Hva0 by apply Hok. assert (va_ok h1 m1) as Hva by (split; [apply Hva0|intros q Hq; apply Hva0; by apply P2]). assert (is_page (hw h1 m1) pg) as Hpg1 by (by apply P2).
  pose proof (p2v_eq h1 m1 Hva pg Hpg1) as Ep. pose proof (v2p_eq h1 m1 P1 Hva pg) as Hv. change (delta h1) with (delta h) in *. rewrite Ep in E. destruct (Hv 0 Hpg1 ltac:(lia)) as [V0 _]. destruct (Hv 4 Hpg1 ltac:(lia)) as [V4 U4].
  rewrite !Z.add_0_r in V0. rewrite V0, U4, V4 in E. change (heap_class h1 (Z.of_nat c)) with (heap_class h (Z.of_nat c)) in E. destruct (ho_class _ _ _ Hok c Hc) as (Hsz & _). rewrite Hsz in E.
  set (m2 := poken 1 _ _ _) in E. assert (forall a, ~ (pg <= a < pg + 8) -> m2 a = m1 a) as Hm2 by (intros a Ha; unfold m2; rewrite !poken_frame; [done|lia|lia]).
  pose proof (carve_fold h1 c pg (seqZ 0 (n_objs (size_of c))) m2 0 [] Hc) as Hcarve. unfold carve_slab in E. change (delta h1) with (delta h) in Hcarve. destruct (class_facts c Hc) as (S1 & S2 & S3 & S4 & _).
  destruct (foldl _ (m2, 0) _) as [m3 prev]. destruct Hcarve as (C1 & C2 & C3); [|intros i Hi%elem_of_seqZ; lia|apply NoDup_seqZ|intros i _ H; by apply elem_of_nil in H|intros o H; by apply elem_of_nil in H|done|done|].
  { intros i Hi. destruct (Hv (first_off (size_of c) + i * size_of c) Hpg1 ltac:(nia)) as [V U]. unfold obj_at. replace (pg + first_off (size_of c) + i * size_of c + delta h) with (pg + delta h + (first_off (size_of c) + i * size_of c)) by lia.
    rewrite V. split; [lia|]. destruct (proj2 Hva0 pg Hpg). nia. }
  rewrite app_nil_r in C1. injection E as <- <- <-. split; [done|]. exists pg. change (map (obj_at c pg) (seqZ 0 (n_objs (size_of c)))) with (objs c pg) in C1.
  assert (pages_added (hw h m) (hw h1 m3) pg 1) as Hadd3 by (apply (added_store _ (hw h1 m1) pg 1 m3 Hadd ltac:(lia)); intros a Ha; rewrite C3, Hm2 by lia; done).
  split_and!; [|rewrite class_set, Nat.eqb_refl by (done || apply Hok); cbn [free_head]|done|done].
  - match goal with |- heap_ok (set_class _ _ ?k) _ _ => apply (slab_added h m G c pg (set_class h1 (Z.of_nat c) k) m3 k Hok Hc Hadd3); try reflexivity; try done end.
    + cbn [classes set_class set_pa h1]. by rewrite Nat2Z.id.
    + rewrite (peekn_ext 4 m2 m3) by (intros a Ha; apply C3; lia). unfold m2. rewrite peekn_other by (left; lia). by apply peekn_poken.
    + rewrite (peekn_ext 1 m2 m3) by (intros a Ha; apply C3; lia). unfold m2. rewrite u8_small by (unfold in_u8; lia). apply peekn_poken. change (2 ^ (8 * Z.of_nat 1)) with 256. lia.
    + apply (chain_ext h1 _ m3); [reflexivity|done|exact C1].
  - intros ->. assert (rev (objs c pg) <> []) as Hne.
    { intros E. apply (f_equal (@length Z)) in E. rewrite length_rev in E. unfold objs in E. rewrite length_map, length_seqZ in E. simpl in E. lia. }
    destruct (rev (objs c pg)) as [|o l] eqn:Er; [done|]. destruct C1 as [E _]. assert (o ∈ objs c pg) as Ho by (rewrite list_elem_of_In, in_rev, Er; by left).
    destruct (objs_in c pg o Hc Ho) as (A1 & A2 & _). destruct (proj2 Hva0 pg Hpg). change (delta h1) with (delta h) in E. lia.
Qed.

(** ** Large blocks *)

Definition set_large (G : Ghost) (l : list (Z * Z)) : Ghost := mkG (slabs G) (used G) l.
Definition large_bytes (l : list (Z * Z)) : Z := foldr (fun '(_, n) x => n * 4096 + x) 0 l.
Lemma bytes_set_large G l : bytes (set_large G l) = bytes G - large_bytes (large G) + large_bytes l.
Proof. unfold bytes, large_bytes, set_large. cbn [used large]. lia. Qed.
Lemma large_bytes_mid l1 p n l2 : large_bytes (l1 ++ (p, n) :: l2) = n * 4096 + large_bytes (l1 ++ l2).
Proof. unfold large_bytes. rewrite !foldr_app. cbn [foldr]. induction l1 as [|[q k] l1 IH]; cbn [foldr]; lia. Qed.

(** The fields of the invariant that do not mention the large blocks. *)
Lemma classes_kept h m G h1 m1 l : heap_ok h m G -> delta h1 = delta h -> classes h1 = classes h -> (forall c fl head, (c < 8)%nat -> (forall o, o ∈ fl -> object G c o) -> chain h m head fl -> chain h1 m1 head fl) ->
  forall c, (c < 8)%nat -> class_ok h1 m1 (set_large G l) c.
Proof.
  intros Hok Hd Ecl K c Hc. destruct (ho_class _ _ _ Hok c Hc) as (H1 & H2 & H3 & fl & H4 & H5). unfold class_ok, heap_class in *. rewrite Ecl. cbn [slabs used set_large]. split_and!; [done|done|done|].
  exists fl. split; [|done]. apply (K c); [done| |done]. intros o Ho. apply (objects_of G c fl H5). by left.
Qed.
Lemma large_alloc_spec h m G size ptr h' m' : heap_ok h m G -> 2048 < size < 2 ^ 43 -> large_alloc h size m = (ptr, h', m') ->
  let n := (size + 8 + 4095) / 4096 in
  (ptr = 0 /\ h' = h /\ m' = m /\ forall q, ~ forall k, 0 <= k < n -> page_is (h_pa h) m false (q + k * 4096)) \/
  (exists p, ptr = p + 8 + delta h /\ 0 < ptr /\ heap_ok h' m' (set_large G ((p, n) :: large G)) /\ delta h' = delta h /\ pages_added (hw h m) (hw h' m') p n /\ forall a, p + 8 <= a < p + n * 4096 -> m' a = 0).
Proof.
  intros Hok Hs E n. unfold large_alloc in E. assert (0 < n < 2 ^ 32) as Hn by (unfold n; dmlia).
  assert (u32 (u64 (u64 (u64 (size + LargeHeader_size) + CARA_PAGE_SIZE) - 1) / CARA_PAGE_SIZE) = n) as En.
  { unfold LargeHeader_size, CARA_PAGE_SIZE. rewrite (u64_small (size + 8)), (u64_small (size + 8 + 4096)), u64_small by (unfold in_u64; lia). replace (size + 8 + 4096 - 1) with (size + 8 + 4095) by lia. apply u32_small. fold n. unfold in_u32. lia. }
  rewrite En in E. destruct (Page_Alloc (h_pa h) m n) as [[p pa'] m1] eqn:Ea. destruct (heap_pages h m n p pa' m1 (ho_phys _ _ _ Hok) Hn Ea) as [(-> & -> & -> & Hno)|(Hp0 & Hadd & Hzero)].
  { left. cbn [Z.eqb] in E. rewrite set_pa_same in E. injection E as <- <- <-. done. }
  right. exists p. rewrite (proj2 (Z.eqb_neq p 0)) in E by done. set (h1 := set_pa h pa') in *. pose proof Hadd as (P1 & P2 & P3 & P4 & P5). assert (span p n p) as Hsp by (apply span_index; exists 0; lia). destruct (P4 p Hsp) as [Hpg Hnl].
  assert (va_ok h m) as Hva0 by apply Hok. assert (va_ok h1 m1) as Hva by (split; [apply Hva0|intros q Hq; apply Hva0; by apply P2]). assert (is_page (hw h1 m1) p) as Hpg1 by (by apply P2).
  pose proof (p2v_eq h1 m1 Hva p Hpg1) as Ep. pose proof (v2p_eq h1 m1 P1 Hva p) as Hv. change (delta h1) with (delta h) in *. rewrite Ep in E. destruct (Hv 0 Hpg1 ltac:(lia)) as [V0 _]. destruct (Hv 4 Hpg1 ltac:(lia)) as [V4 U4].
  destruct (Hv 8 Hpg1 ltac:(lia)) as [_ U8]. rewrite !Z.add_0_r in V0. unfold LargeHeader_size in E. rewrite V0, U4, V4, U8 in E. set (m2 := poken 4 _ (p + 4) _) in E.
  assert (forall a, ~ (p <= a < p + 8) -> m2 a = m1 a) as Hm2 by (intros a Ha; unfold m2; rewrite !poken_frame; [done|lia|lia]).
  assert (pages_added (hw h m) (hw h1 m2) p n) as Hadd2 by (apply (added_store _ (hw h1 m1) p n m2 Hadd ltac:(lia)); intros a Ha; apply Hm2; lia).
  destruct (proj2 Hva0 p Hpg). injection E as <- Eh <-. assert (hw h' m2 = hw h1 m2) as Ew by (by rewrite <- Eh). assert (delta h' = delta h) as Ed by (by rewrite <- Eh). pose proof Hadd2 as (Q1 & Q2 & Q3 & Q4 & Q5).
  split_and!; [lia|lia| |done|by rewrite Ew|intros a Ha; rewrite Hm2 by lia; apply Hzero; lia].
  destruct (old_kept h m G h' m2 Hok Ed ltac:(by rewrite Ew)) as (K1 & K2 & K3 & K4); [intros q a Hq Ha; apply (Q5 q a); [by apply (ho_live _ _ _ Hok)|done]|].
  assert (forall p' n', (p', n') ∈ large G -> forall q, span p' n' q -> ~ span p n q) as Hnew by (intros p' n' Hl q Hq Hq'; apply (P4 q Hq'), (large_live h m G Hok p' n'); done).
  split; rewrite ?Ew; try done; try apply Hok.
  - rewrite <- Eh. apply (ho_len _ _ _ Hok).
  - intros q [Hq|(p' & n' & [[= -> ->]|Hl]%elem_of_cons & Hq)]; apply Q3; [left; apply (ho_live _ _ _ Hok); by left|by right|left; by apply (large_live h m G Hok p' n')].
  - intros p' n' [[= -> ->]|Hl]%elem_of_cons; [|by apply K3]. split; [done|]. unfold m2. split; [rewrite peekn_other by (left; lia)|]; apply peekn_poken; [done|]. change (8 * Z.of_nat 4) with 32. lia.
  - intros c pg p' n' Hc Hpg' [[= -> ->]|Hl]%elem_of_cons; [|by apply (ho_large_slab _ _ _ Hok c)]. intros Hq. apply (P4 pg Hq). by apply (slab_live h m G Hok c).
  - intros p1 n1 p2 n2 q [[= -> ->]|H1]%elem_of_cons [[= -> ->]|H2]%elem_of_cons S1 S2; [done|by destruct (Hnew p2 n2 H2 q)|by destruct (Hnew p1 n1 H1 q)|by apply (ho_large_one _ _ _ Hok p1 n1 p2 n2 q)].
  - cbn [large set_large]. apply NoDup_cons. split; [|apply Hok]. intros Hl. by apply (Hnew p n Hl p).
  - apply (classes_kept h m G); [done|done|by rewrite <- Eh|done].
  - rewrite bytes_set_large. change ((p, n) :: large G) with ([] ++ (p, n) :: large G). rewrite large_bytes_mid. cbn [app]. rewrite <- Eh. cbn [bytes_in_flight set_bytes set_pa h1]. rewrite (ho_bytes _ _ _ Hok).
    unfold u64, CARA_PAGE_SIZE. rewrite Zplus_mod_idemp_l, Zplus_mod_idemp_r. f_equal. lia.
  - rewrite <- Eh. cbn [large_in_flight set_bytes set_pa h1 large set_large length]. rewrite (ho_larges _ _ _ Hok). unfold u32. rewrite Zplus_mod_idemp_l. f_equal; lia.
Qed.
Lemma large_free_spec h m G p n h' m' : heap_ok h m G -> (p, n) ∈ large G -> free_to h (p + 8 + delta h) m = (h', m') ->
  exists l1 l2, large G = l1 ++ (p, n) :: l2 /\ heap_ok h' m' (set_large G (l1 ++ l2)) /\ delta h' = delta h /\ same_pages (hw h m) (hw h' m') /\
    forall q, page_live (hw h' m') q <-> page_live (hw h m) q /\ ~ span p n q.
Proof.
  intros Hok Hin E. destruct (ho_large _ _ _ Hok p n Hin) as (Hn & Emag & En). assert (span p n p) as Hsp by (apply span_index; exists 0; lia). pose proof (live_page _ _ (large_live h m G Hok p n p Hin Hsp)) as Hpg.
  pose proof (v2p_eq h m (ho_phys _ _ _ Hok) (ho_va _ _ _ Hok) p) as Hv. destruct (Hv 0 Hpg ltac:(lia)) as [V0 _]. destruct (Hv 4 Hpg ltac:(lia)) as [V4 U4]. rewrite !Z.add_0_r in V0.
  unfold free_to in E. replace (p + 8 + delta h) with (p + delta h + 8) in E by lia. rewrite (page_of_ptr h m (ho_phys _ _ _ Hok) (ho_va _ _ _ Hok) p 8 Hpg) in E by lia. rewrite V0, Emag in E.
  change (LARGE_MAGIC =? SLAB_MAGIC) with false in E. change (LARGE_MAGIC =? LARGE_MAGIC) with true in E. cbn iota in E. rewrite U4, V4, En in E. destruct (Page_Free (h_pa h) m p n) as [pa' m1] eqn:Ef.
  destruct (free_pages (hw h m) (ho_phys _ _ _ Hok) n p pa' m1 ltac:(lia) ltac:(intros q Hq; by apply (large_live h m G Hok p n)) Ef) as (F1 & F2 & F3). injection E as Eh <-.
  assert (hw h' m1 = mkW pa' m1 0) as Ew by (by rewrite <- Eh). assert (delta h' = delta h) as Ed by (by rewrite <- Eh). change (mkW pa' m1 (g_next_asid (hw h m))) with (mkW pa' m1 0) in *. rewrite <- Ew in F1, F2, F3.
  apply list_elem_of_split in Hin as (l1 & l2 & El). exists l1, l2. split_and!; [done| |done|done|done]. pose proof (ho_large_nodup _ _ _ Hok) as Hnd. rewrite El in Hnd.
  assert (forall x, x ∈ l1 ++ l2 -> x ∈ large G /\ x <> (p, n)) as Hsub.
  { intros x Hx. apply NoDup_app in Hnd as (_ & N1 & N2). apply NoDup_cons in N2 as [N2 _]. rewrite El. apply elem_of_app in Hx as [Hx|Hx]; (split; [apply elem_of_app; (by left) || (right; by right)|intros ->]); [|done]. apply (N1 _ Hx). left. }
  destruct F2 as [F2 F2']. destruct (old_kept h m G h' m1 Hok Ed F2) as (K1 & K2 & K3 & K4); [intros q a Hq Ha; apply (F2' q a); [apply live_page; by apply (ho_live _ _ _ Hok)|done]|].
  split; try done; try apply Hok.
  - rewrite <- Eh. apply (ho_len _ _ _ Hok).
  - intros q Hq. apply F3. destruct Hq as [(c & Hc & Hq)|(p' & n' & Hl & Hq)].
    + split; [by apply (slab_live h m G Hok c)|]. apply (ho_large_slab _ _ _ Hok c q p n Hc Hq). rewrite El. apply elem_of_app. right. left.
    + destruct (Hsub _ Hl) as [Hl' Hne]. split; [by apply (large_live h m G Hok p' n')|]. intros Hq'. apply Hne. symmetry. apply (ho_large_one _ _ _ Hok p n p' n' q); try done. rewrite El. apply elem_of_app. right. left.
  - intros p' n' Hl. apply K3. by apply Hsub.
  - intros c pg p' n' Hc Hp Hl. apply (ho_large_slab _ _ _ Hok c pg p' n' Hc Hp). by apply Hsub.
  - intros p1 n1 p2 n2 q H1 H2. apply (ho_large_one _ _ _ Hok p1 n1 p2 n2 q); by apply Hsub.
  - cbn [large set_large]. rewrite <- Permutation_middle in Hnd. by apply NoDup_cons in Hnd as [_ Hnd].
  - apply (classes_kept h m G); [done|done|by rewrite <- Eh|done].
  - rewrite bytes_set_large, El, large_bytes_mid. rewrite <- Eh. cbn [bytes_in_flight]. rewrite (ho_bytes _ _ _ Hok). unfold u64, CARA_PAGE_SIZE. rewrite Zminus_mod_idemp_l, Zminus_mod_idemp_r. f_equal. lia.
  - rewrite <- Eh. cbn [large_in_flight large set_large]. rewrite (ho_larges _ _ _ Hok), El, !length_app. unfold u32. rewrite Zminus_mod_idemp_l. f_equal. cbn [length]. lia.
Qed.

(** * Blocks *)

Lemma used_object h m G c o : heap_ok h m G -> (c < 8)%nat -> o ∈ used G c -> object G c o.
Proof. intros Hok Hc Ho. destruct (ho_class _ _ _ Hok c Hc) as (_ & _ & _ & fl & _ & Hp). apply (objects_of G c fl Hp). by right. Qed.
Lemma blocks_apart h m G a l b k : heap_ok h m G -> block G a l -> block G b k -> (a, l) = (b, k) \/ a + l <= b \/ b + k <= a.
Proof.
  intros Hok [(c & Hc & Ha & ->)|(p & n & Hl & -> & ->)] [(c' & Hc' & Hb & ->)|(p' & n' & Hl' & -> & ->)].
  - destruct (objects_apart h m G Hok c a c' b Hc Hc' (used_object h m G c a Hok Hc Ha) (used_object h m G c' b Hok Hc' Hb)) as [[-> ->]|?]; [by left|by right].
  - right. destruct (large_apart h m G Hok c a p' n' Hc (used_object h m G c a Hok Hc Ha) Hl'); lia.
  - right. destruct (large_apart h m G Hok c' b p n Hc' (used_object h m G c' b Hok Hc' Hb) Hl); lia.
  - destruct (ho_large _ _ _ Hok p n Hl) as ([Hn _] & _), (ho_large _ _ _ Hok p' n' Hl') as ([Hn' _] & _).
    assert (is_page (hw h m) p /\ is_page (hw h m) p') as [Hp Hp'] by (split; apply live_page; [apply (large_live h m G Hok p n p Hl)|apply (large_live h m G Hok p' n' p' Hl')]; apply span_index; exists 0; lia).
    destruct (ph_page _ (ho_phys _ _ _ Hok) p Hp), (ph_page _ (ho_phys _ _ _ Hok) p' Hp'). destruct (Z.le_gt_cases (p + n * 4096) p'); [right; lia|]. destruct (Z.le_gt_cases (p' + n' * 4096) p); [right; lia|].
    left. assert ((p, n) = (p', n')) as [= -> ->]; [|done]. apply (ho_large_one _ _ _ Hok p n p' n' (Z.max p p') Hl Hl'); unfold span; destruct (Z.max_spec p p') as [[? ->]|[? ->]]; dmlia.
Qed.
Lemma block_owned h m G a l x : heap_ok h m G -> block G a l -> a <= x < a + l -> exists q, owned G q /\ q <= x < q + 4096.
Proof.
  intros Hok [(c & Hc & Ha & ->)|(p & n & Hl & -> & ->)] Hx.
  - destruct (used_object h m G c a Hok Hc Ha) as (pg & Hp & Ho). destruct (objs_in c pg a Hc Ho) as (A1 & A2 & _). exists pg. split; [left; eauto|lia].
  - exists (p + (x - p) / 4096 * 4096). split; [right; exists p, n; split; [done|apply span_index; exists ((x - p) / 4096); dmlia]|dmlia].
Qed.
Definition same_blocks (G G' : Ghost) : Prop := forall a l, block G' a l <-> block G a l.
Lemma add_slab_blocks G c pg : same_blocks G (add_slab G c pg).
Proof. intros a l. unfold block. cbn [used large add_slab]. done. Qed.
Lemma block_used G c o : (c < 8)%nat -> forall b k, block (set_used G c (o :: used G c)) b k <-> block G b k \/ (b, k) = (o, size_of c).
Proof.
  intros Hc b k. unfold block. cbn [used large set_used]. split.
  - intros [(c' & Hc' & Hb & ->)|Hl]; [|by left; right]. unfold on_class in Hb. destruct (Nat.eqb_spec c' c) as [->|Hne]; [apply elem_of_cons in Hb as [->|Hb]; [by right|]|]; left; left; eauto.
  - intros [[(c' & Hc' & Hb & ->)|Hl]|[= -> ->]]; [left; exists c'|by right|left; exists c]; (split; [done|]; split; [|done]); [|rewrite on_class_eq; left].
    unfold on_class. destruct (Nat.eqb_spec c' c) as [->|Hne]; [by right|done].
Qed.
Lemma block_unused h m G c o rest : heap_ok h m G -> (c < 8)%nat -> used G c ≡ₚ o :: rest -> forall b k, block (set_used G c rest) b k <-> block G b k /\ (b, k) <> (o, size_of c).
Proof.
  intros Hok Hc Hp b k. destruct (ho_class _ _ _ Hok c Hc) as (_ & _ & Hnd & fl & _ & Hpe). assert (NoDup (used G c)) as Hnu.
  { pose proof (objects_nodup h m G Hok c Hc Hnd) as N. rewrite <- Hpe in N. by apply NoDup_app in N as (_ & _ & N). }
  rewrite Hp in Hnu. apply NoDup_cons in Hnu as [Hor _]. assert (o ∈ used G c) as Hou by (rewrite Hp; left). pose proof (used_object h m G c o Hok Hc Hou) as Ho. destruct (class_facts c Hc) as (S1 & _). unfold block. cbn [used large set_used]. split.
  - intros [(c' & Hc' & Hb & ->)|(p & n & Hl & -> & ->)].
    + unfold on_class in Hb. destruct (Nat.eqb_spec c' c) as [->|Hne].
      * split; [left; exists c; split_and!; [done|rewrite Hp; by right|done]|]. by intros [= ->].
      * split; [left; eauto|]. intros [= -> _]. destruct (class_facts c' Hc') as (S2 & _). destruct (objects_apart h m G Hok c o c' o Hc Hc' Ho (used_object h m G c' o Hok Hc' Hb)) as [[? _]|?]; [congruence|lia].
    + split; [right; eauto|]. intros [= E _]. destruct (ho_large _ _ _ Hok p n Hl) as ([Hn _] & _). destruct (large_apart h m G Hok c o p n Hc Ho Hl); lia.
  - intros [[(c' & Hc' & Hb & ->)|Hl] Hne]; [left; exists c'; split; [done|]; split; [|done]|by right]. unfold on_class. destruct (Nat.eqb_spec c' c) as [->|Hn]; [|done]. rewrite Hp in Hb. apply elem_of_cons in Hb as [->|Hb]; [done|done].
Qed.
Lemma block_large G p n : forall b k, block (set_large G ((p, n) :: large G)) b k <-> block G b k \/ (b, k) = (p + 8, n * 4096 - 8).
Proof.
  intros b k. unfold block. cbn [used large set_large]. split.
  - intros [Hu|(p' & n' & [[= -> ->]|Hl]%elem_of_cons & -> & ->)]; [by left; left|by right|left; right; eauto].
  - intros [[Hu|(p' & n' & Hl & -> & ->)]|[= -> ->]]; [by left|right; exists p', n'; split; [by right|done]|right; exists p, n; split; [left|done]].
Qed.
Lemma block_unlarge h m G p n l1 l2 : heap_ok h m G -> large G = l1 ++ (p, n) :: l2 -> forall b k, block (set_large G (l1 ++ l2)) b k <-> block G b k /\ (b, k) <> (p + 8, n * 4096 - 8).
Proof.
  intros Hok El b k. pose proof (ho_large_nodup _ _ _ Hok) as Hnd. rewrite El in Hnd. rewrite <- Permutation_middle in Hnd. apply NoDup_cons in Hnd as [Hno _].
  assert (forall x, x ∈ large G <-> x = (p, n) \/ x ∈ l1 ++ l2) as Hin by (intros x; rewrite El, !elem_of_app, elem_of_cons; tauto). unfold block. cbn [used large set_large]. split.
  - intros [(c & Hc & Hb & ->)|(p' & n' & Hl & -> & ->)].
    + split; [left; eauto|]. intros [= -> _]. assert ((p, n) ∈ large G) as Hl by (apply Hin; by left). destruct (ho_large _ _ _ Hok p n Hl) as ([Hn _] & _). destruct (class_facts c Hc) as (S1 & _).
      destruct (large_apart h m G Hok c (p + 8) p n Hc (used_object h m G c _ Hok Hc Hb) Hl); lia.
    + split; [right; exists p', n'; split; [apply Hin; by right|done]|]. intros [= E1 E2]. apply Hno. replace p with p' by lia. replace n with n' by lia. done.
  - intros [[Hu|(p' & n' & Hl & -> & ->)] Hne]; [by left|]. apply Hin in Hl as [[= -> ->]|Hl]; [done|]. right. eauto.
Qed.

(** ** The operations on blocks *)

(** Pages in use that the heap does not own are none of its business. *)
Definition outside_kept (h : Heap) (m : memory) (G : Ghost) (h' : Heap) (m' : memory) : Prop :=
  forall q, page_live (hw h m) q -> ~ owned G q -> page_live (hw h' m') q /\ forall x, q <= x < q + 4096 -> m' x = m x.
Definition blocks_kept (m : memory) (G : Ghost) (P : Z -> Z -> Prop) (m' : memory) : Prop := forall b k x, block G b k -> P b k -> b <= x < b + k -> m' x = m x.

Lemma take_blocks h m G c ptr h' m' : heap_ok h m G -> (c < 8)%nat -> free_head (heap_class h (Z.of_nat c)) <> 0 -> slab_take h (Z.of_nat c) m = (ptr, h', m') ->
  exists G' a, ptr = a + delta h' /\ 0 < ptr /\ heap_ok h' m' G' /\ delta h' = delta h /\ (forall b k, block G' b k <-> block G b k \/ (b, k) = (a, size_of c)) /\ ~ block G a (size_of c) /\
    (forall x, a <= x < a + size_of c -> m' x = 0) /\ blocks_kept m G (fun _ _ => True) m' /\ outside_kept h m G h' m'.
Proof.
  intros Hok Hc Hf E. destruct (slab_take_spec h m G c ptr h' m' Hok Hc Hf E) as (o & -> & Hpos & Ho & Hnu & Hok' & Ed & Epa & Hm & Hz). exists (set_used G c (o :: used G c)), o. destruct (class_facts c Hc) as (S1 & _).
  assert (~ block G o (size_of c)) as Hnb.
  { intros [(c' & Hc' & Hb & Es)|(p & n & Hl & -> & _)].
    - destruct (class_facts c' Hc') as (S2 & _). destruct (objects_apart h m G Hok c o c' o Hc Hc' Ho (used_object h m G c' o Hok Hc' Hb)) as [[<- _]|?]; [done|lia].
    - destruct (ho_large _ _ _ Hok p n Hl) as ([Hn _] & _). destruct (large_apart h m G Hok c (p + 8) p n Hc Ho Hl); lia. }
  pose proof (block_used G c o Hc) as Hbu. split_and!; [by rewrite Ed|done|done|done|done|done|done| |].
  - intros b k x Hb _ Hx. apply Hm. intros Hx'. destruct (blocks_apart h' m' _ o (size_of c) b k Hok' ltac:(apply Hbu; by right) ltac:(apply Hbu; by left)) as [[= <- <-]|?]; [done|lia].
  - intros q Hq Hno. destruct Ho as (pg & Hp & Hop). destruct (objs_in c pg o Hc Hop) as (A1 & A2 & _). assert (owned G pg) as Hpo by (left; eauto).
    destruct (object_store h m G Hok c o m' Hc ltac:(by exists pg) Hm) as (_ & _ & P3 & _). split; [unfold hw; rewrite Epa; by apply P3|]. intros x Hx. apply Hm. intros Hx'.
    destruct (pages_apart (hw h m) q pg (ho_phys _ _ _ Hok)) as [?|?]; [by apply live_page|apply live_page; by apply (ho_live _ _ _ Hok)|by intros ->|lia|lia].
Qed.
Lemma added_kept h m G h' m' p n : heap_ok h m G -> pages_added (hw h m) (hw h' m') p n -> blocks_kept m G (fun _ _ => True) m' /\ outside_kept h m G h' m'.
Proof.
  intros Hok (P1 & P2 & P3 & P4 & P5). split.
  - intros b k x Hb _ Hx. destruct (block_owned h m G b k x Hok Hb Hx) as (q & Hq & Hqx). apply (P5 q); [by apply (ho_live _ _ _ Hok)|done].
  - intros q Hq Hno. split; [apply P3; by left|]. intros x Hx. by apply (P5 q).
Qed.
(** How many pages a request may need. *)
Definition pages_needed (size : Z) : Z := if size <=? 2048 then 1 else (size + 8 + 4095) / 4096.
Lemma alloc_blocks h m G size ptr oh m' : heap_ok h m G -> 0 < size < 2 ^ 43 -> alloc_from (Some h) size m = (ptr, oh, m') ->
  (ptr = 0 /\ oh = Some h /\ m' = m /\ forall q, ~ forall k, 0 <= k < pages_needed size -> page_is (h_pa h) m false (q + k * 4096)) \/
  (exists h' G' a l, oh = Some h' /\ ptr = a + delta h' /\ 0 < ptr /\ size <= l /\ heap_ok h' m' G' /\ delta h' = delta h /\
    (forall b k, block G' b k <-> block G b k \/ (b, k) = (a, l)) /\ ~ block G a l /\ (forall x, a <= x < a + l -> m' x = 0) /\ blocks_kept m G (fun _ _ => True) m' /\ outside_kept h m G h' m').
Proof.
  intros Hok Hs E. unfold alloc_from in E. rewrite (proj2 (Z.eqb_neq size 0)) in E by lia. destruct (size_to_class_spec size ltac:(lia)) as [[Hbig Ec]|(c & Hc & Ec & Hsc)]; rewrite Ec in E.
  - change (8 <? CARA_HEAP_NUM_CLASSES) with false in E. cbn iota in E. destruct (large_alloc h size m) as [[p h1] m1] eqn:El. injection E as <- <- <-.
    unfold pages_needed. rewrite (proj2 (Z.leb_gt _ _)) by lia. destruct (large_alloc_spec h m G size p h1 m1 Hok ltac:(lia) El) as [(-> & -> & -> & Hno)|(pg & -> & Hpos & Hok' & Ed & Hadd & Hz)]; [by left|right].
    set (n := (size + 8 + 4095) / 4096) in *. destruct (added_kept h m G h1 m1 pg n Hok Hadd) as [K1 K2]. exists h1, (set_large G ((pg, n) :: large G)), (pg + 8), (n * 4096 - 8).
    split_and!; [done|by rewrite Ed|done|unfold n; dmlia|done|done|apply block_large| |intros x Hx; apply Hz; lia|done|done].
    intros Hb. assert (0 < n) as Hn by (unfold n; dmlia). destruct (block_owned h m G (pg + 8) (n * 4096 - 8) (pg + 8) Hok Hb ltac:(lia)) as (q & Hq & Hqx). pose proof (ho_live _ _ _ Hok q Hq) as Hlq.
    destruct Hadd as (P1 & P2 & _ & P4 & _). destruct (P4 pg ltac:(apply span_index; exists 0; lia)) as [Hpg Hnl].
    destruct (pages_apart (hw h m) q pg (ho_phys _ _ _ Hok)) as [?|?]; [by apply live_page|done|by intros ->|lia|lia].
  - rewrite (proj2 (Z.ltb_lt _ _)) in E by (unfold CARA_HEAP_NUM_CLASSES; lia). assert (pages_needed size = 1) as ->.
    { unfold pages_needed. destruct (class_facts c Hc) as (S1 & _). by rewrite (proj2 (Z.leb_le _ _)) by lia. }
    destruct (Z.eqb_spec (free_head (heap_class h (Z.of_nat c))) 0) as [Hf|Hf].
    + destruct (slab_grow h (Z.of_nat c) m) as [[rc h1] m1] eqn:Eg. destruct (slab_grow_spec h m G c rc h1 m1 Hok Hc Hf Eg) as [(-> & -> & -> & Hno)|(-> & pg & Hok1 & Hf1 & Ed1 & Hadd)].
      * left. cbn in E. injection E as <- <- <-. split_and!; [done|done|done|]. intros q Hq. apply (Hno q). specialize (Hq 0 ltac:(lia)). by rewrite Z.mul_0_l, Z.add_0_r in Hq.
      * right. change (negb (CARA_EOK =? CARA_EOK)) with false in E. cbn iota in E. destruct (slab_take h1 (Z.of_nat c) m1) as [[obj h2] m2] eqn:Et. injection E as <- <- <-.
        destruct (take_blocks h1 m1 _ c obj h2 m2 Hok1 Hc Hf1 Et) as (G' & a & -> & Hpos & Hok2 & Ed2 & Hb & Hnb & Hz & K1 & K2). destruct (added_kept h m G h1 m1 pg 1 Hok Hadd) as [L1 L2].
        pose proof Hadd as (_ & _ & P3 & P4 & _). destruct (P4 pg ltac:(by apply span_one)) as [_ Hnl].
        exists h2, G', a, (size_of c). split_and!; [done|done|done|done|done|congruence|done|done|done| |].
        -- intros b k x Hbk _ Hx. rewrite (K1 b k x); [by apply (L1 b k)|done|done|done].
        -- intros q Hq Hno. destruct (L2 q Hq Hno) as [Hq1 Hx1]. destruct (K2 q Hq1) as [Hq2 Hx2]; [|split; [done|]; intros x Hx; rewrite Hx2 by done; by apply Hx1].
           intros [(c' & Hc' & [Hin|[_ ->]]%add_slab_in)|Hl]; [apply Hno; left; eauto|done|apply Hno; by right].
    + right. destruct (slab_take h (Z.of_nat c) m) as [[obj h2] m2] eqn:Et. injection E as <- <- <-.
      destruct (take_blocks h m G c obj h2 m2 Hok Hc Hf Et) as (G' & a & -> & Hpos & Hok2 & Ed2 & Hb & Hnb & Hz & K1 & K2). exists h2, G', a, (size_of c). by split_and!.
Qed.
Lemma free_blocks h m G a l h' m' : heap_ok h m G -> block G a l -> free_to h (a + delta h) m = (h', m') ->
  exists G', heap_ok h' m' G' /\ delta h' = delta h /\ (forall b k, block G' b k <-> block G b k /\ (b, k) <> (a, l)) /\ blocks_kept m G (fun b k => (b, k) <> (a, l)) m' /\ outside_kept h m G h' m'.
Proof.
  intros Hok Hb E. pose proof Hb as [(c & Hc & Hu & ->)|(p & n & Hl & -> & ->)].
  - destruct (slab_free_spec h m G c a h' m' Hok Hc Hu E) as (rest & Hp & Hok' & Epa & Ed & Hm). exists (set_used G c rest). split_and!; [done|done|by apply (block_unused h m)| |].
    + intros b k x Hbk Hne Hx. apply Hm. intros Hx'. destruct (blocks_apart h m G a (size_of c) b k Hok Hb Hbk) as [?|?]; [congruence|lia].
    + intros q Hq Hno. pose proof (used_object h m G c a Hok Hc Hu) as Ho. destruct (object_store h m G Hok c a m' Hc Ho Hm) as (_ & _ & P3 & _). split; [unfold hw; rewrite Epa; by apply P3|].
      intros x Hx. apply Hm. intros Hx'. destruct (block_owned h m G a (size_of c) x Hok Hb Hx') as (q' & Hq' & Hqx'). 
      destruct (pages_apart (hw h m) q q' (ho_phys _ _ _ Hok)) as [?|?]; [by apply live_page|apply live_page; by apply (ho_live _ _ _ Hok)|by intros ->|lia|lia].
  - destruct (large_free_spec h m G p n h' m' Hok Hl E) as (l1 & l2 & El & Hok' & Ed & [_ Hsm] & Hlv). exists (set_large G (l1 ++ l2)). split_and!; [done|done|by apply (block_unlarge h m)| |].
    + intros b k x Hbk _ Hx. destruct (block_owned h m G b k x Hok Hbk Hx) as (q & Hq & Hqx). apply (Hsm q); [apply live_page; by apply (ho_live _ _ _ Hok)|done].
    + intros q Hq Hno. split; [apply Hlv; split; [done|]; intros Hs; apply Hno; right; eauto|]. intros x Hx. apply (Hsm q); [by apply live_page|done].
Qed.

(** A fresh heap has no blocks. *)
Definition empty : Ghost := mkG (fun _ => []) (fun _ => []) [].
Lemma heap_init_ok pa m h0 h : phys_ok (mkW pa m 0) -> Heap_Init (Some h0) (Some pa) = Ok h -> heap_ok h m empty.
Proof.
  intros Hw [= <-]. split; try done.
  - split; [done|]. intros p Hp. destruct (ph_page _ Hw p Hp) as [_ Hr]. unfold delta. cbn. unfold CARA_KERNEL_VA_OFFSET. lia.
  - intros q [(c & _ & Hq)|(p & n & Hl & _)]; [by apply elem_of_nil in Hq|by apply elem_of_nil in Hl].
  - intros c pg _ Hq. by apply elem_of_nil in Hq.
  - intros c c' pg _ _ Hq. by apply elem_of_nil in Hq.
  - intros p n Hl. by apply elem_of_nil in Hl.
  - intros c pg p n _ Hq. by apply elem_of_nil in Hq.
  - intros p n p' n' q Hl. by apply elem_of_nil in Hl.
  - constructor.
  - intros c Hc. do 8 (destruct c as [|c]; [split_and!; [done|done|constructor|exists []; done]|]). lia.
Qed.
Lemma block_addr h m G a l : heap_ok h m G -> block G a l -> 0 < a + delta h.
Proof.
  intros Hok [(c & Hc & Hu & _)|(p & n & Hl & -> & _)].
  - destruct (object_addr h m G c a Hok Hc (used_object h m G c a Hok Hc Hu)) as (_ & _ & _ & _ & _ & _ & H). lia.
  - destruct (ho_large _ _ _ Hok p n Hl) as ([Hn _] & _). destruct (proj2 (ho_va _ _ _ Hok) p) as [? _]; [apply live_page, (large_live h m G Hok p n p Hl), span_index; exists 0; lia|lia].
Qed.
(** [Croi_Free] finds the heap of a pointer by the shared window. *)
Lemma free_routes ptr g m h : ptr <> 0 ->
  (g_active_heap g = Some h -> g_shared_heap g = None \/ ~ (g_shared_lo g <= ptr < g_shared_hi g) ->
     Croi_Free ptr g m = (mkHeaps (Some (fst (free_to h ptr m))) (g_shared_heap g) (g_shared_lo g) (g_shared_hi g), snd (free_to h ptr m))) /\
  (g_shared_heap g = Some h -> g_shared_lo g <= ptr < g_shared_hi g ->
     Croi_Free ptr g m = (mkHeaps (g_active_heap g) (Some (fst (free_to h ptr m))) (g_shared_lo g) (g_shared_hi g), snd (free_to h ptr m))).
Proof.
  intros Hp. unfold Croi_Free. rewrite (proj2 (Z.eqb_neq ptr 0) Hp). split.
  - intros -> Hout.  destruct (g_shared_heap g) as [h1|]; [|by destruct (free_to h ptr m)].
    destruct ((g_shared_lo g <=? ptr) && (ptr <? g_shared_hi g)) eqn:E; [zbool; destruct Hout as [?|?]; [done|lia]|]. by destruct (free_to h ptr m).
  - intros -> Hin. rewrite (proj2 (Z.leb_le _ _)), (proj2 (Z.ltb_lt _ _)) by lia. cbn [andb]. by destruct (free_to h ptr m).
Qed.


Module HeapExample.
Definition h0 : Heap := mkHeap PageExample.init (map (fun size => mkClass size 0 0 0 []) g_class_sizes) 0 0 0 0 0 0.
Definition g0 : Heaps := mkHeaps (Some h0) None 0 0.
Lemma h0_ok : heap_ok h0 PageExample.m0 empty.
Proof. apply (heap_init_ok PageExample.init _ h0); [|reflexivity]. destruct PtExample.w0_ok as [H1 H2]. split; [exact H1|exact H2]. Qed.
Definition m1 : memory := snd (Croi_Alloc 100 g0 PageExample.m0).
Definition g1 : Heaps := snd (fst (Croi_Alloc 100 g0 PageExample.m0)).
Definition p1 : Z := 0xFFFFFFC080201F80.
Lemma alloc100_eq : Croi_Alloc 100 g0 PageExample.m0 = (p1, g1, m1).
Proof. unfold g1, m1. rewrite (surjective_pairing (Croi_Alloc 100 g0 PageExample.m0)) at 1. rewrite (surjective_pairing (fst _)) at 1. do 2 f_equal. Qed.
(** The size of a large request is added to the header at 64 bits without a check: a request for almost
    all of the address space gets one page. *)
Example large_alloc_overflows : exists h', alloc_from (Some h0) (2 ^ 64 - 4) PageExample.m0 = (0xFFFFFFC080201008, Some h', snd (alloc_from (Some h0) (2 ^ 64 - 4) PageExample.m0)) /\
  pa_free (h_pa h') = pa_free PageExample.init - 1.
Proof.
  eexists. split; [rewrite (surjective_pairing (alloc_from (Some h0) (2 ^ 64 - 4) PageExample.m0)) at 1; f_equal|reflexivity].
Qed.
End HeapExample.
